(* ===== verification/_CoqProject ===== *)
-Q . S2P
Prelude.v
CLib.v
Util.v
Sds.v
SdsNum.v
Split.v
Dict.v
Iter.v
Scan.v
IntSet.v
Crc64.v
Lzf.v
Rio.v
Glob.v
Object.v
SetType.v
Reply.v
Resp.v
KeyDict.v
Db.v
Command.v
Strings.v
Keys.v
Sets.v
Rdb.v
Multi.v
Keyspace.v
RdbProofs.v
RdbObjects.v
RdbFiles.v
Transactions.v
StringProofs.v
KeyProofs.v
SetProofs.v
CommandProofs.v
Signals.v
MultiProofs.v
ServerProofs.v
Helper.v
H3.v
HttpUrl.v
Template.v
Http.v
Site.v
Pages.v
Serve.v
Serving.v
Connection.v
Demo.v
DataTheorems.v
ScanTheorems.v
CollectionTheorems.v
ProtocolTheorems.v
SiteTheorems.v
TextTheorems.v
ConnectionTheorems.v
KeyspaceTheorems.v
TransactionTheorems.v
PersistenceTheorems.v
