(* ===== verification/Prelude.v ===== *)
(** * Blogd: a verification of a blog server in C

    Blogd is an HTTP server inside Redis 3.2.5. At start, and when a request asks
    for it, it compiles a directory of templates and posts to HTML and stores the
    pages as strings in the key space of Redis; a GET request is answered by an
    internal Redis command that reads the page of its path. This library models
    that program, from the bytes that [read] gives to the bytes that [write]
    sends, and proves what it does.

    ** The parts, and where they are modelled

    Layers, from the bottom up. File names are relative to [src/redis-3.2.5].

    - [Prelude.v], [CLib.v]: bytes as [list Z], machine integers as [Z] with their
      wrap-around ([u32], [s32], [u64], [s64]), the error monad [res] whose
      [Fault]s are the undefined or fatal behaviours of C (a read or write out of
      bounds, a NULL pointer, a failed assertion, use after free, division by zero,
      exit), buffers with checked reads and writes, and the functions of the C
      library that the program uses.
    - [Util.v]: number conversions ([src/util.c]). [Sds.v]: dynamic strings with
      their five header types ([src/sds.c], [src/sds.h]); the bytes that the
      allocator leaves are [junk]. [Split.v]: quoting and splitting of arguments
      ([sdscatrepr], [sdssplitargs]). [SdsNum.v]: strings of numbers
      ([sdsfromlonglong]).
    - [Dict.v]: hash tables with incremental rehashing ([src/dict.c]).
      [Scan.v]: the scan with a cursor ([dictScan]). [Iter.v]: the iterators, and what
      is still to come of them. [KeyDict.v]: the class [KeyDict] of
      dictionaries by key with its laws, and two instances, the hash tables and
      finite maps; the components above are proved against the class.
    - [IntSet.v]: sorted arrays of integers of one width ([src/intset.c]), with
      their specification on finite sets. [Glob.v]: patterns ([stringmatchlen] of
      [src/util.c]), with the language of a pattern.
    - [Object.v]: objects, and the encodings of strings ([src/object.c]).
      [SetType.v]: set objects, as an array or a hash table ([src/t_set.c]).
      [Db.v]: the key space with expire times ([src/db.c]).
    - [Reply.v]: the output of a client: static buffer, list of objects, limits,
      [writeToClient] ([src/networking.c]). [Resp.v]: the Redis protocol, both
      directions ([src/networking.c], [deps/hiredis/hiredis.c]). [Command.v]:
      [processCommand] with its guards, GET, SET, and the page command of the blog
      ([src/server.c], [src/t_string.c], [src/blogd.c]). [Strings.v]: the other
      string commands ([src/t_string.c]). [Keys.v]: the commands on keys
      ([src/db.c]). [Sets.v]: the commands on sets ([src/t_set.c]). [Keyspace.v] is
      their specification on a finite map, [StringProofs.v], [KeyProofs.v] and
      [SetProofs.v] are the proofs command by command, and [CommandProofs.v] puts
      them together over the command table.
    - [Multi.v]: transactions ([src/multi.c]), first for the session of one client
      (MULTI, EXEC, DISCARD, WATCH, UNWATCH and the index of the watched keys),
      then for a server with many clients, whose marks are made from the events of
      a command. [Transactions.v] is the specification, a step relation on a key
      space and the states of the clients. [Signals.v] shows that every command
      announces the keys that it changes and no others, [MultiProofs.v] what the
      commands of a transaction do to a session, and [ServerProofs.v] the invariant
      of the server.
    - [Crc64.v]: the checksum ([src/crc64.c]), with the bitwise shift register. [Lzf.v]:
      the compression of strings ([src/lzf_c.c], [src/lzf_d.c]), with the relation
      [decodes] between a compressed text and its text. [Rio.v]: streams on files
      ([src/rio.h], [src/rio.c]) as a monad. [Rdb.v]: the dump files
      ([src/rdb.c]), written and read; [RdbProofs.v] (lengths, integers, strings),
      [RdbObjects.v] (values) and [RdbFiles.v] (pairs, databases, the file) show that what
      is written is read back.
    - [H3.v]: the parser of HTTP request headers ([deps/h3]). [HttpUrl.v]: the URL
      parser ([deps/http-parser]). [Helper.v], [Template.v]: text replacement,
      file names, regular-expression matches and templates ([deps/blogd]).
    - [Http.v], [Site.v], [Serve.v]: [src/blogd.c]: the response headers, the
      construction of the site, and the requests. [Pages.v] and [Serving.v] are
      their specifications: what is stored, and what is answered.
    - [Connection.v]: a connection from the acceptance to its end, as a sequence of
      events of the loop: readable, before the sleep, writable, and the timer
      ([src/networking.c]).
    - [Demo.v]: concrete values (an engine for the patterns of the site, a site of
      three posts, clients) at which the theorems are instantiated.
    - [DataTheorems.v], [ScanTheorems.v], [CollectionTheorems.v],
      [ProtocolTheorems.v], [SiteTheorems.v], [TextTheorems.v],
      [ConnectionTheorems.v], [KeyspaceTheorems.v], [TransactionTheorems.v],
      [PersistenceTheorems.v]: the theorems.

    ** State

    A client's output is the record [outst], its input [reqst], both together with
    the buffer of the HTTP request [client]. What a command reads and changes of
    the server is [session] (the database, the last result, the queued commands, the
    watched keys and their index), with [env] (time and role) and [guards] (what [processCommand] tests). The
    site's directives are [config]. A server with many clients is [txserver]: the
    database, the index, and a [txclient] for every client. A connection is [conn]: the session, the client,
    the lists of clients ([registry]), whether it is open and has a write handler, and what
    was sent. Objects are
    values with a reference count; where a command changes an object in place, the
    value in the database is replaced, and the theorems allow any reference counts.

    ** The theorems

    - Data structures: the hash tables return, operation by operation, what finite
      maps return, while they grow and rehash; rehashing for a time ends with the
      work or with the time; a scan returns every
      key that stays, unless a table shrinks meanwhile; strings never
      overrun their buffers; numbers and encodings round-trip; expire times are
      respected and only keys that exist have one; an intset is a finite set of
      integers, and a set object a finite set of strings whose encoding fits its
      members; a pattern is matched as its language says.
    - Protocols: a request written by [redisFormatCommandArgv] is parsed back to its
      arguments, and so is a quoted line; what is queued for a client is what is
      sent, in order; the HTTP header and URL parsers find the parts of every
      well-formed request, and the reported parts are inside the text.
    - Commands: any sequence of commands on strings, keys and sets, by any clients,
      replies and stores what a map from keys to values with expire times does.
    - Transactions: any interleaving of the requests of any clients is a run of the
      specification: a transaction is executed at once or not at all; if it is
      executed, the watched keys have the values that they had when they were
      watched (the commands are those of [kcmd], without PERSIST, which announces
      nothing); and no run leads to a failed assertion or a freed client.
    - Dump files: the file that is saved for databases of strings and sets is loaded
      again to the same key spaces, less the keys that have expired, by a server with
      any settings; compression loses nothing and decompression is safe on any
      bytes; the checksum is the one of its polynomial, and shows every damage
      within eight bytes; a safe iterator gives every entry once.
    - The server: the bytes that answer a request for a stored page, for a missing
      page, for a file and for a reload; what [initContents] stores under which
      key. Which connections are accepted; an accepted connection gives one answer to
      each read that begins with a complete request, in order and whatever the sizes
      of its writes, and every answer is sent if the socket takes bytes. A second
      request in the same read is dropped.
    - Texts: replacement, templates, response headers.
    - Failures: inputs at which the code reads or writes out of bounds or through
      NULL, loses a byte or a key, or computes with a number that wrapped, as
      theorems about a class of inputs, or as an example ([scan_misses_key]).

    ** Fuel and bounds

    Loops that are not structural take fuel, and running out of it is the fault
    [OutOfFuel], so that a theorem that gives [Ok] also shows that the fuel is
    enough. The loops of [dictRehash] use the number of buckets, the input loop
    the length of the buffer (every round consumes a byte), [strReplace] and
    [send_file] the length of their texts, [write_loop] the number of write
    results, the loop of [dictScan] the number of buckets of the larger table, and
    the loops of [sdssplitargs] and of [stringmatchlen] the lengths of their texts;
    the conversion of an intset and its binary search use its length; [dictNext] uses the
    number of buckets, [rdbLoad] the length of the file (every round reads a byte), the
    loops of the compression the length of the input, and the comparison of a match
    [MAX_REF]. A client is [ready] for [n]
    replies when its queue stays below 2^62 bytes, counting 2^48 for each, which
    leaves room for 2^14 replies on a connection; a dictionary has at most 2^30
    keys ([KD_MAX]), and an intset fewer than 2^28 members ([INTSET_MAX]), so that
    its 32-bit positions do not wrap. A run of the transaction theorems has a room
    [n] for new keys, which every request takes a part of, and an end [H] until
    which the expire times of its commands fit.

    ** What is not modelled

    PCRE (a class with the documented shape of its offset vector), the Markdown
    renderer (a function), the file system, the directory listing and the socket
    (arguments); the deallocation of memory; the rest of Redis: the append only file, the
    names of dump files, the forked child that saves them, and the events that are handled
    while one is loaded; replication, cluster, scripting, the other data types and their commands (the
    parameter [other_proc]), and INCRBYFLOAT, which computes with [long double]. Of
    the sets, the commands that choose members at random or combine sets; of the
    connections, [clientsCron], requests that arrive in several reads, and reloads in a
    run of events; of the transactions, UNWATCH in the queue, several databases, the propagation to the
    AOF and the slaves, and MONITOR. *)

From Stdlib Require Export ZArith Lia String Ascii.
From stdpp Require Export base tactics decidable option list numbers gmap.

(** ** Notations *)

Declare Scope blogd_scope.
Delimit Scope blogd_scope with blogd.

(** A [char] or [unsigned char] is a [Z] in [0, 256); a buffer or a string is a
    list of them. *)
Abbreviation bytes := (list Z).

(** The bytes of an ASCII literal, without the terminating NUL. *)
Fixpoint str (s : string) : bytes :=
  match s with
  | EmptyString => []
  | String c s' => Z.of_N (N_of_ascii c) :: str s'
  end.

Definition byte_ok (b : Z) : Prop := (0 <= b < 256)%Z.

#[export] Instance byte_ok_dec b : Decision (byte_ok b).
Proof. unfold byte_ok. apply _. Defined.

(** ** Machine integers *)

Definition u8 (z : Z) : Z := (z mod 2 ^ 8)%Z.
Definition u16 (z : Z) : Z := (z mod 2 ^ 16)%Z.
Definition u32 (z : Z) : Z := (z mod 2 ^ 32)%Z.
Definition u64 (z : Z) : Z := (z mod 2 ^ 64)%Z.
Definition s32 (z : Z) : Z := ((z + 2 ^ 31) mod 2 ^ 32 - 2 ^ 31)%Z.
Definition s64 (z : Z) : Z := ((z + 2 ^ 63) mod 2 ^ 64 - 2 ^ 63)%Z.

Definition ULLONG_MAX : Z := (2 ^ 64 - 1)%Z.
Definition LLONG_MAX : Z := (2 ^ 63 - 1)%Z.
Definition LLONG_MIN : Z := (- 2 ^ 63)%Z.

Create Rewrite HintDb machine.

Lemma u32_small z : (0 <= z < 2 ^ 32)%Z -> u32 z = z.
Proof. intros. unfold u32. now apply Z.mod_small. Qed.

Lemma u64_small z : (0 <= z < 2 ^ 64)%Z -> u64 z = z.
Proof. intros. unfold u64. now apply Z.mod_small. Qed.

Lemma s32_small z : (- 2 ^ 31 <= z < 2 ^ 31)%Z -> s32 z = z.
Proof. intros. unfold s32. rewrite Z.mod_small; lia. Qed.

Lemma s32_add_l a b : s32 (s32 a + b) = s32 (a + b).
Proof.
  unfold s32. f_equal. replace ((a + 2 ^ 31) mod 2 ^ 32 - 2 ^ 31 + b + 2 ^ 31)%Z with ((a + 2 ^ 31) mod 2 ^ 32 + b)%Z by lia.
  rewrite Z.add_mod_idemp_l by done. f_equal. lia.
Qed.

Lemma s64_small z : (- 2 ^ 63 <= z < 2 ^ 63)%Z -> s64 z = z.
Proof. intros. unfold s64. rewrite Z.mod_small; lia. Qed.

Lemma s64_u64 z : s64 (u64 z) = s64 z.
Proof.
  unfold s64, u64. f_equal. now rewrite Zplus_mod_idemp_l.
Qed.

Lemma u32_range z : (0 <= u32 z < 2 ^ 32)%Z.
Proof. unfold u32. now apply Z.mod_pos_bound. Qed.

Lemma u64_range z : (0 <= u64 z < 2 ^ 64)%Z.
Proof. unfold u64. now apply Z.mod_pos_bound. Qed.

#[export] Hint Rewrite u32_small u64_small s32_small s64_small using lia : machine.

(** ** Faults

    What C leaves undefined, or a failed assertion, is a value of [fault]; a
    fallible operation returns [res]. *)
Inductive fault :=
  | OutOfBounds      (* a read or a write outside the object *)
  | NullPointer      (* a NULL pointer is dereferenced *)
  | DivByZero
  | AssertFailed     (* serverAssert, assert *)
  | UseAfterFree     (* the client was freed *)
  | Exit             (* the process calls exit *)
  | OutOfFuel.       (* the fuel of a modelled loop is used up *)

#[export] Instance fault_eq_dec : EqDecision fault.
Proof. solve_decision. Defined.

Inductive res (A : Type) :=
  | Ok (a : A)
  | Fault (f : fault).
Arguments Ok {A} _.
Arguments Fault {A} _.

#[export] Instance res_ret : MRet res := @Ok.
#[export] Instance res_bind : MBind res := fun A B k m =>
  match m with Ok a => k a | Fault f => Fault f end.

Lemma bind_ok {A B} (k : A -> res B) (a : A) : (Ok a ≫= k) = k a.
Proof. reflexivity. Qed.

Lemma bind_ok_inv {A B} (k : A -> res B) (m : res A) (b : B) :
  (m ≫= k) = Ok b -> exists a, m = Ok a /\ k a = Ok b.
Proof. destruct m; cbn; [eauto | discriminate]. Qed.

(** Read and write of a buffer at an index, with the bounds checked. *)
Definition rd (m : bytes) (p : nat) : res Z :=
  match m !! p with Some b => Ok b | None => Fault OutOfBounds end.

Definition wr (m : bytes) (p : nat) (b : Z) : res bytes :=
  if decide (p < length m)%nat then Ok (<[p := b]> m) else Fault OutOfBounds.

(** A read with a signed index (C pointer differences are signed). *)
Definition rdZ (m : bytes) (p : Z) : res Z :=
  if decide (0 <= p)%Z then rd m (Z.to_nat p) else Fault OutOfBounds.

Definition wrZ (m : bytes) (p : Z) (b : Z) : res bytes :=
  if decide (0 <= p)%Z then wr m (Z.to_nat p) b else Fault OutOfBounds.

(** [memcpy], [memmove] and [memset], with the bounds checked. *)
Definition mread (m : bytes) (off n : nat) : res bytes :=
  if decide (off + n <= length m)%nat then Ok (take n (drop off m)) else Fault OutOfBounds.

Definition mwrite (m : bytes) (off : nat) (d : bytes) : res bytes :=
  if decide (off + length d <= length m)%nat
  then Ok (take off m ++ d ++ drop (off + length d) m) else Fault OutOfBounds.

Definition is_ok {A} (m : res A) : bool :=
  match m with Ok _ => true | Fault _ => false end.

Lemma rd_lt m p : (p < length m)%nat -> exists b, rd m p = Ok b /\ m !! p = Some b.
Proof.
  intros [b Hb]%lookup_lt_is_Some_2. exists b. unfold rd. by rewrite Hb.
Qed.

Lemma rd_app_l m n p : (p < length m)%nat -> rd (m ++ n) p = rd m p.
Proof. intros H. unfold rd. by rewrite lookup_app_l. Qed.

Lemma rd_app_mid m b n p : p = length m -> rd (m ++ b :: n) p = Ok b.
Proof. intros ->. unfold rd. by rewrite list_lookup_middle. Qed.

Lemma wr_app_mid m a n p b :
  p = length m -> wr (m ++ a :: n) p b = Ok (m ++ b :: n).
Proof.
  intros ->. unfold wr. rewrite decide_True.
  - by rewrite <- (Nat.add_0_r (length m)), insert_app_r.
  - rewrite length_app. cbn. lia.
Qed.

Lemma mread_ok m off n :
  (off + n <= length m)%nat -> mread m off n = Ok (take n (drop off m)).
Proof. intros. unfold mread. by rewrite decide_True. Qed.

Lemma mwrite_ok m off d :
  (off + length d <= length m)%nat ->
  mwrite m off d = Ok (take off m ++ d ++ drop (off + length d) m).
Proof. intros. unfold mwrite. by rewrite decide_True. Qed.

Lemma wr_ok m p b : (p < length m)%nat -> wr m p b = Ok (<[p := b]> m).
Proof. intros. unfold wr. by rewrite decide_True. Qed.

Lemma take_insert_ge {A} (l : list A) i j x : (i <= j)%nat -> take i (<[j := x]> l) = take i l.
Proof. intros. by rewrite take_insert_ge. Qed.

(** ** Tactics *)

(** Case analysis on the guards of the code: every boolean comparison in the
    goal becomes a linear hypothesis. *)
Ltac case_bool :=
  match goal with
  | |- context [Z.ltb ?a ?b] => destruct (Z.ltb_spec a b)
  | |- context [Z.leb ?a ?b] => destruct (Z.leb_spec a b)
  | |- context [Z.eqb ?a ?b] => destruct (Z.eqb_spec a b)
  | |- context [Z.gtb ?a ?b] => rewrite (Z.gtb_ltb a b)
  | |- context [Z.geb ?a ?b] => rewrite (Z.geb_leb a b)
  | |- context [Nat.ltb ?a ?b] => destruct (Nat.ltb_spec a b)
  | |- context [Nat.leb ?a ?b] => destruct (Nat.leb_spec a b)
  | |- context [Nat.eqb ?a ?b] => destruct (Nat.eqb_spec a b)
  end.

(** The same for a hypothesis that equates a boolean condition with a value. *)
Ltac bool_hyps :=
  repeat match goal with
  | H : Z.ltb _ _ = true |- _ => apply Z.ltb_lt in H
  | H : Z.ltb _ _ = false |- _ => apply Z.ltb_ge in H
  | H : Z.leb _ _ = true |- _ => apply Z.leb_le in H
  | H : Z.leb _ _ = false |- _ => apply Z.leb_gt in H
  | H : Z.gtb _ _ = _ |- _ => rewrite Z.gtb_ltb in H
  | H : Z.geb _ _ = _ |- _ => rewrite Z.geb_leb in H
  | H : Z.eqb _ _ = true |- _ => apply Z.eqb_eq in H
  | H : Z.eqb _ _ = false |- _ => apply Z.eqb_neq in H
  | H : Nat.eqb _ _ = true |- _ => apply Nat.eqb_eq in H
  | H : Nat.eqb _ _ = false |- _ => apply Nat.eqb_neq in H
  | H : Nat.ltb _ _ = true |- _ => apply Nat.ltb_lt in H
  | H : Nat.ltb _ _ = false |- _ => apply Nat.ltb_ge in H
  | H : Nat.leb _ _ = true |- _ => apply Nat.leb_le in H
  | H : Nat.leb _ _ = false |- _ => apply Nat.leb_gt in H
  | H : andb _ _ = true |- _ => apply andb_true_iff in H; destruct H
  | H : orb _ _ = false |- _ => apply orb_false_iff in H; destruct H
  | H : negb _ = true |- _ => apply negb_true_iff in H
  | H : negb _ = false |- _ => apply negb_false_iff in H
  end.

(** Inverts a successful [res] bind. *)
Ltac bind_inv H :=
  let a := fresh "a" in let H1 := fresh "Hm" in
  apply bind_ok_inv in H; destruct H as (a & H1 & H).

(** Arithmetic about the lengths of composed lists. *)
Ltac len_simpl :=
  repeat (rewrite ?length_app, ?length_take, ?length_drop, ?length_replicate, ?length_insert,
            ?length_map, ?length_fmap; cbn [length]).
Ltac len_lia := len_simpl; lia.

Lemma wrZ_at out x buf b pos :
  pos = Z.of_nat (length out) -> wrZ (out ++ x :: buf) pos b = Ok (out ++ b :: buf).
Proof. intros ->. unfold wrZ. rewrite decide_True by lia. rewrite Nat2Z.id. by apply wr_app_mid. Qed.

Lemma rdZ_nth m i : (0 <= i < Z.of_nat (length m))%Z -> rdZ m i = Ok (nth (Z.to_nat i) m 0%Z).
Proof.
  intros Hi. unfold rdZ, rd. rewrite decide_True by lia.
  destruct (lookup_lt_is_Some_2 m (Z.to_nat i)) as [x Hx]; [lia|]. rewrite Hx. f_equal. symmetry. by apply nth_lookup_Some.
Qed.

Lemma rdZ_at m b n i : i = Z.of_nat (length m) -> rdZ (m ++ b :: n) i = Ok b.
Proof. intros ->. unfold rdZ. rewrite decide_True, Nat2Z.id by lia. by apply rd_app_mid. Qed.

(** A decidable fact about concrete values, by evaluation. *)
Ltac by_compute := match goal with |- ?P => apply (@bool_decide_unpack P _); vm_compute; exact I end.
