(* ===== verification/CLib.v ===== *)
(** * The part of the C library the program uses

    String functions on NUL-terminated strings, character classes and the
    decimal conversions of [sprintf]. A C string is its list of bytes up to, and
    without, the terminating NUL; reading at the end of the list gives the NUL. *)

From S2P Require Import Prelude.
Local Open Scope Z_scope.

(** ** Characters *)

Definition isdigit (c : Z) : bool := (48 <=? c) && (c <=? 57).
Definition isspace (c : Z) : bool := (c =? 32) || ((9 <=? c) && (c <=? 13)).
Definition isupper (c : Z) : bool := (65 <=? c) && (c <=? 90).
Definition tolower (c : Z) : Z := if isupper c then c + 32 else c.

(** ** Strings *)

(** The string a pointer to [m] denotes: the bytes before the first NUL. *)
Fixpoint cstr (m : bytes) : bytes :=
  match m with
  | [] => []
  | c :: m' => if c =? 0 then [] else c :: cstr m'
  end.

Definition no_nul (s : bytes) : Prop := Forall (fun c => c <> 0) s.

Fixpoint prefixb (p s : bytes) : bool :=
  match p, s with
  | [], _ => true
  | _ :: _, [] => false
  | a :: p', b :: s' => (a =? b) && prefixb p' s'
  end.

(** Offset of the first occurrence of [needle]. *)
Fixpoint strstr (s needle : bytes) : option nat :=
  if prefixb needle s then Some 0%nat
  else match s with
       | [] => None
       | _ :: s' => match strstr s' needle with Some i => Some (S i) | None => None end
       end.

Fixpoint strchr (s : bytes) (c : Z) : option nat :=
  match s with
  | [] => None
  | x :: s' => if x =? c then Some 0%nat
               else match strchr s' c with Some i => Some (S i) | None => None end
  end.

Fixpoint strrchr (s : bytes) (c : Z) : option nat :=
  match s with
  | [] => None
  | x :: s' => match strrchr s' c with
               | Some i => Some (S i)
               | None => if x =? c then Some 0%nat else None
               end
  end.

Fixpoint strncmp (a b : bytes) (n : nat) : Z :=
  match n with
  | O => 0
  | S n' =>
      let x := hd 0 a in
      let y := hd 0 b in
      if x =? y then if x =? 0 then 0 else strncmp (tl a) (tl b) n' else x - y
  end.

Fixpoint strcmp (a b : bytes) : Z :=
  match a with
  | [] => - hd 0 b
  | x :: a' => if x =? hd 0 b then if x =? 0 then 0 else strcmp a' (tl b) else x - hd 0 b
  end.

(** Of two areas of the same length. *)
Fixpoint memcmp (a b : bytes) : Z :=
  match a, b with
  | x :: a', y :: b' => if x =? y then memcmp a' b' else x - y
  | _, _ => 0
  end.

Lemma memcmp_eq a : forall b, length a = length b -> memcmp a b = 0 <-> a = b.
Proof.
  induction a as [|x a IH]; intros [|y b] Hl; try done. cbn. injection Hl as Hl. destruct (Z.eqb_spec x y) as [->|Hne].
  - rewrite IH by done. split; [by intros ->|by intros [=]].
  - split; [lia|]. by intros [= ->].
Qed.

Fixpoint strcasecmp (a b : bytes) : Z :=
  match a with
  | [] => - tolower (hd 0 b)
  | x :: a' =>
      if tolower x =? tolower (hd 0 b)
      then if x =? 0 then 0 else strcasecmp a' (tl b)
      else tolower x - tolower (hd 0 b)
  end.

(** [strndup(s + off, n)]: at most [n] bytes, stopping at the NUL. *)
Definition strndup (s : bytes) (off n : nat) : bytes := cstr (take n (drop off s)).

(** ** Decimal numbers *)

(** [sprintf] with [%u] and [%d]. The fuel is the bit length: every step
    divides by ten. *)
Fixpoint udec_aux (fuel : nat) (v : Z) : bytes :=
  match fuel with
  | O => []
  | S f => if v <? 10 then [48 + v] else udec_aux f (v / 10) ++ [48 + v mod 10]
  end.

Definition udec (v : Z) : bytes := udec_aux (S (Z.to_nat (Z.log2 v))) v.

Definition dec (v : Z) : bytes := if v <? 0 then 45 :: udec (- v) else udec v.

(** The value of a digit string, most significant digit first. *)
Definition undec_from (acc : Z) (ds : bytes) : Z :=
  fold_left (fun acc c => acc * 10 + (c - 48)) ds acc.
Definition undec (ds : bytes) : Z := undec_from 0 ds.

(** ** Lemmas *)

Lemma prefixb_spec p s : prefixb p s = true <-> exists t, s = p ++ t.
Proof.
  revert s; induction p as [|a p IH]; intros [|b s]; cbn.
  - split; eauto.
  - split; eauto.
  - split; [discriminate | intros [t Ht]; discriminate].
  - rewrite andb_true_iff, Z.eqb_eq, IH. split.
    + intros [-> [t ->]]. eauto.
    + intros [t [= -> ->]]. eauto.
Qed.

Lemma prefixb_app p t : prefixb p (p ++ t) = true.
Proof. apply prefixb_spec. eauto. Qed.

Lemma strstr_Some s needle i :
  strstr s needle = Some i -> exists t, s = take i s ++ needle ++ t.
Proof.
  revert i; induction s as [|x s IH]; intros i H; cbn in H.
  - destruct (prefixb needle []) eqn:E; [|discriminate].
    injection H as <-. apply prefixb_spec in E. destruct E as [t E]. exists t. by rewrite <- E.
  - destruct (prefixb needle (x :: s)) eqn:E.
    + injection H as <-. apply prefixb_spec in E. destruct E as [t E]. exists t. by rewrite <- E.
    + destruct (strstr s needle) as [j|]; [|discriminate].
      injection H as <-. destruct (IH j eq_refl) as [t Ht].
      exists t. cbn. by rewrite <- Ht.
Qed.

Lemma strstr_lt s needle i :
  strstr s needle = Some i -> (i + length needle <= length s)%nat.
Proof.
  intros H. destruct (strstr_Some _ _ _ H) as [t Ht].
  assert (length (take i s) = i).
  { revert i H t Ht. induction s as [|x s IH]; intros i H t Ht; cbn in H.
    - destruct (prefixb needle []); [|discriminate]. by injection H as <-.
    - destruct (prefixb needle (x :: s)); [by injection H as <-|].
      destruct (strstr s needle) as [j|] eqn:E; [|discriminate].
      injection H as <-. cbn. f_equal. destruct (strstr_Some _ _ _ E) as [t' Ht'].
      eauto. }
  apply (f_equal length) in Ht. rewrite !length_app in Ht. lia.
Qed.

Lemma strrchr_None s c : strrchr s c = None <-> c ∉ s.
Proof.
  induction s as [|x s IH]; cbn; [by split; [intros _; apply not_elem_of_nil|]|].
  rewrite not_elem_of_cons. destruct (strrchr s c) as [i|].
  - split; [discriminate|]. intros [_ H]. by apply IH in H.
  - destruct (Z.eqb_spec x c) as [->|]; split; try discriminate.
    + by intros [? _].
    + intros _. split; [congruence | by apply IH].
    + done.
Qed.

Lemma strrchr_Some s c i :
  strrchr s c = Some i <-> exists t, s = take i s ++ c :: t /\ length (take i s) = i /\ c ∉ t.
Proof.
  revert i; induction s as [|x s IH]; intros i; cbn.
  - split; [discriminate|]. intros (t & Ht & _). by destruct i.
  - destruct (strrchr s c) as [j|] eqn:E.
    + split.
      * intros [= <-]. destruct (IH j) as [IH' _].
        destruct (IH' eq_refl) as (t & Hs & Hl & Hn).
        exists t. cbn. split; [by rewrite <- Hs|]. split; [by rewrite Hl|done].
      * intros (t & Hs & Hl & Hn). destruct i as [|i]; cbn in *.
        -- injection Hs as -> ->. assert (Hx := Hn). apply strrchr_None in Hx. congruence.
        -- injection Hs as Hs. injection Hl as Hl. f_equal.
           destruct (IH i) as [_ IH']. assert (Some j = Some i) by eauto. congruence.
    + apply strrchr_None in E. destruct (Z.eqb_spec x c) as [->|Hne]; split.
      * intros [= <-]. by exists s.
      * intros (t & Hs & Hl & Hn). destruct i as [|i]; [done|]. cbn in Hs.
        injection Hs as Hs. exfalso. apply E. rewrite Hs. set_solver.
      * discriminate.
      * intros (t & Hs & Hl & Hn). destruct i as [|i]; cbn in Hs; [congruence|].
        injection Hs as Hs. exfalso. apply E. rewrite Hs. set_solver.
Qed.

Lemma cstr_no_nul m : no_nul (cstr m).
Proof.
  unfold no_nul. induction m as [|c m IH]; cbn; [constructor|].
  destruct (Z.eqb_spec c 0); [constructor|]. by constructor.
Qed.

Lemma cstr_length m : (length (cstr m) <= length m)%nat.
Proof. induction m as [|c m IH]; cbn; [lia|]. destruct (c =? 0); cbn; lia. Qed.

Lemma cstr_id s : no_nul s -> cstr s = s.
Proof.
  induction 1 as [|c s Hc _ IH]; cbn; [done|].
  destruct (Z.eqb_spec c 0); [done|]. by rewrite IH.
Qed.

Lemma cstr_app s t : no_nul s -> cstr (s ++ t) = s ++ cstr t.
Proof. induction 1 as [|x s Hx _ IH]; [done|]. cbn. destruct (Z.eqb_spec x 0); [done|]. by rewrite IH. Qed.

(** [strncmp] with a string of at least [n] characters. *)
Lemma strncmp_zero n : forall a b, no_nul b -> (n <= length b)%nat -> strncmp a b n = 0 <-> take n a = take n b.
Proof.
  induction n as [|n IH]; intros a b Hb Hl; [done|]. destruct Hb as [|y b Hy Hb]; [cbn in Hl; lia|]. cbn [strncmp hd tl].
  destruct a as [|x a]; cbn [hd tl take].
  - rewrite (proj2 (Z.eqb_neq 0 y)) by done. split; [lia|done].
  - destruct (Z.eqb_spec x y) as [->|Hxy]; [|split; [lia|congruence]].
    rewrite (proj2 (Z.eqb_neq y 0)) by done. cbn in Hl. rewrite IH by (done || lia). split; [by intros ->|by intros [= ->]].
Qed.

Lemma strcmp_zero a : forall b, no_nul a -> no_nul b -> strcmp a b = 0 <-> a = b.
Proof.
  induction a as [|x a IH]; intros b Ha Hb; cbn [strcmp].
  - destruct Hb as [|y b Hy _]; [done|]. cbn. split; [lia|done].
  - apply Forall_cons in Ha as [Hx Ha]. destruct (Z.eqb_spec x (hd 0 b)) as [E|E].
    + rewrite (proj2 (Z.eqb_neq x 0)) by done. destruct Hb as [|y b Hy Hb]; [done|]. cbn in E |- *. subst y.
      rewrite IH by done. split; [by intros ->|by intros [= ->]].
    + split; [lia|]. intros <-. by destruct E.
Qed.

(** The part before the first [x]. *)
Lemma app_cut_inj (x : Z) (a : bytes) : forall b c d, x ∉ a -> x ∉ b -> a ++ x :: c = b ++ x :: d -> a = b.
Proof.
  induction a as [|y a IH]; intros [|z b] c d Ha Hb E; [done|injection E; set_solver|injection E; set_solver|].
  injection E as -> E. f_equal. apply (IH b c d); set_solver.
Qed.

Lemma cstr_app_nul s t : no_nul s -> cstr (s ++ 0 :: t) = s.
Proof.
  induction 1 as [|c s Hc _ IH]; cbn; [done|].
  destruct (Z.eqb_spec c 0); [done|]. by rewrite IH.
Qed.

Lemma no_nul_app s t : no_nul (s ++ t) <-> no_nul s /\ no_nul t.
Proof. apply Forall_app. Qed.

Lemma strndup_id s off n t :
  no_nul t -> take n (drop off s) = t -> strndup s off n = t.
Proof. intros H <-. by apply cstr_id. Qed.

(** *** Decimal *)

Lemma log2_div10 v : 10 <= v -> Z.log2 (v / 10) < Z.log2 v.
Proof.
  intros Hv. assert (Z.log2 (v / 10) <= Z.log2 (v / 2)).
  { apply Z.log2_le_mono. apply Z.div_le_compat_l; lia. }
  assert (Z.log2 (v / 2) = Z.log2 v - 1).
  { rewrite <- Z.div2_div, Z.div2_spec, Z.log2_shiftr by lia.
    assert (3 <= Z.log2 v) by (change 3 with (Z.log2 8); apply Z.log2_le_mono; lia). lia. }
  lia.
Qed.

Lemma udec_aux_fuel f g v :
  0 <= v -> (Z.to_nat (Z.log2 v) < f)%nat -> (Z.to_nat (Z.log2 v) < g)%nat ->
  udec_aux f v = udec_aux g v.
Proof.
  revert g v; induction f as [|f IH]; intros [|g] v Hv Hf Hg; try lia.
  cbn. destruct (Z.ltb_spec v 10); [done|].
  pose proof (log2_div10 v ltac:(lia)).
  assert (0 <= v / 10) by (apply Z.div_pos; lia).
  pose proof (Z.log2_nonneg (v / 10)).
  rewrite (IH g); [done | lia | lia | lia].
Qed.

Lemma udec_unfold v :
  0 <= v -> udec v = if v <? 10 then [48 + v] else udec (v / 10) ++ [48 + v mod 10].
Proof.
  intros Hv. unfold udec at 1. cbn [udec_aux].
  destruct (Z.ltb_spec v 10); [done|]. f_equal.
  assert (0 <= v / 10) by (apply Z.div_pos; lia).
  pose proof (log2_div10 v ltac:(lia)).
  pose proof (Z.log2_nonneg (v / 10)).
  apply udec_aux_fuel; lia.
Qed.

(** Induction that follows the digits of a number. *)
Lemma digit_ind (P : Z -> Prop) :
  (forall v, 0 <= v < 10 -> P v) ->
  (forall v, 10 <= v -> P (v / 10) -> P v) ->
  forall v, 0 <= v -> P v.
Proof.
  intros H1 H2. apply Zlt_0_ind. intros v IH Hv.
  destruct (Z.lt_ge_cases v 10); [apply H1; lia|].
  apply H2; [lia|]. apply IH. split; [apply Z.div_pos; lia|]. apply Z.div_lt; lia.
Qed.

Lemma undec_from_app acc a b : undec_from acc (a ++ b) = undec_from (undec_from acc a) b.
Proof. unfold undec_from. apply fold_left_app. Qed.

Lemma undec_udec v : 0 <= v -> undec (udec v) = v.
Proof.
  revert v. apply digit_ind; intros v Hv.
  - rewrite udec_unfold by lia. case_bool; [|lia]. cbn. lia.
  - intros IH. rewrite udec_unfold by lia. case_bool; [lia|].
    unfold undec in *. rewrite undec_from_app, IH. cbn.
    pose proof (Z.div_mod v 10). lia.
Qed.

Lemma udec_digits v : 0 <= v -> Forall (fun c => isdigit c = true) (udec v).
Proof.
  revert v. apply digit_ind; intros v Hv.
  - rewrite udec_unfold by lia. case_bool; [|lia]. constructor; [|constructor].
    unfold isdigit. apply andb_true_iff. split; apply Z.leb_le; lia.
  - intros IH. rewrite udec_unfold by lia. case_bool; [lia|].
    apply Forall_app. split; [done|]. constructor; [|constructor].
    pose proof (Z.mod_pos_bound v 10). unfold isdigit.
    apply andb_true_iff. split; apply Z.leb_le; lia.
Qed.

Lemma udec_nonempty v : 0 <= v -> (0 < length (udec v))%nat.
Proof. intros Hv. rewrite udec_unfold by done. destruct (v <? 10); [cbn; lia|]. rewrite length_app. cbn. lia. Qed.

Lemma udec_head v : 0 < v -> exists c t, udec v = c :: t /\ 49 <= c <= 57.
Proof.
  intros Hv. assert (0 <= v) as Hv' by lia. revert v Hv' Hv. refine (digit_ind _ _ _).
  - intros v Hv Hp. rewrite udec_unfold by lia. case_bool; [|lia]. exists (48 + v), []. split; [done|lia].
  - intros v Hv IH _. rewrite udec_unfold by lia. case_bool; [lia|].
    destruct IH as (c & t & -> & Hc).
    { apply Z.div_str_pos. lia. }
    exists c, (t ++ [48 + v mod 10]). done.
Qed.

(** A digit string without a leading zero is the decimal form of its value. *)
Lemma udec_undec_from acc ds :
  0 < acc -> Forall (fun c => isdigit c = true) ds ->
  udec (undec_from acc ds) = udec acc ++ ds /\ acc <= undec_from acc ds.
Proof.
  intros Hacc Hds. revert acc Hacc. induction Hds as [|c ds Hc Hds IH]; intros acc Hacc.
  - cbn. rewrite app_nil_r. split; [done | lia].
  - cbn [undec_from fold_left]. unfold isdigit in Hc. bool_hyps.
    fold (undec_from (acc * 10 + (c - 48)) ds).
    destruct (IH (acc * 10 + (c - 48)) ltac:(lia)) as [E Hle]. rewrite E.
    split; [|lia].
    rewrite (udec_unfold (acc * 10 + (c - 48))) by lia. case_bool; [lia|].
    rewrite Z.div_add_l, Z.div_small, Z.add_0_r by lia.
    assert ((acc * 10 + (c - 48)) mod 10 = c - 48) as ->
      by (symmetry; apply (Z.mod_unique _ _ acc); lia).
    rewrite <- app_assoc. cbn. do 3 f_equal. lia.
Qed.

Lemma udec_no_nul v : 0 <= v -> no_nul (udec v).
Proof.
  intros Hv. eapply Forall_impl; [by apply udec_digits|].
  intros c Hc. unfold isdigit in Hc. cbn in Hc. bool_hyps. lia.
Qed.

Lemma udec_inj a b : 0 <= a -> 0 <= b -> udec a = udec b -> a = b.
Proof. intros Ha Hb H. rewrite <- (undec_udec a), <- (undec_udec b) by done. by rewrite H. Qed.

(** Length of the decimal form. *)
Lemma udec_length_bound k v :
  0 <= v -> (0 < k)%nat -> ((length (udec v) <= k)%nat <-> v < 10 ^ Z.of_nat k).
Proof.
  intros Hv. revert k. pattern v. revert v Hv. apply digit_ind; intros v Hv.
  - intros k Hk. rewrite udec_unfold by lia. case_bool; [|lia]. cbn.
    split; [|lia]. intros _.
    assert (10 ^ 1 <= 10 ^ Z.of_nat k) by (apply Z.pow_le_mono_r; lia). lia.
  - intros IH k Hk. rewrite udec_unfold by lia. case_bool; [lia|].
    rewrite length_app. cbn [length]. destruct k as [|k]; [lia|].
    rewrite Nat2Z.inj_succ, Z.pow_succ_r by lia.
    destruct (Nat.eq_dec k 0%nat) as [->|Hk0].
    + change (Z.of_nat 0) with 0. rewrite Z.pow_0_r. split; [|lia]. intros.
      exfalso. assert (length (udec (v / 10)) <> 0)%nat; [|lia].
      destruct (udec_head (v / 10)) as (c & t & -> & _); [apply Z.div_str_pos; lia|]. done.
    + specialize (IH k ltac:(lia)). split; intros H0.
      * assert (v / 10 < 10 ^ Z.of_nat k) by (apply IH; lia).
        pose proof (Z.div_mod v 10). pose proof (Z.mod_pos_bound v 10). lia.
      * assert (length (udec (v / 10)) <= k)%nat; [|lia]. apply IH.
        apply Z.div_lt_upper_bound; lia.
Qed.
