(* ===== verification/Util.v ===== *)
(** * Number conversion and matching utilities ([src/util.c])

    [digits10], [sdigits10], [ll2string], [string2ll], [string2l] and [memtoll],
    with their 64-bit arithmetic written out and the writes to the destination
    buffer checked. *)

From S2P Require Import Prelude CLib.
Local Open Scope Z_scope.

(** ** Integers to strings *)

(** The recursion divides by 10^12, so that two calls cover 64 bits. *)
Fixpoint digits10_aux (fuel : nat) (v : Z) : Z :=
  match fuel with
  | O => 0
  | S f =>
      if v <? 10 then 1 else
      if v <? 100 then 2 else
      if v <? 1000 then 3 else
      if v <? 1000000000000 then
        if v <? 100000000 then
          if v <? 1000000 then
            if v <? 10000 then 4
            else 5 + (if v >=? 100000 then 1 else 0)
          else 7 + (if v >=? 10000000 then 1 else 0)
        else if v <? 10000000000 then
          9 + (if v >=? 1000000000 then 1 else 0)
        else 11 + (if v >=? 100000000000 then 1 else 0)
      else u32 (12 + digits10_aux f (v / 1000000000000))
  end.

Definition digits10 (v : Z) : Z := digits10_aux 2 v.

Definition sdigits10 (v : Z) : Z :=
  if v <? 0 then
    let uv := if negb (v =? LLONG_MIN) then u64 (- v) else u64 (LLONG_MAX + 1) in
    u32 (digits10 uv + 1)
  else digits10 v.

Definition ll2string_digits : bytes := Eval vm_compute in str
 ("0001020304050607080910111213141516171819" ++
  "2021222324252627282930313233343536373839" ++
  "4041424344454647484950515253545556575859" ++
  "6061626364656667686970717273747576777879" ++
  "8081828384858687888990919293949596979899")%string.

(** [while (value >= 100)]: two digits per iteration, written backwards. *)
Fixpoint ll2string_loop (fuel : nat) (dst : bytes) (next value : Z) : res (bytes * Z * Z) :=
  match fuel with
  | O => Fault OutOfFuel
  | S f =>
      if value >=? 100 then
        let i := (value mod 100) * 2 in
        let value := value / 100 in
        d1 ← rdZ ll2string_digits (i + 1);
        dst ← wrZ dst next d1;
        d0 ← rdZ ll2string_digits i;
        dst ← wrZ dst (u32 (next - 1)) d0;
        ll2string_loop f dst (u32 (next - 2)) value
      else Ok (dst, next, value)
  end.

(** Returns the length (0 if the buffer is too small) and the buffer. *)
Definition ll2string (dst : bytes) (dstlen : Z) (svalue : Z) : res (Z * bytes) :=
  let negative := svalue <? 0 in
  let value :=
    if svalue <? 0 then
      if negb (svalue =? LLONG_MIN) then u64 (- svalue) else u64 (LLONG_MAX + 1)
    else svalue in
  let length := u32 (digits10 value + (if negative then 1 else 0)) in
  if length >=? dstlen then Ok (0, dst) else
  dst ← wrZ dst length 0;
  let next := u32 (length - 1) in
  '(dst, next, value) ← ll2string_loop 12 dst next value;
  dst ← (if value <? 10 then wrZ dst next (48 + value)
         else let i := value * 2 in
              d1 ← rdZ ll2string_digits (i + 1);
              dst ← wrZ dst next d1;
              d0 ← rdZ ll2string_digits i;
              wrZ dst (u32 (next - 1)) d0);
  dst ← (if negative then wrZ dst 0 45 else Ok dst);
  Ok (length, dst).

(** ** Strings to integers *)

(** [while (plen < slen && p[0] >= '0' && p[0] <= '9')]: [None] on overflow,
    otherwise the value and what is left of the string. *)
Fixpoint string2ll_loop (v : Z) (p : bytes) : option (Z * bytes) :=
  match p with
  | [] => Some (v, [])
  | c :: p' =>
      if (48 <=? c) && (c <=? 57) then
        if v >? ULLONG_MAX / 10 then None else
        let v := u64 (v * 10) in
        if v >? ULLONG_MAX - (c - 48) then None else
        string2ll_loop (u64 (v + (c - 48))) p'
      else Some (v, p)
  end.

(** From the first digit on; [p] is what follows the sign. *)
Definition string2ll_digits (negative : bool) (slen : nat) (p : bytes) : option Z :=
  match p with
  | [] => None
  | d :: p' =>
      if (49 <=? d) && (d <=? 57) then
        match string2ll_loop (d - 48) p' with
        | None => None
        | Some (_, _ :: _) => None
        | Some (v, []) =>
            if negative then
              if v >? u64 (u64 (- (LLONG_MIN + 1)) + 1) then None
              else Some (s64 (u64 (- v)))
            else if v >? LLONG_MAX then None else Some (s64 v)
        end
      else if (d =? 48) && (slen =? 1)%nat then Some 0
      else None
  end.

Definition string2ll (s : bytes) : option Z :=
  match s with
  | [] => None
  | c0 :: s' =>
      if (length s =? 1)%nat && (c0 =? 48) then Some 0
      else if c0 =? 45 then
        match s' with [] => None | _ => string2ll_digits true (length s) s' end
      else string2ll_digits false (length s) s
  end.

(** [long] has 64 bits on the platforms Blogd supports, so that the range test
    never fails. *)
Definition string2l (s : bytes) : option Z :=
  match string2ll s with
  | None => None
  | Some llval => if (llval <? LLONG_MIN) || (llval >? LLONG_MAX) then None else Some llval
  end.

(** ** Memory amounts *)

Fixpoint span_digits (s : bytes) : bytes * bytes :=
  match s with
  | c :: s' => if isdigit c then let (d, r) := span_digits s' in (c :: d, r) else ([], s)
  | [] => ([], [])
  end.

(** [strtoll(buf, &endptr, 10)] on an optional minus sign and digits, the only
    strings [memtoll] gives it: the clamped value and the offset of [endptr]. *)
Definition strtoll10 (buf : bytes) : Z * nat :=
  let neg := match buf with c :: _ => c =? 45 | [] => false end in
  let ds := fst (span_digits (if neg then tl buf else buf)) in
  match ds with
  | [] => (0, O)
  | _ => (if neg then Z.max LLONG_MIN (- undec ds) else Z.min LLONG_MAX (undec ds),
          (length ds + (if neg then 1 else 0))%nat)
  end.

Definition memtoll_unit (u : bytes) : option Z :=
  if match u with [] => true | _ => false end || (strcasecmp u (str "b") =? 0) then Some 1
  else if strcasecmp u (str "k") =? 0 then Some 1000
  else if strcasecmp u (str "kb") =? 0 then Some 1024
  else if strcasecmp u (str "m") =? 0 then Some (1000 * 1000)
  else if strcasecmp u (str "mb") =? 0 then Some (1024 * 1024)
  else if strcasecmp u (str "g") =? 0 then Some (1000 * 1000 * 1000)
  else if strcasecmp u (str "gb") =? 0 then Some (1024 * 1024 * 1024)
  else None.

(** The value and the error flag. *)
Definition memtoll (p : bytes) : Z * bool :=
  let neg := match p with c :: _ => c =? 45 | [] => false end in
  let '(ds, u) := span_digits (if neg then tl p else p) in
  match memtoll_unit u with
  | None => (0, true)
  | Some mul =>
      let digits := (length ds + (if neg then 1 else 0))%nat in
      if (128 <=? digits)%nat then (0, true) else
      let buf := take digits p in
      let '(val, endp) := strtoll10 buf in
      if negb (endp =? length buf)%nat then (0, true)
      else (s64 (val * mul), false)
  end.

(** ** Correctness of the conversions *)

Lemma digits_tab_lookup k :
  0 <= k < 100 ->
  rdZ ll2string_digits (k * 2) = Ok (48 + k / 10) /\
  rdZ ll2string_digits (k * 2 + 1) = Ok (48 + k mod 10).
Proof.
  intros Hk.
  assert (Forall (fun n => let k := Z.of_nat n in
            rdZ ll2string_digits (k * 2) = Ok (48 + k / 10) /\
            rdZ ll2string_digits (k * 2 + 1) = Ok (48 + k mod 10)) (seq 0 100)) as H.
  { repeat (constructor; [split; reflexivity|]). constructor. }
  rewrite Forall_forall in H.
  specialize (H (Z.to_nat k)). cbn zeta in H. rewrite Z2Nat.id in H by lia.
  apply H. apply elem_of_seq. lia.
Qed.

Lemma udec_pair v :
  100 <= v ->
  udec v = udec (v / 100) ++ [48 + (v mod 100) / 10; 48 + (v mod 100) mod 10].
Proof.
  intros Hv. rewrite (udec_unfold v) by lia. case_bool; [lia|].
  rewrite (udec_unfold (v / 10)) by (apply Z.div_pos; lia).
  assert (10 <= v / 10) by (apply Z.div_le_lower_bound; lia). case_bool; [lia|].
  rewrite Z.div_div by lia. change (10 * 10) with 100. rewrite <- app_assoc. cbn.
  assert (v mod 100 = ((v / 10) mod 10) * 10 + v mod 10) as ->.
  { change 100 with (10 * 10). rewrite Z.rem_mul_r by lia. lia. }
  pose proof (Z.mod_pos_bound v 10). pose proof (Z.mod_pos_bound (v / 10) 10).
  rewrite Z.div_add_l, (Z.div_small (v mod 10)), Z.add_0_r by lia.
  assert (((v / 10) mod 10 * 10 + v mod 10) mod 10 = v mod 10) as ->
    by (symmetry; apply (Z.mod_unique _ _ ((v / 10) mod 10)); lia).
  done.
Qed.

Lemma udec_length_pair v :
  100 <= v -> length (udec v) = (length (udec (v / 100)) + 2)%nat.
Proof. intros. rewrite udec_pair by lia. by rewrite length_app. Qed.

Lemma udec_length_pos v : 0 <= v -> (0 < length (udec v))%nat.
Proof.
  intros Hv. rewrite udec_unfold by lia. case_bool; [cbn; lia|].
  rewrite length_app. cbn. lia.
Qed.

Lemma udec_length_eq k v :
  (0 < k)%nat -> 10 ^ (Z.of_nat k - 1) <= v < 10 ^ Z.of_nat k -> length (udec v) = k.
Proof.
  intros Hk [H1 H2]. assert (0 < 10 ^ (Z.of_nat k - 1)) by (apply Z.pow_pos_nonneg; lia).
  assert (length (udec v) <= k)%nat by (apply udec_length_bound; lia).
  destruct (decide (length (udec v) = k)); [done|].
  destruct (decide (k = 1)%nat) as [->|].
  { pose proof (udec_length_pos v). lia. }
  assert (length (udec v) <= k - 1)%nat as H4 by lia.
  apply udec_length_bound in H4; [|lia..].
  rewrite Nat2Z.inj_sub in H4 by lia. lia.
Qed.

Lemma udec_length_div12 v :
  10 ^ 12 <= v -> length (udec v) = (12 + length (udec (v / 10 ^ 12)))%nat.
Proof.
  intros Hv.
  assert (forall n w, 1 <= w -> length (udec (w * 10 ^ Z.of_nat n)) = (n + length (udec w))%nat) as Hmul.
  { intros n w Hw. induction n as [|n IH]; [by rewrite Z.mul_1_r|].
    rewrite Nat2Z.inj_succ, Z.pow_succ_r by lia.
    assert (0 < 10 ^ Z.of_nat n) by (apply Z.pow_pos_nonneg; lia).
    rewrite udec_unfold by nia. case_bool; [nia|].
    replace (w * (10 * 10 ^ Z.of_nat n)) with ((w * 10 ^ Z.of_nat n) * 10) by lia.
    rewrite Z.div_mul by lia. rewrite length_app, IH. cbn. lia. }
  assert (1 <= v / 10 ^ 12) by (apply Z.div_le_lower_bound; lia).
  set (w := v / 10 ^ 12) in *. set (L := length (udec w)).
  assert (0 < L)%nat by (apply udec_length_pos; lia).
  assert (w < 10 ^ Z.of_nat L) by (apply udec_length_bound; unfold L; lia).
  assert (w * 10 ^ 12 <= v < (w + 1) * 10 ^ 12).
  { unfold w. pose proof (Z.div_mod v (10 ^ 12)). pose proof (Z.mod_pos_bound v (10 ^ 12)). lia. }
  apply Nat.le_antisymm.
  - apply udec_length_bound; [lia | lia |].
    replace (Z.of_nat (12 + L)) with (12 + Z.of_nat L) by lia.
    rewrite Z.pow_add_r by lia. nia.
  - unfold L. rewrite <- (Hmul 12%nat w) by lia. change (Z.of_nat 12) with 12.
    apply udec_length_bound; [lia | apply udec_length_pos; lia |].
    pose proof (udec_length_pos v ltac:(lia)).
    assert (v < 10 ^ Z.of_nat (length (udec v))) by (apply udec_length_bound; lia).
    lia.
Qed.

Lemma digits10_small f v :
  0 <= v < 10 ^ 12 -> digits10_aux (S f) v = Z.of_nat (length (udec v)).
Proof.
  intros Hv. cbn [digits10_aux]. symmetry.
  assert (forall k a b, (0 < k)%nat -> a = 10 ^ (Z.of_nat k - 1) -> b = 10 ^ Z.of_nat k ->
     a <= v < b -> Z.of_nat (length (udec v)) = Z.of_nat k) as H.
  { intros k a b Hk -> ->. intros. f_equal. by apply udec_length_eq. }
  case_bool. { f_equal. rewrite udec_unfold by lia. case_bool; [done|lia]. }
  repeat case_bool; try lia;
  [ apply (H 2%nat 10 100) | apply (H 3%nat 100 1000) | apply (H 4%nat 1000 10000)
  | apply (H 6%nat 100000 1000000) | apply (H 5%nat 10000 100000)
  | apply (H 8%nat 10000000 100000000) | apply (H 7%nat 1000000 10000000)
  | apply (H 10%nat 1000000000 10000000000) | apply (H 9%nat 100000000 1000000000)
  | apply (H 12%nat 100000000000 1000000000000) | apply (H 11%nat 10000000000 100000000000) ];
  solve [lia | reflexivity].
Qed.

Lemma digits10_big f v :
  10 ^ 12 <= v -> digits10_aux (S f) v = u32 (12 + digits10_aux f (v / 10 ^ 12)).
Proof. intros Hv. cbn [digits10_aux]. do 4 (case_bool; [lia|]). reflexivity. Qed.

Lemma digits10_length v :
  0 <= v < 2 ^ 64 -> digits10 v = Z.of_nat (length (udec v)).
Proof.
  intros Hv. unfold digits10. destruct (Z.lt_ge_cases v (10 ^ 12)).
  { apply digits10_small. lia. }
  rewrite digits10_big by lia.
  rewrite udec_length_div12 by lia.
  assert (0 <= v / 10 ^ 12 < 10 ^ 12).
  { split; [apply Z.div_pos; lia|]. apply Z.div_lt_upper_bound; lia. }
  rewrite digits10_small by lia.
  assert (length (udec (v / 10 ^ 12)) <= 12)%nat by (apply udec_length_bound; lia).
  rewrite u32_small by lia. lia.
Qed.

Lemma udec_length_u64 v : 0 <= v < 2 ^ 64 -> (length (udec v) <= 20)%nat.
Proof. intros. apply udec_length_bound; [lia|lia|]. change (Z.of_nat 20) with 20. lia. Qed.

(** *** [ll2string] *)

(** Writing the last two cells of the number's field. *)
Lemma write_pair A B x y C next d0 d1 :
  next = Z.of_nat (length A + length B + 1) -> next < 2 ^ 32 ->
  (dst ← wrZ (A ++ (B ++ [x; y]) ++ C) next d1; wrZ dst (u32 (next - 1)) d0)
  = Ok (A ++ B ++ d0 :: d1 :: C).
Proof.
  intros Hn Hb.
  replace (A ++ (B ++ [x; y]) ++ C) with ((A ++ B ++ [x]) ++ y :: C)
    by (by rewrite <- !app_assoc).
  rewrite wrZ_at by (rewrite !length_app; cbn; lia). rewrite bind_ok.
  replace ((A ++ B ++ [x]) ++ d1 :: C) with ((A ++ B) ++ x :: d1 :: C)
    by (by rewrite <- !app_assoc).
  rewrite u32_small by lia.
  rewrite wrZ_at by (rewrite !length_app; lia). by rewrite <- app_assoc.
Qed.

Lemma split_last2 {X} (l : list X) n :
  length l = (n + 2)%nat -> exists B x y, l = B ++ [x; y] /\ length B = n.
Proof.
  intros Hl. exists (take n l).
  assert (length (drop n l) = 2)%nat as Hd by (rewrite length_drop; lia).
  destruct (drop n l) as [|x [|y [|]]] eqn:E; try discriminate.
  exists x, y. rewrite <- E, take_drop. split; [done|]. rewrite length_take. lia.
Qed.

Lemma ll2string_loop_ok fuel v A B C :
  0 <= v -> v < 100 ^ (Z.of_nat fuel) -> (0 < fuel)%nat ->
  Z.of_nat (length A + length (udec v)) < 2 ^ 32 -> length B = length (udec v) ->
  exists B' v' D,
    ll2string_loop fuel (A ++ B ++ C) (Z.of_nat (length A + length B) - 1) v
      = Ok (A ++ B' ++ D ++ C, Z.of_nat (length A + length B') - 1, v') /\
    0 <= v' < 100 /\ length B' = length (udec v') /\ udec v = udec v' ++ D.
Proof.
  revert v B C. induction fuel as [|f IH]; intros v B C Hv Hf Hpos Hlen HB; [lia|].
  cbn [ll2string_loop]. rewrite Z.geb_leb. destruct (Z.leb_spec 100 v).
  - destruct (digits_tab_lookup (v mod 100)) as [-> ->]; [apply Z.mod_pos_bound; lia|].
    rewrite udec_length_pair in HB by lia.
    destruct (split_last2 B _ HB) as (B1 & x & y & -> & HB1).
    rewrite bind_ok.
    assert (Z.of_nat (length A + length (B1 ++ [x; y])) - 1
            = Z.of_nat (length A + length B1 + 1)) as -> by (rewrite length_app; cbn; lia).
    pose proof (udec_length_pair v).
    pose proof (write_pair A B1 x y C (Z.of_nat (length A + length B1 + 1))
      (48 + (v mod 100) / 10) (48 + (v mod 100) mod 10) eq_refl ltac:(lia)) as Hw.
    apply bind_ok_inv in Hw as (m1 & -> & Hw). rewrite !bind_ok, Hw, bind_ok.
    assert (0 <= v / 100) by (apply Z.div_pos; lia).
    pose proof (udec_length_pos (v / 100) ltac:(lia)).
    rewrite (u32_small (_ - 2)) by lia.
    destruct f as [|f].
    { change (100 ^ Z.of_nat 1) with 100 in Hf. lia. }
    destruct (IH (v / 100) B1
      (48 + (v mod 100) / 10 :: 48 + (v mod 100) mod 10 :: C)) as (B' & v' & D & E & Hv' & HB' & HD);
      [done | | lia | lia | done |].
    { apply Z.div_lt_upper_bound; [lia|]. rewrite Nat2Z.inj_succ, Z.pow_succ_r in Hf by lia. done. }
    exists B', v', (D ++ [48 + (v mod 100) / 10; 48 + (v mod 100) mod 10]).
    rewrite <- app_assoc. cbn [app].
    replace (Z.of_nat (length A + length B1 + 1) - 2)
      with (Z.of_nat (length A + length B1) - 1) by lia.
    rewrite E. split; [done|]. split; [done|]. split; [done|].
    rewrite udec_pair by lia. rewrite HD. by rewrite <- app_assoc.
  - exists B, v, []. rewrite app_nil_r. split; [done|]. split; [lia|]. split; done.
Qed.

Lemma ll2string_tail v A B C :
  0 <= v < 100 -> length B = length (udec v) -> Z.of_nat (length A + length B) < 2 ^ 32 ->
  (if v <? 10 then wrZ (A ++ B ++ C) (Z.of_nat (length A + length B) - 1) (48 + v)
   else d1 ← rdZ ll2string_digits (v * 2 + 1);
        dst ← wrZ (A ++ B ++ C) (Z.of_nat (length A + length B) - 1) d1;
        d0 ← rdZ ll2string_digits (v * 2);
        wrZ dst (u32 (Z.of_nat (length A + length B) - 1 - 1)) d0)
  = Ok (A ++ udec v ++ C).
Proof.
  intros Hv HB Hb. rewrite udec_unfold in HB |- * by lia.
  destruct (Z.ltb_spec v 10).
  - destruct B as [|x [|]]; try discriminate. apply wrZ_at. cbn. lia.
  - rewrite (udec_unfold (v / 10)) in HB |- * by (apply Z.div_pos; lia).
    assert (v / 10 < 10) by (apply Z.div_lt_upper_bound; lia).
    destruct (Z.ltb_spec (v / 10) 10); [|lia].
    destruct B as [|x [|y [|]]]; try discriminate.
    destruct (digits_tab_lookup v Hv) as [-> ->]. rewrite bind_ok.
    cbn [length] in *.
    pose proof (write_pair A [] x y C (Z.of_nat (length A + 2) - 1)
      (48 + v / 10) (48 + v mod 10) ltac:(cbn; lia) ltac:(lia)) as Hw.
    cbn [app] in Hw |- *. apply bind_ok_inv in Hw as (m1 & -> & Hw). by rewrite !bind_ok.
Qed.

(** The magnitude [ll2string] computes. *)
Lemma ll2string_value v :
  LLONG_MIN <= v <= LLONG_MAX ->
  (if v <? 0 then if negb (v =? LLONG_MIN) then u64 (- v) else u64 (LLONG_MAX + 1) else v)
  = Z.abs v.
Proof.
  unfold LLONG_MIN, LLONG_MAX. intros Hv. repeat case_bool; cbn [negb]; try lia.
  - subst v. reflexivity.
  - rewrite u64_small by lia. lia.
Qed.

Lemma dec_abs v :
  dec v = (if v <? 0 then [45] else []) ++ udec (Z.abs v).
Proof.
  unfold dec. destruct (Z.ltb_spec v 0); cbn; [by rewrite Z.abs_neq by lia | by rewrite Z.abs_eq by lia].
Qed.

(** [ll2string] writes the decimal form and a NUL, and nothing else, whenever
    the buffer has room for them. *)
Lemma ll2string_writes (dst : bytes) (dstlen : Z) (v : Z) :
  LLONG_MIN <= v <= LLONG_MAX ->
  Z.of_nat (length (dec v)) < dstlen -> dstlen <= Z.of_nat (length dst) ->
  ll2string dst dstlen v
    = Ok (Z.of_nat (length (dec v)), dec v ++ [0] ++ drop (S (length (dec v))) dst).
Proof.
  intros Hv Hlen Hdst. unfold ll2string. rewrite ll2string_value by done.
  assert (0 <= Z.abs v < 2 ^ 64) as Habs by (unfold LLONG_MIN, LLONG_MAX in Hv; lia).
  pose proof (udec_length_u64 _ Habs). rewrite digits10_length by done.
  set (neg := (if v <? 0 then 1%nat else 0%nat)).
  assert (neg <= 1)%nat by (unfold neg; destruct (v <? 0); lia).
  assert (length (dec v) = neg + length (udec (Z.abs v)))%nat as HL.
  { rewrite dec_abs, length_app. unfold neg. by destruct (v <? 0). }
  assert (Z.of_nat (length (udec (Z.abs v))) + (if v <? 0 then 1 else 0)
          = Z.of_nat (length (dec v))) as -> by (rewrite HL; unfold neg; destruct (v <? 0); lia).
  rewrite u32_small by lia.
  rewrite Z.geb_leb, (proj2 (Z.leb_gt _ _)) by lia.
  (* the destination split at the number's field and the NUL *)
  pose proof (udec_length_pos (Z.abs v) ltac:(lia)).
  assert (exists S0 U z, dst = S0 ++ U ++ z :: drop (S (length (dec v))) dst
     /\ length S0 = neg /\ length U = length (udec (Z.abs v))) as (S0 & U & z & Hd & HS & HU).
  { exists (take neg dst), (take (length (udec (Z.abs v))) (drop neg dst)).
    assert (length (dec v) < length dst)%nat as [z Hz]%lookup_lt_is_Some_2 by lia.
    exists z. rewrite !length_take, length_drop. split; [|lia].
    rewrite <- (take_drop neg dst) at 1. f_equal.
    rewrite <- (take_drop (length (udec (Z.abs v))) (drop neg dst)) at 1. f_equal.
    rewrite drop_drop, <- HL. by apply drop_S. }
  set (T := drop (S (length (dec v))) dst) in *. clearbody T. subst dst.
  replace (S0 ++ U ++ z :: T) with ((S0 ++ U) ++ z :: T) by (by rewrite <- app_assoc).
  rewrite wrZ_at by (rewrite length_app; lia). rewrite bind_ok, <- app_assoc.
  rewrite u32_small by lia.
  replace (Z.of_nat (length (dec v)) - 1) with (Z.of_nat (length S0 + length U) - 1) by lia.
  destruct (ll2string_loop_ok 12 (Z.abs v) S0 U (0 :: T)) as (B' & v' & D & -> & Hv' & HB' & HD);
    [lia | change (Z.of_nat 12) with 12; lia | lia | lia | done |].
  rewrite bind_ok. pose proof (f_equal length HD) as Hl3. rewrite length_app in Hl3.
  rewrite ll2string_tail; [|done|done| lia].
  rewrite bind_ok, dec_abs. unfold neg in HS. destruct (v <? 0).
  - destruct S0 as [|s0 [|]]; try discriminate. cbn [app].
    pose proof (wrZ_at [] s0 (udec v' ++ D ++ 0 :: T) 45 0 eq_refl) as Hw.
    cbn [app] in Hw. rewrite Hw, bind_ok. cbn [app]. rewrite HD, <- app_assoc. done.
  - destruct S0; [|discriminate]. rewrite bind_ok. cbn [app]. rewrite HD, <- app_assoc. done.
Qed.

(** *** [string2ll] *)

Lemma string2ll_loop_spec v p :
  0 <= v < 2 ^ 64 ->
  match string2ll_loop v p with
  | Some (w, rest) => exists ds, p = ds ++ rest /\ Forall (fun c => isdigit c = true) ds /\
      w = undec_from v ds /\ w < 2 ^ 64 /\
      (match rest with c :: _ => isdigit c = false | [] => True end)
  | None => exists ds t, p = ds ++ t /\ Forall (fun c => isdigit c = true) ds /\
      2 ^ 64 <= undec_from v ds
  end.
Proof.
  revert v. induction p as [|c p IH]; intros v Hv; cbn [string2ll_loop].
  - exists []. cbn. split_and!; [done | constructor | done | lia | done].
  - fold (isdigit c). destruct (isdigit c) eqn:Hd.
    + assert (Hc := Hd). unfold isdigit in Hc. bool_hyps. unfold ULLONG_MAX.
      change ((2 ^ 64 - 1) / 10) with 1844674407370955161.
      rewrite !Z.gtb_ltb. destruct (Z.ltb_spec 1844674407370955161 v).
      { exists [c], p. split; [done|]. split; [by repeat constructor|].
        unfold undec_from. cbn [fold_left]. lia. }
      rewrite (u64_small (v * 10)) by lia.
      destruct (Z.ltb_spec (2 ^ 64 - 1 - (c - 48)) (v * 10)).
      { exists [c], p. split; [done|]. split; [by repeat constructor|].
        unfold undec_from. cbn [fold_left]. lia. }
      rewrite u64_small by lia.
      specialize (IH (v * 10 + (c - 48)) ltac:(lia)).
      destruct (string2ll_loop _ _) as [[w rest]|].
      * destruct IH as (ds & -> & Hds & -> & Hw & Hr). exists (c :: ds).
        split_and!; [done | by constructor | done | done | done].
      * destruct IH as (ds & t & -> & Hds & Hw). exists (c :: ds), t.
        split_and!; [done | by constructor | done].
    + exists []. split_and!; [done | constructor | done | lia | done].
Qed.

Lemma undec_from_mono acc a b :
  0 <= acc -> Forall (fun c => isdigit c = true) (a ++ b) ->
  undec_from acc a <= undec_from acc (a ++ b).
Proof.
  intros Hacc H. rewrite undec_from_app. apply Forall_app in H as [Ha Hb].
  assert (0 <= undec_from acc a) as H0.
  { clear Hb. revert acc Hacc. induction Ha as [|c a Hc Ha IH]; intros acc Hacc; [done|].
    cbn. unfold isdigit in Hc. bool_hyps. apply IH. lia. }
  revert H0. generalize (undec_from acc a). induction Hb as [|c b Hc Hb IH]; intros w Hw; [done|].
  cbn [undec_from fold_left]. unfold isdigit in Hc. bool_hyps.
  etransitivity; [|apply IH; lia]. lia.
Qed.

(** The digits [string2ll] accepts, for the unsigned part: a non-empty digit
    string without a leading zero and below 2^64. *)
Lemma string2ll_digits_spec d p v :
  49 <= d <= 57 ->
  string2ll_loop (d - 48) p = Some (v, []) <->
  d :: p = udec v /\ 0 < v < 2 ^ 64.
Proof.
  intros Hd. pose proof (string2ll_loop_spec (d - 48) p ltac:(lia)) as Hs.
  assert (udec (d - 48) = [d]) as Hdd.
  { rewrite udec_unfold by lia. case_bool; [|lia]. f_equal. lia. }
  split.
  - intros E. rewrite E in Hs. destruct Hs as (ds & -> & Hds & -> & Hw & _).
    rewrite app_nil_r in *. destruct (udec_undec_from (d - 48) ds) as [E1 Hle]; [lia | done |].
    rewrite E1, Hdd. split; [done | lia].
  - intros [E Hv]. pose proof (undec_udec v ltac:(lia)) as Hu. rewrite <- E in Hu.
    pose proof (udec_digits v ltac:(lia)) as Hds. rewrite <- E in Hds.
    apply Forall_cons_1 in Hds as [_ Hds].
    assert (undec_from (d - 48) p = v) as Hp by (by rewrite <- Hu).
    destruct (string2ll_loop (d - 48) p) as [[w rest]|].
    + destruct Hs as (ds & -> & Hds' & Hw & _ & Hr). destruct rest as [|c rest].
      * rewrite app_nil_r in *. by subst.
      * apply Forall_app in Hds as [_ Hds]. apply Forall_cons_1 in Hds as [Hds _]. congruence.
    + exfalso. destruct Hs as (ds & t & -> & Hds' & Hw).
      pose proof (undec_from_mono (d - 48) ds t ltac:(lia) Hds). lia.
Qed.

Lemma string2ll_digits_iff negative slen p v :
  (slen = 1%nat -> hd 0 p <> 48) ->
  string2ll_digits negative slen p = Some v <->
  exists m, p = udec m /\ 0 < m /\
    if negative then m <= 2 ^ 63 /\ v = - m else m < 2 ^ 63 /\ v = m.
Proof.
  intros Hs. unfold string2ll_digits, LLONG_MAX.
  change (u64 (u64 (- (LLONG_MIN + 1)) + 1)) with (2 ^ 63).
  destruct p as [|d p'].
  { split; [discriminate|]. intros (m & E & Hm & _).
    destruct (udec_head m Hm) as (c & t & E' & _). congruence. }
  destruct ((49 <=? d) && (d <=? 57)) eqn:Hd; bool_hyps.
  2:{ assert ((d =? 48) && (slen =? 1)%nat = false) as ->.
      { apply andb_false_iff. destruct (Z.eqb_spec d 48); [right | by left].
        apply Nat.eqb_neq. intros ->. by apply Hs. }
      split; [discriminate|]. intros (m & E & Hm & _).
      destruct (udec_head m Hm) as (c & t & E' & Hc). rewrite E' in E. injection E as -> _.
      apply andb_false_iff in Hd as [|]; bool_hyps; lia. }
  assert (forall m, string2ll_loop (d - 48) p' = Some (m, []) <-> d :: p' = udec m /\ 0 < m < 2 ^ 64)
    as Hl by (intros; apply string2ll_digits_spec; lia).
  split.
  - destruct (string2ll_loop (d - 48) p') as [[m [|]]|]; try discriminate.
    destruct (proj1 (Hl m) eq_refl) as [E Hm]. rewrite !Z.gtb_ltb, s64_u64.
    intros HS. exists m. destruct negative; revert HS; case_bool; try discriminate;
      rewrite s64_small by lia; intros [= <-]; split_and!; (done || lia).
  - intros (m & E & Hm & Hv). rewrite (proj2 (Hl m)) by (destruct negative; split; (done || lia)).
    rewrite !Z.gtb_ltb, s64_u64. destruct negative; destruct Hv as [Hv ->];
      case_bool; try lia; by rewrite s64_small by lia.
Qed.

(** [string2ll] accepts exactly the canonical decimal forms of the 64-bit
    signed integers. *)
Lemma string2ll_iff s v :
  string2ll s = Some v <-> s = dec v /\ LLONG_MIN <= v <= LLONG_MAX.
Proof.
  unfold string2ll, LLONG_MIN, LLONG_MAX. destruct s as [|c0 s'].
  { split; [discriminate|]. intros [H _]. apply (f_equal length) in H. rewrite dec_abs, length_app in H.
    pose proof (udec_length_pos (Z.abs v) ltac:(lia)). cbn [length] in H. lia. }
  assert (dec v = [48] <-> v = 0) as H0.
  { split; [|by intros ->]. intros H. change [48] with (dec 0) in H. unfold dec in H. revert H.
    case_bool; [intros [=]|]. apply udec_inj; lia. }
  destruct ((length (c0 :: s') =? 1)%nat && (c0 =? 48)) eqn:E1; bool_hyps.
  { subst c0. destruct s'; [|discriminate]. split.
    - intros [= <-]. by split.
    - intros [E%eq_sym _]. apply H0 in E. by rewrite E. }
  assert (c0 :: s' <> [48]) as Hne by (by intros [= -> ->]).
  unfold dec in *. destruct (Z.eqb_spec c0 45) as [->|Hc].
  - destruct s' as [|d s'].
    { split; [discriminate|]. intros [E _]. revert E. case_bool.
      - destruct (udec_head (- v)) as (c & t & -> & _); [lia|discriminate].
      - intros E. pose proof (udec_digits v ltac:(lia)) as Hd. rewrite <- E in Hd.
        apply Forall_cons_1 in Hd as [Hd _]. discriminate. }
    rewrite string2ll_digits_iff by (intros [=]). split.
    + intros (m & -> & Hm & Hb & ->). case_bool; [|lia]. rewrite Z.opp_involutive. split; [done|lia].
    + intros [E Hb]. revert E. case_bool.
      * intros [= ->]. exists (- v). split; [done|lia].
      * intros E. pose proof (udec_digits v ltac:(lia)) as Hd. rewrite <- E in Hd.
        apply Forall_cons_1 in Hd as [Hd _]. discriminate.
  - rewrite string2ll_digits_iff.
    2:{ intros Hl. destruct s'; [|discriminate]. cbn. congruence. }
    split.
    + intros (m & -> & Hm & Hb & ->). case_bool; [lia|]. split; [done|lia].
    + intros [E Hb]. revert E. case_bool; [intros [=]; congruence|]. intros E.
      exists v. split; [done|]. split; [|lia]. destruct (Z.eq_dec v 0) as [->|]; [|lia]. done.
Qed.
