(* ===== verification/Sds.v ===== *)
(** * Dynamic strings ([src/sds.c], [src/sds.h])

    An sds is its header (type, [len], [alloc]) and the allocated bytes after
    it. The header fields have the width of the type: every store wraps. A store
    outside the allocation is a fault. Allocation never returns NULL:
    [s_malloc] is [zmalloc], which ends the process when memory runs out. The
    bytes of a fresh or enlarged allocation are indeterminate: they are [junk],
    a variable of the section. *)

From S2P Require Import Prelude CLib.
Local Open Scope Z_scope.

(** ** Data *)

Inductive sdstype := SDS_TYPE_5 | SDS_TYPE_8 | SDS_TYPE_16 | SDS_TYPE_32 | SDS_TYPE_64.

#[export] Instance sdstype_eq_dec : EqDecision sdstype.
Proof. solve_decision. Defined.

Record sds := mkSds {
  sds_type : sdstype;
  sds_len : Z;
  sds_allocf : Z;     (* the [alloc] field; absent from type 5 *)
  sds_mem : bytes     (* from [s] to the end of the allocation *)
}.

Definition SDS_MAX_PREALLOC : Z := 1024 * 1024.

(** Width of the length field: the values below this bound. *)
Definition sdsTypeLimit (t : sdstype) : Z :=
  match t with
  | SDS_TYPE_5 => 2 ^ 5 | SDS_TYPE_8 => 2 ^ 8 | SDS_TYPE_16 => 2 ^ 16
  | SDS_TYPE_32 => 2 ^ 32 | SDS_TYPE_64 => 2 ^ 64
  end.

Definition sdsHdrSize (t : sdstype) : Z :=
  match t with
  | SDS_TYPE_5 => 1 | SDS_TYPE_8 => 3 | SDS_TYPE_16 => 5
  | SDS_TYPE_32 => 9 | SDS_TYPE_64 => 17
  end.

Definition sdsReqType (string_size : Z) : sdstype :=
  if string_size <? 2 ^ 5 then SDS_TYPE_5
  else if string_size <? 2 ^ 8 then SDS_TYPE_8
  else if string_size <? 2 ^ 16 then SDS_TYPE_16
  else if string_size <? 2 ^ 32 then SDS_TYPE_32
  else SDS_TYPE_64.

Definition sdslen (s : sds) : Z := sds_len s.

Definition sdsavail (s : sds) : Z :=
  match sds_type s with
  | SDS_TYPE_5 => 0
  | _ => u64 (sds_allocf s - sds_len s)
  end.

Definition sdsalloc (s : sds) : Z :=
  match sds_type s with
  | SDS_TYPE_5 => sds_len s
  | _ => sds_allocf s
  end.

Definition sdssetlen (s : sds) (newlen : Z) : sds :=
  mkSds (sds_type s) (newlen mod sdsTypeLimit (sds_type s)) (sds_allocf s) (sds_mem s).

Definition sdsinclen (s : sds) (inc : Z) : sds :=
  mkSds (sds_type s) ((sds_len s + inc) mod sdsTypeLimit (sds_type s)) (sds_allocf s) (sds_mem s).

Definition sdssetalloc (s : sds) (newlen : Z) : sds :=
  match sds_type s with
  | SDS_TYPE_5 => s
  | t => mkSds t (sds_len s) (newlen mod sdsTypeLimit t) (sds_mem s)
  end.

Definition set_mem (s : sds) (m : bytes) : sds :=
  mkSds (sds_type s) (sds_len s) (sds_allocf s) m.

(** The string an sds denotes. *)
Definition sdsval (s : sds) : bytes := take (Z.to_nat (sds_len s)) (sds_mem s).

(** ** Operations *)

Section Operations.
(** The value of the bytes that the allocator does not initialise. *)
Variable junk : Z.

(** [init] is NULL ([None]) or a pointer to at least [initlen] bytes. *)
Definition sdsnewlen (init : option bytes) (initlen : Z) : res sds :=
  let type := sdsReqType initlen in
  let type := if decide (type = SDS_TYPE_5) then
                if initlen =? 0 then SDS_TYPE_8 else type else type in
  let mem := replicate (Z.to_nat (initlen + 1)) (match init with None => 0 | Some _ => junk end) in
  let s := mkSds type (initlen mod sdsTypeLimit type) (initlen mod sdsTypeLimit type) mem in
  mem ← (match init with
         | Some p => if negb (initlen =? 0)
                     then d ← mread p 0 (Z.to_nat initlen); mwrite mem 0 d
                     else Ok mem
         | None => Ok mem
         end);
  mem ← wrZ mem initlen 0;
  Ok (set_mem s mem).

Definition sdsempty : res sds := sdsnewlen (Some []) 0.

(** From a C string; NULL gives the empty string. *)
Definition sdsnew (init : option bytes) : res sds :=
  sdsnewlen init (match init with None => 0 | Some p => Z.of_nat (length p) end).

Definition sdsdup (s : sds) : res sds := sdsnewlen (Some (sds_mem s)) (sdslen s).

Definition sdsupdatelen (s : sds) : sds :=
  sdssetlen s (Z.of_nat (length (cstr (sds_mem s)))).

Definition sdsclear (s : sds) : res sds :=
  mem ← wrZ (sds_mem s) 0 0; Ok (sdssetlen (set_mem s mem) 0).

(** [s_realloc] to [n] bytes after the header: the common prefix is kept. *)
Definition realloc_mem (m : bytes) (n : nat) : bytes :=
  take n m ++ replicate (n - length m) junk.

Definition sdsMakeRoomFor (s : sds) (addlen : Z) : res sds :=
  if sdsavail s >=? addlen then Ok s else
  let len := sdslen s in
  let newlen := u64 (len + addlen) in
  let newlen := if newlen <? SDS_MAX_PREALLOC then u64 (newlen * 2)
                else u64 (newlen + SDS_MAX_PREALLOC) in
  let type := sdsReqType newlen in
  let type := if decide (type = SDS_TYPE_5) then SDS_TYPE_8 else type in
  if decide (sds_type s = type) then
    Ok (sdssetalloc (set_mem s (realloc_mem (sds_mem s) (Z.to_nat (newlen + 1)))) newlen)
  else
    d ← mread (sds_mem s) 0 (Z.to_nat (len + 1));
    mem ← mwrite (replicate (Z.to_nat (newlen + 1)) junk) 0 d;
    Ok (sdssetalloc (sdssetlen (mkSds type 0 0 mem) len) newlen).

Definition sdsRemoveFreeSpace (s : sds) : res sds :=
  let len := sdslen s in
  let type := sdsReqType len in
  if decide (sds_type s = type) then
    Ok (sdssetalloc (set_mem s (realloc_mem (sds_mem s) (Z.to_nat (len + 1)))) len)
  else
    d ← mread (sds_mem s) 0 (Z.to_nat (len + 1));
    mem ← mwrite (replicate (Z.to_nat (len + 1)) junk) 0 d;
    Ok (sdssetalloc (sdssetlen (mkSds type 0 0 mem) len) len).

Definition sdsAllocSize (s : sds) : Z := sdsHdrSize (sds_type s) + sdsalloc s + 1.

Definition sdsIncrLen (s : sds) (incr : Z) : res sds :=
  let ok := match sds_type s with
    | SDS_TYPE_5 => ((incr >? 0) && (sds_len s + incr <? 32)) ||
                    ((incr <? 0) && (sds_len s >=? - incr))
    | _ => ((incr >=? 0) && (sds_allocf s - sds_len s >=? incr)) ||
           ((incr <? 0) && (sds_len s >=? - incr))
    end in
  if ok then
    let s := sdsinclen s incr in
    mem ← wrZ (sds_mem s) (sds_len s) 0; Ok (set_mem s mem)
  else Fault AssertFailed.

Definition sdsgrowzero (s : sds) (len : Z) : res sds :=
  let curlen := sdslen s in
  if len <=? curlen then Ok s else
  s ← sdsMakeRoomFor s (len - curlen);
  mem ← mwrite (sds_mem s) (Z.to_nat curlen) (replicate (Z.to_nat (len - curlen + 1)) 0);
  Ok (sdssetlen (set_mem s mem) len).

(** [t] points to at least [len] bytes. *)
Definition sdscatlen (s : sds) (t : bytes) (len : Z) : res sds :=
  let curlen := sdslen s in
  s ← sdsMakeRoomFor s len;
  d ← mread t 0 (Z.to_nat len);
  mem ← mwrite (sds_mem s) (Z.to_nat curlen) d;
  let s := sdssetlen (set_mem s mem) (curlen + len) in
  mem ← wrZ (sds_mem s) (curlen + len) 0;
  Ok (set_mem s mem).

Definition sdscat (s : sds) (t : bytes) : res sds := sdscatlen s t (Z.of_nat (length t)).

Definition sdscatsds (s t : sds) : res sds := sdscatlen s (sds_mem t) (sdslen t).

Definition sdscpylen (s : sds) (t : bytes) (len : Z) : res sds :=
  s ← (if sdsalloc s <? len then sdsMakeRoomFor s (u64 (len - sdslen s)) else Ok s);
  d ← mread t 0 (Z.to_nat len);
  mem ← mwrite (sds_mem s) 0 d;
  mem ← wrZ mem len 0;
  Ok (sdssetlen (set_mem s mem) len).

Definition sdscpy (s : sds) (t : bytes) : res sds := sdscpylen s t (Z.of_nat (length t)).

Definition sdscmp (s1 s2 : sds) : res Z :=
  let l1 := sdslen s1 in
  let l2 := sdslen s2 in
  let minlen := if l1 <? l2 then l1 else l2 in
  a ← mread (sds_mem s1) 0 (Z.to_nat minlen);
  b ← mread (sds_mem s2) 0 (Z.to_nat minlen);
  let cmp := memcmp a b in
  Ok (if cmp =? 0 then s32 (l1 - l2) else cmp).

(** A negative index counts from the end; the sum is stored in an [int]. *)
Definition sdsrange_index (len i : Z) : Z :=
  if i <? 0 then if s32 (len + i) <? 0 then 0 else s32 (len + i) else i.

Definition sdsrange (s : sds) (start end_ : Z) : res sds :=
  let len := sdslen s in
  if len =? 0 then Ok s else
  let start := sdsrange_index len start in
  let end_ := sdsrange_index len end_ in
  let newlen := if start >? end_ then 0 else (end_ - start) + 1 in
  let '(start, newlen) :=
    if negb (newlen =? 0) then
      if start >=? s64 len then (start, 0)
      else if end_ >=? s64 len then
        let end_ := s32 (len - 1) in
        (start, if start >? end_ then 0 else (end_ - start) + 1)
      else (start, newlen)
    else (0, newlen) in
  mem ← (if negb (start =? 0) && negb (newlen =? 0)
         then d ← mread (sds_mem s) (Z.to_nat start) (Z.to_nat newlen); mwrite (sds_mem s) 0 d
         else Ok (sds_mem s));
  mem ← wrZ mem newlen 0;
  Ok (sdssetlen (set_mem s mem) newlen).
End Operations.

(** ** Well-formed strings *)

Record sds_ok (s : sds) : Prop := {
  sds_ok_len : 0 <= sds_len s <= sdsalloc s;
  sds_ok_limit : sdsalloc s < sdsTypeLimit (sds_type s);
  sds_ok_mem : sdsalloc s + 1 <= Z.of_nat (length (sds_mem s));
  sds_ok_nul : sds_mem s !! Z.to_nat (sds_len s) = Some 0
}.

#[export] Instance sds_ok_dec s : Decision (sds_ok s).
Proof.
  destruct (decide ((0 <= sds_len s <= sdsalloc s) /\ sdsalloc s < sdsTypeLimit (sds_type s) /\
    sdsalloc s + 1 <= Z.of_nat (length (sds_mem s)) /\
    sds_mem s !! Z.to_nat (sds_len s) = Some 0)) as [H|H].
  - left. by destruct H as (? & ? & ? & ?).
  - right. intros [? ? ? ?]. by apply H.
Defined.

Create HintDb sds.

Lemma sdsTypeLimit_bound t : 32 <= sdsTypeLimit t <= 2 ^ 64.
Proof. by destruct t. Qed.

Lemma sdsval_length s : sds_ok s -> Z.of_nat (length (sdsval s)) = sds_len s.
Proof. intros [H1 H2 H3 H4]. unfold sdsval. rewrite length_take. lia. Qed.

Lemma sdsReqType_fits n : 0 <= n < 2 ^ 64 -> n < sdsTypeLimit (sdsReqType n).
Proof. intros H. unfold sdsReqType. repeat case_bool; cbn; lia. Qed.

(** An sds whose header is consistent with its memory. *)
Lemma sds_ok_intro t len alloc mem :
  t <> SDS_TYPE_5 -> 0 <= len <= alloc -> alloc < sdsTypeLimit t ->
  alloc + 1 <= Z.of_nat (length mem) -> mem !! Z.to_nat len = Some 0 ->
  sds_ok (mkSds t len alloc mem).
Proof. intros Ht Hl Ha Hm H0. by split; destruct t. Qed.

(** [sdsMakeRoomFor] with room already there, or after a reallocation. *)
Lemma sdsavail_ok s : sds_ok s -> sds_type s <> SDS_TYPE_5 -> sdsavail s = sdsalloc s - sds_len s.
Proof.
  intros [H1 H2 H3 H4] Ht. pose proof (sdsTypeLimit_bound (sds_type s)).
  unfold sdsavail, sdsalloc in *. destruct (sds_type s); try done; rewrite u64_small; lia.
Qed.

Lemma sdsavail_le s : sds_ok s -> 0 <= sdsavail s <= sdsalloc s - sds_len s.
Proof.
  intros H. destruct (decide (sds_type s = SDS_TYPE_5)) as [E|E].
  - unfold sdsavail, sdsalloc. rewrite E. lia.
  - rewrite sdsavail_ok by done. destruct H. lia.
Qed.

Lemma realloc_mem_length junk m n : length (realloc_mem junk m n) = n.
Proof. unfold realloc_mem. rewrite length_app, length_take, length_replicate. lia. Qed.

Lemma realloc_mem_lookup junk m n i :
  (i < n)%nat -> (i < length m)%nat -> realloc_mem junk m n !! i = m !! i.
Proof.
  intros Hn Hm. unfold realloc_mem. rewrite lookup_app_l by (rewrite length_take; lia).
  by rewrite lookup_take_lt.
Qed.

Lemma realloc_mem_take junk m n k :
  (k <= n)%nat -> (k <= length m)%nat -> take k (realloc_mem junk m n) = take k m.
Proof.
  intros Hn Hm. unfold realloc_mem. rewrite take_app_le by (rewrite length_take; lia).
  rewrite take_take. by rewrite Nat.min_l.
Qed.

(** Copying a string with its NUL to a fresh allocation. *)
Lemma copy_fresh junk m len n :
  (len < n)%nat -> (len < length m)%nat -> m !! len = Some 0 ->
  exists mem, (d ← mread m 0 (S len); mwrite (replicate n junk) 0 d) = Ok mem /\
    length mem = n /\ take len mem = take len m /\ mem !! len = Some 0.
Proof.
  intros Hn Hm H0. rewrite mread_ok by lia. rewrite bind_ok, drop_0.
  rewrite mwrite_ok by (rewrite length_replicate, length_take; lia).
  eexists. split; [done|]. rewrite take_0. cbn [app].
  rewrite length_app, length_drop, length_replicate, length_take. split; [lia|]. split.
  - rewrite take_app_le by (rewrite length_take; lia). rewrite take_take. f_equal. lia.
  - rewrite lookup_app_l by (rewrite length_take; lia). by rewrite lookup_take_lt by lia.
Qed.

(** What the reallocation asks for, and that it fits: the string can grow up to
    2^63 - 2^20 bytes. *)
Lemma sdsMakeRoomFor_ok junk s addlen :
  sds_ok s -> 0 <= addlen -> sds_len s + addlen < 2 ^ 63 ->
  exists s', sdsMakeRoomFor junk s addlen = Ok s' /\ sds_ok s' /\ sdsval s' = sdsval s /\
    sds_len s' = sds_len s /\
    (if sdsavail s >=? addlen then s' = s
     else sds_type s' <> SDS_TYPE_5 /\ addlen <= sdsalloc s' - sds_len s' /\
          sdsalloc s' = if sds_len s + addlen <? SDS_MAX_PREALLOC
                        then (sds_len s + addlen) * 2 else sds_len s + addlen + SDS_MAX_PREALLOC).
Proof.
  intros Hs Hadd Hbig. unfold sdsMakeRoomFor, sdslen.
  destruct (Z.geb_spec (sdsavail s) addlen) as [_|Hlt]; [by exists s|].
  pose proof (sdsavail_le s Hs). destruct Hs as [H1 H2 H3 H4].
  rewrite (u64_small (sds_len s + addlen)) by lia.
  set (newlen := if sds_len s + addlen <? SDS_MAX_PREALLOC
                 then u64 ((sds_len s + addlen) * 2) else u64 (sds_len s + addlen + SDS_MAX_PREALLOC)).
  assert (newlen = if sds_len s + addlen <? SDS_MAX_PREALLOC
                   then (sds_len s + addlen) * 2 else sds_len s + addlen + SDS_MAX_PREALLOC) as Hnew.
  { unfold newlen, SDS_MAX_PREALLOC in *. case_bool; apply u64_small; lia. }
  rewrite <- Hnew. clearbody newlen.
  assert (sds_len s + addlen <= newlen < 2 ^ 64) as Hn.
  { rewrite Hnew. unfold SDS_MAX_PREALLOC. case_bool; lia. }
  pose proof (sdsReqType_fits newlen ltac:(lia)) as Hfit.
  set (type := if decide (sdsReqType newlen = SDS_TYPE_5) then SDS_TYPE_8 else sdsReqType newlen).
  assert (newlen < sdsTypeLimit type /\ type <> SDS_TYPE_5) as [Hft Ht5].
  { unfold type. case_decide as E; [rewrite E in Hfit; cbn in *; split; [lia|done] | done]. }
  clearbody type. destruct (decide (sds_type s = type)) as [Et|Et].
  - exists (mkSds type (sds_len s) newlen (realloc_mem junk (sds_mem s) (Z.to_nat (newlen + 1)))).
    split.
    { unfold sdssetalloc, set_mem. cbn [sds_type sds_len sds_allocf sds_mem]. rewrite Et.
      destruct type; try done; by rewrite Z.mod_small by lia. }
    split; [|split; [|split; [done|]]].
    + apply sds_ok_intro; [done | lia | done | rewrite realloc_mem_length; lia |].
      rewrite realloc_mem_lookup by lia. done.
    + unfold sdsval. cbn. apply realloc_mem_take; lia.
    + cbn. split; [done|]. unfold sdsalloc. cbn. destruct type; try done; lia.
  - destruct (copy_fresh junk (sds_mem s) (Z.to_nat (sds_len s)) (Z.to_nat (newlen + 1)))
      as (mem & E & Hl & Ht & H0); [lia | lia | done |].
    replace (Z.to_nat (sds_len s + 1)) with (S (Z.to_nat (sds_len s))) by lia.
    apply bind_ok_inv in E as (d & -> & E). rewrite bind_ok, E, bind_ok.
    exists (mkSds type (sds_len s) newlen mem). split.
    { unfold sdssetalloc, sdssetlen. cbn [sds_type sds_len sds_allocf sds_mem].
      destruct type; try done; by rewrite !Z.mod_small by lia. }
    split; [|split; [|split; [done|]]].
    + apply sds_ok_intro; [done | lia | done | lia | done].
    + done.
    + cbn. split; [done|]. unfold sdsalloc. cbn. destruct type; try done; lia.
Qed.

(** After it, there is room, whether or not the string was moved. *)
Lemma sdsMakeRoomFor_room junk s addlen :
  sds_ok s -> 0 < addlen -> sds_len s + addlen < 2 ^ 63 ->
  exists s', sdsMakeRoomFor junk s addlen = Ok s' /\ sds_ok s' /\ sdsval s' = sdsval s /\ sds_len s' = sds_len s /\
    sds_type s' <> SDS_TYPE_5 /\ addlen <= sdsalloc s' - sds_len s'.
Proof.
  intros Hs Hadd Hbig. destruct (sdsMakeRoomFor_ok junk s addlen Hs ltac:(lia) Hbig) as (s' & E & Hs' & Hv & Hl & Hr).
  exists s'. split_and!; try done.
  - destruct (Z.geb_spec (sdsavail s) addlen) as [Ha|]; [|by destruct Hr]. subst s'. intros E5. unfold sdsavail in Ha. rewrite E5 in Ha. lia.
  - destruct (Z.geb_spec (sdsavail s) addlen) as [Ha|]; [|lia]. subst s'. pose proof (sdsavail_le s Hs). lia.
Qed.

Lemma take_mwrite (m : bytes) off (d : bytes) k :
  (off + length d <= length m)%nat -> k = (off + length d)%nat ->
  take k (take off m ++ d ++ drop (off + length d) m) = take off m ++ d.
Proof.
  intros H ->. rewrite app_assoc, take_app_length'; [done|].
  rewrite length_app, length_take. lia.
Qed.

(** Header and memory after bytes are appended and the NUL is set. *)
Lemma sdscatlen_ok junk s t len :
  sds_ok s -> Z.of_nat (length t) >= len -> 0 <= len -> sds_len s + len < 2 ^ 63 ->
  exists s', sdscatlen junk s t len = Ok s' /\ sds_ok s' /\
    sdsval s' = sdsval s ++ take (Z.to_nat len) t.
Proof.
  intros Hs Ht H0 Hbig. unfold sdscatlen, sdslen.
  destruct (sdsMakeRoomFor_ok junk s len Hs H0 Hbig) as (s1 & -> & Hs1 & Hv & Hl & Hroom).
  rewrite bind_ok, mread_ok by lia. rewrite bind_ok, drop_0.
  assert (len <= sdsalloc s1 - sds_len s1) as Hr.
  { destruct (Z.geb_spec (sdsavail s) len); [|lia]. subst s1. pose proof (sdsavail_le s Hs). lia. }
  pose proof (sdsTypeLimit_bound (sds_type s1)).
  destruct Hs1 as [H1 H2 H3 H4].
  set (d := take (Z.to_nat len) t).
  assert (length d = Z.to_nat len) as Hd by (unfold d; rewrite length_take; lia).
  rewrite mwrite_ok by lia. rewrite bind_ok. cbn.
  set (mem := take (Z.to_nat (sds_len s)) (sds_mem s1) ++ d ++ _).
  assert (length mem = length (sds_mem s1)) as Hmem.
  { unfold mem. rewrite !length_app, length_take, length_drop. lia. }
  unfold wrZ. rewrite decide_True, wr_ok by lia. rewrite bind_ok.
  eexists. split; [done|].
  assert (Z.to_nat (sds_len s + len) = Z.to_nat (sds_len s) + length d)%nat as Hsum by lia.
  split.
  - unfold sdssetlen, set_mem in *. cbn. rewrite Z.mod_small by lia.
    unfold sdsalloc in *. split; cbn; rewrite ?length_insert.
    1-3: destruct (sds_type s1) eqn:E; cbn in *; lia.
    apply list_lookup_insert_eq. lia.
  - unfold sdsval. cbn. rewrite Z.mod_small by lia. rewrite take_insert_ge by lia.
    unfold mem. rewrite take_mwrite by lia. f_equal.
    unfold sdsval in Hv. by rewrite <- Hv, Hl.
Qed.

(** A shorter (or equal) string in the same allocation: any operation that ends
    by setting the NUL and the length. *)
Lemma sds_shrink s mem newlen :
  sds_ok s -> 0 <= newlen <= sdsalloc s ->
  (sds_type s = SDS_TYPE_5 -> newlen <= sds_len s) ->
  length mem = length (sds_mem s) ->
  exists m', wrZ mem newlen 0 = Ok m' /\
    sds_ok (sdssetlen (set_mem s m') newlen) /\
    sdsval (sdssetlen (set_mem s m') newlen) = take (Z.to_nat newlen) mem.
Proof.
  intros [H1 H2 H3 H4] Hn H5 Hm. pose proof (sdsTypeLimit_bound (sds_type s)).
  unfold wrZ. rewrite decide_True, wr_ok by lia. eexists. split; [done|].
  unfold sdsval, sdssetlen, set_mem. cbn. rewrite Z.mod_small by lia. split.
  - unfold sdsalloc in *. split; cbn; rewrite ?length_insert.
    1-3: destruct (sds_type s) eqn:E; cbn in *; try specialize (H5 eq_refl); lia.
    apply list_lookup_insert_eq. lia.
  - by rewrite take_insert_ge.
Qed.

Lemma sdsnewlen_ok junk p len :
  0 <= len <= Z.of_nat (length p) -> len < 2 ^ 64 ->
  exists s, sdsnewlen junk (Some p) len = Ok s /\ sds_ok s /\ sdsval s = take (Z.to_nat len) p /\
    sdsalloc s = len.
Proof.
  intros Hl Hb. unfold sdsnewlen.
  pose proof (sdsReqType_fits len ltac:(lia)) as Hfit.
  set (type := if decide _ then if len =? 0 then SDS_TYPE_8 else sdsReqType len else sdsReqType len).
  assert (len < sdsTypeLimit type) as Ht.
  { unfold type. case_decide as E; [|done]. case_bool; [subst; cbn; lia | done]. }
  clearbody type. rewrite Z.mod_small by lia.
  assert (exists mem, (if negb (len =? 0) then d ← mread p 0 (Z.to_nat len);
             mwrite (replicate (Z.to_nat (len + 1)) junk) 0 d
           else Ok (replicate (Z.to_nat (len + 1)) junk)) = Ok mem /\
         length mem = Z.to_nat (len + 1) /\ take (Z.to_nat len) mem = take (Z.to_nat len) p)
    as (mem & -> & Hm & Htk).
  { destruct (Z.eqb_spec len 0) as [->|Hne]; cbn [negb].
    - eexists. by split_and!.
    - rewrite mread_ok by lia. rewrite bind_ok, drop_0.
      rewrite mwrite_ok by (rewrite length_take, length_replicate; lia). eexists. split; [done|].
      rewrite take_0. cbn [app]. rewrite length_app, length_drop, length_take, length_replicate.
      split; [lia|]. rewrite take_app_le by (rewrite length_take; lia). rewrite take_take. f_equal. lia. }
  rewrite bind_ok. unfold wrZ. rewrite decide_True, wr_ok by lia. rewrite bind_ok.
  eexists. split; [done|]. unfold set_mem, sdsalloc, sdsval. cbn.
  split; [|split; [rewrite take_insert_ge by lia; done | by destruct type]].
  split; unfold sdsalloc; cbn; rewrite ?length_insert.
  1-3: destruct type; lia.
  apply list_lookup_insert_eq. lia.
Qed.

Lemma sdsnewlen_none junk n : 0 <= n < 2 ^ 64 ->
  exists s, sdsnewlen junk None n = Ok s /\ sds_ok s /\ sdsval s = replicate (Z.to_nat n) 0.
Proof.
  intros Hn. unfold sdsnewlen. pose proof (sdsReqType_fits n ltac:(lia)) as Hfit.
  set (type := if decide _ then if n =? 0 then SDS_TYPE_8 else sdsReqType n else sdsReqType n).
  assert (n < sdsTypeLimit type) as Ht.
  { unfold type. case_decide as E; [|done]. case_bool; [subst; cbn; lia | done]. }
  clearbody type. rewrite Z.mod_small by lia. rewrite bind_ok. unfold wrZ. rewrite decide_True by lia.
  rewrite wr_ok by len_lia. rewrite bind_ok. eexists. split; [reflexivity|].
  unfold set_mem. split.
  - split; unfold sdsalloc; cbn; rewrite ?length_insert, ?length_replicate.
    1-3: destruct type; lia.
    apply list_lookup_insert_eq. len_lia.
  - unfold sdsval. cbn. rewrite take_insert_ge by lia. rewrite take_replicate. f_equal. lia.
Qed.

Lemma sdscat_ok junk s t :
  sds_ok s -> sds_len s + Z.of_nat (length t) < 2 ^ 63 ->
  exists s', sdscat junk s t = Ok s' /\ sds_ok s' /\ sdsval s' = sdsval s ++ t.
Proof.
  intros Hs Hb. unfold sdscat.
  destruct (sdscatlen_ok junk s t (Z.of_nat (length t)) Hs) as (s' & E & Hs' & Hv); [lia..|].
  exists s'. rewrite Nat2Z.id, firstn_all in Hv. done.
Qed.

Lemma sdsclear_ok s :
  sds_ok s -> exists s', sdsclear s = Ok s' /\ sds_ok s' /\ sdsval s' = [] /\ sdsalloc s' <= sdsalloc s.
Proof.
  intros Hs. unfold sdsclear.
  destruct (sds_shrink s (sds_mem s) 0 Hs) as (m' & -> & Hok & Hv).
  { destruct Hs. lia. } { destruct Hs. lia. } { done. }
  rewrite bind_ok. eexists. split; [done|]. split; [done|]. split; [by rewrite Hv|].
  unfold sdsalloc, sdssetlen, set_mem. cbn. destruct Hs as [H1 _ _ _].
  unfold sdsalloc in H1. destruct (sds_type s); rewrite ?Z.mod_0_l by (by cbn); lia.
Qed.

(** The index a negative [sdsrange] argument stands for. *)
Definition range_index (len i : Z) : Z := if i <? 0 then Z.max 0 (len + i) else i.

Lemma sdsrange_index_eq len i :
  0 <= len < 2 ^ 31 -> - 2 ^ 31 <= i < 2 ^ 31 -> sdsrange_index len i = range_index len i.
Proof.
  intros. unfold sdsrange_index, range_index. case_bool; [|done].
  rewrite s32_small by lia. case_bool; lia.
Qed.

Lemma sdsrange_ok s start end_ :
  sds_ok s -> sds_len s < 2 ^ 31 -> - 2 ^ 31 <= start < 2 ^ 31 -> - 2 ^ 31 <= end_ < 2 ^ 31 ->
  let a := range_index (sds_len s) start in
  let b := range_index (sds_len s) end_ in
  exists s', sdsrange s start end_ = Ok s' /\ sds_ok s' /\
    sdsval s' = take (Z.to_nat (b - a + 1)) (drop (Z.to_nat a) (sdsval s)).
Proof.
  intros Hs Hl Hst Hen a b. pose proof (sdsval_length s Hs) as Hvl.
  unfold sdsrange, sdslen. destruct (Z.eqb_spec (sds_len s) 0) as [E0|E0].
  { exists s. split; [done|]. split; [done|]. destruct (sdsval s); [|cbn in Hvl; lia].
    by rewrite drop_nil, take_nil. }
  pose proof (sds_ok_len s Hs) as Hlen. pose proof (sds_ok_mem s Hs) as Hmem.
  rewrite !sdsrange_index_eq by lia. fold a b.
  assert (0 <= a < 2 ^ 31 /\ 0 <= b < 2 ^ 31) as [Ha Hb].
  { unfold a, b, range_index. repeat case_bool; lia. }
  clearbody a b. cbv zeta. rewrite !s64_small, !s32_small by lia.
  rewrite !Z.gtb_ltb, !Z.geb_leb.
  set (n := Z.max 0 (Z.min (b - a + 1) (sds_len s - a))).
  assert (exists a', (if negb ((if b <? a then 0 else b - a + 1) =? 0)
     then if sds_len s <=? a then (a, 0)
          else if sds_len s <=? b
            then (a, if sds_len s - 1 <? a then 0 else sds_len s - 1 - a + 1)
            else (a, if b <? a then 0 else b - a + 1)
     else (0, if b <? a then 0 else b - a + 1)) = (a', n) /\ 0 <= a' /\ (n <> 0 -> a' = a)) as (a' & -> & Ha' & Haa).
  { unfold n. destruct (Z.ltb_spec b a); cbn [Z.eqb negb].
    - exists 0. split; [f_equal; lia|]. lia.
    - destruct (Z.eqb_spec (b - a + 1) 0); [lia|]. cbn [negb].
      destruct (Z.leb_spec (sds_len s) a); [exists a; split; [f_equal; lia | lia]|].
      destruct (Z.leb_spec (sds_len s) b); exists a.
      + case_bool; [lia|]. split; [f_equal; lia | lia].
      + split; [f_equal; lia | lia]. }
  assert (exists mem, (if negb (a' =? 0) && negb (n =? 0)
     then d ← mread (sds_mem s) (Z.to_nat a') (Z.to_nat n); mwrite (sds_mem s) 0 d
     else Ok (sds_mem s)) = Ok mem /\ length mem = length (sds_mem s) /\
     take (Z.to_nat n) mem = take (Z.to_nat n) (drop (Z.to_nat a) (sds_mem s)))
    as (mem & -> & Hml & Hmt).
  { destruct (Z.eqb_spec n 0) as [->|Hn].
    - rewrite andb_false_r. by eexists.
    - rewrite (Haa Hn). rewrite andb_true_r. destruct (Z.eqb_spec a 0) as [->|Hne]; cbn [negb].
      + eexists. by rewrite drop_0.
      + rewrite mread_ok by lia. rewrite bind_ok, mwrite_ok by (rewrite length_take, length_drop; lia).
        eexists. split; [done|]. rewrite take_0. cbn [app].
        rewrite length_app, length_drop, length_take, length_drop. split; [lia|].
        rewrite take_app_le by (rewrite length_take, length_drop; lia). rewrite take_take. f_equal. lia. }
  rewrite bind_ok.
  destruct (sds_shrink s mem n Hs) as (m' & -> & Hok & Hv); [lia | lia | done |].
  rewrite bind_ok. eexists. split; [done|]. split; [done|]. rewrite Hv, Hmt.
  unfold sdsval. rewrite skipn_firstn_comm, take_take. f_equal. lia.
Qed.

(** The length is set after the bytes were written: the memory [m] need not be
    terminated before. *)
Lemma sdsIncrLen_mem s m incr :
  sds_ok s -> sds_type s <> SDS_TYPE_5 -> length m = length (sds_mem s) -> - sds_len s <= incr <= sdsalloc s - sds_len s ->
  exists s', sdsIncrLen (set_mem s m) incr = Ok s' /\ sds_ok s' /\ sds_len s' = sds_len s + incr /\
    sdsval s' = take (Z.to_nat (sds_len s + incr)) m /\ sds_type s' = sds_type s.
Proof.
  intros Hs Ht Hm Hi. unfold sdsIncrLen. pose proof (sds_ok_limit s Hs).
  cbn [set_mem sds_type sds_len sds_allocf].
  assert ((match sds_type s with
    | SDS_TYPE_5 => ((incr >? 0) && (sds_len s + incr <? 32)) || ((incr <? 0) && (sds_len s >=? - incr))
    | _ => ((incr >=? 0) && (sds_allocf s - sds_len s >=? incr)) || ((incr <? 0) && (sds_len s >=? - incr))
    end) = true) as ->.
  { unfold sdsalloc in *. rewrite !Z.geb_leb. destruct (sds_type s) eqn:E5; [exfalso; congruence| | | |];
    apply orb_true_iff; rewrite !andb_true_iff, !Z.leb_le, Z.ltb_lt; lia. }
  assert (sdsinclen (set_mem s m) incr = sdssetlen (set_mem s m) (sds_len s + incr)) as -> by done.
  destruct (sds_shrink s m (sds_len s + incr) Hs) as (m' & E & Hok & Hv); [lia | done | done |].
  change (sds_mem (sdssetlen (set_mem s m) (sds_len s + incr))) with m.
  change (sds_len (sdssetlen (set_mem s m) (sds_len s + incr))) with ((sds_len s + incr) mod sdsTypeLimit (sds_type s)).
  pose proof (sds_ok_len s Hs).
  rewrite Z.mod_small by lia. rewrite E, bind_ok. eexists. split; [done|].
  split; [done|]. split; [|done]. cbn. rewrite Z.mod_small by lia. done.
Qed.

Lemma sdsIncrLen_ok s incr :
  sds_ok s -> sds_type s <> SDS_TYPE_5 -> - sds_len s <= incr <= sdsalloc s - sds_len s ->
  exists s', sdsIncrLen s incr = Ok s' /\ sds_ok s' /\ sds_len s' = sds_len s + incr /\
    sdsval s' = take (Z.to_nat (sds_len s + incr)) (sds_mem s).
Proof.
  intros Hs Ht Hi. destruct (sdsIncrLen_mem s (sds_mem s) incr Hs Ht eq_refl Hi) as (s' & E & H1 & H2 & H3 & _).
  exists s'. by destruct s.
Qed.

(** A positive increment of a type 5 string is refused by the assertion unless
    the length stays below 32; an increment of 0 always is. *)
Lemma sdsIncrLen_type5_zero s : sds_type s = SDS_TYPE_5 -> sdsIncrLen s 0 = Fault AssertFailed.
Proof. intros E. unfold sdsIncrLen. by rewrite E. Qed.

Lemma sdscpylen_ok junk s t len :
  sds_ok s -> 0 <= len <= Z.of_nat (length t) -> len < 2 ^ 63 ->
  exists s', sdscpylen junk s t len = Ok s' /\ sds_ok s' /\ sdsval s' = take (Z.to_nat len) t.
Proof.
  intros Hs Hl Hb. unfold sdscpylen, sdslen.
  assert (exists s1, (if sdsalloc s <? len then sdsMakeRoomFor junk s (u64 (len - sds_len s)) else Ok s) = Ok s1
    /\ sds_ok s1 /\ len <= sdsalloc s1 /\ (sds_type s1 = SDS_TYPE_5 -> len <= sds_len s1))
    as (s1 & -> & Hs1 & Hlen & H5).
  { pose proof (sds_ok_len s Hs). destruct (Z.ltb_spec (sdsalloc s) len).
    - rewrite u64_small by lia.
      destruct (sdsMakeRoomFor_ok junk s (len - sds_len s) Hs) as (s1 & -> & Hs1 & _ & Hl1 & Hr); [lia..|].
      pose proof (sdsavail_le s Hs). destruct (Z.geb_spec (sdsavail s) (len - sds_len s)); [lia|].
      exists s1. destruct Hr as (Hr5 & Hr & _). split; [done|]. split; [done|]. split; [lia|]. done.
    - exists s. split; [done|]. split; [done|]. split; [lia|]. unfold sdsalloc in *. intros E. rewrite E in *. lia. }
  rewrite bind_ok, mread_ok by lia. rewrite bind_ok, drop_0.
  pose proof (sds_ok_mem s1 Hs1).
  rewrite mwrite_ok by (rewrite length_take; lia). rewrite bind_ok, take_0. cbn [app].
  edestruct (sds_shrink s1) as (m' & -> & Hok & Hv); [exact Hs1 | exact (conj (proj1 Hl) Hlen) | exact H5 | |].
  2:{ rewrite bind_ok. eexists. split; [done|]. split; [done|]. rewrite Hv.
      rewrite take_app_le by (rewrite length_take; lia). rewrite take_take. f_equal. lia. }
  rewrite length_app, length_drop, length_take. lia.
Qed.

Lemma sdsgrowzero_ok junk s len :
  sds_ok s -> len < 2 ^ 63 ->
  exists s', sdsgrowzero junk s len = Ok s' /\ sds_ok s' /\
    sdsval s' = sdsval s ++ replicate (Z.to_nat (len - sds_len s)) 0.
Proof.
  intros Hs Hb. unfold sdsgrowzero, sdslen. pose proof (sds_ok_len s Hs) as Hl0.
  destruct (Z.leb_spec len (sds_len s)).
  { exists s. replace (Z.to_nat (len - sds_len s)) with 0%nat by lia. cbn. by rewrite app_nil_r. }
  destruct (sdsMakeRoomFor_ok junk s (len - sds_len s) Hs) as (s1 & -> & Hs1 & Hv & Hl1 & Hr); [lia..|].
  assert (len <= sdsalloc s1 /\ sds_type s1 <> SDS_TYPE_5) as [Hlen H5].
  { destruct (Z.geb_spec (sdsavail s) (len - sds_len s)).
    - subst s1. pose proof (sdsavail_le s Hs). split; [lia|]. intros E.
      unfold sdsavail in *. rewrite E in *. lia.
    - destruct Hr as (? & ? & _). split; [lia | done]. }
  pose proof (sds_ok_mem s1 Hs1). pose proof (sds_ok_limit s1 Hs1). rewrite bind_ok.
  set (z := replicate (Z.to_nat (len - sds_len s + 1)) 0).
  assert (length z = Z.to_nat (len - sds_len s + 1)) as Hz by (unfold z; by rewrite length_replicate).
  rewrite mwrite_ok by lia. rewrite bind_ok.
  eexists. split; [done|].
  assert (z = replicate (Z.to_nat (len - sds_len s)) 0 ++ [0]) as Hz2.
  { unfold z. replace (Z.to_nat (len - sds_len s + 1)) with (Z.to_nat (len - sds_len s) + 1)%nat by lia.
    by rewrite replicate_add. }
  unfold sdsval, sdssetlen, set_mem. cbn. rewrite Z.mod_small by lia. split.
  - unfold sdsalloc in *. split; cbn.
    1-2: destruct (sds_type s1) eqn:E; cbn in *; (done || lia).
    + rewrite !length_app, length_take, length_drop. destruct (sds_type s1) eqn:E; cbn in *; (done || lia).
    + rewrite Hz2, <- app_assoc, app_assoc. apply list_lookup_middle.
      rewrite length_app, length_take, length_replicate. lia.
  - unfold sdsval in Hv. rewrite Hl1 in Hv. rewrite Hv.
    rewrite Hz2, <- app_assoc, app_assoc. rewrite take_app_length'; [done|].
    rewrite length_app, length_take, length_replicate. rewrite Hl1 in *. pose proof (sds_ok_mem s Hs). lia.
Qed.

Lemma sdsRemoveFreeSpace_ok junk s :
  sds_ok s -> exists s', sdsRemoveFreeSpace junk s = Ok s' /\ sds_ok s' /\ sdsval s' = sdsval s /\
    sdsavail s' = 0.
Proof.
  intros Hs. destruct Hs as [H1 H2 H3 H4]. pose proof (sdsTypeLimit_bound (sds_type s)).
  unfold sdsRemoveFreeSpace, sdslen.
  pose proof (sdsReqType_fits (sds_len s) ltac:(lia)) as Hfit.
  set (type := sdsReqType (sds_len s)) in *. clearbody type.
  destruct (decide (sds_type s = type)) as [Et|Et].
  - set (m := realloc_mem junk (sds_mem s) (Z.to_nat (sds_len s + 1))).
    assert (m !! Z.to_nat (sds_len s) = Some 0) as Hm0
      by (unfold m; rewrite realloc_mem_lookup by lia; done).
    assert (length m = Z.to_nat (sds_len s + 1)) as Hml by apply realloc_mem_length.
    eexists. split; [done|]. unfold sdssetalloc, set_mem, sdsval, sdsavail. cbn. rewrite Et.
    assert (take (Z.to_nat (sds_len s)) m = take (Z.to_nat (sds_len s)) (sds_mem s)) as Hmt
      by (apply realloc_mem_take; lia).
    destruct type; cbn in *; rewrite ?Z.mod_small by lia; (split; [|split; [done|]]);
      try (rewrite Z.sub_diag; done); try done; split; unfold sdsalloc; cbn; (lia || done).
  - destruct (copy_fresh junk (sds_mem s) (Z.to_nat (sds_len s)) (Z.to_nat (sds_len s + 1)))
      as (mem & E & Hl & Ht & H0); [lia | lia | done |].
    replace (Z.to_nat (sds_len s + 1)) with (S (Z.to_nat (sds_len s))) in * by lia.
    apply bind_ok_inv in E as (d & -> & E). rewrite bind_ok, E, bind_ok.
    eexists. split; [done|]. unfold sdssetalloc, sdssetlen, sdsval, sdsavail. cbn.
    destruct type; cbn in *; rewrite ?Z.mod_small by lia; (split; [|split; [done|]]);
      try (rewrite Z.sub_diag; done); try done; split; unfold sdsalloc; cbn; (lia || done).
Qed.

(** The comparison is 0 for equal strings, up to 2^31 bytes. *)
Lemma sdscmp_zero a b : sds_ok a -> sds_ok b -> sds_len a < 2 ^ 31 -> sds_len b < 2 ^ 31 ->
  exists c, sdscmp a b = Ok c /\ (c =? 0) = bool_decide (sdsval a = sdsval b).
Proof.
  intros Ha Hb La Lb. unfold sdscmp, sdslen. pose proof (sds_ok_len a Ha). pose proof (sds_ok_len b Hb).
  pose proof (sds_ok_mem a Ha). pose proof (sds_ok_mem b Hb). pose proof (sdsval_length a Ha) as Va. pose proof (sdsval_length b Hb) as Vb.
  set (n := Z.to_nat (if sds_len a <? sds_len b then sds_len a else sds_len b)).
  assert ((n <= Z.to_nat (sds_len a))%nat /\ (n <= Z.to_nat (sds_len b))%nat) as [Na Nb] by (unfold n; destruct (Z.ltb_spec (sds_len a) (sds_len b)); lia).
  rewrite !mread_ok by lia. rewrite !bind_ok, !drop_0. eexists. split; [reflexivity|].
  assert (forall s : sds, (n <= Z.to_nat (sds_len s))%nat -> take n (sds_mem s) = take n (sdsval s)) as Ht.
  { intros s Hs. unfold sdsval. rewrite take_take. f_equal. lia. }
  rewrite (Ht a), (Ht b) by lia. pose proof (memcmp_eq (take n (sdsval a)) (take n (sdsval b)) ltac:(rewrite !length_take; lia)) as Hcmp.
  destruct (Z.eqb_spec (memcmp (take n (sdsval a)) (take n (sdsval b))) 0) as [E|E].
  - apply Hcmp in E. rewrite s32_small by lia. case_bool_decide as Hab.
    + rewrite Hab in Va. apply Z.eqb_eq. lia.
    + apply Z.eqb_neq. intros E0. apply Hab. assert (n = length (sdsval a) /\ n = length (sdsval b)) as [N1 N2]
        by (unfold n; destruct (Z.ltb_spec (sds_len a) (sds_len b)); lia).
      rewrite N1 in E at 1. rewrite N2 in E. by rewrite !firstn_all in E.
  - rewrite (proj2 (Z.eqb_neq _ _)) by done. symmetry. apply bool_decide_eq_false. intros Hab. apply E, Hcmp. by rewrite Hab.
Qed.
