(* ===== verification/SdsNum.v ===== *)
(** * Numbers as sds strings ([src/sds.c])

    Model of [sdsll2str], [sdsull2str] and [sdsfromlonglong] of
    src/redis-3.2.5/src/sds.c, which write the decimal digits backwards into a
    buffer and then reverse it in place. *)

From S2P Require Import Prelude CLib Util Sds.
Local Open Scope Z_scope.

Definition SDS_LLSTR_SIZE : Z := 21.

(** [do { *p++ = '0'+(v%10); v /= 10; } while(v)]: a 64-bit number has at most 20
    digits. *)
Fixpoint digits_loop (fuel : nat) (m : bytes) (p v : Z) : res (bytes * Z) :=
  match fuel with
  | O => Fault OutOfFuel
  | S f =>
      m ← wrZ m p (48 + v mod 10);
      let p := p + 1 in
      let v := v / 10 in
      if v =? 0 then Ok (m, p) else digits_loop f m p v
  end.

(** [while(s < p) { aux = *s; *s = *p; *p = aux; s++; p--; }]. *)
Fixpoint reverse_loop (fuel : nat) (m : bytes) (s p : Z) : res bytes :=
  if s <? p then
    match fuel with
    | O => Fault OutOfFuel
    | S f =>
        aux ← rdZ m s;
        b ← rdZ m p;
        m ← wrZ m s b;
        m ← wrZ m p aux;
        reverse_loop f m (s + 1) (p - 1)
    end
  else Ok m.

(** [m] is the buffer [s]; the results are the length and the buffer. *)
Definition sdsll2str (m : bytes) (value : Z) : res (Z * bytes) :=
  let v := u64 (if value <? 0 then - value else value) in
  '(m, p) ← digits_loop 20 m 0 v;
  '(m, p) ← (if value <? 0 then m ← wrZ m p 45; Ok (m, p + 1) else Ok (m, p));
  let l := p in
  m ← wrZ m p 0;
  m ← reverse_loop (Z.to_nat SDS_LLSTR_SIZE) m 0 (p - 1);
  Ok (l, m).

Definition sdsull2str (m : bytes) (v : Z) : res (Z * bytes) :=
  '(m, p) ← digits_loop 20 m 0 v;
  let l := p in
  m ← wrZ m p 0;
  m ← reverse_loop (Z.to_nat SDS_LLSTR_SIZE) m 0 (p - 1);
  Ok (l, m).

Definition sdsfromlonglong (junk : Z) (value : Z) : res sds :=
  '(len, buf) ← sdsll2str (replicate (Z.to_nat SDS_LLSTR_SIZE) junk) value;
  sdsnewlen junk (Some buf) len.

(** ** The digits *)

Lemma udec_rev v : 0 <= v -> List.rev (udec v) = 48 + v mod 10 :: (if v / 10 =? 0 then [] else List.rev (udec (v / 10))).
Proof.
  intros Hv. rewrite udec_unfold by done. destruct (Z.ltb_spec v 10).
  - rewrite Z.mod_small, Z.div_small by lia. done.
  - rewrite rev_unit. rewrite (proj2 (Z.eqb_neq _ 0)); [done|]. assert (10 / 10 <= v / 10) by (apply Z.div_le_mono; lia). change (10 / 10) with 1 in *. lia.
Qed.

Lemma digits_loop_ok fuel : forall a rest v, 0 <= v -> (length (udec v) <= fuel)%nat -> (length (udec v) <= length rest)%nat ->
  digits_loop fuel (a ++ rest) (Z.of_nat (length a)) v =
    Ok (a ++ List.rev (udec v) ++ drop (length (udec v)) rest, Z.of_nat (length a + length (udec v))).
Proof.
  induction fuel as [|f IH]; intros a rest v Hv Hf Hr; [pose proof (udec_nonempty v Hv); lia|].
  pose proof (udec_nonempty v Hv). destruct rest as [|x rest]; [cbn [length] in Hr; lia|]. cbn [digits_loop].
  rewrite wrZ_at, bind_ok by done.
  assert (length (udec v) = length (List.rev (udec v))) as E by (by rewrite length_rev). rewrite E in *.
  rewrite udec_rev in * by done. set (c := 48 + v mod 10) in *. destruct (Z.eqb_spec (v / 10) 0).
  - cbn. do 2 f_equal. lia.
  - cbn [length] in *. rewrite length_rev in *.
    replace (Z.of_nat (length a) + 1) with (Z.of_nat (length (a ++ [c]))) by len_lia.
    replace (a ++ c :: rest) with ((a ++ [c]) ++ rest) by (by rewrite <- app_assoc).
    rewrite IH; [|by apply Z.div_pos|lia|lia].
    rewrite <- app_assoc. cbn [app drop]. do 2 f_equal. len_lia.
Qed.

Lemma reverse_loop_ok fuel : forall a w b, (length w <= fuel)%nat ->
  reverse_loop fuel (a ++ w ++ b) (Z.of_nat (length a)) (Z.of_nat (length a + length w) - 1) = Ok (a ++ List.rev w ++ b).
Proof.
  assert (forall f a w b, (length w <= 1)%nat ->
    reverse_loop f (a ++ w ++ b) (Z.of_nat (length a)) (Z.of_nat (length a + length w) - 1) = Ok (a ++ List.rev w ++ b)) as Hshort.
  { intros f a w b Hw. destruct f; cbn [reverse_loop]; rewrite (proj2 (Z.ltb_ge _ _)) by lia;
      (destruct w as [|x [|y w]]; [done|done|cbn [length] in Hw; lia]). }
  induction fuel as [|f IH]; intros a w b Hf; [apply Hshort; lia|].
  destruct (decide (length w <= 1)%nat); [by apply Hshort|]. destruct w as [|x w]; [cbn [length] in *; lia|].
  destruct w as [|y w _] using rev_ind; [cbn [length] in *; lia|]. cbn [reverse_loop].
  rewrite (proj2 (Z.ltb_lt _ _)) by len_lia.
  assert (forall z t, a ++ (z :: w ++ [t]) ++ b = a ++ z :: w ++ t :: b) as E by (intros; cbn; by rewrite <- app_assoc).
  assert (forall z t, a ++ z :: w ++ t :: b = (a ++ z :: w) ++ t :: b) as E2 by (intros; by rewrite <- app_assoc).
  rewrite E. rewrite (rdZ_at a x _ (Z.of_nat (length a))), bind_ok by done.
  rewrite E2. rewrite rdZ_at, bind_ok by len_lia.
  rewrite <- E2, wrZ_at, bind_ok by done. rewrite E2, wrZ_at, bind_ok by len_lia.
  replace ((a ++ y :: w) ++ x :: b) with ((a ++ [y]) ++ w ++ x :: b) by (by rewrite <- !app_assoc).
  replace (Z.of_nat (length a) + 1) with (Z.of_nat (length (a ++ [y]))) by len_lia.
  replace (Z.of_nat (length a + length (x :: w ++ [y])) - 1 - 1) with (Z.of_nat (length (a ++ [y]) + length w) - 1) by len_lia.
  rewrite IH by (revert Hf; len_lia). cbn [List.rev]. rewrite rev_unit. cbn [app]. by rewrite <- !app_assoc.
Qed.

Lemma udec_length_word v : 0 <= v < 2 ^ 64 -> (length (udec v) <= 20)%nat.
Proof. intros. apply udec_length_bound; [lia|lia|]. change (10 ^ Z.of_nat 20) with 100000000000000000000. lia. Qed.

(** The decimal notation, for every 64-bit number and buffer of the size the code
    uses. *)
Lemma sdsll2str_ok m v : LLONG_MIN <= v <= LLONG_MAX -> length m = Z.to_nat SDS_LLSTR_SIZE ->
  exists rest, sdsll2str m v = Ok (Z.of_nat (length (dec v)), dec v ++ 0 :: rest).
Proof.
  unfold LLONG_MIN, LLONG_MAX. change (Z.to_nat SDS_LLSTR_SIZE) with 21%nat. intros Hv Hm. unfold sdsll2str, dec.
  assert (forall w, 0 <= w <= 2 ^ 63 -> (length (udec w) <= 19)%nat) as L.
  { intros. apply udec_length_bound; [lia|lia|]. change (10 ^ Z.of_nat 19) with 10000000000000000000. lia. }
  change (Z.to_nat SDS_LLSTR_SIZE) with 21%nat.
  assert (forall w, 0 <= w <= 2 ^ 63 -> digits_loop 20 m 0 w = Ok (List.rev (udec w) ++ drop (length (udec w)) m, Z.of_nat (length (udec w)))) as D.
  { intros w Hw. pose proof (L w Hw). apply (digits_loop_ok 20 [] m w); lia. }
  destruct (Z.ltb_spec v 0).
  - rewrite u64_small by lia. rewrite D, bind_ok by lia. pose proof (L (- v) ltac:(lia)) as Hl. set (u := udec (- v)) in *.
    destruct (drop (length u) m) as [|x [|y rest]] eqn:Er; [apply (f_equal length) in Er; revert Er; len_lia..|].
    rewrite wrZ_at, bind_ok by (by rewrite length_rev). rewrite bind_ok.
    replace (List.rev u ++ 45 :: y :: rest) with (List.rev (45 :: u) ++ y :: rest) by (cbn; by rewrite <- app_assoc).
    rewrite wrZ_at, bind_ok by (rewrite length_rev; cbn; lia).
    pose proof (reverse_loop_ok 21 [] (List.rev (45 :: u)) (0 :: rest)) as R. rewrite rev_involutive, length_rev in R. cbn [length app] in R.
    change (Z.of_nat 0) with 0 in R. replace (Z.of_nat (0 + S (length u)) - 1) with (Z.of_nat (length u) + 1 - 1) in R by lia.
    rewrite R, bind_ok by lia. exists rest. f_equal. f_equal. cbn [length]. lia.
  - rewrite u64_small by lia. rewrite D, bind_ok by lia. pose proof (L v ltac:(lia)) as Hl. set (u := udec v) in *. rewrite bind_ok.
    destruct (drop (length u) m) as [|x rest] eqn:Er; [apply (f_equal length) in Er; revert Er; len_lia..|].
    rewrite wrZ_at, bind_ok by (by rewrite length_rev).
    pose proof (reverse_loop_ok 21 [] (List.rev u) (0 :: rest)) as R. rewrite rev_involutive, length_rev in R. cbn [length app] in R.
    change (Z.of_nat 0) with 0 in R. replace (Z.of_nat (0 + length u) - 1) with (Z.of_nat (length u) - 1) in R by lia.
    rewrite R, bind_ok by lia. by exists rest.
Qed.

Lemma sdsfromlonglong_ok junk v : LLONG_MIN <= v <= LLONG_MAX ->
  exists s, sdsfromlonglong junk v = Ok s /\ sds_ok s /\ sdsval s = dec v.
Proof.
  intros Hv. unfold sdsfromlonglong.
  destruct (sdsll2str_ok (replicate (Z.to_nat SDS_LLSTR_SIZE) junk) v Hv) as [rest ->]; [by rewrite length_replicate|]. rewrite bind_ok.
  assert (length (dec v) <= 20)%nat as Hl.
  { unfold LLONG_MIN, LLONG_MAX in Hv. rewrite dec_abs, length_app. assert (length (udec (Z.abs v)) <= 19)%nat.
    { apply udec_length_bound; [lia|lia|]. change (10 ^ Z.of_nat 19) with 10000000000000000000. lia. }
    destruct (v <? 0); cbn [length]; lia. }
  destruct (sdsnewlen_ok junk (dec v ++ 0 :: rest) (Z.of_nat (length (dec v)))) as (s & -> & Hs & Hval & _); [len_lia|lia|].
  exists s. split; [done|]. split; [done|]. rewrite Hval. by rewrite Nat2Z.id, take_app_length.
Qed.
