(* ===== verification/Split.v ===== *)
(** * Quoted arguments ([src/sds.c])

    [sdssplitargs] splits a line in arguments with the quotes of a shell;
    [sdscatrepr] writes an argument in quotes. *)

From S2P Require Import Prelude CLib Util Sds.
Local Open Scope Z_scope.

Definition isprint (c : Z) : bool := (32 <=? c) && (c <=? 126).

Definition is_hex_digit (c : Z) : bool :=
  ((48 <=? c) && (c <=? 57)) || ((97 <=? c) && (c <=? 102)) || ((65 <=? c) && (c <=? 70)).

Definition hex_digit_to_int (c : Z) : Z :=
  if (48 <=? c) && (c <=? 57) then c - 48
  else if (97 <=? c) && (c <=? 102) then c - 87
  else if (65 <=? c) && (c <=? 70) then c - 55 else 0.

(** [*(p+i)] of a C string; its NUL is the end of the list. *)
Definition ch (p : bytes) (i : nat) : Z := default 0 (p !! i).

(** The letters of the escapes. *)
Definition unescape (c : Z) : Z :=
  if c =? 110 then 10 else if c =? 114 then 13 else if c =? 116 then 9
  else if c =? 98 then 8 else if c =? 97 then 7 else c.

(** [while(!done)]: the token and the rest of the line; [None]: [goto err]. Every
    round consumes a character, which bounds the fuel. *)
Fixpoint token_loop (fuel : nat) (inq insq : bool) (p current : bytes) : res (option (bytes * bytes)) :=
  match fuel with
  | O => Fault OutOfFuel
  | S f =>
      let c := ch p 0 in
      if inq then
        if (c =? 92) && (ch p 1 =? 120) && is_hex_digit (ch p 2) && is_hex_digit (ch p 3) then
          token_loop f inq insq (drop 4 p) (current ++ [hex_digit_to_int (ch p 2) * 16 + hex_digit_to_int (ch p 3)])
        else if (c =? 92) && negb (ch p 1 =? 0) then token_loop f inq insq (drop 2 p) (current ++ [unescape (ch p 1)])
        else if c =? 34 then
          if negb (ch p 1 =? 0) && negb (isspace (ch p 1)) then Ok None else Ok (Some (current, drop 1 p))
        else if c =? 0 then Ok None
        else token_loop f inq insq (drop 1 p) (current ++ [c])
      else if insq then
        if (c =? 92) && (ch p 1 =? 39) then token_loop f inq insq (drop 2 p) (current ++ [39])
        else if c =? 39 then
          if negb (ch p 1 =? 0) && negb (isspace (ch p 1)) then Ok None else Ok (Some (current, drop 1 p))
        else if c =? 0 then Ok None
        else token_loop f inq insq (drop 1 p) (current ++ [c])
      else if (c =? 32) || (c =? 10) || (c =? 13) || (c =? 9) || (c =? 0) then Ok (Some (current, drop 1 p))
      else if c =? 34 then token_loop f true insq (drop 1 p) current
      else if c =? 39 then token_loop f inq true (drop 1 p) current
      else token_loop f inq insq (drop 1 p) (current ++ [c])
  end.

Fixpoint skip_blanks (p : bytes) : bytes :=
  match p with
  | c :: p' => if isspace c then skip_blanks p' else p
  | [] => []
  end.

Fixpoint args_loop (fuel : nat) (p : bytes) (vector : list bytes) : res (option (list bytes)) :=
  match fuel with
  | O => Fault OutOfFuel
  | S f =>
      let p := skip_blanks p in
      match p with
      | [] => Ok (Some vector)
      | _ =>
          r ← token_loop (S (length p)) false false p [];
          match r with
          | None => Ok None
          | Some (current, p) => args_loop f p (vector ++ [current])
          end
      end
  end.

(** [None] is NULL. *)
Definition sdssplitargs (line : bytes) : res (option (list bytes)) :=
  let line := cstr line in args_loop (S (length line)) line [].

(** [%02x]. *)
Definition hex_char (n : Z) : Z := if n <? 10 then 48 + n else 87 + n.

Definition repr_char (c : Z) : bytes :=
  if (c =? 92) || (c =? 34) then [92; c]
  else if c =? 10 then [92; 110] else if c =? 13 then [92; 114] else if c =? 9 then [92; 116]
  else if c =? 7 then [92; 97] else if c =? 8 then [92; 98]
  else if isprint c then [c] else [92; 120; hex_char (c / 16); hex_char (c mod 16)].

Section Repr.
Variable junk : Z.

Definition sdscat_piece (s : sds) (t : bytes) : res sds := sdscatlen junk s t (Z.of_nat (length t)).

Fixpoint repr_loop (s : sds) (p : bytes) : res sds :=
  match p with
  | [] => Ok s
  | c :: p' => s ← sdscat_piece s (repr_char c); repr_loop s p'
  end.

Definition sdscatrepr (s : sds) (p : bytes) : res sds :=
  s ← sdscat_piece s [34]; s ← repr_loop s p; sdscat_piece s [34].
End Repr.

(** ** Correctness *)

Definition repr (a : bytes) : bytes := [34] ++ concat (repr_char <$> a) ++ [34].

Definition byte (c : Z) : Prop := 0 <= c < 256.

Lemma sdscatrepr_ok junk s p : sds_ok s -> sds_len s + Z.of_nat (length (repr p)) < 2 ^ 63 ->
  exists s', sdscatrepr junk s p = Ok s' /\ sds_ok s' /\ sdsval s' = sdsval s ++ repr p.
Proof.
  assert (forall s t, sds_ok s -> sds_len s + Z.of_nat (length t) < 2 ^ 63 ->
    exists s', sdscat_piece junk s t = Ok s' /\ sds_ok s' /\ sdsval s' = sdsval s ++ t /\ sds_len s' = sds_len s + Z.of_nat (length t)) as Hcat.
  { intros s0 t H0 Hl. destruct (sdscatlen_ok junk s0 t (Z.of_nat (length t)) H0) as (s' & E & Hs' & Hv); [lia..|].
    rewrite Nat2Z.id, firstn_all in Hv. exists s'. split_and!; try done.
    rewrite <- (sdsval_length s' Hs'), Hv, length_app. rewrite <- (sdsval_length s0 H0). lia. }
  intros Hs Hl. unfold repr in *. rewrite !length_app in Hl. cbn [length] in Hl. unfold sdscatrepr.
  destruct (Hcat s [34] Hs) as (s1 & -> & Hs1 & Hv1 & Hl1); [cbn; lia|]. rewrite bind_ok.
  assert (exists s2, repr_loop junk s1 p = Ok s2 /\ sds_ok s2 /\ sdsval s2 = sdsval s1 ++ concat (repr_char <$> p) /\
    sds_len s2 = sds_len s1 + Z.of_nat (length (concat (repr_char <$> p)))) as (s2 & -> & Hs2 & Hv2 & Hl2).
  { assert (sds_len s1 + Z.of_nat (length (concat (repr_char <$> p))) < 2 ^ 63) as Hb by (cbn in Hl1; lia).
    clear -Hcat Hs1 Hb. revert s1 Hs1 Hb. induction p as [|c p IH]; intros s1 Hs1 Hb; cbn [repr_loop fmap list_fmap concat] in *.
    - exists s1. rewrite app_nil_r, Z.add_0_r. done.
    - rewrite length_app in Hb |- *. destruct (Hcat s1 (repr_char c) Hs1) as (s2 & -> & Hs2 & Hv2 & Hl2); [lia|]. rewrite bind_ok.
      destruct (IH s2 Hs2) as (s3 & -> & Hs3 & Hv3 & Hl3); [lia|]. exists s3. split_and!; try done; [|lia].
      by rewrite Hv3, Hv2, <- app_assoc. }
  rewrite bind_ok. destruct (Hcat s2 [34] Hs2) as (s3 & -> & Hs3 & Hv3 & _); [cbn in *; lia|].
  exists s3. split_and!; try done. by rewrite Hv3, Hv2, Hv1, <- !app_assoc.
Qed.

(** *** Reading an argument back *)

Lemma hex_char_ok n : 0 <= n < 16 -> is_hex_digit (hex_char n) = true /\ hex_digit_to_int (hex_char n) = n /\
  (48 <= hex_char n <= 57 \/ 97 <= hex_char n <= 102).
Proof. intros Hn. unfold hex_char, is_hex_digit, hex_digit_to_int. repeat (case_bool; cbn [andb orb]; try lia). Qed.

(** A character of an argument is read back. *)
Lemma repr_char_step c p current f insq : byte c ->
  token_loop (S f) true insq (repr_char c ++ p) current = token_loop f true insq p (current ++ [c]).
Proof.
  intros Hc. unfold repr_char. destruct (Z.eqb_spec c 92) as [->|H92]; [done|]. destruct (Z.eqb_spec c 34) as [->|H34]; [done|].
  cbn [orb]. destruct (Z.eqb_spec c 10) as [->|]; [done|]. destruct (Z.eqb_spec c 13) as [->|]; [done|].
  destruct (Z.eqb_spec c 9) as [->|]; [done|]. destruct (Z.eqb_spec c 7) as [->|]; [done|]. destruct (Z.eqb_spec c 8) as [->|]; [done|].
  destruct (isprint c) eqn:Hp.
  - cbn [token_loop app]. unfold ch. cbn [lookup list_lookup default from_option id]. unfold isprint in Hp. bool_hyps.
    rewrite (proj2 (Z.eqb_neq c 92)), (proj2 (Z.eqb_neq c 34)), (proj2 (Z.eqb_neq c 0)) by lia. done.
  - unfold byte in Hc. destruct (hex_char_ok (c / 16)) as (D1 & D2 & _); [split; [apply Z.div_pos; lia|apply Z.div_lt_upper_bound; lia]|].
    destruct (hex_char_ok (c mod 16)) as (D3 & D4 & _); [apply Z.mod_pos_bound; lia|].
    cbn [token_loop app]. unfold ch. cbn [lookup list_lookup default from_option id]. rewrite D1, D2, D3, D4. cbn [Z.eqb andb].
    change (Pos.eqb 92 92 && Pos.eqb 120 120) with true. cbn [andb].
    replace (c / 16 * 16 + c mod 16) with c by (pose proof (Z.div_mod c 16); lia). done.
Qed.

(** What follows a closing quote. *)
Definition ends_token (p : bytes) : Prop := p = [] \/ exists c p', p = c :: p' /\ isspace c = true.

Lemma quoted_ok a : Forall byte a -> forall p current f, ends_token p -> (length a < f)%nat ->
  token_loop f true false (concat (repr_char <$> a) ++ 34 :: p) current = Ok (Some (current ++ a, p)).
Proof.
  induction 1 as [|c a Hc _ IH]; intros p current f Hp Hf; (destruct f as [|f]; [lia|]).
  - cbn [fmap list_fmap concat app token_loop]. unfold ch. cbn [lookup list_lookup default from_option id].
    rewrite app_nil_r. destruct Hp as [->|(c & p' & -> & Hs)]; cbn; [done|]. rewrite Hs. by rewrite andb_false_r.
  - cbn [fmap list_fmap concat]. rewrite <- app_assoc, repr_char_step by done. rewrite IH by (done || (cbn in Hf; lia)).
    by rewrite <- app_assoc.
Qed.

Lemma repr_length c : byte c -> (1 <= length (repr_char c))%nat.
Proof. intros _. unfold repr_char. repeat case_match; cbn; lia. Qed.

Lemma concat_repr_length a : Forall byte a -> (length a <= length (concat (repr_char <$> a)))%nat.
Proof.
  induction 1 as [|c a Hc _ IH]; cbn; [lia|]. rewrite length_app. pose proof (repr_length c Hc). lia.
Qed.

Lemma token_ok a p : Forall byte a -> ends_token p ->
  token_loop (S (length (repr a ++ p))) false false (repr a ++ p) [] = Ok (Some (a, p)).
Proof.
  intros Ha Hp. unfold repr. rewrite <- !app_assoc. set (q := concat (repr_char <$> a) ++ [34] ++ p).
  cbn [app token_loop]. unfold ch. cbn [lookup list_lookup default from_option id]. change (34 =? 32) with false. cbn [orb].
  change (34 =? 10) with false. change (34 =? 13) with false. change (34 =? 9) with false. change (34 =? 0) with false.
  cbn [orb]. change (34 =? 34) with true. cbv iota. change (drop 1 (34 :: q)) with q. unfold q. cbn [app].
  rewrite quoted_ok by (done || (pose proof (concat_repr_length a Ha); cbn; rewrite length_app; cbn; lia)). done.
Qed.

(** The arguments in quotes, separated by spaces. *)
Fixpoint print_args (args : list bytes) : bytes :=
  match args with
  | [] => []
  | [a] => repr a
  | a :: args' => repr a ++ 32 :: print_args args'
  end.

Lemma args_loop_ok args : Forall (Forall byte) args -> forall vector f, (length args < f)%nat ->
  args_loop f (print_args args) vector = Ok (Some (vector ++ args)) /\
  args_loop f (32 :: print_args args) vector = Ok (Some (vector ++ args)).
Proof.
  induction 1 as [|a args Ha Hargs IH]; intros vector f Hf; (destruct f as [|f]; [lia|]).
  { cbn. by rewrite app_nil_r. }
  assert (forall rest : bytes, ends_token rest -> args_loop f rest (vector ++ [a]) = Ok (Some (vector ++ a :: args)) ->
    args_loop (S f) (repr a ++ rest) vector = Ok (Some (vector ++ a :: args)) /\
    args_loop (S f) (32 :: repr a ++ rest) vector = Ok (Some (vector ++ a :: args))) as Hone.
  { intros rest Hend Hrest. assert (skip_blanks (repr a ++ rest) = repr a ++ rest) as Hsk by done.
    assert (args_loop (S f) (repr a ++ rest) vector = Ok (Some (vector ++ a :: args))) as H.
    { cbn [args_loop]. rewrite Hsk. pose proof (token_ok a rest Ha Hend) as Ht. destruct (repr a ++ rest) eqn:E; [done|].
      rewrite Ht, bind_ok. exact Hrest. }
    split; [exact H|]. rewrite <- H. cbn [args_loop]. by rewrite Hsk. }
  cbn in Hf. destruct args as [|b args].
  - cbn [print_args]. destruct (Hone []) as [H1 H2]; [by left|destruct f; [lia|done]|]. by rewrite app_nil_r in H1, H2.
  - change (print_args (a :: b :: args)) with (repr a ++ 32 :: print_args (b :: args)). apply Hone; [right; by eexists _, _|].
    destruct (IH (vector ++ [a]) f) as [_ ->]; [cbn in *; lia|]. by rewrite <- app_assoc.
Qed.

Lemma repr_char_plain c : byte c -> Forall (fun x => x <> 0 /\ x <> 10 /\ x <> 13) (repr_char c).
Proof.
  intros Hc. unfold byte in Hc. unfold repr_char. destruct (hex_char_ok (c / 16)) as (_ & _ & D1); [split; [apply Z.div_pos; lia|apply Z.div_lt_upper_bound; lia]|].
  destruct (hex_char_ok (c mod 16)) as (_ & _ & D2); [apply Z.mod_pos_bound; lia|].
  destruct (_ || _) eqn:E1; [apply orb_true_iff in E1 as [->%Z.eqb_eq| ->%Z.eqb_eq]; repeat constructor; done|].
  destruct (Z.eqb_spec c 10), (Z.eqb_spec c 13), (Z.eqb_spec c 9), (Z.eqb_spec c 7), (Z.eqb_spec c 8); try (repeat constructor; done).
  destruct (isprint c) eqn:Hp; [unfold isprint in Hp; bool_hyps|]; repeat constructor; lia.
Qed.

Lemma repr_plain a : Forall byte a -> Forall (fun x => x <> 0 /\ x <> 10 /\ x <> 13) (repr a).
Proof.
  intros Ha. unfold repr. rewrite !Forall_app. split_and!; try (by repeat constructor).
  apply Forall_concat, Forall_fmap. eapply Forall_impl; [exact Ha|]. intros c. apply repr_char_plain.
Qed.

Lemma print_args_plain args : Forall (Forall byte) args -> Forall (fun x => x <> 0 /\ x <> 10 /\ x <> 13) (print_args args).
Proof.
  induction 1 as [|a args Ha Hargs IH]; [constructor|]. cbn [print_args]. pose proof (repr_plain a Ha).
  destruct args; [done|]. apply Forall_app. split; [done|]. by constructor.
Qed.

Lemma print_args_length args : (length args <= length (print_args args))%nat.
Proof.
  induction args as [|a args IH]; [done|]. cbn [print_args length]. destruct args; [cbn; lia|].
  rewrite length_app. unfold repr. cbn [app length] in *. lia.
Qed.

Lemma print_args_bound args a : a ∈ args -> Forall (Forall byte) args -> (length a <= length (print_args args))%nat.
Proof.
  induction args as [|b args IH]; intros Hin Hb; [by apply elem_of_nil in Hin|]. apply Forall_cons in Hb as [Hb Hargs].
  assert (length b <= length (repr b))%nat as Hr by (unfold repr; rewrite !length_app; pose proof (concat_repr_length b Hb); lia).
  apply elem_of_cons in Hin as [-> |Hin]; cbn [print_args]; destruct args as [|c args].
  - done.
  - rewrite length_app. lia.
  - by apply elem_of_nil in Hin.
  - rewrite length_app. specialize (IH Hin Hargs). cbn [length]. lia.
Qed.

(** A line of quoted arguments is split in the arguments. *)
Lemma sdssplitargs_ok args : Forall (Forall byte) args -> sdssplitargs (print_args args) = Ok (Some args).
Proof.
  intros Ha. unfold sdssplitargs. assert (cstr (print_args args) = print_args args) as ->.
  { apply cstr_id. eapply Forall_impl; [by apply print_args_plain|]. cbn. tauto. }
  apply args_loop_ok; [done|]. pose proof (print_args_length args). lia.
Qed.

(** A line of arguments as the code writes one. *)
Fixpoint repr_line (junk : Z) (s : sds) (args : list bytes) : res sds :=
  match args with
  | [] => Ok s
  | [a] => sdscatrepr junk s a
  | a :: args' => s ← sdscatrepr junk s a; s ← sdscatlen junk s [32] 1; repr_line junk s args'
  end.

Lemma repr_line_ok junk args : forall s, sds_ok s -> sds_len s + Z.of_nat (length (print_args args)) < 2 ^ 63 ->
  exists s', repr_line junk s args = Ok s' /\ sds_ok s' /\ sdsval s' = sdsval s ++ print_args args.
Proof.
  induction args as [|a args IH]; intros s Hs Hl; [exists s; by rewrite app_nil_r|].
  destruct args as [|b args]; [by apply sdscatrepr_ok|].
  change (print_args (a :: b :: args)) with (repr a ++ 32 :: print_args (b :: args)) in *.
  change (repr_line junk s (a :: b :: args)) with
    (s ← sdscatrepr junk s a; s ← sdscatlen junk s [32] 1; repr_line junk s (b :: args)).
  rewrite length_app in Hl. cbn [length] in Hl.
  destruct (sdscatrepr_ok junk s a Hs) as (s1 & -> & Hs1 & Hv1); [lia|]. rewrite bind_ok.
  pose proof (sdsval_length s Hs). pose proof (sdsval_length s1 Hs1) as Hl1. rewrite Hv1, length_app in Hl1.
  destruct (sdscatlen_ok junk s1 [32] 1 Hs1) as (s2 & -> & Hs2 & Hv2); [done|done|lia|]. rewrite bind_ok.
  pose proof (sdsval_length s2 Hs2) as Hl2. rewrite Hv2, length_app in Hl2. change (length (take (Z.to_nat 1) [32])) with 1%nat in Hl2.
  destruct (IH s2 Hs2) as (s3 & -> & Hs3 & Hv3); [rewrite Hv1, length_app in Hl2; lia|].
  exists s3. split_and!; try done. rewrite Hv3, Hv2, Hv1. by rewrite <- !app_assoc.
Qed.
