(* ===== verification/Dict.v ===== *)
(** * Hash tables with incremental rehashing ([src/dict.c], [src/dict.h])

    A dict has two tables of buckets; a bucket is the list of its entries, head
    first. While a rehash is in progress ([rehashidx <> -1]) the buckets of the
    first table move one by one to the second. The key type is the one of the
    key space ([dbDictType], [keyptrDictType]): sds strings compared byte by
    byte. The hash function is a variable of the section; [dictGenHashFunction]
    is one. The global [dict_can_resize] is an argument of the operations that
    read it. *)

From S2P Require Import Prelude CLib.
Local Open Scope Z_scope.

(** ** Hash functions *)

(** A little-endian 32-bit load. *)
Definition load32 (b0 b1 b2 b3 : Z) : Z :=
  b0 + Z.shiftl b1 8 + Z.shiftl b2 16 + Z.shiftl b3 24.

(** MurmurHash2: four bytes per iteration, then the tail of up to three. *)
Fixpoint murmur_loop (h : Z) (data : bytes) : Z :=
  let m := 0x5bd1e995 in
  match data with
  | b0 :: b1 :: b2 :: b3 :: data' =>
      let k := load32 b0 b1 b2 b3 in
      let k := u32 (k * m) in
      let k := Z.lxor k (Z.shiftr k 24) in
      let k := u32 (k * m) in
      murmur_loop (Z.lxor (u32 (h * m)) k) data'
  | [b0; b1; b2] => u32 (Z.lxor (Z.lxor (Z.lxor h (Z.shiftl b2 16)) (Z.shiftl b1 8)) b0 * m)
  | [b0; b1] => u32 (Z.lxor (Z.lxor h (Z.shiftl b1 8)) b0 * m)
  | [b0] => u32 (Z.lxor h b0 * m)
  | [] => h
  end.

Definition dictGenHashFunction (seed : Z) (key : bytes) : Z :=
  let h := Z.lxor seed (u32 (Z.of_nat (length key))) in
  let h := murmur_loop h key in
  let h := Z.lxor h (Z.shiftr h 13) in
  let h := u32 (h * 0x5bd1e995) in
  Z.lxor h (Z.shiftr h 15).

Definition dictGenCaseHashFunction (seed : Z) (buf : bytes) : Z :=
  fold_left (fun hash c => u32 (u32 (Z.shiftl hash 5) + hash + tolower c)) buf seed.

Definition dictIntHashFunction (key : Z) : Z :=
  let not32 := fun x => 2 ^ 32 - 1 - x in
  let key := u32 (key + not32 (u32 (Z.shiftl key 15))) in
  let key := Z.lxor key (Z.shiftr key 10) in
  let key := u32 (key + u32 (Z.shiftl key 3)) in
  let key := Z.lxor key (Z.shiftr key 6) in
  let key := u32 (key + not32 (u32 (Z.shiftl key 11))) in
  Z.lxor key (Z.shiftr key 16).

(** ** Tables *)

Section Dict.
Context {V : Type}.
Variable hash : bytes -> Z.

Record dictht := mkHt {
  table : list (list (bytes * V));
  size : Z;
  sizemask : Z;
  used : Z
}.

Record dict := mkDict {
  ht0 : dictht;
  ht1 : dictht;
  rehashidx : Z;
  iterators : Z
}.

Definition DICT_HT_INITIAL_SIZE : Z := 4.
Definition dict_force_resize_ratio : Z := 5.
Definition LONG_MAX : Z := 2 ^ 63 - 1.

Definition dictReset : dictht := mkHt [] 0 0 0.

Definition dictCreate : dict := mkDict dictReset dictReset (-1) 0.

Definition dictIsRehashing (d : dict) : bool := negb (rehashidx d =? -1).
Definition dictSize (d : dict) : Z := used (ht0 d) + used (ht1 d).
Definition dictSlots (d : dict) : Z := size (ht0 d) + size (ht1 d).

(** [table[i]]. *)
Definition bucket (t : dictht) (i : Z) : res (list (bytes * V)) :=
  if i <? 0 then Fault OutOfBounds else
  match table t !! Z.to_nat i with Some b => Ok b | None => Fault OutOfBounds end.

Definition set_bucket (t : dictht) (i : Z) (b : list (bytes * V)) (used' : Z) : dictht :=
  mkHt (<[Z.to_nat i := b]> (table t)) (size t) (sizemask t) used'.

(** The chain walk: the first entry with the key. *)
Fixpoint assoc (k : bytes) (b : list (bytes * V)) : option V :=
  match b with
  | [] => None
  | (k', v) :: b' => if decide (k = k') then Some v else assoc k b'
  end.

(** Unlinking the first entry with the key. *)
Fixpoint unlink (k : bytes) (b : list (bytes * V)) : option (list (bytes * V)) :=
  match b with
  | [] => None
  | (k', v) :: b' => if decide (k = k') then Some b'
                     else match unlink k b' with Some r => Some ((k', v) :: r) | None => None end
  end.

(** Storing a value in the first entry with the key. *)
Fixpoint set_val (k : bytes) (x : V) (b : list (bytes * V)) : list (bytes * V) :=
  match b with
  | [] => []
  | (k', v) :: b' => if decide (k = k') then (k', x) :: b' else (k', v) :: set_val k x b'
  end.

(** [while(1) { if (i >= size) return i; i *= 2; }]: 62 doublings of 4 pass
    every size below LONG_MAX. *)
Fixpoint next_power_loop (fuel : nat) (i sz : Z) : Z :=
  match fuel with
  | O => i
  | S f => if i >=? sz then i else next_power_loop f (u64 (i * 2)) sz
  end.

Definition dictNextPower (sz : Z) : Z :=
  if sz >=? LONG_MAX then LONG_MAX else next_power_loop 62 DICT_HT_INITIAL_SIZE sz.

(** [true] is DICT_OK. *)
Definition dictExpand (d : dict) (sz : Z) : dict * bool :=
  let realsize := dictNextPower sz in
  if dictIsRehashing d || (used (ht0 d) >? sz) then (d, false) else
  if realsize =? size (ht0 d) then (d, false) else
  let n := mkHt (replicate (Z.to_nat realsize) []) realsize (realsize - 1) 0 in
  match table (ht0 d) with
  | [] => (mkDict n (ht1 d) (rehashidx d) (iterators d), true)
  | _ => (mkDict (ht0 d) n 0 (iterators d), true)
  end.

(** [int minimal = d->ht[0].used] truncates. *)
Definition dictResize (can_resize : bool) (d : dict) : dict * bool :=
  if negb can_resize || dictIsRehashing d then (d, false) else
  let minimal := s32 (used (ht0 d)) in
  let minimal := if minimal <? DICT_HT_INITIAL_SIZE then DICT_HT_INITIAL_SIZE else minimal in
  dictExpand d minimal.

(** ** Rehashing *)

(** The empty buckets before the next one to move: its index, or the index
    reached when [empty_visits] runs out. *)
Fixpoint skip_empty (t : dictht) (empty_visits : nat) (idx : Z) : res (Z * nat * bool) :=
  match empty_visits with
  | O => Ok (idx, O, true)
  | S ev =>
      b ← bucket t idx;
      match b with
      | [] => if (ev =? 0)%nat then Ok (idx + 1, ev, true) else skip_empty t ev (idx + 1)
      | _ => Ok (idx, empty_visits, false)
      end
  end.

(** [while(de)]: every entry of the bucket goes to the head of its bucket in
    the second table. *)
Fixpoint move_entries (b : list (bytes * V)) (t0 t1 : dictht) : res (dictht * dictht) :=
  match b with
  | [] => Ok (t0, t1)
  | (k, v) :: b' =>
      let h := Z.land (hash k) (sizemask t1) in
      c ← bucket t1 h;
      move_entries b' (mkHt (table t0) (size t0) (sizemask t0) (used t0 - 1))
                      (set_bucket t1 h ((k, v) :: c) (used t1 + 1))
  end.

(** [while(n-- && d->ht[0].used != 0)]; the flag says that the visits ran out. *)
Fixpoint rehash_loop (n : nat) (empty_visits : nat) (d : dict) : res (dict * bool) :=
  match n with
  | O => Ok (d, false)
  | S n' =>
      if used (ht0 d) =? 0 then Ok (d, false) else
      if size (ht0 d) >? rehashidx d then
        '(idx, ev, stop) ← skip_empty (ht0 d) empty_visits (rehashidx d);
        if (stop : bool) then Ok (mkDict (ht0 d) (ht1 d) idx (iterators d), true) else
        b ← bucket (ht0 d) idx;
        '(t0, t1) ← move_entries b (ht0 d) (ht1 d);
        rehash_loop n' ev (mkDict (set_bucket t0 idx [] (used t0)) t1 (idx + 1) (iterators d))
      else Fault AssertFailed
  end.

(** The flag is the result: [true] if there are still keys to move. The [int] [n] is 1 or
    100 at every call, so that [n*10] is small. *)
Definition dictRehash (d : dict) (n : nat) : res (dict * bool) :=
  if negb (dictIsRehashing d) then Ok (d, false) else
  '(d, stop) ← rehash_loop n (n * 10) d;
  if (stop : bool) then Ok (d, true) else
  if used (ht0 d) =? 0 then Ok (mkDict (ht1 d) dictReset (-1) (iterators d), false)
  else Ok (d, true).

(** [clock i] is the i-th result of [timeInMilliseconds]; the loop runs until
    the rehash is over or the time is. *)
Fixpoint rehash_ms_loop (fuel : nat) (clock : nat -> Z) (i : nat) (ms rehashes : Z) (d : dict)
    : res (dict * Z) :=
  match fuel with
  | O => Fault OutOfFuel
  | S f =>
      '(d, more) ← dictRehash d 100;
      if (more : bool) then
        let rehashes := s32 (rehashes + 100) in
        if clock (S i) - clock O >? ms then Ok (d, rehashes)
        else rehash_ms_loop f clock (S i) ms rehashes d
      else Ok (d, rehashes)
  end.

Definition dictRehashMilliseconds (fuel : nat) (clock : nat -> Z) (d : dict) (ms : Z) : res (dict * Z) :=
  rehash_ms_loop fuel clock O ms 0 d.

Definition dictRehashStep (d : dict) : res dict :=
  if iterators d =? 0 then '(d, _) ← dictRehash d 1; Ok d else Ok d.

Definition rehash_if_needed (d : dict) : res dict :=
  if dictIsRehashing d then dictRehashStep d else Ok d.

(** ** Adding *)

Definition dictExpandIfNeeded (can_resize : bool) (d : dict) : dict * bool :=
  if dictIsRehashing d then (d, true) else
  if size (ht0 d) =? 0 then dictExpand d DICT_HT_INITIAL_SIZE else
  if (used (ht0 d) >=? size (ht0 d)) &&
     (can_resize || (used (ht0 d) / size (ht0 d) >? dict_force_resize_ratio))
  then dictExpand d (u64 (used (ht0 d) * 2))
  else (d, true).

(** The index is returned as an [int]; [None] is -1: the key exists, or the
    table could not be expanded. *)
Definition int_index (idx : Z) : option Z :=
  if s32 idx =? -1 then None else Some (s32 idx).

Definition dictKeyIndex (can_resize : bool) (d : dict) (key : bytes) : res (dict * option Z) :=
  let '(d, ok) := dictExpandIfNeeded can_resize d in
  if negb ok then Ok (d, None) else
  let h := hash key in
  let idx := Z.land h (sizemask (ht0 d)) in
  b ← bucket (ht0 d) idx;
  match assoc key b with
  | Some _ => Ok (d, None)
  | None =>
      if negb (dictIsRehashing d) then Ok (d, int_index idx) else
      let idx := Z.land h (sizemask (ht1 d)) in
      b ← bucket (ht1 d) idx;
      match assoc key b with
      | Some _ => Ok (d, None)
      | None => Ok (d, int_index idx)
      end
  end.

(** [dictAddRaw] followed by [dictSetVal]; the flag is DICT_OK. *)
Definition dictAdd (can_resize : bool) (d : dict) (key : bytes) (val : V) : res (dict * bool) :=
  d ← rehash_if_needed d;
  '(d, index) ← dictKeyIndex can_resize d key;
  match index with
  | None => Ok (d, false)
  | Some idx =>
      if dictIsRehashing d then
        b ← bucket (ht1 d) idx;
        Ok (mkDict (ht0 d) (set_bucket (ht1 d) idx ((key, val) :: b) (used (ht1 d) + 1))
                   (rehashidx d) (iterators d), true)
      else
        b ← bucket (ht0 d) idx;
        Ok (mkDict (set_bucket (ht0 d) idx ((key, val) :: b) (used (ht0 d) + 1)) (ht1 d)
                   (rehashidx d) (iterators d), true)
  end.

(** ** Finding, replacing, deleting *)

(** The value of the entry found, and the dict after the rehash step. *)
Definition dictFind (d : dict) (key : bytes) : res (dict * option V) :=
  if used (ht0 d) + used (ht1 d) =? 0 then Ok (d, None) else
  d ← rehash_if_needed d;
  let h := hash key in
  b ← bucket (ht0 d) (Z.land h (sizemask (ht0 d)));
  match assoc key b with
  | Some v => Ok (d, Some v)
  | None =>
      if negb (dictIsRehashing d) then Ok (d, None) else
      b ← bucket (ht1 d) (Z.land h (sizemask (ht1 d)));
      Ok (d, assoc key b)
  end.

(** The store through the entry that [dictFind] returned: in the table where
    the key is. *)
Definition entry_set_val (d : dict) (key : bytes) (val : V) : res dict :=
  let h := hash key in
  let i0 := Z.land h (sizemask (ht0 d)) in
  b ← bucket (ht0 d) i0;
  match assoc key b with
  | Some _ => Ok (mkDict (set_bucket (ht0 d) i0 (set_val key val b) (used (ht0 d))) (ht1 d)
                         (rehashidx d) (iterators d))
  | None =>
      let i1 := Z.land h (sizemask (ht1 d)) in
      b ← bucket (ht1 d) i1;
      Ok (mkDict (ht0 d) (set_bucket (ht1 d) i1 (set_val key val b) (used (ht1 d)))
                 (rehashidx d) (iterators d))
  end.

(** The flag is the result: [true] if the key was added. [dictFind] returns
    NULL only if the key is absent, and then [auxentry = *entry] faults. *)
Definition dictReplace (can_resize : bool) (d : dict) (key : bytes) (val : V) : res (dict * bool) :=
  '(d, ok) ← dictAdd can_resize d key val;
  if (ok : bool) then Ok (d, true) else
  '(d, entry) ← dictFind d key;
  match entry with
  | None => Fault NullPointer
  | Some _ => d ← entry_set_val d key val; Ok (d, false)
  end.

(** The flag is DICT_OK: the key was there. *)
Definition dictGenericDelete (d : dict) (key : bytes) : res (dict * bool) :=
  if size (ht0 d) =? 0 then Ok (d, false) else
  d ← rehash_if_needed d;
  let h := hash key in
  let i0 := Z.land h (sizemask (ht0 d)) in
  b ← bucket (ht0 d) i0;
  match unlink key b with
  | Some b' => Ok (mkDict (set_bucket (ht0 d) i0 b' (used (ht0 d) - 1)) (ht1 d)
                          (rehashidx d) (iterators d), true)
  | None =>
      if negb (dictIsRehashing d) then Ok (d, false) else
      let i1 := Z.land h (sizemask (ht1 d)) in
      b ← bucket (ht1 d) i1;
      match unlink key b with
      | Some b' => Ok (mkDict (ht0 d) (set_bucket (ht1 d) i1 b' (used (ht1 d) - 1))
                              (rehashidx d) (iterators d), true)
      | None => Ok (d, false)
      end
  end.

Definition dictEmpty (d : dict) : dict := dictCreate.
End Dict.

Arguments dictht : clear implicits.
Arguments dict : clear implicits.

(** ** The map a dict stands for *)

Section Correctness.
Context {V : Type}.
Variable hash : bytes -> Z.

Definition entries (d : dict V) : list (bytes * V) := concat (table (ht0 d)) ++ concat (table (ht1 d)).

Definition dict_map (d : dict V) : gmap bytes V := list_to_map (entries d).

(** A table is empty, or has a power of two of buckets and every entry is in
    the bucket of its hash. *)
Record table_ok (t : dictht V) : Prop := {
  tok_size : size t = Z.of_nat (length (table t));
  tok_used : used t = Z.of_nat (length (concat (table t)));
  tok_pow : (table t = [] /\ sizemask t = 0) \/
            (exists n, 2 <= n <= 31 /\ size t = 2 ^ n /\ sizemask t = size t - 1);
  tok_bucket : forall i b, table t !! i = Some b ->
               Forall (fun kv => Z.land (hash kv.1) (sizemask t) = Z.of_nat i) b
}.

Record dict_ok (d : dict V) : Prop := {
  dok0 : table_ok (ht0 d);
  dok1 : table_ok (ht1 d);
  dok_rehash : if dictIsRehashing d
               then 0 <= rehashidx d <= size (ht0 d) /\ table (ht0 d) <> [] /\ table (ht1 d) <> [] /\
                    forall i b, Z.of_nat i < rehashidx d -> table (ht0 d) !! i = Some b -> b = []
               else ht1 d = dictReset;
  dok_nodup : NoDup (entries d).*1
}.

Create HintDb dict.

(** *** Association lists *)

Lemma assoc_app k (l1 l2 : list (bytes * V)) :
  assoc k (l1 ++ l2) = match assoc k l1 with Some v => Some v | None => assoc k l2 end.
Proof. induction l1 as [|[k' v] l1 IH]; cbn; [done|]. by case_decide. Qed.

Lemma assoc_map k (l : list (bytes * V)) : (list_to_map l : gmap bytes V) !! k = assoc k l.
Proof.
  induction l as [|[k' v] l IH]; cbn; [apply lookup_empty|]. rewrite lookup_insert, IH.
  repeat case_decide; congruence.
Qed.

Lemma assoc_None k (l : list (bytes * V)) : assoc k l = None <-> k ∉ l.*1.
Proof.
  induction l as [|[k' v] l IH]; cbn; [split; [by intros _ ?%elem_of_nil|done]|].
  rewrite elem_of_cons. case_decide; subst; [split; [done|tauto]|]. rewrite IH. tauto.
Qed.

Lemma assoc_elem k v (l : list (bytes * V)) : assoc k l = Some v -> (k, v) ∈ l.
Proof.
  induction l as [|[k' v'] l IH]; cbn; [done|]. case_decide; subst.
  - intros [= ->]. by left.
  - intros H'. right. by apply IH.
Qed.

Lemma unlink_spec k (l : list (bytes * V)) :
  match unlink k l with
  | Some l' => exists v, l ≡ₚ (k, v) :: l' /\ assoc k l = Some v
  | None => assoc k l = None
  end.
Proof.
  induction l as [|[k' v] l IH]; cbn; [done|]. case_decide; subst; [by exists v|].
  destruct (unlink k l) as [l'|]; [|done]. destruct IH as (w & Hp & Ha). exists w.
  split; [|done]. rewrite Hp. apply Permutation_swap.
Qed.

Lemma set_val_keys k x (l : list (bytes * V)) : (set_val k x l).*1 = l.*1.
Proof. induction l as [|[k' v] l IH]; cbn; [done|]. case_decide; cbn; [done|]. by rewrite IH. Qed.

Lemma set_val_assoc k x j (l : list (bytes * V)) :
  is_Some (assoc k l) -> assoc j (set_val k x l) = if decide (j = k) then Some x else assoc j l.
Proof.
  induction l as [|[k' v] l IH]; cbn; [by intros []|].
  destruct (decide (k = k')) as [->|]; cbn; intros Hs.
  - destruct (decide (j = k')); congruence.
  - rewrite IH by done. destruct (decide (j = k')), (decide (j = k)); congruence.
Qed.

(** Replacing one bucket changes the entries by that bucket. *)
Lemma concat_insert (t : list (list (bytes * V))) i b c :
  t !! i = Some b -> concat (<[i := c]> t) ++ b ≡ₚ concat t ++ c.
Proof.
  revert i. induction t as [|x t IH]; intros [|i] H; cbn in *; try discriminate.
  - injection H as ->. rewrite (Permutation_app_comm (c ++ concat t) b), <- app_assoc.
    apply Permutation_app_head, Permutation_app_comm.
  - rewrite <- !app_assoc. apply Permutation_app_head. by apply IH.
Qed.

Lemma concat_insert_length (t : list (list (bytes * V))) i b c :
  t !! i = Some b ->
  Z.of_nat (length (concat (<[i := c]> t))) =
  Z.of_nat (length (concat t)) + Z.of_nat (length c) - Z.of_nat (length b).
Proof.
  intros H. pose proof (Permutation_length (concat_insert t i b c H)) as Hl.
  rewrite !length_app in Hl. lia.
Qed.

(** *** Tables *)

Lemma concat_replicate_nil n : concat (replicate n (@nil (bytes * V))) = [].
Proof. induction n as [|n IH]; cbn; [done|]. exact IH. Qed.

Lemma reset_ok : table_ok (dictReset (V := V)).
Proof. split; cbn; [done | done | by left |]. intros i b H. by rewrite lookup_nil in H. Qed.

Lemma fresh_ok n :
  2 <= n <= 31 -> table_ok (mkHt (V := V) (replicate (Z.to_nat (2 ^ n)) []) (2 ^ n) (2 ^ n - 1) 0).
Proof.
  intros Hn. assert (0 < 2 ^ n) by (apply Z.pow_pos_nonneg; lia).
  split; cbn; [rewrite length_replicate; lia | | right; exists n; done |].
  - by rewrite concat_replicate_nil.
  - intros i b [-> _]%lookup_replicate. constructor.
Qed.

Definition slot (t : dictht V) (k : bytes) : Z := Z.land (hash k) (sizemask t).

Lemma slot_range t k :
  table_ok t -> table t <> [] -> 0 <= slot t k < size t /\ size t <= 2 ^ 31.
Proof.
  intros [Hs _ [[? _]|(n & Hn & H2 & Hm)] _] Hne; [done|]. unfold slot. rewrite Hm, H2.
  replace (2 ^ n - 1) with (Z.ones n) by (rewrite Z.ones_equiv; lia).
  rewrite Z.land_ones by lia. split.
  - apply Z.mod_pos_bound. apply Z.pow_pos_nonneg; lia.
  - apply Z.pow_le_mono_r; lia.
Qed.

Lemma bucket_Some (t : dictht V) i b : bucket t i = Ok b <-> 0 <= i /\ table t !! Z.to_nat i = Some b.
Proof.
  unfold bucket. case_bool; [split; [discriminate|lia]|].
  destruct (table t !! Z.to_nat i); split; intros; try (destruct_and?); simplify_eq; done.
Qed.

Lemma bucket_slot t k :
  table_ok t -> table t <> [] ->
  exists b, bucket t (slot t k) = Ok b /\ table t !! Z.to_nat (slot t k) = Some b.
Proof.
  intros Hok Hne. destruct (slot_range t k Hok Hne) as [Hr _]. destruct Hok as [Hs _ _ _].
  assert (Z.to_nat (slot t k) < length (table t))%nat as [b Hb]%lookup_lt_is_Some_2 by lia.
  exists b. split; [|done]. apply bucket_Some. split; [lia|done].
Qed.

(** A key can only be in the bucket of its hash. *)
Lemma assoc_concat t k b :
  table_ok t -> table t !! Z.to_nat (slot t k) = Some b -> 0 <= slot t k ->
  assoc k (concat (table t)) = assoc k b.
Proof.
  intros [_ _ _ Hb] Hl H0. unfold slot in *. set (i := Z.to_nat (Z.land (hash k) (sizemask t))) in *.
  assert (forall (l : list (list (bytes * V))) off,
    (forall j c, l !! j = Some c ->
       Forall (fun kv => Z.land (hash kv.1) (sizemask t) = Z.of_nat (off + j)) c) ->
    assoc k (concat l) = if decide (off <= i < off + length l)%nat
                         then match l !! (i - off)%nat with Some c => assoc k c | None => None end
                         else None) as Hgen.
  { induction l as [|c l IH]; intros off Hf; cbn.
    - case_decide; [lia|done].
    - rewrite assoc_app, (IH (S off)).
      2:{ intros j c' Hc. specialize (Hf (S j) c' Hc). eapply Forall_impl; [exact Hf|].
          cbn. intros kv ->. lia. }
      destruct (assoc k c) as [v|] eqn:Ec.
      + pose proof (assoc_elem _ _ _ Ec) as He. specialize (Hf 0%nat c eq_refl).
        rewrite Forall_forall in Hf. specialize (Hf _ He). cbn in Hf.
        assert (i = off) as -> by (unfold i; rewrite Hf; lia).
        rewrite decide_True by lia. replace (off - off)%nat with 0%nat by lia. cbn. done.
      + destruct (decide (i = off)) as [->|].
        * rewrite decide_False by lia. rewrite decide_True by lia.
          replace (off - off)%nat with 0%nat by lia. cbn. done.
        * destruct (decide (off <= i < off + S (length l))%nat).
          -- rewrite decide_True by lia. replace (i - off)%nat with (S (i - S off)) by lia. done.
          -- by rewrite decide_False by lia. }
  rewrite (Hgen (table t) 0%nat).
  - pose proof (lookup_lt_Some _ _ _ Hl). rewrite decide_True by lia. rewrite Nat.sub_0_r. by rewrite Hl.
  - intros j c Hc. eapply Forall_impl; [by apply Hb|]. cbn. intros kv ->. lia.
Qed.

(** Storing a new bucket. *)
Lemma set_bucket_ok t i b c :
  table_ok t -> 0 <= i -> table t !! Z.to_nat i = Some b ->
  Forall (fun kv => Z.land (hash kv.1) (sizemask t) = i) c ->
  table_ok (set_bucket t i c (used t + Z.of_nat (length c) - Z.of_nat (length b))).
Proof.
  intros [Hs Hu Hp Hb] Hi Hl Hc. split; cbn.
  - by rewrite length_insert.
  - rewrite (concat_insert_length _ _ _ _ Hl). lia.
  - destruct Hp as [[Ht _]|Hp]; [rewrite Ht, lookup_nil in Hl; discriminate | by right].
  - intros j c' Hj. apply list_lookup_insert_Some in Hj as [(<- & <- & _)|(Hne & Hj)].
    + eapply Forall_impl; [exact Hc|]. cbn. intros kv ->. lia.
    + by apply Hb.
Qed.

Lemma table_nonempty_size t : table_ok t -> table t <> [] <-> size t <> 0.
Proof. intros [Hs _ _ _]. rewrite Hs. destruct (table t); cbn; split; (done || lia). Qed.

(** *** Rehashing keeps the entries *)

Lemma move_entries_ok b : forall t0 t1,
  table_ok t1 -> table t1 <> [] ->
  exists t1', move_entries hash b t0 t1
      = Ok (mkHt (table t0) (size t0) (sizemask t0) (used t0 - Z.of_nat (length b)), t1') /\
    table_ok t1' /\ table t1' <> [] /\ concat (table t1') ≡ₚ b ++ concat (table t1).
Proof.
  induction b as [|[k v] b IH]; intros t0 t1 Hok Hne; cbn [move_entries].
  - exists t1. cbn. rewrite Z.sub_0_r. by destruct t0.
  - fold (slot t1 k). destruct (bucket_slot t1 k Hok Hne) as (c & -> & Hc). rewrite bind_ok.
    destruct (slot_range t1 k Hok Hne) as [Hr _].
    assert (table_ok (set_bucket t1 (slot t1 k) ((k, v) :: c) (used t1 + 1))) as Hok'.
    { replace (used t1 + 1) with (used t1 + Z.of_nat (length ((k, v) :: c)) - Z.of_nat (length c))
        by (cbn; lia). apply set_bucket_ok; [done | lia | done |]. constructor; [done|].
      pose proof (tok_bucket _ Hok _ _ Hc) as Hf. eapply Forall_impl; [exact Hf|]. cbn. intros kv ->. lia. }
    destruct (IH (mkHt (table t0) (size t0) (sizemask t0) (used t0 - 1)) _ Hok') as (t1' & -> & Hok1 & Hne1 & Hp).
    { cbn. intros E. apply (f_equal length) in E. rewrite length_insert in E. by destruct (table t1). }
    exists t1'. cbn [table size sizemask used length]. split.
    { do 3 f_equal. lia. }
    split; [done|]. split; [done|]. rewrite Hp. cbn.
    pose proof (concat_insert (table t1) (Z.to_nat (slot t1 k)) c ((k, v) :: c) Hc) as Hi.
    change ((k, v) :: c) with ([(k, v)] ++ c) in Hi. rewrite app_assoc in Hi.
    apply Permutation_app_inv_r in Hi. change ((k, v) :: c) with ([(k, v)] ++ c). rewrite Hi.
    rewrite (Permutation_app_comm _ [(k, v)]). cbn. symmetry. apply Permutation_middle.
Qed.

(** A non-empty bucket lies ahead of the rehash index. *)
Definition bucket_ahead (t : dictht V) (idx : Z) : Prop :=
  exists j e b, idx <= Z.of_nat j /\ table t !! j = Some (e :: b).

Lemma ahead_of_used t idx :
  table_ok t -> used t <> 0 ->
  (forall i b, Z.of_nat i < idx -> table t !! i = Some b -> b = []) -> bucket_ahead t idx.
Proof.
  intros [_ Hu _ _] Hn0 He. rewrite Hu in Hn0.
  assert (exists j e b, table t !! j = Some (e :: b)) as (j & e & b & Hj).
  { clear -Hn0. induction (table t) as [|[|e c] l IH]; cbn in *; [done| |by exists 0%nat, e, c].
    destruct IH as (j & e & b & H); [done|]. by exists (S j), e, b. }
  exists j, e, b. split; [|done]. destruct (Z.lt_ge_cases (Z.of_nat j) idx); [|done].
  by specialize (He j _ ltac:(done) Hj).
Qed.

Lemma skip_empty_ok t ev : forall idx,
  (0 < ev)%nat -> 0 <= idx -> bucket_ahead t idx ->
  (forall i b, Z.of_nat i < idx -> table t !! i = Some b -> b = []) ->
  exists idx' ev' stop, skip_empty t ev idx = Ok (idx', ev', stop) /\ idx <= idx' <= Z.of_nat (length (table t)) /\
    (forall i b, Z.of_nat i < idx' -> table t !! i = Some b -> b = []) /\
    (if (stop : bool) then idx < idx' else (0 < ev')%nat /\ exists e b, table t !! Z.to_nat idx' = Some (e :: b)).
Proof.
  induction ev as [|ev IH]; intros idx Hev H0 Ha He; [lia|]. cbn [skip_empty].
  destruct Ha as (j & e & b & Hj & Hb).
  assert (Z.to_nat idx < length (table t))%nat as Hlt.
  { apply lookup_lt_Some in Hb. lia. }
  destruct (lookup_lt_is_Some_2 _ _ Hlt) as [c Hc].
  assert (bucket t idx = Ok c) as -> by (apply bucket_Some; split; [lia|done]).
  rewrite bind_ok. destruct c as [|x c].
  - assert (forall i b, Z.of_nat i < idx + 1 -> table t !! i = Some b -> b = []) as He'.
    { intros i b' Hi Hb'. destruct (Z.eq_dec (Z.of_nat i) idx) as [<-|]; [|apply (He i); [lia|done]].
      rewrite Nat2Z.id in Hc. congruence. }
    destruct (Nat.eqb_spec ev 0).
    + exists (idx + 1), ev, true. split; [done|]. split; [lia|]. split; [done|lia].
    + destruct (IH (idx + 1)) as (idx' & ev' & stop & -> & H1 & H2 & H3); [lia | lia | | done |].
      { exists j, e, b. split; [|done]. destruct (Z.eq_dec (Z.of_nat j) idx) as [<-|]; [|lia].
        rewrite Nat2Z.id in Hc. congruence. }
      exists idx', ev', stop. split; [done|]. split; [lia|]. split; [done|].
      destruct stop; [lia|done].
  - exists idx, (S ev), false. split; [done|]. split; [lia|]. split; [done|]. split; [lia|]. eauto.
Qed.

(** What the steps of a rehash preserve. *)
Record rehash_ok (d : dict V) : Prop := {
  rok0 : table_ok (ht0 d);
  rok1 : table_ok (ht1 d);
  rok_idx : 0 <= rehashidx d <= size (ht0 d);
  rok_ne0 : table (ht0 d) <> [];
  rok_ne1 : table (ht1 d) <> [];
  rok_done : forall i b, Z.of_nat i < rehashidx d -> table (ht0 d) !! i = Some b -> b = []
}.

Lemma rehash_loop_ok n : forall ev d,
  rehash_ok d -> (0 < ev)%nat ->
  exists d' stop, rehash_loop hash n ev d = Ok (d', stop) /\ rehash_ok d' /\
    entries d' ≡ₚ entries d /\ iterators d' = iterators d /\ rehashidx d <= rehashidx d' /\
    ((0 < n)%nat -> used (ht0 d) <> 0 -> rehashidx d < rehashidx d').
Proof.
  induction n as [|n IH]; intros ev d Hd Hev; cbn [rehash_loop].
  { exists d, false. split; [done|]. split; [done|]. split; [done|]. split; [done|]. split; [lia|lia]. }
  destruct Hd as [H0 H1 Hi Hn0 Hn1 He]. destruct (Z.eqb_spec (used (ht0 d)) 0) as [Hu|Hu].
  { exists d, false. split_and!; (done || lia). }
  pose proof (ahead_of_used _ _ H0 Hu He) as Ha.
  assert ((size (ht0 d) >? rehashidx d) = true) as ->.
  { rewrite Z.gtb_ltb. apply Z.ltb_lt. destruct Ha as (j & e & b & Hj & Hb).
    apply lookup_lt_Some in Hb. rewrite (tok_size _ H0). lia. }
  destruct (skip_empty_ok (ht0 d) ev (rehashidx d) Hev ltac:(lia) Ha He) as (idx & ev' & stop & -> & Hidx & He' & Hs).
  rewrite bind_ok. destruct stop.
  { exists (mkDict (ht0 d) (ht1 d) idx (iterators d)), true. split; [done|].
    split; [|split; [done|split; [done|cbn; split; lia]]].
    rewrite <- (tok_size _ H0) in Hidx. split; cbn; (done || lia). }
  destruct Hs as (Hev' & e & b & Hb). pose proof (lookup_lt_Some _ _ _ Hb) as Hlt.
  assert (bucket (ht0 d) idx = Ok (e :: b)) as -> by (apply bucket_Some; split; [lia|done]).
  rewrite bind_ok.
  destruct (move_entries_ok (e :: b) (ht0 d) (ht1 d) H1 Hn1) as (t1 & -> & Hok1 & Hne1 & Hp).
  rewrite bind_ok.
  set (d1 := mkDict _ t1 (idx + 1) (iterators d)).
  assert (rehash_ok d1) as Hd1.
  { split; cbn.
    - pose proof (set_bucket_ok (ht0 d) idx (e :: b) [] H0 ltac:(lia) Hb ltac:(constructor)) as Hsb.
      cbn [length Z.of_nat] in Hsb. rewrite Z.add_0_r in Hsb. exact Hsb.
    - done.
    - rewrite (tok_size _ H0). lia.
    - intros E. apply (f_equal length) in E. rewrite length_insert in E. by destruct (table (ht0 d)).
    - done.
    - intros i c Hic Hc. apply list_lookup_insert_Some in Hc as [(_ & <- & _)|(Hne & Hc)]; [done|].
      apply (He' i); [lia|done]. }
  destruct (IH ev' d1 Hd1 Hev') as (d' & stop & -> & Hd' & Hp' & Hit & Hle & _).
  exists d', stop. split; [done|]. split; [done|]. split; [|split; [done|cbn in Hle; split; lia]].
  rewrite Hp'. unfold entries. cbn. rewrite Hp.
  pose proof (concat_insert (table (ht0 d)) (Z.to_nat idx) (e :: b) [] Hb) as Hc.
  rewrite app_nil_r in Hc. rewrite app_assoc. by rewrite Hc.
Qed.

Lemma dict_ok_rehash d : dict_ok d -> dictIsRehashing d = true -> rehash_ok d.
Proof. intros [H0 H1 Hr _] E. rewrite E in Hr. destruct Hr as (? & ? & ? & ?). by split. Qed.

Lemma is_rehashing_spec (d : dict V) : dictIsRehashing d = true <-> rehashidx d <> -1.
Proof. unfold dictIsRehashing. rewrite negb_true_iff. apply Z.eqb_neq. Qed.

(** [dictRehash] keeps the invariant and the map, whatever the number of
    steps, and its result tells if the rehash is still in progress. *)
Lemma dictRehash_ok d n :
  dict_ok d -> (0 < n)%nat ->
  exists d' more, dictRehash hash d n = Ok (d', more) /\ dict_ok d' /\ entries d' ≡ₚ entries d /\
    dictIsRehashing d' = more /\ iterators d' = iterators d /\
    (table (ht0 d) <> [] -> table (ht0 d') <> []).
Proof.
  intros Hd Hn. unfold dictRehash. destruct (dictIsRehashing d) eqn:E; cbn [negb].
  2:{ exists d, false. by split_and!. }
  destruct (rehash_loop_ok n (n * 10) d (dict_ok_rehash d Hd E) ltac:(lia))
    as (d' & stop & -> & Hd' & Hp & Hit & Hle & _).
  rewrite bind_ok. pose proof (dok_nodup _ Hd) as Hnd.
  assert (NoDup (entries d').*1) as Hnd' by (by rewrite Hp).
  assert (dictIsRehashing d' = true) as E' by (apply is_rehashing_spec; destruct Hd'; lia).
  assert (dict_ok d') as Hok.
  { destruct Hd'. split; [done|done| |done]. rewrite E'. done. }
  assert (table (ht0 d') <> []) as Hne0 by (by destruct Hd').
  destruct stop; [by exists d', true|].
  destruct (Z.eqb_spec (used (ht0 d')) 0) as [Hu|Hu]; [|by exists d', true].
  exists (mkDict (ht1 d') dictReset (-1) (iterators d')), false. split; [done|].
  assert (entries (mkDict (ht1 d') dictReset (-1) (iterators d')) = entries d') as He.
  { unfold entries. cbn. rewrite app_nil_r. rewrite (tok_used _ (rok0 _ Hd')) in Hu.
    destruct (concat (table (ht0 d'))); [done|cbn in Hu; lia]. }
  rewrite He. assert (table (ht1 d') <> []) as Hne1 by (by destruct Hd').
  split; [|done]. destruct Hd'. split; cbn; [done | apply reset_ok | done | by rewrite He].
Qed.

Lemma move_entries_size b : forall t0 t1 t0' t1' : dictht V,
  move_entries hash b t0 t1 = Ok (t0', t1') -> size t0' = size t0.
Proof.
  induction b as [|[k v] b IH]; cbn; intros t0 t1 t0' t1' H; [by injection H as <- <-|].
  bind_inv H. by apply IH in H.
Qed.

Lemma rehash_loop_size n : forall ev (d d' : dict V) stop,
  rehash_loop hash n ev d = Ok (d', stop) -> size (ht0 d') = size (ht0 d).
Proof.
  induction n as [|n IH]; cbn; intros ev d d' stop H; [by injection H as <- <-|].
  destruct (used (ht0 d) =? 0); [by injection H as <- <-|].
  destruct (size (ht0 d) >? rehashidx d); [|done].
  bind_inv H. destruct a as [[idx ev'] [|]]; [by injection H as <- <-|].
  bind_inv H. bind_inv H. destruct a0 as [t0 t1]. apply IH in H. apply move_entries_size in Hm1.
  rewrite H. cbn. done.
Qed.

(** Each call that leaves work to do has moved the index forward. *)
Lemma dictRehash_progress d n d' :
  dict_ok d -> (0 < n)%nat -> dictRehash hash d n = Ok (d', true) ->
  size (ht0 d') = size (ht0 d) /\ rehashidx d < rehashidx d' <= size (ht0 d).
Proof.
  intros Hd Hn H. destruct (dictRehash_ok d n Hd Hn) as (d2 & m & H2 & Hd2 & _ & Hm & _).
  rewrite H in H2. injection H2 as <- <-. pose proof (dict_ok_rehash d' Hd2 Hm) as Hr2.
  revert H. unfold dictRehash. destruct (dictIsRehashing d) eqn:E; cbn [negb]; [|done].
  destruct (rehash_loop_ok n (n * 10) d (dict_ok_rehash d Hd E) ltac:(lia))
    as (d1 & stop & Hl & Hd1 & _ & _ & _ & Hlt). rewrite Hl, bind_ok.
  assert (used (ht0 d) <> 0 -> d1 = d' -> size (ht0 d') = size (ht0 d) /\ rehashidx d < rehashidx d' <= size (ht0 d)) as Hgo.
  { intros Hu ->. apply rehash_loop_size in Hl. destruct Hr2. split; [done|]. split; [auto|lia]. }
  destruct (Z.eqb_spec (used (ht0 d)) 0) as [Hu|Hu].
  - destruct n; [lia|]. cbn in Hl. apply Z.eqb_eq in Hu. rewrite Hu in Hl. injection Hl as <- <-.
    by rewrite Hu.
  - intros H. apply Hgo; [done|]. destruct stop; [congruence|].
    destruct (used (ht0 d1) =? 0); congruence.
Qed.

(** A rehash run in the background ends: as many rounds as the first table
    has buckets are enough, and the map is unchanged. After [n] rounds it is over,
    or the clock says so, and did not before. *)
Lemma rehash_ms_loop_ok fuel : forall clock i ms d,
  dict_ok d -> size (ht0 d) - rehashidx d < Z.of_nat fuel ->
  exists d' n, rehash_ms_loop hash fuel clock i ms (s32 (100 * Z.of_nat i)) d = Ok (d', s32 (100 * Z.of_nat n)) /\ (i <= n)%nat /\
    dict_ok d' /\ entries d' ≡ₚ entries d /\ (forall j, (i < j < n)%nat -> clock j - clock O <= ms) /\
    dictIsRehashing d' = bool_decide (i < n)%nat && (clock n - clock O >? ms).
Proof.
  induction fuel as [|fuel IH]; intros clock i ms d Hd Hf.
  { pose proof (dok_rehash _ Hd) as Hr. pose proof (tok_size _ (dok0 _ Hd)).
    destruct (dictIsRehashing d) eqn:E; [lia|].
    unfold dictIsRehashing in E. apply negb_false_iff, Z.eqb_eq in E. lia. }
  cbn [rehash_ms_loop].
  destruct (dictRehash_ok d 100 Hd ltac:(lia)) as (d1 & more & H1 & Hd1 & Hp & Hm & _).
  rewrite H1, bind_ok. destruct more.
  2:{ exists d1, i. rewrite bool_decide_eq_false_2 by lia. split_and!; try done. lia. }
  destruct (dictRehash_progress d 100 d1 Hd ltac:(lia) H1) as [Hs Hlt].
  rewrite s32_add_l. replace (100 * Z.of_nat i + 100) with (100 * Z.of_nat (S i)) by lia.
  destruct (Z.gtb_spec (clock (S i) - clock O) ms) as [Ht|Ht].
  - exists d1, (S i). rewrite bool_decide_eq_true_2 by lia. split_and!; [done|lia|done|done|lia|].
    rewrite Hm. cbn. symmetry. apply Z.gtb_lt. lia.
  - destruct (IH clock (S i) ms d1 Hd1 ltac:(lia)) as (d2 & n & H2 & Hn & Hd2 & Hp2 & Hc2 & Hr2).
    exists d2, n. split_and!; [done|lia|done|by rewrite Hp2| |].
    + intros j Hj. destruct (decide (j = S i)) as [->|]; [lia|]. apply Hc2. lia.
    + rewrite Hr2, (bool_decide_eq_true_2 (i < n)%nat) by lia. cbn. destruct (bool_decide_reflect (S i < n)%nat); [done|].
      replace n with (S i) by lia. symmetry. cbn. destruct (Z.gtb_spec (clock (S i) - clock O) ms); [lia|done].
Qed.

Lemma dictRehashStep_ok d :
  dict_ok d -> exists d', dictRehashStep hash d = Ok d' /\ dict_ok d' /\ entries d' ≡ₚ entries d /\
    (table (ht0 d) <> [] -> table (ht0 d') <> []).
Proof.
  intros Hd. unfold dictRehashStep. case_bool; [|by exists d].
  destruct (dictRehash_ok d 1 Hd ltac:(lia)) as (d' & more & -> & Hd' & Hp & _ & _ & Hne).
  exists d'. by rewrite bind_ok.
Qed.

Lemma rehash_if_needed_ok d :
  dict_ok d -> exists d', rehash_if_needed hash d = Ok d' /\ dict_ok d' /\ entries d' ≡ₚ entries d /\
    (table (ht0 d) <> [] -> table (ht0 d') <> []).
Proof.
  intros Hd. unfold rehash_if_needed. destruct (dictIsRehashing d); [by apply dictRehashStep_ok|].
  by exists d.
Qed.

(** *** Growing *)

Lemma next_power_loop_ok f : forall m sz,
  2 <= m <= 31 -> sz <= 2 ^ 31 -> 31 <= m + Z.of_nat f -> (m = 2 \/ 2 ^ (m - 1) < sz) ->
  exists n, next_power_loop f (2 ^ m) sz = 2 ^ n /\ 2 <= n <= 31 /\ sz <= 2 ^ n.
Proof.
  induction f as [|f IH]; intros m sz Hm Hsz Hf Hlt; cbn [next_power_loop].
  - exists m. split; [done|]. split; [lia|]. replace m with 31 by lia. done.
  - rewrite Z.geb_leb. destruct (Z.leb_spec sz (2 ^ m)); [by exists m|].
    assert (m < 31).
    { destruct (Z.eq_dec m 31) as [->|]; [lia|lia]. }
    assert (2 ^ m * 2 = 2 ^ (m + 1)) as E by (rewrite Z.pow_add_r by lia; done).
    rewrite E. rewrite u64_small.
    2:{ split; [apply Z.pow_nonneg; lia|]. apply Z.pow_lt_mono_r; lia. }
    apply IH; [lia | done | lia |]. right. by replace (m + 1 - 1) with m by lia.
Qed.

Lemma dictNextPower_ok sz :
  0 <= sz <= 2 ^ 31 -> exists n, dictNextPower sz = 2 ^ n /\ 2 <= n <= 31 /\ sz <= 2 ^ n.
Proof.
  intros Hsz. unfold dictNextPower, LONG_MAX. rewrite Z.geb_leb, (proj2 (Z.leb_gt _ _)) by lia.
  apply (next_power_loop_ok 62 2); [lia.. | by left].
Qed.

(** A new table: it replaces an empty one, or a rehash to it begins. *)
Lemma dictExpand_ok d sz :
  dict_ok d -> 0 <= sz <= 2 ^ 31 ->
  exists d' b, dictExpand d sz = (d', b) /\ dict_ok d' /\ entries d' = entries d /\ iterators d' = iterators d /\
    (b = true \/ table (ht0 d) <> [] -> table (ht0 d') <> []) /\
    (dictIsRehashing d = false -> used (ht0 d) <= sz -> size (ht0 d) < sz -> b = true).
Proof.
  intros Hd Hsz. unfold dictExpand. destruct (dictNextPower_ok sz Hsz) as (n & -> & Hn & Hle).
  destruct (dictIsRehashing d) eqn:E; cbn [orb]; [exists d, false; split_and!; try done; by intros []|].
  destruct (Z.gtb_spec (used (ht0 d)) sz); [exists d, false; split_and!; try done; [by intros []|lia]|].
  destruct (Z.eqb_spec (2 ^ n) (size (ht0 d))) as [Heq|Hne]; [exists d, false; split_and!; try done; [by intros []|lia]|].
  pose proof Hd as [H0 H1 Hr Hnd]. rewrite E in Hr. pose proof (fresh_ok n Hn) as Hf.
  assert (0 < 2 ^ n) by (apply Z.pow_pos_nonneg; lia).
  assert (replicate (Z.to_nat (2 ^ n)) (@nil (bytes * V)) <> []) as Hrep by (destruct (Z.to_nat (2 ^ n)) eqn:Ez; [lia|done]).
  destruct (table (ht0 d)) as [|t0 ts] eqn:Et; eexists _, true; (split; [reflexivity|]).
  - assert (entries (mkDict (mkHt (replicate (Z.to_nat (2 ^ n)) []) (2 ^ n) (2 ^ n - 1) 0) (ht1 d) (rehashidx d) (iterators d))
      = entries d) as He by (unfold entries; cbn; by rewrite concat_replicate_nil, Et).
    split_and!; try done. split; [exact Hf|exact H1| |by rewrite He]. unfold dictIsRehashing in *. cbn. by rewrite E.
  - assert (entries (mkDict (ht0 d) (mkHt (replicate (Z.to_nat (2 ^ n)) []) (2 ^ n) (2 ^ n - 1) 0) 0 (iterators d))
      = entries d) as He by (unfold entries; cbn; by rewrite concat_replicate_nil, Hr).
    split_and!; try done; [|cbn; congruence]. split; [exact H0|exact Hf| |by rewrite He]. unfold dictIsRehashing. cbn.
    pose proof (tok_size _ H0). split_and!; [lia|lia|congruence|done|intros; lia].
Qed.

Lemma dictResize_ok can_resize d : dict_ok d -> dictSize d <= 2 ^ 30 ->
  exists d' b, dictResize can_resize d = (d', b) /\ dict_ok d' /\ entries d' = entries d.
Proof.
  intros Hd Hs. unfold dictResize. destruct (negb can_resize || dictIsRehashing d); [by exists d, false|].
  pose proof (tok_used _ (dok0 d Hd)). pose proof (tok_used _ (dok1 d Hd)). unfold dictSize in Hs. rewrite s32_small by lia.
  destruct (dictExpand_ok d (if used (ht0 d) <? DICT_HT_INITIAL_SIZE then DICT_HT_INITIAL_SIZE else used (ht0 d)) Hd)
    as (d' & b & -> & ? & ? & _); [|by exists d', b]. unfold DICT_HT_INITIAL_SIZE. case_bool; lia.
Qed.

Lemma dictExpandIfNeeded_ok can_resize d :
  dict_ok d -> dictSize d <= 2 ^ 30 ->
  exists d', dictExpandIfNeeded can_resize d = (d', true) /\ dict_ok d' /\ entries d' = entries d /\
    table (ht0 d') <> [] /\ iterators d' = iterators d.
Proof.
  intros Hd Hsz. unfold dictExpandIfNeeded.
  destruct (dictIsRehashing d) eqn:E.
  { exists d. pose proof (dok_rehash _ Hd) as Hr. rewrite E in Hr. by destruct Hr as (? & ? & ? & ?). }
  pose proof (table_nonempty_size _ (dok0 d Hd)) as Hne. pose proof (tok_used _ (dok0 d Hd)) as Hu. pose proof (tok_size _ (dok0 d Hd)).
  pose proof (tok_used _ (dok1 d Hd)). unfold dictSize in Hsz.
  destruct (Z.eqb_spec (size (ht0 d)) 0) as [Hz|Hz].
  - assert (table (ht0 d) = []) as Ht by (destruct (table (ht0 d)); [done|cbn in *; lia]). rewrite Ht in Hu. cbn in Hu.
    destruct (dictExpand_ok d DICT_HT_INITIAL_SIZE Hd) as (d' & b & -> & ? & ? & ? & Hb1 & Hb2); [unfold DICT_HT_INITIAL_SIZE; lia|].
    unfold DICT_HT_INITIAL_SIZE in *. rewrite Hb2 in * by (done || lia). exists d'. split_and!; auto.
  - assert (table (ht0 d) <> []) as Ht by (by apply (proj2 Hne)).
    destruct ((used (ht0 d) >=? size (ht0 d)) && _) eqn:Eg; [|by exists d]. bool_hyps. rewrite u64_small by lia.
    destruct (dictExpand_ok d (used (ht0 d) * 2) Hd) as (d' & b & -> & ? & ? & ? & Hb1 & Hb2); [lia|].
    rewrite Hb2 in * by (done || lia). exists d'. split_and!; auto.
Qed.

(** *** Lookup *)

Lemma assoc_perm k (l1 l2 : list (bytes * V)) :
  NoDup l1.*1 -> l1 ≡ₚ l2 -> assoc k l1 = assoc k l2.
Proof. intros Hn Hp. rewrite <- !assoc_map. by rewrite (list_to_map_proper l1 l2). Qed.

(** The search in the buckets of the two tables is the search in the
    entries. *)
Lemma two_tables d k b :
  dict_ok d -> table (ht0 d) <> [] -> bucket (ht0 d) (slot (ht0 d) k) = Ok b ->
  assoc k (entries d) =
  match assoc k b with
  | Some v => Some v
  | None => if dictIsRehashing d then
              match bucket (ht1 d) (slot (ht1 d) k) with Ok c => assoc k c | Fault _ => None end
            else None
  end.
Proof.
  intros [H0 H1 Hr _] Hne Hb. apply bucket_Some in Hb as [Hi Hb].
  unfold entries. rewrite assoc_app, (assoc_concat _ k b H0 Hb Hi).
  destruct (assoc k b); [done|]. destruct (dictIsRehashing d).
  - destruct Hr as (_ & _ & Hn1 & _). destruct (bucket_slot _ k H1 Hn1) as (c & -> & Hc).
    apply (assoc_concat _ k c H1 Hc). destruct (slot_range _ k H1 Hn1) as [Hx _]. lia.
  - by rewrite Hr.
Qed.

Lemma nonempty_table d : dict_ok d -> entries d <> [] -> table (ht0 d) <> [].
Proof.
  intros [H0 H1 Hr _] Hne. destruct (dictIsRehashing d) eqn:Er; [destruct Hr as (_ & Hx & _); exact Hx|].
  unfold entries in Hne. rewrite Hr in Hne. cbn in Hne. rewrite app_nil_r in Hne.
  intros E. by rewrite E in Hne.
Qed.

Lemma dictSize_entries d : dict_ok d -> dictSize d = Z.of_nat (length (entries d)).
Proof.
  intros [H0 H1 _ _]. unfold dictSize, entries. rewrite (tok_used _ H0), (tok_used _ H1), length_app. lia.
Qed.

Lemma dictFind_ok d k :
  dict_ok d ->
  exists d', dictFind hash d k = Ok (d', dict_map d !! k) /\ dict_ok d' /\ entries d' ≡ₚ entries d.
Proof.
  intros Hd. unfold dictFind, dict_map. rewrite assoc_map.
  pose proof (dictSize_entries d Hd) as Hsz. unfold dictSize in Hsz. rewrite Hsz.
  destruct (Z.eqb_spec (Z.of_nat (length (entries d))) 0) as [E|E].
  { exists d. assert (entries d = []) as -> by (destruct (entries d); [done|cbn in E; lia]). done. }
  destruct (rehash_if_needed_ok d Hd) as (d' & -> & Hd' & Hp & _). rewrite bind_ok.
  exists d'. split; [|done].
  rewrite <- (assoc_perm k (entries d') (entries d) (dok_nodup _ Hd') Hp).
  assert (table (ht0 d') <> []) as Hne.
  { apply nonempty_table; [done|]. intros Hx. apply Permutation_length in Hp. rewrite Hx in Hp. cbn in Hp. lia. }
  fold (slot (ht0 d') k) (slot (ht1 d') k).
  destruct (bucket_slot _ k (dok0 _ Hd') Hne) as (b & Hb & _). rewrite Hb, bind_ok.
  rewrite (two_tables d' k b Hd' Hne Hb). destruct (assoc k b); [done|].
  pose proof (dok_rehash _ Hd') as Hr. destruct (dictIsRehashing d'); cbn [negb]; [|done].
  destruct Hr as (_ & _ & Hn1 & _).
  destruct (bucket_slot _ k (dok1 _ Hd') Hn1) as (c & -> & _). done.
Qed.

(** *** Updates *)

Lemma int_index_small i : 0 <= i < 2 ^ 31 -> int_index i = Some i.
Proof. intros. unfold int_index. rewrite s32_small by lia. case_bool; [lia|done]. Qed.

(** One bucket of one of the tables is replaced by [c], in a table that keeps
    its invariant. *)
Lemma update_ht0 d k b c :
  dict_ok d -> table (ht0 d) <> [] -> table (ht0 d) !! Z.to_nat (slot (ht0 d) k) = Some b ->
  (dictIsRehashing d = true -> b <> []) ->
  Forall (fun kv => slot (ht0 d) kv.1 = slot (ht0 d) k) c ->
  let d' := mkDict (set_bucket (ht0 d) (slot (ht0 d) k) c
              (used (ht0 d) + Z.of_nat (length c) - Z.of_nat (length b))) (ht1 d)
              (rehashidx d) (iterators d) in
  entries d' ++ b ≡ₚ entries d ++ c /\ (NoDup (entries d').*1 -> dict_ok d').
Proof.
  intros Hd Hne Hb Hbne Hc d'. destruct (slot_range _ k (dok0 _ Hd) Hne) as [Hr _].
  pose proof (concat_insert (table (ht0 d)) _ b c Hb) as Hi. split.
  - unfold entries. cbn. rewrite <- (app_assoc _ _ b), (Permutation_app_comm (concat (table (ht1 d))) b).
    rewrite app_assoc, Hi, <- !app_assoc. apply Permutation_app_head, Permutation_app_comm.
  - intros Hnd. destruct Hd as [H0 H1 Hre _]. split; [|done| |done].
    + apply set_bucket_ok; [done | lia | done | exact Hc].
    + change (dictIsRehashing d') with (dictIsRehashing d).
      destruct (dictIsRehashing d) eqn:E; [|done]. destruct Hre as (Hx & _ & Hn1 & He).
      split; [done|]. split; [|split; [done|]].
      * cbn. intros Ex. apply (f_equal length) in Ex. rewrite length_insert in Ex. by destruct (table (ht0 d)).
      * cbn. intros j x Hj Hl. apply list_lookup_insert_Some in Hl as [(Hij & _ & _)|(_ & Hl)].
        -- exfalso. apply Hbne; [done|]. apply (He (Z.to_nat (slot (ht0 d) k))); [lia|done].
        -- by apply (He j).
Qed.

Lemma update_ht1 d k b c :
  dict_ok d -> dictIsRehashing d = true -> table (ht1 d) !! Z.to_nat (slot (ht1 d) k) = Some b ->
  Forall (fun kv => slot (ht1 d) kv.1 = slot (ht1 d) k) c ->
  let d' := mkDict (ht0 d) (set_bucket (ht1 d) (slot (ht1 d) k) c
              (used (ht1 d) + Z.of_nat (length c) - Z.of_nat (length b)))
              (rehashidx d) (iterators d) in
  entries d' ++ b ≡ₚ entries d ++ c /\ (NoDup (entries d').*1 -> dict_ok d').
Proof.
  intros Hd E Hb Hc d'. destruct Hd as [H0 H1 Hre Hnd0]. rewrite E in Hre.
  destruct Hre as (Hx & Hn0 & Hn1 & He). destruct (slot_range _ k H1 Hn1) as [Hr _].
  pose proof (concat_insert (table (ht1 d)) _ b c Hb) as Hi. split.
  - unfold entries. cbn. rewrite <- !app_assoc. by apply Permutation_app_head.
  - intros Hnd. split; [done| | |done].
    + apply set_bucket_ok; [done | lia | done | exact Hc].
    + change (dictIsRehashing d') with (dictIsRehashing d). rewrite E.
      split; [done|]. split; [done|]. split; [|done].
      cbn. intros Ex. apply (f_equal length) in Ex. rewrite length_insert in Ex. by destruct (table (ht1 d)).
Qed.

Lemma bucket_same_slot t k b :
  table_ok t -> 0 <= slot t k -> table t !! Z.to_nat (slot t k) = Some b ->
  Forall (fun kv => slot t kv.1 = slot t k) b.
Proof.
  intros Ht H0 Hb. eapply Forall_impl; [by apply (tok_bucket _ Ht _ _ Hb)|].
  cbn. unfold slot in *. intros kv ->. lia.
Qed.

Lemma cons_perm_cancel (x : bytes * V) (b l l' : list (bytes * V)) :
  l' ++ b ≡ₚ l ++ x :: b -> l' ≡ₚ x :: l.
Proof.
  intros H. change (x :: b) with ([x] ++ b) in H. rewrite app_assoc in H.
  apply Permutation_app_inv_r in H. by rewrite H, Permutation_app_comm.
Qed.

(** Adding: the table grows if needed, and the entry is new or the key was
    there. *)
Lemma dictAdd_ok can_resize d k v :
  dict_ok d -> dictSize d <= 2 ^ 30 ->
  exists d' ok, dictAdd hash can_resize d k v = Ok (d', ok) /\ dict_ok d' /\
    match dict_map d !! k with
    | Some _ => ok = false /\ entries d' ≡ₚ entries d
    | None => ok = true /\ entries d' ≡ₚ (k, v) :: entries d
    end.
Proof.
  intros Hd Hsz. unfold dictAdd, dict_map. rewrite assoc_map.
  destruct (rehash_if_needed_ok d Hd) as (d1 & -> & Hd1 & Hp1 & _). rewrite bind_ok.
  rewrite <- (assoc_perm k (entries d1) (entries d) (dok_nodup _ Hd1) Hp1).
  assert (dictSize d1 <= 2 ^ 30) as Hsz1.
  { rewrite (dictSize_entries _ Hd) in Hsz. rewrite (dictSize_entries _ Hd1), Hp1. done. }
  unfold dictKeyIndex.
  destruct (dictExpandIfNeeded_ok can_resize d1 Hd1 Hsz1) as (d2 & -> & Hd2 & He2 & Hne & _).
  cbn [negb]. rewrite <- He2. rewrite <- He2 in Hp1. clear d1 Hd1 Hsz1 He2.
  fold (slot (ht0 d2) k) (slot (ht1 d2) k).
  destruct (bucket_slot _ k (dok0 _ Hd2) Hne) as (b & Hb & Hlb). rewrite Hb, bind_ok.
  rewrite (two_tables d2 k b Hd2 Hne Hb).
  assert (forall d', entries d' ≡ₚ (k, v) :: entries d2 -> assoc k (entries d2) = None ->
    NoDup (entries d').*1) as Hnodup.
  { intros d' Hp Ha. rewrite Hp. cbn. constructor; [by apply assoc_None | by apply dok_nodup]. }
  assert (Ha := two_tables d2 k b Hd2 Hne Hb).
  destruct (assoc k b) eqn:Eb.
  { rewrite bind_ok. exists d2, false. split; [done|]. split; [done|]. by split. }
  destruct (dictIsRehashing d2) eqn:E; cbn [negb].
  - pose proof (dok_rehash _ Hd2) as Hr. rewrite E in Hr. destruct Hr as (_ & _ & Hn1 & _).
    destruct (bucket_slot _ k (dok1 _ Hd2) Hn1) as (c & Hc & Hlc). rewrite Hc in Ha |- *. rewrite bind_ok.
    destruct (assoc k c) eqn:Ec.
    { rewrite bind_ok. exists d2, false. split; [done|]. split; [done|]. by split. }
    destruct (slot_range _ k (dok1 _ Hd2) Hn1) as [Hs Hmax].
    rewrite int_index_small by lia. rewrite bind_ok, E, Hc, bind_ok.
    destruct (update_ht1 d2 k c ((k, v) :: c) Hd2 E Hlc) as [Hp Hok].
    { constructor; [done|]. apply bucket_same_slot; [apply dok1; done | lia | done]. }
    replace (used (ht1 d2) + Z.of_nat (length ((k, v) :: c)) - Z.of_nat (length c))
      with (used (ht1 d2) + 1) in * by (cbn; lia).
    apply cons_perm_cancel in Hp.
    eexists _, true. split; [done|]. split; [apply Hok; by apply Hnodup|]. split; [done|].
    by rewrite Hp, Hp1.
  - destruct (slot_range _ k (dok0 _ Hd2) Hne) as [Hs Hmax].
    rewrite int_index_small by lia. rewrite bind_ok, E, Hb, bind_ok.
    destruct (update_ht0 d2 k b ((k, v) :: b) Hd2 Hne Hlb) as [Hp Hok].
    { congruence. }
    { constructor; [done|]. apply bucket_same_slot; [apply dok0; done | lia | done]. }
    replace (used (ht0 d2) + Z.of_nat (length ((k, v) :: b)) - Z.of_nat (length b))
      with (used (ht0 d2) + 1) in * by (cbn; lia).
    apply cons_perm_cancel in Hp.
    eexists _, true. split; [done|]. split; [apply Hok; by apply Hnodup|]. split; [done|].
    by rewrite Hp, Hp1.
Qed.

Lemma delete_perm d d' (e : bytes * V) b b' :
  dict_ok d -> b ≡ₚ e :: b' -> entries d' ++ b ≡ₚ entries d ++ b' ->
  NoDup (entries d').*1 /\ entries d ≡ₚ e :: entries d'.
Proof.
  intros Hd Hb Hp. rewrite Hb in Hp. symmetry in Hp. apply cons_perm_cancel in Hp.
  split; [|done]. pose proof (dok_nodup _ Hd) as Hn. rewrite Hp in Hn. cbn in Hn.
  by apply NoDup_cons_1_2 in Hn.
Qed.

Lemma dict_map_perm (d d' : dict V) : dict_ok d -> entries d' ≡ₚ entries d -> dict_map d' = dict_map d.
Proof.
  intros Hd Hp. apply list_to_map_proper; [|done]. rewrite Hp. by apply dok_nodup.
Qed.

Lemma set_val_split k v x (b : list (bytes * V)) :
  assoc k b = Some v -> exists r, b ≡ₚ (k, v) :: r /\ set_val k x b ≡ₚ (k, x) :: r.
Proof.
  induction b as [|[k' w] b IH]; cbn; intros Hv; [done|].
  destruct (decide (k = k')) as [->|].
  - injection Hv as ->. by exists b.
  - destruct (IH Hv) as (r & H1 & H2). exists ((k', w) :: r).
    split; (etrans; [apply perm_skip; eassumption | apply Permutation_swap]).
Qed.

Lemma assoc_Some_elem k v (l : list (bytes * V)) : assoc k l = Some v -> (k, v) ∈ l.
Proof.
  induction l as [|[k' w] l IH]; cbn; intros Hv; [done|].
  destruct (decide (k = k')) as [->|].
  - injection Hv as ->. by left.
  - right. auto.
Qed.

Lemma set_val_perm d d' k v x b :
  dict_ok d -> entries d' ++ b ≡ₚ entries d ++ set_val k x b ->
  assoc k b = Some v -> assoc k (entries d) = Some v ->
  NoDup (entries d').*1 /\ dict_map d' = <[k := x]> (dict_map d).
Proof.
  intros Hd Hp Hb Hv. pose proof (dok_nodup _ Hd) as Hn.
  destruct (set_val_split k v x b Hb) as (r & Hr1 & Hr2). rewrite Hr2, Hr1 in Hp.
  destruct (elem_of_Permutation (entries d) (k, v)) as [Hel _].
  destruct (Hel (assoc_Some_elem k v _ Hv)) as [l Hl].
  assert (entries d' ≡ₚ (k, x) :: l) as Hl'.
  { apply (Permutation_app_inv_r ((k, v) :: r)). rewrite Hp, Hl.
    rewrite <- !Permutation_middle. cbn. apply Permutation_swap. }
  assert (NoDup (entries d').*1) as Hnd.
  { rewrite Hl'. by rewrite Hl in Hn. }
  split; [done|]. apply map_eq. intros j. unfold dict_map. rewrite assoc_map.
  rewrite (assoc_perm j _ _ Hnd Hl').
  destruct (decide (j = k)) as [->|Hne].
  - rewrite lookup_insert_eq. cbn. by rewrite decide_True.
  - rewrite lookup_insert_ne by done. rewrite assoc_map, (assoc_perm j _ _ Hn Hl).
    cbn. by rewrite !decide_False.
Qed.

Lemma dictGenericDelete_ok d k :
  dict_ok d ->
  exists d' ok, dictGenericDelete hash d k = Ok (d', ok) /\ dict_ok d' /\
    match dict_map d !! k with
    | Some v => ok = true /\ entries d ≡ₚ (k, v) :: entries d'
    | None => ok = false /\ entries d' ≡ₚ entries d
    end.
Proof.
  intros Hd. unfold dictGenericDelete, dict_map. rewrite assoc_map.
  pose proof (table_nonempty_size _ (dok0 _ Hd)) as Hz.
  destruct (Z.eqb_spec (size (ht0 d)) 0) as [E0|E0].
  { exists d, false. split; [done|]. split; [done|].
    assert (entries d = []) as ->; [|done].
    destruct (decide (entries d = [])) as [|Hn]; [done|].
    exfalso. apply (proj1 Hz); [by apply nonempty_table | done]. }
  destruct (rehash_if_needed_ok d Hd) as (d1 & -> & Hd1 & Hp1 & Hne). rewrite bind_ok.
  rewrite <- (assoc_perm k (entries d1) (entries d) (dok_nodup _ Hd1) Hp1).
  specialize (Hne (proj2 Hz E0)).
  fold (slot (ht0 d1) k) (slot (ht1 d1) k).
  destruct (bucket_slot _ k (dok0 _ Hd1) Hne) as (b & Hb & Hlb). rewrite Hb, bind_ok.
  rewrite (two_tables d1 k b Hd1 Hne Hb).
  destruct (slot_range _ k (dok0 _ Hd1) Hne) as [Hs0 _].
  pose proof (unlink_spec k b) as Hu. destruct (unlink k b) as [b'|] eqn:Eu.
  - destruct Hu as (v & Hpb & Ha). rewrite Ha.
    destruct (update_ht0 d1 k b b' Hd1 Hne Hlb) as [Hp Hok].
    { intros _ ->. by apply Permutation_nil_cons in Hpb. }
    { pose proof (bucket_same_slot _ k b (dok0 _ Hd1) ltac:(lia) Hlb) as Hf.
      rewrite Hpb in Hf. by apply Forall_cons_1 in Hf as [_ Hf]. }
    replace (used (ht0 d1) + Z.of_nat (length b') - Z.of_nat (length b))
      with (used (ht0 d1) - 1) in * by (rewrite Hpb; cbn; lia).
    destruct (delete_perm d1 _ (k, v) b b' Hd1 Hpb Hp) as [Hnd He].
    eexists _, true. split; [done|]. split; [by apply Hok|]. split; [done|]. by rewrite <- Hp1, He.
  - rewrite Hu. pose proof (dok_rehash _ Hd1) as Hr.
    destruct (dictIsRehashing d1) eqn:E; cbn [negb].
    2:{ exists d1, false. by split_and!. }
    destruct Hr as (_ & _ & Hn1 & _).
    destruct (bucket_slot _ k (dok1 _ Hd1) Hn1) as (c & Hc & Hlc). rewrite Hc, bind_ok.
    destruct (slot_range _ k (dok1 _ Hd1) Hn1) as [Hs1 _].
    pose proof (unlink_spec k c) as Huc. destruct (unlink k c) as [c'|] eqn:Euc.
    2:{ rewrite Huc. exists d1, false. by split_and!. }
    destruct Huc as (v & Hpc & Ha). rewrite Ha.
    destruct (update_ht1 d1 k c c' Hd1 E Hlc) as [Hp Hok].
    { pose proof (bucket_same_slot _ k c (dok1 _ Hd1) ltac:(lia) Hlc) as Hf.
      rewrite Hpc in Hf. by apply Forall_cons_1 in Hf as [_ Hf]. }
    replace (used (ht1 d1) + Z.of_nat (length c') - Z.of_nat (length c))
      with (used (ht1 d1) - 1) in * by (rewrite Hpc; cbn; lia).
    destruct (delete_perm d1 _ (k, v) c c' Hd1 Hpc Hp) as [Hnd He].
    eexists _, true. split; [done|]. split; [by apply Hok|]. split; [done|]. by rewrite <- Hp1, He.
Qed.

(** Storing through the entry changes one value. *)
Lemma entry_set_val_ok d k x :
  dict_ok d -> is_Some (dict_map d !! k) ->
  exists d', entry_set_val hash d k x = Ok d' /\ dict_ok d' /\ dict_map d' = <[k := x]> (dict_map d).
Proof.
  intros Hd Hs. unfold dict_map in Hs. rewrite assoc_map in Hs. unfold entry_set_val.
  assert (entries d <> []) as Hen by (intros E; rewrite E in Hs; by destruct Hs).
  pose proof (nonempty_table d Hd Hen) as Hne. fold (slot (ht0 d) k) (slot (ht1 d) k).
  destruct (bucket_slot _ k (dok0 _ Hd) Hne) as (b & Hb & Hlb). rewrite Hb, bind_ok.
  pose proof (two_tables d k b Hd Hne Hb) as Hav. rewrite Hav in Hs.
  destruct (slot_range _ k (dok0 _ Hd) Hne) as [Hs0 _].
  assert (forall b, length (set_val k x b) = length b) as Hlen.
  { intros l. pose proof (set_val_keys k x l) as Hk. apply (f_equal length) in Hk. by rewrite !length_fmap in Hk. }
  assert (forall t b, Forall (fun kv => slot t kv.1 = slot t k) b ->
    Forall (fun kv => slot t kv.1 = slot t k) (set_val k x b)) as Hfa.
  { intros t l Hf. rewrite <- (Forall_fmap fst (fun y => slot t y = slot t k)), set_val_keys.
    by rewrite Forall_fmap. }
  destruct (assoc k b) as [v|] eqn:Eb.
  - destruct (update_ht0 d k b (set_val k x b) Hd Hne Hlb) as [Hp Hok].
    { intros _ ->. discriminate. }
    { apply Hfa. apply bucket_same_slot; [apply dok0; done | lia | done]. }
    rewrite Hlen in *. rewrite Z.add_simpl_r in *. eexists. split; [done|].
    destruct (set_val_perm d _ k v x b Hd Hp Eb Hav) as [? ?]; split; [by apply Hok | done].
  - pose proof (dok_rehash _ Hd) as Hr. destruct (dictIsRehashing d) eqn:E; [|by destruct Hs].
    destruct Hr as (_ & _ & Hn1 & _).
    destruct (bucket_slot _ k (dok1 _ Hd) Hn1) as (c & Hc & Hlc). rewrite Hc in Hs, Hav |- *. rewrite bind_ok.
    destruct (slot_range _ k (dok1 _ Hd) Hn1) as [Hs1 _].
    destruct (update_ht1 d k c (set_val k x c) Hd E Hlc) as [Hp Hok].
    { apply Hfa. apply bucket_same_slot; [apply dok1; done | lia | done]. }
    rewrite Hlen in *. rewrite Z.add_simpl_r in *. eexists. split; [done|].
    destruct Hs as [v Hv]. rewrite Hv in Hav.
    destruct (set_val_perm d _ k v x c Hd Hp Hv Hav) as [? ?]; split; [by apply Hok | done].
Qed.

(** *** The operations on the map *)

Lemma dict_map_size d : dict_ok d -> dictSize d = Z.of_nat (base.size (dict_map d)).
Proof.
  intros Hd. rewrite dictSize_entries by done. f_equal. unfold dict_map.
  symmetry. rewrite <- (length_map_to_list (list_to_map (entries d) : gmap bytes V)).
  apply Permutation_length, map_to_list_to_map, dok_nodup, Hd.
Qed.

Lemma dictFind_map d k :
  dict_ok d -> exists d', dictFind hash d k = Ok (d', dict_map d !! k) /\ dict_ok d' /\
    dict_map d' = dict_map d.
Proof.
  intros Hd. destruct (dictFind_ok d k Hd) as (d' & H & Hd' & Hp). exists d'.
  split_and!; [done|done|by apply dict_map_perm].
Qed.

Lemma dictAdd_map can_resize d k v :
  dict_ok d -> dictSize d <= 2 ^ 30 ->
  exists d', dictAdd hash can_resize d k v = Ok (d', bool_decide (dict_map d !! k = None)) /\ dict_ok d' /\
    dict_map d' = match dict_map d !! k with Some _ => dict_map d | None => <[k := v]> (dict_map d) end.
Proof.
  intros Hd Hsz. destruct (dictAdd_ok can_resize d k v Hd Hsz) as (d' & ok & H & Hd' & Hm).
  exists d'. destruct (dict_map d !! k) eqn:E; destruct Hm as [-> Hp].
  - rewrite bool_decide_false by done. split_and!; [done|done|by apply dict_map_perm].
  - rewrite bool_decide_true by done. split_and!; [done|done|].
    unfold dict_map. rewrite (list_to_map_proper _ ((k, v) :: entries d)); [done| |done].
    by apply dok_nodup.
Qed.

Lemma dictDelete_map d k :
  dict_ok d ->
  exists d', dictGenericDelete hash d k = Ok (d', bool_decide (is_Some (dict_map d !! k))) /\ dict_ok d' /\
    dict_map d' = delete k (dict_map d).
Proof.
  intros Hd. destruct (dictGenericDelete_ok d k Hd) as (d' & ok & H & Hd' & Hm).
  exists d'. destruct (dict_map d !! k) as [v|] eqn:E; destruct Hm as [-> Hp].
  - rewrite bool_decide_true by done. split_and!; [done|done|].
    pose proof (dok_nodup _ Hd) as Hn. assert (Hn' := Hn). rewrite Hp in Hn'. cbn in Hn'.
    apply NoDup_cons in Hn' as [Hk _].
    unfold dict_map. rewrite (list_to_map_proper _ _ Hn Hp). cbn. symmetry. apply delete_insert_id.
    rewrite assoc_map. by apply assoc_None.
  - rewrite bool_decide_false by (intros [? ?]; done). split_and!; [done|done|].
    rewrite delete_id by done. by apply dict_map_perm.
Qed.

Lemma dictReplace_map can_resize d k v :
  dict_ok d -> dictSize d <= 2 ^ 30 ->
  exists d', dictReplace hash can_resize d k v = Ok (d', bool_decide (dict_map d !! k = None)) /\ dict_ok d' /\
    dict_map d' = <[k := v]> (dict_map d).
Proof.
  intros Hd Hsz. unfold dictReplace.
  destruct (dictAdd_map can_resize d k v Hd Hsz) as (d1 & -> & Hd1 & Hm1). rewrite bind_ok.
  destruct (dict_map d !! k) as [w|] eqn:E.
  2:{ rewrite bool_decide_true by done. by exists d1. }
  rewrite bool_decide_false by done.
  destruct (dictFind_map d1 k Hd1) as (d2 & -> & Hd2 & Hm2). rewrite bind_ok, Hm1, E.
  destruct (entry_set_val_ok d2 k v Hd2) as (d3 & -> & Hd3 & Hm3).
  { rewrite Hm2, Hm1, E. eauto. }
  rewrite bind_ok. exists d3. split_and!; [done|done|]. by rewrite Hm3, Hm2, Hm1.
Qed.
End Correctness.
