(* ===== verification/Iter.v ===== *)
(** * Iterators over hash tables ([src/dict.c])

    Model of the iterators of src/redis-3.2.5/src/dict.c. A safe iterator counts
    itself in the dictionary, which stops the rehashing steps of the lookups; so
    the entries that are still to come do not move. The fingerprint that an
    iterator which is not safe takes of the dictionary is a function of the
    addresses of the tables, and is not modelled. *)

From S2P Require Import Prelude CLib Dict.
Local Open Scope Z_scope.

Section Iter.
Context {V : Type}.
Variable hash : bytes -> Z.

(** [it_entry] and [it_next] are the chains that start at [entry] and
    [nextEntry]; the empty chain is NULL. *)
Record dictIterator := mkIter {
  it_table : Z;
  it_index : Z;
  it_safe : bool;
  it_entry : list (bytes * V);
  it_next : list (bytes * V)
}.

Definition dictGetIterator : dictIterator := mkIter 0 (-1) false [] [].
Definition dictGetSafeIterator : dictIterator := mkIter 0 (-1) true [] [].

Definition add_iterators (d : dict V) (n : Z) : dict V := mkDict (ht0 d) (ht1 d) (rehashidx d) (iterators d + n).

(** The loop of [dictNext]; every round but the last goes on to another bucket,
    which bounds the fuel. *)
Fixpoint next_loop (fuel : nat) (d : dict V) (it : dictIterator) : res (dict V * dictIterator * option (bytes * V)) :=
  match fuel with
  | O => Fault OutOfFuel
  | S f =>
      let return_entry d table index safe entry :=
        match entry with
        | [] => next_loop f d (mkIter table index safe [] [])
        | e :: next => Ok (d, mkIter table index safe entry next, Some e)
        end in
      match it_entry it with
      | [] =>
          let d := if (it_index it =? -1) && (it_table it =? 0) && it_safe it then add_iterators d 1 else d in
          let index := it_index it + 1 in
          let ht := if it_table it =? 0 then ht0 d else ht1 d in
          if index >=? size ht then
            if dictIsRehashing d && (it_table it =? 0) then
              entry ← bucket (ht1 d) 0;
              return_entry d 1 0 (it_safe it) entry
            else Ok (d, mkIter (it_table it) index (it_safe it) [] (it_next it), None)
          else
            entry ← bucket ht index;
            return_entry d (it_table it) index (it_safe it) entry
      | _ => return_entry d (it_table it) (it_index it) (it_safe it) (it_next it)
      end
  end.

Definition dictNext (d : dict V) (it : dictIterator) : res (dict V * dictIterator * option (bytes * V)) :=
  next_loop (Z.to_nat (dictSlots d) + 3) d it.

Definition dictReleaseIterator (d : dict V) (it : dictIterator) : dict V :=
  if negb ((it_index it =? -1) && (it_table it =? 0)) && it_safe it then add_iterators d (-1) else d.
End Iter.

Arguments dictIterator : clear implicits.

(** ** What is still to come *)

Section IterSpec.
Context {V : Type}.
Variable hash : bytes -> Z.

Definition remaining (d : dict V) (it : dictIterator V) : list (bytes * V) :=
  (match it_entry it with [] => [] | _ => it_next it end) ++
  (if it_table it =? 0 then concat (drop (Z.to_nat (it_index it + 1)) (table (ht0 d))) ++ concat (table (ht1 d))
   else concat (drop (Z.to_nat (it_index it + 1)) (table (ht1 d)))).

Definition opened (it : dictIterator V) : bool := negb ((it_index it =? -1) && (it_table it =? 0)).

(** The iterator is at a bucket, or before the first one. *)
Record iter_ok (d : dict V) (it : dictIterator V) : Prop := {
  io_index : -1 <= it_index it;
  io_table : it_table it = 0 /\ it_index it < Z.max 1 (size (ht0 d)) \/
             it_table it = 1 /\ 0 <= it_index it < size (ht1 d) /\ dictIsRehashing d = true;
  io_entry : it_entry it <> [] -> opened it = true
}.

Definition rounds (d : dict V) (it : dictIterator V) : Z :=
  (match it_entry it with [] => 0 | _ => 1 end) +
  (if it_table it =? 0 then size (ht0 d) - it_index it + size (ht1 d) + 1 else size (ht1 d) - it_index it).

Lemma size_table (t : dictht V) : table_ok hash t -> size t = Z.of_nat (length (table t)).
Proof. apply tok_size. Qed.

Lemma drop_bucket (t : dictht V) i b : 0 <= i -> table t !! Z.to_nat i = Some b ->
  concat (drop (Z.to_nat i) (table t)) = b ++ concat (drop (Z.to_nat (i + 1)) (table t)).
Proof. intros Hi Hb. rewrite (drop_S _ b) by done. cbn. do 3 f_equal. lia. Qed.

Lemma bucket_at (t : dictht V) i : table_ok hash t -> 0 <= i < size t -> exists b, bucket t i = Ok b /\ table t !! Z.to_nat i = Some b.
Proof.
  intros Ht Hi. rewrite (size_table t Ht) in Hi. unfold bucket. rewrite (proj2 (Z.ltb_ge i 0)) by lia.
  destruct (lookup_lt_is_Some_2 (table t) (Z.to_nat i)) as [b Hb]; [lia|]. rewrite Hb. eauto.
Qed.

Lemma entries_two (d : dict V) : dict_ok hash d -> dictIsRehashing d = false -> table (ht1 d) = [].
Proof. intros [_ _ Hr _] E. rewrite E in Hr. by rewrite Hr. Qed.

(** The next entry, or NULL after the last one. *)
Definition next_entry (d : dict V) (it : dictIterator V) (d' : dict V) (it' : dictIterator V) (r : option (bytes * V)) : Prop :=
  r = head (remaining d it) /\
  d' = (if opened it then d else if it_safe it then add_iterators d 1 else d) /\
  it_safe it' = it_safe it /\ opened it' = true /\
  (is_Some r -> iter_ok d' it' /\ remaining d' it' = tail (remaining d it)).

Lemma next_entry_later (d : dict V) it it1 d1 d' it' r :
  remaining d1 it1 = remaining d it -> opened it1 = true -> it_safe it1 = it_safe it ->
  d1 = (if opened it then d else if it_safe it then add_iterators d 1 else d) ->
  next_entry d1 it1 d' it' r -> next_entry d it d' it' r.
Proof.
  intros Hr Ho Hs Hd (H1 & H2 & H3 & H4 & H5). rewrite Ho in H2. subst d'. rewrite Hr in H1, H5.
  split; [done|]. split; [done|]. split; [congruence|]. by split.
Qed.

Lemma remaining_add_iterators (d : dict V) n it : remaining (add_iterators d n) it = remaining d it.
Proof. done. Qed.

Lemma dict_ok_iterators (d : dict V) n : dict_ok hash d -> dict_ok hash (add_iterators d n).
Proof. intros [H1 H2 H3 H4]. by split. Qed.

(** The entry that a bucket or a chain offers. *)
Lemma offer_entry f (d0 d : dict V) it table index entry :
  (forall it1, iter_ok d it1 -> opened it1 = true -> rounds d it1 < Z.of_nat f -> exists d' it' r,
     next_loop f d it1 = Ok (d', it', r) /\ next_entry d it1 d' it' r) ->
  let it1 := mkIter table index (it_safe it) [] [] in
  iter_ok d it1 -> opened it1 = true -> rounds d it1 < Z.of_nat f ->
  d = (if opened it then d0 else if it_safe it then add_iterators d0 1 else d0) ->
  remaining d0 it = entry ++ remaining d it1 ->
  exists d' it' r,
    match entry with
    | [] => next_loop f d it1
    | e :: next => Ok (d, mkIter table index (it_safe it) entry next, Some e)
    end = Ok (d', it', r) /\ next_entry d0 it d' it' r.
Proof.
  intros IH it1 Hit Ho Hm Hd Hr. destruct entry as [|e next].
  - destruct (IH it1 Hit Ho Hm) as (d' & it' & r & -> & Hn). exists d', it', r. split; [done|].
    by eapply next_entry_later.
  - do 3 eexists. split; [reflexivity|]. split; [by rewrite Hr|]. split; [done|]. split; [done|]. split; [exact Ho|].
    intros _. split; [destruct Hit as [? ? _]; by split|]. by rewrite Hr.
Qed.

Lemma next_loop_ok fuel : forall (d : dict V) it, dict_ok hash d -> iter_ok d it -> rounds d it < Z.of_nat fuel ->
  exists d' it' r, next_loop fuel d it = Ok (d', it', r) /\ next_entry d it d' it' r.
Proof.
  induction fuel as [|f IH]; intros d it Hd [Hi Ht He] Hm;
    pose proof (size_table _ (dok0 _ _ Hd)) as S0; pose proof (size_table _ (dok1 _ _ Hd)) as S1.
  { unfold rounds in Hm. destruct Ht as [[Et ?]|[Et ?]]; rewrite Et in Hm; destruct (it_entry it); cbn in Hm; lia. }
  cbn [next_loop]. unfold rounds in Hm. destruct (it_entry it) as [|e0 es] eqn:Ee.
  2:{ apply (offer_entry f d d it); [intros; by apply IH|by split|by apply He|unfold rounds; cbn; lia|by rewrite He|].
      unfold remaining at 1. by rewrite Ee. }
  set (d1 := if (it_index it =? -1) && _ && _ then _ else _).
  assert (d1 = (if opened it then d else if it_safe it then add_iterators d 1 else d)) as Ed1.
  { subst d1. unfold opened. by destruct (it_index it =? -1), (it_table it =? 0), (it_safe it). }
  assert (ht0 d1 = ht0 d /\ ht1 d1 = ht1 d /\ dictIsRehashing d1 = dictIsRehashing d) as (E0 & E1 & Er)
    by (subst d1; by destruct (_ && _)).
  assert (dict_ok hash d1) as Hd1 by (subst d1; destruct (_ && _); [by apply dict_ok_iterators|done]).
  clearbody d1. rewrite E0, E1, Er. rewrite Z.geb_leb.
  assert (forall it1, iter_ok d1 it1 -> opened it1 = true -> rounds d1 it1 < Z.of_nat f -> exists d' it' r,
     next_loop f d1 it1 = Ok (d', it', r) /\ next_entry d1 it1 d' it' r) as IH' by (intros; by apply IH).
  destruct (Z.leb_spec (size (if it_table it =? 0 then ht0 d else ht1 d)) (it_index it + 1)) as [Hend|Hin].
  - destruct Ht as [[Et Hlt]|(Et & Hlt & Hreh)]; rewrite Et in *; cbn [Z.eqb] in *.
    + rewrite andb_true_r. destruct (dictIsRehashing d) eqn:Eh.
      * pose proof (dok_rehash _ _ Hd) as Hre. rewrite Eh in Hre. destruct Hre as (_ & _ & Hn1 & _).
        destruct (bucket_at (ht1 d) 0 (dok1 _ _ Hd)) as (b & -> & Hb); [rewrite S1; destruct (table (ht1 d)); cbn; [done|lia]|].
        rewrite bind_ok. assert (0 < size (ht1 d)) by (rewrite S1; destruct (table (ht1 d)); cbn; [done|lia]).
        apply (offer_entry f d d1 it); [done|split; cbn; [lia|right; rewrite E1; auto with lia|done]|done| |done|].
        { unfold rounds. cbn. rewrite E1. lia. }
        unfold remaining. rewrite Ee, Et. cbn [Z.eqb it_entry it_table it_index app].
        rewrite (drop_ge (table (ht0 d))) by lia. cbn [concat app]. rewrite E1.
        rewrite <- (drop_bucket (ht1 d) 0 b) by done. done.
      * do 3 eexists. split; [reflexivity|]. unfold next_entry, remaining. rewrite Ee, Et. cbn [Z.eqb app].
        rewrite (drop_ge (table (ht0 d))) by lia. rewrite (entries_two d) by done. cbn.
        split; [done|]. split; [done|]. split; [done|]. split; [|by intros []].
        unfold opened. cbn. rewrite (proj2 (Z.eqb_neq _ (-1))) by lia. done.
    + rewrite andb_false_r. do 3 eexists. split; [reflexivity|]. unfold next_entry, remaining. rewrite Ee, Et. cbn [Z.eqb app].
      rewrite (drop_ge (table (ht1 d))) by lia. cbn. split; [done|]. split; [done|]. split; [done|]. split; [|by intros []].
      unfold opened. cbn. by rewrite andb_false_r.
  - destruct (bucket_at (if it_table it =? 0 then ht0 d else ht1 d) (it_index it + 1)) as (b & -> & Hb);
      [destruct (it_table it =? 0); apply Hd|lia|]. rewrite bind_ok.
    apply (offer_entry f d d1 it); [done| | | |done|].
    + split; cbn; [lia| |done]. rewrite E0, E1, Er.
      destruct Ht as [[Et Hlt]|(Et & Hlt & Hreh)]; rewrite Et in Hin; cbn [Z.eqb] in Hin; [left; lia|right; auto with lia].
    + unfold opened. cbn. rewrite (proj2 (Z.eqb_neq _ (-1))) by lia. done.
    + unfold rounds. cbn. rewrite E0, E1. destruct (it_table it =? 0); lia.
    + unfold remaining. rewrite Ee. cbn [it_entry it_table it_index app]. rewrite E0, E1.
      destruct (it_table it =? 0); rewrite (drop_bucket _ _ b) by (done || lia); by rewrite ?app_assoc.
Qed.

(** An iterator that was just made. *)
Lemma iterator_start (d : dict V) safe : dict_ok hash d ->
  iter_ok d (mkIter 0 (-1) safe [] []) /\ remaining d (mkIter 0 (-1) safe [] []) = entries d.
Proof. intros Hd. split; [split; cbn; [lia|left; lia|done]|]. done. Qed.

Lemma dictNext_ok (d : dict V) it : dict_ok hash d -> iter_ok d it ->
  exists d' it' r, dictNext d it = Ok (d', it', r) /\ next_entry d it d' it' r.
Proof.
  intros Hd Hit. apply next_loop_ok; [done..|]. pose proof (size_table _ (dok0 _ _ Hd)). pose proof (size_table _ (dok1 _ _ Hd)).
  unfold rounds, dictSlots. destruct Hit as [Hi _ He]. unfold opened in He.
  destruct (it_table it =? 0), (it_entry it); try lia.
  destruct (Z.eqb_spec (it_index it) (-1)); [by specialize (He ltac:(done))|lia].
Qed.

(** While an iterator is open, lookups leave the dictionary as it is. *)
Lemma dictFind_iterating (d : dict V) k : dict_ok hash d -> 0 < iterators d -> dictFind hash d k = Ok (d, dict_map d !! k).
Proof.
  intros Hd Hit. destruct (dictFind_ok hash d k Hd) as (d' & E & _). rewrite E. do 2 f_equal.
  assert (rehash_if_needed hash d = Ok d) as Er.
  { unfold rehash_if_needed, dictRehashStep. rewrite (proj2 (Z.eqb_neq (iterators d) 0)) by lia. by destruct (dictIsRehashing d). }
  unfold dictFind in E. rewrite Er in E. destruct (_ =? 0); [by injection E as <-|]. rewrite bind_ok in E.
  destruct (bucket (ht0 d) _); [|done]. rewrite bind_ok in E. destruct (assoc k a); [by injection E|].
  destruct (negb _); [by injection E|]. destruct (bucket (ht1 d) _); [|done]. by injection E.
Qed.

End IterSpec.
