(* ===== verification/Scan.v ===== *)
(** * Scanning a dict with a cursor ([src/dict.c])

    [dictScan] returns the entries of one bucket and the next cursor; between two
    calls the dict may change. The cursor counts on its reversed bits, so that
    the buckets that it has passed are the same ones in tables of other sizes. *)

From Stdlib Require Import Sorted.
From S2P Require Import Prelude CLib Dict.
Local Open Scope Z_scope.

Definition not64 (x : Z) : Z := 2 ^ 64 - 1 - x.

(** [while ((s >>= 1) > 0)]: 64 halves to 0 in seven rounds. *)
Fixpoint rev_loop (fuel : nat) (s mask v : Z) : Z :=
  match fuel with
  | O => v
  | S f =>
      let s := Z.shiftr s 1 in
      if s >? 0 then
        let mask := Z.lxor mask (u64 (Z.shiftl mask s)) in
        let v := Z.lor (Z.land (Z.shiftr v s) mask) (Z.land (u64 (Z.shiftl v s)) (not64 mask)) in
        rev_loop f s mask v
      else v
  end.

Definition rev (v : Z) : Z := rev_loop 7 64 (not64 0) v.

Section Scan.
Context {V : Type}.

(** The [do] loop over the expansions of the cursor in the larger table. *)
Fixpoint expand_loop (fuel : nat) (t1 : dictht V) (m0 m1 v : Z) (emitted : list (bytes * V)) : res (list (bytes * V) * Z) :=
  match fuel with
  | O => Fault OutOfFuel
  | S f =>
      de ← bucket t1 (Z.land v m1);
      let emitted := emitted ++ de in
      let v := Z.lor (Z.land (u64 (Z.lor v m0 + 1)) (not64 m0)) (Z.land v m0) in
      if Z.land v (Z.lxor m0 m1) =? 0 then Ok (emitted, v) else expand_loop f t1 m0 m1 v emitted
  end.

(** The entries that are given to [fn], in order, and the next cursor. The loop
    visits a bucket of the larger table at most once, which bounds the fuel. *)
Definition dictScan (d : dict V) (v : Z) : res (list (bytes * V) * Z) :=
  if dictSize d =? 0 then Ok ([], 0) else
  '(emitted, v, m0) ←
    (if negb (dictIsRehashing d) then
       let m0 := sizemask (ht0 d) in
       de ← bucket (ht0 d) (Z.land v m0);
       Ok (de, v, m0)
     else
       let '(t0, t1) := if size (ht0 d) >? size (ht1 d) then (ht1 d, ht0 d) else (ht0 d, ht1 d) in
       let m0 := sizemask t0 in
       let m1 := sizemask t1 in
       de ← bucket t0 (Z.land v m0);
       '(emitted, v) ← expand_loop (Z.to_nat (size t1)) t1 m0 m1 v de;
       Ok (emitted, v, m0));
  let v := Z.lor v (not64 m0) in
  let v := rev v in
  let v := u64 (v + 1) in
  let v := rev v in
  Ok (emitted, v).

(** The calls of a client: the dict at each call, and the first cursor. *)
Fixpoint scan_calls (ds : list (dict V)) (v : Z) : res (list (bytes * V) * Z) :=
  match ds with
  | [] => Ok ([], v)
  | d :: ds' =>
      '(es, v) ← dictScan d v;
      '(es', v) ← scan_calls ds' v;
      Ok (es ++ es', v)
  end.
End Scan.

(** ** Reversed bits *)

Definition word (x : Z) : Prop := 0 <= x < 2 ^ 64.

Lemma word_bits x : word x <-> 0 <= x /\ forall i, 64 <= i -> Z.testbit x i = false.
Proof.
  split.
  - intros [H1 H2]. split; [done|]. intros i Hi. destruct (decide (x = 0)) as [->|]; [apply Z.bits_0|].
    apply Z.bits_above_log2; [done|]. apply Z.log2_lt_pow2; [lia|]. eapply Z.lt_le_trans; [done|]. apply Z.pow_le_mono_r; lia.
  - intros [H1 H2]. split; [done|]. destruct (decide (x < 2 ^ 64)) as [|Hge]; [done|]. exfalso.
    assert (64 <= Z.log2 x) as Hl by (apply Z.log2_le_pow2; lia). specialize (H2 _ Hl). rewrite Z.bit_log2 in H2 by lia. done.
Qed.

Lemma u64_bits x i : 0 <= i -> Z.testbit (u64 x) i = (i <? 64) && Z.testbit x i.
Proof.
  intros Hi. unfold u64. destruct (Z.ltb_spec i 64); [by rewrite Z.mod_pow2_bits_low|]. by rewrite Z.mod_pow2_bits_high by lia.
Qed.

Lemma not64_bits x i : word x -> 0 <= i -> Z.testbit (not64 x) i = (i <? 64) && negb (Z.testbit x i).
Proof.
  intros Hx Hi. assert (not64 x = Z.land (Z.lnot x) (Z.ones 64)) as ->.
  { rewrite Z.land_ones by lia. unfold not64, Z.lnot. apply (Z.mod_unique _ _ (-1)); unfold word in Hx; lia. }
  rewrite Z.land_spec, Z.lnot_spec, Z.testbit_ones_nonneg by lia. apply andb_comm.
Qed.

(** One round exchanges the halves of the blocks of [2s] bits. *)
Definition rev_step (v : Z) (sm : Z * Z) : Z :=
  Z.lor (Z.land (Z.shiftr v sm.1) sm.2) (Z.land (u64 (Z.shiftl v sm.1)) (not64 sm.2)).

Definition rev_rounds : list (Z * Z) :=
  [(32, 0x00000000FFFFFFFF); (16, 0x0000FFFF0000FFFF); (8, 0x00FF00FF00FF00FF); (4, 0x0F0F0F0F0F0F0F0F);
   (2, 0x3333333333333333); (1, 0x5555555555555555)].

Lemma rev_fold v : rev v = fold_left rev_step rev_rounds v.
Proof. reflexivity. Qed.

(** The bit of [v] that a round moves to [i]. *)
Definition rev_source (sm : Z * Z) (i : Z) : Z := if Z.testbit sm.2 i then i + sm.1 else i - sm.1.

Lemma rev_step_word v sm : word v -> word sm.2 -> 0 <= sm.1 -> word (rev_step v sm).
Proof.
  intros Hv Hm Hs. apply word_bits. split.
  - apply Z.lor_nonneg. split; apply Z.land_nonneg; [right; apply Hm|]. left. apply Z.mod_pos_bound. lia.
  - intros i Hi. unfold rev_step. rewrite Z.lor_spec, !Z.land_spec, u64_bits, not64_bits by (done || lia).
    apply word_bits in Hm as [_ Hm]. rewrite Hm by done. destruct (Z.ltb_spec i 64); [lia|]. by rewrite andb_false_r.
Qed.

Lemma rev_step_bits v sm i : word v -> word sm.2 -> 0 <= i < 64 -> 0 <= rev_source sm i ->
  0 <= sm.1 -> Z.testbit (rev_step v sm) i = Z.testbit v (rev_source sm i).
Proof.
  intros Hv Hm Hi Hr Hs. unfold rev_step, rev_source in *. rewrite Z.lor_spec, !Z.land_spec, u64_bits, not64_bits by (done || lia).
  destruct (Z.ltb_spec i 64); [|lia]. rewrite Z.shiftr_spec by lia. destruct (Z.testbit sm.2 i); cbn [andb negb].
  - by rewrite andb_true_r, andb_false_r, orb_false_r.
  - rewrite andb_false_r, andb_true_r, Z.shiftl_spec by lia. done.
Qed.

(** The rounds are in range and take the bit [63 - i] to [i]. *)
Definition rounds_ok (rounds : list (Z * Z)) (i : Z) : bool :=
  foldr (fun sm acc j => (0 <=? rev_source sm j) && (rev_source sm j <? 64) && acc (rev_source sm j))
    (fun j => j =? 63 - i) (reverse rounds) i.

Lemma fold_rev_bits rounds : Forall (fun sm => word sm.2 /\ 0 <= sm.1) rounds -> forall v, word v ->
  word (fold_left rev_step rounds v) /\
  forall i j, 0 <= i < 64 ->
    foldr (fun sm acc j => (0 <=? rev_source sm j) && (rev_source sm j <? 64) && acc (rev_source sm j))
      (fun j' => j' =? j) (reverse rounds) i = true -> Z.testbit (fold_left rev_step rounds v) i = Z.testbit v j.
Proof.
  induction rounds as [|sm rounds IH] using rev_ind; intros Hr v Hv.
  - split; [done|]. intros i j _ Hj. cbn in Hj. by apply Z.eqb_eq in Hj as ->.
  - apply Forall_app in Hr as [Hr Hsm]. apply Forall_singleton in Hsm as [Hm Hs]. rewrite fold_left_app. cbn [fold_left].
    destruct (IH Hr v Hv) as [Hw Hb]. split; [by apply rev_step_word|]. intros i j Hi Hj.
    rewrite reverse_app in Hj. cbn in Hj. apply andb_true_iff in Hj as [[H1%Z.leb_le H2%Z.ltb_lt]%andb_true_iff Hj].
    rewrite rev_step_bits by done. by apply Hb.
Qed.

Lemma rev_bits v : word v -> word (rev v) /\ forall i, 0 <= i < 64 -> Z.testbit (rev v) i = Z.testbit v (63 - i).
Proof.
  intros Hv. rewrite rev_fold. destruct (fold_rev_bits rev_rounds) with v as [Hw Hb];
    [repeat (constructor; [split; [split; vm_compute; congruence|discriminate]|]); constructor|done|].
  split; [done|]. intros i Hi. apply Hb; [done|].
  assert (forallb (rounds_ok rev_rounds) (Z.of_nat <$> seq 0 64) = true) as Hall by (vm_compute; reflexivity).
  rewrite forallb_forall in Hall. apply Hall. apply list_elem_of_In, list_elem_of_fmap. exists (Z.to_nat i).
  split; [lia|]. apply elem_of_seq. lia.
Qed.

Lemma rev_involutive v : word v -> rev (rev v) = v.
Proof.
  intros Hv. destruct (rev_bits v Hv) as [Hw Hb]. destruct (rev_bits (rev v) Hw) as [Hw2 Hb2].
  apply Z.bits_inj'. intros i Hi. destruct (decide (i < 64)).
  - rewrite Hb2, Hb by lia. f_equal. lia.
  - apply word_bits in Hw2 as [_ ->]; [|lia]. apply word_bits in Hv as [_ ->]; [done|lia].
Qed.

(** ** Blocks

    With tables of [2 ^ k] buckets, the reversed cursor runs through blocks of
    [2 ^ (64 - k)] words; a bucket holds the keys whose reversed hashes are in
    the block of the cursor. *)

Definition block (k v : Z) : Z := Z.shiftr (rev v) (64 - k).

Lemma block_bits k v i : word v -> 0 <= k <= 64 -> 0 <= i ->
  Z.testbit (block k v) i = (i <? k) && Z.testbit v (k - 1 - i).
Proof.
  intros Hv Hk Hi. unfold block. rewrite Z.shiftr_spec by done. destruct (rev_bits v Hv) as [Hw Hb].
  destruct (Z.ltb_spec i k); cbn [andb].
  - rewrite Hb by lia. f_equal. lia.
  - apply word_bits in Hw as [_ ->]; [done|lia].
Qed.

Lemma block_range k v : word v -> 0 <= k <= 64 -> 0 <= block k v < 0 + 2 ^ k.
Proof.
  intros Hv Hk. destruct (rev_bits v Hv) as [[H1 H2] _]. unfold block. rewrite Z.shiftr_div_pow2 by lia.
  split; [apply Z.div_pos; [done|apply Z.pow_pos_nonneg; lia]|]. apply Z.div_lt_upper_bound; [apply Z.pow_pos_nonneg; lia|].
  rewrite Z.add_0_l, <- Z.pow_add_r by lia. by replace (64 - k + k) with 64 by lia.
Qed.

(** Two words have the same low bits if they are in the same block. *)
Lemma same_block k h v : word h -> word v -> 0 <= k <= 64 ->
  Z.land h (Z.ones k) = Z.land v (Z.ones k) <-> block k h = block k v.
Proof.
  intros Hh Hv Hk. split; intros E; apply Z.bits_inj'; intros i Hi.
  - rewrite !block_bits by done. destruct (Z.ltb_spec i k); [|done]. apply (f_equal (fun x => Z.testbit x (k - 1 - i))) in E.
    rewrite !Z.land_spec, Z.testbit_ones_nonneg in E by lia. destruct (Z.ltb_spec (k - 1 - i) k); [|lia].
    by rewrite !andb_true_r in E.
  - rewrite !Z.land_spec, Z.testbit_ones_nonneg by lia. destruct (Z.ltb_spec i k); [|by rewrite !andb_false_r].
    apply (f_equal (fun x => Z.testbit x (k - 1 - i))) in E. rewrite !block_bits in E by (done || lia).
    destruct (Z.ltb_spec (k - 1 - i) k); [|lia]. replace (k - 1 - (k - 1 - i)) with i in E by lia. cbn in E. by rewrite E.
Qed.

Lemma split_at k x : 0 <= k -> x = 2 ^ k * Z.shiftr x k + Z.land x (Z.ones k).
Proof. intros Hk. rewrite Z.shiftr_div_pow2, Z.land_ones by done. apply Z.div_mod. lia. Qed.

Lemma word_lor_not v k : word v -> 0 <= k <= 64 -> word (Z.lor v (not64 (Z.ones k))).
Proof.
  intros Hv Hk. assert (word (Z.ones k)) as Ho.
  { rewrite Z.ones_equiv. split; [pose proof (Z.pow_pos_nonneg 2 k); lia|]. pose proof (Z.pow_le_mono_r 2 k 64). lia. }
  apply word_bits. split; [apply Z.lor_nonneg; unfold word, not64 in *; lia|]. intros i Hi.
  rewrite Z.lor_spec, not64_bits by (done || lia). apply word_bits in Hv as [_ ->]; [|done].
  by destruct (Z.ltb_spec i 64); [lia|].
Qed.

(** The next cursor is at the start of the next block. *)
Lemma next_cursor k v : word v -> 0 < k <= 64 ->
  let v' := rev (u64 (rev (Z.lor v (not64 (Z.ones k))) + 1)) in
  word v' /\ rev v' = (block k v + 1) * 2 ^ (64 - k) mod 2 ^ 64.
Proof.
  intros Hv Hk. cbn zeta. set (x := Z.lor v (not64 (Z.ones k))).
  assert (word (Z.ones k)) as Ho.
  { rewrite Z.ones_equiv. split; [pose proof (Z.pow_pos_nonneg 2 k); lia|]. pose proof (Z.pow_le_mono_r 2 k 64). lia. }
  assert (word x) as Hx by (apply word_lor_not; [done|lia]). destruct (rev_bits x Hx) as [Hrx Hbx].
  assert (word (u64 (rev x + 1))) as Hu by (apply Z.mod_pos_bound; lia).
  split; [by apply rev_bits|]. rewrite rev_involutive by done. unfold u64. f_equal.
  assert (forall i, 0 <= i -> Z.testbit x i = Z.testbit v i || ((i <? 64) && negb (i <? k))) as Hxb.
  { intros i Hi. unfold x. rewrite Z.lor_spec, not64_bits, Z.testbit_ones_nonneg by (done || lia). done. }
  rewrite (split_at (64 - k) (rev x)) by lia.
  assert (Z.shiftr (rev x) (64 - k) = block k v) as ->.
  { apply Z.bits_inj'. intros i Hi. fold (block k x). rewrite !block_bits by (done || lia). destruct (Z.ltb_spec i k); [|done].
    rewrite Hxb by lia. destruct (Z.ltb_spec (k - 1 - i) k); [|lia]. by rewrite andb_false_r, orb_false_r. }
  assert (Z.land (rev x) (Z.ones (64 - k)) = Z.ones (64 - k)) as ->.
  { apply Z.bits_inj'. intros i Hi. rewrite Z.land_spec, Z.testbit_ones_nonneg by lia. destruct (Z.ltb_spec i (64 - k)); [|by rewrite andb_false_r].
    rewrite Hbx, Hxb by lia. destruct (Z.ltb_spec (63 - i) k), (Z.ltb_spec (63 - i) 64); try lia. }
  rewrite Z.ones_equiv. lia.
Qed.

(** The cursor passes the keys of its block, and no others: a key that was not
    passed is in the block, or still ahead. *)
Definition ahead (h v : Z) : Prop := rev v <= rev h.

Lemma cursor_advances k h v v' : word h -> word v -> 0 < k <= 64 -> rev v' = (block k v + 1) * 2 ^ (64 - k) mod 2 ^ 64 -> word v' ->
  ahead h v -> block k h = block k v \/ (ahead h v' /\ v' <> 0).
Proof.
  intros Hh Hv Hk E Hv' Ha. unfold ahead in *. destruct (rev_bits h Hh) as [Hrh _]. destruct (rev_bits v Hv) as [Hrv _].
  unfold word in Hrh, Hrv. pose proof (Z.pow_pos_nonneg 2 (64 - k)) as Hp. assert (2 ^ 64 = 2 ^ k * 2 ^ (64 - k)) as H64
    by (rewrite <- Z.pow_add_r by lia; f_equal; lia).
  unfold block in *. rewrite !Z.shiftr_div_pow2 in * by lia.
  set (n := 2 ^ (64 - k)) in *. set (a := rev h) in *. set (b := rev v) in *.
  pose proof (Z.div_mod a n ltac:(lia)). pose proof (Z.div_mod b n ltac:(lia)).
  pose proof (Z.mod_pos_bound a n ltac:(lia)). pose proof (Z.mod_pos_bound b n ltac:(lia)).
  destruct (decide (a / n = b / n)) as [|Hne]; [by left|right].
  assert (b / n <= a / n) by (apply Z.div_le_mono; lia). assert (a / n < 2 ^ k) by (apply Z.div_lt_upper_bound; lia).
  assert (0 <= b / n) by (apply Z.div_pos; lia).
  rewrite Z.mod_small in E by nia. split; [rewrite E; nia|]. intros ->. change (rev 0) with 0 in E. nia.
Qed.

(** ** The expansions of a cursor *)

Lemma lor_disjoint k a c : 0 <= k -> 0 <= a -> 0 <= c < 2 ^ k -> Z.lor (a * 2 ^ k) c = a * 2 ^ k + c.
Proof.
  intros Hk Ha Hc. rewrite (split_at k (Z.lor _ _)) by done. rewrite Z.shiftr_lor, Z.land_lor_distr_l, !Z.land_ones, !Z.shiftr_div_pow2 by done.
  rewrite Z.div_mul, Z.mod_mul, (Z.div_small c), (Z.mod_small c) by lia. rewrite Z.lor_0_r, Z.lor_0_l. lia.
Qed.

Lemma land_cursor k c j : 0 <= k -> 0 <= c < 2 ^ k -> Z.land (c + j * 2 ^ k) (Z.ones k) = c.
Proof. intros Hk Hc. rewrite Z.land_ones, Z.mod_add by lia. by apply Z.mod_small. Qed.

Lemma expand_step k c j : 0 <= k <= 62 -> 0 <= c < 2 ^ k -> 0 <= j -> (j + 1) * 2 ^ k < 2 ^ 64 ->
  Z.lor (Z.land (u64 (Z.lor (c + j * 2 ^ k) (Z.ones k) + 1)) (not64 (Z.ones k))) (Z.land (c + j * 2 ^ k) (Z.ones k)) =
  c + (j + 1) * 2 ^ k.
Proof.
  intros Hk Hc Hj Hb. rewrite land_cursor by (done || lia).
  assert (Z.lor (c + j * 2 ^ k) (Z.ones k) + 1 = (j + 1) * 2 ^ k) as ->.
  { rewrite (split_at k (Z.lor _ _)) by lia. rewrite Z.shiftr_lor, Z.land_lor_distr_l, Z.land_diag, !Z.shiftr_div_pow2 by lia.
    rewrite Z.div_add, (Z.div_small c) by lia. rewrite land_cursor by (done || lia). rewrite Z.ones_equiv.
    rewrite (Z.div_small (Z.pred (2 ^ k))) by lia. rewrite Z.lor_0_r.
    assert (Z.lor c (Z.pred (2 ^ k)) = Z.pred (2 ^ k)) as ->; [|lia].
    rewrite <- Z.ones_equiv. apply Z.bits_inj'. intros i Hi. rewrite Z.lor_spec, Z.testbit_ones_nonneg by lia.
    destruct (Z.ltb_spec i k); [by rewrite orb_true_r|]. rewrite orb_false_r.
    destruct (decide (c = 0)) as [->|]; [apply Z.bits_0|]. apply Z.bits_above_log2; [lia|]. apply Z.log2_lt_pow2; [lia|].
    eapply Z.lt_le_trans; [apply Hc|]. apply Z.pow_le_mono_r; lia. }
  assert (word (Z.ones k)) as Ho.
  { rewrite Z.ones_equiv. split; [pose proof (Z.pow_pos_nonneg 2 k); lia|]. pose proof (Z.pow_le_mono_r 2 k 64). lia. }
  rewrite u64_small by nia.
  assert (Z.land ((j + 1) * 2 ^ k) (not64 (Z.ones k)) = (j + 1) * 2 ^ k) as ->.
  { assert (word ((j + 1) * 2 ^ k)) as Hw by (unfold word; nia). apply Z.bits_inj'. intros i Hi.
    rewrite Z.land_spec, not64_bits, Z.testbit_ones_nonneg by (done || lia).
    destruct (Z.ltb_spec i 64); [|apply word_bits in Hw as [_ ->]; [done|lia]].
    destruct (Z.ltb_spec i k); [|by rewrite andb_true_r]. by rewrite Z.mul_pow2_bits_low by lia. }
  rewrite lor_disjoint by lia. lia.
Qed.

(** The bits between two masks. *)
Lemma land_between k0 k1 x : 0 <= k0 <= k1 ->
  Z.land x (Z.lxor (Z.ones k0) (Z.ones k1)) = Z.shiftr x k0 mod 2 ^ (k1 - k0) * 2 ^ k0.
Proof.
  intros Hk. apply Z.bits_inj'. intros i Hi. rewrite Z.land_spec, Z.lxor_spec, !Z.testbit_ones_nonneg by lia.
  destruct (Z.ltb_spec i k0).
  - rewrite Z.mul_pow2_bits_low by lia. destruct (Z.ltb_spec i k1); [by rewrite andb_false_r|lia].
  - rewrite Z.mul_pow2_bits by lia. destruct (Z.ltb_spec i k1); cbn [xorb].
    + rewrite Z.mod_pow2_bits_low, Z.shiftr_spec by lia. rewrite andb_true_r. f_equal. lia.
    + rewrite Z.mod_pow2_bits_high by lia. by rewrite andb_false_r.
Qed.

Section ScanSpec.
Context {V : Type}.
Variable hash : bytes -> Z.
Hypothesis hash_word : forall k, word (hash k).

#[local] Abbreviation table_ok' := (table_ok (V := V) hash).

Lemma bucket_in_range (t : dictht V) i : table_ok' t -> 0 <= i < size t -> exists b, bucket t i = Ok b.
Proof.
  intros [Hs _ _ _] Hi. assert (Z.to_nat i < length (table t))%nat as [b Hb]%lookup_lt_is_Some_2 by lia.
  exists b. apply bucket_Some. split; [lia|done].
Qed.

(** A table that is not empty. *)
Lemma table_mask (t : dictht V) : table_ok' t -> table t <> [] ->
  exists n, 2 <= n <= 31 /\ size t = 2 ^ n /\ sizemask t = Z.ones n.
Proof.
  intros [_ _ [[? _]|(n & Hn & Hs & Hm)] _] Hne; [done|]. exists n. split_and!; try done; [lia|lia|]. rewrite Hm, Hs, Z.ones_equiv. lia.
Qed.

(** The loop visits the expansions from the [j]-th on. *)
Lemma expand_loop_ok t1 k0 k1 c fuel : table_ok' t1 -> 0 <= k0 <= k1 -> k1 <= 31 -> size t1 = 2 ^ k1 -> 0 <= c < 2 ^ k0 ->
  forall j acc, 0 <= j < 2 ^ (k1 - k0) -> 2 ^ (k1 - k0) - j <= Z.of_nat fuel ->
  exists es v', expand_loop fuel t1 (Z.ones k0) (Z.ones k1) (c + j * 2 ^ k0) acc = Ok (acc ++ es, v') /\
    v' = c + 2 ^ k1 /\
    forall i b, j <= i < 2 ^ (k1 - k0) -> bucket t1 (c + i * 2 ^ k0) = Ok b -> b ⊆ es.
Proof.
  intros Ht Hk Hk1 Hs Hc. assert (2 ^ k1 = 2 ^ (k1 - k0) * 2 ^ k0) as Hpow by (rewrite <- Z.pow_add_r by lia; f_equal; lia).
  pose proof (Z.pow_le_mono_r 2 k1 31 ltac:(lia) ltac:(lia)) as Hbig.
  induction fuel as [|fuel IH]; intros j acc Hj Hf; [lia|]. cbn [expand_loop].
  assert (Z.land (c + j * 2 ^ k0) (Z.ones k1) = c + j * 2 ^ k0) as -> by (rewrite Z.land_ones by lia; apply Z.mod_small; nia).
  destruct (bucket_in_range t1 (c + j * 2 ^ k0) Ht) as [b Hb]; [nia|]. rewrite Hb, bind_ok, expand_step by (lia || nia).
  assert (Z.land (c + (j + 1) * 2 ^ k0) (Z.lxor (Z.ones k0) (Z.ones k1)) = if decide (j + 1 = 2 ^ (k1 - k0)) then 0 else (j + 1) * 2 ^ k0) as ->.
  { rewrite land_between, Z.shiftr_div_pow2, Z.div_add, (Z.div_small c) by lia. rewrite Z.add_0_l.
    destruct (decide (j + 1 = 2 ^ (k1 - k0))) as [->|]; [by rewrite Z.mod_same by lia|by rewrite Z.mod_small by lia]. }
  destruct (decide (j + 1 = 2 ^ (k1 - k0))) as [He|He].
  - exists b, (c + 2 ^ k1). cbn. split_and!; [do 2 f_equal; lia|done|]. intros i b' Hi Hb'. assert (i = j) as -> by lia. congruence || set_solver.
  - destruct (Z.eqb_spec ((j + 1) * 2 ^ k0) 0); [nia|].
    destruct (IH (j + 1) (acc ++ b)) as (es & v' & -> & Hv' & Hes); [lia|lia|].
    exists (b ++ es), v'. rewrite app_assoc. split_and!; try done. intros i b' Hi Hb'. destruct (decide (i = j)) as [->|].
    + rewrite Hb in Hb'. injection Hb' as <-. set_solver.
    + specialize (Hes i b' ltac:(lia) Hb'). set_solver.
Qed.

(** The smaller table of a dict: the only one, if no rehash is in progress. *)
Definition smaller (d : dict V) : dictht V :=
  if dictIsRehashing d && (size (ht0 d) >? size (ht1 d)) then ht1 d else ht0 d.

Lemma bucket_key (t : dictht V) k x : table_ok' t -> (k, x) ∈ concat (table t) ->
  exists b, bucket t (slot hash t k) = Ok b /\ (k, x) ∈ b.
Proof.
  intros Ht (b & Hb & Hin)%list_elem_of_In%in_concat. apply list_elem_of_In in Hb, Hin.
  apply list_elem_of_lookup in Hb as [i Hi]. exists b. split; [|done].
  pose proof (tok_bucket _ _ Ht i b Hi) as Hf. rewrite Forall_forall in Hf. specialize (Hf _ Hin). cbn in Hf.
  unfold slot. rewrite Hf. apply bucket_Some. split; [lia|]. by rewrite Nat2Z.id.
Qed.

Lemma table_has (t : dictht V) k x : (k, x) ∈ concat (table t) -> table t <> [].
Proof. destruct (table t); [by intros ?%elem_of_nil|done]. Qed.

Lemma smaller_size d : dict_ok hash d -> entries d <> [] -> exists n, 2 <= n <= 31 /\ size (smaller d) = 2 ^ n.
Proof.
  intros Hd Hne. pose proof (nonempty_table hash d Hd Hne) as N0. pose proof Hd as [H0 H1 Hr _]. unfold smaller.
  destruct (dictIsRehashing d); cbn [andb].
  - destruct Hr as (_ & _ & N1 & _). destruct (_ >? _); [destruct (table_mask _ H1 N1) as (n & ? & ? & _)|destruct (table_mask _ H0 N0) as (n & ? & ? & _)];
      by exists n.
  - destruct (table_mask _ H0 N0) as (n & ? & ? & _). by exists n.
Qed.

(** What a call returns: the entries of the block of the cursor at least. *)
Definition covers (d : dict V) (n v : Z) (es : list (bytes * V)) : Prop :=
  forall k x, (k, x) ∈ entries d -> block n (hash k) = block n v -> (k, x) ∈ es.

Lemma same_slot n k v : 0 <= n <= 64 -> word v -> block n (hash k) = block n v -> Z.land (hash k) (Z.ones n) = Z.land v (Z.ones n).
Proof. intros Hn Hv. by apply same_block. Qed.

(** One table. *)
Lemma scan_one d n v : dict_ok hash d -> dictIsRehashing d = false -> table (ht0 d) <> [] -> word v ->
  size (ht0 d) = 2 ^ n -> sizemask (ht0 d) = Z.ones n -> 2 <= n <= 31 ->
  exists b, bucket (ht0 d) (Z.land v (Z.ones n)) = Ok b /\ covers d n v b.
Proof.
  intros [H0 H1 Hr _] Hre Hne Hv Hs Hm Hn. rewrite Hre in Hr.
  destruct (bucket_in_range (ht0 d) (Z.land v (Z.ones n)) H0) as [b Hb].
  { rewrite Z.land_ones, Hs by lia. apply Z.mod_pos_bound. lia. }
  exists b. split; [done|]. intros k x Hin He. unfold entries in Hin. rewrite Hr in Hin. cbn in Hin. rewrite app_nil_r in Hin.
  destruct (bucket_key (ht0 d) k x H0 Hin) as (b' & Hb' & Hin'). unfold slot in Hb'. rewrite Hm, (same_slot n k v) in Hb' by (done || lia).
  rewrite Hb in Hb'. by injection Hb' as <-.
Qed.

(** Two tables: the bucket of the smaller one and its expansions. *)
Lemma scan_two (t0 t1 : dictht V) n v : table_ok' t0 -> table_ok' t1 -> table t0 <> [] -> table t1 <> [] -> size t0 <= size t1 ->
  word v -> v < size t0 -> size t0 = 2 ^ n -> sizemask t0 = Z.ones n -> 2 <= n <= 31 ->
  exists b es v', bucket t0 (Z.land v (sizemask t0)) = Ok b /\
    expand_loop (Z.to_nat (size t1)) t1 (sizemask t0) (sizemask t1) v b = Ok (b ++ es, v') /\
    word v' /\ block n v' = block n v /\
    forall k x, (k, x) ∈ concat (table t0) ++ concat (table t1) -> block n (hash k) = block n v -> (k, x) ∈ b ++ es.
Proof.
  intros H0 H1 N0 N1 Hle Hv Hvs Hs Hm Hn. destruct (table_mask t1 H1 N1) as (n1 & Hn1 & Hs1 & Hm1).
  assert (n <= n1) as Hnn by (destruct (Z.le_gt_cases n n1) as [|Hlt]; [done|apply (Z.pow_lt_mono_r 2) in Hlt; lia]).
  rewrite Hs in Hvs. assert (0 <= v < 2 ^ n) as Hvr by (unfold word in Hv; lia).
  assert (Z.land v (Z.ones n) = v) as Hlv by (rewrite Z.land_ones by lia; by apply Z.mod_small).
  pose proof (Z.pow_le_mono_r 2 n1 31 ltac:(lia) ltac:(lia)) as Hbig. pose proof (Z.pow_pos_nonneg 2 (n1 - n) ltac:(lia) ltac:(lia)).
  assert (2 ^ n1 = 2 ^ (n1 - n) * 2 ^ n) as Hpow by (rewrite <- Z.pow_add_r by lia; f_equal; lia).
  rewrite Hm, Hm1, Hlv. destruct (bucket_in_range t0 v H0) as [b Hb]; [lia|].
  destruct (expand_loop_ok t1 n n1 v (Z.to_nat (size t1)) H1 ltac:(lia) ltac:(lia) Hs1 Hvr 0 b ltac:(lia) ltac:(nia)) as (es & v' & E & Ev & Hes).
  rewrite Z.mul_0_l, Z.add_0_r in E. exists b, es, v'. rewrite Hb, E.
  assert (word v') as Hw' by (unfold word in *; lia).
  split_and!; try done.
  - apply same_block; [done|done|lia|]. rewrite Ev, Hpow, land_cursor by lia. by rewrite Hlv.
  - intros k x Hin He. apply (same_slot n k v) in He; [|lia|done]. rewrite Hlv in He. apply elem_of_app in Hin as [Hin|Hin]; apply elem_of_app.
    + left. destruct (bucket_key t0 k x H0 Hin) as (b' & Hb' & Hin'). unfold slot in Hb'. rewrite Hm, He, Hb in Hb'. by injection Hb' as <-.
    + right. destruct (bucket_key t1 k x H1 Hin) as (b' & Hb' & Hin'). destruct (slot_range hash t1 k H1 N1) as [Hsr _].
      set (h := slot hash t1 k) in *.
      assert (h mod 2 ^ n = v) as Hhm.
      { unfold h, slot. rewrite Hm1, Z.land_ones by lia. rewrite <- He, Z.land_ones by lia.
        apply Z.mod_mod_divide. exists (2 ^ (n1 - n)). lia. }
      apply (Hes (h / 2 ^ n) b'); [split; [apply Z.div_pos; lia|apply Z.div_lt_upper_bound; lia]| |done].
      rewrite <- Hb'. f_equal. rewrite <- Hhm. rewrite (Z.div_mod h (2 ^ n)) at 3 by lia. lia.
Qed.

(** The cursor uses the bits of the smaller table only. *)
Lemma cursor_small n v q : word v -> 0 <= n <= 64 -> rev v = q * 2 ^ (64 - n) mod 2 ^ 64 -> v < 2 ^ n.
Proof.
  intros Hv Hn E. assert (v = Z.land v (Z.ones n)) as ->; [|rewrite Z.land_ones by lia; apply Z.mod_pos_bound; lia].
  apply Z.bits_inj'. intros i Hi. rewrite Z.land_spec, Z.testbit_ones_nonneg by lia. destruct (Z.ltb_spec i n); [by rewrite andb_true_r|].
  rewrite andb_false_r. destruct (decide (i < 64)); [|apply word_bits in Hv as [_ ->]; [done|lia]].
  destruct (rev_bits v Hv) as [_ Hb]. replace i with (63 - (63 - i)) by lia. rewrite <- Hb by lia. rewrite E.
  rewrite Z.mod_pow2_bits_low, Z.mul_pow2_bits_low by lia. done.
Qed.

Lemma scan_call d v : dict_ok hash d -> entries d <> [] -> word v -> (dictIsRehashing d = true -> v < size (smaller d)) ->
  exists n es v', 2 <= n <= 31 /\ size (smaller d) = 2 ^ n /\ dictScan d v = Ok (es, v') /\ word v' /\ v' < size (smaller d) /\
    rev v' = (block n v + 1) * 2 ^ (64 - n) mod 2 ^ 64 /\ covers d n v es.
Proof.
  intros Hd Hne Hv Hfit. unfold dictScan. rewrite (dictSize_entries hash d Hd).
  destruct (Z.eqb_spec (Z.of_nat (length (entries d))) 0) as [Hz|Hz]; [destruct (entries d); [done|cbn in *; lia]|].
  pose proof (nonempty_table hash d Hd Hne) as N0. pose proof Hd as [H0 H1 Hr _]. unfold smaller in *.
  destruct (dictIsRehashing d) eqn:Hre; cbn [negb andb] in *.
  - destruct Hr as (_ & _ & N1 & _). specialize (Hfit eq_refl).
    set (sm := if size (ht0 d) >? size (ht1 d) then (ht1 d, ht0 d) else (ht0 d, ht1 d)).
    assert (exists t0 t1, sm = (t0, t1) /\ (if size (ht0 d) >? size (ht1 d) then ht1 d else ht0 d) = t0 /\
      table_ok' t0 /\ table_ok' t1 /\ table t0 <> [] /\ table t1 <> [] /\ size t0 <= size t1 /\
      forall kx, kx ∈ entries d -> kx ∈ concat (table t0) ++ concat (table t1)) as (t0 & t1 & -> & Ht & T0 & T1 & M0 & M1 & Hle & Hent).
    { unfold sm. destruct (Z.gtb_spec (size (ht0 d)) (size (ht1 d))); eexists _, _; split_and!; try done; try lia.
      unfold entries. set_solver. }
    rewrite Ht in *. destruct (table_mask t0 T0 M0) as (n & Hn & Hs & Hm).
    destruct (scan_two t0 t1 n v T0 T1 M0 M1 Hle Hv Hfit Hs Hm Hn) as (b & es & v1 & -> & E & Hw1 & Hbl & Hcov).
    rewrite bind_ok, E, !bind_ok, Hm. destruct (next_cursor n v1 Hw1 ltac:(lia)) as [Hw' Hrev]. rewrite Hbl in Hrev.
    exists n, (b ++ es), (rev (u64 (rev (Z.lor v1 (not64 (Z.ones n))) + 1))). split_and!; try done; [lia|lia| |].
    + rewrite Hs. by eapply cursor_small; [|lia|].
    + intros k x Hin. apply Hcov. by apply Hent.
  - destruct (table_mask (ht0 d) H0 N0) as (n & Hn & Hs & Hm). rewrite Hm.
    destruct (scan_one d n v Hd Hre N0 Hv Hs Hm Hn) as (b & -> & Hcov). rewrite !bind_ok.
    destruct (next_cursor n v Hv ltac:(lia)) as [Hw' Hrev].
    exists n, b, (rev (u64 (rev (Z.lor v (not64 (Z.ones n))) + 1))). split_and!; try done; [lia|lia|].
    rewrite Hs. by eapply cursor_small; [|lia|].
Qed.

(** The sizes of the smaller tables do not decrease. *)
Definition growing (ds : list (dict V)) : Prop := Sorted Z.le (size ∘ smaller <$> ds).

(** A key that is in the dict at every call is returned, or is ahead of the
    cursor. *)
Lemma scan_calls_ok k : forall ds v, Forall (dict_ok hash) ds -> Forall (fun d => k ∈ (entries d).*1) ds -> growing ds ->
  word v -> (forall d, head ds = Some d -> v < size (smaller d)) ->
  exists es v', scan_calls ds v = Ok (es, v') /\ word v' /\
    (ahead (hash k) v -> k ∈ es.*1 \/ (ahead (hash k) v' /\ (v' = 0 -> ds = []))).
Proof.
  induction ds as [|d ds IH]; intros v Hd Hk Hg Hv Hfit; cbn [scan_calls].
  { exists [], v. split_and!; try done. auto. }
  apply Forall_cons in Hd as [Hd Hds]. apply Forall_cons in Hk as [Hkd Hk]. specialize (Hfit d eq_refl).
  destruct (scan_call d v Hd) as (n & es & v1 & Hn & Hs & -> & Hw & Hsm & Hrev & Hcov); [by destruct (entries d); [inversion Hkd|]|done|done|].
  rewrite bind_ok. inversion Hg as [|? ? Hg' Hhd]; subst.
  destruct (IH v1 Hds Hk Hg' Hw) as (es' & v' & E & Hw' & Hah).
  { intros d' Hd'. destruct ds as [|? ds']; [done|]. injection Hd' as ->. inversion Hhd; subst. cbn in *. lia. }
  rewrite E, bind_ok. exists (es ++ es'), v'. split_and!; try done. intros Ha. rewrite fmap_app, elem_of_app.
  apply list_elem_of_fmap in Hkd as ([k' x] & -> & Hin). cbn in *.
  destruct (cursor_advances n (hash k') v v1 (hash_word _) Hv ltac:(lia) Hrev Hw Ha) as [Hb|[Ha1 Hn0]].
  - left; left. apply list_elem_of_fmap. exists (k', x). split; [done|]. by apply Hcov.
  - destruct (Hah Ha1) as [|[Ha' Hz]]; [by left; right|]. right. split; [done|]. intros ->.
    rewrite (Hz eq_refl) in E. by injection E as _ ->.
Qed.

(** A dict that does not change: the cursor after [i] calls. *)
Lemma scan_same d n : dict_ok hash d -> entries d <> [] -> size (smaller d) = 2 ^ n -> 2 <= n <= 31 ->
  forall i j v, 0 <= j -> word v -> rev v = j * 2 ^ (64 - n) -> v < 2 ^ n -> j + Z.of_nat i <= 2 ^ n ->
  exists es v', scan_calls (replicate i d) v = Ok (es, v') /\ word v' /\ rev v' = (j + Z.of_nat i) * 2 ^ (64 - n) mod 2 ^ 64 /\
    forall k x, (k, x) ∈ entries d -> j <= block n (hash k) < j + Z.of_nat i -> (k, x) ∈ es.
Proof.
  intros Hd Hne Hs Hn. pose proof (Z.pow_pos_nonneg 2 (64 - n)) as Hp.
  assert (2 ^ 64 = 2 ^ n * 2 ^ (64 - n)) as H64 by (rewrite <- Z.pow_add_r by lia; f_equal; lia).
  induction i as [|i IH]; intros j v Hj Hv Hrev Hvs Hle; cbn [replicate scan_calls].
  - exists [], v. rewrite Z.add_0_r. split_and!; try done; [|lia]. destruct (rev_bits v Hv) as [Hw _]. rewrite Hrev.
    symmetry. apply Z.mod_small. rewrite <- Hrev. exact Hw.
  - destruct (scan_call d v Hd Hne Hv) as (n' & es & v1 & Hn' & Hs' & -> & Hw & Hsm & Hr1 & Hcov); [lia|]. rewrite bind_ok.
    assert (n' = n) as -> by (apply (Z.pow_inj_r 2); lia).
    assert (block n v = j) as Hbl by (unfold block; rewrite Z.shiftr_div_pow2, Hrev by lia; apply Z.div_mul; lia).
    rewrite Hbl in Hr1. destruct (decide (i = 0%nat)) as [->|Hi].
    + cbn [replicate scan_calls]. rewrite bind_ok. exists (es ++ []), v1. rewrite app_nil_r. split_and!; try done.
      intros k x Hin Hb. apply Hcov; [done|lia].
    + rewrite Z.mod_small in Hr1 by nia. destruct (IH (j + 1) v1) as (es' & v' & -> & Hw' & Hr' & Hc'); [lia|done|done|lia|lia|].
      rewrite bind_ok. exists (es ++ es'), v'. split_and!; [done|done|rewrite Hr'; f_equal; f_equal; lia|].
      intros k x Hin Hb. apply elem_of_app. destruct (decide (block n (hash k) = j)) as [E|]; [left; apply Hcov; [done|lia]|].
      right. apply Hc'; [done|lia].
Qed.
End ScanSpec.
