(* ===== verification/IntSet.v ===== *)
(** * Sets of integers

    Model of src/redis-3.2.5/src/intset.c, the compact representation of a set
    whose members are all integers: a header with the width of an element and the
    number of elements, then the elements in increasing order, each of them a
    little-endian two's complement integer of 2, 4 or 8 bytes.

    The contents of an intset are its bytes, so the operations are the pointer
    arithmetic and the [memcpy] and [memmove] calls of the source, and an access
    outside the allocated block is a fault.  The machine is little-endian: the
    [memrev*ifbe] and [intrev*ifbe] macros are the identity there.  [junk] is what
    [zrealloc] leaves in the bytes it adds. *)
From S2P Require Import Prelude.
From stdpp Require Export sorting.
Open Scope Z_scope.

(** ** Little-endian two's complement integers *)

(** A value converted to a signed integer of [w] bits. *)
Definition sx (w z : Z) : Z := (z + 2 ^ (w - 1)) mod 2 ^ w - 2 ^ (w - 1).

(** The bytes of an integer that is stored in [n] bytes, and back. *)
Fixpoint le_bytes (n : nat) (z : Z) : bytes :=
  match n with
  | O => []
  | S m => z mod 256 :: le_bytes m (z / 256)
  end.

Fixpoint le_nat (bs : bytes) : Z :=
  match bs with
  | [] => 0
  | b :: t => b + 256 * le_nat t
  end.

Definition le_int (bs : bytes) : Z := sx (8 * Z.of_nat (length bs)) (le_nat bs).

(** Read and write of a block at a signed offset. *)
Definition load (m : bytes) (off n : Z) : res bytes :=
  if decide (0 <= off) then mread m (Z.to_nat off) (Z.to_nat n) else Fault OutOfBounds.

Definition store (m : bytes) (off : Z) (d : bytes) : res bytes :=
  if decide (0 <= off) then mwrite m (Z.to_nat off) d else Fault OutOfBounds.

(** [memmove] inside one block. *)
Definition memmove (m : bytes) (dst src n : Z) : res bytes :=
  d ← load m src n; store m dst d.

(** ** The operations *)

Definition INTSET_ENC_INT16 : Z := 2.
Definition INTSET_ENC_INT32 : Z := 4.
Definition INTSET_ENC_INT64 : Z := 8.

Definition sizeof_intset : Z := 8.

Record intset := IntSet {
  is_encoding : Z;
  is_length : Z;
  is_contents : bytes
}.

Definition with_contents (s : intset) (m : bytes) : intset := IntSet (is_encoding s) (is_length s) m.
Definition with_length (s : intset) (n : Z) : intset := IntSet (is_encoding s) (u32 n) (is_contents s).

Definition intsetValueEncoding (v : Z) : Z :=
  if (v <? - 2 ^ 31) || (v >? 2 ^ 31 - 1) then INTSET_ENC_INT64
  else if (v <? - 2 ^ 15) || (v >? 2 ^ 15 - 1) then INTSET_ENC_INT32
  else INTSET_ENC_INT16.

Definition intsetGetEncoded (s : intset) (pos enc : Z) : res Z :=
  let n := if enc =? INTSET_ENC_INT64 then 8 else if enc =? INTSET_ENC_INT32 then 4 else 2 in
  bs ← load (is_contents s) (pos * n) n;
  Ok (le_int bs).

Definition intsetGet' (s : intset) (pos : Z) : res Z :=
  intsetGetEncoded s pos (u8 (is_encoding s)).

Definition intsetSet' (s : intset) (pos value : Z) : res intset :=
  let encoding := is_encoding s in
  let n := if encoding =? INTSET_ENC_INT64 then 8 else if encoding =? INTSET_ENC_INT32 then 4 else 2 in
  m ← store (is_contents s) (pos * n) (le_bytes (Z.to_nat n) value);
  Ok (with_contents s m).

Definition intsetNew : intset := IntSet INTSET_ENC_INT16 0 [].

Section Ops.

Variable junk : Z.

Definition intsetResize (s : intset) (len : Z) : intset :=
  let size := u32 (u32 len * is_encoding s) in
  let n := Z.to_nat size in
  with_contents s (take n (is_contents s) ++ replicate (n - length (is_contents s)) junk).

(** The loop of the binary search: [min], [max], [mid] and [cur] at its end. *)
Fixpoint search_loop (fuel : nat) (s : intset) (value min max mid cur : Z) : res (Z * Z * Z) :=
  if max >=? min then
    match fuel with
    | O => Fault OutOfFuel
    | S f =>
      let mid := s32 (Z.shiftr (u32 (u32 min + u32 max)) 1) in
      cur ← intsetGet' s mid;
      if value >? cur then search_loop f s value (s32 (mid + 1)) max mid cur
      else if value <? cur then search_loop f s value min (s32 (mid - 1)) mid cur
      else Ok (min, mid, cur)
    end
  else Ok (min, mid, cur).

(** Whether the value is found, and the position of the value or the one where it
    can be inserted. *)
Definition intsetSearch (s : intset) (value : Z) : res (bool * Z) :=
  let len := is_length s in
  if len =? 0 then Ok (false, 0) else
  last ← intsetGet' s (s32 (u32 (len - 1)));
  if value >? last then Ok (false, len) else
  first ← intsetGet' s 0;
  if value <? first then Ok (false, 0) else
  '(min, mid, cur) ← search_loop (S (Z.to_nat len)) s value 0 (s32 (u32 (len - 1))) (-1) (-1);
  if value =? cur then Ok (true, u32 mid) else Ok (false, u32 min).

(** The back-to-front loop of the upgrade. *)
Fixpoint upgrade_loop (length : nat) (s : intset) (curenc prepend : Z) : res intset :=
  match length with
  | O => Ok s
  | S k =>
    v ← intsetGetEncoded s (Z.of_nat k) curenc;
    s ← intsetSet' s (Z.of_nat k + prepend) v;
    upgrade_loop k s curenc prepend
  end.

Definition intsetUpgradeAndAdd (s : intset) (value : Z) : res intset :=
  let curenc := u8 (is_encoding s) in
  let newenc := intsetValueEncoding value in
  let length := is_length s in
  let prepend := if value <? 0 then 1 else 0 in
  let s := IntSet newenc (is_length s) (is_contents s) in
  let s := intsetResize s (is_length s + 1) in
  s ← upgrade_loop (Z.to_nat length) s curenc prepend;
  s ← (if negb (prepend =? 0) then intsetSet' s 0 value else intsetSet' s (is_length s) value);
  Ok (with_length s (is_length s + 1)).

Definition intsetMoveTail (s : intset) (from to : Z) : res intset :=
  let bytes := u32 (is_length s - from) in
  let encoding := is_encoding s in
  let n := if encoding =? INTSET_ENC_INT64 then 8 else if encoding =? INTSET_ENC_INT32 then 4 else 2 in
  m ← memmove (is_contents s) (to * n) (from * n) (u32 (bytes * n));
  Ok (with_contents s m).

(** The set and the value of [*success]. *)
Definition intsetAdd (s : intset) (value : Z) : res (intset * bool) :=
  let valenc := intsetValueEncoding value in
  if valenc >? is_encoding s then
    s ← intsetUpgradeAndAdd s value; Ok (s, true)
  else
    '(found, pos) ← intsetSearch s value;
    if (found : bool) then Ok (s, false) else
    let s := intsetResize s (is_length s + 1) in
    s ← (if pos <? is_length s then intsetMoveTail s pos (u32 (pos + 1)) else Ok s);
    s ← intsetSet' s (s32 pos) value;
    Ok (with_length s (is_length s + 1), true).

Definition intsetRemove (s : intset) (value : Z) : res (intset * bool) :=
  let valenc := intsetValueEncoding value in
  if negb (valenc <=? is_encoding s) then Ok (s, false) else
  '(found, pos) ← intsetSearch s value;
  if negb found then Ok (s, false) else
  let len := is_length s in
  s ← (if pos <? u32 (len - 1) then intsetMoveTail s (u32 (pos + 1)) pos else Ok s);
  let s := intsetResize s (len - 1) in
  Ok (with_length s (len - 1), true).

Definition intsetFind (s : intset) (value : Z) : res bool :=
  let valenc := intsetValueEncoding value in
  if negb (valenc <=? is_encoding s) then Ok false else
  '(found, _) ← intsetSearch s value;
  Ok found.

(** [r] is what [rand] returns. *)
Definition intsetRandom (s : intset) (r : Z) : res Z :=
  if is_length s =? 0 then Fault DivByZero else intsetGet' s (s32 (u32 r mod is_length s)).

(** The value at a position, or nothing when the position is out of range. *)
Definition intsetGet (s : intset) (pos : Z) : res (option Z) :=
  if pos <? is_length s then v ← intsetGet' s (s32 pos); Ok (Some v) else Ok None.

Definition intsetLen (s : intset) : Z := is_length s.

Definition intsetBlobLen (s : intset) : Z := u64 (sizeof_intset + u32 (is_length s * is_encoding s)).

End Ops.

(** Two sets from the tests of the source. *)
Example intset_upgrade :
  ('(s, _) ← intsetAdd 77 intsetNew 32; '(s, _) ← intsetAdd 77 s 65535;
   '(s, _) ← intsetAdd 77 s (-4294967295); Ok s)
  = Ok (IntSet 8 3 ([1; 0; 0; 0; 255; 255; 255; 255] ++ [32; 0; 0; 0; 0; 0; 0; 0] ++ [255; 255; 0; 0; 0; 0; 0; 0])).
Proof. vm_compute. reflexivity. Qed.

(** ** Integers in bytes *)

Lemma length_le_bytes n : forall z, length (le_bytes n z) = n.
Proof. induction n; intros; cbn; auto. Qed.

Lemma le_nat_bytes n : forall z, le_nat (le_bytes n z) = z mod 2 ^ (8 * Z.of_nat n).
Proof.
  induction n as [|n IH]; intros z; cbn [le_bytes le_nat].
  - now rewrite Z.mod_1_r.
  - rewrite IH. replace (8 * Z.of_nat (S n)) with (8 + 8 * Z.of_nat n) by lia.
    rewrite Z.pow_add_r by lia. change (2 ^ 8) with 256. rewrite Z.rem_mul_r by lia. reflexivity.
Qed.

Lemma sx_mod w z : sx w (z mod 2 ^ w) = sx w z.
Proof. unfold sx. now rewrite Zplus_mod_idemp_l. Qed.

Lemma sx_small w z : 0 < w -> - 2 ^ (w - 1) <= z < 2 ^ (w - 1) -> sx w z = z.
Proof.
  intros Hw H. unfold sx. assert (2 ^ w = 2 * 2 ^ (w - 1)) as E.
  { rewrite <- Z.pow_succ_r by lia. f_equal. lia. }
  rewrite Z.mod_small; lia.
Qed.

(** A value that an element of [enc] bytes can hold. *)
Definition fits (enc v : Z) : Prop := - 2 ^ (8 * enc - 1) <= v < 2 ^ (8 * enc - 1).

Lemma le_int_bytes n v : (0 < n)%nat -> fits (Z.of_nat n) v -> le_int (le_bytes n v) = v.
Proof.
  intros Hn Hv. unfold le_int. rewrite length_le_bytes, le_nat_bytes, sx_mod.
  apply sx_small; [lia | exact Hv].
Qed.

(** The three widths. *)
Definition enc_ok (enc : Z) : Prop := enc = 2 \/ enc = 4 \/ enc = 8.

Lemma encoding_ok v : enc_ok (intsetValueEncoding v).
Proof. unfold enc_ok, intsetValueEncoding, INTSET_ENC_INT64, INTSET_ENC_INT32, INTSET_ENC_INT16. repeat case_match; lia. Qed.

Lemma encoding_fits enc v : enc_ok enc -> fits 8 v -> intsetValueEncoding v <= enc <-> fits enc v.
Proof.
  intros He Hv. unfold intsetValueEncoding, INTSET_ENC_INT64, INTSET_ENC_INT32, INTSET_ENC_INT16.
  rewrite !Z.gtb_ltb. destruct He as [-> | [-> | ->]]; unfold fits in *; cbn in *;
    repeat case_bool; cbn; lia.
Qed.

Lemma fits_mono a b v : enc_ok a -> a <= b -> fits a v -> fits b v.
Proof.
  intros Ha Hab Hv. assert (2 ^ (8 * a - 1) <= 2 ^ (8 * b - 1)).
  { apply Z.pow_le_mono_r; destruct Ha; lia. }
  unfold fits in *. lia.
Qed.

Lemma elem_size enc : enc_ok enc ->
  (if enc =? INTSET_ENC_INT64 then 8 else if enc =? INTSET_ENC_INT32 then 4 else 2) = enc.
Proof. intros [-> | [-> | ->]]; reflexivity. Qed.

(** ** Blocks of elements *)

(** The bytes of a list of elements of [n] bytes each. *)
Definition elems (n : nat) (l : list Z) : bytes := l ≫= le_bytes n.

Lemma elems_app n l k : elems n (l ++ k) = elems n l ++ elems n k.
Proof. apply bind_app. Qed.

Lemma elems_cons n v l : elems n (v :: l) = le_bytes n v ++ elems n l.
Proof. reflexivity. Qed.

Lemma length_elems n l : length (elems n l) = (length l * n)%nat.
Proof. induction l; cbn; [done|]. rewrite length_app, length_le_bytes. unfold elems in IHl. lia. Qed.

Lemma take_elems n i l : take (i * n) (elems n l) = elems n (take i l).
Proof.
  rewrite <- (take_drop i l) at 1. rewrite elems_app.
  destruct (decide (i <= length l)%nat).
  - rewrite take_app_le by (rewrite length_elems, length_take; nia).
    apply take_ge. rewrite length_elems, length_take. nia.
  - rewrite take_ge by (rewrite length_app, !length_elems, length_take, length_drop; nia).
    rewrite drop_ge by lia. apply app_nil_r.
Qed.

Lemma drop_elems n i l : drop (i * n) (elems n l) = elems n (drop i l).
Proof.
  destruct (decide (i <= length l)%nat).
  - rewrite <- (take_drop i l) at 1. rewrite elems_app.
    apply drop_app_length'. rewrite length_elems, length_take. nia.
  - rewrite !drop_ge; [done | lia | rewrite length_elems; nia].
Qed.

Lemma mread_mid a d b off n : off = length a -> n = length d -> mread (a ++ d ++ b) off n = Ok d.
Proof.
  intros -> ->. rewrite mread_ok by len_lia. by rewrite drop_app_length, take_app_length.
Qed.

Lemma mwrite_mid a x b off d : off = length a -> length d = length x -> mwrite (a ++ x ++ b) off d = Ok (a ++ d ++ b).
Proof.
  intros -> H. rewrite mwrite_ok by len_lia. rewrite take_app_length. do 2 f_equal.
  rewrite H, app_assoc. f_equal. apply drop_app_length'. len_lia.
Qed.

Lemma load_mid a d b off n : off = Z.of_nat (length a) -> n = Z.of_nat (length d) -> load (a ++ d ++ b) off n = Ok d.
Proof. intros -> ->. unfold load. rewrite decide_True by lia. apply mread_mid; lia. Qed.

Lemma store_mid a x b off d :
  off = Z.of_nat (length a) -> length d = length x -> store (a ++ x ++ b) off d = Ok (a ++ d ++ b).
Proof. intros -> H. unfold store. rewrite decide_True by lia. apply mwrite_mid; [lia | done]. Qed.

Lemma elems_split n l i v : l !! i = Some v ->
  elems n l = elems n (take i l) ++ le_bytes n v ++ elems n (drop (S i) l).
Proof.
  intros H. rewrite <- (take_drop_middle l i v H) at 1. by rewrite elems_app.
Qed.

(** ** The representation *)

(** The set [s] holds the elements of [l], which are in increasing order. *)
Record holds (s : intset) (l : list Z) : Prop := {
  h_enc : enc_ok (is_encoding s);
  h_len : is_length s = Z.of_nat (length l);
  h_bytes : is_contents s = elems (Z.to_nat (is_encoding s)) l;
  h_fits : Forall (fits (is_encoding s)) l;
  h_sorted : StronglySorted Z.lt l
}.

(** The sizes for which no 32-bit length or position wraps. *)
Definition INTSET_MAX : Z := 2 ^ 28.

Lemma enc_pos enc : enc_ok enc -> 0 < enc <= 8.
Proof. unfold enc_ok. lia. Qed.

Lemma get_encoded_ok s enc l rest i v :
  enc_ok enc -> is_contents s = elems (Z.to_nat enc) l ++ rest -> l !! i = Some v -> fits enc v ->
  intsetGetEncoded s (Z.of_nat i) enc = Ok v.
Proof.
  intros He Hc Hi Hv. unfold intsetGetEncoded. pose proof (enc_pos enc He). rewrite elem_size, Hc by done.
  rewrite (elems_split _ l i v Hi), <- !app_assoc.
  assert (i < length l)%nat by (eapply lookup_lt_Some; eauto).
  rewrite load_mid by (rewrite ?length_elems, ?length_take, ?length_le_bytes; nia).
  rewrite bind_ok, le_int_bytes; [done | lia|]. by rewrite Z2Nat.id by lia.
Qed.

Lemma set_ok s a x b pos v :
  enc_ok (is_encoding s) -> is_contents s = a ++ x ++ b -> Z.of_nat (length x) = is_encoding s ->
  Z.of_nat (length a) = pos * is_encoding s ->
  intsetSet' s pos v = Ok (with_contents s (a ++ le_bytes (Z.to_nat (is_encoding s)) v ++ b)).
Proof.
  intros He Hc Hx Ha. unfold intsetSet'. rewrite elem_size by done. rewrite Hc.
  rewrite store_mid; [done | lia | rewrite length_le_bytes; lia].
Qed.

Section Held.

Context (s : intset) (l : list Z).
Hypothesis H : holds s l.
Hypothesis Hmax : Z.of_nat (length l) < INTSET_MAX.

Lemma get_ok i v : l !! i = Some v -> intsetGet' s (Z.of_nat i) = Ok v.
Proof.
  intros Hi. unfold intsetGet'. destruct H as [He Hl Hb Hf Hs].
  replace (u8 (is_encoding s)) with (is_encoding s) by (destruct He as [-> | [-> | ->]]; reflexivity).
  apply (get_encoded_ok s _ l [] i v); auto.
  - by rewrite app_nil_r.
  - rewrite Forall_lookup in Hf. eauto.
Qed.

Lemma get_okZ z v : 0 <= z -> l !! Z.to_nat z = Some v -> intsetGet' s z = Ok v.
Proof. intros Hz Hi. rewrite <- (Z2Nat.id z Hz). by apply get_ok. Qed.

Lemma sorted_lookup i j a b : l !! i = Some a -> l !! j = Some b -> (i < j)%nat -> a < b.
Proof.
  intros Hi Hj Hij. pose proof (h_sorted _ _ H) as Hs. rewrite <- (take_drop (S i) l) in Hs.
  eapply (StronglySorted_app_1_elem_of _ _ _ _ _ Hs).
  - apply list_elem_of_lookup. exists i. by rewrite lookup_take_lt by lia.
  - apply list_elem_of_lookup. exists (j - S i)%nat. rewrite lookup_drop. rewrite <- Hj. f_equal. lia.
Qed.

(** The loop keeps the value between the elements left of [min] and those right of
    [max], and it ends because every turn makes the interval smaller. *)
Lemma search_loop_ok v fuel : forall min max mid cur,
  0 <= min <= max + 1 -> max < Z.of_nat (length l) -> max - min + 1 < Z.of_nat fuel ->
  (forall i a, l !! i = Some a -> Z.of_nat i < min -> a < v) ->
  (forall i a, l !! i = Some a -> max < Z.of_nat i -> v < a) ->
  cur <> v \/ min <= max ->
  exists min' mid' cur', search_loop fuel s v min max mid cur = Ok (min', mid', cur') /\
    ((cur' = v /\ 0 <= mid' /\ l !! Z.to_nat mid' = Some v) \/
     (cur' <> v /\ 0 <= min' <= Z.of_nat (length l) /\
      (forall i a, l !! i = Some a -> Z.of_nat i < min' -> a < v) /\
      (forall i a, l !! i = Some a -> min' <= Z.of_nat i -> v < a))).
Proof.
  induction fuel as [|f IH]; intros min max mid cur Hm Hx Hf Hlo Hhi Hcur; cbn [search_loop];
    rewrite Z.geb_leb; (destruct (Z.leb_spec min max);
      [ | exists min, mid, cur; split; [done | right; split; [lia | split; [lia | split; [done|]]]];
          intros i a Ha Hi; apply (Hhi i a Ha); lia ]).
  { lia. }
  unfold INTSET_MAX in Hmax. rewrite (u32_small min), (u32_small max), (u32_small (min + max)) by lia.
  rewrite Z.shiftr_div_pow2 by lia. change (2 ^ 1) with 2.
  set (m := (min + max) / 2). assert (min <= m <= max) as Hmid by (unfold m; split; [apply Z.div_le_lower_bound | apply Z.div_le_upper_bound]; lia).
  rewrite (s32_small m) by lia. clearbody m.
  destruct (lookup_lt_is_Some_2 l (Z.to_nat m)) as [c Hc]; [lia|].
  rewrite (get_okZ m c) by (lia || done). rewrite bind_ok.
  rewrite Z.gtb_ltb. destruct (Z.ltb_spec c v) as [Hcv|Hcv].
  - rewrite s32_small by lia. apply IH; try lia; [|done].
    intros i a Ha Hi. destruct (decide (i = Z.to_nat m)) as [-> | Hne]; [congruence|].
    assert (a < c) by (apply (sorted_lookup i (Z.to_nat m)); [done | done | lia]). lia.
  - destruct (Z.ltb_spec v c) as [Hvc|Hvc].
    + rewrite s32_small by lia. apply IH; try lia; [done|].
      intros i a Ha Hi. destruct (decide (i = Z.to_nat m)) as [-> | Hne]; [congruence|].
      assert (c < a) by (apply (sorted_lookup (Z.to_nat m) i); [done | done | lia]). lia.
    + exists min, m, c. split; [done|]. left. replace v with c in * by lia. auto with lia.
Qed.

Lemma Forall_take_at (P : Z -> Prop) n :
  (forall i a, l !! i = Some a -> Z.of_nat i < Z.of_nat n -> P a) -> Forall P (take n l).
Proof. intros HP. rewrite Forall_lookup. intros i a [Ha Hi]%lookup_take_Some. apply (HP i); auto with lia. Qed.

Lemma Forall_drop_at (P : Z -> Prop) n :
  (forall i a, l !! i = Some a -> Z.of_nat n <= Z.of_nat i -> P a) -> Forall P (drop n l).
Proof. intros HP. rewrite Forall_lookup. intros i a Ha. rewrite lookup_drop in Ha. apply (HP _ _ Ha). lia. Qed.

(** The search returns the position of the value or its place in the order. *)
Lemma search_ok v : exists (found : bool) l1 l2,
  intsetSearch s v = Ok (found, Z.of_nat (length l1)) /\
  l = l1 ++ (if found then [v] else []) ++ l2 /\ Forall (fun a => a < v) l1 /\ Forall (Z.lt v) l2.
Proof.
  unfold intsetSearch. rewrite (h_len _ _ H). unfold INTSET_MAX in Hmax.
  destruct (Z.eqb_spec (Z.of_nat (length l)) 0) as [E|E].
  { exists false, [], []. rewrite (nil_length_inv l) by lia. auto. }
  rewrite u32_small, s32_small by lia.
  destruct (lookup_lt_is_Some_2 l (length l - 1)) as [last Hlast]; [lia|].
  rewrite (get_okZ (Z.of_nat (length l) - 1) last) by first [lia | by replace (Z.to_nat _) with (length l - 1)%nat by lia]. rewrite bind_ok, Z.gtb_ltb.
  destruct (Z.ltb_spec last v).
  { exists false, l, []. rewrite app_nil_r. split_and!; try done.
    rewrite <- (firstn_all l). apply Forall_take_at. intros i a Ha Hi.
    destruct (decide (i = length l - 1)%nat) as [-> | Hne]; [congruence|].
    assert (a < last) by (eapply (sorted_lookup i); [done | done | lia]). lia. }
  destruct (lookup_lt_is_Some_2 l 0) as [first Hfirst]; [lia|].
  rewrite (get_okZ 0 first) by (lia || done). rewrite bind_ok.
  destruct (Z.ltb_spec v first).
  { exists false, [], l. split_and!; try done. rewrite <- (drop_0 l). apply Forall_drop_at. intros i a Ha Hi.
    destruct (decide (i = 0)%nat) as [-> | Hne]; [congruence|].
    assert (first < a) by (eapply (sorted_lookup 0 i); [done | done | lia]). lia. }
  destruct (search_loop_ok v (S (Z.to_nat (Z.of_nat (length l)))) 0 (Z.of_nat (length l) - 1) (-1) (-1))
    as (min & mid & cur & -> & [(-> & Hm & Hv) | (Hc & Hm & Hlo & Hhi)]); try lia.
  { intros i a Ha Hi. apply lookup_lt_Some in Ha. lia. }
  - rewrite bind_ok, Z.eqb_refl. assert (Z.to_nat mid < length l)%nat by (eapply lookup_lt_Some; eauto).
    exists true, (take (Z.to_nat mid) l), (drop (S (Z.to_nat mid)) l). rewrite length_take, u32_small by lia.
    split_and!; [do 2 f_equal; lia | symmetry; by apply take_drop_middle | |].
    + apply Forall_take_at. intros i a Ha Hi. apply (sorted_lookup i (Z.to_nat mid)); [done | done | lia].
    + apply Forall_drop_at. intros i a Ha Hi. apply (sorted_lookup (Z.to_nat mid) i); [done | done | lia].
  - rewrite bind_ok. destruct (Z.eqb_spec v cur) as [|_]; [congruence|].
    exists false, (take (Z.to_nat min) l), (drop (Z.to_nat min) l). rewrite length_take, u32_small by lia.
    split_and!; [do 2 f_equal; lia | symmetry; apply take_drop | |].
    + apply Forall_take_at. intros i a Ha Hi. apply (Hlo i); [done | lia].
    + apply Forall_drop_at. intros i a Ha Hi. apply (Hhi i); [done | lia].
Qed.

End Held.

(** The elements of an intset, read one by one. *)
Definition intset_elems (s : intset) : list Z :=
  let n := Z.to_nat (is_encoding s) in
  (fun i => le_int (take n (drop (i * n) (is_contents s)))) <$> seq 0 (Z.to_nat (is_length s)).

Lemma holds_elems s l : holds s l -> intset_elems s = l.
Proof.
  intros [He Hl Hc Hf Hs]. unfold intset_elems. rewrite Hl, Hc, Nat2Z.id. pose proof (enc_pos _ He).
  apply list_eq. intros i. rewrite list_lookup_fmap. destruct (decide (i < length l)%nat) as [Hi|Hi].
  - rewrite lookup_seq_lt by done. destruct (lookup_lt_is_Some_2 l i Hi) as [v Hv]. rewrite Hv. cbn. f_equal.
    rewrite drop_elems, (drop_S l v i Hv), elems_cons, take_app_length' by (by rewrite length_le_bytes).
    apply le_int_bytes; [lia|]. rewrite Z2Nat.id by lia. rewrite Forall_lookup in Hf. eauto.
  - rewrite lookup_seq_ge, lookup_ge_None_2 by lia. done.
Qed.

(** ** Changes of the size *)

Section Change.

Variable junk : Z.

(** A block that grows keeps its bytes; one that shrinks keeps the first ones. *)
Lemma resize_grows s n k : 0 <= n < INTSET_MAX -> enc_ok (is_encoding s) ->
  Z.of_nat (length (is_contents s)) + Z.of_nat k = n * is_encoding s ->
  intsetResize junk s n = with_contents s (is_contents s ++ replicate k junk).
Proof.
  unfold INTSET_MAX. intros Hn He Hk. pose proof (enc_pos _ He). unfold intsetResize.
  rewrite !u32_small by (rewrite ?u32_small; nia). rewrite take_ge by lia. do 3 f_equal. lia.
Qed.

Lemma resize_shrinks s n a b : 0 <= n < INTSET_MAX -> enc_ok (is_encoding s) ->
  is_contents s = a ++ b -> Z.of_nat (length a) = n * is_encoding s ->
  intsetResize junk s n = with_contents s a.
Proof.
  unfold INTSET_MAX. intros Hn He Hc Ha. pose proof (enc_pos _ He). unfold intsetResize.
  rewrite !u32_small by (rewrite ?u32_small; nia). rewrite <- Ha, Hc, Nat2Z.id, take_app_length, length_app.
  replace (_ - _)%nat with 0%nat by lia. cbn. by rewrite app_nil_r.
Qed.

(** The loop of the upgrade: the elements from [k] on are written with the new
    width, those before it are still there with the old width. *)
Lemma upgrade_loop_ok cur (pre : bool) l tail : enc_ok cur -> Forall (fits cur) l -> forall k s gap,
  enc_ok (is_encoding s) -> cur <= is_encoding s -> (k <= length l)%nat ->
  is_contents s = elems (Z.to_nat cur) (take k l) ++ gap ++ elems (Z.to_nat (is_encoding s)) (drop k l) ++ tail ->
  Z.of_nat (length gap) + Z.of_nat k * cur = (Z.of_nat k + (if pre then 1 else 0)) * is_encoding s ->
  exists gap', upgrade_loop k s cur (if pre then 1 else 0) =
      Ok (with_contents s (gap' ++ elems (Z.to_nat (is_encoding s)) l ++ tail)) /\
    Z.of_nat (length gap') = (if pre then is_encoding s else 0).
Proof.
  intros Hcur Hl. pose proof (enc_pos _ Hcur). induction k as [|k IH]; intros s gap He Hle Hk Hc Hg.
  { rewrite drop_0 in Hc. exists gap. cbn [upgrade_loop]. destruct s as [en ln m]; cbn in *. subst m. split; [done | destruct pre; lia]. }
  cbn [upgrade_loop]. pose proof (enc_pos _ He) as Hp. set (n := is_encoding s) in *.
  destruct (lookup_lt_is_Some_2 l k) as [v Hv]; [lia|].
  rewrite (get_encoded_ok s cur (take (S k) l) _ k v Hcur Hc); [|by rewrite lookup_take_lt by lia |
    rewrite Forall_lookup in Hl; eauto]. rewrite bind_ok.
  rewrite (take_S_r l k v Hv), elems_app in Hc.
  set (old := elems (Z.to_nat cur) [v] ++ gap) in *.
  assert (Z.of_nat (length old) = cur + Z.of_nat (length gap)) as Hold.
  { unfold old, elems. cbn. rewrite !length_app, length_le_bytes. cbn. lia. }
  set (m := (length old - Z.to_nat n)%nat).
  rewrite (set_ok s (elems (Z.to_nat cur) (take k l) ++ take m old) (drop m old)
    (elems (Z.to_nat n) (drop (S k) l) ++ tail) _ v He).
  - rewrite bind_ok. match goal with |- context [upgrade_loop k ?t] => destruct (IH t (take m old)) as (gap' & Heq & Hlen) end;
      [done | done | lia | | | exists gap'; split; [exact Heq | exact Hlen]].
    + cbn [with_contents is_contents is_encoding]. fold n. by rewrite (drop_S l v k Hv), elems_cons, <- !app_assoc.
    + cbn [with_contents is_encoding]. fold n. rewrite length_take. destruct pre; nia.
  - rewrite Hc, <- !app_assoc. f_equal. rewrite !(app_assoc (take m old)), take_drop. unfold old. by rewrite <- !app_assoc.
  - rewrite length_drop. destruct pre; nia.
  - rewrite length_app, length_elems, !length_take. fold n. destruct pre; nia.
Qed.

(** A value that the width cannot hold is beyond all the elements. *)
Lemma unfit_beyond s l v : holds s l -> fits 8 v -> is_encoding s < intsetValueEncoding v ->
  if v <? 0 then Forall (Z.lt v) l else Forall (fun a => a < v) l.
Proof.
  intros H Hv Hlt. pose proof (h_fits _ _ H) as Hf.
  assert (~ fits (is_encoding s) v) as Hn.
  { rewrite <- encoding_fits by (done || apply H). lia. }
  assert (0 < 2 ^ (8 * is_encoding s - 1)) by (apply Z.pow_pos_nonneg; pose proof (enc_pos _ (h_enc _ _ H)); lia).
  unfold fits in *. destruct (Z.ltb_spec v 0); (eapply Forall_impl; [exact Hf | intros a Ha; cbn in Ha; lia]).
Qed.

Lemma upgrade_ok s l v : holds s l -> Z.of_nat (length l) + 1 < INTSET_MAX -> fits 8 v ->
  is_encoding s < intsetValueEncoding v ->
  exists s', intsetUpgradeAndAdd junk s v = Ok s' /\ is_encoding s' = intsetValueEncoding v /\
    holds s' (if v <? 0 then v :: l else l ++ [v]).
Proof.
  intros H Hmax Hv Hlt. pose proof (unfit_beyond s l v H Hv Hlt) as Hb. destruct H as [He Hl Hc Hf Hs].
  assert (Hmax' := Hmax). unfold INTSET_MAX in Hmax'.
  unfold intsetUpgradeAndAdd. pose proof (encoding_ok v) as Hn. pose proof (enc_pos _ He). pose proof (enc_pos _ Hn).
  set (n := intsetValueEncoding v) in *. replace (u8 (is_encoding s)) with (is_encoding s)
    by (destruct He as [-> | [-> | ->]]; reflexivity).
  pose proof (length_elems (Z.to_nat (is_encoding s)) l) as Hle. rewrite <- Hc in Hle.
  rewrite (resize_grows _ _ (Z.to_nat ((is_length s + 1) * n - is_length s * is_encoding s))) by (done || cbn; nia).
  unfold with_contents at 1. cbn [is_contents is_encoding is_length]. rewrite Hl.
  set (extra := replicate _ junk). rewrite Nat2Z.id.
  assert (Z.of_nat (length extra) = (Z.of_nat (length l) + 1) * n - Z.of_nat (length l) * is_encoding s) as Hx.
  { unfold extra. rewrite length_replicate. nia. }
  assert (fits n v) as Hfv by (apply encoding_fits; [done | done | unfold n; lia]).
  assert (Forall (fits n) l) as Hfl by (eapply Forall_impl; [exact Hf | intros a Ha; eapply fits_mono; [exact He | | exact Ha]; lia]).
  set (pre := v <? 0) in *.
  set (t := IntSet n (Z.of_nat (length l)) (is_contents s ++ extra)).
  set (gap := if pre then extra else take (length extra - Z.to_nat n) extra).
  set (tail := if pre then [] else drop (length extra - Z.to_nat n) extra).
  assert (gap ++ tail = extra) as Hgt by (unfold gap, tail; destruct pre; [apply app_nil_r | apply take_drop]).
  destruct (upgrade_loop_ok (is_encoding s) pre l tail He Hf (length l) t gap) as (gap' & -> & Hgap'); try done.
  { cbn. lia. }
  { cbn. rewrite take_ge, drop_ge, Hc by lia. cbn. by rewrite Hgt. }
  { cbn. unfold gap. destruct pre; rewrite ?length_take; nia. }
  rewrite bind_ok. unfold with_contents. cbn [t is_contents is_encoding is_length] in *.
  assert (Z.of_nat (length tail) = if pre then 0 else n) as Htail.
  { unfold tail. destruct pre; cbn; [lia|]. rewrite length_drop. nia. }
  clearbody gap tail. destruct pre.
  - change (negb (1 =? 0)) with true. cbv iota.
    rewrite (set_ok _ [] gap' (elems (Z.to_nat n) l ++ tail) 0 v) by (done || cbn; lia). rewrite bind_ok.
    eexists. split; [reflexivity|]. split; [done|]. cbn [with_length with_contents is_contents is_encoding is_length].
    rewrite (nil_length_inv tail), app_nil_r by lia.
    constructor; cbn; [done | rewrite u32_small; lia | done | by constructor | by constructor].
  - change (negb (0 =? 0)) with false. cbv iota.
    rewrite (set_ok _ (gap' ++ elems (Z.to_nat n) l) tail [] _ v);
      [|done | cbn; by rewrite app_nil_r, <- app_assoc | cbn; lia | cbn; rewrite length_app, length_elems; nia].
    rewrite bind_ok. eexists. split; [reflexivity|]. split; [done|].
    cbn [with_length with_contents is_contents is_encoding is_length]. rewrite (nil_length_inv gap') by lia.
    constructor; cbn; [done | rewrite length_app; cbn; rewrite u32_small; lia | | |].
    + by rewrite elems_app.
    + apply Forall_app. auto.
    + apply StronglySorted_app. split_and!; [|done | repeat constructor].
      intros a b Ha ->%list_elem_of_singleton. rewrite Forall_forall in Hb. by apply Hb.
Qed.

(** The tail from [from] on moves to [to]: [a], [x] and [b] are the blocks in
    front of the destination, those that it overwrites, and the ones after. *)
Lemma move_tail_ok s from to a d a' x b :
  enc_ok (is_encoding s) -> 0 <= from <= is_length s -> is_length s < INTSET_MAX ->
  is_contents s = a ++ d ++ b -> Z.of_nat (length a) = from * is_encoding s ->
  Z.of_nat (length d) = (is_length s - from) * is_encoding s ->
  forall b', is_contents s = a' ++ x ++ b' -> Z.of_nat (length a') = to * is_encoding s -> length x = length d ->
  intsetMoveTail s from to = Ok (with_contents s (a' ++ d ++ b')).
Proof.
  unfold INTSET_MAX. intros He Hf Hm Hc Ha Hd b' Hc' Ha' Hx. pose proof (enc_pos _ He). unfold intsetMoveTail.
  rewrite elem_size by done. rewrite !u32_small by (rewrite ?u32_small; nia).
  unfold memmove. rewrite Hc at 1. rewrite load_mid by lia. rewrite bind_ok, Hc'.
  rewrite store_mid by lia. reflexivity.
Qed.

Lemma sorted_insert l1 l2 v : StronglySorted Z.lt (l1 ++ l2) ->
  Forall (fun a => a < v) l1 -> Forall (Z.lt v) l2 -> StronglySorted Z.lt (l1 ++ v :: l2).
Proof.
  rewrite !StronglySorted_app, StronglySorted_cons, !Forall_forall. intros (H12 & H1 & H2) Hl Hr. split_and!; auto.
  intros a b Ha [-> | Hb]%elem_of_cons; auto.
Qed.

Lemma sorted_remove l1 l2 v : StronglySorted Z.lt (l1 ++ v :: l2) -> StronglySorted Z.lt (l1 ++ l2).
Proof.
  rewrite !StronglySorted_app, StronglySorted_cons. intros (H12 & H1 & _ & H2). split_and!; auto.
  intros a b Ha Hb. apply H12; [done|]. by apply list_elem_of_further.
Qed.

Lemma insert_ok s l1 l2 v :
  holds s (l1 ++ l2) -> Z.of_nat (length (l1 ++ l2)) + 1 < INTSET_MAX -> fits (is_encoding s) v ->
  Forall (fun a => a < v) l1 -> Forall (Z.lt v) l2 ->
  let s1 := intsetResize junk s (is_length s + 1) in
  exists s', (s2 ← (if Z.of_nat (length l1) <? is_length s1
                      then intsetMoveTail s1 (Z.of_nat (length l1)) (u32 (Z.of_nat (length l1) + 1)) else Ok s1);
              s2 ← intsetSet' s2 (s32 (Z.of_nat (length l1))) v;
              Ok (with_length s2 (is_length s2 + 1))) = Ok s' /\
    is_encoding s' = is_encoding s /\ holds s' (l1 ++ v :: l2).
Proof.
  intros [He Hl Hc Hf Hs] Hmax Hv H1 H2 s1. assert (Hmax' := Hmax). unfold INTSET_MAX in Hmax'.
  rewrite length_app in *. pose proof (enc_pos _ He) as Hp. set (n := is_encoding s) in *.
  assert (s1 = with_contents s (elems (Z.to_nat n) (l1 ++ l2) ++ replicate (Z.to_nat n) junk)) as ->.
  { unfold s1. rewrite (resize_grows _ _ (Z.to_nat n)); [by rewrite Hc | lia | done |].
    rewrite Hc, length_elems, length_app. fold n. nia. }
  unfold with_contents. cbn [is_length]. rewrite Hl, u32_small, s32_small by lia. fold n. rewrite elems_app.
  set (t := IntSet n _ _).
  assert (exists x, length x = Z.to_nat n /\
    (if Z.of_nat (length l1) <? Z.of_nat (length l1 + length l2)
     then intsetMoveTail t (Z.of_nat (length l1)) (Z.of_nat (length l1) + 1) else Ok t)
    = Ok (with_contents t (elems (Z.to_nat n) l1 ++ x ++ elems (Z.to_nat n) l2))) as (x & Hx & ->).
  { set (jk := replicate (Z.to_nat n) junk) in *. assert (length jk = Z.to_nat n) by apply length_replicate.
    destruct (Z.ltb_spec (Z.of_nat (length l1)) (Z.of_nat (length l1 + length l2))).
    - set (e2 := elems (Z.to_nat n) l2) in *. assert (length e2 = length l2 * Z.to_nat n)%nat by apply length_elems.
      exists (take (Z.to_nat n) (e2 ++ jk)). split; [rewrite length_take, length_app; lia|].
      rewrite (move_tail_ok t _ _ (elems (Z.to_nat n) l1) e2 (elems (Z.to_nat n) l1 ++ take (Z.to_nat n) (e2 ++ jk))
        (drop (Z.to_nat n) (e2 ++ jk)) jk) with (b' := []); cbn; try done; try lia.
      + by rewrite app_nil_r, <- app_assoc.
      + by rewrite <- app_assoc.
      + rewrite length_elems. nia.
      + by rewrite app_nil_r, <- !app_assoc, take_drop.
      + rewrite length_app, length_elems, length_take, length_app. nia.
      + rewrite length_drop, length_app. lia.
    - exists jk. split; [done|]. rewrite (nil_length_inv l2) by lia. unfold t, with_contents. cbn.
      rewrite (nil_length_inv l2) by lia. cbn. by rewrite !app_nil_r. }
  rewrite bind_ok, (set_ok _ (elems (Z.to_nat n) l1) x (elems (Z.to_nat n) l2)) by (done || cbn; rewrite ?length_elems; nia).
  rewrite bind_ok. eexists. split; [reflexivity|]. split; [done|]. unfold with_length, with_contents. cbn.
  constructor; cbn; fold n; [done | | by rewrite elems_app | | by apply sorted_insert].
  - rewrite u32_small, length_app by lia. cbn. lia.
  - apply Forall_app in Hf. apply Forall_app. split; [apply Hf | constructor; [done | apply Hf]].
Qed.

(** ** What the operations do to the elements *)

Lemma placed_iff (found : bool) l1 l2 v : Forall (fun a => a < v) l1 -> Forall (Z.lt v) l2 ->
  v ∈ l1 ++ (if found then [v] else []) ++ l2 <-> found = true.
Proof.
  rewrite !Forall_forall. intros H1 H2. rewrite !elem_of_app. split.
  - intros [Hv%H1 | [Hv | Hv%H2]]; [lia | | lia]. destruct found; [done | set_solver].
  - intros ->. set_solver.
Qed.

Lemma add_ok s l v : holds s l -> Z.of_nat (length l) + 1 < INTSET_MAX -> fits 8 v ->
  exists s' l', intsetAdd junk s v = Ok (s', bool_decide (v ∉ l)) /\ holds s' l' /\
    is_encoding s' = Z.max (is_encoding s) (intsetValueEncoding v) /\
    (length l' <= length l + 1)%nat /\ (forall x, x ∈ l' <-> x = v \/ x ∈ l).
Proof.
  intros H Hmax Hv. unfold intsetAdd. rewrite Z.gtb_ltb.
  destruct (Z.ltb_spec (is_encoding s) (intsetValueEncoding v)) as [Hlt|Hge].
  - destruct (upgrade_ok s l v H Hmax Hv Hlt) as (s' & -> & He & Hs'). rewrite bind_ok.
    exists s', (if v <? 0 then v :: l else l ++ [v]). split_and!; [|done | lia | |].
    + do 2 f_equal. symmetry. apply bool_decide_eq_true. pose proof (unfit_beyond s l v H Hv Hlt) as Hb.
      intros Hin. destruct (v <? 0); rewrite Forall_forall in Hb; specialize (Hb _ Hin); lia.
    + case_match; len_lia.
    + intros x. case_match; set_solver.
  - destruct (search_ok s l H ltac:(lia) v) as (found & l1 & l2 & -> & -> & H1 & H2). rewrite bind_ok.
    rewrite (bool_decide_ext _ (~ found = true)) by (by rewrite (placed_iff found l1 l2 v H1 H2)).
    destruct found.
    + eexists s, _. split_and!; [done | exact H | lia | lia | set_solver].
    + destruct (insert_ok s l1 l2 v H Hmax) as (s' & E & He & Hs'); [|done | done |].
      { apply encoding_fits; [apply H | done | lia]. }
      exists s', (l1 ++ v :: l2). split_and!; [|done | lia | cbn; len_lia | set_solver].
      cbn zeta in E |- *. apply bind_ok_inv in E as (s2 & -> & E). rewrite bind_ok.
      apply bind_ok_inv in E as (s3 & -> & E). rewrite bind_ok. by injection E as ->.
Qed.

Lemma remove_ok s l v : holds s l -> Z.of_nat (length l) < INTSET_MAX -> fits 8 v ->
  exists s' l', intsetRemove junk s v = Ok (s', bool_decide (v ∈ l)) /\ holds s' l' /\
    is_encoding s' = is_encoding s /\ (length l' <= length l)%nat /\ (forall x, x ∈ l' <-> x <> v /\ x ∈ l).
Proof.
  intros H Hmax Hv. unfold intsetRemove.
  destruct (Z.leb_spec (intsetValueEncoding v) (is_encoding s)) as [Hle|Hgt]; cbn [negb].
  2: { assert (v ∉ l) as Hn.
       { intros Hin. pose proof (h_fits _ _ H) as Hf. rewrite Forall_forall in Hf. specialize (Hf _ Hin).
         apply encoding_fits in Hf; [lia | apply H | done]. }
       exists s, l. rewrite bool_decide_eq_false_2 by done. split_and!; [done | done | done | lia | set_solver]. }
  destruct (search_ok s l H Hmax v) as (found & l1 & l2 & -> & -> & H1 & H2). rewrite bind_ok.
  rewrite (bool_decide_ext _ (found = true)) by (by apply placed_iff).
  destruct found; cbn [negb].
  2: { eexists s, _. split_and!; [done | exact H | done | lia|]. intros x. split; [|set_solver]. intros Hx.
       split; [|done]. intros ->. by apply (placed_iff false l1 l2 v H1 H2) in Hx. }
  destruct H as [He Hl Hc Hf Hs]. pose proof (enc_pos _ He) as Hp. assert (Hmax' := Hmax). unfold INTSET_MAX in Hmax'.
  rewrite Hl. rewrite !length_app in *. cbn [length] in *. set (n := is_encoding s) in *.
  rewrite !elems_app in Hc. pose proof (length_elems (Z.to_nat n) l1). pose proof (length_elems (Z.to_nat n) l2).
  pose proof (length_elems (Z.to_nat n) [v]) as Hv1. cbn [length] in Hv1.
  set (e1 := elems (Z.to_nat n) l1) in *. set (e2 := elems (Z.to_nat n) l2) in *. set (ev := elems (Z.to_nat n) [v]) in *.
  rewrite !u32_small by lia.
  assert (exists x, (if Z.of_nat (length l1) <? Z.of_nat (length l1 + (1 + length l2)) - 1
     then intsetMoveTail s (Z.of_nat (length l1) + 1) (Z.of_nat (length l1)) else Ok s)
    = Ok (with_contents s ((e1 ++ e2) ++ x))) as (x & ->).
  { destruct (Z.ltb_spec (Z.of_nat (length l1)) (Z.of_nat (length l1 + (1 + length l2)) - 1)).
    - set (k := (Z.to_nat n * length l2)%nat). exists (drop k (ev ++ e2)).
      rewrite (move_tail_ok s _ _ (e1 ++ ev) e2 e1 (take k (ev ++ e2)) []) with (b' := drop k (ev ++ e2)); fold n; try done; try lia.
      + by rewrite <- app_assoc.
      + by rewrite Hc, app_nil_r, <- app_assoc.
      + rewrite length_app. nia.
      + by rewrite Hc, take_drop.
      + rewrite length_take, length_app. lia.
    - exists ev. assert (e2 = []) as E2 by (apply nil_length_inv; nia). rewrite E2, app_nil_r in *.
      rewrite <- Hc. by destruct s. }
  rewrite bind_ok, (resize_shrinks _ _ (e1 ++ e2) x); [| unfold INTSET_MAX; lia | done | done | cbn; fold n; rewrite length_app; nia].
  eexists _, (l1 ++ l2). split; [reflexivity|]. split_and!; [|done | len_lia |].
  - constructor; cbn; fold n; [done | rewrite u32_small by lia; len_lia | by rewrite elems_app | |].
    + rewrite !Forall_app in Hf. apply Forall_app. tauto.
    + by eapply sorted_remove.
  - intros x0. rewrite Forall_forall in H1, H2. rewrite !elem_of_app, list_elem_of_singleton. split; [|naive_solver].
    intros [Hx|Hx]; (split; [|auto]); intros ->; [specialize (H1 _ Hx) | specialize (H2 _ Hx)]; lia.
Qed.

End Change.

(** ** The abstract set *)

(** What is done with a set, and what is answered.  A random member is only asked
    of a set that is not empty. *)
Inductive iop :=
  | IAdd (v : Z)
  | IRemove (v : Z)
  | IFind (v : Z)
  | IGet (pos : Z)
  | IRandom (r : Z)
  | ILen
  | IBlobLen.

Inductive iout :=
  | OFlag (b : bool)
  | OMember (o : option Z)
  | OSize (n : Z).

Definition iexec (junk : Z) (s : intset) (op : iop) : res (intset * iout) :=
  match op with
  | IAdd v => '(s, b) ← intsetAdd junk s v; Ok (s, OFlag b)
  | IRemove v => '(s, b) ← intsetRemove junk s v; Ok (s, OFlag b)
  | IFind v => b ← intsetFind s v; Ok (s, OFlag b)
  | IGet pos => o ← intsetGet s pos; Ok (s, OMember o)
  | IRandom r => if intsetLen s =? 0 then Ok (s, OMember None) else v ← intsetRandom s r; Ok (s, OMember (Some v))
  | ILen => Ok (s, OSize (intsetLen s))
  | IBlobLen => Ok (s, OSize (intsetBlobLen s))
  end.

Fixpoint iexecs (junk : Z) (s : intset) (ops : list iop) : res (intset * list iout) :=
  match ops with
  | [] => Ok (s, [])
  | op :: ops =>
    '(s, o) ← iexec junk s op;
    '(s, os) ← iexecs junk s ops;
    Ok (s, o :: os)
  end.

(** The arguments are 64-bit members, 32-bit positions and results of [rand]. *)
Definition iop_ok (op : iop) : Prop :=
  match op with
  | IAdd v | IRemove v | IFind v => fits 8 v
  | IGet pos => 0 <= pos < 2 ^ 32
  | IRandom r => 0 <= r < 2 ^ 31
  | ILen | IBlobLen => True
  end.

(** The abstract state is a finite set of integers, with the width of the widest
    integer that has been added: the representation never narrows. *)
Definition iabs : Type := gset Z * Z.

(** A member with exactly [n] smaller members. *)
Definition ranked (X : gset Z) (n : Z) (v : Z) : Prop :=
  v ∈ X /\ Z.of_nat (size (filter (fun a => a < v) X)) = n.

Definition ispec (A : iabs) (op : iop) (o : iout) (B : iabs) : Prop :=
  let '(X, w) := A in
  match op with
  | IAdd v => o = OFlag (bool_decide (v ∉ X)) /\ B = ({[v]} ∪ X, Z.max w (intsetValueEncoding v))
  | IRemove v => o = OFlag (bool_decide (v ∈ X)) /\ B = (X ∖ {[v]}, w)
  | IFind v => o = OFlag (bool_decide (v ∈ X)) /\ B = A
  | IGet pos =>
    B = A /\ if pos <? Z.of_nat (size X) then exists v, o = OMember (Some v) /\ ranked X pos v else o = OMember None
  | IRandom r =>
    B = A /\ if decide (X = ∅) then o = OMember None
             else exists v, o = OMember (Some v) /\ ranked X (r mod Z.of_nat (size X)) v
  | ILen => o = OSize (Z.of_nat (size X)) /\ B = A
  | IBlobLen => o = OSize (sizeof_intset + Z.of_nat (size X) * w) /\ B = A
  end.

Fixpoint ispecs (A : iabs) (ops : list iop) (os : list iout) (B : iabs) : Prop :=
  match ops, os with
  | [], [] => A = B
  | op :: ops, o :: os => exists C, ispec A op o C /\ ispecs C ops os B
  | _, _ => False
  end.

(** The simulation relation. *)
Definition simulates (s : intset) (A : iabs) : Prop :=
  exists l, holds s l /\ A = (list_to_set l, is_encoding s).

Lemma sorted_nodup l : StronglySorted Z.lt l -> NoDup l.
Proof.
  induction 1 as [|a l Hl IH Ha]; constructor; [|done].
  intros Hin. rewrite Forall_forall in Ha. specialize (Ha _ Hin). lia.
Qed.

Lemma holds_size s l : holds s l -> size (list_to_set l : gset Z) = length l.
Proof. intros H. apply size_list_to_set, sorted_nodup, H. Qed.

Lemma holds_ranked s l i v : holds s l -> l !! i = Some v -> ranked (list_to_set l) (Z.of_nat i) v.
Proof.
  intros H Hi. pose proof (h_sorted _ _ H) as Hs. split; [rewrite elem_of_list_to_set; by eapply list_elem_of_lookup_2|].
  f_equal. rewrite <- (take_drop_middle l i v Hi) in Hs |- *.
  assert (length (take i l) = i) as El by (rewrite length_take; apply lookup_lt_Some in Hi; lia).
  apply StronglySorted_app in Hs as (H12 & H1 & H2). etrans; [|exact El]. rewrite <- (size_list_to_set (C:=gset Z) (take i l)) by (by apply sorted_nodup).
  f_equal. apply set_eq. intros x. rewrite elem_of_filter, !elem_of_list_to_set, elem_of_app, elem_of_cons.
  apply StronglySorted_cons in H2 as [H2 _]. rewrite Forall_forall in H2. split.
  - intros (Hx & [Hx' | [-> | Hx'%H2]]); [done | lia | lia].
  - intros Hx. split; [|auto]. apply H12; [done | constructor].
Qed.

Lemma find_ok s l v : holds s l -> Z.of_nat (length l) < INTSET_MAX -> fits 8 v ->
  intsetFind s v = Ok (bool_decide (v ∈ l)).
Proof.
  intros H Hmax Hv. unfold intsetFind.
  destruct (Z.leb_spec (intsetValueEncoding v) (is_encoding s)) as [Hle|Hgt]; cbn [negb].
  - destruct (search_ok s l H Hmax v) as (found & l1 & l2 & -> & -> & H1 & H2). rewrite bind_ok. f_equal.
    rewrite (bool_decide_ext _ (found = true)) by (by apply placed_iff). by destruct found.
  - rewrite bool_decide_eq_false_2; [done|]. intros Hin.
    pose proof (h_fits _ _ H) as Hf. rewrite Forall_forall in Hf. specialize (Hf _ Hin).
    apply encoding_fits in Hf; [lia | apply H | done].
Qed.

Lemma member_ok s l i : holds s l -> Z.of_nat (length l) < INTSET_MAX -> 0 <= i < Z.of_nat (length l) ->
  exists v, intsetGet' s (s32 i) = Ok v /\ ranked (list_to_set l) i v.
Proof.
  intros H Hmax Hi. unfold INTSET_MAX in Hmax. rewrite s32_small by lia.
  destruct (lookup_lt_is_Some_2 l (Z.to_nat i)) as [v Hv]; [lia|]. exists v.
  split; [apply (get_okZ s l H); [lia | done]|]. rewrite <- (Z2Nat.id i) by lia. by eapply holds_ranked.
Qed.

(** One operation. *)
Lemma iexec_ok junk s A op : simulates s A -> Z.of_nat (size A.1) + 1 < INTSET_MAX -> iop_ok op ->
  exists s' o B, iexec junk s op = Ok (s', o) /\ ispec A op o B /\ simulates s' B /\ (size B.1 <= size A.1 + 1)%nat.
Proof.
  intros (l & H & ->) Hmax Hop. pose proof (holds_size s l H) as Hsz. cbn [fst] in *. rewrite Hsz in *.
  assert (simulates s (list_to_set l, is_encoding s)) as Hsame by (exists l; auto).
  assert (Hmax' := Hmax). unfold INTSET_MAX in Hmax'.
  destruct op as [v | v | v | pos | r | |]; cbn [iexec ispec iop_ok] in *; rewrite ?Hsz; unfold intsetLen.
  - destruct (add_ok junk s l v H Hmax Hop) as (s' & l' & -> & H' & He & Hlen & Hin).
    exists s', (OFlag (bool_decide (v ∉ (list_to_set l : gset Z)))), (list_to_set l', is_encoding s').
    rewrite bind_ok. split_and!.
    + do 3 f_equal. apply bool_decide_ext. by rewrite elem_of_list_to_set.
    + done.
    + rewrite He. f_equal. apply set_eq. intros x. set_solver.
    + by exists l'.
    + cbn. rewrite (holds_size s' l' H'). lia.
  - destruct (remove_ok junk s l v H ltac:(lia) Hop) as (s' & l' & -> & H' & He & Hlen & Hin).
    exists s', (OFlag (bool_decide (v ∈ (list_to_set l : gset Z)))), (list_to_set l', is_encoding s').
    rewrite bind_ok. split_and!.
    + do 3 f_equal. apply bool_decide_ext. by rewrite elem_of_list_to_set.
    + done.
    + rewrite He. f_equal. apply set_eq. intros x. set_solver.
    + by exists l'.
    + cbn. rewrite (holds_size s' l' H'). lia.
  - rewrite (find_ok s l v H ltac:(lia) Hop), bind_ok. do 3 eexists. split_and!; [done | | done | exact Hsame | cbn; lia].
    f_equal. apply bool_decide_ext. by rewrite elem_of_list_to_set.
  - unfold intsetGet. rewrite (h_len _ _ H). destruct (Z.ltb_spec pos (Z.of_nat (length l))).
    + destruct (member_ok s l pos H ltac:(lia) ltac:(lia)) as (v & -> & Hv). rewrite !bind_ok.
      do 3 eexists. split_and!; [done | done | eauto | exact Hsame | cbn; lia].
    + do 3 eexists. split_and!; [done | done | done | exact Hsame | cbn; lia].
  - rewrite (h_len _ _ H). destruct (Z.eqb_spec (Z.of_nat (length l)) 0) as [E|E].
    + do 3 eexists. split_and!; [done | done | | exact Hsame | cbn; lia]. rewrite decide_True; [done|].
      rewrite (nil_length_inv l) by lia. done.
    + unfold intsetRandom. rewrite (h_len _ _ H). destruct (Z.eqb_spec (Z.of_nat (length l)) 0); [lia|].
      rewrite (u32_small r) by lia. pose proof (Z.mod_pos_bound r (Z.of_nat (length l))).
      destruct (member_ok s l (r mod Z.of_nat (length l)) H ltac:(lia) ltac:(lia)) as (v & -> & Hv). rewrite bind_ok.
      do 3 eexists. split_and!; [done | done | | exact Hsame | cbn; lia]. rewrite decide_False; [eauto|].
      intros E0. rewrite E0 in Hsz. rewrite size_empty in Hsz. lia.
  - do 3 eexists. split_and!; [done | by rewrite (h_len _ _ H) | done | exact Hsame | cbn; lia].
  - do 3 eexists. split_and!; [done | | done | exact Hsame | cbn; lia]. unfold intsetBlobLen, sizeof_intset.
    pose proof (enc_pos _ (h_enc _ _ H)). rewrite (h_len _ _ H), u32_small, u64_small by nia. done.
Qed.

Lemma iexecs_ok junk ops : forall s A, simulates s A -> Z.of_nat (size A.1) + Z.of_nat (length ops) < INTSET_MAX ->
  Forall iop_ok ops -> exists s' os B, iexecs junk s ops = Ok (s', os) /\ ispecs A ops os B /\ simulates s' B.
Proof.
  induction ops as [|op ops IH]; intros s A Hs Hmax Hops; cbn [iexecs ispecs length] in *.
  { exists s, [], A. auto. }
  apply Forall_cons in Hops as [Hop Hops].
  destruct (iexec_ok junk s A op Hs ltac:(lia) Hop) as (s1 & o & B & -> & Hspec & Hs1 & Hsz). rewrite bind_ok.
  destruct (IH s1 B Hs1 ltac:(lia) Hops) as (s2 & os & C & -> & Hspecs & Hs2). rewrite bind_ok.
  exists s2, (o :: os), C. eauto.
Qed.

Lemma intsetNew_simulates : simulates intsetNew (∅, INTSET_ENC_INT16).
Proof. exists []. split; [|done]. constructor; cbn; repeat constructor. Qed.
