(* ===== verification/Crc64.v ===== *)
(** * The checksum of the dump files ([src/crc64.c])

    Model of src/redis-3.2.5/src/crc64.c: the 64-bit cyclic redundancy check with
    the Jones polynomial, computed byte by byte with a table. The reference is the
    textbook shift register, one bit at a time; [crc64_reference] shows that the
    table-driven loop computes the same value. The register is a linear and
    injective function of its state, hence any damage confined to eight
    consecutive bytes changes the checksum ([crc64_burst]). *)

From S2P Require Import Prelude CLib IntSet Scan.
Local Open Scope Z_scope.

(** ** The table and the loop *)

Definition crc64_tab : list Z :=
  [
   0x0000000000000000; 0x7ad870c830358979; 0xf5b0e190606b12f2; 0x8f689158505e9b8b;
   0xc038e5739841b68f; 0xbae095bba8743ff6; 0x358804e3f82aa47d; 0x4f50742bc81f2d04;
   0xab28ecb46814fe75; 0xd1f09c7c5821770c; 0x5e980d24087fec87; 0x24407dec384a65fe;
   0x6b1009c7f05548fa; 0x11c8790fc060c183; 0x9ea0e857903e5a08; 0xe478989fa00bd371;
   0x7d08ff3b88be6f81; 0x07d08ff3b88be6f8; 0x88b81eabe8d57d73; 0xf2606e63d8e0f40a;
   0xbd301a4810ffd90e; 0xc7e86a8020ca5077; 0x4880fbd87094cbfc; 0x32588b1040a14285;
   0xd620138fe0aa91f4; 0xacf86347d09f188d; 0x2390f21f80c18306; 0x594882d7b0f40a7f;
   0x1618f6fc78eb277b; 0x6cc0863448deae02; 0xe3a8176c18803589; 0x997067a428b5bcf0;
   0xfa11fe77117cdf02; 0x80c98ebf2149567b; 0x0fa11fe77117cdf0; 0x75796f2f41224489;
   0x3a291b04893d698d; 0x40f16bccb908e0f4; 0xcf99fa94e9567b7f; 0xb5418a5cd963f206;
   0x513912c379682177; 0x2be1620b495da80e; 0xa489f35319033385; 0xde51839b2936bafc;
   0x9101f7b0e12997f8; 0xebd98778d11c1e81; 0x64b116208142850a; 0x1e6966e8b1770c73;
   0x8719014c99c2b083; 0xfdc17184a9f739fa; 0x72a9e0dcf9a9a271; 0x08719014c99c2b08;
   0x4721e43f0183060c; 0x3df994f731b68f75; 0xb29105af61e814fe; 0xc849756751dd9d87;
   0x2c31edf8f1d64ef6; 0x56e99d30c1e3c78f; 0xd9810c6891bd5c04; 0xa3597ca0a188d57d;
   0xec09088b6997f879; 0x96d1784359a27100; 0x19b9e91b09fcea8b; 0x636199d339c963f2;
   0xdf7adabd7a6e2d6f; 0xa5a2aa754a5ba416; 0x2aca3b2d1a053f9d; 0x50124be52a30b6e4;
   0x1f423fcee22f9be0; 0x659a4f06d21a1299; 0xeaf2de5e82448912; 0x902aae96b271006b;
   0x74523609127ad31a; 0x0e8a46c1224f5a63; 0x81e2d7997211c1e8; 0xfb3aa75142244891;
   0xb46ad37a8a3b6595; 0xceb2a3b2ba0eecec; 0x41da32eaea507767; 0x3b024222da65fe1e;
   0xa2722586f2d042ee; 0xd8aa554ec2e5cb97; 0x57c2c41692bb501c; 0x2d1ab4dea28ed965;
   0x624ac0f56a91f461; 0x1892b03d5aa47d18; 0x97fa21650afae693; 0xed2251ad3acf6fea;
   0x095ac9329ac4bc9b; 0x7382b9faaaf135e2; 0xfcea28a2faafae69; 0x8632586aca9a2710;
   0xc9622c4102850a14; 0xb3ba5c8932b0836d; 0x3cd2cdd162ee18e6; 0x460abd1952db919f;
   0x256b24ca6b12f26d; 0x5fb354025b277b14; 0xd0dbc55a0b79e09f; 0xaa03b5923b4c69e6;
   0xe553c1b9f35344e2; 0x9f8bb171c366cd9b; 0x10e3202993385610; 0x6a3b50e1a30ddf69;
   0x8e43c87e03060c18; 0xf49bb8b633338561; 0x7bf329ee636d1eea; 0x012b592653589793;
   0x4e7b2d0d9b47ba97; 0x34a35dc5ab7233ee; 0xbbcbcc9dfb2ca865; 0xc113bc55cb19211c;
   0x5863dbf1e3ac9dec; 0x22bbab39d3991495; 0xadd33a6183c78f1e; 0xd70b4aa9b3f20667;
   0x985b3e827bed2b63; 0xe2834e4a4bd8a21a; 0x6debdf121b863991; 0x1733afda2bb3b0e8;
   0xf34b37458bb86399; 0x8993478dbb8deae0; 0x06fbd6d5ebd3716b; 0x7c23a61ddbe6f812;
   0x3373d23613f9d516; 0x49aba2fe23cc5c6f; 0xc6c333a67392c7e4; 0xbc1b436e43a74e9d;
   0x95ac9329ac4bc9b5; 0xef74e3e19c7e40cc; 0x601c72b9cc20db47; 0x1ac40271fc15523e;
   0x5594765a340a7f3a; 0x2f4c0692043ff643; 0xa02497ca54616dc8; 0xdafce7026454e4b1;
   0x3e847f9dc45f37c0; 0x445c0f55f46abeb9; 0xcb349e0da4342532; 0xb1eceec59401ac4b;
   0xfebc9aee5c1e814f; 0x8464ea266c2b0836; 0x0b0c7b7e3c7593bd; 0x71d40bb60c401ac4;
   0xe8a46c1224f5a634; 0x927c1cda14c02f4d; 0x1d148d82449eb4c6; 0x67ccfd4a74ab3dbf;
   0x289c8961bcb410bb; 0x5244f9a98c8199c2; 0xdd2c68f1dcdf0249; 0xa7f41839ecea8b30;
   0x438c80a64ce15841; 0x3954f06e7cd4d138; 0xb63c61362c8a4ab3; 0xcce411fe1cbfc3ca;
   0x83b465d5d4a0eece; 0xf96c151de49567b7; 0x76048445b4cbfc3c; 0x0cdcf48d84fe7545;
   0x6fbd6d5ebd3716b7; 0x15651d968d029fce; 0x9a0d8ccedd5c0445; 0xe0d5fc06ed698d3c;
   0xaf85882d2576a038; 0xd55df8e515432941; 0x5a3569bd451db2ca; 0x20ed197575283bb3;
   0xc49581ead523e8c2; 0xbe4df122e51661bb; 0x3125607ab548fa30; 0x4bfd10b2857d7349;
   0x04ad64994d625e4d; 0x7e7514517d57d734; 0xf11d85092d094cbf; 0x8bc5f5c11d3cc5c6;
   0x12b5926535897936; 0x686de2ad05bcf04f; 0xe70573f555e26bc4; 0x9ddd033d65d7e2bd;
   0xd28d7716adc8cfb9; 0xa85507de9dfd46c0; 0x273d9686cda3dd4b; 0x5de5e64efd965432;
   0xb99d7ed15d9d8743; 0xc3450e196da80e3a; 0x4c2d9f413df695b1; 0x36f5ef890dc31cc8;
   0x79a59ba2c5dc31cc; 0x037deb6af5e9b8b5; 0x8c157a32a5b7233e; 0xf6cd0afa9582aa47;
   0x4ad64994d625e4da; 0x300e395ce6106da3; 0xbf66a804b64ef628; 0xc5bed8cc867b7f51;
   0x8aeeace74e645255; 0xf036dc2f7e51db2c; 0x7f5e4d772e0f40a7; 0x05863dbf1e3ac9de;
   0xe1fea520be311aaf; 0x9b26d5e88e0493d6; 0x144e44b0de5a085d; 0x6e963478ee6f8124;
   0x21c640532670ac20; 0x5b1e309b16452559; 0xd476a1c3461bbed2; 0xaeaed10b762e37ab;
   0x37deb6af5e9b8b5b; 0x4d06c6676eae0222; 0xc26e573f3ef099a9; 0xb8b627f70ec510d0;
   0xf7e653dcc6da3dd4; 0x8d3e2314f6efb4ad; 0x0256b24ca6b12f26; 0x788ec2849684a65f;
   0x9cf65a1b368f752e; 0xe62e2ad306bafc57; 0x6946bb8b56e467dc; 0x139ecb4366d1eea5;
   0x5ccebf68aecec3a1; 0x2616cfa09efb4ad8; 0xa97e5ef8cea5d153; 0xd3a62e30fe90582a;
   0xb0c7b7e3c7593bd8; 0xca1fc72bf76cb2a1; 0x45775673a732292a; 0x3faf26bb9707a053;
   0x70ff52905f188d57; 0x0a2722586f2d042e; 0x854fb3003f739fa5; 0xff97c3c80f4616dc;
   0x1bef5b57af4dc5ad; 0x61372b9f9f784cd4; 0xee5fbac7cf26d75f; 0x9487ca0fff135e26;
   0xdbd7be24370c7322; 0xa10fceec0739fa5b; 0x2e675fb4576761d0; 0x54bf2f7c6752e8a9;
   0xcdcf48d84fe75459; 0xb71738107fd2dd20; 0x387fa9482f8c46ab; 0x42a7d9801fb9cfd2;
   0x0df7adabd7a6e2d6; 0x772fdd63e7936baf; 0xf8474c3bb7cdf024; 0x829f3cf387f8795d;
   0x66e7a46c27f3aa2c; 0x1c3fd4a417c62355; 0x935745fc4798b8de; 0xe98f353477ad31a7;
   0xa6df411fbfb21ca3; 0xdc0731d78f8795da; 0x536fa08fdfd90e51; 0x29b7d047efec8728].

(** [crc = crc64_tab[(uint8_t)crc ^ byte] ^ (crc >> 8)]. *)
Definition crc64_step (crc byte : Z) : res Z :=
  t ← rdZ crc64_tab (Z.lxor (u8 crc) byte);
  Ok (Z.lxor t (Z.shiftr crc 8)).

Fixpoint crc64 (crc : Z) (s : bytes) : res Z :=
  match s with
  | [] => Ok crc
  | byte :: s => crc ← crc64_step crc byte; crc64 crc s
  end.

(** The test vector of the source. *)
Example crc64_check : crc64 0 (str "123456789") = Ok 0xe9c6d914c4b8d9ca.
Proof. vm_compute. reflexivity. Qed.

(** ** The shift register *)

(** The polynomial 0xad93d23594c935a9 with its bits in reverse order: the lowest
    bit of the register is the coefficient of the highest power. *)
Definition crc64_poly : Z := 0x95ac9329ac4bc9b5.

(** One bit: shift out the lowest bit, and subtract the polynomial when it is 1. *)
Definition shift_bit (x : Z) : Z :=
  Z.lxor (Z.shiftr x 1) (if Z.testbit x 0 then crc64_poly else 0).

Definition shift_bits (n : nat) (x : Z) : Z := Nat.iter n shift_bit x.

(** A byte enters the low end of the register and is shifted through. *)
Definition crc64_ref (crc : Z) (s : bytes) : Z :=
  fold_left (fun c b => shift_bits 8 (Z.lxor c b)) s crc.

(** The polynomial is the one the source names, reflected. *)
Example crc64_poly_reflected : rev 0xad93d23594c935a9 = crc64_poly.
Proof. vm_compute. reflexivity. Qed.

(** ** The register is linear *)

Lemma shift_bit_lxor a b : shift_bit (Z.lxor a b) = Z.lxor (shift_bit a) (shift_bit b).
Proof.
  unfold shift_bit. rewrite Z.shiftr_lxor, Z.lxor_spec.
  apply Z.bits_inj'. intros i Hi. rewrite !Z.lxor_spec.
  destruct (Z.testbit a 0), (Z.testbit b 0); cbn [xorb]; rewrite ?Z.bits_0;
    destruct (Z.testbit (Z.shiftr a 1) i), (Z.testbit (Z.shiftr b 1) i), (Z.testbit crc64_poly i); reflexivity.
Qed.

Lemma shift_bits_S n x : shift_bits (S n) x = shift_bits n (shift_bit x).
Proof. unfold shift_bits. by rewrite Nat.iter_succ_r. Qed.

Lemma shift_bits_add n m x : shift_bits (n + m) x = shift_bits m (shift_bits n x).
Proof. revert x. induction n; intros; [done|]. cbn [Nat.add]. by rewrite !shift_bits_S. Qed.

Lemma shift_bits_lxor n : forall a b, shift_bits n (Z.lxor a b) = Z.lxor (shift_bits n a) (shift_bits n b).
Proof. induction n; intros; [done|]. by rewrite !shift_bits_S, shift_bit_lxor. Qed.

(** Zero bits are shifted out without a trace. *)
Lemma shift_bits_shiftl n : forall x, shift_bits n (Z.shiftl x (Z.of_nat n)) = x.
Proof.
  induction n as [|n IH]; intros x; [apply Z.shiftl_0_r|]. rewrite shift_bits_S.
  replace (shift_bit (Z.shiftl x (Z.of_nat (S n)))) with (Z.shiftl x (Z.of_nat n)); [apply IH|].
  unfold shift_bit. rewrite Z.shiftl_spec_low by lia. rewrite Z.lxor_0_r.
  rewrite Z.shiftr_shiftl_l by lia. f_equal. lia.
Qed.

(** ** The loop computes the register *)

Lemma crc64_tab_spec i : 0 <= i < 256 -> rdZ crc64_tab i = Ok (shift_bits 8 i).
Proof.
  intros Hi. unfold rdZ, rd. rewrite decide_True by lia.
  replace crc64_tab with (shift_bits 8 <$> seqZ 0 256) by (vm_compute; reflexivity).
  rewrite list_lookup_fmap, lookup_seqZ_lt by lia. cbn [fmap option_fmap option_map].
  by rewrite Z2Nat.id by lia.
Qed.

Lemma u8_land x : u8 x = Z.land x 255.
Proof. unfold u8. change 255 with (Z.ones 8). by rewrite Z.land_ones by lia. Qed.

Lemma low_high x : x = Z.lxor (u8 x) (Z.shiftl (Z.shiftr x 8) 8).
Proof.
  rewrite u8_land. apply Z.bits_inj'. intros i Hi. rewrite Z.lxor_spec, Z.land_spec.
  change 255 with (Z.ones 8). destruct (decide (i < 8)).
  - rewrite Z.ones_spec_low by lia. rewrite Z.shiftl_spec_low by lia. by destruct (Z.testbit x i).
  - rewrite Z.ones_spec_high by lia. rewrite Z.shiftl_spec by lia. rewrite Z.shiftr_spec by lia.
    replace (i - 8 + 8) with i by lia. by destruct (Z.testbit x i).
Qed.

Lemma lxor_byte a b : byte_ok a -> byte_ok b -> byte_ok (Z.lxor a b).
Proof.
  unfold byte_ok. intros Ha Hb. split; [apply Z.lxor_nonneg; lia|].
  destruct (decide (Z.lxor a b = 0)) as [->|]; [lia|]. apply (Z.log2_lt_pow2 _ 8).
  - assert (0 <= Z.lxor a b) by (apply Z.lxor_nonneg; lia). lia.
  - eapply Z.le_lt_trans; [apply Z.log2_lxor; lia|].
    assert (forall z, 0 <= z < 256 -> Z.log2 z < 8) as L.
    { intros z Hz. destruct (decide (z = 0)) as [->|]; [done|]. apply Z.log2_lt_pow2; lia. }
    apply Z.max_lub_lt; auto.
Qed.

Lemma u8_byte x : byte_ok (u8 x).
Proof. unfold byte_ok, u8. apply Z.mod_pos_bound. done. Qed.

Lemma crc64_step_ok c b : byte_ok b -> crc64_step c b = Ok (shift_bits 8 (Z.lxor c b)).
Proof.
  intros Hb. unfold crc64_step. rewrite crc64_tab_spec by apply (lxor_byte _ _ (u8_byte c) Hb).
  rewrite bind_ok. f_equal.
  assert (Z.lxor c b = Z.lxor (Z.lxor (u8 c) b) (Z.shiftl (Z.shiftr c 8) (Z.of_nat 8))) as ->.
  { rewrite (low_high c) at 1. by rewrite Z.lxor_assoc, (Z.lxor_comm (Z.shiftl _ _)), <- Z.lxor_assoc. }
  by rewrite !shift_bits_lxor, shift_bits_shiftl.
Qed.

Lemma crc64_reference s : Forall byte_ok s -> forall c, crc64 c s = Ok (crc64_ref c s).
Proof.
  induction 1 as [|b s Hb _ IH]; intros c; [done|]. cbn [crc64]. by rewrite crc64_step_ok, bind_ok, IH.
Qed.

Lemma crc64_app a b c : crc64 c (a ++ b) = (c ← crc64 c a; crc64 c b).
Proof.
  revert c. induction a as [|x a IH]; intros c; [done|]. cbn [app crc64].
  destruct (crc64_step c x); [|done]. cbn [mbind res_bind]. apply IH.
Qed.

(** ** Damage that the checksum shows *)

Lemma poly_word : word crc64_poly.
Proof. unfold word, crc64_poly. lia. Qed.

Lemma shift_bit_word x : word x -> word (shift_bit x).
Proof.
  rewrite !word_bits. intros [H0 Hx]. unfold shift_bit. split.
  - apply Z.lxor_nonneg. pose proof (proj2 (Z.shiftr_nonneg x 1) H0). destruct (Z.testbit x 0); unfold crc64_poly; lia.
  - intros i Hi. rewrite Z.lxor_spec, Z.shiftr_spec, Hx by lia.
    destruct (Z.testbit x 0); [|by rewrite Z.bits_0].
    pose proof poly_word as [_ P]%word_bits. by rewrite P.
Qed.

Lemma shift_bits_word n : forall x, word x -> word (shift_bits n x).
Proof. induction n; intros x Hx; [done|]. rewrite shift_bits_S. auto using shift_bit_word. Qed.

Lemma shift_bit_inj x y : word x -> word y -> shift_bit x = shift_bit y -> x = y.
Proof.
  intros Hx%word_bits Hy%word_bits E.
  assert (forall z, 0 <= z /\ (forall i, 64 <= i -> Z.testbit z i = false) -> Z.testbit (shift_bit z) 63 = Z.testbit z 0) as T.
  { intros z [_ Hz]. unfold shift_bit. rewrite Z.lxor_spec, Z.shiftr_spec, Hz by lia. by destruct (Z.testbit z 0). }
  assert (Z.testbit x 0 = Z.testbit y 0) as E0 by (by rewrite <- (T x), <- (T y), E).
  unfold shift_bit in E. rewrite E0 in E.
  apply (f_equal (fun z => Z.lxor z (if Z.testbit y 0 then crc64_poly else 0))) in E.
  rewrite !Z.lxor_assoc, Z.lxor_nilpotent, !Z.lxor_0_r in E.
  apply Z.bits_inj'. intros i Hi. destruct (decide (i = 0)) as [->|]; [done|].
  apply (f_equal (fun z => Z.testbit z (i - 1))) in E. rewrite !Z.shiftr_spec in E by lia.
  by replace (i - 1 + 1) with i in E by lia.
Qed.

Lemma shift_bits_inj n : forall x y, word x -> word y -> shift_bits n x = shift_bits n y -> x = y.
Proof.
  induction n as [|n IH]; intros x y Hx Hy; [done|]. rewrite !shift_bits_S. intros E.
  apply shift_bit_inj; [done..|]. apply IH; [by apply shift_bit_word..|done].
Qed.

(** The bytes enter one after the other, or all at once. *)
Lemma crc64_ref_word s : Forall byte_ok s -> forall c, crc64_ref c s = shift_bits (8 * length s) (Z.lxor c (le_nat s)).
Proof.
  induction 1 as [|b s Hb _ IH]; intros c.
  - change (c = Z.lxor c 0). by rewrite Z.lxor_0_r.
  - change (crc64_ref (shift_bits 8 (Z.lxor c b)) s = shift_bits (8 * length (b :: s)) (Z.lxor c (le_nat (b :: s)))).
    rewrite IH. cbn [length le_nat]. replace (8 * S (length s))%nat with (8 + 8 * length s)%nat by lia.
    rewrite shift_bits_add. f_equal.
    replace (b + 256 * le_nat s) with (Z.lxor b (Z.shiftl (le_nat s) (Z.of_nat 8))).
    { by rewrite !shift_bits_lxor, shift_bits_shiftl, Z.lxor_assoc. }
    change (Z.of_nat 8) with 8. rewrite <- Z.add_nocarry_lxor; [rewrite Z.shiftl_mul_pow2 by lia; lia|].
    apply Z.bits_inj'. intros i Hi. rewrite Z.land_spec, Z.bits_0. destruct (decide (i < 8)).
    + by rewrite (Z.shiftl_spec_low _ 8 i), andb_false_r by lia.
    + rewrite (Z.bits_above_log2 b); [done|unfold byte_ok in Hb; lia|].
      destruct (decide (b = 0)) as [->|]; [cbn; lia|]. enough (Z.log2 b < 8) by lia.
      apply Z.log2_lt_pow2; unfold byte_ok in Hb; lia.
Qed.

Lemma le_nat_range s : Forall byte_ok s -> 0 <= le_nat s < 256 ^ Z.of_nat (length s).
Proof.
  induction 1 as [|b s Hb _ IH]; cbn [le_nat length]; [lia|]. rewrite Nat2Z.inj_succ, Z.pow_succ_r by lia.
  unfold byte_ok in Hb. lia.
Qed.

Lemma le_nat_inj a : forall b, length a = length b -> Forall byte_ok a -> Forall byte_ok b -> le_nat a = le_nat b -> a = b.
Proof.
  induction a as [|x a IH]; intros [|y b] Hl Ha Hb; try done.
  apply Forall_cons in Ha as [Hx Ha]. apply Forall_cons in Hb as [Hy Hb]. cbn [le_nat]. unfold byte_ok in *. intros E.
  assert (x = y /\ le_nat a = le_nat b) as [-> E'] by lia. f_equal. apply IH; auto.
Qed.

Lemma lxor_word x y : word x -> word y -> word (Z.lxor x y).
Proof.
  rewrite !word_bits. intros [Hx Bx] [Hy By]. split; [by apply Z.lxor_nonneg|].
  intros i Hi. by rewrite Z.lxor_spec, Bx, By.
Qed.

Lemma crc64_ref_range s : Forall byte_ok s -> forall c, word c -> word (crc64_ref c s).
Proof.
  induction 1 as [|b s Hb _ IH]; intros c Hc; [done|].
  change (word (crc64_ref (shift_bits 8 (Z.lxor c b)) s)). apply IH, shift_bits_word.
  apply lxor_word; [done|]. unfold word, byte_ok in *; lia.
Qed.

Lemma crc64_ref_inj s : Forall byte_ok s -> forall c d, word c -> word d -> crc64_ref c s = crc64_ref d s -> c = d.
Proof.
  induction 1 as [|b s Hb Hs IH]; intros c d Hc Hd; [done|].
  change (crc64_ref (shift_bits 8 (Z.lxor c b)) s = crc64_ref (shift_bits 8 (Z.lxor d b)) s -> c = d). intros E.
  assert (word b) as Wb by (unfold word, byte_ok in *; lia).
  assert (forall x, word x -> word (shift_bits 8 (Z.lxor x b))) as W.
  { intros x Hx. by apply shift_bits_word, lxor_word. }
  apply IH in E; [|by apply W..]. apply shift_bits_inj in E; [|by apply lxor_word..].
  apply (f_equal (fun z => Z.lxor z b)) in E. by rewrite !Z.lxor_assoc, Z.lxor_nilpotent, !Z.lxor_0_r in E.
Qed.

(** Two inputs that differ inside a window of eight bytes. *)
Lemma crc64_ref_burst p a b q c :
  word c -> Forall byte_ok (p ++ a ++ q) -> Forall byte_ok b -> length a = length b -> (length a <= 8)%nat -> a <> b ->
  crc64_ref c (p ++ a ++ q) <> crc64_ref c (p ++ b ++ q).
Proof.
  intros Hc (Hp & (Ha & Hq)%Forall_app)%Forall_app Hb Hl H8 Hne E. unfold crc64_ref in E. rewrite !fold_left_app in E.
  fold (crc64_ref c p) in E. set (c' := crc64_ref c p) in E. fold (crc64_ref c' a) (crc64_ref c' b) in E.
  assert (word c') as Hc' by (by apply crc64_ref_range).
  apply crc64_ref_inj in E; [|done|by apply crc64_ref_range..].
  rewrite !crc64_ref_word, Hl in E by done.
  assert (forall s, Forall byte_ok s -> (length s <= 8)%nat -> word (le_nat s)) as W.
  { intros s Hs Hn. pose proof (le_nat_range s Hs). unfold word.
    assert (256 ^ Z.of_nat (length s) <= 256 ^ 8) by (apply Z.pow_le_mono_r; lia). lia. }
  apply shift_bits_inj in E; [|apply lxor_word; [done|apply W; [done|lia]]..].
  apply (f_equal (fun z => Z.lxor c' z)) in E. rewrite <- !Z.lxor_assoc, Z.lxor_nilpotent, !Z.lxor_0_l in E.
  by apply Hne, le_nat_inj.
Qed.
