(* ===== verification/Lzf.v ===== *)
(** * The LZF compressor ([src/lzf_c.c], [src/lzf_d.c], [src/lzfP.h])

    Model of src/redis-3.2.5/src/lzf_c.c and lzf_d.c, which shrink the strings of
    a dump file. The configuration is the one of lzfP.h: a table of [2 ^ 16] slots
    that hold offsets, [VERY_FAST], [CHECK_INPUT], and no [INIT_HTAB]: the table is
    on the stack and its initial contents are arbitrary, so they are an argument
    of the compressor and every statement quantifies over them.

    Pointers into the two buffers are offsets; an access outside a buffer is a
    fault. A result 0 of the compressor (the output does not fit) is [None]. *)

From S2P Require Import Prelude CLib.
Local Open Scope Z_scope.

(** ** Compression *)

Definition HLOG : Z := 16.
Definition HSIZE : Z := Z.shiftl 1 HLOG.
Definition MAX_LIT : Z := Z.shiftl 1 5.
Definition MAX_OFF : Z := Z.shiftl 1 13.
Definition MAX_REF : Z := Z.shiftl 1 8 + Z.shiftl 1 3.

Definition FRST (inp : bytes) (p : Z) : res Z :=
  a ← rdZ inp p; b ← rdZ inp (p + 1); Ok (Z.lor (Z.shiftl a 8) b).

Definition NEXT (v : Z) (inp : bytes) (p : Z) : res Z :=
  c ← rdZ inp (p + 2); Ok (Z.lor (u32 (Z.shiftl v 8)) c).

Definition IDX (h : Z) : Z := Z.land (u32 (Z.shiftr h (3 * 8 - HLOG) - u32 (h * 5))) (HSIZE - 1).

(** [htab[i]] and [htab[i] = v]: a slot is an [unsigned int], whatever the stack
    held before. *)
Definition slot (htab : Z -> Z) (i : Z) : Z := u32 (htab i).
Definition set_slot (htab : Z -> Z) (i v : Z) : Z -> Z := fun j => if j =? i then v else htab j.

(** [len++; if (ref[len] != ip[len]) break;], [n] times; the flag tells that it
    broke out. *)
Fixpoint match_unrolled (n : nat) (inp : bytes) (ref ip len : Z) : res (Z * bool) :=
  match n with
  | O => Ok (len, false)
  | S n' =>
      let len := len + 1 in
      a ← rdZ inp (ref + len); b ← rdZ inp (ip + len);
      if a =? b then match_unrolled n' inp ref ip len else Ok (len, true)
  end.

(** [do len++; while (len < maxlen && ref[len] == ip[len])]. *)
Fixpoint match_loop (fuel : nat) (inp : bytes) (ref ip maxlen len : Z) : res Z :=
  match fuel with
  | O => Fault OutOfFuel
  | S f =>
      let len := len + 1 in
      if len <? maxlen then
        a ← rdZ inp (ref + len); b ← rdZ inp (ip + len);
        if a =? b then match_loop f inp ref ip maxlen len else Ok len
      else Ok len
  end.

(** The length of the match: it is at most [MAX_REF], which bounds the loop. *)
Definition match_len (inp : bytes) (ref ip maxlen : Z) : res Z :=
  '(len, stop) ← (if maxlen >? 16 then match_unrolled 16 inp ref ip 2 else Ok (2, false));
  if (stop : bool) then Ok len else match_loop (Z.to_nat MAX_REF) inp ref ip maxlen len.

(** The condition of the match, its tests in order. *)
Definition is_match (inp : bytes) (ref ip : Z) : res bool :=
  if (u64 (ip - ref - 1) <? MAX_OFF) && (ref >? 0) then
    r2 ← rdZ inp (ref + 2); i2 ← rdZ inp (ip + 2);
    if r2 =? i2 then
      r0 ← rdZ inp ref; r1 ← rdZ inp (ref + 1); i0 ← rdZ inp ip; i1 ← rdZ inp (ip + 1);
      Ok ((r0 =? i0) && (r1 =? i1))
    else Ok false
  else Ok false.

(** [*op++ = ...]: the two or three bytes of a back reference. *)
Definition write_ref (out : bytes) (op off len : Z) : res (bytes * Z) :=
  '(out, op) ←
    (if len <? 7 then
       out ← wrZ out op (u8 (Z.shiftr off 8 + Z.shiftl len 5)); Ok (out, op + 1)
     else
       out ← wrZ out op (u8 (Z.shiftr off 8 + Z.shiftl 7 5));
       out ← wrZ out (op + 1) (u8 (len - 7)); Ok (out, op + 2));
  out ← wrZ out op (u8 off);
  Ok (out, op + 1).

Definition not_int (lit : Z) : Z := if lit =? 0 then 1 else 0.

Section Compress.
Variables (inp : bytes) (in_end out_end : Z).

(** [lit++; *op++ = *ip++;] and the end of a full run. *)
Definition put_literal (ip op lit : Z) (out : bytes) : res (Z * Z * Z * bytes) :=
  let lit := lit + 1 in
  b ← rdZ inp ip;
  out ← wrZ out op b;
  let op := op + 1 in
  let ip := ip + 1 in
  if lit =? MAX_LIT then
    out ← wrZ out (op - lit - 1) (u8 (lit - 1));
    Ok (ip, op + 1, 0, out)
  else Ok (ip, op, lit, out).

(** The main loop. Every iteration consumes input, which bounds the fuel. *)
Fixpoint compress_loop (fuel : nat) (ip op lit hval : Z) (htab : Z -> Z) (out : bytes) : res (option (Z * Z * Z * bytes)) :=
  if ip <? in_end - 2 then
    match fuel with
    | O => Fault OutOfFuel
    | S f =>
        hval ← NEXT hval inp ip;
        let ref := slot htab (IDX hval) in
        let htab := set_slot htab (IDX hval) ip in
        found ← is_match inp ref ip;
        if (found : bool) then
          let off := u64 (ip - ref - 1) in
          let maxlen := u32 (in_end - ip - 2) in
          let maxlen := if maxlen >? MAX_REF then MAX_REF else maxlen in
          if (op + 3 + 1 >=? out_end) && (op - not_int lit + 3 + 1 >=? out_end) then Ok None else
          out ← wrZ out (op - lit - 1) (u8 (lit - 1));
          let op := op - not_int lit in
          len ← match_len inp ref ip maxlen;
          let len := len - 2 in
          let ip := ip + 1 in
          '(out, op) ← write_ref out op off len;
          let op := op + 1 in
          let ip := ip + (len + 1) in
          if ip >=? in_end - 2 then Ok (Some (ip, op, 0, out)) else
          let ip := ip - 1 - 1 in
          hval ← FRST inp ip;
          hval ← NEXT hval inp ip;
          let htab := set_slot htab (IDX hval) ip in
          let ip := ip + 1 in
          hval ← NEXT hval inp ip;
          let htab := set_slot htab (IDX hval) ip in
          let ip := ip + 1 in
          compress_loop f ip op 0 hval htab out
        else
          if op >=? out_end then Ok None else
          '(ip, op, lit, out) ← put_literal ip op lit out;
          compress_loop f ip op lit hval htab out
    end
  else Ok (Some (ip, op, lit, out)).

(** The last bytes of the input. *)
Fixpoint tail_loop (fuel : nat) (ip op lit : Z) (out : bytes) : res (Z * Z * bytes) :=
  if ip <? in_end then
    match fuel with
    | O => Fault OutOfFuel
    | S f => '(ip, op, lit, out) ← put_literal ip op lit out; tail_loop f ip op lit out
    end
  else Ok (op, lit, out).
End Compress.

(** The number of bytes written and the buffer. *)
Definition lzf_compress (htab : Z -> Z) (inp : bytes) (in_len : Z) (out : bytes) (out_len : Z) : res (option (Z * bytes)) :=
  if (in_len =? 0) || (out_len =? 0) then Ok None else
  hval ← FRST inp 0;
  r ← compress_loop inp in_len out_len (Z.to_nat in_len) 0 1 0 hval htab out;
  match r with
  | None => Ok None
  | Some (ip, op, lit, out) =>
      if op + 3 >? out_len then Ok None else
      '(op, lit, out) ← tail_loop inp in_len (Z.to_nat in_len) ip op lit out;
      out ← wrZ out (op - lit - 1) (u8 (lit - 1));
      Ok (Some (op - not_int lit, out))
  end.

(** ** Decompression *)

Inductive lzf_errno := E2BIG | EINVAL.

#[export] Instance lzf_errno_eq_dec : EqDecision lzf_errno.
Proof. solve_decision. Defined.

(** [*op++ = *ip++], [n] times: the [switch] over a literal run. *)
Fixpoint copy_literal (n : nat) (inp : bytes) (ip op : Z) (out : bytes) : res bytes :=
  match n with
  | O => Ok out
  | S n' => b ← rdZ inp ip; out ← wrZ out op b; copy_literal n' inp (ip + 1) (op + 1) out
  end.

(** [*op++ = *ref++], [n] times: source and target may overlap. *)
Fixpoint copy_back (n : nat) (ref op : Z) (out : bytes) : res bytes :=
  match n with
  | O => Ok out
  | S n' => b ← rdZ out ref; out ← wrZ out op b; copy_back n' (ref + 1) (op + 1) out
  end.

(** The copy of [len + 2] bytes: unrolled for short references, [memcpy] for
    disjoint areas, byte by byte otherwise. *)
Definition copy_ref (len ref op : Z) (out : bytes) : res bytes :=
  if len <=? 9 then copy_back (Z.to_nat (len + 2)) ref op out
  else
    let len := len + 2 in
    if op >=? ref + len then
      d ← mread out (Z.to_nat ref) (Z.to_nat len); mwrite out (Z.to_nat op) d
    else copy_back (Z.to_nat len) ref op out.

Section Decompress.
Variables (inp : bytes) (in_end out_end : Z).

(** The body of the loop: an error, or the new [ip], [op] and buffer. *)
Definition decompress_step (ip op : Z) (out : bytes) : res (lzf_errno + Z * Z * bytes) :=
  ctrl ← rdZ inp ip;
  let ip := ip + 1 in
  if ctrl <? Z.shiftl 1 5 then
    let ctrl := ctrl + 1 in
    if op + ctrl >? out_end then Ok (inl E2BIG) else
    if ip + ctrl >? in_end then Ok (inl EINVAL) else
    out ← copy_literal (Z.to_nat ctrl) inp ip op out;
    Ok (inr (ip + ctrl, op + ctrl, out))
  else
    let len := Z.shiftr ctrl 5 in
    let ref := op - Z.shiftl (Z.land ctrl 0x1f) 8 - 1 in
    if ip >=? in_end then Ok (inl EINVAL) else
    long ← (if len =? 7 then
              b ← rdZ inp ip;
              let len := len + b in
              let ip := ip + 1 in
              if ip >=? in_end then Ok None else Ok (Some (len, ip))
            else Ok (Some (len, ip)));
    match long with
    | None => Ok (inl EINVAL)
    | Some (len, ip) =>
        b ← rdZ inp ip;
        let ref := ref - b in
        let ip := ip + 1 in
        if op + len + 2 >? out_end then Ok (inl E2BIG) else
        if ref <? 0 then Ok (inl EINVAL) else
        out ← copy_ref len ref op out;
        Ok (inr (ip, op + (len + 2), out))
    end.

(** [do { ... } while (ip < in_end)]. Every iteration consumes input. *)
Fixpoint decompress_loop (fuel : nat) (ip op : Z) (out : bytes) : res (lzf_errno + Z * bytes) :=
  match fuel with
  | O => Fault OutOfFuel
  | S f =>
      r ← decompress_step ip op out;
      match r with
      | inl e => Ok (inl e)
      | inr (ip, op, out) => if ip <? in_end then decompress_loop f ip op out else Ok (inr (op, out))
      end
  end.
End Decompress.

(** An error (the result 0 and [errno]), or the number of bytes and the buffer. *)
Definition lzf_decompress (inp : bytes) (in_len : Z) (out : bytes) (out_len : Z) : res (lzf_errno + Z * bytes) :=
  decompress_loop inp in_len out_len (S (Z.to_nat in_len)) 0 0 out.

(** A string of one letter, compressed to a literal run, a back reference and a
    literal run. *)
Example lzf_letters :
  let s := replicate 40 97 in
  (r ← lzf_compress (fun _ => 0) s 40 (replicate 37 255) 36;
   match r with
   | Some (n, out) =>
       r ← lzf_decompress (take (Z.to_nat n) out) n (replicate 40 0) 40;
       Ok (n, take (Z.to_nat n) out, r)
   | None => Fault AssertFailed
   end) = Ok (9, [1; 97; 97; 224; 27; 0; 1; 97; 97], inr (40, s)).
Proof. vm_compute. reflexivity. Qed.

(** ** The format *)

(** [n] bytes appended to [o], each a copy of the one [off + 1] places before. *)
Fixpoint lz_copy (n : nat) (off : nat) (o : bytes) : bytes :=
  match n with
  | O => o
  | S n' => lz_copy n' off (o ++ [nth (length o - off - 1) o 0])
  end.

(** [c] is a sequence of literal runs and back references that stands for [o]. *)
Inductive decodes : bytes -> bytes -> Prop :=
  | decodes_nil : decodes [] []
  | decodes_literal c o l :
      decodes c o -> (1 <= length l <= 32)%nat ->
      decodes (c ++ Z.of_nat (length l) - 1 :: l) (o ++ l)
  | decodes_short c o off len :
      decodes c o -> 0 <= off < 8192 -> off < Z.of_nat (length o) -> 1 <= len < 7 ->
      decodes (c ++ [off / 256 + len * 32; off mod 256]) (lz_copy (Z.to_nat (len + 2)) (Z.to_nat off) o)
  | decodes_long c o off len :
      decodes c o -> 0 <= off < 8192 -> off < Z.of_nat (length o) -> 7 <= len <= 262 ->
      decodes (c ++ [off / 256 + 224; len - 7; off mod 256]) (lz_copy (Z.to_nat (len + 2)) (Z.to_nat off) o).

Lemma lz_copy_length n : forall off o, length (lz_copy n off o) = (length o + n)%nat.
Proof. induction n as [|n IH]; intros; cbn [lz_copy]; [lia|]. rewrite IH. len_lia. Qed.

(** ** The copies of the decompressor *)

Lemma rdZ_app_l m n i : 0 <= i < Z.of_nat (length m) -> rdZ (m ++ n) i = rdZ m i.
Proof. intros. unfold rdZ. rewrite !decide_True by lia. apply rd_app_l. lia. Qed.

Lemma copy_literal_ok l : forall inp a b o out,
  inp = a ++ l ++ b -> (length l <= length out)%nat ->
  copy_literal (length l) inp (Z.of_nat (length a)) (Z.of_nat (length o)) (o ++ out) = Ok (o ++ l ++ drop (length l) out).
Proof.
  induction l as [|x l IH]; intros inp a b o out -> Hl; [done|]. destruct out as [|y out]; [cbn in Hl; lia|].
  cbn [copy_literal length app]. rewrite rdZ_at, bind_ok by done. rewrite wrZ_at, bind_ok by done.
  replace (o ++ x :: out) with ((o ++ [x]) ++ out) by (by rewrite <- app_assoc).
  replace (Z.of_nat (length a) + 1) with (Z.of_nat (length (a ++ [x]))) by len_lia.
  replace (Z.of_nat (length o) + 1) with (Z.of_nat (length (o ++ [x]))) by len_lia.
  rewrite (IH _ (a ++ [x]) b); [by rewrite <- app_assoc|by rewrite <- app_assoc|cbn in Hl; lia].
Qed.

Lemma copy_back_ok n : forall off o out,
  (off < length o)%nat -> (n <= length out)%nat ->
  copy_back n (Z.of_nat (length o) - Z.of_nat off - 1) (Z.of_nat (length o)) (o ++ out) = Ok (lz_copy n off o ++ drop n out).
Proof.
  induction n as [|n IH]; intros off o out Ho Hn; [done|]. destruct out as [|y out]; [cbn in Hn; lia|].
  cbn [copy_back lz_copy]. rewrite rdZ_app_l, rdZ_nth, bind_ok by lia. rewrite wrZ_at, bind_ok by done.
  replace (Z.to_nat (Z.of_nat (length o) - Z.of_nat off - 1)) with (length o - off - 1)%nat by lia.
  set (x := nth _ _ _). replace (o ++ x :: out) with ((o ++ [x]) ++ out) by (by rewrite <- app_assoc).
  replace (Z.of_nat (length o) + 1) with (Z.of_nat (length (o ++ [x]))) by len_lia.
  replace (Z.of_nat (length o) - Z.of_nat off - 1 + 1) with (Z.of_nat (length (o ++ [x])) - Z.of_nat off - 1) by len_lia.
  rewrite IH; [done|len_lia|cbn in Hn; lia].
Qed.

(** A copy that does not reach its own output is a block copy. *)
Lemma lz_copy_block n : forall off o, (off < length o)%nat -> (n <= off + 1)%nat ->
  lz_copy n off o = o ++ take n (drop (length o - off - 1) o).
Proof.
  intros off o Ho Hn.
  assert (forall k, (k + n <= off + 1)%nat -> lz_copy n off (o ++ take k (drop (length o - off - 1) o)) =
    o ++ take (k + n) (drop (length o - off - 1) o)) as H; [|specialize (H 0%nat); rewrite take_0, app_nil_r in H; by apply H].
  clear Hn. induction n as [|n IH]; intros k Hk; [by rewrite Nat.add_0_r|]. cbn [lz_copy].
  rewrite <- app_assoc. set (x := nth _ _ _).
  replace (take k (drop (length o - off - 1) o) ++ [x]) with (take (S k) (drop (length o - off - 1) o)).
  { rewrite IH by lia. do 2 f_equal. lia. }
  apply take_S_r. rewrite lookup_drop. subst x. symmetry.
  assert (length (take k (drop (length o - off - 1) o)) = k) as Hlk by len_lia.
  rewrite length_app, Hlk. rewrite app_nth1 by lia.
  replace (length o + k - off - 1)%nat with (length o - off - 1 + k)%nat by lia.
  destruct (lookup_lt_is_Some_2 o (length o - off - 1 + k)) as [y Hy]; [lia|]. rewrite Hy. f_equal. by apply nth_lookup_Some.
Qed.

(** All three copies of the decompressor are the copy of the format. *)
Lemma copy_ref_ok len off o out :
  0 <= off < Z.of_nat (length o) -> 0 <= len -> len + 2 <= Z.of_nat (length out) ->
  copy_ref len (Z.of_nat (length o) - off - 1) (Z.of_nat (length o)) (o ++ out) =
    Ok (lz_copy (Z.to_nat (len + 2)) (Z.to_nat off) o ++ drop (Z.to_nat (len + 2)) out).
Proof.
  intros Ho Hl Hn.
  assert (copy_back (Z.to_nat (len + 2)) (Z.of_nat (length o) - off - 1) (Z.of_nat (length o)) (o ++ out) =
    Ok (lz_copy (Z.to_nat (len + 2)) (Z.to_nat off) o ++ drop (Z.to_nat (len + 2)) out)) as C.
  { rewrite <- copy_back_ok by lia. by rewrite Z2Nat.id by lia. }
  unfold copy_ref. repeat case_bool; try exact C.
  set (n := Z.to_nat (len + 2)) in *.
  rewrite mread_ok by (rewrite length_app; lia). rewrite bind_ok.
  set (r := Z.to_nat (Z.of_nat (length o) - off - 1)).
  assert (take n (drop r (o ++ out)) = take n (drop r o)) as ->.
  { rewrite drop_app_le by lia. apply take_app_le. len_lia. }
  assert (length (take n (drop r o)) = n) as L by len_lia.
  rewrite mwrite_ok by (rewrite length_app; lia). rewrite Nat2Z.id, L. f_equal.
  rewrite take_app_length, drop_app_ge by lia. replace (length o + n - length o)%nat with n by lia.
  rewrite lz_copy_block by lia. rewrite <- app_assoc. do 4 f_equal. lia.
Qed.

(** ** The decompressor stays inside its buffers *)

Lemma buffer_split (out : bytes) (op : Z) : 0 <= op <= Z.of_nat (length out) ->
  exists o r, out = o ++ r /\ op = Z.of_nat (length o).
Proof.
  intros H. exists (take (Z.to_nat op) out), (drop (Z.to_nat op) out). split; [by rewrite take_drop|]. len_lia.
Qed.

(** What one iteration does to a buffer of which [op] bytes are written. *)
Definition step_safe (inp out : bytes) (ip op : Z) (r : lzf_errno + Z * Z * bytes) : Prop :=
  match r with
  | inl _ => True
  | inr (ip', op', out') =>
      ip < ip' <= Z.of_nat (length inp) /\ op < op' <= Z.of_nat (length out') /\ length out' = length out /\
      take (Z.to_nat op) out' = take (Z.to_nat op) out
  end.

Lemma rdZ_byte inp i : Forall byte_ok inp -> 0 <= i < Z.of_nat (length inp) -> exists b, rdZ inp i = Ok b /\ byte_ok b.
Proof.
  intros Hb Hi. rewrite rdZ_nth by lia. eexists. split; [done|].
  destruct (lookup_lt_is_Some_2 inp (Z.to_nat i)) as [x Hx]; [lia|].
  rewrite (nth_lookup_Some _ _ _ _ Hx). by apply (proj1 (Forall_lookup _ _) Hb _ _ Hx).
Qed.

Lemma take_lz_copy n off o : take (length o) (lz_copy n off o) = o.
Proof.
  revert o. induction n as [|n IH]; intros o; cbn [lz_copy]; [by rewrite take_ge|].
  set (x := nth _ _ _). specialize (IH (o ++ [x])). apply (f_equal (take (length o))) in IH.
  rewrite take_take, take_app_length, length_app in IH. cbn [length] in IH.
  by rewrite Nat.min_l in IH by lia.
Qed.

Lemma decompress_step_safe inp ip op out :
  Forall byte_ok inp -> 0 <= ip < Z.of_nat (length inp) -> 0 <= op <= Z.of_nat (length out) ->
  exists r, decompress_step inp (Z.of_nat (length inp)) (Z.of_nat (length out)) ip op out = Ok r /\ step_safe inp out ip op r.
Proof.
  intros Hb Hip (o & rest & -> & ->)%buffer_split. unfold decompress_step.
  destruct (rdZ_byte inp ip Hb Hip) as (ctrl & -> & Hc). rewrite bind_ok. unfold byte_ok in Hc.
  change (Z.shiftl 1 5) with 32. case_bool.
  - repeat case_bool; [by eexists..|].
    destruct (buffer_split inp (ip + 1)) as (a & b & -> & Ha); [lia|].
    assert (b = take (Z.to_nat (ctrl + 1)) b ++ drop (Z.to_nat (ctrl + 1)) b) as E by (by rewrite take_drop).
    rewrite length_app in *. set (l := take (Z.to_nat (ctrl + 1)) b) in *.
    assert (length l = Z.to_nat (ctrl + 1)) as Hl by (unfold l; len_lia).
    rewrite Ha, <- Hl, (copy_literal_ok l _ a (drop (Z.to_nat (ctrl + 1)) b)); [|congruence|lia].
    rewrite bind_ok. eexists. split; [done|]. cbn. rewrite !Nat2Z.id, !take_app_length. split_and!; try done; len_lia.
  - assert (0 <= Z.shiftr ctrl 5) by (apply Z.shiftr_nonneg; lia).
    set (hi := Z.shiftl (Z.land ctrl 31) 8).
    assert (0 <= hi) by (apply Z.shiftl_nonneg, Z.land_nonneg; lia).
    rewrite Z.geb_leb. destruct (Z.leb_spec (Z.of_nat (length inp)) (ip + 1)); [by eexists|].
    assert (exists r, (if Z.shiftr ctrl 5 =? 7 then
              b ← rdZ inp (ip + 1);
              if ip + 1 + 1 >=? Z.of_nat (length inp) then Ok None else Ok (Some (Z.shiftr ctrl 5 + b, ip + 1 + 1))
            else Ok (Some (Z.shiftr ctrl 5, ip + 1))) = Ok r /\
      match r with None => True | Some (len, p) => 0 <= len /\ ip < p < Z.of_nat (length inp) end) as (r & -> & Hr).
    { destruct (rdZ_byte inp (ip + 1) Hb) as (b & -> & Hb1); [lia|]. unfold byte_ok in Hb1.
      case_bool; [rewrite bind_ok; case_bool; case_bool|]; eexists; (split; [done|]); cbn; lia. }
    rewrite bind_ok. destruct r as [[len p]|]; [|by eexists].
    destruct (rdZ_byte inp p Hb) as (lo & -> & Hlo); [lia|]. rewrite bind_ok. unfold byte_ok in Hlo.
    rewrite length_app in *. rewrite Z.gtb_ltb.
    destruct (Z.ltb_spec (Z.of_nat (length o + length rest)) (Z.of_nat (length o) + len + 2)); [by eexists|].
    case_bool; [by eexists|].
    replace (Z.of_nat (length o) - hi - 1 - lo) with (Z.of_nat (length o) - (hi + lo) - 1) by lia.
    rewrite copy_ref_ok, bind_ok by lia. eexists. split; [done|]. cbn.
    rewrite Nat2Z.id, take_app_length, take_app_le by (rewrite lz_copy_length; lia). rewrite take_lz_copy.
    rewrite length_app, lz_copy_length. split_and!; try done; len_lia.
Qed.

Lemma decompress_loop_safe inp fuel : Forall byte_ok inp -> forall ip op out,
  0 <= ip < Z.of_nat (length inp) -> 0 <= op <= Z.of_nat (length out) -> Z.of_nat (length inp) - ip < Z.of_nat fuel ->
  exists r, decompress_loop inp (Z.of_nat (length inp)) (Z.of_nat (length out)) fuel ip op out = Ok r /\
    match r with
    | inl _ => True
    | inr (n, out') => op < n <= Z.of_nat (length out) /\ length out' = length out
    end.
Proof.
  intros Hb. induction fuel as [|f IH]; intros ip op out Hip Hop Hf; [lia|]. cbn [decompress_loop].
  destruct (decompress_step_safe inp ip op out) as (r & -> & Hr); [done..|]. rewrite bind_ok.
  destruct r as [e|[[ip' op'] out']]; [by eexists|]. cbn in Hr. destruct Hr as (Hi & Ho & Hl & _).
  case_bool; [|eexists; split; [done|]; cbn; lia]. rewrite <- Hl.
  destruct (IH ip' op' out') as (r & -> & Hr); [lia..|]. eexists. split; [done|].
  destruct r as [|[n o']]; [done|]. lia.
Qed.

(** ** The decompressor reads the format *)

Lemma ref_fields h l : 0 <= h < 32 -> 0 <= l -> Z.shiftr (h + l * 32) 5 = l /\ Z.land (h + l * 32) 31 = h.
Proof.
  intros Hh Hl. rewrite Z.shiftr_div_pow2 by lia. change 31 with (Z.ones 5). rewrite Z.land_ones by lia.
  change (2 ^ 5) with 32. rewrite Z.div_add, Z_mod_plus_full, Z.div_small, Z.mod_small by lia. lia.
Qed.

(** One token: the bytes after [c] are read and their meaning is appended. *)
Definition reads (c tok o o' : bytes) : Prop :=
  forall c2 out, (length o' <= length o + length out)%nat ->
    decompress_step (c ++ tok ++ c2) (Z.of_nat (length (c ++ tok ++ c2))) (Z.of_nat (length (o ++ out)))
      (Z.of_nat (length c)) (Z.of_nat (length o)) (o ++ out) =
    Ok (inr (Z.of_nat (length (c ++ tok)), Z.of_nat (length o'), o' ++ drop (length o' - length o) out)).

Lemma reads_literal c o l : (1 <= length l <= 32)%nat -> reads c (Z.of_nat (length l) - 1 :: l) o (o ++ l).
Proof.
  intros Hl c2 out Hout. unfold decompress_step. cbn [app]. rewrite (rdZ_at c _ _ (Z.of_nat (length c))), bind_ok by done.
  change (Z.shiftl 1 5) with 32. rewrite length_app in Hout. len_simpl. repeat case_bool; try lia.
  replace (Z.to_nat (Z.of_nat (length l) - 1 + 1)) with (length l) by lia.
  replace (Z.of_nat (length c) + 1) with (Z.of_nat (length (c ++ [Z.of_nat (length l) - 1]))) by len_lia.
  rewrite (copy_literal_ok l _ _ c2); [|by rewrite <- app_assoc|lia].
  rewrite bind_ok. rewrite <- app_assoc. repeat f_equal; len_lia.
Qed.

Lemma reads_ref c o off len tok b :
  0 <= off < 8192 -> off < Z.of_nat (length o) -> 1 <= len ->
  (len < 7 /\ tok = [off / 256 + len * 32; off mod 256] \/
   7 <= len /\ b = len - 7 /\ tok = [off / 256 + 224; b; off mod 256]) ->
  reads c tok o (lz_copy (Z.to_nat (len + 2)) (Z.to_nat off) o).
Proof.
  intros Hoff Ho Hlen Htok c2 out Hout. rewrite lz_copy_length in Hout |- *.
  assert (0 <= off / 256 < 32) as Hd by (split; [apply Z.div_pos|apply Z.div_lt_upper_bound]; lia).
  pose proof (Z.mod_pos_bound off 256 ltac:(lia)) as Hm.
  assert (Z.of_nat (length o) - Z.shiftl (off / 256) 8 - 1 - off mod 256 = Z.of_nat (length o) - off - 1) as Hr.
  { rewrite Z.shiftl_mul_pow2 by lia. change (2 ^ 8) with 256. pose proof (Z.div_mod off 256). lia. }
  assert (length o + Z.to_nat (len + 2) - length o = Z.to_nat (len + 2))%nat as E1 by lia.
  assert ((Z.of_nat (length o) + len + 2 >? Z.of_nat (length (o ++ out))) = false) as E2.
  { rewrite length_app, Z.gtb_ltb. apply Z.ltb_ge. lia. }
  unfold decompress_step. destruct Htok as [[Hl ->]|(Hl & -> & ->)]; cbn [app];
    rewrite (rdZ_at c _ _ (Z.of_nat (length c))), bind_ok by done;
    change (Z.shiftl 1 5) with 32.
  - destruct (ref_fields (off / 256) len) as [-> ->]; [lia..|]. rewrite (proj2 (Z.ltb_ge _ 32)) by lia.
    rewrite (proj2 (Z.eqb_neq len 7)) by lia.
    rewrite Z.geb_leb, (proj2 (Z.leb_gt _ _)) by len_lia. rewrite bind_ok.
    replace (c ++ off / 256 + len * 32 :: off mod 256 :: c2) with ((c ++ [off / 256 + len * 32]) ++ off mod 256 :: c2)
      by (by rewrite <- app_assoc).
    rewrite rdZ_at, bind_ok by len_lia. rewrite E2, Hr. rewrite (proj2 (Z.ltb_ge _ 0)) by lia.
    rewrite copy_ref_ok, bind_ok, E1 by lia. repeat f_equal; len_lia.
  - change 224 with (7 * 32). destruct (ref_fields (off / 256) 7) as [-> ->]; [lia..|]. rewrite (proj2 (Z.ltb_ge _ 32)) by lia.
    rewrite Z.eqb_refl. rewrite !Z.geb_leb. rewrite (proj2 (Z.leb_gt _ (Z.of_nat (length c) + 1))) by len_lia.
    replace (c ++ off / 256 + 7 * 32 :: len - 7 :: off mod 256 :: c2)
      with ((c ++ [off / 256 + 7 * 32]) ++ len - 7 :: off mod 256 :: c2) by (by rewrite <- app_assoc).
    rewrite rdZ_at, bind_ok by len_lia. rewrite (proj2 (Z.leb_gt _ _)) by len_lia. rewrite bind_ok.
    replace ((c ++ [off / 256 + 7 * 32]) ++ len - 7 :: off mod 256 :: c2)
      with ((c ++ [off / 256 + 7 * 32; len - 7]) ++ off mod 256 :: c2) by (by rewrite <- !app_assoc).
    rewrite rdZ_at, bind_ok by len_lia. replace (7 + (len - 7)) with len by lia.
    rewrite E2, Hr. rewrite (proj2 (Z.ltb_ge _ 0)) by lia.
    rewrite copy_ref_ok, bind_ok, E1 by lia. repeat f_equal; len_lia.
Qed.

(** The head of the loop. *)
Definition decompress_from (inp : bytes) (n : Z) (fuel : nat) (ip op : Z) (out : bytes) : res (lzf_errno + Z * bytes) :=
  if ip <? Z.of_nat (length inp) then decompress_loop inp (Z.of_nat (length inp)) n fuel ip op out else Ok (inr (op, out)).

(** The loop gets past the tokens of [c]. *)
Definition passes (c o : bytes) : Prop :=
  forall c2 out, (length o <= length out)%nat -> exists k, (k <= length c)%nat /\ forall fuel,
    decompress_from (c ++ c2) (Z.of_nat (length out)) (k + fuel) 0 0 out =
    decompress_from (c ++ c2) (Z.of_nat (length out)) fuel (Z.of_nat (length c)) (Z.of_nat (length o)) (o ++ drop (length o) out).

Lemma passes_token c tok o o' : tok <> [] -> (length o <= length o')%nat -> passes c o -> reads c tok o o' -> passes (c ++ tok) o'.
Proof.
  intros Ht Hlen Hp Hr c2 out Hout. destruct (Hp (tok ++ c2) out) as (k & Hk & H); [lia|].
  assert (0 < length tok)%nat by (destruct tok; cbn; [done|lia]).
  exists (k + 1)%nat. split; [len_lia|]. intros fuel. rewrite <- app_assoc, <- Nat.add_assoc, H.
  unfold decompress_from at 1. rewrite (proj2 (Z.ltb_lt _ _)) by len_lia. cbn [Nat.add decompress_loop].
  specialize (Hr c2 (drop (length o) out)).
  assert (length (o ++ drop (length o) out) = length out) as Ho by len_lia. rewrite Ho in Hr.
  rewrite Hr by len_lia. rewrite bind_ok. rewrite drop_drop.
  replace (length o + (length o' - length o))%nat with (length o') by lia. done.
Qed.

Lemma decodes_passes c o : decodes c o -> passes c o.
Proof.
  induction 1 as [|c o l _ IH Hl|c o off len _ IH Hoff Ho Hlen|c o off len _ IH Hoff Ho Hlen].
  - intros c2 out _. exists 0%nat. split; [lia|]. intros fuel. by rewrite drop_0.
  - apply (passes_token c _ o); [by intros ?|len_lia|exact IH|by apply reads_literal].
  - apply (passes_token c _ o); [by intros ?|rewrite lz_copy_length; lia|exact IH|].
    apply (reads_ref _ _ _ _ _ 0); [lia..|]. left. split; [lia|done].
  - apply (passes_token c _ o); [by intros ?|rewrite lz_copy_length; lia|exact IH|].
    eapply reads_ref; [lia..|]. right. split; [lia|]. split; reflexivity.
Qed.

(** A compressed string is read back, whatever the target held. *)
Lemma decompress_decodes c o out : decodes c o -> c <> [] -> (length o <= length out)%nat ->
  lzf_decompress c (Z.of_nat (length c)) out (Z.of_nat (length out)) =
    Ok (inr (Z.of_nat (length o), o ++ drop (length o) out)).
Proof.
  intros Hd Hc Hout. destruct (decodes_passes c o Hd [] out Hout) as (k & Hk & H).
  unfold lzf_decompress. specialize (H (S (length c) - k)%nat). rewrite app_nil_r in H.
  replace (k + (S (length c) - k))%nat with (S (Z.to_nat (Z.of_nat (length c)))) in H by lia.
  unfold decompress_from in H. rewrite Z.ltb_irrefl in H.
  rewrite (proj2 (Z.ltb_lt _ _)) in H by (destruct c; cbn; [done|lia]). exact H.
Qed.

(** ** The compressor writes the format *)

Lemma match_unrolled_ok inp ref ip n : forall len,
  0 <= ref < ip -> 0 <= len -> ip + len + Z.of_nat n < Z.of_nat (length inp) ->
  (forall k, 0 <= k <= len -> nth (Z.to_nat (ref + k)) inp 0 = nth (Z.to_nat (ip + k)) inp 0) ->
  exists len' stop, match_unrolled n inp ref ip len = Ok (len', stop) /\ len <= len' <= len + Z.of_nat n /\
    (if (stop : bool) then len < len' /\ forall k, 0 <= k < len' -> nth (Z.to_nat (ref + k)) inp 0 = nth (Z.to_nat (ip + k)) inp 0
     else len' = len + Z.of_nat n /\ forall k, 0 <= k <= len' -> nth (Z.to_nat (ref + k)) inp 0 = nth (Z.to_nat (ip + k)) inp 0).
Proof.
  induction n as [|n IH]; intros len Hr Hl Hn Heq; cbn [match_unrolled].
  { exists len, false. split; [done|]. split; [lia|]. split; [lia|done]. }
  rewrite !rdZ_nth, !bind_ok by lia. case_bool.
  - destruct (IH (len + 1)) as (len' & stop & -> & H1 & H2); [lia..| |].
    { intros k Hk. destruct (decide (k = len + 1)) as [->|]; [done|]. apply Heq. lia. }
    exists len', stop. split; [done|]. split; [lia|]. destruct stop; destruct H2; split; (lia || done).
  - exists (len + 1), true. split; [done|]. split; [lia|]. split; [lia|]. intros k Hk. apply Heq. lia.
Qed.

Lemma match_loop_ok inp ref ip maxlen fuel : forall len,
  0 <= ref < ip -> 0 <= len -> ip + maxlen + 2 <= Z.of_nat (length inp) -> len <= maxlen + 1 -> maxlen - len < Z.of_nat fuel ->
  (0 < fuel)%nat ->
  (forall k, 0 <= k <= len -> nth (Z.to_nat (ref + k)) inp 0 = nth (Z.to_nat (ip + k)) inp 0) ->
  exists len', match_loop fuel inp ref ip maxlen len = Ok len' /\ len < len' <= Z.max (len + 1) maxlen /\
    forall k, 0 <= k < len' -> nth (Z.to_nat (ref + k)) inp 0 = nth (Z.to_nat (ip + k)) inp 0.
Proof.
  induction fuel as [|f IH]; intros len Hr Hl Hn Hm Hf H0 Heq; [lia|]. cbn [match_loop].
  destruct (Z.ltb_spec (len + 1) maxlen).
  2:{ exists (len + 1). split; [done|]. split; [lia|]. intros. apply Heq. lia. }
  rewrite !rdZ_nth, !bind_ok by lia. case_bool.
  - destruct (IH (len + 1)) as (len' & -> & H1 & H2); [lia..| |].
    { intros k Hk. destruct (decide (k = len + 1)) as [->|]; [done|]. apply Heq. lia. }
    exists len'. split; [done|]. split; [lia|done].
  - exists (len + 1). split; [done|]. split; [lia|]. intros. apply Heq. lia.
Qed.

(** The match found: at least three bytes, and it ends inside the input. *)
Lemma match_len_ok inp ref ip maxlen :
  0 <= ref < ip -> 1 <= maxlen <= 264 -> ip + maxlen + 2 <= Z.of_nat (length inp) ->
  (forall k, 0 <= k <= 2 -> nth (Z.to_nat (ref + k)) inp 0 = nth (Z.to_nat (ip + k)) inp 0) ->
  exists len, match_len inp ref ip maxlen = Ok len /\ 3 <= len <= 264 /\ len <= maxlen + 2 /\
    forall k, 0 <= k < len -> nth (Z.to_nat (ref + k)) inp 0 = nth (Z.to_nat (ip + k)) inp 0.
Proof.
  intros Hr Hm Hn Heq. unfold match_len. change (Z.to_nat MAX_REF) with 264%nat. rewrite Z.gtb_ltb.
  destruct (Z.ltb_spec 16 maxlen).
  - destruct (match_unrolled_ok inp ref ip 16 2) as (len & stop & -> & H1 & H2); [lia..|done|].
    rewrite bind_ok. destruct stop; destruct H2 as [H2 H3].
    + exists len. split; [done|]. split; [lia|]. split; [lia|done].
    + destruct (match_loop_ok inp ref ip maxlen 264 len) as (l & -> & H4 & H5); [lia..|done|].
      exists l. split; [done|]. split; [lia|]. split; [lia|done].
  - rewrite bind_ok. destruct (match_loop_ok inp ref ip maxlen 264 2) as (l & -> & H4 & H5); [lia..|done|].
    exists l. split; [done|]. split; [lia|]. split; [lia|done].
Qed.

(** The compressor between two iterations: the output is a finished part [c], the
    cell reserved for the header of the current run, and the run [l]. *)
Definition running (inp : bytes) (ip op lit : Z) (out : bytes) : Prop :=
  exists c x l rest o, out = c ++ x :: l ++ rest /\ op = Z.of_nat (length c) + 1 + lit /\ lit = Z.of_nat (length l) /\
    lit < 32 /\ 0 <= ip <= Z.of_nat (length inp) /\ decodes c o /\ take (Z.to_nat ip) inp = o ++ l.

Lemma wrZ_app c x rest i b : i = Z.of_nat (length c) -> wrZ (c ++ x :: rest) i b = Ok (c ++ b :: rest).
Proof. apply wrZ_at. Qed.

Lemma take_next (inp : bytes) ip : 0 <= ip < Z.of_nat (length inp) ->
  take (Z.to_nat (ip + 1)) inp = take (Z.to_nat ip) inp ++ [nth (Z.to_nat ip) inp 0].
Proof.
  intros Hi. replace (Z.to_nat (ip + 1)) with (S (Z.to_nat ip)) by lia. apply take_S_r.
  destruct (lookup_lt_is_Some_2 inp (Z.to_nat ip)) as [y Hy]; [lia|]. by rewrite Hy, (nth_lookup_Some _ _ _ _ Hy).
Qed.

Lemma put_literal_ok inp ip op lit out :
  running inp ip op lit out -> ip < Z.of_nat (length inp) -> op + 1 < Z.of_nat (length out) ->
  exists op' lit' out', put_literal inp ip op lit out = Ok (ip + 1, op', lit', out') /\
    running inp (ip + 1) op' lit' out' /\ length out' = length out /\
    (op' = op + 1 /\ lit' = lit + 1 \/ op' = op + 2 /\ lit' = 0 /\ lit = 31).
Proof.
  intros (c & x & l & rest & o & -> & Hop & Hlit & H32 & Hip & Hd & Ht) Hin Hout. unfold put_literal.
  rewrite rdZ_nth, bind_ok by lia. pose proof (take_next inp ip ltac:(lia)) as Hn.
  set (b := nth _ _ _) in *. rewrite Ht, <- app_assoc in Hn.
  destruct rest as [|y [|z rest]]; [revert Hout; len_lia..|].
  replace (c ++ x :: l ++ y :: z :: rest) with ((c ++ x :: l) ++ y :: z :: rest) by (by rewrite <- app_assoc).
  rewrite wrZ_app, bind_ok by len_lia. rewrite <- app_assoc. cbn [app].
  change MAX_LIT with 32. destruct (Z.eqb_spec (lit + 1) 32).
  - rewrite wrZ_app, bind_ok by lia. do 3 eexists. split; [done|].
    replace (u8 (lit + 1 - 1)) with (Z.of_nat (length (l ++ [b])) - 1) by (rewrite length_app; cbn [length]; unfold u8; rewrite Z.mod_small; lia).
    split; [|split; [len_lia|lia]].
    exists (c ++ (Z.of_nat (length (l ++ [b])) - 1 :: l ++ [b])), z, [], rest, (o ++ l ++ [b]).
    split; [by rewrite <- !app_assoc; cbn [app]; rewrite <- app_assoc|]. split; [len_lia|]. split; [done|]. split; [lia|].
    split; [lia|]. split; [apply decodes_literal; [done|len_lia]|]. by rewrite app_nil_r.
  - do 3 eexists. split; [done|]. split; [|split; [len_lia|lia]].
    exists c, x, (l ++ [b]), (z :: rest), o. split; [by rewrite <- app_assoc|]. split_and!; try done; len_lia.
Qed.

Lemma not_int_spec lit : 0 <= lit -> not_int lit = 1 /\ lit = 0 \/ not_int lit = 0 /\ 0 < lit.
Proof. intros. unfold not_int. case_bool; lia. Qed.

(** The run is ended before a back reference, or at the end. *)
Lemma stop_run_ok inp ip op lit out :
  running inp ip op lit out -> op - 1 < Z.of_nat (length out) ->
  exists out' c rest o, wrZ out (op - lit - 1) (u8 (lit - 1)) = Ok out' /\ out' = c ++ rest /\ length out' = length out /\
    op - not_int lit = Z.of_nat (length c) /\ decodes c o /\ o = take (Z.to_nat ip) inp.
Proof.
  intros (c & x & l & rest & o & -> & Hop & Hlit & H32 & Hip & Hd & Ht) Hout.
  rewrite wrZ_app by lia. destruct (not_int_spec lit) as [[-> H0]|[-> H0]]; [lia| |].
  - destruct l; [|cbn in Hlit; lia]. rewrite app_nil_r in Ht. do 4 eexists. split; [done|]. split; [done|].
    split; [len_lia|]. split; [lia|]. split; [exact Hd|done].
  - exists (c ++ u8 (lit - 1) :: l ++ rest), (c ++ (Z.of_nat (length l) - 1 :: l)), rest, (o ++ l).
    replace (u8 (lit - 1)) with (Z.of_nat (length l) - 1) by (unfold u8; rewrite Z.mod_small; lia).
    split; [done|]. split; [by rewrite <- app_assoc|]. split; [len_lia|]. split; [len_lia|].
    split; [|done]. apply decodes_literal; [done|lia].
Qed.

(** Equal bytes at a distance are a back reference. *)
Lemma lz_copy_match inp ref ip len :
  0 <= ref < ip -> ip + len <= Z.of_nat (length inp) -> 0 <= len ->
  (forall k, 0 <= k < len -> nth (Z.to_nat (ref + k)) inp 0 = nth (Z.to_nat (ip + k)) inp 0) ->
  lz_copy (Z.to_nat len) (Z.to_nat (ip - ref - 1)) (take (Z.to_nat ip) inp) = take (Z.to_nat (ip + len)) inp.
Proof.
  intros Hr Hn Hl. remember (Z.to_nat len) as n eqn:En. assert (len = Z.of_nat n) as -> by lia. clear En Hl.
  revert ref ip Hr Hn. induction n as [|n IH]; intros ref ip Hr Hn Heq; cbn [lz_copy]; [f_equal; lia|].
  assert (length (take (Z.to_nat ip) inp) = Z.to_nat ip) as L by len_lia.
  assert (nth (length (take (Z.to_nat ip) inp) - Z.to_nat (ip - ref - 1) - 1) (take (Z.to_nat ip) inp) 0 = nth (Z.to_nat ip) inp 0) as ->.
  { rewrite L. replace (Z.to_nat ip - Z.to_nat (ip - ref - 1) - 1)%nat with (Z.to_nat ref) by lia.
    specialize (Heq 0). rewrite !Z.add_0_r in Heq. rewrite <- Heq by lia.
    rewrite <- (take_drop (Z.to_nat ip) inp) at 2. by rewrite app_nth1 by lia. }
  rewrite <- take_next by lia. replace (ip - ref - 1) with ((ip + 1) - (ref + 1) - 1) by lia. rewrite IH; [f_equal; lia|lia..|].
  intros k Hk. specialize (Heq (k + 1)). replace (ref + 1 + k) with (ref + (k + 1)) by lia.
  replace (ip + 1 + k) with (ip + (k + 1)) by lia. apply Heq. lia.
Qed.

(** The bytes of the reference. *)
Lemma write_ref_ok c rest off len o :
  0 <= off < 8192 -> 1 <= len <= 262 -> off < Z.of_nat (length o) -> (4 <= length rest)%nat -> decodes c o ->
  exists c' x rest', write_ref (c ++ rest) (Z.of_nat (length c)) off len = Ok (c' ++ x :: rest', Z.of_nat (length c')) /\
    length (c' ++ x :: rest') = length (c ++ rest) /\ (length c' <= length c + 3)%nat /\
    decodes c' (lz_copy (Z.to_nat (len + 2)) (Z.to_nat off) o).
Proof.
  intros Ho Hl Hlt Hr Hd. destruct rest as [|a [|b [|d [|e rest]]]]; [cbn in Hr; lia..|].
  assert (0 <= off / 256 < 32) as Hdiv by (split; [apply Z.div_pos|apply Z.div_lt_upper_bound]; lia).
  assert (u8 off = off mod 256) as Hlow by done. unfold write_ref.
  rewrite Z.shiftr_div_pow2, !Z.shiftl_mul_pow2 by lia. change (2 ^ 8) with 256. change (2 ^ 5) with 32.
  destruct (Z.ltb_spec len 7).
  - replace (u8 (off / 256 + len * 32)) with (off / 256 + len * 32) by (unfold u8; rewrite Z.mod_small; lia).
    rewrite wrZ_app, bind_ok by done. rewrite bind_ok.
    replace (c ++ off / 256 + len * 32 :: b :: d :: e :: rest) with ((c ++ [off / 256 + len * 32]) ++ b :: d :: e :: rest) by (by rewrite <- app_assoc).
    rewrite wrZ_app, bind_ok by len_lia. rewrite Hlow, <- app_assoc.
    exists (c ++ [off / 256 + len * 32; off mod 256]), d, (e :: rest).
    split; [rewrite <- app_assoc; repeat f_equal; len_lia|]. split; [len_lia|]. split; [len_lia|]. apply decodes_short; (done || lia).
  - change (7 * 32) with 224. replace (u8 (off / 256 + 224)) with (off / 256 + 224) by (unfold u8; rewrite Z.mod_small; lia).
    rewrite wrZ_app, bind_ok by done.
    replace (c ++ off / 256 + 224 :: b :: d :: e :: rest) with ((c ++ [off / 256 + 224]) ++ b :: d :: e :: rest) by (by rewrite <- app_assoc).
    rewrite wrZ_app, bind_ok by len_lia. rewrite bind_ok. rewrite <- app_assoc. cbn [app].
    replace (u8 (len - 7)) with (len - 7) by (unfold u8; rewrite Z.mod_small; lia).
    replace (c ++ off / 256 + 224 :: len - 7 :: d :: e :: rest) with ((c ++ [off / 256 + 224; len - 7]) ++ d :: e :: rest) by (by rewrite <- app_assoc).
    rewrite wrZ_app, bind_ok by len_lia. rewrite Hlow, <- app_assoc.
    exists (c ++ [off / 256 + 224; len - 7; off mod 256]), e, rest.
    split; [rewrite <- app_assoc; repeat f_equal; len_lia|]. split; [len_lia|]. split; [len_lia|]. apply decodes_long; (done || lia).
Qed.

Lemma is_match_ok inp ref ip : 0 <= ip -> ip + 2 < Z.of_nat (length inp) < 2 ^ 32 -> 0 <= ref < 2 ^ 32 ->
  exists b, is_match inp ref ip = Ok b /\
    (b = true -> 0 < ref < ip /\ u64 (ip - ref - 1) = ip - ref - 1 /\ ip - ref - 1 < 8192 /\
      forall k, 0 <= k <= 2 -> nth (Z.to_nat (ref + k)) inp 0 = nth (Z.to_nat (ip + k)) inp 0).
Proof.
  intros Hip Hin Href. unfold is_match. change MAX_OFF with 8192. rewrite Z.gtb_ltb.
  destruct (Z.ltb_spec (u64 (ip - ref - 1)) 8192) as [Hu|]; cbn [andb]; [|by exists false].
  destruct (Z.ltb_spec 0 ref); [|by exists false].
  destruct (decide (ref < ip)).
  2:{ exfalso. unfold u64 in Hu.
      rewrite <- (Z.mod_unique (ip - ref - 1) (2 ^ 64) (-1) (ip - ref - 1 + 2 ^ 64)) in Hu; lia. }
  assert (u64 (ip - ref - 1) = ip - ref - 1) as E by (apply u64_small; lia).
  rewrite !rdZ_nth, !bind_ok by lia. destruct (Z.eqb_spec (nth (Z.to_nat (ref + 2)) inp 0) (nth (Z.to_nat (ip + 2)) inp 0)); [|by exists false].
  eexists. split; [done|]. intros [H0%Z.eqb_eq H1%Z.eqb_eq]%andb_true_iff. split; [lia|]. split; [done|]. split; [lia|].
  intros k Hk. assert (k = 0 \/ k = 1 \/ k = 2) as [->|[->| ->]] by lia; [by rewrite !Z.add_0_r|done..].
Qed.

(** A back reference is emitted for the match at [ref]. *)
Lemma emit_ref_ok inp ref ip op lit out out_end len :
  running inp ip op lit out -> out_end < Z.of_nat (length out) -> op - not_int lit + 4 < out_end ->
  0 < ref < ip -> ip - ref - 1 < 8192 -> 3 <= len <= 264 -> ip + len <= Z.of_nat (length inp) ->
  (forall k, 0 <= k < len -> nth (Z.to_nat (ref + k)) inp 0 = nth (Z.to_nat (ip + k)) inp 0) ->
  exists out1 out2 op', wrZ out (op - lit - 1) (u8 (lit - 1)) = Ok out1 /\
    write_ref out1 (op - not_int lit) (ip - ref - 1) (len - 2) = Ok (out2, op') /\
    running inp (ip + len) (op' + 1) 0 out2 /\ length out2 = length out /\ op' <= out_end.
Proof.
  intros Hrun Hend Hsize Href Hoff Hlen Hin Heq.
  assert (0 <= ip /\ 0 <= lit) as [Hip Hlit] by (destruct Hrun as (?&?&?&?&?&_&_&->&_&?&_); lia).
  destruct (stop_run_ok inp ip op lit out) as (out1 & c & rest & o & -> & -> & Hl & Hop & Hd & ->); [done| |].
  { destruct (not_int_spec lit Hlit) as [[E _]|[E _]]; rewrite E in Hsize; lia. }
  rewrite length_app in Hl. rewrite Hop in Hsize |- *.
  destruct (write_ref_ok c rest (ip - ref - 1) (len - 2) (take (Z.to_nat ip) inp)) as (c' & x & rest' & Hw & Hl' & Hc' & Hd');
    [lia|lia|len_lia|lia|done|].
  eexists _, _, _. split; [done|]. split; [exact Hw|]. rewrite Hl', length_app. split; [|lia].
  replace (len - 2 + 2) with len in Hd' by lia. rewrite lz_copy_match in Hd' by (done || lia).
  exists c', x, [], rest', (take (Z.to_nat (ip + len)) inp). split; [done|]. split; [lia|]. split; [done|]. split; [lia|].
  split; [lia|]. split; [done|]. by rewrite app_nil_r.
Qed.

Lemma FRST_ok inp p : 0 <= p -> p + 1 < Z.of_nat (length inp) -> exists h, FRST inp p = Ok h.
Proof. intros. unfold FRST. rewrite !rdZ_nth by lia. by eexists. Qed.

Lemma NEXT_ok v inp p : 0 <= p -> p + 2 < Z.of_nat (length inp) -> exists h, NEXT v inp p = Ok h.
Proof. intros. unfold NEXT. rewrite rdZ_nth by lia. by eexists. Qed.

Lemma compress_loop_ok inp out_end fuel : Z.of_nat (length inp) < 2 ^ 32 -> forall ip op lit hval htab out,
  running inp ip op lit out -> out_end < Z.of_nat (length out) -> Z.of_nat (length inp) - ip <= Z.of_nat fuel ->
  exists r, compress_loop inp (Z.of_nat (length inp)) out_end fuel ip op lit hval htab out = Ok r /\
    match r with
    | None => True
    | Some (ip', op', lit', out') =>
        running inp ip' op' lit' out' /\ length out' = length out /\ Z.of_nat (length inp) - 2 <= ip'
    end.
Proof.
  intros H32. induction fuel as [|f IH]; intros ip op lit hval htab out Hrun Hend Hf; cbn [compress_loop];
    destruct (Z.ltb_spec ip (Z.of_nat (length inp) - 2)) as [Hlt|]; try lia; try (eexists; split; [done|]; cbn; split; [done|lia]).
  assert (0 <= ip) as Hip by (destruct Hrun as (?&?&?&?&?&_&_&_&_&?&_); lia).
  destruct (NEXT_ok hval inp ip) as [hv ->]; [lia..|]. rewrite bind_ok. set (ref := slot htab (IDX hv)).
  destruct (is_match_ok inp ref ip) as (b & -> & Hm); [done|lia|apply u32_range|]. rewrite bind_ok. destruct b.
  2:{ rewrite Z.geb_leb. destruct (Z.leb_spec out_end op); [by exists None|].
      destruct (put_literal_ok inp ip op lit out) as (op' & lit' & out' & -> & Hrun' & Hl & _); [done|lia..|]. rewrite bind_ok.
      destruct (IH (ip + 1) op' lit' hv (set_slot htab (IDX hv) ip) out') as (r & -> & Hr); [done|lia..|].
      exists r. split; [done|]. destruct r as [[[[??]?]?]|]; [|done]. by rewrite Hl in Hr. }
  destruct (Hm eq_refl) as (Href & -> & Hoff & Heq). rewrite u32_small by lia. change MAX_REF with 264.
  set (maxlen := if Z.of_nat (length inp) - ip - 2 >? 264 then 264 else Z.of_nat (length inp) - ip - 2).
  assert (1 <= maxlen <= 264 /\ ip + maxlen + 2 <= Z.of_nat (length inp)) as [Hmax Hmax'] by (subst maxlen; case_bool; case_bool; lia).
  destruct ((op + 3 + 1 >=? out_end) && (op - not_int lit + 3 + 1 >=? out_end)) eqn:Hsz; [by exists None|].
  assert (op - not_int lit + 4 < out_end) as Hsz'.
  { apply andb_false_iff in Hsz. rewrite !Z.geb_leb, !Z.leb_gt in Hsz.
    assert (0 <= lit) by (destruct Hrun as (?&?&?&?&?&_&_&->&_); lia). destruct (not_int_spec lit); lia. }
  destruct (match_len_ok inp ref ip maxlen) as (len & Hml & Hlen & Hlen' & Heq'); [lia..|done|].
  destruct (emit_ref_ok inp ref ip op lit out out_end len) as (out1 & out2 & op' & -> & Hw & Hrun' & Hl & Hop'); [done..|lia|done|].
  rewrite bind_ok, Hml, bind_ok, Hw, bind_ok. replace (ip + 1 + (len - 2 + 1)) with (ip + len) by lia.
  rewrite Z.geb_leb. destruct (Z.leb_spec (Z.of_nat (length inp) - 2) (ip + len)).
  { eexists. split; [done|]. split; [done|]. lia. }
  destruct (FRST_ok inp (ip + len - 1 - 1)) as [h0 ->]; [lia..|]. rewrite bind_ok.
  destruct (NEXT_ok h0 inp (ip + len - 1 - 1)) as [h1 ->]; [lia..|]. rewrite bind_ok.
  destruct (NEXT_ok h1 inp (ip + len - 1 - 1 + 1)) as [h2 ->]; [lia..|]. rewrite bind_ok.
  replace (ip + len - 1 - 1 + 1 + 1) with (ip + len) by lia.
  match goal with |- context [compress_loop _ _ _ f _ _ _ ?h ?t _] =>
    destruct (IH (ip + len) (op' + 1) 0 h t out2) as (r & -> & Hr); [done|lia..|] end.
  exists r. split; [done|]. destruct r as [[[[??]?]?]|]; [|done]. by rewrite Hl in Hr.
Qed.

(** [e] is 1 when the run may fill up among the last bytes. *)
Lemma tail_loop_ok inp fuel : forall ip op lit out e,
  running inp ip op lit out -> Z.of_nat (length inp) - ip <= Z.of_nat fuel -> Z.of_nat (length inp) - ip <= 2 ->
  (e = 0 /\ lit + (Z.of_nat (length inp) - ip) < 32 \/ e = 1) -> op + e + (Z.of_nat (length inp) - ip) < Z.of_nat (length out) ->
  exists op' lit' out', tail_loop inp (Z.of_nat (length inp)) fuel ip op lit out = Ok (op', lit', out') /\
    running inp (Z.of_nat (length inp)) op' lit' out' /\ length out' = length out /\
    op' <= op + e + (Z.of_nat (length inp) - ip).
Proof.
  induction fuel as [|f IH]; intros ip op lit out e Hrun Hf H2 He Hop; cbn [tail_loop];
    (assert (ip <= Z.of_nat (length inp) /\ 0 <= lit) as [Hip Hlit] by (destruct Hrun as (?&?&?&?&?&_&_&?&_&?&_); lia));
    destruct (Z.ltb_spec ip (Z.of_nat (length inp))); try lia;
    try (assert (ip = Z.of_nat (length inp)) as -> by lia; do 3 eexists; split; [done|]; split; [done|]; lia).
  destruct (put_literal_ok inp ip op lit out) as (op1 & lit1 & out1 & -> & Hrun1 & Hl & Hop1); [done|lia..|]. rewrite bind_ok.
  destruct (IH (ip + 1) op1 lit1 out1 (if decide (lit1 = 0) then 0 else e)) as (op' & lit' & out' & -> & Hrun' & Hl' & Hop');
    [done|lia|lia|case_decide; lia|case_decide; lia|].
  do 3 eexists. split; [done|]. split; [done|]. split; [lia|]. case_decide; lia.
Qed.

(** The compressor never faults, and what it writes stands for the input. The
    buffer has one byte more than [out_len], as the caller allocates it. *)
Lemma lzf_compress_ok htab inp out out_len :
  2 <= Z.of_nat (length inp) < 2 ^ 32 -> 0 <= out_len < Z.of_nat (length out) ->
  exists r, lzf_compress htab inp (Z.of_nat (length inp)) out out_len = Ok r /\
    match r with
    | None => True
    | Some (n, out') => 0 < n <= out_len /\ length out' = length out /\ decodes (take (Z.to_nat n) out') inp
    end.
Proof.
  intros Hin Hout. unfold lzf_compress. rewrite (proj2 (Z.eqb_neq _ 0)) by lia. cbn [orb].
  destruct (Z.eqb_spec out_len 0); [by exists None|]. destruct (FRST_ok inp 0) as [h0 ->]; [lia..|]. rewrite bind_ok.
  destruct out as [|x out0] eqn:Eout; [cbn in Hout; lia|]. rewrite <- Eout in *.
  assert (running inp 0 1 0 out) as Hrun.
  { exists [], x, [], out0, []. split; [done|]. split_and!; try done; try lia. apply decodes_nil. }
  match goal with |- context [compress_loop _ _ _ ?f _ _ _ ?h _ _] =>
    destruct (compress_loop_ok inp out_len f ltac:(lia) 0 1 0 h htab out) as (r & -> & Hr); [done|lia..|] end.
  rewrite bind_ok. destruct r as [[[[ip op] lit] out1]|]; [|by exists None]. destruct Hr as (Hrun1 & Hl1 & Hip).
  rewrite Z.gtb_ltb. destruct (Z.ltb_spec out_len (op + 3)); [by exists None|].
  assert (0 <= ip) by (destruct Hrun1 as (?&?&?&?&?&_&_&_&_&?&_); lia).
  destruct (tail_loop_ok inp (Z.to_nat (Z.of_nat (length inp))) ip op lit out1 1) as (op2 & lit2 & out2 & -> & Hrun2 & Hl2 & Hop2); [done|lia..|].
  rewrite bind_ok.
  destruct (stop_run_ok inp _ op2 lit2 out2 Hrun2) as (out3 & c & rest & o & -> & -> & Hl3 & Hop3 & Hd & ->); [lia|].
  rewrite bind_ok. eexists. split; [done|]. rewrite Hop3.
  rewrite Nat2Z.id in Hd. rewrite Nat2Z.id, take_app_length. rewrite take_ge in Hd by lia.
  assert (0 < length c)%nat.
  { destruct c; [|cbn; lia]. exfalso. inversion Hd as [Hc Ho|? ? ? ? ? Hc|? ? ? ? ? ? ? ? Hc|? ? ? ? ? ? ? ? Hc];
      [rewrite <- Ho in Hin; cbn in Hin; lia|by symmetry in Hc; apply app_cons_not_nil in Hc..]. }
  split; [|split; [lia|done]]. split; [lia|]. rewrite <- Hop3.
  assert (0 <= lit2) by (destruct Hrun2 as (?&?&?&?&?&_&_&->&_); lia). destruct (not_int_spec lit2) as [[-> _]|[-> _]]; lia.
Qed.

(** ** Bytes *)

Lemma lz_copy_prefix n off o P : Forall P (lz_copy n off o) -> Forall P o.
Proof. intros H. rewrite <- (take_lz_copy n off o). by apply Forall_take. Qed.

(** Compressed bytes are bytes. *)
Lemma decodes_bytes c o : decodes c o -> Forall byte_ok o -> Forall byte_ok c.
Proof.
  induction 1 as [|c o l _ IH Hl|c o off len _ IH Hoff Ho Hlen|c o off len _ IH Hoff Ho Hlen]; intros Hb; [constructor|..].
  - apply Forall_app in Hb as [? ?]. apply Forall_app. split; [by apply IH|]. constructor; [unfold byte_ok; lia|done].
  - apply lz_copy_prefix in Hb. apply Forall_app. split; [by apply IH|].
    assert (0 <= off / 256 < 32) by (split; [apply Z.div_pos|apply Z.div_lt_upper_bound]; lia).
    pose proof (Z.mod_pos_bound off 256). repeat constructor; unfold byte_ok; lia.
  - apply lz_copy_prefix in Hb. apply Forall_app. split; [by apply IH|].
    assert (0 <= off / 256 < 32) by (split; [apply Z.div_pos|apply Z.div_lt_upper_bound]; lia).
    pose proof (Z.mod_pos_bound off 256). repeat constructor; unfold byte_ok; lia.
Qed.
