(* ===== verification/Rio.v ===== *)
(** * Streams ([src/rio.h], [src/rio.c])

    Model of the stream layer of src/redis-3.2.5/src/rio.h with the file backend
    of rio.c: reads and writes in chunks, and a checksum of all that passed.

    A file that is written takes [r_space] more bytes, after which [fwrite] fails;
    a file that is read ends after [r_file]. A function of the code that uses a
    stream is an [io] computation: its result is [None] when the stream failed,
    which the code signals by the result 0, -1 or a NULL pointer. *)

From S2P Require Import Prelude CLib IntSet Scan Crc64.
Local Open Scope Z_scope.

Record rio := mkRio {
  r_file : bytes;        (* what was written, or what is left to be read *)
  r_space : Z;
  r_update : bool;       (* [update_cksum] computes the checksum *)
  r_cksum : Z;
  r_processed : Z;
  r_chunk : Z            (* [max_processing_chunk] *)
}.

Definition rioInitWithFile (file : bytes) (space : Z) : rio := mkRio file space false 0 0 0.

Definition with_update (b : bool) (r : rio) : rio :=
  mkRio (r_file r) (r_space r) b (r_cksum r) (r_processed r) (r_chunk r).
Definition with_chunk (n : Z) (r : rio) : rio :=
  mkRio (r_file r) (r_space r) (r_update r) (r_cksum r) (r_processed r) n.

(** ** Computations on a stream *)

Definition io (A : Type) : Type := rio -> res (option (A * rio)).

#[export] Instance io_ret : MRet io := fun A a r => Ok (Some (a, r)).

#[export] Instance io_bind : MBind io := fun A B k m r =>
  match m r with
  | Fault e => Fault e
  | Ok None => Ok None
  | Ok (Some (a, r)) => k a r
  end.

(** A computation that does not use the stream, and the failure. *)
Definition lift {A} (m : res A) : io A := fun r => match m with Ok a => Ok (Some (a, r)) | Fault e => Fault e end.
Definition io_fail {A} : io A := fun _ => Ok None.

(** ** Reading and writing *)

Definition chunk_of (r : rio) (len : Z) : Z :=
  if negb (r_chunk r =? 0) && (r_chunk r <? len) then r_chunk r else len.

(** [rioGenericUpdateChecksum], when it is installed. *)
Definition update_cksum (r : rio) (buf : bytes) : res rio :=
  if r_update r then
    c ← crc64 (r_cksum r) buf;
    Ok (mkRio (r_file r) (r_space r) (r_update r) c (r_processed r) (r_chunk r))
  else Ok r.

(** The loop of [rioWrite]: every chunk has a byte, which bounds the fuel. *)
Fixpoint rio_write_loop (fuel : nat) (buf : bytes) (r : rio) : res (option (unit * rio)) :=
  match buf with
  | [] => Ok (Some (tt, r))
  | _ =>
      match fuel with
      | O => Fault OutOfFuel
      | S f =>
          let n := chunk_of r (Z.of_nat (length buf)) in
          let part := take (Z.to_nat n) buf in
          r ← update_cksum r part;
          if r_space r <? n then Ok None else
          rio_write_loop f (drop (Z.to_nat n) buf)
            (mkRio (r_file r ++ part) (r_space r - n) (r_update r) (r_cksum r) (u64 (r_processed r + n)) (r_chunk r))
      end
  end.

Definition rioWrite (buf : bytes) : io unit := rio_write_loop (length buf) buf.

(** The loop of [rioRead]; [got] is what was read. *)
Fixpoint rio_read_loop (fuel : nat) (len : Z) (got : bytes) (r : rio) : res (option (bytes * rio)) :=
  if len =? 0 then Ok (Some (got, r)) else
  match fuel with
  | O => Fault OutOfFuel
  | S f =>
      let n := chunk_of r len in
      if Z.of_nat (length (r_file r)) <? n then Ok None else
      let part := take (Z.to_nat n) (r_file r) in
      r ← update_cksum r part;
      rio_read_loop f (len - n) (got ++ part)
        (mkRio (drop (Z.to_nat n) (r_file r)) (r_space r) (r_update r) (r_cksum r) (u64 (r_processed r + n)) (r_chunk r))
  end.

Definition rioRead (len : Z) : io bytes := rio_read_loop (Z.to_nat len) len [].

(** ** What a write and a read do *)

(** The checksum after the bytes of [b]. *)
Definition sum_after (r : rio) (b : bytes) : Z := if r_update r then crc64_ref (r_cksum r) b else r_cksum r.

Definition wrote (r : rio) (b : bytes) : rio :=
  mkRio (r_file r ++ b) (r_space r - Z.of_nat (length b)) (r_update r) (sum_after r b)
    (u64 (r_processed r + Z.of_nat (length b))) (r_chunk r).

Definition consumed (r : rio) (b : bytes) : rio :=
  mkRio (drop (length b) (r_file r)) (r_space r) (r_update r) (sum_after r b)
    (u64 (r_processed r + Z.of_nat (length b))) (r_chunk r).

(** A stream in use: the counters are 64-bit words. *)
Definition rio_ok (r : rio) : Prop := 0 <= r_chunk r /\ u64 (r_processed r) = r_processed r.

Lemma u64_u64 x y : u64 (u64 x + y) = u64 (x + y).
Proof. unfold u64. by rewrite Zplus_mod_idemp_l. Qed.

Lemma wrote_ok r b : rio_ok r -> rio_ok (wrote r b).
Proof. intros [? ?]. split; cbn; [done|]. unfold u64. by rewrite Zmod_mod. Qed.

Lemma consumed_ok r b : rio_ok r -> rio_ok (consumed r b).
Proof. intros [? ?]. split; cbn; [done|]. unfold u64. by rewrite Zmod_mod. Qed.

Lemma crc64_ref_app c a b : crc64_ref c (a ++ b) = crc64_ref (crc64_ref c a) b.
Proof. unfold crc64_ref. by rewrite fold_left_app. Qed.

Lemma sum_after_app r a b : sum_after r (a ++ b) = sum_after (wrote r a) b.
Proof. unfold wrote, sum_after. cbn. destruct (r_update r); [apply crc64_ref_app|done]. Qed.

Lemma wrote_nil r : rio_ok r -> wrote r [] = r.
Proof.
  intros [_ Hp]. destruct r as [f s u c p k]. unfold wrote, sum_after. cbn in *. rewrite app_nil_r, Z.sub_0_r, Z.add_0_r, Hp.
  by destruct u.
Qed.

Lemma wrote_app r a b : wrote (wrote r a) b = wrote r (a ++ b).
Proof.
  unfold wrote. rewrite sum_after_app. cbn. rewrite u64_u64, app_assoc, length_app. f_equal; [lia|f_equal; lia].
Qed.

Lemma consumed_nil r : rio_ok r -> consumed r [] = r.
Proof.
  intros [_ Hp]. destruct r as [f s u c p k]. unfold consumed, sum_after. cbn in *. rewrite drop_0, Z.add_0_r, Hp. by destruct u.
Qed.

Lemma consumed_app r a b : consumed (consumed r a) b = consumed r (a ++ b).
Proof.
  unfold consumed, sum_after. cbn. rewrite u64_u64, drop_drop, length_app.
  destruct (r_update r); [rewrite crc64_ref_app|]; f_equal; f_equal; lia.
Qed.

Lemma update_cksum_ok r b : Forall byte_ok b ->
  update_cksum r b = Ok (mkRio (r_file r) (r_space r) (r_update r) (sum_after r b) (r_processed r) (r_chunk r)).
Proof.
  intros Hb. unfold update_cksum, sum_after. destruct r as [f s u c p k]. cbn. destruct u; [|done].
  by rewrite crc64_reference, bind_ok.
Qed.

Lemma chunk_range r len : rio_ok r -> 0 < len -> 0 < chunk_of r len <= len.
Proof.
  intros [Hc _] Hl. unfold chunk_of. destruct (Z.eqb_spec (r_chunk r) 0), (Z.ltb_spec (r_chunk r) len); cbn; lia.
Qed.

Lemma rio_write_loop_ok fuel : forall buf r, rio_ok r -> Forall byte_ok buf -> (length buf <= fuel)%nat ->
  0 <= r_space r ->
  rio_write_loop fuel buf r = Ok (if Z.of_nat (length buf) <=? r_space r then Some (tt, wrote r buf) else None).
Proof.
  induction fuel as [|f IH]; intros buf r Hr Hb Hf Hs; (destruct buf as [|x buf];
    [cbn; rewrite (proj2 (Z.leb_le 0 _)) by lia; by rewrite wrote_nil|]); [cbn in Hf; lia|].
  cbn [rio_write_loop]. set (b := x :: buf) in *. set (n := chunk_of r (Z.of_nat (length b))).
  assert (0 < n <= Z.of_nat (length b)) as Hn by (apply chunk_range; [done|]; subst b; cbn; lia).
  set (part := take (Z.to_nat n) b).
  assert (Forall byte_ok part) as Hp by (by apply Forall_take).
  assert (Z.of_nat (length part) = n) as Hlen by (subst part; len_lia).
  rewrite update_cksum_ok, bind_ok by done. cbn [r_space r_file r_update r_cksum r_processed r_chunk].
  destruct (Z.ltb_spec (r_space r) n); [rewrite (proj2 (Z.leb_gt _ _)) by lia; done|].
  assert (mkRio (r_file r ++ part) (r_space r - n) (r_update r) (sum_after r part) (u64 (r_processed r + n)) (r_chunk r) = wrote r part) as ->
    by (unfold wrote; by rewrite Hlen).
  rewrite IH; [|by apply wrote_ok|by apply Forall_drop|rewrite length_drop; lia|cbn; lia].
  rewrite wrote_app. replace (part ++ drop (Z.to_nat n) b) with b by (unfold part; by rewrite take_drop).
  rewrite length_drop. cbn [r_space wrote].
  destruct (Z.leb_spec (Z.of_nat (length b)) (r_space r)), (Z.leb_spec (Z.of_nat (length b - Z.to_nat n)) (r_space r - Z.of_nat (length part)));
    (lia || done).
Qed.

Lemma rio_read_loop_ok fuel : forall b rest got r, rio_ok r -> Forall byte_ok b -> (length b <= fuel)%nat -> r_file r = b ++ rest ->
  rio_read_loop fuel (Z.of_nat (length b)) got r = Ok (Some (got ++ b, consumed r b)).
Proof.
  induction fuel as [|f IH]; intros b rest got r Hr Hb Hf Hfile.
  { destruct b; [|cbn in Hf; lia]. cbn. by rewrite app_nil_r, consumed_nil. }
  cbn [rio_read_loop]. destruct (Z.eqb_spec (Z.of_nat (length b)) 0) as [E0|E0].
  { destruct b; [|cbn in E0; lia]. by rewrite app_nil_r, consumed_nil. }
  set (n := chunk_of r (Z.of_nat (length b))).
  assert (0 < n <= Z.of_nat (length b)) as Hn by (apply chunk_range; [done|lia]).
  rewrite Hfile. rewrite (proj2 (Z.ltb_ge _ _)) by len_lia. rewrite take_app_le by lia.
  set (part := take (Z.to_nat n) b).
  assert (Z.of_nat (length part) = n) as Hlen by (subst part; len_lia).
  rewrite update_cksum_ok, bind_ok by (by apply Forall_take). cbn [r_space r_file r_update r_cksum r_processed r_chunk].
  assert (Z.of_nat (length b) - n = Z.of_nat (length (drop (Z.to_nat n) b))) as -> by (rewrite length_drop; lia).
  assert (mkRio (drop (Z.to_nat n) (r_file r)) (r_space r) (r_update r) (sum_after r part) (u64 (r_processed r + n)) (r_chunk r) = consumed r part) as ->.
  { unfold consumed. rewrite <- Hlen. by rewrite Nat2Z.id. }
  rewrite (IH _ rest).
  - rewrite <- app_assoc, consumed_app. unfold part. by rewrite take_drop.
  - by apply consumed_ok.
  - by apply Forall_drop.
  - rewrite length_drop. lia.
  - cbn. rewrite Hfile, drop_app_le by lia. do 2 f_equal. lia.
Qed.

(** [m] writes [b] and returns [x], or fails when there is no room for [b]. *)
Definition writes {A} (m : io A) (x : A) (b : bytes) : Prop :=
  Forall byte_ok b /\ forall r, rio_ok r -> 0 <= r_space r ->
    m r = Ok (if Z.of_nat (length b) <=? r_space r then Some (x, wrote r b) else None).

(** [m] reads [b] and returns [x]. *)
Definition gives {A} (m : io A) (x : A) (b : bytes) : Prop :=
  Forall byte_ok b /\ forall r rest, rio_ok r -> r_file r = b ++ rest -> m r = Ok (Some (x, consumed r b)).

Create HintDb rio.

Lemma writes_bind {A B} (m : io A) (k : A -> io B) x y a b :
  writes m x a -> writes (k x) y b -> writes (x ← m; k x) y (a ++ b).
Proof.
  intros [Ha Hm] [Hb Hk]. split; [by apply Forall_app|]. intros r Hr Hs. unfold mbind, io_bind. rewrite Hm, length_app by done.
  destruct (Z.leb_spec (Z.of_nat (length a)) (r_space r)); [|rewrite (proj2 (Z.leb_gt _ _)) by lia; done].
  rewrite Hk; [|by apply wrote_ok|cbn; lia]. rewrite wrote_app. cbn [r_space wrote].
  destruct (Z.leb_spec (Z.of_nat (length b)) (r_space r - Z.of_nat (length a))),
    (Z.leb_spec (Z.of_nat (length a + length b)) (r_space r)); (lia || done).
Qed.

Lemma writes_ret {A} (x : A) : writes (mret x) x [].
Proof.
  split; [constructor|]. intros r Hr Hs. cbn. rewrite (proj2 (Z.leb_le 0 _)) by lia. by rewrite wrote_nil.
Qed.

Lemma writes_lift {A} (m : res A) x : m = Ok x -> writes (lift m) x [].
Proof. intros ->. exact (writes_ret x). Qed.

Lemma writes_rio b : Forall byte_ok b -> writes (rioWrite b) tt b.
Proof. intros Hb. split; [done|]. intros r Hr Hs. by apply rio_write_loop_ok. Qed.

(** The result of the last step does not write. *)
Lemma writes_bind_l {A B} (m : io A) (k : A -> io B) x y b : writes m x b -> writes (k x) y [] -> writes (x ← m; k x) y b.
Proof. intros H1 H2. rewrite <- (app_nil_r b). by eapply writes_bind. Qed.

Lemma writes_bind_r {A B} (m : io A) (k : A -> io B) x y b : writes m x [] -> writes (k x) y b -> writes (x ← m; k x) y b.
Proof. intros H1 H2. change b with ([] ++ b). by eapply writes_bind. Qed.

Lemma gives_bind {A B} (m : io A) (k : A -> io B) x y a b :
  gives m x a -> gives (k x) y b -> gives (x ← m; k x) y (a ++ b).
Proof.
  intros [Ha Hm] [Hb Hk]. split; [by apply Forall_app|]. intros r rest Hr Hf. unfold mbind, io_bind.
  rewrite <- app_assoc in Hf. rewrite (Hm r (b ++ rest)) by done.
  rewrite (Hk _ rest); [by rewrite consumed_app|by apply consumed_ok|]. cbn. rewrite Hf. by rewrite drop_app_length.
Qed.

Lemma gives_ret {A} (x : A) : gives (mret x) x [].
Proof. split; [constructor|]. intros r rest Hr Hf. cbn. by rewrite consumed_nil. Qed.

Lemma gives_lift {A} (m : res A) x : m = Ok x -> gives (lift m) x [].
Proof. intros ->. exact (gives_ret x). Qed.

Lemma gives_read b n : Forall byte_ok b -> n = Z.of_nat (length b) -> gives (rioRead n) b b.
Proof.
  intros Hb ->. split; [done|]. intros r rest Hr Hf. unfold rioRead. rewrite Nat2Z.id.
  by rewrite (rio_read_loop_ok _ b rest).
Qed.

Lemma gives_bind_l {A B} (m : io A) (k : A -> io B) x y b : gives m x b -> gives (k x) y [] -> gives (x ← m; k x) y b.
Proof. intros H1 H2. rewrite <- (app_nil_r b). by eapply gives_bind. Qed.

Lemma gives_bind_r {A B} (m : io A) (k : A -> io B) x y b : gives m x [] -> gives (k x) y b -> gives (x ← m; k x) y b.
Proof. intros H1 H2. change b with ([] ++ b). by eapply gives_bind. Qed.

#[export] Hint Resolve writes_ret writes_lift writes_rio gives_ret gives_lift gives_read : rio.
