(* ===== verification/Glob.v ===== *)
(** * Glob patterns

    Model of [stringmatchlen] (src/redis-3.2.5/src/util.c), the matcher behind
    [KEYS], [SCAN ... MATCH], pattern subscriptions and [CONFIG GET]: [*] matches
    any string, [?] any character, [[...]] and [[^...]] a set of characters, and a
    backslash makes the next character literal.

    A pattern and a string are pointers into NUL-terminated blocks with their
    lengths beside them, as in the source, and the matcher reads the blocks with
    the bounds checked.  The lengths are [int]s in the source: the model is of
    blocks shorter than 2^31 bytes.  The second part of the file is the reference: a pattern is
    parsed into tokens, and the strings that a list of tokens matches are an
    inductive relation. *)
From S2P Require Import Prelude CLib IntSet.
Open Scope Z_scope.

(** A [char] is signed. *)
Definition schar (b : Z) : Z := sx 8 b.

(** Two characters for the matcher: equal, or equal up to the case. *)
Definition same_char (nocase : bool) (a b : Z) : bool :=
  if nocase then tolower (schar a) =? tolower (schar b) else schar a =? schar b.

(** Moves to the last of a run of stars. *)
Fixpoint skip_next_stars (fuel : nat) (pm : bytes) (p plen : Z) : res (Z * Z) :=
  c ← rdZ pm (p + 1);
  if c =? 42 then
    match fuel with
    | O => Fault OutOfFuel
    | S f => skip_next_stars f pm (p + 1) (plen - 1)
    end
  else Ok (p, plen).

(** Moves past a run of stars. *)
Fixpoint skip_stars (fuel : nat) (pm : bytes) (p plen : Z) : res (Z * Z) :=
  c ← rdZ pm p;
  if c =? 42 then
    match fuel with
    | O => Fault OutOfFuel
    | S f => skip_stars f pm (p + 1) (plen - 1)
    end
  else Ok (p, plen).

(** The loop over a character class: the pointer and the length at its end, and
    [match]. *)
Fixpoint class_loop (fuel : nat) (pm : bytes) (p plen : Z) (sm : bytes) (s : Z) (nocase matched : bool) : res (Z * Z * bool) :=
  match fuel with
  | O => Fault OutOfFuel
  | S f =>
    c ← rdZ pm p;
    if c =? 92 then
      c ← rdZ pm (p + 1);
      d ← rdZ sm s;
      class_loop f pm (p + 2) (plen - 2) sm s nocase ((schar c =? schar d) || matched)
    else if c =? 93 then Ok (p, plen, matched)
    else if plen =? 0 then Ok (p - 1, plen + 1, matched)
    else
      c1 ← rdZ pm (p + 1);
      if (c1 =? 45) && (plen >=? 3) then
        e ← rdZ pm (p + 2);
        d ← rdZ sm s;
        let start := schar c in
        let stop := schar e in
        let '(start, stop) := if start >? stop then (stop, start) else (start, stop) in
        let '(start, stop, d) := if nocase then (tolower start, tolower stop, tolower (schar d)) else (start, stop, schar d) in
        class_loop f pm (p + 3) (plen - 3) sm s nocase (((d >=? start) && (d <=? stop)) || matched)
      else
        d ← rdZ sm s;
        class_loop f pm (p + 1) (plen - 1) sm s nocase (same_char nocase c d || matched)
  end.

(** The loop of a star: the rest of the pattern is tried on every suffix. *)
Fixpoint star_loop (call : Z -> Z -> res bool) (g : nat) (s slen : Z) : res bool :=
  if slen =? 0 then Ok false else
  match g with
  | O => Fault OutOfFuel
  | S g =>
    b ← call s slen;
    if (b : bool) then Ok true else star_loop call g (s + 1) (slen - 1)
  end.

(** The matcher.  One unit of fuel is one turn of its loop or one call of itself. *)
Fixpoint stringmatchlen (fuel : nat) (pm : bytes) (p plen : Z) (sm : bytes) (s slen : Z) (nocase : bool) : res bool :=
  if plen =? 0 then Ok ((plen =? 0) && (slen =? 0)) else
  match fuel with
  | O => Fault OutOfFuel
  | S f =>
    (* the end of a turn: the next token, or the stars that remain *)
    let next p plen s slen :=
      let p := p + 1 in
      let plen := plen - 1 in
      if slen =? 0 then
        '(_, plen) ← skip_stars f pm p plen;
        Ok ((plen =? 0) && (slen =? 0))
      else stringmatchlen f pm p plen sm s slen nocase in
    let literal p plen :=
      c ← rdZ pm p;
      d ← rdZ sm s;
      if negb (same_char nocase c d) then Ok false else next p plen (s + 1) (slen - 1) in
    c ← rdZ pm p;
    if c =? 42 then
      '(p, plen) ← skip_next_stars f pm p plen;
      if plen =? 1 then Ok true else
      star_loop (fun s slen => stringmatchlen f pm (p + 1) (plen - 1) sm s slen nocase) f s slen
    else if c =? 63 then
      if slen =? 0 then Ok false else next p plen (s + 1) (slen - 1)
    else if c =? 91 then
      c1 ← rdZ pm (p + 1);
      let neg := c1 =? 94 in
      let '(p, plen) := if neg then (p + 2, plen - 2) else (p + 1, plen - 1) in
      '(p, plen, matched) ← class_loop f pm p plen sm s nocase false;
      let matched := if neg then negb matched else matched in
      if negb matched then Ok false else next p plen (s + 1) (slen - 1)
    else if (c =? 92) && (plen >=? 2) then literal (p + 1) (plen - 1)
    else literal p plen
  end.

(** The matcher on two NUL-terminated blocks that hold a pattern and a string. *)
Definition match_blocks (pattern string : bytes) (nocase : bool) : res bool :=
  stringmatchlen (length pattern + length string + 2) (pattern ++ [0]) 0 (Z.of_nat (length pattern))
    (string ++ [0]) 0 (Z.of_nat (length string)) nocase.

(** The same for C strings: the lengths are those that [strlen] gives. *)
Definition stringmatch (pattern string : bytes) (nocase : bool) : res bool :=
  match_blocks (cstr pattern) (cstr string) nocase.

Example glob_1 : match_blocks (str "h[a-e^]llo*?") (str "hello world") false = Ok true.
Proof. vm_compute. reflexivity. Qed.
Example glob_2 : match_blocks (str "page:[^0-9]*") (str "page:1") false = Ok false.
Proof. vm_compute. reflexivity. Qed.

(** ** The language of a pattern *)

(** A member of a class: an escaped character, a character, a range. *)
Inductive item :=
  | Esc (c : Z)
  | One (c : Z)
  | Range (a b : Z).

Inductive token :=
  | Star
  | Any
  | Lit (c : Z)
  | Class (neg : bool) (items : list item).

(** The items of a class and what follows it.  A class that is not closed ends with
    the pattern; a backslash at the end of such a class has nothing to escape. *)
Fixpoint parse_class (p : bytes) : option (list item * bytes) :=
  match p with
  | [] => Some ([], [])
  | c :: t =>
    if c =? 92 then
      match t with [] => None | e :: r => '(l, r) ← parse_class r; Some (Esc e :: l, r) end
    else if c =? 93 then Some ([], t)
    else match t with
         | d :: e :: r =>
           if d =? 45 then '(l, r) ← parse_class r; Some (Range c e :: l, r)
           else '(l, r) ← parse_class t; Some (One c :: l, r)
         | _ => '(l, r) ← parse_class t; Some (One c :: l, r)
         end
  end.

Fixpoint parse_aux (fuel : nat) (p : bytes) : option (list token) :=
  match fuel, p with
  | _, [] => Some []
  | O, _ => None
  | S f, c :: t =>
    if c =? 42 then ts ← parse_aux f t; Some (Star :: ts)
    else if c =? 63 then ts ← parse_aux f t; Some (Any :: ts)
    else if c =? 91 then
      let '(neg, t) := match t with d :: r => if d =? 94 then (true, r) else (false, t) | [] => (false, t) end in
      '(l, r) ← parse_class t; ts ← parse_aux f r; Some (Class neg l :: ts)
    else match t with
         | d :: r => if c =? 92 then ts ← parse_aux f r; Some (Lit d :: ts) else ts ← parse_aux f t; Some (Lit c :: ts)
         | [] => Some [Lit c]
         end
  end.

Definition parse (p : bytes) : option (list token) := parse_aux (length p) p.

(** The characters of an item.  Ranges are in the order of signed characters,
    their ends in any order, and an escaped character is compared with its case. *)
Definition in_item (nocase : bool) (d : Z) (i : item) : bool :=
  match i with
  | Esc c => c =? d
  | One c => same_char nocase c d
  | Range a b =>
    let lo := Z.min (schar a) (schar b) in
    let hi := Z.max (schar a) (schar b) in
    if nocase then (tolower lo <=? tolower (schar d)) && (tolower (schar d) <=? tolower hi)
    else (lo <=? schar d) && (schar d <=? hi)
  end.

Definition in_token (nocase : bool) (t : token) (d : Z) : bool :=
  match t with
  | Star => false
  | Any => true
  | Lit c => same_char nocase c d
  | Class neg l => xorb neg (existsb (in_item nocase d) l)
  end.

(** The strings that a list of tokens matches. *)
Inductive matches (nocase : bool) : list token -> bytes -> Prop :=
  | matches_nil : matches nocase [] []
  | matches_star ts s1 s2 : matches nocase ts s2 -> matches nocase (Star :: ts) (s1 ++ s2)
  | matches_char t ts d s : in_token nocase t d = true -> matches nocase ts s -> matches nocase (t :: ts) (d :: s).

(** ** The matcher decides the language *)

(** [i] points to [t] in a block that ends with a NUL after it. *)
Definition points (m : bytes) (i : Z) (t : bytes) : Prop := exists pre, m = pre ++ t ++ [0] /\ i = Z.of_nat (length pre).

Lemma points_hd m i c t : points m i (c :: t) -> rdZ m i = Ok c.
Proof.
  intros (pre & -> & ->). unfold rdZ. rewrite decide_True by lia. rewrite Nat2Z.id. by apply rd_app_mid.
Qed.

Lemma points_end m i : points m i [] -> rdZ m i = Ok 0.
Proof.
  intros (pre & -> & ->). unfold rdZ. rewrite decide_True by lia. rewrite Nat2Z.id. by apply rd_app_mid.
Qed.

Lemma points_tl m i c t : points m i (c :: t) -> points m (i + 1) t.
Proof. intros (pre & -> & ->). exists (pre ++ [c]). rewrite length_app, <- app_assoc. cbn. split; [done | lia]. Qed.

Lemma points_tl2 m i c d t : points m i (c :: d :: t) -> points m (i + 2) t.
Proof. intros H%points_tl%points_tl. by replace (i + 2) with (i + 1 + 1) by lia. Qed.

Lemma points_tl3 m i c d e t : points m i (c :: d :: e :: t) -> points m (i + 3) t.
Proof. intros H%points_tl2%points_tl. by replace (i + 3) with (i + 2 + 1) by lia. Qed.

Create HintDb glob.
#[local] Hint Resolve points_hd points_end points_tl points_tl2 points_tl3 : glob.

Lemma schar_eqb a b : byte_ok a -> byte_ok b -> (schar a =? schar b) = (a =? b).
Proof.
  unfold byte_ok, schar, sx. change (8 - 1) with 7. intros Ha Hb.
  destruct (Z.eqb_spec a b) as [-> | Hne]; [apply Z.eqb_refl|]. apply Z.eqb_neq. intros E.
  apply Hne. rewrite <- (Z.mod_small a (2 ^ 8)), <- (Z.mod_small b (2 ^ 8)) by lia.
  assert ((a + 2 ^ 7) mod 2 ^ 8 = (b + 2 ^ 7) mod 2 ^ 8) as E' by lia.
  replace a with (a + 2 ^ 7 - 2 ^ 7) by lia. replace b with (b + 2 ^ 7 - 2 ^ 7) by lia.
  rewrite (Zminus_mod (a + _)), (Zminus_mod (b + _)), E'. done.
Qed.

Lemma range_test (nocase : bool) a b d :
  (let '(start, stop) := if schar a >? schar b then (schar b, schar a) else (schar a, schar b) in
   let '(start, stop, d) := if nocase then (tolower start, tolower stop, tolower (schar d)) else (start, stop, schar d) in
   (d >=? start) && (d <=? stop)) = in_item nocase d (Range a b).
Proof.
  cbn [in_item]. rewrite Z.gtb_ltb. destruct (Z.ltb_spec (schar b) (schar a)).
  - rewrite Z.min_r, Z.max_l by lia. destruct nocase; rewrite Z.geb_leb; done.
  - rewrite Z.min_l, Z.max_r by lia. destruct nocase; rewrite Z.geb_leb; done.
Qed.

Lemma bytes_suffix (P : Z -> Prop) l k : Forall P l -> k `suffix_of` l -> Forall P k.
Proof. intros H [pre ->]. by apply Forall_app in H as [_ H]. Qed.

(** The rest of a class is a suffix of the pattern. *)
Lemma parse_class_suffix n : forall p items rest, (length p <= n)%nat -> parse_class p = Some (items, rest) ->
  rest `suffix_of` p.
Proof.
  induction n as [|n IH]; intros p items rest Hn Hp.
  { rewrite (nil_length_inv p) in * by lia. injection Hp as <- <-. by exists []. }
  assert (forall p' it l pre, (length p' <= n)%nat -> p = pre ++ p' ->
    ('(l, r) ← parse_class p'; Some (it :: l, r)) = Some (l, rest) -> rest `suffix_of` p) as Hrec.
  { intros p' it l pre Hl -> E. apply bind_Some in E as ([l' r'] & E & [= <- <-]).
    apply IH in E as (pre' & ->); [|done]. exists (pre ++ pre'). by rewrite app_assoc. }
  destruct p as [|c t]; cbn [parse_class] in Hp; [injection Hp as <- <-; by exists []|]. cbn [length] in Hn.
  destruct (c =? 92).
  - destruct t as [|e r]; [done|]. eapply (Hrec r _ _ [c; e]); [cbn in Hn; lia | done | exact Hp].
  - destruct (c =? 93); [injection Hp as <- <-; by exists [c]|].
    destruct t as [|d [|e r]]; [eapply (Hrec [] _ _ [c]) | eapply (Hrec [d] _ _ [c]) |]; try exact Hp; cbn in *; try lia; try done.
    destruct (d =? 45); [eapply (Hrec r _ _ [c; d; e]) | eapply (Hrec (d :: e :: r) _ _ [c])]; try exact Hp; cbn; try lia; done.
Qed.

Section Class.

Context (nocase : bool) (sm : bytes) (s d : Z) (srest : bytes).
Hypothesis Hs : points sm s (d :: srest).
Hypothesis Hd : byte_ok d.

Lemma class_loop_ok n : forall p items rest f pm ptr matched, (length p <= n)%nat -> Forall byte_ok p ->
  parse_class p = Some (items, rest) -> points pm ptr p -> (length p < f)%nat ->
  exists ptr', class_loop f pm ptr (Z.of_nat (length p)) sm s nocase matched =
      Ok (ptr', Z.of_nat (length rest) + 1, existsb (in_item nocase d) items || matched) /\
    points pm (ptr' + 1) rest.
Proof.
  induction n as [|n IH]; intros p items rest f pm ptr matched Hn Hb Hp Hpt Hf.
  all: destruct f as [|f]; [lia|].
  all: destruct p as [|c t]; cbn [class_loop parse_class length] in *; [|try lia].
  1,2: injection Hp as <- <-; exists (ptr - 1); rewrite (points_end pm ptr Hpt), bind_ok;
    change (0 =? 92) with false; change (0 =? 93) with false; cbn; split; [done | by replace (ptr - 1 + 1) with ptr by lia].
  rewrite (points_hd pm ptr c t Hpt), bind_ok. apply Forall_cons in Hb as [Hc Hb].
  assert (forall p' it k m', (length p' <= length t)%nat -> Forall byte_ok p' -> points pm (ptr + k) p' ->
    ('(l, r) ← parse_class p'; Some (it :: l, r)) = Some (items, rest) -> m' = in_item nocase d it || matched ->
    exists ptr', class_loop f pm (ptr + k) (Z.of_nat (length p')) sm s nocase m' =
      Ok (ptr', Z.of_nat (length rest) + 1, existsb (in_item nocase d) items || matched) /\ points pm (ptr' + 1) rest) as Hrec.
  { intros p' it k m' Hl Hb' Hk E ->. apply bind_Some in E as ([l r] & E & [= <- <-]).
    destruct (IH p' l r f pm (ptr + k) (in_item nocase d it || matched)) as (q & -> & Hq); try done; [lia | lia|].
    exists q. split; [|done]. cbn [existsb]. do 2 f_equal. destruct (in_item nocase d it), matched; cbn; by rewrite ?orb_true_r, ?orb_false_r. }
  destruct (c =? 92).
  - destruct t as [|e r]; [done|]. apply Forall_cons in Hb as [He Hb].
    rewrite (points_hd pm (ptr + 1) e r) by eauto with glob. rewrite bind_ok, (points_hd sm s d srest Hs), bind_ok.
    replace (Z.of_nat (S (length (e :: r))) - 2) with (Z.of_nat (length r)) by (cbn [length]; lia).
    apply (Hrec r (Esc e)); eauto with glob; [cbn in *; lia|]. cbn. by rewrite schar_eqb.
  - destruct (c =? 93); [injection Hp as <- <-; exists ptr; split; [do 2 f_equal; f_equal; lia | eauto with glob]|].
    replace (Z.of_nat (S (length t)) =? 0) with false by (symmetry; apply Z.eqb_neq; lia).
    replace (Z.of_nat (S (length t)) - 1) with (Z.of_nat (length t)) by lia.
    assert (exists c1, rdZ pm (ptr + 1) = Ok c1 /\ c1 = default 0 (head t)) as (c1 & -> & ->).
    { destruct t as [|d1 r]; cbn; eauto with glob. }
    rewrite bind_ok, (points_hd sm s d srest Hs).
    destruct t as [|d1 [|e r]]; cbn [head length]; unfold id; cbn [from_option].
    + change (0 =? 45) with false. rewrite bind_ok. cbn [andb]. apply (Hrec [] (One c)); eauto with glob; cbn [length] in *; lia.
    + replace (_ >=? 3) with false by (symmetry; rewrite Z.geb_leb; apply Z.leb_gt; lia). rewrite andb_false_r, bind_ok.
      apply (Hrec [d1] (One c)); eauto with glob; cbn [length] in *; lia.
    + replace (_ >=? 3) with true by (symmetry; rewrite Z.geb_leb; apply Z.leb_le; lia). rewrite andb_true_r.
      destruct (d1 =? 45).
      * apply Forall_cons in Hb as [_ Hb]. apply Forall_cons in Hb as [He Hb].
        rewrite (points_hd pm (ptr + 2) e r) by eauto with glob. rewrite !bind_ok.
        replace (Z.of_nat (S (S (S (length r)))) - 3) with (Z.of_nat (length r)) by lia.
        pose proof (range_test nocase c e d) as HR.
        destruct (if schar c >? schar e then _ else _) as [start stop].
        destruct (if nocase then _ else _) as [[start' stop'] d']. cbv zeta in HR |- *. rewrite HR.
        apply (Hrec r (Range c e)); eauto with glob; cbn [length] in *; lia.
      * rewrite bind_ok. apply (Hrec (d1 :: e :: r) (One c)); eauto with glob; cbn [length] in *; lia.
Qed.

End Class.

(** ** Stars *)

Lemma matches_star_iff nocase ts s : matches nocase (Star :: ts) s <-> exists s1 s2, s = s1 ++ s2 /\ matches nocase ts s2.
Proof.
  split.
  - inversion 1; subst; [eauto | done].
  - intros (s1 & s2 & -> & H). by constructor.
Qed.

Lemma matches_char_iff nocase t ts s : t <> Star ->
  matches nocase (t :: ts) s <-> exists d s', s = d :: s' /\ in_token nocase t d = true /\ matches nocase ts s'.
Proof.
  intros Ht. split.
  - inversion 1; subst; [done | eauto].
  - intros (d & s' & -> & Hd & H). by constructor.
Qed.

Lemma matches_star_star nocase ts s : matches nocase (Star :: Star :: ts) s <-> matches nocase (Star :: ts) s.
Proof.
  rewrite !matches_star_iff. split.
  - intros (s1 & s2 & -> & (s3 & s4 & -> & H)%matches_star_iff). exists (s1 ++ s3), s4. by rewrite app_assoc.
  - intros (s1 & s2 & -> & H). exists [], (s1 ++ s2). split; [done|]. apply matches_star_iff. eauto.
Qed.

(** The tokens of a pattern that does not begin with a star begin with a token
    that takes a character. *)
Lemma parse_head n c t ts : parse_aux n (c :: t) = Some ts -> c <> 42 -> exists tok ts', ts = tok :: ts' /\ tok <> Star.
Proof.
  destruct n as [|n]; cbn [parse_aux]; [done|]. intros H Hc. destruct (Z.eqb_spec c 42); [done|].
  repeat first
    [ progress simplify_option_eq
    | match type of H with
      | (_ ≫= _) = Some _ => apply bind_Some in H as (? & _ & H)
      | context [if ?b then _ else _] => destruct b
      | context [let '(_, _) := ?x in _] => destruct x
      | context [match ?x with [] => _ | _ :: _ => _ end] => destruct x
      end ]; by eauto.
Qed.

Lemma skip_next_ok nocase t : forall n ts f pm ptr,
  parse_aux n (42 :: t) = Some ts -> points pm ptr (42 :: t) -> (length t <= f)%nat ->
  exists r ptr' n' ts', skip_next_stars f pm ptr (Z.of_nat (length t) + 1) = Ok (ptr', Z.of_nat (length r) + 1) /\
    points pm (ptr' + 1) r /\ parse_aux n' r = Some ts' /\ (n' < n)%nat /\ r `suffix_of` t /\ head r <> Some 42 /\
    forall s, matches nocase ts s <-> matches nocase (Star :: ts') s.
Proof.
  induction t as [|c t IH]; intros [|n] ts f pm ptr Hp Hpt Hf; cbn [parse_aux] in Hp; try done;
    change (42 =? 42) with true in Hp; apply bind_Some in Hp as (ts1 & Hp & [= <-]).
  - exists [], ptr, n, ts1. destruct f; cbn [skip_next_stars]; rewrite (points_end pm (ptr + 1)) by eauto with glob;
      rewrite bind_ok; split_and!; eauto with glob.
  - assert (rdZ pm (ptr + 1) = Ok c) as Hc by eauto with glob. cbn [length] in *.
    destruct (Z.eqb_spec c 42) as [-> | Hne].
    + destruct f as [|f]; [lia|]. cbn [skip_next_stars]. rewrite Hc, bind_ok. change (42 =? 42) with true. cbv iota.
      replace (Z.of_nat (S (length t)) + 1 - 1) with (Z.of_nat (length t) + 1) by lia.
      destruct (IH n ts1 f pm (ptr + 1) Hp) as (r & ptr' & n' & ts' & -> & Hr & Hp' & Hn & Hsuf & Hh & Hm); [eauto with glob | lia|].
      exists r, ptr', n', ts'. split_and!; auto; [by apply suffix_cons_r|]. intros s.
      assert (exists ts2, ts1 = Star :: ts2) as (ts2 & ->).
      { destruct n; cbn in Hp; [done|]. apply bind_Some in Hp as (ts2 & _ & [= <-]). eauto. }
      by rewrite matches_star_star, Hm.
    + exists (c :: t), ptr, n, ts1. apply Z.eqb_neq in Hne as Hne'.
      split_and!; eauto with glob; [|by intros [= ->]].
      destruct f; cbn [skip_next_stars]; rewrite Hc, bind_ok, Hne'; do 2 f_equal; cbn [length]; lia.
Qed.

Lemma skip_stars_ok nocase r : forall n ts f pm ptr,
  parse_aux n r = Some ts -> points pm ptr r -> (length r <= f)%nat ->
  exists ptr' m, skip_stars f pm ptr (Z.of_nat (length r)) = Ok (ptr', Z.of_nat m) /\ (m = O <-> matches nocase ts []).
Proof.
  induction r as [|c r IH]; intros n ts f pm ptr Hp Hpt Hf.
  - exists ptr, O. destruct n; injection Hp as <-; destruct f; cbn [skip_stars]; rewrite (points_end pm ptr Hpt), bind_ok;
      change (0 =? 42) with false; (split; [done | split; [constructor | done]]).
  - destruct (Z.eqb_spec c 42) as [-> | Hne].
    + destruct f as [|f]; cbn [length] in *; [lia|]. destruct n as [|n]; [done|]. cbn [parse_aux] in Hp.
      change (42 =? 42) with true in Hp. apply bind_Some in Hp as (ts1 & Hp & [= <-]).
      cbn [skip_stars]. rewrite (points_hd pm ptr 42 r Hpt), bind_ok. change (42 =? 42) with true. cbv iota.
      replace (Z.of_nat (S (length r)) - 1) with (Z.of_nat (length r)) by lia.
      destruct (IH n ts1 f pm (ptr + 1) Hp) as (ptr' & m & -> & Hm); [eauto with glob | lia|].
      exists ptr', m. split; [done|]. rewrite Hm, matches_star_iff. split.
      * intros H. by exists [], [].
      * intros (s1 & s2 & E & H). symmetry in E. apply app_eq_nil in E as [-> ->]. done.
    + exists ptr, (S (length r)). apply Z.eqb_neq in Hne as Hne'. split.
      { destruct f; cbn [skip_stars]; rewrite (points_hd pm ptr c r Hpt), bind_ok, Hne'; done. }
      split; [done|]. intros H. apply parse_head in Hp as (tok & ts' & -> & Ht); [|done].
      apply matches_char_iff in H as (? & ? & ? & _); done.
Qed.

Lemma star_loop_ok nocase ts call sm s : forall g sp, points sm sp s -> (length s <= g)%nat -> Forall byte_ok s ->
  ~ matches nocase ts [] ->
  (forall sp' s', points sm sp' s' -> s' <> [] -> s' `suffix_of` s ->
     exists b, call sp' (Z.of_nat (length s')) = Ok b /\ (b = true <-> matches nocase ts s')) ->
  exists b, star_loop call g sp (Z.of_nat (length s)) = Ok b /\ (b = true <-> matches nocase (Star :: ts) s).
Proof.
  induction s as [|d s IH]; intros g sp Hpt Hg Hb Hnil Hcall.
  { exists false. destruct g; (split; [done|]); (split; [done|]); rewrite matches_star_iff;
      intros (s1 & s2 & E & H); symmetry in E; apply app_eq_nil in E as [-> ->]; done. }
  destruct g as [|g]; cbn [length] in *; [lia|]. apply Forall_cons in Hb as [Hd Hb]. cbn [star_loop].
  replace (Z.of_nat (S (length s)) =? 0) with false by (symmetry; apply Z.eqb_neq; lia).
  destruct (Hcall sp (d :: s)) as ([|] & E & Hm); [done | done | done | |]; cbn [length] in E; rewrite E, bind_ok.
  - exists true. split; [done|]. split; [|done]. intros _. apply matches_star_iff. exists [], (d :: s).
    split; [done | by apply Hm].
  - replace (Z.of_nat (S (length s)) - 1) with (Z.of_nat (length s)) by lia.
    destruct (IH g (sp + 1)) as (b & -> & Hb'); [eauto with glob | lia | done | done | |].
    { intros sp' s' H1 H2 H3. apply Hcall; [done | done | by apply suffix_cons_r]. }
    exists b. split; [done|]. rewrite Hb', !matches_star_iff. split.
    + intros (s1 & s2 & -> & H). by exists (d :: s1), s2.
    + intros ([|x s1] & s2 & E' & H); [|injection E' as -> ->; eauto].
      cbn in E'. subst s2. apply Hm in H. done.
Qed.

(** ** The matcher *)

(** The end of a turn that took the character [d] of [d :: s] for the token [tok]:
    either nothing is left of the string and the rest of the pattern has to be
    stars, or the matcher goes on. *)
Lemma turn_ok nocase F pm sm sp d s tok r ptr plen m ts :
  tok <> Star -> points pm (ptr + 1) r -> plen = Z.of_nat (length r) + 1 -> parse_aux m r = Some ts -> (length r <= F)%nat ->
  (s <> [] -> exists b, stringmatchlen F pm (ptr + 1) (Z.of_nat (length r)) sm (sp + 1) (Z.of_nat (length s)) nocase = Ok b /\
    (b = true <-> matches nocase ts s)) ->
  exists b, (if negb (in_token nocase tok d) then Ok false else
     if Z.of_nat (length (d :: s)) - 1 =? 0 then
       '(_, plen) ← skip_stars F pm (ptr + 1) (plen - 1); Ok ((plen =? 0) && (Z.of_nat (length (d :: s)) - 1 =? 0))
     else stringmatchlen F pm (ptr + 1) (plen - 1) sm (sp + 1) (Z.of_nat (length (d :: s)) - 1) nocase) = Ok b /\
    (b = true <-> matches nocase (tok :: ts) (d :: s)).
Proof.
  intros Ht Hr -> Hm HF Hrec. destruct (in_token nocase tok d) eqn:Hin; cbn [negb].
  2: { exists false. split; [done|]. split; [done|]. rewrite matches_char_iff by done.
       intros (? & ? & [= <- <-] & H & _). congruence. }
  assert (matches nocase (tok :: ts) (d :: s) <-> matches nocase ts s) as Hiff.
  { rewrite matches_char_iff by done. split; [by intros (? & ? & [= <- <-] & _ & H) | eauto]. }
  setoid_rewrite Hiff. cbn [length].
  replace (Z.of_nat (length r) + 1 - 1) with (Z.of_nat (length r)) by lia.
  replace (Z.of_nat (S (length s)) - 1) with (Z.of_nat (length s)) by lia.
  destruct s as [|d' s].
  - destruct (skip_stars_ok nocase r m ts F pm (ptr + 1) Hm Hr) as (q & k & E & Hk); [lia|].
    change (Z.of_nat (length [] : nat) =? 0) with true. cbv iota. rewrite E, bind_ok.
    eexists. split; [reflexivity|]. rewrite andb_true_r, Z.eqb_eq, <- Hk. lia.
  - replace (Z.of_nat (length (d' :: s)) =? 0) with false by (symmetry; apply Z.eqb_neq; cbn [length]; lia). by apply Hrec.
Qed.

(** What a pattern that parses decides about a string that is not empty. *)
Lemma stringmatchlen_ok nocase : forall n p ts F pm ptr sm sp s,
  parse_aux n p = Some ts -> Forall byte_ok p -> points pm ptr p -> points sm sp s -> Forall byte_ok s -> s <> [] ->
  (length p + length s < F)%nat ->
  exists b, stringmatchlen F pm ptr (Z.of_nat (length p)) sm sp (Z.of_nat (length s)) nocase = Ok b /\
    (b = true <-> matches nocase ts s).
Proof.
  induction n as [n IH] using lt_wf_ind. intros p ts F pm ptr sm sp s Hp Hbp Hpt Hst Hbs Hne HF.
  destruct F as [|F]; [lia|]. destruct p as [|c t].
  { exists false. destruct n; injection Hp as <-; cbn [stringmatchlen length]; change (Z.of_nat 0 =? 0) with true; cbv iota;
      (destruct s; [done|]); split; try done; (split; [done | inversion 1]). }
  destruct n as [|n]; [done|]. destruct s as [|d s]; [done|]. assert (Hbs0 := Hbs). apply Forall_cons in Hbs as [Hd Hbs].
  assert (Hp0 := Hp). cbn [stringmatchlen parse_aux] in Hp |- *. cbn [length] in HF. cbv zeta.
  apply Forall_cons in Hbp as [Hbc Hbp].
  assert (forall r m q ts', (m <= n)%nat -> r `suffix_of` t -> points pm q r -> parse_aux m r = Some ts' -> s <> [] ->
    exists b, stringmatchlen F pm q (Z.of_nat (length r)) sm (sp + 1) (Z.of_nat (length s)) nocase = Ok b /\
      (b = true <-> matches nocase ts' s)) as Hrec.
  { intros r m q ts' Hm Hsuf Hq Hr Hs. pose proof (suffix_length _ _ Hsuf).
    apply (IH m ltac:(lia)); eauto with glob; [exact (bytes_suffix _ _ _ Hbp Hsuf) | lia]. }
  replace (Z.of_nat (length (c :: t)) =? 0) with false by (symmetry; apply Z.eqb_neq; cbn [length]; lia).
  replace (Z.of_nat (length (d :: s)) =? 0) with false by (symmetry; apply Z.eqb_neq; cbn [length]; lia).
  rewrite (points_hd pm ptr c t Hpt), bind_ok.
  destruct (Z.eqb_spec c 42) as [-> | Hc42]; [|destruct (Z.eqb_spec c 63) as [-> | Hc63]; [|destruct (Z.eqb_spec c 91) as [-> | Hc91]]].
  - replace (Z.of_nat (length (42 :: t))) with (Z.of_nat (length t) + 1) by (cbn [length]; lia).
    destruct (skip_next_ok nocase t (S n) ts F pm ptr Hp0 Hpt) as (r & ptr' & n' & ts' & -> & Hr & Hp' & Hn & Hsuf & Hh & Hm); [lia|].
    rewrite bind_ok. pose proof (suffix_length _ _ Hsuf). destruct (Z.eqb_spec (Z.of_nat (length r) + 1) 1) as [E|E].
    + exists true. split; [done|]. split; [|done]. intros _. rewrite Hm, matches_star_iff. exists (d :: s), [].
      rewrite app_nil_r. split; [done|]. rewrite (nil_length_inv r) in Hp' by lia. destruct n'; injection Hp' as <-; constructor.
    + replace (Z.of_nat (length r) + 1 - 1) with (Z.of_nat (length r)) by lia. setoid_rewrite Hm.
      apply star_loop_ok with (sm := sm); [done | cbn [length]; lia | done | |].
      * destruct r as [|x r]; [done|]. apply parse_head in Hp' as (tok & ts2 & -> & Ht); [|intros ->; done].
        rewrite matches_char_iff by done. by intros (? & ? & ? & _).
      * intros sp' s' H1 H2 H3. pose proof (suffix_length _ _ H3). cbn [length] in *.
        apply (IH n' Hn); auto; [exact (bytes_suffix _ _ _ Hbp Hsuf) | exact (bytes_suffix _ _ _ Hbs0 H3) | lia].
  - apply bind_Some in Hp as (ts1 & Hp & [= <-]).
    apply (turn_ok nocase F pm sm sp d s Any t ptr _ n ts1); eauto with glob; [cbn [length]; lia | lia].
  - set (neg := match t with d :: _ => d =? 94 | [] => false end).
    set (t' := if neg then tail t else t).
    assert (exists c1, rdZ pm (ptr + 1) = Ok c1 /\ (c1 =? 94) = neg) as (c1 & -> & Hneg).
    { destruct t as [|d1 r]; unfold neg; eexists; split; eauto with glob. }
    assert (exists l r ts1, parse_class t' = Some (l, r) /\ parse_aux n r = Some ts1 /\ ts = Class neg l :: ts1)
      as (l & r & ts1 & Hcl & Hr & ->).
    { destruct t as [|d1 r1]; unfold t', neg in *; [|destruct (d1 =? 94)]; apply bind_Some in Hp as ([l r] & Hl & Hp);
        apply bind_Some in Hp as (ts1 & Hr & [= <-]); exists l, r, ts1; done. }
    assert (t' `suffix_of` t) as Hsuf'.
    { unfold t'. destruct neg; [|done]. destruct t; [done | by apply suffix_cons_r]. }
    rewrite bind_ok, Hneg. pose proof (suffix_length _ _ Hsuf').
    assert (exists q, (if neg then (ptr + 2, Z.of_nat (length (91 :: t)) - 2) else (ptr + 1, Z.of_nat (length (91 :: t)) - 1))
      = (q, Z.of_nat (length t')) /\ points pm q t') as (q & -> & Hq).
    { unfold t', neg in *. destruct t as [|d1 r1]; [|destruct (d1 =? 94)]; eexists; (split; [f_equal; cbn [length tail]; lia | eauto with glob]). }
    destruct (class_loop_ok nocase sm sp d s Hst Hd (length t') t' l r F pm q false) as (q' & -> & Hq'); try done;
      [exact (bytes_suffix _ _ _ Hbp Hsuf') | lia|].
    pose proof (parse_class_suffix _ _ _ _ (Nat.le_refl _) Hcl) as Hsuf. pose proof (suffix_length _ _ Hsuf).
    rewrite bind_ok, orb_false_r. assert (r `suffix_of` t) by (by etrans).
    pose proof (turn_ok nocase F pm sm sp d s (Class neg l) r q' _ n ts1 ltac:(done) Hq' eq_refl Hr ltac:(lia)) as Hturn.
    cbn [in_token] in Hturn. destruct neg; cbn [xorb] in Hturn; apply Hturn; eauto.
  - rewrite (points_hd sm sp d s Hst). destruct t as [|d1 r].
    + replace (_ >=? 2) with false by (symmetry; rewrite Z.geb_leb; apply Z.leb_gt; cbn [length]; lia).
      rewrite andb_false_r, !bind_ok. injection Hp as <-.
      apply (turn_ok nocase F pm sm sp d s (Lit c) [] ptr _ O []); eauto with glob; try (cbn [length]; lia).
      apply (Hrec [] O); eauto with glob; lia.
    + replace (_ >=? 2) with true by (symmetry; rewrite Z.geb_leb; apply Z.leb_le; cbn [length]; lia). rewrite andb_true_r.
      destruct (c =? 92); apply bind_Some in Hp as (ts1 & Hp & [= <-]); cbn [length] in *.
      * rewrite (points_hd pm (ptr + 1) d1 r) by eauto with glob. rewrite !bind_ok.
        apply (turn_ok nocase F pm sm sp d s (Lit d1) r (ptr + 1) _ n ts1); eauto with glob; [cbn [length]; lia | lia|].
        apply Hrec with (m := n); eauto with glob. by apply suffix_cons_r.
      * rewrite !bind_ok. apply (turn_ok nocase F pm sm sp d s (Lit c) (d1 :: r) ptr _ n ts1); eauto with glob; cbn [length]; lia.
Qed.

(** The same for the call on two blocks.  The empty string needs a pattern that
    does not begin with a class and has no NUL. *)
Lemma match_blocks_ok nocase p ts s : parse p = Some ts -> Forall byte_ok p -> Forall byte_ok s ->
  s <> [] \/ (head p <> Some 91 /\ no_nul p) ->
  exists b, match_blocks p s nocase = Ok b /\ (b = true <-> matches nocase ts s).
Proof.
  intros Hp Hbp Hbs He. unfold match_blocks.
  assert (points (p ++ [0]) 0 p) as Hpt by (by exists []). assert (points (s ++ [0]) 0 s) as Hst by (by exists []).
  destruct s as [|d s]; [|apply (stringmatchlen_ok nocase (length p) p ts); auto; lia].
  destruct He as [? | [Hh Hnul]]; [done|]. replace (length p + length ([] : bytes) + 2)%nat with (S (S (length p))) by (cbn; lia).
  unfold parse in Hp. destruct p as [|c t].
  { exists true. injection Hp as <-. split; [done | split; [constructor | done]]. }
  destruct (Z.eqb_spec c 42) as [-> | Hc].
  - remember (S (length (42 :: t))) as F eqn:EF. cbn [stringmatchlen].
    replace (Z.of_nat (length (42 :: t)) =? 0) with false by (symmetry; apply Z.eqb_neq; cbn [length]; lia).
    rewrite (points_hd _ _ _ _ Hpt), bind_ok. change (42 =? 42) with true. cbv iota zeta.
    replace (Z.of_nat (length (42 :: t))) with (Z.of_nat (length t) + 1) by (cbn [length]; lia).
    destruct (skip_next_ok nocase t _ ts F _ 0 Hp Hpt) as (r & ptr' & n' & ts' & -> & Hr & Hp' & Hn & Hsuf & Hh' & Hm).
    { subst F. cbn [length]. lia. }
    rewrite bind_ok. destruct r as [|x r].
    + exists true. split; [done|]. split; [|done]. intros _. rewrite Hm, matches_star_iff. exists [], [].
      split; [done|]. destruct n'; injection Hp' as <-; constructor.
    + exists false. replace (_ =? 1) with false by (symmetry; apply Z.eqb_neq; cbn [length]; lia).
      split; [by destruct F|]. split; [done|]. rewrite Hm, matches_star_iff. intros (s1 & s2 & E & H).
      symmetry in E. apply app_eq_nil in E as [-> ->].
      apply parse_head in Hp' as (tok & ts2 & -> & Ht); [|intros ->; done].
      apply matches_char_iff in H as (? & ? & ? & _); done.
  - exists false. split.
    2: { split; [done|]. apply parse_head in Hp as (tok & ts2 & -> & Ht); [|done].
         rewrite matches_char_iff by done. by intros (? & ? & ? & _). }
    cbn [stringmatchlen]. replace (Z.of_nat (length (c :: t)) =? 0) with false by (symmetry; apply Z.eqb_neq; cbn [length]; lia).
    rewrite (points_hd _ _ _ _ Hpt), bind_ok. destruct (Z.eqb_spec c 42); [done|]. destruct (Z.eqb_spec c 63); [done|].
    destruct (Z.eqb_spec c 91); [subst; done|]. cbv zeta. rewrite (points_end _ _ Hst).
    assert (forall x, x <> 0 -> byte_ok x -> same_char nocase x 0 = false) as Hz.
    { intros x Hx Hb. unfold same_char. assert (schar x <> schar 0) as Hs.
      { apply Z.eqb_neq. rewrite schar_eqb; [by apply Z.eqb_neq | done | by vm_compute]. }
      change (schar 0) with 0 in *. change (tolower 0) with 0. destruct nocase; apply Z.eqb_neq; [|done].
      unfold tolower, isupper. destruct (Z.leb_spec 65 (schar x)), (Z.leb_spec (schar x) 90); cbn; lia. }
    apply Forall_cons in Hbp as [Hbc Hbp]. apply Forall_cons in Hnul as [Hc0 Hnul].
    destruct t as [|d1 r].
    + replace (_ >=? 2) with false by (symmetry; rewrite Z.geb_leb; apply Z.leb_gt; cbn [length]; lia).
      rewrite andb_false_r, !bind_ok. by rewrite Hz.
    + destruct ((c =? 92) && _); [rewrite (points_hd _ (0 + 1) d1 r (points_tl _ _ _ _ Hpt))|]; rewrite !bind_ok.
      * apply Forall_cons in Hbp as [Hb1 _]. apply Forall_cons in Hnul as [H1 _]. by rewrite Hz.
      * by rewrite Hz.
Qed.
