(* ===== verification/Object.v ===== *)
(** * String objects ([src/object.c])

    An object is its type, its encoding, its payload and its reference count.
    Objects are values here: the reference count is what the code tests before
    it changes an object in place. Lists, sorted sets and hashes are opaque. *)

From S2P Require Import Prelude CLib Util Dict IntSet Sds.
Local Open Scope Z_scope.

Inductive obj_type := OBJ_STRING | OBJ_LIST | OBJ_SET | OBJ_ZSET | OBJ_HASH.
Inductive obj_encoding := OBJ_ENCODING_RAW | OBJ_ENCODING_INT | OBJ_ENCODING_EMBSTR | OBJ_ENCODING_OTHER.

#[export] Instance obj_type_eq_dec : EqDecision obj_type.
Proof. solve_decision. Defined.
#[export] Instance obj_encoding_eq_dec : EqDecision obj_encoding.
Proof. solve_decision. Defined.

(** A set: a hash table without values, or an intset. *)
Inductive setobj :=
  | SetHT (d : dict unit)
  | SetIntset (s : intset).

(** [o->ptr]: an sds, an integer stored in the pointer, a set, or another
    structure. The encoding of a set is told by the constructor of [setobj]. *)
Inductive obj_ptr :=
  | PtrSds (s : sds)
  | PtrInt (n : Z)
  | PtrSet (s : setobj)
  | PtrOther.

Record robj := mkObj {
  o_type : obj_type;
  o_encoding : obj_encoding;
  o_ptr : obj_ptr;
  o_refcount : Z
}.

Definition OBJ_ENCODING_EMBSTR_SIZE_LIMIT : Z := 44.
Definition OBJ_SHARED_INTEGERS : Z := 10000.

Definition sdsEncodedObject (o : robj) : bool :=
  bool_decide (o_encoding o = OBJ_ENCODING_RAW) || bool_decide (o_encoding o = OBJ_ENCODING_EMBSTR).

Definition obj_sds (o : robj) : res sds :=
  match o_ptr o with PtrSds s => Ok s | _ => Fault OutOfBounds end.

Definition createObject (type : obj_type) (s : sds) : robj :=
  mkObj type OBJ_ENCODING_RAW (PtrSds s) 1.

Section Objects.
Variable junk : Z.

Definition createRawStringObject (p : bytes) (len : Z) : res robj :=
  s ← sdsnewlen junk (Some p) len; Ok (createObject OBJ_STRING s).

(** The header is a [sdshdr8]: the length is a [uint8_t]. *)
Definition createEmbeddedStringObject (p : bytes) (len : Z) : res robj :=
  d ← mread p 0 (Z.to_nat len);
  mem ← mwrite (replicate (Z.to_nat (len + 1)) junk) 0 d;
  mem ← wrZ mem len 0;
  Ok (mkObj OBJ_STRING OBJ_ENCODING_EMBSTR (PtrSds (mkSds SDS_TYPE_8 (u8 len) (u8 len) mem)) 1).

Definition createStringObject (p : bytes) (len : Z) : res robj :=
  if len <=? OBJ_ENCODING_EMBSTR_SIZE_LIMIT then createEmbeddedStringObject p len
  else createRawStringObject p len.

Definition incrRefCount (o : robj) : robj :=
  mkObj (o_type o) (o_encoding o) (o_ptr o) (o_refcount o + 1).

(** An entry of [shared.integers]: an object with several owners. *)
Definition shared_integer (v : Z) : robj := mkObj OBJ_STRING OBJ_ENCODING_INT (PtrInt v) 2.

Definition createStringObjectFromLongLong (value : Z) : robj :=
  if (0 <=? value) && (value <? OBJ_SHARED_INTEGERS) then shared_integer value
  else mkObj OBJ_STRING OBJ_ENCODING_INT (PtrInt value) 1.

(** [shareable]: [maxmemory] is 0 or the policy is not an LRU one. *)
Definition tryObjectEncoding (shareable : bool) (o : robj) : res robj :=
  if negb (bool_decide (o_type o = OBJ_STRING)) then Fault AssertFailed else
  if negb (sdsEncodedObject o) then Ok o else
  if o_refcount o >? 1 then Ok o else
  s ← obj_sds o;
  let len := sdslen s in
  match (if len <=? 20 then string2l (sdsval s) else None) with
  | Some value =>
      if shareable && (value >=? 0) && (value <? OBJ_SHARED_INTEGERS) then Ok (shared_integer value)
      else Ok (mkObj (o_type o) OBJ_ENCODING_INT (PtrInt value) (o_refcount o))
  | None =>
      if len <=? OBJ_ENCODING_EMBSTR_SIZE_LIMIT then
        if bool_decide (o_encoding o = OBJ_ENCODING_EMBSTR) then Ok o
        else createEmbeddedStringObject (sds_mem s) len
      else if bool_decide (o_encoding o = OBJ_ENCODING_RAW) && (sdsavail s >? len / 10) then
        s ← sdsRemoveFreeSpace junk s;
        Ok (mkObj (o_type o) (o_encoding o) (PtrSds s) (o_refcount o))
      else Ok o
  end.

Definition getDecodedObject (o : robj) : res robj :=
  if sdsEncodedObject o then Ok (incrRefCount o) else
  match o_type o, o_encoding o, o_ptr o with
  | OBJ_STRING, OBJ_ENCODING_INT, PtrInt n =>
      '(_, buf) ← ll2string (replicate 32 junk) 32 n;
      createStringObject buf (Z.of_nat (length (cstr buf)))
  | _, _, _ => Fault AssertFailed
  end.
End Objects.

(** ** The string an object denotes *)

Definition objval (o : robj) : option bytes :=
  match o_ptr o with
  | PtrSds s => Some (sdsval s)
  | PtrInt n => Some (dec n)
  | PtrSet _ | PtrOther => None
  end.

(** A well-formed string object. *)
Definition strobj_ok (o : robj) : Prop :=
  o_type o = OBJ_STRING /\ 1 <= o_refcount o /\
  match o_encoding o with
  | OBJ_ENCODING_RAW => exists s, o_ptr o = PtrSds s /\ sds_ok s
  | OBJ_ENCODING_EMBSTR => exists s, o_ptr o = PtrSds s /\ sds_ok s /\ sds_len s <= OBJ_ENCODING_EMBSTR_SIZE_LIMIT
  | OBJ_ENCODING_INT => exists n, o_ptr o = PtrInt n /\ LLONG_MIN <= n <= LLONG_MAX
  | OBJ_ENCODING_OTHER => False
  end.

Lemma createEmbedded_ok junk p len :
  0 <= len <= OBJ_ENCODING_EMBSTR_SIZE_LIMIT -> len <= Z.of_nat (length p) ->
  exists o, createEmbeddedStringObject junk p len = Ok o /\ strobj_ok o /\
    objval o = Some (take (Z.to_nat len) p) /\ o_encoding o = OBJ_ENCODING_EMBSTR.
Proof.
  unfold OBJ_ENCODING_EMBSTR_SIZE_LIMIT. intros Hl Hp. unfold createEmbeddedStringObject.
  rewrite mread_ok by lia. rewrite bind_ok, drop_0.
  rewrite mwrite_ok by len_lia. rewrite bind_ok, take_0. cbn [app Nat.add].
  set (mem := _ ++ _).
  assert (length mem = Z.to_nat (len + 1)) as Hlen by (unfold mem; len_lia).
  unfold wrZ. rewrite decide_True by lia. rewrite wr_ok by lia. rewrite bind_ok.
  eexists. split; [reflexivity|].
  assert (u8 len = len) as -> by (unfold u8; apply Z.mod_small; lia).
  assert (take (Z.to_nat len) (<[Z.to_nat len:=0]> mem) = take (Z.to_nat len) p) as Htk.
  { rewrite take_insert_ge by lia. unfold mem. rewrite take_app_le by len_lia.
    rewrite take_take, Nat.min_id. done. }
  split; [|split; [|done]].
  - split; [done|]. split; [cbn; lia|]. cbn. eexists. split; [done|].
    split; [|cbn; unfold OBJ_ENCODING_EMBSTR_SIZE_LIMIT; lia].
    apply sds_ok_intro; try done; [lia|cbn; lia| |].
    + rewrite length_insert. lia.
    + apply list_lookup_insert_eq. lia.
  - cbn. unfold sdsval. cbn. by rewrite Htk.
Qed.

Lemma createRaw_ok junk p len :
  0 <= len <= Z.of_nat (length p) -> len < 2 ^ 64 ->
  exists o, createRawStringObject junk p len = Ok o /\ strobj_ok o /\ objval o = Some (take (Z.to_nat len) p) /\
    o_encoding o = OBJ_ENCODING_RAW.
Proof.
  intros Hl Hb. unfold createRawStringObject.
  destruct (sdsnewlen_ok junk p len Hl Hb) as (s & -> & Hs & Hv & _). rewrite bind_ok.
  eexists. split; [reflexivity|]. split; [|split; [cbn; by rewrite Hv|done]].
  split; [done|]. split; [cbn; lia|]. cbn. eauto.
Qed.

Lemma createStringObject_ok junk p len :
  0 <= len <= Z.of_nat (length p) -> len < 2 ^ 64 ->
  exists o, createStringObject junk p len = Ok o /\ strobj_ok o /\ objval o = Some (take (Z.to_nat len) p) /\
    exists s, o_ptr o = PtrSds s /\ sds_ok s.
Proof.
  intros Hl Hb. unfold createStringObject. destruct (Z.leb_spec len OBJ_ENCODING_EMBSTR_SIZE_LIMIT).
  - destruct (createEmbedded_ok junk p len) as (o & H1 & H2 & H3 & H4); [lia|lia|].
    exists o. split_and!; [done..|]. destruct H2 as (_ & _ & H2). rewrite H4 in H2. destruct H2 as (s & ? & ? & _). eauto.
  - destruct (createRaw_ok junk p len Hl Hb) as (o & H1 & H2 & H3 & H4).
    exists o. split_and!; [done..|]. destruct H2 as (_ & _ & H2). rewrite H4 in H2. done.
Qed.

(** Re-encoding does not change the string. *)
Lemma tryObjectEncoding_ok junk shareable o :
  strobj_ok o ->
  exists o', tryObjectEncoding junk shareable o = Ok o' /\ strobj_ok o' /\ objval o' = objval o.
Proof.
  intros Ho. assert (Ho0 := Ho). destruct Ho as (Ht & Hr & He). unfold tryObjectEncoding.
  rewrite Ht. rewrite bool_decide_eq_true_2 by done. cbn [negb].
  destruct (sdsEncodedObject o) eqn:Es; cbn [negb]; [|by exists o].
  destruct (Z.gtb_spec (o_refcount o) 1) as [|Hr1]; [by exists o|].
  assert (exists s, o_ptr o = PtrSds s /\ sds_ok s) as (s & Hp & Hs).
  { unfold sdsEncodedObject in Es. destruct (o_encoding o); try done; destruct He as (s & ? & ?); naive_solver. }
  unfold obj_sds. rewrite Hp, bind_ok. unfold sdslen.
  pose proof (sdsval_length s Hs) as Hlen. pose proof (sds_ok_len s Hs) as [Hl0 _].
  destruct (if sds_len s <=? 20 then string2l (sdsval s) else None) as [v|] eqn:Ev.
  - assert (sdsval s = dec v /\ LLONG_MIN <= v <= LLONG_MAX) as [Hd Hv].
    { destruct (sds_len s <=? 20); [|done]. unfold string2l in Ev.
      destruct (string2ll (sdsval s)) as [w|] eqn:E; [|done]. apply string2ll_iff in E.
      destruct (_ || _); [done|]. by injection Ev as <-. }
    assert (objval o = Some (dec v)) as Hov by (unfold objval; by rewrite Hp, Hd).
    destruct (shareable && (v >=? 0) && (v <? OBJ_SHARED_INTEGERS)); (eexists; split; [reflexivity|]);
      (split; [|by rewrite Hov]); (split; [done|]); (split; [cbn; lia|]); cbn; eauto.
  - destruct (Z.leb_spec (sds_len s) OBJ_ENCODING_EMBSTR_SIZE_LIMIT) as [Hle|Hgt].
    + case_bool_decide as Eb; [by exists o|].
      pose proof (sds_ok_mem s Hs). pose proof (sds_ok_len s Hs).
      destruct (createEmbedded_ok junk (sds_mem s) (sds_len s)) as (o' & -> & Ho' & Hv' & _); [lia|lia|].
      exists o'. split; [done|]. split; [done|]. rewrite Hv'. unfold objval. by rewrite Hp.
    + destruct (bool_decide (o_encoding o = OBJ_ENCODING_RAW)) eqn:Eb; cbn [andb].
      2:{ by exists o. }
      destruct (sdsavail s >? sds_len s / 10); [|by exists o].
      destruct (sdsRemoveFreeSpace_ok junk s Hs) as (s' & -> & Hs' & Hv' & _). rewrite bind_ok.
      eexists. split; [reflexivity|]. apply bool_decide_eq_true in Eb. split.
      * split; [done|]. split; [done|]. cbn. rewrite Eb. eauto.
      * unfold objval. cbn. by rewrite Hp, Hv'.
Qed.

Lemma dec_length_bound n : LLONG_MIN <= n <= LLONG_MAX -> (length (dec n) <= 20)%nat.
Proof.
  unfold LLONG_MIN, LLONG_MAX. intros Hn. rewrite dec_abs, length_app.
  assert (length (udec (Z.abs n)) <= 19)%nat.
  { apply udec_length_bound; [lia|lia|]. change (10 ^ Z.of_nat 19) with 10000000000000000000. lia. }
  destruct (n <? 0); cbn [length]; lia.
Qed.

Lemma dec_no_nul n : no_nul (dec n).
Proof. unfold dec. case_bool; [constructor; [done|]|]; apply udec_no_nul; lia. Qed.

(** Decoding an object gives an sds with the string it denotes. *)
Lemma getDecodedObject_ok junk o :
  strobj_ok o ->
  exists o' s, getDecodedObject junk o = Ok o' /\ strobj_ok o' /\ o_ptr o' = PtrSds s /\ sds_ok s /\
    objval o' = objval o.
Proof.
  intros (Ht & Hr & He). unfold getDecodedObject, sdsEncodedObject.
  destruct (o_encoding o) eqn:E; try done; cbn [bool_decide orb].
  - destruct He as (s & Hp & Hs). exists (incrRefCount o), s. unfold objval. cbn. rewrite Hp. split_and!; try done.
    split; [done|]. split; [cbn; lia|]. cbn. rewrite E. eauto.
  - destruct He as (n & Hp & Hn). rewrite Ht, Hp. cbn.
    pose proof (dec_length_bound n Hn) as Hl.
    rewrite ll2string_writes by (rewrite ?length_replicate; (done || lia)). rewrite bind_ok.
    cbn [app]. rewrite cstr_app_nul by apply dec_no_nul.
    destruct (createStringObject_ok junk (dec n ++ 0 :: drop (S (length (dec n))) (replicate 32 junk)) (Z.of_nat (length (dec n))))
      as (o' & H1 & H2 & H3 & s & H4 & H5); [len_lia|lia|].
    exists o', s. split_and!; try done. rewrite H3. unfold objval. rewrite Hp. f_equal.
    by rewrite Nat2Z.id, take_app_length.
  - destruct He as (s & Hp & Hs & Hle). exists (incrRefCount o), s. unfold objval. cbn. rewrite Hp. split_and!; try done.
    split; [done|]. split; [cbn; lia|]. cbn. rewrite E. eauto.
Qed.
