(* ===== verification/SetType.v ===== *)
(** * Sets

    Model of the set type of src/redis-3.2.5/src/t_set.c: a set whose members are
    all integers is an intset, any other a hash table without values.  A set is
    converted to a hash table when a member is added that is not an integer, or
    when it has more than [set_max_intset_entries] members.

    The keys of the hash table are string objects; its hash function and its
    comparison ([dictEncObjHash], [dictEncObjKeyCompare]) read the string that an
    object denotes, so a key is that string here.  [junk] is what the allocator
    leaves in the bytes it adds, [can_resize] is [dict_can_resize]. *)
From S2P Require Import Prelude CLib Util Sds Dict Object IntSet.
Open Scope Z_scope.

Definition HASHTABLE_MIN_FILL : Z := 10.

Definition htNeedsResize {V} (d : dict V) : bool :=
  let size := dictSlots d in
  let used := dictSize d in
  (size >? DICT_HT_INITIAL_SIZE) && (Z.quot (used * 100) size <? HASHTABLE_MIN_FILL).

(** The integer that an object denotes, if it denotes one. *)
Definition isObjectRepresentableAsLongLong (o : robj) : res (option Z) :=
  if negb (bool_decide (o_type o = OBJ_STRING)) then Fault AssertFailed else
  if bool_decide (o_encoding o = OBJ_ENCODING_INT) then
    match o_ptr o with PtrInt n => Ok (Some n) | _ => Fault OutOfBounds end
  else s ← obj_sds o; Ok (string2ll (sdsval s)).

(** The key of an object in the hash table of a set. *)
Definition member_key (o : robj) : res bytes :=
  match objval o with Some k => Ok k | None => Fault OutOfBounds end.

(** The seed of the hash function, [dict_can_resize] and
    [server.set_max_intset_entries]: what the sets of a server have in common. *)
Class SetConfig := {
  set_seed : Z;
  set_can_resize : bool;
  set_max_entries : Z
}.

Definition set_hash `{SetConfig} : bytes -> Z := dictGenHashFunction set_seed.

Section SetOps.

Variable junk : Z.
Variable hash : bytes -> Z.
Variable can_resize : bool.
Variable set_max_intset_entries : Z.

Definition createIntsetObject : setobj := SetIntset intsetNew.
Definition createSetObject : setobj := SetHT dictCreate.

Definition setTypeCreate (value : robj) : res setobj :=
  v ← isObjectRepresentableAsLongLong value;
  Ok (match v with Some _ => createIntsetObject | None => createSetObject end).

Definition setTypeSize (subject : setobj) : Z :=
  match subject with
  | SetHT d => dictSize d
  | SetIntset s => intsetLen s
  end.

(** The loop of the conversion: [ii] is the position of the iterator.  Every member
    is added to the table, and the assertion that it was not there is checked. *)
Fixpoint convert_loop (fuel : nat) (s : intset) (ii : Z) (d : dict unit) : res (dict unit) :=
  match fuel with
  | O => Fault OutOfFuel
  | S f =>
    o ← intsetGet s ii;
    match o with
    | None => Ok d
    | Some intele =>
      k ← member_key (createStringObjectFromLongLong intele);
      '(d, added) ← dictAdd hash can_resize d k tt;
      if (added : bool) then convert_loop f s (u32 (ii + 1)) d else Fault AssertFailed
    end
  end.

Definition setTypeConvert (subject : setobj) : res setobj :=
  match subject with
  | SetHT _ => Fault AssertFailed
  | SetIntset s =>
    let '(d, _) := dictExpand dictCreate (intsetLen s) in
    d ← convert_loop (S (Z.to_nat (intsetLen s))) s 0 d;
    Ok (SetHT d)
  end.

Definition setTypeAdd (subject : setobj) (value : robj) : res (setobj * bool) :=
  match subject with
  | SetHT d =>
    k ← member_key value;
    '(d, added) ← dictAdd hash can_resize d k tt;
    Ok (SetHT d, added)
  | SetIntset s =>
    v ← isObjectRepresentableAsLongLong value;
    match v with
    | Some llval =>
      '(s, success) ← intsetAdd junk s llval;
      if (success : bool) then
        if intsetLen s >? set_max_intset_entries then subject ← setTypeConvert (SetIntset s); Ok (subject, true)
        else Ok (SetIntset s, true)
      else Ok (SetIntset s, false)
    | None =>
      subject ← setTypeConvert (SetIntset s);
      match subject with
      | SetHT d =>
        k ← member_key value;
        '(d, added) ← dictAdd hash can_resize d k tt;
        if (added : bool) then Ok (SetHT d, true) else Fault AssertFailed
      | SetIntset _ => Fault AssertFailed
      end
    end
  end.

Definition setTypeRemove (subject : setobj) (value : robj) : res (setobj * bool) :=
  match subject with
  | SetHT d =>
    k ← member_key value;
    '(d, removed) ← dictGenericDelete hash d k;
    if (removed : bool) then
      Ok (SetHT (if htNeedsResize d then (dictResize can_resize d).1 else d), true)
    else Ok (SetHT d, false)
  | SetIntset s =>
    v ← isObjectRepresentableAsLongLong value;
    match v with
    | Some llval => '(s, success) ← intsetRemove junk s llval; Ok (SetIntset s, success)
    | None => Ok (SetIntset s, false)
    end
  end.

(** A lookup in a hash table may move some of its entries. *)
Definition setTypeIsMember (subject : setobj) (value : robj) : res (setobj * bool) :=
  match subject with
  | SetHT d =>
    k ← member_key value;
    '(d, o) ← dictFind hash d k;
    Ok (SetHT d, bool_decide (o = Some tt))
  | SetIntset s =>
    v ← isObjectRepresentableAsLongLong value;
    match v with
    | Some llval => b ← intsetFind s llval; Ok (SetIntset s, b)
    | None => Ok (SetIntset s, false)
    end
  end.

End SetOps.

(** ** The members of a set *)

Section Members.

Variable junk : Z.
Variable hash : bytes -> Z.
Variable can_resize : bool.
Variable set_max_intset_entries : Z.

(** A set object is well-formed and its members are [X]. *)
Definition set_is (subject : setobj) (X : gset bytes) : Prop :=
  match subject with
  | SetHT d => dict_ok hash d /\ X = dom (dict_map d)
  | SetIntset s => exists l, holds s l /\ X = list_to_set (dec <$> l)
  end.

(** The members as a function of the object. *)
Definition members (subject : setobj) : gset bytes :=
  match subject with
  | SetHT d => dom (dict_map d)
  | SetIntset s => list_to_set (dec <$> intset_elems s)
  end.

Lemma set_is_members subject X : set_is subject X -> members subject = X.
Proof.
  destruct subject as [d | s]; cbn [set_is members]; [by intros [_ ->]|].
  intros (l & Hl & ->). by rewrite (holds_elems s l Hl).
Qed.

(** The sizes for which neither representation reaches a limit. *)
Definition small (X : gset bytes) : Prop := Z.of_nat (size X) + 1 < INTSET_MAX.

Lemma string2ll_dec n : LLONG_MIN <= n <= LLONG_MAX -> string2ll (dec n) = Some n.
Proof. intros. by apply string2ll_iff. Qed.

Lemma dec_inj a b : LLONG_MIN <= a <= LLONG_MAX -> LLONG_MIN <= b <= LLONG_MAX -> dec a = dec b -> a = b.
Proof. intros Ha Hb E. apply string2ll_dec in Ha, Hb. congruence. Qed.

Lemma fits_ll v : fits 8 v <-> LLONG_MIN <= v <= LLONG_MAX.
Proof. unfold fits, LLONG_MIN, LLONG_MAX. cbn. lia. Qed.

Lemma holds_ll s l v : holds s l -> v ∈ l -> LLONG_MIN <= v <= LLONG_MAX.
Proof.
  intros H Hv. apply fits_ll. pose proof (h_fits _ _ H) as Hf. rewrite Forall_forall in Hf.
  apply (fits_mono (is_encoding s)); [apply H | apply enc_pos, H | auto].
Qed.

Lemma representable_ok o v : strobj_ok o -> objval o = Some v -> isObjectRepresentableAsLongLong o = Ok (string2ll v).
Proof.
  intros (Ht & _ & He) Hv. unfold isObjectRepresentableAsLongLong, obj_sds, objval in *. rewrite Ht, bool_decide_true by done.
  destruct (o_encoding o); [| | |done]; destruct He as (x & Hp & Hx); rewrite Hp in *; cbn in *; injection Hv as <-; try done.
  by rewrite string2ll_dec.
Qed.

Lemma members_dec_iff s l v : holds s l -> LLONG_MIN <= v <= LLONG_MAX ->
  dec v ∈ (list_to_set (dec <$> l) : gset bytes) <-> v ∈ l.
Proof.
  intros H Hv. rewrite elem_of_list_to_set, list_elem_of_fmap. split; [|eauto].
  intros (w & E & Hw). apply dec_inj in E as ->; [done | done | by eapply holds_ll].
Qed.

(** A member of an intset is a string that denotes an integer. *)
Lemma members_not_int s l k : holds s l -> string2ll k = None -> k ∉ (list_to_set (dec <$> l) : gset bytes).
Proof.
  intros H Hk. rewrite elem_of_list_to_set, list_elem_of_fmap. intros (w & -> & Hw).
  rewrite string2ll_dec in Hk by (by eapply holds_ll). done.
Qed.

Lemma members_size s l : holds s l -> size (list_to_set (dec <$> l) : gset bytes) = length l.
Proof.
  intros H. rewrite size_list_to_set; [apply length_fmap|]. apply NoDup_fmap_2_strong; [|apply sorted_nodup, H].
  intros a b Ha Hb E. apply dec_inj in E; [done | by eapply holds_ll..].
Qed.

Lemma dict_size_dom (d : dict unit) : dict_ok hash d -> dictSize d = Z.of_nat (size (dom (dict_map d))).
Proof. intros H. rewrite (dict_map_size hash d H). f_equal. symmetry. apply size_dom. Qed.

Lemma set_size_ok subject X : set_is subject X -> setTypeSize subject = Z.of_nat (size X).
Proof.
  destruct subject as [d | s]; cbn [set_is setTypeSize].
  - intros [H ->]. by apply dict_size_dom.
  - intros (l & H & ->). rewrite (members_size s l H). apply H.
Qed.

Lemma key_add_ok d k : dict_ok hash d -> dictSize d <= 2 ^ 30 ->
  exists d', dictAdd hash can_resize d k tt = Ok (d', bool_decide (k ∉ dom (dict_map d))) /\
    dict_ok hash d' /\ dom (dict_map d') = {[k]} ∪ dom (dict_map d).
Proof.
  intros H Hs. destruct (dictAdd_map hash can_resize d k tt H Hs) as (d' & -> & H' & Hm). exists d'. split_and!; [|done|].
  - do 2 f_equal. apply bool_decide_ext. by rewrite not_elem_of_dom.
  - rewrite Hm. destruct (dict_map d !! k) eqn:E; [|by rewrite dom_insert_L].
    apply elem_of_dom_2 in E. set_solver.
Qed.

Lemma convert_loop_ok s l : holds s l -> Z.of_nat (length l) < INTSET_MAX -> forall fuel i d,
  (i <= length l)%nat -> (length l - i < fuel)%nat -> dict_ok hash d -> dom (dict_map d) = list_to_set (dec <$> take i l) ->
  exists d', convert_loop hash can_resize fuel s (Z.of_nat i) d = Ok d' /\ dict_ok hash d' /\
    dom (dict_map d') = list_to_set (dec <$> l).
Proof.
  intros H Hmax. induction fuel as [|f IH]; intros i d Hi Hf Hd Hdom; [lia|]. cbn [convert_loop].
  unfold intsetGet. rewrite (h_len _ _ H). unfold INTSET_MAX in *.
  destruct (Z.ltb_spec (Z.of_nat i) (Z.of_nat (length l))).
  2: { exists d. rewrite take_ge in Hdom by lia. done. }
  destruct (lookup_lt_is_Some_2 l i) as [v Hv]; [lia|]. rewrite s32_small by lia.
  rewrite (get_ok s l H i v Hv), !bind_ok.
  assert (member_key (createStringObjectFromLongLong v) = Ok (dec v)) as ->.
  { unfold createStringObjectFromLongLong. by destruct (_ && _). }
  rewrite bind_ok. destruct (key_add_ok d (dec v) Hd) as (d' & -> & Hd' & Hdom').
  { rewrite dict_size_dom, Hdom by done. pose proof (members_size s l H) as Hsz.
    assert (size (list_to_set (dec <$> take i l) : gset bytes) <= size (list_to_set (dec <$> l) : gset bytes))%nat; [|lia].
    apply subseteq_size. intros x. rewrite !elem_of_list_to_set, !list_elem_of_fmap. intros (w & -> & Hw).
    exists w. split; [done|]. apply elem_of_take in Hw as (j & Hw & _). by eapply list_elem_of_lookup_2. }
  assert (dec v ∉ dom (dict_map d)) as Hn.
  { rewrite Hdom, elem_of_list_to_set, list_elem_of_fmap. intros (w & E & Hw).
    apply list_elem_of_lookup in Hw as (j & [Hw Hj]%lookup_take_Some).
    apply dec_inj in E as ->; try (eapply holds_ll; [exact H | by eapply list_elem_of_lookup_2]).
    assert (w < w) by (by eapply (sorted_lookup s l H j i)). lia. }
  rewrite (bool_decide_eq_true_2 _ Hn), bind_ok, u32_small by lia.
  replace (Z.of_nat i + 1) with (Z.of_nat (S i)) by lia. apply IH; [lia | lia | done|].
  rewrite Hdom', Hdom, (take_S_r l i v Hv), fmap_app, list_to_set_app_L. set_solver.
Qed.

Lemma convert_ok s l : holds s l -> Z.of_nat (length l) < INTSET_MAX ->
  exists d, setTypeConvert hash can_resize (SetIntset s) = Ok (SetHT d) /\ set_is (SetHT d) (list_to_set (dec <$> l)).
Proof.
  intros H Hmax. cbn [setTypeConvert]. unfold intsetLen. rewrite (h_len _ _ H).
  assert (dict_ok hash (dictCreate (V := unit))) as Hd by (split; cbn; [by apply reset_ok..|done|constructor]).
  unfold INTSET_MAX in Hmax.
  destruct (dictExpand_ok hash dictCreate (Z.of_nat (length l)) Hd) as (d & b & -> & Hd' & He & _); [lia|].
  destruct (convert_loop_ok s l H Hmax (S (Z.to_nat (Z.of_nat (length l)))) 0 d) as (d' & E & Hd2 & Hdom); [lia | lia | done | |].
  { unfold dict_map. by rewrite He. }
  change (Z.of_nat 0) with 0 in E. rewrite E, bind_ok. exists d'. split; [done|]. by split.
Qed.

(** ** The operations on the members *)

#[local] Abbreviation set_add := (setTypeAdd junk hash can_resize set_max_intset_entries).
#[local] Abbreviation set_remove := (setTypeRemove junk hash can_resize).

Lemma member_key_ok o k : objval o = Some k -> member_key o = Ok k.
Proof. intros H. unfold member_key. by rewrite H. Qed.

Lemma create_set_ok o k : strobj_ok o -> objval o = Some k ->
  exists s, setTypeCreate o = Ok s /\ set_is s ∅.
Proof.
  intros Ho Hk. unfold setTypeCreate. rewrite (representable_ok o k Ho Hk), bind_ok. eexists. split; [reflexivity|].
  destruct (string2ll k); cbn [set_is createIntsetObject createSetObject].
  - destruct intsetNew_simulates as (l & Hl & [= E]). exists []. split; [|done]. constructor; cbn; repeat constructor.
  - split; [split; cbn; [by apply reset_ok..|done|constructor]|]. unfold dict_map. cbn. by rewrite dom_empty_L.
Qed.

Lemma int_members_add l l' v : (forall x, x ∈ l' <-> x = v \/ x ∈ l) ->
  (list_to_set (dec <$> l') : gset bytes) = {[dec v]} ∪ list_to_set (dec <$> l).
Proof.
  intros H. apply set_eq. intros x. rewrite elem_of_union, elem_of_singleton, !elem_of_list_to_set, !list_elem_of_fmap. split.
  - intros (w & -> & [-> | Hw]%H); eauto.
  - intros [-> | (w & -> & Hw)]; eexists; (split; [reflexivity|]); apply H; auto.
Qed.

Lemma set_add_ok s X o k : set_is s X -> small X -> strobj_ok o -> objval o = Some k ->
  exists s', set_add s o = Ok (s', bool_decide (k ∉ X)) /\ set_is s' ({[k]} ∪ X).
Proof.
  unfold small, INTSET_MAX. intros HX Hs Ho Hk. destruct s as [d | s]; cbn [set_is setTypeAdd] in *.
  - destruct HX as [Hd ->]. rewrite (member_key_ok o k Hk), bind_ok.
    destruct (key_add_ok d k Hd) as (d' & -> & Hd' & Hdom); [rewrite dict_size_dom by done; lia|]. rewrite bind_ok.
    exists (SetHT d'). split; [done|]. by split.
  - destruct HX as (l & Hl & ->). rewrite (members_size s l Hl) in Hs. rewrite (representable_ok o k Ho Hk), bind_ok.
    destruct (string2ll k) as [v|] eqn:Ek.
    + apply string2ll_iff in Ek as [-> Hv].
      destruct (add_ok junk s l v Hl) as (s' & l' & -> & Hl' & _ & Hlen & Hin); [unfold INTSET_MAX; lia | by apply fits_ll|].
      rewrite bind_ok, <- (int_members_add l l' v Hin).
      rewrite (bool_decide_ext (dec v ∉ list_to_set (dec <$> l)) (v ∉ l)) by (by rewrite (members_dec_iff s l v Hl Hv)).
      case_bool_decide as Hn; [|exists (SetIntset s'); cbn; eauto].
      case_match; [|exists (SetIntset s'); cbn; eauto].
      destruct (convert_ok s' l' Hl') as (d & -> & Hd); [unfold INTSET_MAX; lia|]. rewrite bind_ok. eauto.
    + destruct (convert_ok s l Hl) as (d & -> & Hd & Hdom); [unfold INTSET_MAX; lia|].
      rewrite bind_ok, (member_key_ok o k Hk), bind_ok.
      destruct (key_add_ok d k Hd) as (d' & -> & Hd' & Hdom'). { rewrite dict_size_dom, <- Hdom, (members_size s l Hl) by done. lia. }
      rewrite <- Hdom, bool_decide_eq_true_2, bind_ok by (by eapply members_not_int).
      exists (SetHT d'). split; [done|]. split; [done|]. by rewrite Hdom', Hdom.
Qed.

Lemma resize_members d : dict_ok hash d -> dictSize d <= 2 ^ 30 ->
  set_is (SetHT (if htNeedsResize d then (dictResize can_resize d).1 else d)) (dom (dict_map d)).
Proof.
  intros Hd Hs. destruct (htNeedsResize d); [|by split].
  destruct (dictResize_ok hash can_resize d Hd Hs) as (d' & b & -> & Hd' & He). split; [done|]. unfold dict_map. cbn [fst]. by rewrite He.
Qed.

Lemma set_remove_ok s X o k : set_is s X -> small X -> strobj_ok o -> objval o = Some k ->
  exists s', set_remove s o = Ok (s', bool_decide (k ∈ X)) /\ set_is s' (X ∖ {[k]}).
Proof.
  unfold small, INTSET_MAX. intros HX Hs Ho Hk. destruct s as [d | s]; cbn [set_is setTypeRemove] in *.
  - destruct HX as [Hd ->]. rewrite (member_key_ok o k Hk), bind_ok.
    destruct (dictDelete_map hash d k Hd) as (d' & -> & Hd' & Hm). rewrite bind_ok.
    rewrite (bool_decide_ext (is_Some (dict_map d !! k)) (k ∈ dom (dict_map d))) by (by rewrite elem_of_dom).
    rewrite <- dom_delete_L, <- Hm. case_bool_decide; [|by exists (SetHT d')].
    eexists. split; [reflexivity|]. apply resize_members; [done|]. rewrite dict_size_dom, Hm, dom_delete_L by done.
    assert (size (dom (dict_map d) ∖ {[k]}) <= size (dom (dict_map d)))%nat by (apply subseteq_size; set_solver). lia.
  - destruct HX as (l & Hl & ->). rewrite (members_size s l Hl) in Hs. rewrite (representable_ok o k Ho Hk), bind_ok.
    destruct (string2ll k) as [v|] eqn:Ek.
    + apply string2ll_iff in Ek as [-> Hv].
      destruct (remove_ok junk s l v Hl) as (s' & l' & -> & Hl' & _ & _ & Hin); [unfold INTSET_MAX; lia | by apply fits_ll|].
      rewrite bind_ok, (bool_decide_ext (dec v ∈ _) (v ∈ l)) by (by apply (members_dec_iff s)).
      eexists. split; [reflexivity|]. exists l'. split; [done|]. apply set_eq. intros x.
      rewrite elem_of_difference, elem_of_singleton, !elem_of_list_to_set, !list_elem_of_fmap. split.
      * intros [(w & -> & Hw) Hne]. exists w. split; [done|]. apply Hin. split; [by intros ->; apply Hne | done].
      * intros (w & -> & [Hne Hw]%Hin). split; [eauto|]. intros E. apply dec_inj in E; [done | exact (holds_ll s l w Hl Hw) | done].
    + pose proof (members_not_int s l k Hl Ek) as Hn. rewrite (bool_decide_eq_false_2 _ Hn).
      eexists. split; [reflexivity|]. exists l. split; [done|]. set_solver.
Qed.

Lemma set_member_ok s X o k : set_is s X -> small X -> strobj_ok o -> objval o = Some k ->
  exists s', setTypeIsMember hash s o = Ok (s', bool_decide (k ∈ X)) /\ set_is s' X.
Proof.
  unfold small, INTSET_MAX. intros HX Hs Ho Hk. destruct s as [d | s]; cbn [set_is setTypeIsMember] in *.
  - destruct HX as [Hd ->]. rewrite (member_key_ok o k Hk), bind_ok.
    destruct (dictFind_map hash d k Hd) as (d' & -> & Hd' & Hm). rewrite bind_ok. exists (SetHT d'). split; [|by rewrite <- Hm].
    do 2 f_equal. apply bool_decide_ext. rewrite elem_of_dom. destruct (dict_map d !! k) as [[]|]; [|by split; [|intros []]].
    split; [eauto | done].
  - destruct HX as (l & Hl & ->). rewrite (members_size s l Hl) in Hs. rewrite (representable_ok o k Ho Hk), bind_ok.
    destruct (string2ll k) as [v|] eqn:Ek.
    + apply string2ll_iff in Ek as [-> Hv].
      rewrite (find_ok s l v Hl) by first [unfold INTSET_MAX; lia | by apply fits_ll]. rewrite bind_ok.
      exists (SetIntset s). split; [|cbn; eauto]. do 2 f_equal. apply bool_decide_ext. by rewrite (members_dec_iff s l v Hl Hv).
    + pose proof (members_not_int s l k Hl Ek) as Hn. rewrite (bool_decide_eq_false_2 _ Hn). exists (SetIntset s). cbn. eauto.
Qed.

End Members.
