(* ===== verification/Reply.v ===== *)
(** * The output buffers of a client ([src/networking.c], lines 143-623 and 920-1005, 1744-1846)

    The reply of a client is a static buffer and then a list of string objects.
    [outst] is the part of the client that the output functions use, with the
    two lists of the server that they change. The sizes that the allocator
    reports are variables. *)

From S2P Require Import Prelude CLib Util Sds Object.
Local Open Scope Z_scope.

(** ** State *)

(** Bit numbers of [c->flags]. *)
Definition CLIENT_SLAVE : Z := 0.
Definition CLIENT_MASTER : Z := 1.
Definition CLIENT_MONITOR : Z := 2.
Definition CLIENT_MULTI : Z := 3.
Definition CLIENT_BLOCKED : Z := 4.
Definition CLIENT_CLOSE_AFTER_REPLY : Z := 6.
Definition CLIENT_UNBLOCKED : Z := 7.
Definition CLIENT_LUA : Z := 8.
Definition CLIENT_ASKING : Z := 9.
Definition CLIENT_CLOSE_ASAP : Z := 10.
Definition CLIENT_MASTER_FORCE_REPLY : Z := 13.
Definition CLIENT_PUBSUB : Z := 18.
Definition CLIENT_PENDING_WRITE : Z := 21.
Definition CLIENT_REPLY_OFF : Z := 22.
Definition CLIENT_REPLY_SKIP_NEXT : Z := 23.
Definition CLIENT_REPLY_SKIP : Z := 24.

Definition REPL_STATE_NONE : Z := 0.
Definition SLAVE_STATE_ONLINE : Z := 9.
Definition PROTO_REPLY_CHUNK_BYTES : Z := 16 * 1024.
Definition NET_MAX_WRITES_PER_EVENT : Z := 1024 * 64.
Definition OBJ_SHARED_BULKHDR_LEN : Z := 32.

Record outst := mkOut {
  c_id : Z;
  c_fd : Z;
  c_flags : Z;
  c_replstate : Z;
  c_put_online_on_ack : bool;
  c_buf : bytes;
  c_bufpos : Z;
  c_reply : list robj;
  c_reply_bytes : Z;
  c_sentlen : Z;
  c_soft_limit_time : Z;
  clients_pending_write : list Z;
  clients_to_close : list Z
}.

Definition flag (c : outst) (b : Z) : bool := Z.testbit (c_flags c) b.

Definition with_flags (c : outst) (f : Z) : outst :=
  mkOut (c_id c) (c_fd c) f (c_replstate c) (c_put_online_on_ack c) (c_buf c) (c_bufpos c) (c_reply c)
        (c_reply_bytes c) (c_sentlen c) (c_soft_limit_time c) (clients_pending_write c) (clients_to_close c).
Definition with_buf (c : outst) (b : bytes) (pos : Z) : outst :=
  mkOut (c_id c) (c_fd c) (c_flags c) (c_replstate c) (c_put_online_on_ack c) b pos (c_reply c)
        (c_reply_bytes c) (c_sentlen c) (c_soft_limit_time c) (clients_pending_write c) (clients_to_close c).
Definition with_reply (c : outst) (r : list robj) (n : Z) : outst :=
  mkOut (c_id c) (c_fd c) (c_flags c) (c_replstate c) (c_put_online_on_ack c) (c_buf c) (c_bufpos c) r
        n (c_sentlen c) (c_soft_limit_time c) (clients_pending_write c) (clients_to_close c).
Definition with_sentlen (c : outst) (n : Z) : outst :=
  mkOut (c_id c) (c_fd c) (c_flags c) (c_replstate c) (c_put_online_on_ack c) (c_buf c) (c_bufpos c) (c_reply c)
        (c_reply_bytes c) n (c_soft_limit_time c) (clients_pending_write c) (clients_to_close c).
Definition with_soft (c : outst) (t : Z) : outst :=
  mkOut (c_id c) (c_fd c) (c_flags c) (c_replstate c) (c_put_online_on_ack c) (c_buf c) (c_bufpos c) (c_reply c)
        (c_reply_bytes c) (c_sentlen c) t (clients_pending_write c) (clients_to_close c).
Definition with_lists (c : outst) (pw tc : list Z) : outst :=
  mkOut (c_id c) (c_fd c) (c_flags c) (c_replstate c) (c_put_online_on_ack c) (c_buf c) (c_bufpos c) (c_reply c)
        (c_reply_bytes c) (c_sentlen c) (c_soft_limit_time c) pw tc.

(** [client_obuf_limits[class]]. *)
Record obuf_limits := mkLimits { hard_limit_bytes : Z; soft_limit_bytes : Z; soft_limit_seconds : Z }.

Inductive client_type := CLIENT_TYPE_NORMAL | CLIENT_TYPE_SLAVE | CLIENT_TYPE_PUBSUB | CLIENT_TYPE_MASTER.

Section Reply.
Variable junk : Z.
(** [sdsZmallocSize], and the memory of an embedded string object without the
    object itself. *)
Variable sdsZmallocSize : sds -> Z.
Variable embeddedSize : sds -> Z.
Variable client_obuf_limits : client_type -> obuf_limits.
Variable unixtime : Z.

(** ** Limits *)

Definition clientHasPendingReplies (c : outst) : bool :=
  negb (c_bufpos c =? 0) || negb (Z.of_nat (length (c_reply c)) =? 0).

Definition getStringObjectSdsUsedMemory (o : robj) : res Z :=
  if negb (bool_decide (o_type o = OBJ_STRING)) then Fault AssertFailed else
  match o_encoding o with
  | OBJ_ENCODING_RAW => s ← obj_sds o; Ok (sdsZmallocSize s)
  | OBJ_ENCODING_EMBSTR => s ← obj_sds o; Ok (embeddedSize s)
  | _ => Ok 0
  end.

(** [sizeof(listNode)+sizeof(robj)] is 24 + 16. *)
Definition getClientOutputBufferMemoryUsage (c : outst) : Z :=
  u64 (c_reply_bytes c + 40 * Z.of_nat (length (c_reply c))).

Definition getClientType (c : outst) : client_type :=
  if flag c CLIENT_MASTER then CLIENT_TYPE_MASTER else
  if flag c CLIENT_SLAVE && negb (flag c CLIENT_MONITOR) then CLIENT_TYPE_SLAVE else
  if flag c CLIENT_PUBSUB then CLIENT_TYPE_PUBSUB else CLIENT_TYPE_NORMAL.

Definition checkClientOutputBufferLimits (c : outst) : outst * bool :=
  let used_mem := getClientOutputBufferMemoryUsage c in
  let class := match getClientType c with CLIENT_TYPE_MASTER => CLIENT_TYPE_NORMAL | k => k end in
  let lim := client_obuf_limits class in
  let hard := negb (hard_limit_bytes lim =? 0) && (used_mem >=? hard_limit_bytes lim) in
  let soft := negb (soft_limit_bytes lim =? 0) && (used_mem >=? soft_limit_bytes lim) in
  if (soft : bool) then
    if c_soft_limit_time c =? 0 then (with_soft c unixtime, hard)
    else if unixtime - c_soft_limit_time c <=? soft_limit_seconds lim then (c, hard)
    else (c, true)
  else (with_soft c 0, hard).

Definition freeClientAsync (c : outst) : outst :=
  if flag c CLIENT_CLOSE_ASAP || flag c CLIENT_LUA then c else
  let c := with_flags c (Z.setbit (c_flags c) CLIENT_CLOSE_ASAP) in
  with_lists c (clients_pending_write c) (clients_to_close c ++ [c_id c]).

Definition asyncCloseClientOnOutputBufferLimitReached (c : outst) : res outst :=
  if negb (c_reply_bytes c <? ULLONG_MAX - 1024 * 64) then Fault AssertFailed else
  if (c_reply_bytes c =? 0) || flag c CLIENT_CLOSE_ASAP then Ok c else
  let '(c, over) := checkClientOutputBufferLimits c in
  Ok (if (over : bool) then freeClientAsync c else c).

(** ** Queueing *)

(** The flag is C_OK. *)
Definition prepareClientToWrite (c : outst) : outst * bool :=
  if flag c CLIENT_LUA then (c, true) else
  if flag c CLIENT_REPLY_OFF || flag c CLIENT_REPLY_SKIP then (c, false) else
  if flag c CLIENT_MASTER && negb (flag c CLIENT_MASTER_FORCE_REPLY) then (c, false) else
  if c_fd c <=? 0 then (c, false) else
  if negb (clientHasPendingReplies c) && negb (flag c CLIENT_PENDING_WRITE) &&
     ((c_replstate c =? REPL_STATE_NONE) ||
      ((c_replstate c =? SLAVE_STATE_ONLINE) && negb (c_put_online_on_ack c)))
  then
    let c := with_flags c (Z.setbit (c_flags c) CLIENT_PENDING_WRITE) in
    (with_lists c (c_id c :: clients_pending_write c) (clients_to_close c), true)
  else (c, true).

(** [sizeof(c->buf)-c->bufpos] is a [size_t]. *)
Definition addReplyToBuffer (c : outst) (s : bytes) : res (outst * bool) :=
  let available := u64 (PROTO_REPLY_CHUNK_BYTES - c_bufpos c) in
  if flag c CLIENT_CLOSE_AFTER_REPLY then Ok (c, true) else
  if Z.of_nat (length (c_reply c)) >? 0 then Ok (c, false) else
  if Z.of_nat (length s) >? available then Ok (c, false) else
  b ← mwrite (c_buf c) (Z.to_nat (c_bufpos c)) s;
  Ok (with_buf c b (c_bufpos c + Z.of_nat (length s)), true).

Definition dupStringObject (o : robj) : res robj :=
  if negb (bool_decide (o_type o = OBJ_STRING)) then Fault AssertFailed else
  match o_encoding o with
  | OBJ_ENCODING_RAW => s ← obj_sds o; createRawStringObject junk (sds_mem s) (sdslen s)
  | OBJ_ENCODING_EMBSTR => s ← obj_sds o; createEmbeddedStringObject junk (sds_mem s) (sdslen s)
  | OBJ_ENCODING_INT => Ok (mkObj OBJ_STRING OBJ_ENCODING_INT (o_ptr o) 1)
  | OBJ_ENCODING_OTHER => Fault AssertFailed
  end.

(** The last object, or a copy if it has other owners. *)
Definition dupLastObjectIfNeeded (reply : list robj) : res robj :=
  match last reply with
  | None => Fault AssertFailed
  | Some cur => if o_refcount cur >? 1 then dupStringObject cur else Ok cur
  end.

(** "Append to this object when possible": [s] to the last object. *)
Definition appendable (tail : robj) (len : Z) : bool :=
  match o_ptr tail with
  | PtrSds t => bool_decide (o_encoding tail = OBJ_ENCODING_RAW) && (sdslen t + len <=? PROTO_REPLY_CHUNK_BYTES)
  | _ => false
  end.

Definition append_to_tail (c : outst) (tail : robj) (s : bytes) : res outst :=
  t ← obj_sds tail;
  let n := u64 (c_reply_bytes c - sdsZmallocSize t) in
  tail ← dupLastObjectIfNeeded (c_reply c);
  t ← obj_sds tail;
  t ← sdscatlen junk t s (Z.of_nat (length s));
  let tail := mkObj (o_type tail) (o_encoding tail) (PtrSds t) (o_refcount tail) in
  Ok (with_reply c (removelast (c_reply c) ++ [tail]) (u64 (n + sdsZmallocSize t))).

(** [listAddNodeTail(c->reply, o)] and its accounting. *)
Definition add_reply_node (c : outst) (o : robj) : res outst :=
  m ← getStringObjectSdsUsedMemory o;
  Ok (with_reply c (c_reply c ++ [o]) (u64 (c_reply_bytes c + m))).

Definition addReplyObjectToList (c : outst) (o : robj) : res outst :=
  if flag c CLIENT_CLOSE_AFTER_REPLY then Ok c else
  s ← obj_sds o;
  c ← match last (c_reply c) with
      | None => add_reply_node c (incrRefCount o)
      | Some tail =>
          if appendable tail (sdslen s) then append_to_tail c tail (sdsval s)
          else add_reply_node c (incrRefCount o)
      end;
  asyncCloseClientOnOutputBufferLimitReached c.

Definition addReplySdsToList (c : outst) (s : sds) : res outst :=
  if flag c CLIENT_CLOSE_AFTER_REPLY then Ok c else
  c ← match last (c_reply c) with
      | None => add_reply_node c (createObject OBJ_STRING s)
      | Some tail =>
          if appendable tail (sdslen s) then append_to_tail c tail (sdsval s)
          else add_reply_node c (createObject OBJ_STRING s)
      end;
  asyncCloseClientOnOutputBufferLimitReached c.

Definition addReplyStringToList (c : outst) (s : bytes) : res outst :=
  if flag c CLIENT_CLOSE_AFTER_REPLY then Ok c else
  let len := Z.of_nat (length s) in
  c ← match last (c_reply c) with
      | None => o ← createStringObject junk s len; add_reply_node c o
      | Some tail =>
          if appendable tail len then append_to_tail c tail s
          else o ← createStringObject junk s len; add_reply_node c o
      end;
  asyncCloseClientOnOutputBufferLimitReached c.

(** ** What the commands call *)

Definition addReplyString (c : outst) (s : bytes) : res outst :=
  let '(c, ok) := prepareClientToWrite c in
  if negb ok then Ok c else
  '(c, ok) ← addReplyToBuffer c s;
  if (ok : bool) then Ok c else addReplyStringToList c s.

Definition addReply (c : outst) (obj : robj) : res outst :=
  let '(c, ok) := prepareClientToWrite c in
  if negb ok then Ok c else
  if sdsEncodedObject obj then
    s ← obj_sds obj;
    '(c, ok) ← addReplyToBuffer c (sdsval s);
    if (ok : bool) then Ok c else addReplyObjectToList c obj
  else match o_encoding obj, o_ptr obj with
  | OBJ_ENCODING_INT, PtrInt n =>
      '(c, done) ← (if (Z.of_nat (length (c_reply c)) =? 0) &&
                       (u64 (PROTO_REPLY_CHUNK_BYTES - c_bufpos c) >=? 32) then
                      '(len, buf) ← ll2string (replicate 32 junk) 32 n;
                      s ← mread buf 0 (Z.to_nat len);
                      addReplyToBuffer c s
                    else Ok (c, false));
      if (done : bool) then Ok c else
      obj ← getDecodedObject junk obj;
      s ← obj_sds obj;
      '(c, ok) ← addReplyToBuffer c (sdsval s);
      if (ok : bool) then Ok c else addReplyObjectToList c obj
  | _, _ => Fault AssertFailed
  end.

Definition addReplySds (c : outst) (s : sds) : res outst :=
  let '(c, ok) := prepareClientToWrite c in
  if negb ok then Ok c else
  '(c, ok) ← addReplyToBuffer c (sdsval s);
  if (ok : bool) then Ok c else addReplySdsToList c s.

Definition crlf : bytes := [13; 10].

Definition addReplyErrorLength (c : outst) (s : bytes) : res outst :=
  c ← addReplyString c (str "-ERR "); c ← addReplyString c s; addReplyString c crlf.

Definition addReplyError (c : outst) (err : bytes) : res outst := addReplyErrorLength c err.

Definition addReplyStatusLength (c : outst) (s : bytes) : res outst :=
  c ← addReplyString c (str "+"); c ← addReplyString c s; addReplyString c crlf.

Definition addReplyStatus (c : outst) (status : bytes) : res outst := addReplyStatusLength c status.

(** A shared object: one that has other owners. *)
Definition shared_obj (s : bytes) : res robj :=
  x ← sdsnew junk (Some s); Ok (incrRefCount (createObject OBJ_STRING x)).

Definition addReplyShared (c : outst) (s : bytes) : res outst := o ← shared_obj s; addReply c o.

(** [shared.mbulkhdr[ll]] and [shared.bulkhdr[ll]] are the prefix, the number
    and CRLF. *)
Definition addReplyLongLongWithPrefix (c : outst) (ll : Z) (prefix : Z) : res outst :=
  if ((prefix =? 42) || (prefix =? 36)) && (ll <? OBJ_SHARED_BULKHDR_LEN) && (ll >=? 0) then
    addReplyShared c ([prefix] ++ dec ll ++ crlf)
  else
    '(len, buf) ← ll2string (replicate 127 junk) 127 ll;
    buf ← wrZ (prefix :: buf) (len + 1) 13;
    buf ← wrZ buf (len + 2) 10;
    s ← mread buf 0 (Z.to_nat (len + 3));
    addReplyString c s.

Definition addReplyLongLong (c : outst) (ll : Z) : res outst :=
  if ll =? 0 then addReplyShared c (str ":0" ++ crlf) else
  if ll =? 1 then addReplyShared c (str ":1" ++ crlf) else
  addReplyLongLongWithPrefix c ll 58.

(** [while((n = n/10) != 0) len++]: 20 rounds are enough for 64 bits. *)
Fixpoint int_len_loop (fuel : nat) (n len : Z) : Z :=
  match fuel with
  | O => len
  | S f => let n := Z.quot n 10 in if n =? 0 then len else int_len_loop f n (len + 1)
  end.

Definition addReplyBulkLen (c : outst) (obj : robj) : res outst :=
  len ← (if sdsEncodedObject obj then s ← obj_sds obj; Ok (sdslen s)
         else match o_ptr obj with
              | PtrInt n => Ok (if n <? 0 then int_len_loop 20 (s64 (- n)) 2 else int_len_loop 20 n 1)
              | _ => Fault AssertFailed
              end);
  if len <? OBJ_SHARED_BULKHDR_LEN then addReplyShared c ([36] ++ dec len ++ crlf)
  else addReplyLongLongWithPrefix c len 36.

Definition addReplyBulk (c : outst) (obj : robj) : res outst :=
  c ← addReplyBulkLen c obj;
  c ← addReply c obj;
  addReplyShared c crlf.

Definition addReplyBulkCBuffer (c : outst) (p : bytes) : res outst :=
  c ← addReplyLongLongWithPrefix c (Z.of_nat (length p)) 36;
  c ← addReplyString c p;
  addReplyShared c crlf.

Definition addReplyBulkLongLong (c : outst) (ll : Z) : res outst :=
  '(len, buf) ← ll2string (replicate 64 junk) 64 ll;
  s ← mread buf 0 (Z.to_nat len);
  addReplyBulkCBuffer c s.

(** ** Writing to the socket *)

(** [oracle] is the results of the successive calls of [write]: at most the
    bytes asked for, 0 or less if nothing was written; when it is exhausted
    the result is -1. *)
Definition next_write (oracle : list Z) (len : Z) : Z * list Z :=
  match oracle with n :: o => (Z.min n len, o) | [] => (-1, []) end.

(** "Note that we avoid to send more than NET_MAX_WRITES_PER_EVENT bytes":
    [limited] is the test on [maxmemory]. *)
Definition write_enough (limited : bool) (totwritten : Z) : bool :=
  (totwritten >? NET_MAX_WRITES_PER_EVENT) && limited.

(** The result is the client, [nwritten], [totwritten] and the bytes sent. *)
Fixpoint write_loop (fuel : nat) (limited : bool) (oracle : list Z) (c : outst) (nwritten totwritten : Z)
    (sent : bytes) : res (outst * Z * Z * bytes) :=
  match fuel with
  | O => Fault OutOfFuel
  | S f =>
      if negb (clientHasPendingReplies c) then Ok (c, nwritten, totwritten, sent) else
      if c_bufpos c >? 0 then
        data ← mread (c_buf c) (Z.to_nat (c_sentlen c)) (Z.to_nat (c_bufpos c - c_sentlen c));
        let '(n, oracle) := next_write oracle (Z.of_nat (length data)) in
        if n <=? 0 then Ok (c, n, totwritten, sent) else
        let c := with_sentlen c (c_sentlen c + n) in
        let totwritten := totwritten + n in
        let sent := sent ++ take (Z.to_nat n) data in
        let c := if s32 (c_sentlen c) =? c_bufpos c then with_sentlen (with_buf c (c_buf c) 0) 0 else c in
        if write_enough limited totwritten then Ok (c, n, totwritten, sent)
        else write_loop f limited oracle c n totwritten sent
      else
        match c_reply c with
        | [] => Fault NullPointer
        | o :: rest =>
            s ← obj_sds o;
            let objlen := sdslen s in
            objmem ← getStringObjectSdsUsedMemory o;
            if objlen =? 0 then
              write_loop f limited oracle (with_reply c rest (u64 (c_reply_bytes c - objmem))) nwritten totwritten sent
            else
            data ← mread (sds_mem s) (Z.to_nat (c_sentlen c)) (Z.to_nat (objlen - c_sentlen c));
            let '(n, oracle) := next_write oracle (Z.of_nat (length data)) in
            if n <=? 0 then Ok (c, n, totwritten, sent) else
            let c := with_sentlen c (c_sentlen c + n) in
            let totwritten := totwritten + n in
            let sent := sent ++ take (Z.to_nat n) data in
            let c := if c_sentlen c =? objlen
                     then with_sentlen (with_reply c rest (u64 (c_reply_bytes c - objmem))) 0 else c in
            if write_enough limited totwritten then Ok (c, n, totwritten, sent)
            else write_loop f limited oracle c n totwritten sent
        end
  end.

(** The flag is C_OK; [false]: the client was freed. [eagain]: the [errno] of
    a failed write is EAGAIN. Every round uses a result of [write] or removes
    a node, which bounds the fuel. *)
Definition writeToClient (limited eagain : bool) (oracle : list Z) (c : outst) : res (outst * bytes * bool) :=
  '(c, nwritten, totwritten, sent) ←
    write_loop (S (S (length oracle + length (c_reply c)))) limited oracle c 0 0 [];
  if (nwritten =? -1) && negb eagain then Ok (c, sent, false) else
  if negb (clientHasPendingReplies c) then
    let c := with_sentlen c 0 in
    if flag c CLIENT_CLOSE_AFTER_REPLY then Ok (c, sent, false) else Ok (c, sent, true)
  else Ok (c, sent, true).
End Reply.

(** ** The output stream *)

(** What a node holds. *)
Definition nodeval (o : robj) : bytes := default [] (objval o).

(** The bytes that are still to be sent, in order. *)
Definition stream (c : outst) : bytes :=
  drop (Z.to_nat (c_sentlen c)) (take (Z.to_nat (c_bufpos c)) (c_buf c) ++ concat (nodeval <$> c_reply c)).

Definition sum_Z (l : list Z) : Z := foldr Z.add 0 l.

Definition node_ok (o : robj) : Prop := strobj_ok o /\ sdsEncodedObject o = true.

Lemma strobj_node o s : strobj_ok o -> o_ptr o = PtrSds s -> node_ok o.
Proof.
  intros Ho Hp. split; [done|]. destruct Ho as (_ & _ & He). unfold sdsEncodedObject.
  destruct (o_encoding o); try done. destruct He as (n & Hn & _). congruence.
Qed.

(** The first conditions of [prepareClientToWrite]: the client takes replies. *)
Definition takes_replies (c : outst) : bool :=
  flag c CLIENT_LUA ||
  (negb (flag c CLIENT_REPLY_OFF || flag c CLIENT_REPLY_SKIP) &&
   negb (flag c CLIENT_MASTER && negb (flag c CLIENT_MASTER_FORCE_REPLY)) && negb (c_fd c <=? 0)).

Section ReplySpec.
Variable junk : Z.
Variable sdsZmallocSize : sds -> Z.
Variable embeddedSize : sds -> Z.
Variable client_obuf_limits : client_type -> obuf_limits.
Variable unixtime : Z.
(** A block of memory is smaller than the address space. *)
Hypothesis zmalloc_size : forall s, 0 <= sdsZmallocSize s < 2 ^ 48.
Hypothesis embedded_size : forall s, 0 <= embeddedSize s < 2 ^ 48.

Definition objmem (o : robj) : Z :=
  match o_ptr o with
  | PtrSds s => if bool_decide (o_encoding o = OBJ_ENCODING_RAW) then sdsZmallocSize s else embeddedSize s
  | _ => 0
  end.

(** The static buffer is used first, and [sentlen] counts the bytes sent of
    the buffer, or of the first node. [reply_bytes] is the memory of the
    nodes. *)
Record out_ok (c : outst) : Prop := {
  oo_buf : length (c_buf c) = Z.to_nat PROTO_REPLY_CHUNK_BYTES;
  oo_pos : 0 <= c_bufpos c <= PROTO_REPLY_CHUNK_BYTES;
  oo_nodes : Forall node_ok (c_reply c);
  oo_bytes : c_reply_bytes c = sum_Z (objmem <$> c_reply c);
  oo_small : c_reply_bytes c < 2 ^ 63;
  oo_sent : 0 <= c_sentlen c /\
    if c_bufpos c =? 0 then
      match c_reply c with
      | [] => c_sentlen c = 0
      | o :: _ => c_sentlen c = 0 \/ c_sentlen c < Z.of_nat (length (nodeval o))
      end
    else c_sentlen c < c_bufpos c
}.

Lemma objmem_range o : 0 <= objmem o < 2 ^ 48.
Proof. unfold objmem. destruct (o_ptr o); [case_bool_decide; auto|lia..]. Qed.

Lemma sum_Z_app a b : sum_Z (a ++ b) = sum_Z a + sum_Z b.
Proof. induction a as [|x a IH]; cbn; [done|]. unfold sum_Z in *. cbn. rewrite IH. lia. Qed.

Lemma objmem_sum_nonneg l : 0 <= sum_Z (objmem <$> l).
Proof. induction l as [|o l IH]; cbn; [lia|]. pose proof (objmem_range o). unfold sum_Z in IH. lia. Qed.

Lemma node_ok_sds o : node_ok o ->
  exists s, o_ptr o = PtrSds s /\ sds_ok s /\ nodeval o = sdsval s /\
    (o_encoding o = OBJ_ENCODING_RAW \/ o_encoding o = OBJ_ENCODING_EMBSTR) /\ o_type o = OBJ_STRING.
Proof.
  intros [(Ht & Hr & He) Hs]. unfold sdsEncodedObject in Hs. unfold nodeval, objval.
  destruct (o_encoding o); try done.
  - destruct He as (s & -> & Hs'). exists s. split_and!; auto.
  - destruct He as (s & -> & Hs' & _). exists s. split_and!; auto.
Qed.

Lemma used_memory_ok o : node_ok o ->
  getStringObjectSdsUsedMemory sdsZmallocSize embeddedSize o = Ok (objmem o).
Proof.
  intros Ho. destruct (node_ok_sds o Ho) as (s & Hp & _ & _ & He & Ht).
  unfold getStringObjectSdsUsedMemory, objmem, obj_sds. rewrite Ht, Hp.
  by destruct He as [-> | ->].
Qed.

(** Two states with the same buffers. *)
Definition same_out (c c' : outst) : Prop :=
  c_buf c' = c_buf c /\ c_bufpos c' = c_bufpos c /\ c_reply c' = c_reply c /\
  c_reply_bytes c' = c_reply_bytes c /\ c_sentlen c' = c_sentlen c.

Lemma same_out_ok c c' : same_out c c' -> out_ok c -> out_ok c' /\ stream c' = stream c.
Proof.
  intros (E1 & E2 & E3 & E4 & E5) [H1 H2 H3 H4 H5 H6]. split.
  - split; rewrite ?E1, ?E2, ?E3, ?E4, ?E5; done.
  - unfold stream. by rewrite E1, E2, E3, E5.
Qed.

(** The flags of a client say if it is in the list of pending writes, and in the
    list of clients to close. *)
Definition pending_ok (c : outst) : Prop :=
  flag c CLIENT_PENDING_WRITE = bool_decide (c_id c ∈ clients_pending_write c) /\
  flag c CLIENT_CLOSE_ASAP = bool_decide (c_id c ∈ clients_to_close c).

(** Replying sets two flags only. *)
Definition kept (c c' : outst) : Prop :=
  ((c_id c', c_fd c') = (c_id c, c_fd c) /\ c_replstate c' = c_replstate c /\ (pending_ok c -> pending_ok c') /\
   (forall b, flag c b = true -> flag c' b = true)) /\
  forall b, b <> CLIENT_PENDING_WRITE -> b <> CLIENT_CLOSE_ASAP -> flag c' b = flag c b.

#[local] Instance kept_preorder : PreOrder kept.
Proof.
  split; [by split|]. intros a b c [(E1 & R1 & Q1 & P1) H1] [(E2 & R2 & Q2 & P2) H2]. split; [split_and!; [congruence|congruence|auto|auto]|].
  intros n ? ?. by rewrite H2, H1.
Qed.

Lemma kept_takes c c' : kept c c' -> takes_replies c' = takes_replies c.
Proof. intros [[Ei _] H]. injection Ei as _ E. unfold takes_replies. by rewrite E, !H. Qed.

(** A client with something to send is put in the list of pending writes, unless
    it had something to send before. *)
Definition scheduled (c c' : outst) : Prop :=
  takes_replies c = true -> flag c CLIENT_LUA = false -> c_replstate c = REPL_STATE_NONE ->
  clientHasPendingReplies c' = true -> flag c' CLIENT_PENDING_WRITE = true \/ clientHasPendingReplies c = true.

Lemma scheduled_trans a b c : kept a b -> kept b c -> scheduled a b -> scheduled b c -> scheduled a c.
Proof.
  intros Hab [(_ & _ & _ & Hp) _] H1 H2 Ht Hl Hr Hc. pose proof (kept_takes a b Hab) as Hta. destruct Hab as [(_ & Hra & _) Hf].
  destruct H2 as [|Hb]; [congruence|by rewrite Hf|congruence|done|by left|]. destruct (H1 Ht Hl Hr Hb); auto.
Qed.

Lemma async_close_ok c :
  out_ok c -> exists c', asyncCloseClientOnOutputBufferLimitReached client_obuf_limits unixtime c = Ok c' /\
    same_out c c' /\ kept c c'.
Proof.
  intros Hc. unfold asyncCloseClientOnOutputBufferLimitReached.
  assert ((c_reply_bytes c <? ULLONG_MAX - 1024 * 64) = true) as ->.
  { apply Z.ltb_lt. pose proof (oo_small c Hc). unfold ULLONG_MAX. lia. }
  cbn [negb]. destruct ((c_reply_bytes c =? 0) || flag c CLIENT_CLOSE_ASAP); [by exists c|].
  unfold checkClientOutputBufferLimits.
  assert (forall d, same_out c d -> kept c d ->
    forall b : bool, exists c', Ok (if b then freeClientAsync d else d) = Ok c' /\ same_out c c' /\ kept c c') as Hd.
  { intros d Hs Hf b. destruct b; [|by exists d]. unfold freeClientAsync.
    destruct (_ || _); [by exists d|]. eexists. split; [done|]. split; [done|].
    destruct Hf as [(Hfd & Hrs & Hq & Hp) Hf]. split.
    { split_and!; try done.
      { intros H. specialize (Hq H). unfold pending_ok, flag, with_lists, with_flags in *. cbn [c_flags c_id clients_pending_write clients_to_close].
        rewrite Z.setbit_neq, Z.setbit_eq by done. split; [apply Hq|]. symmetry. apply bool_decide_eq_true_2. set_solver. }
      intros b H. unfold flag, with_lists, with_flags. cbn [c_flags]. rewrite Z.setbit_iff by done. right. by apply Hp. }
    intros n ? ?. rewrite <- Hf by done.
    unfold flag, with_lists, with_flags. cbn [c_flags]. by rewrite Z.setbit_neq by done. }
  set (lim := client_obuf_limits _). destruct (negb _ && _).
  - destruct (c_soft_limit_time c =? 0); [by apply Hd|].
    destruct (_ <=? _); [by apply Hd|by apply (Hd c ltac:(done) ltac:(done) true)].
  - by apply Hd.
Qed.

Lemma prepare_ok c :
  exists c', prepareClientToWrite c = (c', takes_replies c) /\ same_out c c' /\ kept c c' /\
    (takes_replies c = true -> flag c CLIENT_LUA = false -> c_replstate c = REPL_STATE_NONE ->
     clientHasPendingReplies c = false -> flag c' CLIENT_PENDING_WRITE = true).
Proof.
  unfold prepareClientToWrite, takes_replies.
  destruct (flag c CLIENT_LUA) eqn:E1; [by exists c|].
  destruct (flag c CLIENT_REPLY_OFF || flag c CLIENT_REPLY_SKIP) eqn:E2; [by exists c|].
  destruct (flag c CLIENT_MASTER && negb (flag c CLIENT_MASTER_FORCE_REPLY)) eqn:E3; [by exists c|].
  destruct (c_fd c <=? 0) eqn:E4; [by exists c|]. cbn [orb andb negb].
  destruct (negb (clientHasPendingReplies c) && negb (flag c CLIENT_PENDING_WRITE) && _) eqn:E5.
  - eexists. split; [reflexivity|]. split; [done|].
    split.
    + split; [|intros n ? ?; unfold flag, with_lists, with_flags; cbn [c_flags]; by rewrite Z.setbit_neq by done].
      assert (forall o l m, flag (with_lists (with_flags o (Z.setbit (c_flags o) CLIENT_PENDING_WRITE)) l m) CLIENT_PENDING_WRITE = true) as Hset
        by (intros; unfold flag, with_lists, with_flags; cbn [c_flags]; by apply Z.setbit_eq).
      split_and!; try done.
      2:{ intros b H. unfold flag, with_lists, with_flags. cbn [c_flags]. rewrite Z.setbit_iff by done. by right. }
      intros [_ Hcl]. unfold pending_ok. rewrite Hset. split; [symmetry; apply bool_decide_eq_true_2; cbn; set_solver|].
      etrans; [|exact Hcl]. unfold flag, with_lists, with_flags. cbn [c_flags]. by rewrite Z.setbit_neq by done.
    + intros _ _ _ _. unfold flag, with_lists, with_flags. cbn [c_flags]. by apply Z.setbit_eq.
  - exists c. split; [done|]. split; [done|]. split; [done|]. intros _ _ Hr Hp.
    rewrite Hp, Hr, Z.eqb_refl in E5. cbn [negb andb orb] in E5. rewrite andb_true_r in E5.
    by destruct (flag c CLIENT_PENDING_WRITE).
Qed.

Lemma prepare_scheduled c c1 c2 :
  (takes_replies c = true -> flag c CLIENT_LUA = false -> c_replstate c = REPL_STATE_NONE ->
   clientHasPendingReplies c = false -> flag c1 CLIENT_PENDING_WRITE = true) -> kept c1 c2 -> scheduled c c2.
Proof.
  intros H [(_ & _ & _ & Hp) _] Ht Hl Hr _. destruct (clientHasPendingReplies c) eqn:E; [by right|]. left. auto.
Qed.

Lemma sent_le c : out_ok c ->
  (Z.to_nat (c_sentlen c) <= length (take (Z.to_nat (c_bufpos c)) (c_buf c) ++ concat (nodeval <$> c_reply c)))%nat.
Proof.
  intros [H1 H2 H3 H4 H5 [H6 H7]]. rewrite length_app, length_take, H1.
  destruct (Z.eqb_spec (c_bufpos c) 0) as [E|E]; [|lia].
  destruct (c_reply c) as [|o l]; [lia|]. cbn. rewrite length_app. lia.
Qed.

(** Appending to the list of nodes. *)
Lemma extend_reply c r s :
  out_ok c -> c_reply_bytes c < 2 ^ 62 -> Forall node_ok r ->
  concat (nodeval <$> r) = concat (nodeval <$> c_reply c) ++ s ->
  sum_Z (objmem <$> r) <= c_reply_bytes c + 2 ^ 48 ->
  match r, c_reply c with
  | o' :: _, o :: _ => (length (nodeval o) <= length (nodeval o'))%nat
  | [], _ :: _ => False
  | _, [] => True
  end ->
  let c' := with_reply c r (sum_Z (objmem <$> r)) in out_ok c' /\ stream c' = stream c ++ s.
Proof.
  intros Hc Hb Hr Hv Hs Hh c'. pose proof (sent_le c Hc) as Hsent. destruct Hc as [H1 H2 H3 H4 H5 [H6 H7]]. split.
  - split; cbn; try done; [lia|]. split; [done|].
    destruct (Z.eqb_spec (c_bufpos c) 0) as [E|E]; [|done].
    destruct r as [|o' r], (c_reply c) as [|o l]; try done; [by left|]. lia.
  - unfold stream. cbn. rewrite Hv, app_assoc. by rewrite drop_app_le.
Qed.

Lemma add_node_ok c o s :
  out_ok c -> c_reply_bytes c < 2 ^ 62 -> node_ok o -> nodeval o = s ->
  exists c', add_reply_node sdsZmallocSize embeddedSize c o = Ok c' /\ out_ok c' /\ stream c' = stream c ++ s /\
    kept c c' /\ c_reply_bytes c' <= c_reply_bytes c + 2 ^ 48.
Proof.
  intros Hc Hb Ho Hs. unfold add_reply_node. rewrite used_memory_ok by done. rewrite bind_ok.
  pose proof (objmem_range o) as Hm. pose proof (objmem_sum_nonneg (c_reply c)) as Hn.
  pose proof (oo_bytes c Hc) as Hby.
  assert (sum_Z (objmem <$> c_reply c ++ [o]) = c_reply_bytes c + objmem o) as Hsum.
  { rewrite fmap_app, sum_Z_app, <- Hby. cbn. lia. }
  rewrite u64_small by lia. rewrite <- Hsum.
  eexists. split; [reflexivity|].
  destruct (extend_reply c (c_reply c ++ [o]) s) as [H1 H2]; [done|done| | |lia| |].
  - apply Forall_app. split; [apply Hc|by constructor].
  - rewrite fmap_app, concat_app. cbn. by rewrite app_nil_r, Hs.
  - destruct (c_reply c); cbn; done.
  - rewrite H2. split_and!; try done. cbn. lia.
Qed.

Lemma last_split (l : list robj) o : last l = Some o -> l = removelast l ++ [o].
Proof.
  intros H. destruct (decide (l = [])) as [->|Hn]; [done|].
  destruct (exists_last Hn) as (l' & x & ->). rewrite last_snoc in H. injection H as ->.
  by rewrite removelast_last.
Qed.

Lemma dup_ok o : node_ok o -> o_encoding o = OBJ_ENCODING_RAW ->
  exists o' s, dupStringObject junk o = Ok o' /\ o_ptr o' = PtrSds s /\ sds_ok s /\ sdsval s = nodeval o /\
    o_type o' = OBJ_STRING /\ o_encoding o' = OBJ_ENCODING_RAW /\ 1 <= o_refcount o'.
Proof.
  intros Ho He. destruct (node_ok_sds o Ho) as (s & Hp & Hs & Hv & _ & Ht).
  unfold dupStringObject, obj_sds, createRawStringObject. rewrite Ht, He, Hp. cbn [bool_decide negb].
  rewrite bool_decide_eq_true_2 by done. cbn [negb]. rewrite bind_ok.
  pose proof (sds_ok_len s Hs). pose proof (sds_ok_limit s Hs). pose proof (sdsTypeLimit_bound (sds_type s)).
  pose proof (sds_ok_mem s Hs).
  destruct (sdsnewlen_ok junk (sds_mem s) (sdslen s)) as (s' & -> & Hs' & Hv' & _); [unfold sdslen; lia..|].
  rewrite bind_ok. eexists _, s'. split; [reflexivity|]. cbn. split_and!; try done. by rewrite Hv, Hv'.
Qed.

Lemma append_ok c tail s :
  out_ok c -> c_reply_bytes c < 2 ^ 62 -> last (c_reply c) = Some tail ->
  appendable tail (Z.of_nat (length s)) = true ->
  exists c', append_to_tail junk sdsZmallocSize c tail s = Ok c' /\ out_ok c' /\ stream c' = stream c ++ s /\
    kept c c' /\ c_reply_bytes c' <= c_reply_bytes c + 2 ^ 48.
Proof.
  intros Hc Hb Hlast Ha. pose proof (last_split _ _ Hlast) as Hsplit.
  assert (node_ok tail) as Htail.
  { pose proof (oo_nodes c Hc) as Hn. rewrite Hsplit in Hn. apply Forall_app in Hn as [_ Hn]. by inversion Hn. }
  destruct (node_ok_sds tail Htail) as (t & Hp & Ht & Hv & _ & _).
  unfold appendable in Ha. rewrite Hp in Ha. apply andb_true_iff in Ha as [Henc%bool_decide_eq_true Hlen%Z.leb_le].
  unfold PROTO_REPLY_CHUNK_BYTES, sdslen in Hlen. pose proof (sds_ok_len t Ht) as [Hl0 _].
  unfold append_to_tail, obj_sds. rewrite Hp, bind_ok. unfold dupLastObjectIfNeeded. rewrite Hlast.
  assert (exists o' t', (if o_refcount tail >? 1 then dupStringObject junk tail else Ok tail) = Ok o' /\
    o_ptr o' = PtrSds t' /\ sds_ok t' /\ sdsval t' = nodeval tail /\ o_type o' = OBJ_STRING /\
    o_encoding o' = OBJ_ENCODING_RAW /\ 1 <= o_refcount o') as (o' & t' & -> & Hp' & Ht' & Hv' & Hty & Hen & Hrf).
  { destruct (Z.gtb_spec (o_refcount tail) 1); [by apply dup_ok|].
    exists tail, t. destruct Htail as [(? & ? & _) _]. by split_and!. }
  rewrite bind_ok, Hp', bind_ok.
  assert (sds_len t' = sds_len t) as Hlt.
  { rewrite <- (sdsval_length t' Ht'), <- (sdsval_length t Ht). by rewrite Hv', Hv. }
  destruct (sdscatlen_ok junk t' s (Z.of_nat (length s)) Ht') as (t2 & -> & Ht2 & Hv2); [lia..|].
  rewrite bind_ok, Hty, Hen. rewrite Nat2Z.id, firstn_all, Hv' in Hv2.
  set (o2 := mkObj _ _ _ _).
  assert (node_ok o2) as Ho2 by (split; [split; [done|]; split; [done|]; cbn; eauto|done]).
  assert (objmem tail = sdsZmallocSize t) as Hmt by (unfold objmem; by rewrite Hp, Henc).
  assert (objmem o2 = sdsZmallocSize t2) as Hm2 by done.
  pose proof (zmalloc_size t). pose proof (zmalloc_size t2).
  pose proof (objmem_sum_nonneg (removelast (c_reply c))) as Hrn.
  pose proof (oo_bytes c Hc) as Hby. rewrite Hsplit, fmap_app, sum_Z_app in Hby. cbn in Hby. rewrite Hmt in Hby.
  rewrite (u64_small (c_reply_bytes c - _)) by lia. rewrite u64_small by lia.
  assert (sum_Z (objmem <$> removelast (c_reply c) ++ [o2]) = c_reply_bytes c - sdsZmallocSize t + sdsZmallocSize t2) as Hsum.
  { rewrite fmap_app, sum_Z_app. change (sum_Z (objmem <$> [o2])) with (objmem o2 + 0). unfold sum_Z in *. lia. }
  rewrite <- Hsum. eexists. split; [reflexivity|].
  destruct (extend_reply c (removelast (c_reply c) ++ [o2]) s) as [H1 H2]; [done|done| | |lia| |].
  - apply Forall_app. split; [|by constructor]. pose proof (oo_nodes c Hc) as Hn. rewrite Hsplit in Hn.
    by apply Forall_app in Hn as [? _].
  - replace (concat (nodeval <$> c_reply c)) with (concat (nodeval <$> removelast (c_reply c) ++ [tail])) by (by rewrite <- Hsplit).
    rewrite !fmap_app, !concat_app. cbn. rewrite !app_nil_r, <- app_assoc. do 2 f_equal.
    done.
  - destruct (removelast (c_reply c)) as [|x l] eqn:Er; rewrite Hsplit; cbn; [|lia].
    change (nodeval o2) with (sdsval t2). rewrite Hv2, length_app. lia.
  - rewrite H2. split_and!; try done. cbn. lia.
Qed.

Lemma list_add_ok c (s : bytes) (mk : res robj) :
  out_ok c -> c_reply_bytes c < 2 ^ 62 ->
  (exists o, mk = Ok o /\ node_ok o /\ nodeval o = s) ->
  exists c', (c ← match last (c_reply c) with
                  | None => o ← mk; add_reply_node sdsZmallocSize embeddedSize c o
                  | Some tail =>
                      if appendable tail (Z.of_nat (length s)) then append_to_tail junk sdsZmallocSize c tail s
                      else o ← mk; add_reply_node sdsZmallocSize embeddedSize c o
                  end;
              asyncCloseClientOnOutputBufferLimitReached client_obuf_limits unixtime c) = Ok c' /\
    out_ok c' /\ stream c' = stream c ++ s /\ kept c c' /\ c_reply_bytes c' <= c_reply_bytes c + 2 ^ 48.
Proof.
  intros Hc Hb (o & -> & Ho & Hs).
  assert (exists c1, match last (c_reply c) with
                  | None => o ← Ok o; add_reply_node sdsZmallocSize embeddedSize c o
                  | Some tail =>
                      if appendable tail (Z.of_nat (length s)) then append_to_tail junk sdsZmallocSize c tail s
                      else o ← Ok o; add_reply_node sdsZmallocSize embeddedSize c o
                  end = Ok c1 /\ out_ok c1 /\ stream c1 = stream c ++ s /\ kept c c1 /\ c_reply_bytes c1 <= c_reply_bytes c + 2 ^ 48)
    as (c1 & -> & Hc1 & Hs1 & Hf1 & Hb1).
  { destruct (last (c_reply c)) as [tail|] eqn:El; [|by apply add_node_ok].
    destruct (appendable tail (Z.of_nat (length s))) eqn:Ea; [by apply append_ok|by apply add_node_ok]. }
  rewrite bind_ok. destruct (async_close_ok c1 Hc1) as (c2 & -> & Hso & Hf2).
  destruct (same_out_ok c1 c2 Hso Hc1) as [Hc2 Hs2].
  exists c2. split_and!; [done|done|by rewrite Hs2|by etrans|]. by destruct Hso as (_ & _ & _ & -> & _).
Qed.

(** The static buffer takes the bytes, or refuses and changes nothing. *)
Lemma to_buffer_ok c s :
  out_ok c -> flag c CLIENT_CLOSE_AFTER_REPLY = false ->
  exists c' ok, addReplyToBuffer c s = Ok (c', ok) /\
    if (ok : bool) then out_ok c' /\ stream c' = stream c ++ s /\ kept c c' /\ c_reply_bytes c' = c_reply_bytes c
    else c' = c.
Proof.
  intros Hc Hf. unfold addReplyToBuffer. rewrite Hf.
  destruct (Z.gtb_spec (Z.of_nat (length (c_reply c))) 0) as [|Hr]; [by exists c, false|].
  pose proof (sent_le c Hc) as Hsent. destruct Hc as [H1 H2 H3 H4 H5 [H6 H7]].
  unfold PROTO_REPLY_CHUNK_BYTES in *. rewrite u64_small by lia.
  destruct (Z.gtb_spec (Z.of_nat (length s)) (16 * 1024 - c_bufpos c)) as [|Hl]; [by exists c, false|].
  rewrite mwrite_ok by lia. rewrite bind_ok. eexists _, true. split; [reflexivity|].
  assert (c_reply c = []) as Er by (destruct (c_reply c); [done|cbn in Hr; lia]).
  rewrite Er in *. set (b := take _ _ ++ _).
  assert (take (Z.to_nat (c_bufpos c + Z.of_nat (length s))) b = take (Z.to_nat (c_bufpos c)) (c_buf c) ++ s) as Hb.
  { unfold b. rewrite app_assoc, take_app_length'; [done|]. len_lia. }
  split_and!; try done.
  - split; cbn; unfold PROTO_REPLY_CHUNK_BYTES; rewrite ?Er; try done; [unfold b; len_lia|lia|].
    split; [done|]. destruct (Z.eqb_spec (c_bufpos c) 0), (Z.eqb_spec (c_bufpos c + Z.of_nat (length s)) 0); try lia.
  - unfold stream. cbn [with_buf c_sentlen c_bufpos c_buf c_reply]. rewrite Hb, Er. cbn [fmap list_fmap concat].
    rewrite !app_nil_r. cbn [fmap list_fmap concat] in Hsent. rewrite app_nil_r in Hsent. by rewrite drop_app_le.
Qed.

(** Queueing bytes, generically in how the list takes them. *)
Lemma queue_ok c s (to_list : outst -> res outst) :
  out_ok c -> c_reply_bytes c < 2 ^ 62 -> flag c CLIENT_CLOSE_AFTER_REPLY = false ->
  (forall c, out_ok c -> c_reply_bytes c < 2 ^ 62 -> flag c CLIENT_CLOSE_AFTER_REPLY = false ->
    exists c', to_list c = Ok c' /\ out_ok c' /\ stream c' = stream c ++ s /\ kept c c' /\
      c_reply_bytes c' <= c_reply_bytes c + 2 ^ 48) ->
  exists c', ('(c, ok) ← addReplyToBuffer c s; if (ok : bool) then Ok c else to_list c) = Ok c' /\
    out_ok c' /\ stream c' = stream c ++ s /\ kept c c' /\ c_reply_bytes c' <= c_reply_bytes c + 2 ^ 48.
Proof.
  intros Hc Hb Hf Hlist. destruct (to_buffer_ok c s Hc Hf) as (c1 & ok & -> & H1). rewrite bind_ok.
  destruct ok.
  - destruct H1 as (? & ? & Hfl & ?). exists c1. split_and!; try done. lia.
  - subst c1. by apply Hlist.
Qed.

Lemma string_to_list_ok c s :
  out_ok c -> c_reply_bytes c < 2 ^ 62 -> flag c CLIENT_CLOSE_AFTER_REPLY = false -> Z.of_nat (length s) < 2 ^ 63 ->
  exists c', addReplyStringToList junk sdsZmallocSize embeddedSize client_obuf_limits unixtime c s = Ok c' /\
    out_ok c' /\ stream c' = stream c ++ s /\ kept c c' /\ c_reply_bytes c' <= c_reply_bytes c + 2 ^ 48.
Proof.
  intros Hc Hb Hf Hl. unfold addReplyStringToList. rewrite Hf.
  destruct (list_add_ok c s (createStringObject junk s (Z.of_nat (length s))) Hc Hb) as (c' & H1 & H2 & H3 & H4 & H5).
  { destruct (createStringObject_ok junk s (Z.of_nat (length s))) as (o & Ho & Hok & Hv & x & Hx & Hxs); [lia|lia|].
    exists o. split; [done|]. rewrite Nat2Z.id, firstn_all in Hv. split; [|unfold nodeval; by rewrite Hv].
    by apply (strobj_node o x). }
  exists c'. by split_and!.
Qed.

(** A reply is appended to the stream of a client that takes replies, and
    ignored by one that does not. *)
Lemma addReplyString_ok c s :
  out_ok c -> c_reply_bytes c < 2 ^ 62 -> flag c CLIENT_CLOSE_AFTER_REPLY = false -> Z.of_nat (length s) < 2 ^ 63 ->
  exists c', addReplyString junk sdsZmallocSize embeddedSize client_obuf_limits unixtime c s = Ok c' /\
    out_ok c' /\ stream c' = (if takes_replies c then stream c ++ s else stream c) /\
    kept c c' /\ c_reply_bytes c' <= c_reply_bytes c + 2 ^ 48 /\ scheduled c c'.
Proof.
  intros Hc Hb Hf Hl. unfold addReplyString.
  destruct (prepare_ok c) as (c1 & -> & Hso & Hk1 & Hsch). destruct (same_out_ok c c1 Hso Hc) as [Hc1 Hs1].
  destruct Hso as (_ & _ & _ & Hb1 & _). pose proof (prepare_scheduled c c1) as Hs'.
  destruct (takes_replies c) eqn:Et; cbn [negb].
  - rewrite <- Hs1, <- Hb1.
    destruct (queue_ok c1 s (fun c => addReplyStringToList junk sdsZmallocSize embeddedSize client_obuf_limits unixtime c s))
      as (c2 & H2 & Hc2 & Hs2 & Hk2 & Hb2); [done|lia|by destruct Hk1 as [_ ->]| |].
    + intros c2 ? ? ?. by apply string_to_list_ok.
    + exists c2. split_and!; [done..|by etrans|done|by apply Hs'].
  - exists c1. split_and!; [done..|lia|]. by apply Hs'.
Qed.

(** *** Replies of objects *)

(** What [n] replies that send [s] do. *)
Definition replied (n : Z) (c : outst) (s : bytes) (c' : outst) : Prop :=
  out_ok c' /\ stream c' = (if takes_replies c then stream c ++ s else stream c) /\
  kept c c' /\ c_reply_bytes c' <= c_reply_bytes c + n * 2 ^ 48 /\ scheduled c c'.

(** The client can take [n] more replies. *)
Definition ready (n : Z) (c : outst) : Prop :=
  out_ok c /\ flag c CLIENT_CLOSE_AFTER_REPLY = false /\ c_reply_bytes c + n * 2 ^ 48 <= 2 ^ 62.

Lemma ready_le n m c : m <= n -> ready n c -> ready m c.
Proof. intros ? (? & ? & ?). split_and!; try done. lia. Qed.

Lemma replied_le n m c s c' : replied n c s c' -> n <= m -> replied m c s c'.
Proof. intros (? & ? & ? & ? & ?) ?. split_and!; try done. lia. Qed.

Lemma replied_ready n m k c s c' : ready n c -> replied m c s c' -> m + k <= n -> ready k c'.
Proof. intros (? & Hf & ?) (? & _ & [_ Hk] & ? & _) ?. split_and!; [done|by rewrite Hk|lia]. Qed.

Lemma replied_app n m k c s c1 t c2 : replied n c s c1 -> replied m c1 t c2 -> k = n + m -> replied k c (s ++ t) c2.
Proof.
  intros (? & Hs & Hk & Hb & Hsc) (? & Hs2 & Hk2 & Hb2 & Hsc2) ->.
  split; [done|]. split; [|split; [by etrans|split; [lia|by apply (scheduled_trans c c1)]]].
  rewrite Hs2, (kept_takes c c1 Hk), Hs. destruct (takes_replies c); [|done]. by rewrite app_assoc.
Qed.

Lemma addReplyString_replied c s : ready 1 c -> Z.of_nat (length s) < 2 ^ 63 ->
  exists c', addReplyString junk sdsZmallocSize embeddedSize client_obuf_limits unixtime c s = Ok c' /\ replied 1 c s c'.
Proof. intros (Hc & Hf & Hb) Hl. apply addReplyString_ok; (done || lia). Qed.

(** A line in three parts. *)
Lemma addReplyString3_ok c a b d : ready 3 c -> Z.of_nat (length a) < 2 ^ 63 -> Z.of_nat (length b) < 2 ^ 63 -> Z.of_nat (length d) < 2 ^ 63 ->
  exists c', (c ← addReplyString junk sdsZmallocSize embeddedSize client_obuf_limits unixtime c a;
    c ← addReplyString junk sdsZmallocSize embeddedSize client_obuf_limits unixtime c b;
    addReplyString junk sdsZmallocSize embeddedSize client_obuf_limits unixtime c d) = Ok c' /\ replied 3 c (a ++ b ++ d) c'.
Proof.
  intros Hc Ha Hb Hd. destruct (addReplyString_replied c a) as (c1 & -> & H1); [by apply (ready_le 3)|done|]. rewrite bind_ok.
  pose proof (replied_ready 3 1 2 _ _ _ Hc H1 ltac:(lia)) as Hc1.
  destruct (addReplyString_replied c1 b) as (c2 & -> & H2); [by apply (ready_le 2)|done|]. rewrite bind_ok.
  pose proof (replied_ready 2 1 1 _ _ _ Hc1 H2 ltac:(lia)) as Hc2.
  destruct (addReplyString_replied c2 d Hc2 Hd) as (c3 & -> & H3). exists c3. split; [done|].
  eapply (replied_app 1 2); [done| |done]. by eapply (replied_app 1 1).
Qed.

Lemma object_to_list_ok c o :
  out_ok c -> c_reply_bytes c < 2 ^ 62 -> flag c CLIENT_CLOSE_AFTER_REPLY = false -> node_ok o ->
  exists c', addReplyObjectToList junk sdsZmallocSize embeddedSize client_obuf_limits unixtime c o = Ok c' /\
    out_ok c' /\ stream c' = stream c ++ nodeval o /\ kept c c' /\ c_reply_bytes c' <= c_reply_bytes c + 2 ^ 48.
Proof.
  intros Hc Hb Hf Ho. unfold addReplyObjectToList. rewrite Hf.
  destruct (node_ok_sds o Ho) as (s & Hp & Hs & Hv & He & Ht). unfold obj_sds. rewrite Hp, bind_ok.
  destruct (list_add_ok c (sdsval s) (Ok (incrRefCount o)) Hc Hb) as (c' & H1 & H2 & H3 & H4 & H5).
  - exists (incrRefCount o). destruct Ho as [(? & ? & ?) ?]. split; [done|]. split; [|done].
    split; [split; [done|split; [cbn; lia|done]]|done].
  - exists c'. rewrite Hv. unfold sdslen. rewrite <- (sdsval_length s Hs). by split_and!.
Qed.

(** An object is sent as the string it stands for. *)
Lemma addReply_ok c o v : ready 1 c -> strobj_ok o -> objval o = Some v ->
  exists c', addReply junk sdsZmallocSize embeddedSize client_obuf_limits unixtime c o = Ok c' /\ replied 1 c v c'.
Proof.
  intros (Hc & Hf & Hb) Ho Hv. unfold addReply, replied.
  destruct (prepare_ok c) as (c1 & -> & Hso & Hk1 & Hsch). pose proof (prepare_scheduled c c1) as Hs'. destruct (same_out_ok c c1 Hso Hc) as [Hc1 Hs1].
  destruct Hso as (_ & _ & _ & Hb1 & _).
  destruct (takes_replies c) eqn:Et; cbn [negb]; [|exists c1; split_and!; [done..|lia|by apply Hs']].
  assert (flag c1 CLIENT_CLOSE_AFTER_REPLY = false) as Hf1 by (by destruct Hk1 as [_ ->]).
  rewrite <- Hs1, <- Hb1.
  assert (forall s o', sds_ok s -> sdsval s = v -> node_ok o' -> nodeval o' = v ->
    exists c', ('(c, ok) ← addReplyToBuffer c1 (sdsval s);
       if (ok : bool) then Ok c else addReplyObjectToList junk sdsZmallocSize embeddedSize client_obuf_limits unixtime c o') = Ok c' /\
      out_ok c' /\ stream c' = stream c1 ++ v /\ kept c c' /\ c_reply_bytes c' <= c_reply_bytes c1 + 2 ^ 48 /\ scheduled c c') as Hgen.
  { intros s o' Hs Hsv Ho' Hov. rewrite Hsv.
    destruct (queue_ok c1 v (fun c => addReplyObjectToList junk sdsZmallocSize embeddedSize client_obuf_limits unixtime c o'))
      as (c2 & H2 & Hc2 & Hs2 & Hk2 & Hb2); [done|lia|done| |].
    - intros c2 ? ? ?. rewrite <- Hov. by apply object_to_list_ok.
    - exists c2. split_and!; [done..|by etrans|done|by apply Hs']. }
  destruct (sdsEncodedObject o) eqn:Ee.
  - destruct (node_ok_sds o) as (s & Hp & Hs & Hsv & _); [by split|]. unfold obj_sds. rewrite Hp, bind_ok.
    assert (nodeval o = v) by (unfold nodeval; by rewrite Hv). apply Hgen; [done|congruence|by split|done].
  - destruct Ho as (Ht & Hr & He). unfold sdsEncodedObject in Ee. destruct (o_encoding o) eqn:Een; try done.
    destruct He as (n & Hp & Hn). rewrite Hp. unfold objval in Hv. rewrite Hp in Hv. injection Hv as <-.
    pose proof (dec_length_bound n Hn) as Hl.
    assert (exists c2 b, (if (Z.of_nat (length (c_reply c1)) =? 0) && (u64 (PROTO_REPLY_CHUNK_BYTES - c_bufpos c1) >=? 32) then
        '(len, buf) ← ll2string (replicate 32 junk) 32 n; s ← mread buf 0 (Z.to_nat len); addReplyToBuffer c1 s
      else Ok (c1, false)) = Ok (c2, b) /\
      if (b : bool) then out_ok c2 /\ stream c2 = stream c1 ++ dec n /\ kept c1 c2 /\ c_reply_bytes c2 = c_reply_bytes c1
      else c2 = c1) as (c2 & b & -> & H2).
    { destruct (_ && _); [|by exists c1, false].
      rewrite ll2string_writes by (rewrite ?length_replicate; (done || lia)). rewrite bind_ok, Nat2Z.id.
      rewrite mread_ok by len_lia. rewrite drop_0, take_app_length, bind_ok. by apply to_buffer_ok. }
    rewrite bind_ok. destruct b.
    + destruct H2 as (? & ? & ? & ?). exists c2. split_and!; [done..|by etrans|lia|by apply Hs'].
    + subst c2. destruct (getDecodedObject_ok junk o) as (o' & s & -> & Ho' & Hp' & Hso' & Hv').
      { split; [done|]. split; [done|]. rewrite Een. eauto. }
      rewrite bind_ok. unfold obj_sds. rewrite Hp', bind_ok.
      assert (Some (sdsval s) = Some (dec n)) as [= Hsv].
      { transitivity (objval o'); [unfold objval; by rewrite Hp'|]. rewrite Hv'. unfold objval. by rewrite Hp. }
      apply Hgen; [done|done| |unfold nodeval; rewrite Hv'; unfold objval; by rewrite Hp].
      by apply (strobj_node o' s).
Qed.

Lemma addReplyShared_ok c s : ready 1 c -> Z.of_nat (length s) < 2 ^ 63 ->
  exists c', addReplyShared junk sdsZmallocSize embeddedSize client_obuf_limits unixtime c s = Ok c' /\ replied 1 c s c'.
Proof.
  intros Hc Hl. unfold addReplyShared, shared_obj, sdsnew.
  destruct (sdsnewlen_ok junk s (Z.of_nat (length s))) as (x & -> & Hx & Hv & _); [lia|lia|].
  rewrite Nat2Z.id, firstn_all in Hv. rewrite !bind_ok. apply addReply_ok; [done| |cbn; by rewrite <- Hv].
  split; [done|]. split; [cbn; lia|]. cbn. eauto.
Qed.

Lemma addReplyLongLongWithPrefix_ok c n prefix : ready 1 c -> LLONG_MIN <= n <= LLONG_MAX ->
  exists c', addReplyLongLongWithPrefix junk sdsZmallocSize embeddedSize client_obuf_limits unixtime c n prefix = Ok c' /\
    replied 1 c ([prefix] ++ dec n ++ crlf) c'.
Proof.
  intros Hc Hn. pose proof (dec_length_bound n Hn) as Hl. unfold addReplyLongLongWithPrefix.
  destruct (_ && _ && _).
  - apply addReplyShared_ok; [done|]. unfold crlf. len_lia.
  - rewrite ll2string_writes by (rewrite ?length_replicate; (done || lia)). rewrite bind_ok.
    set (d := dec n) in *.
    assert (exists x y t, prefix :: d ++ [0] ++ drop (S (length d)) (replicate 127 junk) = (prefix :: d) ++ x :: y :: t)
      as (x & y & t & ->).
    { exists 0. destruct (drop (S (length d)) (replicate 127 junk)) as [|y t] eqn:E; [|by exists y, t].
      apply (f_equal length) in E. rewrite length_drop, length_replicate in E. cbn in E. lia. }
    rewrite wrZ_at by (cbn; lia). rewrite bind_ok.
    replace ((prefix :: d) ++ 13 :: y :: t) with ((prefix :: d ++ [13]) ++ y :: t) by (cbn; by rewrite <- app_assoc).
    rewrite wrZ_at by (cbn; len_lia). rewrite bind_ok.
    replace ((prefix :: d ++ [13]) ++ 10 :: t) with (([prefix] ++ d ++ crlf) ++ t) by (cbn; by rewrite <- !app_assoc).
    assert (length ([prefix] ++ d ++ crlf) = (length d + 3)%nat) as Hlen by (unfold crlf; len_lia).
    rewrite mread_ok by (rewrite length_app, Hlen; lia). rewrite drop_0, take_app_length' by lia. rewrite bind_ok.
    destruct Hc as (Hc & Hf & Hb). apply addReplyString_ok; [done|lia|done|lia].
Qed.

Lemma int_len_ok f : forall n len, (length (udec (Z.abs n)) <= f)%nat ->
  int_len_loop f n len = len - 1 + Z.of_nat (length (udec (Z.abs n))).
Proof.
  induction f as [|f IH]; intros n len Hl; cbn [int_len_loop].
  - pose proof (udec_nonempty (Z.abs n)). lia.
  - assert (Z.abs (Z.quot n 10) = Z.abs n / 10) as Hq.
    { rewrite Z.quot_abs_l || idtac. rewrite <- Z.quot_div_nonneg by lia. change 10 with (Z.abs 10) at 2. by rewrite Z.quot_abs. }
    rewrite udec_unfold in Hl |- * by lia.
    destruct (Z.ltb_spec (Z.abs n) 10) as [Hs|Hs].
    + rewrite Z.div_small in Hq by lia. destruct (Z.eqb_spec (Z.quot n 10) 0); [cbn; lia|lia].
    + rewrite length_app in *. cbn [length] in *.
      assert (1 <= Z.abs n / 10) by (apply Z.div_le_lower_bound; lia).
      destruct (Z.eqb_spec (Z.quot n 10) 0); [lia|]. rewrite IH by (rewrite Hq; lia). rewrite Hq. lia.
Qed.

(** The length of the string that an object stands for. *)
Lemma addReplyBulkLen_ok c o v : ready 1 c -> strobj_ok o -> objval o = Some v -> Z.of_nat (length v) < 2 ^ 63 ->
  exists c', addReplyBulkLen junk sdsZmallocSize embeddedSize client_obuf_limits unixtime c o = Ok c' /\
    replied 1 c ([36] ++ dec (Z.of_nat (length v)) ++ crlf) c'.
Proof.
  intros Hc Ho Hv Hl. unfold addReplyBulkLen.
  assert ((if sdsEncodedObject o then s ← obj_sds o; Ok (sdslen s)
         else match o_ptr o with
              | PtrInt n => Ok (if n <? 0 then int_len_loop 20 (s64 (- n)) 2 else int_len_loop 20 n 1)
              | _ => Fault AssertFailed
              end) = Ok (Z.of_nat (length v))) as ->.
  { destruct (sdsEncodedObject o) eqn:Ee.
    - destruct (node_ok_sds o) as (s & Hp & Hs & Hsv & _); [by split|]. unfold obj_sds. rewrite Hp, bind_ok.
      unfold nodeval in Hsv. rewrite Hv in Hsv. cbn in Hsv. rewrite Hsv. unfold sdslen. by rewrite sdsval_length.
    - destruct Ho as (Ht & Hr & He). unfold sdsEncodedObject in Ee. destruct (o_encoding o) eqn:Een; try done.
      destruct He as (n & Hp & Hn). unfold objval in Hv. rewrite Hp in *. injection Hv as <-. f_equal.
      pose proof (dec_length_bound n Hn) as Hb. unfold dec in *. destruct (Z.ltb_spec n 0) as [H0|H0].
      + cbn [length] in *. unfold LLONG_MIN, LLONG_MAX in Hn.
        assert (Z.abs (s64 (- n)) = - n) as Habs.
        { destruct (decide (n = - 2 ^ 63)) as [->|]; [done|]. rewrite s64_small by lia. lia. }
        rewrite int_len_ok by (rewrite Habs; lia). rewrite Habs. lia.
      + rewrite int_len_ok by (rewrite Z.abs_eq by lia; lia). rewrite Z.abs_eq by lia. lia. }
  rewrite bind_ok. unfold OBJ_SHARED_BULKHDR_LEN. destruct (Z.ltb_spec (Z.of_nat (length v)) 32).
  - apply addReplyShared_ok; [done|]. pose proof (dec_length_bound (Z.of_nat (length v))).
    unfold LLONG_MIN, LLONG_MAX, crlf in *. rewrite !length_app. cbn [length]. lia.
  - apply addReplyLongLongWithPrefix_ok; [done|]. unfold LLONG_MIN, LLONG_MAX. lia.
Qed.

(** The bulk reply of an object: its length, its bytes and CRLF. *)
Lemma addReplyBulk_ok c o v : ready 3 c -> strobj_ok o -> objval o = Some v -> Z.of_nat (length v) < 2 ^ 63 ->
  exists c', addReplyBulk junk sdsZmallocSize embeddedSize client_obuf_limits unixtime c o = Ok c' /\
    replied 3 c (([36] ++ dec (Z.of_nat (length v)) ++ crlf) ++ v ++ crlf) c'.
Proof.
  intros Hc Ho Hv Hl. unfold addReplyBulk.
  destruct (addReplyBulkLen_ok c o v) as (c1 & -> & H1); [by apply (ready_le 3)|done..|]. rewrite bind_ok.
  pose proof (replied_ready 3 1 2 _ _ _ Hc H1 ltac:(lia)) as Hc1.
  destruct (addReply_ok c1 o v) as (c2 & -> & H2); [by apply (ready_le 2)|done..|]. rewrite bind_ok.
  pose proof (replied_ready 2 1 1 _ _ _ Hc1 H2 ltac:(lia)) as Hc2.
  destruct (addReplyShared_ok c2 crlf Hc2) as (c3 & -> & H3); [done|]. exists c3. split; [done|].
  eapply (replied_app 1 2); [done| |done]. by eapply (replied_app 1 1).
Qed.

(** A client whose connection is to be closed takes nothing more. *)
Lemma addReplyString_closing c s :
  out_ok c -> flag c CLIENT_CLOSE_AFTER_REPLY = true ->
  exists c', addReplyString junk sdsZmallocSize embeddedSize client_obuf_limits unixtime c s = Ok c' /\
    out_ok c' /\ stream c' = stream c.
Proof.
  intros Hc Hf. unfold addReplyString.
  destruct (prepare_ok c) as (c1 & -> & Hso & Hf1 & _). destruct (same_out_ok c c1 Hso Hc) as [Hc1 Hs1].
  exists c1. destruct (takes_replies c); cbn [negb]; [|by split_and!].
  unfold addReplyToBuffer. destruct Hf1 as [_ ->]; [|done..]. rewrite Hf, bind_ok. by split_and!.
Qed.

(** *** Writing *)

Lemma next_write_spec oracle len n o : next_write oracle len = (n, o) -> 0 < n ->
  n <= len /\ (length o < length oracle)%nat.
Proof. destruct oracle as [|x oracle]; cbn; intros [= <- <-] Hn; [lia|]. lia. Qed.

(** What the writes leave: the flags and the socket, and no more memory. *)
Definition drained (c c' : outst) : Prop :=
  c_flags c' = c_flags c /\
  (c_fd c' = c_fd c /\ c_replstate c' = c_replstate c /\ c_id c' = c_id c /\
   clients_pending_write c' = clients_pending_write c /\ clients_to_close c' = clients_to_close c) /\
  c_reply_bytes c' <= c_reply_bytes c.

#[local] Instance drained_preorder : PreOrder drained.
Proof. split; [done|]. intros a b c (E1 & (F1 & G1 & I1 & L1 & C1) & H1) (E2 & (F2 & G2 & I2 & L2 & C2) & H2).
  split_and!; (congruence || lia). Qed.

(** Sending [n] bytes of the static buffer. *)
Lemma send_buffer c n :
  out_ok c -> 0 < c_bufpos c -> 0 < n <= c_bufpos c - c_sentlen c ->
  let c1 := with_sentlen c (c_sentlen c + n) in
  let c2 := if s32 (c_sentlen c1) =? c_bufpos c1 then with_sentlen (with_buf c1 (c_buf c1) 0) 0 else c1 in
  out_ok c2 /\
  take (Z.to_nat n) (take (Z.to_nat (c_bufpos c - c_sentlen c)) (drop (Z.to_nat (c_sentlen c)) (c_buf c))) ++ stream c2
    = stream c /\ length (c_reply c2) = length (c_reply c) /\ drained c c2.
Proof.
  intros [H1 H2 H3 H4 H5 [H6 H7]] Hp Hn. cbn zeta. cbn [with_sentlen c_sentlen c_bufpos].
  unfold PROTO_REPLY_CHUNK_BYTES in *. rewrite s32_small by lia.
  destruct (Z.eqb_spec (c_bufpos c) 0) as [|Hne]; [lia|].
  assert (stream c = take (Z.to_nat (c_bufpos c - c_sentlen c)) (drop (Z.to_nat (c_sentlen c)) (c_buf c))
    ++ concat (nodeval <$> c_reply c)) as Hst.
  { unfold stream. rewrite drop_app_le by len_lia. f_equal. rewrite skipn_firstn_comm. f_equal. lia. }
  destruct (Z.eqb_spec (c_sentlen c + n) (c_bufpos c)) as [E|E].
  - split_and!; try done.
    + split; cbn; unfold PROTO_REPLY_CHUNK_BYTES; try (done || lia). split; [lia|]. destruct (c_reply c); [done|by left].
    + rewrite Hst. unfold stream. cbn. rewrite take_take, Nat.min_l by lia. f_equal. f_equal. lia.
  - split_and!; try done.
    + split; cbn; unfold PROTO_REPLY_CHUNK_BYTES; try done. split; [lia|].
      destruct (Z.eqb_spec (c_bufpos c) 0); [lia|lia].
    + unfold stream. cbn. rewrite !drop_app_le by len_lia. rewrite app_assoc. f_equal.
      rewrite !skipn_firstn_comm, take_take, Nat.min_l by lia.
      rewrite <- (take_drop (Z.to_nat n) (take (Z.to_nat (c_bufpos c) - Z.to_nat (c_sentlen c)) _)).
      rewrite take_take, Nat.min_l by lia. f_equal.
      rewrite skipn_firstn_comm, drop_drop. f_equal; [lia|]. f_equal. lia.
Qed.

Lemma stream_nodes c : c_bufpos c = 0 -> stream c = drop (Z.to_nat (c_sentlen c)) (concat (nodeval <$> c_reply c)).
Proof. intros E. unfold stream. by rewrite E. Qed.

Lemma drop_head c o rest :
  out_ok c -> c_bufpos c = 0 -> c_reply c = o :: rest ->
  out_ok (with_sentlen (with_reply c rest (u64 (c_reply_bytes c - objmem o))) 0) /\
  u64 (c_reply_bytes c - objmem o) <= c_reply_bytes c.
Proof.
  intros [H1 H2 H3 H4 H5 H6] Hp Hr. rewrite Hr in *. inversion_clear H3.
  cbn in H4. fold (sum_Z (objmem <$> rest)) in H4. pose proof (objmem_range o). pose proof (objmem_sum_nonneg rest).
  rewrite u64_small by lia. split; [|lia]. unfold sum_Z in *. split; cbn; try (done || lia). split; [lia|]. rewrite Hp. cbn. destruct rest; [done|by left].
Qed.

(** Sending [n] bytes of the first node. *)
Lemma send_node c o rest s n :
  out_ok c -> c_bufpos c = 0 -> c_reply c = o :: rest -> o_ptr o = PtrSds s -> sds_ok s ->
  sds_len s <> 0 -> 0 < n <= sds_len s - c_sentlen c ->
  let c1 := with_sentlen c (c_sentlen c + n) in
  let c2 := if c_sentlen c1 =? sds_len s
            then with_sentlen (with_reply c1 rest (u64 (c_reply_bytes c1 - objmem o))) 0 else c1 in
  out_ok c2 /\
  take (Z.to_nat n) (take (Z.to_nat (sds_len s - c_sentlen c)) (drop (Z.to_nat (c_sentlen c)) (sds_mem s))) ++ stream c2
    = stream c /\ (length (c_reply c2) <= length (c_reply c))%nat /\ drained c c2.
Proof.
  intros Hc Hp Hr Ho Hs Hne Hn. cbn zeta. cbn [with_sentlen c_sentlen].
  pose proof (sdsval_length s Hs) as Hlen. pose proof (oo_sent c Hc) as [Hs0 _].
  assert (nodeval o = sdsval s) as Hv by (unfold nodeval, objval; by rewrite Ho).
  assert (stream c = drop (Z.to_nat (c_sentlen c)) (sdsval s) ++ concat (nodeval <$> rest)) as Hst.
  { rewrite stream_nodes, Hr by done. change (concat (nodeval <$> o :: rest)) with (nodeval o ++ concat (nodeval <$> rest)).
    rewrite Hv. rewrite drop_app_le by lia. done. }
  assert (take (Z.to_nat (sds_len s - c_sentlen c)) (drop (Z.to_nat (c_sentlen c)) (sds_mem s))
    = drop (Z.to_nat (c_sentlen c)) (sdsval s)) as ->.
  { unfold sdsval. rewrite skipn_firstn_comm. f_equal. lia. }
  destruct (Z.eqb_spec (c_sentlen c + n) (sds_len s)) as [E|E].
  - destruct (drop_head c o rest Hc Hp Hr) as [Hd Hb]. split_and!; [done| | |by split_and!].
    + rewrite Hst, stream_nodes by done. cbn. rewrite take_ge by len_lia. by rewrite drop_0.
    + cbn. rewrite Hr. cbn. lia.
  - split_and!; [|  | done | done].
    + destruct Hc as [H1 H2 H3 H4 H5 [H6 H7]]. split; cbn; try done. split; [lia|].
      rewrite Hp. cbn. rewrite Hr. right. rewrite Hv. lia.
    + rewrite Hst, stream_nodes by done. cbn. rewrite Hr.
      change (concat (nodeval <$> o :: rest)) with (nodeval o ++ concat (nodeval <$> rest)).
      rewrite Hv. rewrite drop_app_le by lia. rewrite app_assoc. f_equal.
      replace (Z.to_nat (c_sentlen c + n)) with (Z.to_nat (c_sentlen c) + Z.to_nat n)%nat by lia.
      by rewrite <- drop_drop, take_drop.
Qed.

(** The socket takes at least one byte. *)
Definition accepts (oracle : list Z) : Prop := 0 < default 0 (head oracle).

(** Something was sent if the socket took something, or all is sent. *)
Definition moved (oracle : list Z) (c' : outst) (sent sent' : bytes) : Prop :=
  (length sent <= length sent')%nat /\
  (accepts oracle -> clientHasPendingReplies c' = false \/ (length sent < length sent')%nat).

Lemma next_write_stops oracle len n oracle' : next_write oracle len = (n, oracle') -> 0 < len -> n <= 0 -> ~ accepts oracle.
Proof. unfold next_write, accepts. destruct oracle as [|m o]; cbn; [lia|]. intros [= <- _]. lia. Qed.

Lemma write_loop_ok limited fuel : forall oracle c nw tot sent,
  out_ok c -> (length oracle + length (c_reply c) < fuel)%nat ->
  exists c' nw' tot' sent',
    write_loop sdsZmallocSize embeddedSize fuel limited oracle c nw tot sent = Ok (c', nw', tot', sent') /\
    out_ok c' /\ sent' ++ stream c' = sent ++ stream c /\ drained c c' /\ moved oracle c' sent sent'.
Proof.
  induction fuel as [|fuel IH]; intros oracle c nw tot sent Hc Hf; [lia|]. cbn [write_loop].
  destruct (clientHasPendingReplies c) eqn:Hpend; cbn [negb];
    [|exists c, nw, tot, sent; split_and!; try done; split; [done|by left]].
  assert (forall n, (accepts oracle -> False) -> exists c' nw' tot' sent', (Ok (c, n, tot, sent) : res (outst * Z * Z * bytes)) = Ok (c', nw', tot', sent') /\
    out_ok c' /\ sent' ++ stream c' = sent ++ stream c /\ drained c c' /\ moved oracle c' sent sent') as Hstop.
  { intros n Hn. exists c, n, tot, sent. do 4 (split; [done|]). split; [done|]. intros Ha. by destruct (Hn Ha). }
  assert (forall oracle' c2 n d, (0 < length d)%nat -> (length oracle' < length oracle)%nat -> (length (c_reply c2) <= length (c_reply c))%nat ->
    out_ok c2 -> d ++ stream c2 = stream c -> drained c c2 ->
    exists c' nw' tot' sent',
      (if write_enough limited (tot + n) then Ok (c2, n, tot + n, sent ++ d)
       else write_loop sdsZmallocSize embeddedSize fuel limited oracle' c2 n (tot + n) (sent ++ d)) = Ok (c', nw', tot', sent') /\
      out_ok c' /\ sent' ++ stream c' = sent ++ stream c /\ drained c c' /\ moved oracle c' sent sent') as Hnext.
  { intros oracle' c2 n d Hd Ho Hr Hok Hs Hfl. destruct (write_enough limited (tot + n)).
    - exists c2, n, (tot + n), (sent ++ d). split_and!; try done; [by rewrite <- app_assoc, Hs|].
      unfold moved. rewrite length_app. split; [lia|right; lia].
    - destruct (IH oracle' c2 n (tot + n) (sent ++ d) Hok ltac:(lia)) as (c' & nw' & tot' & sent' & H1 & H2 & H3 & H4 & H5 & _).
      exists c', nw', tot', sent'. split; [done|]. split; [done|]. split; [by rewrite H3, <- app_assoc, Hs|]. split; [by etrans|].
      rewrite length_app in H5. split; [lia|right; lia]. }
  pose proof (oo_sent c Hc) as [Hs0 Hs1]. pose proof (oo_pos c Hc) as Hpos.
  destruct (Z.gtb_spec (c_bufpos c) 0) as [Hp|Hp].
  - pose proof (oo_buf c Hc) as Hbuf. unfold PROTO_REPLY_CHUNK_BYTES in *.
    destruct (Z.eqb_spec (c_bufpos c) 0) as [|_]; [lia|]. rewrite mread_ok by lia. rewrite bind_ok.
    set (data := take _ _). destruct (next_write oracle (Z.of_nat (length data))) as [n oracle'] eqn:En.
    assert (Z.of_nat (length data) = c_bufpos c - c_sentlen c) as Hld by (unfold data; len_lia).
    destruct (Z.leb_spec n 0); [apply Hstop, (next_write_stops _ _ _ _ En); lia|].
    destruct (next_write_spec _ _ _ _ En ltac:(lia)) as [Hn Ho].
    destruct (send_buffer c n Hc Hp ltac:(lia)) as (G1 & G2 & G3 & G4).
    apply Hnext; [rewrite length_take; lia | done | by rewrite G3 | done | done | done].
  - destruct (c_reply c) as [|o rest] eqn:Er.
    { exfalso. unfold clientHasPendingReplies in Hpend. rewrite Er in Hpend.
      assert (c_bufpos c = 0) as E0 by lia. by rewrite E0 in Hpend. }
    assert (node_ok o) as Hno by (pose proof (oo_nodes c Hc) as Hn; rewrite Er in Hn; by inversion Hn).
    destruct (node_ok_sds o Hno) as (s & Hop & Hs & Hv & _ & _). unfold obj_sds. rewrite Hop, bind_ok.
    rewrite used_memory_ok by done. rewrite bind_ok. unfold sdslen.
    assert (c_bufpos c = 0) as E0 by lia. rewrite E0 in Hs1. cbn in Hs1.
    pose proof (sdsval_length s Hs) as Hlen. pose proof (sds_ok_len s Hs). pose proof (sds_ok_mem s Hs). rewrite Hv in Hs1.
    destruct (Z.eqb_spec (sds_len s) 0) as [Ez|Ez].
    + assert (c_sentlen c = 0) as Es0 by lia.
      destruct (drop_head c o rest Hc E0 Er) as [Hd Hb].
      assert (with_sentlen (with_reply c rest (u64 (c_reply_bytes c - objmem o))) 0 = with_reply c rest (u64 (c_reply_bytes c - objmem o))) as Eq.
      { unfold with_sentlen, with_reply. cbn. by rewrite Es0. }
      rewrite Eq in Hd.
      destruct (IH oracle _ nw tot sent Hd ltac:(cbn; cbn in Hf; lia)) as (c' & nw' & tot' & sent' & H1 & H2 & H3 & H4 & H5).
      exists c', nw', tot', sent'. split; [done|]. split; [done|]. split; [|split; [etrans; [|done]; by split_and!|done]]. rewrite H3. f_equal.
      rewrite !stream_nodes by done. cbn. rewrite Er.
      change (concat (nodeval <$> o :: rest)) with (nodeval o ++ concat (nodeval <$> rest)).
      assert (nodeval o = []) as -> by (rewrite Hv; destruct (sdsval s); [done|cbn in Hlen; lia]). done.
    + rewrite mread_ok by lia. rewrite bind_ok.
      set (data := take _ _). destruct (next_write oracle (Z.of_nat (length data))) as [n oracle'] eqn:En.
      assert (Z.of_nat (length data) = sds_len s - c_sentlen c) as Hld by (unfold data; len_lia).
      destruct (Z.leb_spec n 0); [apply Hstop, (next_write_stops _ _ _ _ En); lia|].
      destruct (next_write_spec _ _ _ _ En ltac:(lia)) as [Hn Ho].
      destruct (send_node c o rest s n Hc E0 Er Hop Hs Ez ltac:(lia)) as (G1 & G2 & G3 & G4).
      apply Hnext; [rewrite length_take; lia | done | by rewrite Er in G3 | done | done | done].
Qed.

(** Nothing is lost, repeated or reordered between the queue and the socket. *)
Lemma writeToClient_ok limited eagain oracle c :
  out_ok c ->
  exists c' sent alive,
    writeToClient sdsZmallocSize embeddedSize limited eagain oracle c = Ok (c', sent, alive) /\
    out_ok c' /\ sent ++ stream c' = stream c /\ drained c c' /\ moved oracle c' [] sent /\
    (alive = true -> flag c CLIENT_CLOSE_AFTER_REPLY = true -> clientHasPendingReplies c' = true) /\
    (eagain = true -> flag c CLIENT_CLOSE_AFTER_REPLY = false -> alive = true).
Proof.
  intros Hc. unfold writeToClient.
  destruct (write_loop_ok limited (S (S (length oracle + length (c_reply c)))) oracle c 0 0 [] Hc ltac:(lia))
    as (c1 & nw & tot & sent & -> & Hc1 & Hs & Hfl & Hmv). rewrite bind_ok.
  destruct ((nw =? -1) && negb eagain) eqn:Ea.
  { exists c1, sent, false. split_and!; try done. apply andb_true_iff in Ea as [_ Ea%negb_true_iff]. congruence. }
  clear Ea. destruct (clientHasPendingReplies c1) eqn:E; cbn [negb]; [by exists c1, sent, true|].
  assert (c_bufpos c1 = 0 /\ c_reply c1 = []) as [E1 E2].
  { unfold clientHasPendingReplies in E. apply orb_false_iff in E as [?%negb_false_iff%Z.eqb_eq ?%negb_false_iff%Z.eqb_eq].
    split; [done|]. destruct (c_reply c1); [done|cbn in *; lia]. }
  pose proof (oo_sent c1 Hc1) as [_ Hs0]. rewrite E1, E2 in Hs0. cbn in Hs0.
  assert (with_sentlen c1 0 = c1) as -> by (unfold with_sentlen; rewrite <- Hs0; by destruct c1).
  unfold flag. rewrite (proj1 Hfl). destruct (Z.testbit (c_flags c) CLIENT_CLOSE_AFTER_REPLY) eqn:Ef.
  - exists c1, sent, false. by split_and!.
  - exists c1, sent, true. split_and!; try done.
Qed.
End ReplySpec.
