(* ===== verification/Resp.v ===== *)
(** * The request protocol ([src/networking.c], lines 1044-1325; [deps/hiredis/hiredis.c])

    The commands that the client library formats and the parser of the query
    buffer. [reqst] is the input half of a client; the query buffer is an sds.
    [processInputBuffer] takes [processCommand] as an argument. *)

From S2P Require Import Prelude CLib Util Sds Split Object Reply.
Local Open Scope Z_scope.

(** ** Formatting ([redisFormatCommandArgv]) *)

(** [do { len++; i /= 10; } while(i)] on an [int]; the argument was truncated
    to one. *)
Fixpoint intlen_loop (fuel : nat) (i len : Z) : Z :=
  match fuel with
  | O => len
  | S f => let i := Z.quot i 10 in if i =? 0 then len + 1 else intlen_loop f i (len + 1)
  end.

Definition intlen (i : Z) : Z :=
  let i := s32 i in
  if i <? 0 then intlen_loop 11 (s32 (- i)) 1 else intlen_loop 11 i 0.

Definition bulklen (len : Z) : Z := 1 + intlen len + 2 + len + 2.

(** [sprintf(cmd+pos, ...)] writes a NUL after the text. *)
Definition put_str (cmd : bytes) (pos : Z) (s : bytes) : res (bytes * Z) :=
  cmd ← mwrite cmd (Z.to_nat pos) (s ++ [0]);
  Ok (cmd, pos + Z.of_nat (length s)).

Fixpoint format_args (cmd : bytes) (pos : Z) (argv : list bytes) : res (bytes * Z) :=
  match argv with
  | [] => Ok (cmd, pos)
  | a :: argv' =>
      '(cmd, pos) ← put_str cmd pos ([36] ++ udec (Z.of_nat (length a)) ++ crlf);
      cmd ← mwrite cmd (Z.to_nat pos) a;
      let pos := pos + Z.of_nat (length a) in
      cmd ← wrZ cmd pos 13;
      cmd ← wrZ cmd (pos + 1) 10;
      format_args cmd (pos + 2) argv'
  end.

(** The command in its buffer, and its length. *)
Definition redisFormatCommandArgv (argv : list bytes) : res (bytes * Z) :=
  let argc := Z.of_nat (length argv) in
  let totlen := foldl (fun t a => s32 (t + bulklen (Z.of_nat (length a)))) (1 + intlen argc + 2) argv in
  '(cmd, pos) ← put_str (replicate (Z.to_nat (totlen + 1)) 0) 0 ([42] ++ dec argc ++ crlf);
  '(cmd, pos) ← format_args cmd pos argv;
  if negb (pos =? totlen) then Fault AssertFailed else
  cmd ← wrZ cmd pos 0;
  Ok (cmd, totlen).

(** ** The query buffer *)

Definition PROTO_REQ_INLINE : Z := 1.
Definition PROTO_REQ_MULTIBULK : Z := 2.
Definition PROTO_INLINE_MAX_SIZE : Z := 1024 * 64.
Definition PROTO_MBULK_BIG_ARG : Z := 1024 * 32.

Record reqst := mkReq {
  q_querybuf : sds;
  q_reqtype : Z;
  q_argv : list robj;
  q_multibulklen : Z;
  q_bulklen : Z;
  q_asking : bool;     (* [c->cmd->proc] is [askingCommand] *)
  q_out : outst
}.

Definition q_argc (c : reqst) : Z := Z.of_nat (length (q_argv c)).

Definition with_querybuf (c : reqst) (q : sds) : reqst :=
  mkReq q (q_reqtype c) (q_argv c) (q_multibulklen c) (q_bulklen c) (q_asking c) (q_out c).
Definition with_out (c : reqst) (o : outst) : reqst :=
  mkReq (q_querybuf c) (q_reqtype c) (q_argv c) (q_multibulklen c) (q_bulklen c) (q_asking c) o.
Definition with_reqtype (c : reqst) (t : Z) : reqst :=
  mkReq (q_querybuf c) t (q_argv c) (q_multibulklen c) (q_bulklen c) (q_asking c) (q_out c).
Definition with_args (c : reqst) (a : list robj) (n b : Z) : reqst :=
  mkReq (q_querybuf c) (q_reqtype c) a n b (q_asking c) (q_out c).

(** [strchr(c->querybuf + pos, ch)]: an offset in the buffer. *)
Definition querybuf_strchr (q : sds) (pos : Z) (ch : Z) : option Z :=
  match strchr (cstr (drop (Z.to_nat pos) (sds_mem q))) ch with
  | Some i => Some (pos + Z.of_nat i)
  | None => None
  end.

Section Requests.
Variable junk : Z.
Variable sdsZmallocSize : sds -> Z.
Variable embeddedSize : sds -> Z.
Variable client_obuf_limits : client_type -> obuf_limits.
Variable unixtime : Z.

Definition reply_error (c : reqst) (msg : bytes) : res reqst :=
  o ← addReplyError junk sdsZmallocSize embeddedSize client_obuf_limits unixtime (q_out c) msg;
  Ok (with_out c o).

Definition setProtocolError (c : reqst) (pos : Z) : res reqst :=
  let c := with_out c (with_flags (q_out c) (Z.setbit (c_flags (q_out c)) CLIENT_CLOSE_AFTER_REPLY)) in
  q ← sdsrange (q_querybuf c) pos (-1);
  Ok (with_querybuf c q).

Definition protocol_error (c : reqst) (msg : bytes) (pos : Z) : res (reqst * bool) :=
  c ← reply_error c msg; c ← setProtocolError c pos; Ok (c, false).

(** [addReplyErrorFormat]: the formatted text up to a NUL, without newlines. *)
Definition error_format (s : bytes) : bytes :=
  map (fun ch => if (ch =? 13) || (ch =? 10) then 32 else ch) (cstr s).

(** The state after [resetClient]. *)
Definition resetClient (c : reqst) : reqst :=
  let f := c_flags (q_out c) in
  let f := if negb (Z.testbit f CLIENT_MULTI) && negb (q_asking c) then Z.clearbit f CLIENT_ASKING else f in
  let f := Z.clearbit f CLIENT_REPLY_SKIP in
  let f := if Z.testbit f CLIENT_REPLY_SKIP_NEXT
           then Z.clearbit (Z.setbit f CLIENT_REPLY_SKIP) CLIENT_REPLY_SKIP_NEXT else f in
  mkReq (q_querybuf c) 0 [] 0 (-1) (q_asking c) (with_flags (q_out c) f).

(** ** Multi bulk requests *)

(** [sdsrange] and the room for a large argument. *)
Definition big_arg_room (q : sds) (pos ll : Z) : res (sds * Z) :=
  if ll >=? PROTO_MBULK_BIG_ARG then
    q ← sdsrange q pos (-1);
    let qblen := sdslen q in
    q ← (if qblen <? ll + 2 then sdsMakeRoomFor junk q (ll + 2 - qblen) else Ok q);
    Ok (q, 0)
  else Ok (q, pos).

(** How the length of a bulk argument is read: [BulkErr] carries the state
    after the error. *)
Inductive bulk_header :=
  | BulkLen (c : reqst) (pos : Z)
  | BulkWait
  | BulkErr (c : reqst).

Definition read_bulk_len (c : reqst) (pos : Z) : res bulk_header :=
  let q := q_querybuf c in
  match querybuf_strchr q pos 13 with
  | None =>
      if sdslen q >? PROTO_INLINE_MAX_SIZE then
        '(c, _) ← protocol_error c (str "Protocol error: too big bulk count string") 0; Ok (BulkErr c)
      else Ok BulkWait
  | Some newline =>
      if newline >? s32 (sdslen q) - 2 then Ok BulkWait else
      ch ← rdZ (sds_mem q) pos;
      if negb (ch =? 36) then
        '(c, _) ← protocol_error c (error_format (str "Protocol error: expected '$', got '" ++ [ch] ++ str "'")) pos; Ok (BulkErr c)
      else
        num ← mread (sds_mem q) (Z.to_nat (pos + 1)) (Z.to_nat (newline - (pos + 1)));
        match string2ll num with
        | None => '(c, _) ← protocol_error c (str "Protocol error: invalid bulk length") pos; Ok (BulkErr c)
        | Some ll =>
            if (ll <? 0) || (ll >? 512 * 1024 * 1024) then
              '(c, _) ← protocol_error c (str "Protocol error: invalid bulk length") pos; Ok (BulkErr c)
            else
              let pos := pos + (newline - pos) + 2 in
              '(q, pos) ← big_arg_room q pos ll;
              Ok (BulkLen (with_args (with_querybuf c q) (q_argv c) (q_multibulklen c) ll) pos)
        end
  end.

(** The argument, when it is all in the buffer. *)
Definition read_bulk_arg (c : reqst) (pos : Z) : res (reqst * Z) :=
  let q := q_querybuf c in
  let bl := q_bulklen c in
  if (pos =? 0) && (bl >=? PROTO_MBULK_BIG_ARG) && (s32 (sdslen q) =? bl + 2) then
    arg ← sdsIncrLen q (-2);
    q ← sdsnewlen junk None (bl + 2);
    q ← sdsclear q;
    Ok (with_args (with_querybuf c q) (q_argv c ++ [createObject OBJ_STRING arg]) (q_multibulklen c - 1) (-1), 0)
  else
    d ← mread (sds_mem q) (Z.to_nat pos) (Z.to_nat bl);
    o ← createStringObject junk d bl;
    Ok (with_args c (q_argv c ++ [o]) (q_multibulklen c - 1) (-1), pos + bl + 2).

(** [while(c->multibulklen)]: every full round reads one argument. [None]
    is the early [return C_ERR]. *)
Fixpoint multibulk_loop (fuel : nat) (c : reqst) (pos : Z) : res (reqst * option Z) :=
  match fuel with
  | O => Fault OutOfFuel
  | S f =>
      if q_multibulklen c =? 0 then Ok (c, Some pos) else
      h ← (if q_bulklen c =? -1 then read_bulk_len c pos else Ok (BulkLen c pos));
      match h with
      | BulkErr c => Ok (c, None)
      | BulkWait => Ok (c, Some pos)
      | BulkLen c pos =>
          if u64 (sdslen (q_querybuf c) - pos) <? u32 (q_bulklen c + 2) then Ok (c, Some pos) else
          '(c, pos) ← read_bulk_arg c pos;
          multibulk_loop f c pos
      end
  end.

(** [if (pos) sdsrange(c->querybuf, pos, -1)]; the flag is C_OK. *)
Definition multibulk_args (c : reqst) (pos : Z) : res (reqst * bool) :=
  if negb (q_multibulklen c >? 0) then Fault AssertFailed else
  '(c, r) ← multibulk_loop (S (Z.to_nat (q_multibulklen c))) c pos;
  match r with
  | None => Ok (c, false)
  | Some pos =>
      q ← (if negb (pos =? 0) then sdsrange (q_querybuf c) pos (-1) else Ok (q_querybuf c));
      let c := with_querybuf c q in
      Ok (c, q_multibulklen c =? 0)
  end.

Definition processMultibulkBuffer (c : reqst) : res (reqst * bool) :=
  if q_multibulklen c =? 0 then
    if negb (q_argc c =? 0) then Fault AssertFailed else
    let q := q_querybuf c in
    match querybuf_strchr q 0 13 with
    | None =>
        if sdslen q >? PROTO_INLINE_MAX_SIZE
        then protocol_error c (str "Protocol error: too big mbulk count string") 0
        else Ok (c, false)
    | Some newline =>
        if newline >? s32 (sdslen q) - 2 then Ok (c, false) else
        ch ← rdZ (sds_mem q) 0;
        if negb (ch =? 42) then Fault AssertFailed else
        num ← mread (sds_mem q) 1 (Z.to_nat (newline - 1));
        match string2ll num with
        | None => protocol_error c (str "Protocol error: invalid multibulk length") 0
        | Some ll =>
            if ll >? 1024 * 1024 then protocol_error c (str "Protocol error: invalid multibulk length") 0 else
            let pos := newline + 2 in
            if ll <=? 0 then q ← sdsrange q pos (-1); Ok (with_querybuf c q, true)
            else multibulk_args (with_args c (q_argv c) ll (q_bulklen c)) pos
        end
    end
  else multibulk_args c 0.

(** ** The loop over the requests *)


Fixpoint make_args (args : list bytes) : res (list robj) :=
  match args with
  | [] => Ok []
  | a :: args' =>
      r ← make_args args';
      if (length a =? 0)%nat then Ok r else
      s ← sdsnewlen junk (Some a) (Z.of_nat (length a)); Ok (createObject OBJ_STRING s :: r)
  end.

(** [querylen+2] bytes are dropped, also after a line that ends with a LF
    alone. *)
Definition processInlineBuffer (c : reqst) : res (reqst * bool) :=
  let q := q_querybuf c in
  match querybuf_strchr q 0 10 with
  | None =>
      if sdslen q >? PROTO_INLINE_MAX_SIZE
      then protocol_error c (str "Protocol error: too big inline request") 0
      else Ok (c, false)
  | Some newline =>
      prev ← (if newline =? 0 then Ok 0 else rdZ (sds_mem q) (newline - 1));
      let newline := if negb (newline =? 0) && (prev =? 13) then newline - 1 else newline in
      let querylen := newline in
      aux ← mread (sds_mem q) 0 (Z.to_nat querylen);
      args ← sdssplitargs aux;
      match args with
      | None => protocol_error c (str "Protocol error: unbalanced quotes in request") 0
      | Some args =>
          q ← sdsrange q (querylen + 2) (-1);
          argv ← make_args args;
          Ok (with_args (with_querybuf c q) argv (q_multibulklen c) (q_bulklen c), true)
      end
  end.

(** [processCommand s c] is the server and the client after the command, and
    whether the result is C_OK; [None]: the client was freed. *)
Context {server : Type}.
Variable processCommand : server -> reqst -> res (server * option (reqst * bool)).
Variable clientsArePaused : bool.

Fixpoint processInputBuffer (fuel : nat) (s : server) (c : reqst) : res (server * option reqst) :=
  match fuel with
  | O => Fault OutOfFuel
  | S f =>
      if sdslen (q_querybuf c) =? 0 then Ok (s, Some c) else
      if negb (flag (q_out c) CLIENT_SLAVE) && clientsArePaused then Ok (s, Some c) else
      if flag (q_out c) CLIENT_BLOCKED then Ok (s, Some c) else
      if flag (q_out c) CLIENT_CLOSE_AFTER_REPLY then Ok (s, Some c) else
      ch ← rdZ (sds_mem (q_querybuf c)) 0;
      let c := if q_reqtype c =? 0
               then with_reqtype c (if ch =? 42 then PROTO_REQ_MULTIBULK else PROTO_REQ_INLINE) else c in
      '(c, ok) ← (if q_reqtype c =? PROTO_REQ_INLINE then processInlineBuffer c
                  else if q_reqtype c =? PROTO_REQ_MULTIBULK then processMultibulkBuffer c
                  else Fault AssertFailed);
      if negb ok then Ok (s, Some c) else
      if q_argc c =? 0 then processInputBuffer f s (resetClient c) else
      '(s, r) ← processCommand s c;
      match r with
      | None => Ok (s, None)
      | Some (c, ok) => processInputBuffer f s (if (ok : bool) then resetClient c else c)
      end
  end.
End Requests.

(** ** The encoding of a request *)

Definition bulk (a : bytes) : bytes := [36] ++ udec (Z.of_nat (length a)) ++ crlf ++ a ++ crlf.

Definition resp_encode (argv : list bytes) : bytes :=
  [42] ++ dec (Z.of_nat (length argv)) ++ crlf ++ concat (bulk <$> argv).

Lemma mwrite_at out buf d :
  (length d <= length buf)%nat ->
  mwrite (out ++ buf) (length out) d = Ok (out ++ d ++ drop (length d) buf).
Proof.
  intros H. rewrite mwrite_ok by len_lia. f_equal.
  rewrite take_app_length, <- drop_drop, drop_app_length. done.
Qed.

Lemma put_str_ok out buf s pos :
  pos = Z.of_nat (length out) -> (length s < length buf)%nat ->
  put_str (out ++ buf) pos s = Ok (out ++ s ++ 0 :: drop (S (length s)) buf, pos + Z.of_nat (length s)).
Proof.
  intros -> H. unfold put_str. rewrite Nat2Z.id, mwrite_at by len_lia. rewrite bind_ok.
  rewrite <- !app_assoc. cbn [app]. by rewrite length_app, Nat.add_comm.
Qed.

Lemma bulk_length a : length (bulk a) = (5 + length (udec (Z.of_nat (length a))) + length a)%nat.
Proof. unfold bulk, crlf. len_lia. Qed.

Lemma buf_cons (buf : bytes) n : (n < length buf)%nat -> exists x t, drop n buf = x :: t.
Proof.
  intros H. destruct (drop n buf) eqn:E; [|eauto].
  apply (f_equal length) in E. rewrite length_drop in E. cbn in E. lia.
Qed.

(** One argument. *)
Lemma format_arg_ok out buf a argv pos :
  pos = Z.of_nat (length out) -> (length (bulk a) < length buf)%nat ->
  format_args (out ++ buf) pos (a :: argv) =
  format_args ((out ++ bulk a) ++ drop (length (bulk a)) buf) (Z.of_nat (length (out ++ bulk a))) argv.
Proof.
  intros -> Hl. rewrite bulk_length in Hl. cbn [format_args].
  set (hd := [36] ++ udec (Z.of_nat (length a)) ++ crlf).
  assert (length hd = 3 + length (udec (Z.of_nat (length a))))%nat as Hhd by (unfold hd, crlf; len_lia).
  rewrite put_str_ok by (done || lia). rewrite bind_ok.
  assert (bulk a = hd ++ a ++ crlf) as Hb by (unfold bulk, hd; by rewrite <- !app_assoc).
  assert (Z.to_nat (Z.of_nat (length out) + Z.of_nat (length hd)) = length (out ++ hd)) as -> by len_lia.
  rewrite app_assoc, mwrite_at by len_lia. rewrite bind_ok.
  assert (drop (length a) (0 :: drop (S (length hd)) buf) =
    match length a with O => 0 :: drop (S (length hd)) buf | S n => drop (S (length hd) + n) buf end) as ->.
  { destruct (length a) as [|n]; [done|]. cbn [drop]. by rewrite drop_drop. }
  assert (exists x y t, (match length a with O => 0 :: drop (S (length hd)) buf | S n => drop (S (length hd) + n) buf end)
     = x :: y :: t /\ t = drop (length (bulk a)) buf) as (x & y & t & -> & Ht).
  { rewrite bulk_length. destruct (length a) as [|n].
    - destruct (buf_cons buf (S (length hd))) as (y & t & Hy); [lia|]. rewrite Hy. exists 0, y, t. split; [done|].
      change t with (drop 1 (y :: t)). rewrite <- Hy, drop_drop. f_equal; lia.
    - destruct (buf_cons buf (S (length hd) + n)) as (x & t & Hx); [lia|].
      destruct (buf_cons buf (S (length hd) + n + 1)) as (y & t' & Hy); [lia|].
      assert (t = y :: t') as ->.
      { change t with (drop 1 (x :: t)). by rewrite <- Hx, drop_drop. }
      exists x, y, t'. split; [done|]. change t' with (drop 1 (y :: t')). rewrite <- Hy, drop_drop. f_equal; lia. }
  rewrite app_assoc. rewrite wrZ_at by len_lia. rewrite bind_ok.
  change (?l ++ 13 :: y :: t) with (l ++ [13] ++ y :: t). rewrite app_assoc, wrZ_at by len_lia. rewrite bind_ok.
  f_equal; [|rewrite Hb; unfold crlf; len_lia]. rewrite Ht, Hb. unfold crlf. by rewrite <- !app_assoc.
Qed.

Lemma format_args_ok argv : forall out buf,
  (length (concat (bulk <$> argv)) < length buf)%nat ->
  format_args (out ++ buf) (Z.of_nat (length out)) argv =
  Ok (out ++ concat (bulk <$> argv) ++ drop (length (concat (bulk <$> argv))) buf,
      Z.of_nat (length (out ++ concat (bulk <$> argv)))).
Proof.
  induction argv as [|a argv IH]; intros out buf Hl.
  - cbn. rewrite app_nil_r. done.
  - change (concat (bulk <$> a :: argv)) with (bulk a ++ concat (bulk <$> argv)) in *. rewrite length_app in Hl.
    rewrite format_arg_ok by (done || lia). rewrite IH by len_lia.
    rewrite <- !app_assoc, drop_drop, <- length_app. done.
Qed.

Lemma intlen_loop_ok fuel : forall i len, 0 <= i -> (length (udec i) <= fuel)%nat ->
  intlen_loop fuel i len = len + Z.of_nat (length (udec i)).
Proof.
  induction fuel as [|fuel IH]; intros i len Hi Hf.
  - rewrite udec_unfold in Hf by done. destruct (i <? 10); [cbn in Hf; lia|]. rewrite length_app in Hf. cbn in Hf. lia.
  - cbn [intlen_loop]. rewrite Z.quot_div_nonneg by lia. rewrite udec_unfold in Hf |- * by done.
    destruct (Z.ltb_spec i 10) as [Hs|Hs].
    + rewrite Z.div_small by lia. cbn. lia.
    + rewrite length_app in *. cbn [length] in *.
      assert (0 < i / 10) by (apply Z.div_str_pos; lia).
      destruct (Z.eqb_spec (i / 10) 0); [lia|]. rewrite IH by lia. lia.
Qed.

Lemma intlen_ok n : 0 <= n < 2 ^ 31 -> intlen n = Z.of_nat (length (udec n)).
Proof.
  intros Hn. unfold intlen. rewrite s32_small by lia. destruct (Z.ltb_spec n 0); [lia|].
  rewrite intlen_loop_ok; [lia|lia|]. apply udec_length_bound; [lia|lia|].
  change (10 ^ Z.of_nat 11) with 100000000000. lia.
Qed.

Lemma bulklen_ok a : Z.of_nat (length a) < 2 ^ 31 -> bulklen (Z.of_nat (length a)) = Z.of_nat (length (bulk a)).
Proof. intros H. unfold bulklen. rewrite intlen_ok by lia. rewrite bulk_length. lia. Qed.

Lemma totlen_ok argv : forall t,
  0 <= t -> t + Z.of_nat (length (concat (bulk <$> argv))) < 2 ^ 31 ->
  foldl (fun t a => s32 (t + bulklen (Z.of_nat (length a)))) t argv = t + Z.of_nat (length (concat (bulk <$> argv))).
Proof.
  induction argv as [|a argv IH]; intros t Ht Hl; [cbn; lia|].
  change (concat (bulk <$> a :: argv)) with (bulk a ++ concat (bulk <$> argv)) in *. rewrite length_app in *.
  cbn [foldl]. pose proof (bulk_length a). rewrite bulklen_ok by lia. rewrite s32_small by lia. rewrite IH by lia. lia.
Qed.

(** The formatted command is the encoding of its arguments, in a buffer of the
    right size. *)
Lemma format_command_ok argv :
  Z.of_nat (length (resp_encode argv)) < 2 ^ 31 ->
  redisFormatCommandArgv argv = Ok (resp_encode argv ++ [0], Z.of_nat (length (resp_encode argv))).
Proof.
  intros Hl. unfold redisFormatCommandArgv. set (hd := [42] ++ dec (Z.of_nat (length argv)) ++ crlf).
  assert (resp_encode argv = hd ++ concat (bulk <$> argv)) as Hr by (unfold resp_encode, hd; by rewrite <- !app_assoc).
  rewrite Hr, length_app in *.
  assert (Z.of_nat (length argv) < 2 ^ 31) as Hn.
  { assert (length argv <= length (concat (bulk <$> argv)))%nat; [|lia].
    clear. induction argv as [|a argv IH]; [done|].
    change (concat (bulk <$> a :: argv)) with (bulk a ++ concat (bulk <$> argv)). rewrite length_app, bulk_length. cbn. lia. }
  assert (1 + intlen (Z.of_nat (length argv)) + 2 = Z.of_nat (length hd)) as Hhd.
  { rewrite intlen_ok by lia. unfold hd, dec. destruct (Z.ltb_spec (Z.of_nat (length argv)) 0); [lia|]. unfold crlf. len_lia. }
  rewrite Hhd, totlen_ok by lia.
  set (n := Z.of_nat (length hd) + _).
  pose proof (put_str_ok [] (replicate (Z.to_nat (n + 1)) 0) hd 0 eq_refl ltac:(unfold n; len_lia)) as Hp.
  cbn [app] in Hp. rewrite Hp, bind_ok, Z.add_0_l.
  rewrite format_args_ok by (unfold n; len_lia). rewrite bind_ok.
  assert (Z.of_nat (length (hd ++ concat (bulk <$> argv))) = n) as -> by (unfold n; len_lia).
  rewrite Z.eqb_refl. cbn [negb].
  set (tl := drop _ _).
  assert (exists x, tl = [x]) as [x ->].
  { assert (length tl = 1%nat) as Ht by (unfold tl, n; len_lia). destruct tl as [|x [|y t]]; try done. eauto. }
  rewrite app_assoc, wrZ_at by (unfold n; len_lia). rewrite bind_ok. unfold n. repeat f_equal. lia.
Qed.

(** ** Parsing an encoded request *)

Lemma strchr_prefix s c t : c <> 0 -> no_nul s -> c ∉ s -> strchr (cstr (s ++ c :: t)) c = Some (length s).
Proof.
  intros Hc Hs. induction Hs as [|x s Hx Hs IH]; intros Hn; cbn.
  - destruct (Z.eqb_spec c 0); [done|]. cbn. by rewrite Z.eqb_refl.
  - destruct (Z.eqb_spec x 0); [done|]. cbn. destruct (Z.eqb_spec x c) as [->|]; [set_solver|].
    by rewrite IH by set_solver.
Qed.

Lemma sds_mem_split q : sds_ok q -> exists t, sds_mem q = sdsval q ++ 0 :: t.
Proof.
  intros Hq. destruct Hq as [H1 H2 H3 H4]. exists (drop (S (Z.to_nat (sds_len q))) (sds_mem q)).
  unfold sdsval. by rewrite take_drop_middle.
Qed.

(** What the buffer holds from an offset on. *)
Lemma mem_window q pos w :
  sds_ok q -> 0 <= pos <= sds_len q -> drop (Z.to_nat pos) (sdsval q) = w ->
  exists t, drop (Z.to_nat pos) (sds_mem q) = w ++ 0 :: t.
Proof.
  intros Hq Hp <-. destruct (sds_mem_split q Hq) as [t Ht]. exists t. rewrite Ht.
  pose proof (sdsval_length q Hq). by rewrite drop_app_le by lia.
Qed.

Lemma window_length q pos w :
  sds_ok q -> 0 <= pos <= sds_len q -> drop (Z.to_nat pos) (sdsval q) = w ->
  Z.of_nat (length w) = sds_len q - pos.
Proof. intros Hq Hp <-. pose proof (sdsval_length q Hq). len_lia. Qed.

Lemma udec_no_cr n : 0 <= n -> 13 ∉ udec n.
Proof.
  intros Hn Hin. pose proof (udec_digits n Hn) as Hd. rewrite Forall_forall in Hd. by apply Hd in Hin.
Qed.

Lemma querybuf_strchr_ok q pos s t :
  sds_ok q -> 0 <= pos <= sds_len q -> drop (Z.to_nat pos) (sdsval q) = s ++ 13 :: t ->
  no_nul s -> 13 ∉ s -> querybuf_strchr q pos 13 = Some (pos + Z.of_nat (length s)).
Proof.
  intros Hq Hp Hw Hs Hn. destruct (mem_window q pos _ Hq Hp Hw) as [t' Ht]. unfold querybuf_strchr.
  rewrite Ht, <- app_assoc. cbn [app]. by rewrite strchr_prefix.
Qed.

Lemma mread_window m p w t off n :
  (p <= length m)%nat -> drop p m = w ++ t -> (off + n <= length w)%nat ->
  mread m (p + off) n = Ok (take n (drop off w)).
Proof.
  intros Hp Hw Hl. assert (length (drop p m) = length (w ++ t)) as HL by (by rewrite Hw).
  rewrite length_drop, length_app in HL. rewrite mread_ok by lia. f_equal.
  rewrite <- drop_drop, Hw. rewrite drop_app_le by lia. by rewrite take_app_le by len_lia.
Qed.

Lemma rdZ_window m p c w : 0 <= p -> drop (Z.to_nat p) m = c :: w -> rdZ m p = Ok c.
Proof.
  intros Hp Hw. unfold rdZ. rewrite decide_True by done. unfold rd.
  assert (m !! Z.to_nat p = Some c) as ->; [|done].
  rewrite <- (Nat.add_0_r (Z.to_nat p)), <- lookup_drop, Hw. done.
Qed.

(** Dropping the head of the buffer. *)
Lemma sdsrange_from q pos :
  sds_ok q -> sds_len q < 2 ^ 31 -> 0 <= pos <= sds_len q ->
  exists q', sdsrange q pos (-1) = Ok q' /\ sds_ok q' /\ sdsval q' = drop (Z.to_nat pos) (sdsval q) /\
    sds_len q' = sds_len q - pos.
Proof.
  intros Hq Hl Hp. destruct (sdsrange_ok q pos (-1) Hq Hl ltac:(lia) ltac:(lia)) as (q' & H1 & H2 & H3).
  pose proof (sdsval_length q Hq) as HL. pose proof (sdsval_length q' H2) as HL'.
  assert (sdsval q' = drop (Z.to_nat pos) (sdsval q)) as Hv.
  { rewrite H3. unfold range_index. destruct (Z.ltb_spec pos 0); [lia|]. cbn [Z.ltb Z.compare].
    apply take_ge. len_lia. }
  exists q'. split_and!; try done. rewrite <- HL', Hv. len_lia.
Qed.

Section ParseSpec.
Variable junk : Z.
Variable sdsZmallocSize : sds -> Z.
Variable embeddedSize : sds -> Z.
Variable client_obuf_limits : client_type -> obuf_limits.
Variable unixtime : Z.

(** [pos] is an offset of the query buffer, and [w] what follows it. *)
Definition at_window (c : reqst) (pos : Z) (w : bytes) : Prop :=
  sds_ok (q_querybuf c) /\ sds_len (q_querybuf c) < 2 ^ 31 /\ 0 <= pos <= sds_len (q_querybuf c) /\
  drop (Z.to_nat pos) (sdsval (q_querybuf c)) = w.

Lemma string2ll_udec n : 0 <= n < 2 ^ 63 -> string2ll (udec n) = Some n.
Proof.
  intros Hn. apply string2ll_iff. unfold LLONG_MIN, LLONG_MAX. split; [|lia].
  unfold dec. by destruct (Z.ltb_spec n 0); [lia|].
Qed.

(** The header of a bulk argument. *)
Lemma read_bulk_len_ok c pos a rest :
  at_window c pos (bulk a ++ rest) -> Z.of_nat (length a) <= 512 * 1024 * 1024 ->
  exists c' pos', read_bulk_len junk sdsZmallocSize embeddedSize client_obuf_limits unixtime c pos = Ok (BulkLen c' pos') /\
    at_window c' pos' (a ++ crlf ++ rest) /\ q_argv c' = q_argv c /\ q_multibulklen c' = q_multibulklen c /\
    q_bulklen c' = Z.of_nat (length a) /\ q_out c' = q_out c /\ q_reqtype c' = q_reqtype c /\ q_asking c' = q_asking c.
Proof.
  intros (Hq & Hl & Hp & Hw) Ha. unfold read_bulk_len.
  set (n := Z.of_nat (length a)) in *. set (d := udec n).
  assert (bulk a ++ rest = (36 :: d) ++ 13 :: 10 :: a ++ crlf ++ rest) as Hb.
  { unfold bulk, crlf. fold n. fold d. rewrite <- !app_assoc. done. }
  rewrite Hb in Hw. pose proof (window_length _ _ _ Hq Hp Hw) as HL. rewrite length_app in HL. cbn [length] in HL.
  assert (0 <= n) as Hn0 by (unfold n; lia).
  assert (no_nul d) as Hdn by (by apply udec_no_nul).
  assert (13 ∉ 36 :: d) as Hdc by (pose proof (udec_no_cr n Hn0); set_solver).
  rewrite (querybuf_strchr_ok _ _ _ _ Hq Hp Hw) by (done || by constructor).
  unfold sdslen. rewrite s32_small by lia.
  destruct (Z.gtb_spec (pos + Z.of_nat (length (36 :: d))) (sds_len (q_querybuf c) - 2)) as [Hgt|_]; [cbn [length] in Hgt; lia|].
  destruct (mem_window _ _ _ Hq Hp Hw) as [t Ht].
  rewrite (rdZ_window _ _ 36 (d ++ 13 :: 10 :: (a ++ crlf ++ rest) ++ 0 :: t)) by (lia || (rewrite Ht, <- app_assoc; done)).
  rewrite bind_ok. cbn [Z.eqb negb Pos.eqb].
  replace (Z.to_nat (pos + 1)) with (Z.to_nat pos + 1)%nat by lia.
  replace (Z.to_nat (pos + Z.of_nat (length (36 :: d)) - (pos + 1))) with (length d) by (cbn [length]; lia).
  pose proof (sds_ok_mem _ Hq). pose proof (sds_ok_len _ Hq).
  assert (Z.to_nat pos <= length (sds_mem (q_querybuf c)))%nat as Hpm by lia.
  rewrite (mread_window _ _ _ _ 1 (length d) Hpm Ht) by len_lia. rewrite bind_ok.
  change (drop 1 ((36 :: d) ++ ?x)) with (d ++ x). rewrite take_app_length. unfold d at 1. rewrite string2ll_udec by lia.
  destruct (Z.ltb_spec n 0); [lia|]. destruct (Z.gtb_spec n (512 * 1024 * 1024)); [lia|]. cbn [orb].
  replace (pos + (pos + Z.of_nat (length (36 :: d)) - pos) + 2) with (pos + Z.of_nat (length (36 :: d)) + 2) by lia.
  set (pos1 := pos + _ + 2).
  assert (0 <= pos1 <= sds_len (q_querybuf c)) as Hp1 by (unfold pos1; cbn [length]; lia).
  assert (drop (Z.to_nat pos1) (sdsval (q_querybuf c)) = a ++ crlf ++ rest) as Hw1.
  { replace (Z.to_nat pos1) with (Z.to_nat pos + (length (36 :: d)%Z + 2))%nat by (unfold pos1; lia).
    rewrite <- drop_drop, Hw, <- drop_drop, drop_app_length. done. }
  unfold big_arg_room. destruct (n >=? PROTO_MBULK_BIG_ARG).
  - destruct (sdsrange_from _ pos1 Hq Hl Hp1) as (q1 & -> & Hq1 & Hv1 & Hl1). rewrite bind_ok. unfold sdslen.
    assert (exists q2, (if sds_len q1 <? n + 2 then sdsMakeRoomFor junk q1 (n + 2 - sds_len q1) else Ok q1) = Ok q2 /\
      sds_ok q2 /\ sdsval q2 = sdsval q1 /\ sds_len q2 = sds_len q1) as (q2 & -> & Hq2 & Hv2 & Hl2).
    { destruct (Z.ltb_spec (sds_len q1) (n + 2)); [|by exists q1].
      destruct (sdsMakeRoomFor_ok junk q1 (n + 2 - sds_len q1) Hq1 ltac:(lia) ltac:(lia)) as (q2 & ? & ? & ? & ? & _).
      by exists q2. }
    rewrite !bind_ok. eexists _, _. split; [reflexivity|]. pose proof (sds_ok_len _ Hq2).
    split_and!; try done; cbn [with_args with_querybuf q_querybuf]; try lia.
    unfold at_window. cbn [with_args with_querybuf q_querybuf]. split_and!; try done; try lia. by rewrite Hv2, Hv1.
  - rewrite bind_ok. eexists _, _. split; [reflexivity|]. split_and!; try done; split_and!; (done || lia).
Qed.

(** The argument itself. *)
Lemma read_bulk_arg_ok c pos a rest :
  at_window c pos (a ++ crlf ++ rest) -> q_bulklen c = Z.of_nat (length a) ->
  exists c' pos' o, read_bulk_arg junk c pos = Ok (c', pos') /\
    at_window c' pos' rest /\ q_argv c' = q_argv c ++ [o] /\ node_ok o /\ objval o = Some a /\
    q_multibulklen c' = q_multibulklen c - 1 /\ q_bulklen c' = -1 /\ q_out c' = q_out c /\
    q_reqtype c' = q_reqtype c /\ q_asking c' = q_asking c.
Proof.
  intros (Hq & Hl & Hp & Hw) Hb. unfold read_bulk_arg. rewrite Hb. set (n := Z.of_nat (length a)) in *.
  pose proof (window_length _ _ _ Hq Hp Hw) as HL. rewrite !length_app in HL. change (length crlf) with 2%nat in HL.
  pose proof (sds_ok_mem _ Hq). pose proof (sds_ok_len _ Hq). pose proof (sds_ok_limit _ Hq). unfold sdslen.
  destruct ((pos =? 0) && (n >=? PROTO_MBULK_BIG_ARG) && (s32 (sds_len (q_querybuf c)) =? n + 2)) eqn:E.
  - apply andb_true_iff in E as [[E1%Z.eqb_eq E2%Z.geb_le]%andb_true_iff E3%Z.eqb_eq].
    rewrite s32_small in E3 by lia. unfold PROTO_MBULK_BIG_ARG in E2. subst pos.
    assert (rest = []) as -> by (destruct rest; [done|cbn [length] in HL; lia]).
    destruct (sdsIncrLen_ok (q_querybuf c) (-2) Hq) as (arg & -> & Harg & Hargl & Hargv).
    { intros Et. unfold sdsalloc in *. rewrite Et in *. cbn in *. lia. } { lia. }
    rewrite bind_ok. destruct (sdsnewlen_none junk (n + 2)) as (q1 & -> & Hq1 & _); [lia|]. rewrite bind_ok.
    destruct (sdsclear_ok q1 Hq1) as (q2 & -> & Hq2 & Hv2 & _). rewrite bind_ok.
    pose proof (sdsval_length q2 Hq2) as Hl2. rewrite Hv2 in Hl2. cbn in Hl2.
    eexists _, _, _. split; [reflexivity|]. split_and!; try done.
    + unfold at_window. cbn [with_args with_querybuf q_querybuf]. rewrite Hv2. split_and!; (done || lia).
    + split; [|done]. split; [done|]. split; [cbn; lia|]. cbn. eauto.
    + cbn. rewrite Hargv. f_equal. replace (Z.to_nat (sds_len (q_querybuf c) + -2)) with (length a) by lia.
      destruct (sds_mem_split _ Hq) as [t Ht]. change (Z.to_nat 0) with 0%nat in Hw. rewrite drop_0 in Hw.
      rewrite Ht, Hw, <- app_assoc. by rewrite take_app_length.
  - destruct (mem_window _ _ _ Hq Hp Hw) as [t Ht].
    assert (Z.to_nat pos <= length (sds_mem (q_querybuf c)))%nat as Hpm by lia.
    pose proof (mread_window _ _ _ _ 0 (Z.to_nat n) Hpm Ht ltac:(len_lia)) as Hm. rewrite Nat.add_0_r, drop_0 in Hm.
    assert (take (Z.to_nat n) (a ++ crlf ++ rest) = a) as Hta by (unfold n; rewrite Nat2Z.id; apply take_app_length).
    rewrite Hta in Hm. rewrite Hm, bind_ok.
    destruct (createStringObject_ok junk a n) as (o & -> & Ho & Hv & x & Hx & _); [lia|lia|]. rewrite bind_ok.
    unfold n in Hv. rewrite Nat2Z.id, firstn_all in Hv.
    eexists _, _, _. split; [reflexivity|]. split_and!; try done; [|by apply (strobj_node o x)].
    unfold at_window. cbn [with_args q_querybuf]. split_and!; try (done || lia).
    replace (Z.to_nat (pos + n + 2)) with (Z.to_nat pos + (length a + 2))%nat by lia.
    rewrite <- drop_drop, Hw, <- drop_drop, drop_app_length. done.
Qed.

(** All the arguments. *)
Lemma multibulk_loop_ok args rest : forall fuel c pos,
  at_window c pos (concat (bulk <$> args) ++ rest) ->
  Forall (fun a => Z.of_nat (length a) <= 512 * 1024 * 1024) args ->
  q_multibulklen c = Z.of_nat (length args) -> q_bulklen c = -1 -> (length args < fuel)%nat ->
  exists c' pos' objs,
    multibulk_loop junk sdsZmallocSize embeddedSize client_obuf_limits unixtime fuel c pos = Ok (c', Some pos') /\
    at_window c' pos' rest /\ q_argv c' = q_argv c ++ objs /\ Forall node_ok objs /\
    objval <$> objs = Some <$> args /\ q_multibulklen c' = 0 /\ q_bulklen c' = -1 /\ q_out c' = q_out c /\
    q_reqtype c' = q_reqtype c /\ q_asking c' = q_asking c.
Proof.
  induction args as [|a args IH]; intros fuel c pos Hw Ha Hm Hb Hf; (destruct fuel as [|fuel]; [cbn in Hf; lia|]);
    cbn [multibulk_loop].
  - rewrite Hm. cbn. exists c, pos, []. rewrite app_nil_r. split_and!; done.
  - rewrite Hm, Hb. cbn [length] in *. destruct (Z.eqb_spec (Z.of_nat (S (length args))) 0); [lia|].
    rewrite Z.eqb_refl. inversion_clear Ha as [|? ? Ha1 Ha2].
    change (concat (bulk <$> a :: args)) with (bulk a ++ concat (bulk <$> args)) in Hw. rewrite <- app_assoc in Hw.
    destruct (read_bulk_len_ok c pos a _ Hw Ha1) as (c1 & pos1 & -> & Hw1 & E1 & E2 & E3 & E4 & E5 & E6). rewrite bind_ok.
    assert (Hw1' := Hw1). destruct Hw1' as (Hq1 & Hl1 & Hp1 & Hv1).
    pose proof (window_length _ _ _ Hq1 Hp1 Hv1) as HL. rewrite !length_app in HL. change (length crlf) with 2%nat in HL.
    unfold sdslen. rewrite u64_small by lia. rewrite u32_small by lia. rewrite E3.
    destruct (Z.ltb_spec (sds_len (q_querybuf c1) - pos1) (Z.of_nat (length a) + 2)); [lia|].
    destruct (read_bulk_arg_ok c1 pos1 a _ Hw1 E3) as (c2 & pos2 & o & -> & Hw2 & F1 & F2 & F3 & F4 & F5 & F6 & F7 & F8).
    rewrite bind_ok.
    destruct (IH fuel c2 pos2 Hw2 Ha2 ltac:(lia) F5 ltac:(lia)) as (c3 & pos3 & objs & -> & G).
    destruct G as (G1 & G2 & G3 & G4 & G5 & G6 & G7 & G8 & G9).
    exists c3, pos3, (o :: objs). rewrite G2, F1, E1, G7, F6, E4, G8, F7, E5, G9, F8, E6.
    split_and!; try done; [by rewrite <- app_assoc|by constructor|cbn; by rewrite F3, G4].
Qed.

(** An encoded request in the buffer is parsed to its arguments, and what
    follows it stays in the buffer. *)
Lemma multibulk_ok c args rest :
  at_window c 0 (resp_encode args ++ rest) -> q_multibulklen c = 0 -> q_bulklen c = -1 -> q_argv c = [] ->
  args <> [] -> Z.of_nat (length args) <= 1024 * 1024 ->
  Forall (fun a => Z.of_nat (length a) <= 512 * 1024 * 1024) args ->
  exists c' objs,
    processMultibulkBuffer junk sdsZmallocSize embeddedSize client_obuf_limits unixtime c = Ok (c', true) /\
    q_argv c' = objs /\ Forall node_ok objs /\ objval <$> objs = Some <$> args /\
    sds_ok (q_querybuf c') /\ sdsval (q_querybuf c') = rest /\
    q_multibulklen c' = 0 /\ q_bulklen c' = -1 /\ q_out c' = q_out c /\ q_reqtype c' = q_reqtype c /\ q_asking c' = q_asking c.
Proof.
  intros (Hq & Hl & Hp & Hw) Hm Hb Hargv Hne Hn Ha. unfold processMultibulkBuffer. rewrite Hm. cbn [Z.eqb].
  unfold q_argc. rewrite Hargv. cbn [length Z.of_nat Z.eqb negb].
  set (n := Z.of_nat (length args)) in *. set (d := udec n).
  assert (0 <= n) as Hn0 by (unfold n; lia). assert (0 < n) as Hn1 by (destruct args; [done|unfold n; cbn; lia]).
  assert (resp_encode args ++ rest = (42 :: d) ++ 13 :: 10 :: concat (bulk <$> args) ++ rest) as Hr.
  { unfold resp_encode, crlf, dec. fold n. destruct (Z.ltb_spec n 0); [lia|]. fold d. by rewrite <- !app_assoc. }
  rewrite Hr in Hw. pose proof (window_length _ _ _ Hq Hp Hw) as HL. rewrite length_app in HL. cbn [length] in HL.
  assert (no_nul (42 :: d)) as Hdn by (constructor; [done|by apply udec_no_nul]).
  assert (13 ∉ 42 :: d) as Hdc by (pose proof (udec_no_cr n Hn0); set_solver).
  rewrite (querybuf_strchr_ok _ _ _ _ Hq Hp Hw Hdn Hdc). rewrite Z.add_0_l. unfold sdslen. rewrite s32_small by lia.
  destruct (Z.gtb_spec (Z.of_nat (length (42 :: d))) (sds_len (q_querybuf c) - 2)) as [Hgt|_]; [cbn [length] in Hgt; lia|].
  destruct (mem_window _ _ _ Hq Hp Hw) as [t Ht].
  rewrite (rdZ_window _ _ 42 (d ++ 13 :: 10 :: (concat (bulk <$> args) ++ rest) ++ 0 :: t)) by (lia || (rewrite Ht, <- app_assoc; done)).
  rewrite bind_ok. cbn [Z.eqb negb Pos.eqb].
  replace (Z.to_nat (Z.of_nat (length (42 :: d)) - 1)) with (length d) by (cbn [length]; lia).
  pose proof (sds_ok_mem _ Hq). pose proof (sds_ok_len _ Hq).
  assert (Z.to_nat 0 <= length (sds_mem (q_querybuf c)))%nat as Hpm by lia.
  pose proof (mread_window _ _ _ _ 1 (length d) Hpm Ht ltac:(len_lia)) as Hmr.
  change (Z.to_nat 0 + 1)%nat with 1%nat in Hmr. rewrite Hmr, bind_ok.
  change (drop 1 ((42 :: d) ++ ?x)) with (d ++ x). rewrite take_app_length. unfold d at 1. rewrite string2ll_udec by lia.
  destruct (Z.gtb_spec n (1024 * 1024)); [lia|]. destruct (Z.leb_spec n 0); [lia|].
  set (c1 := with_args c _ n _). unfold multibulk_args. change (q_multibulklen c1) with n.
  destruct (Z.gtb_spec n 0); [|lia]. cbn [negb]. set (pos1 := Z.of_nat (length (42 :: d)) + 2).
  assert (at_window c1 pos1 (concat (bulk <$> args) ++ rest)) as Hw1.
  { unfold at_window, pos1. cbn [c1 with_args q_querybuf length]. split_and!; try (done || lia).
    replace (Z.to_nat (Z.of_nat (S (length d)) + 2)) with (length (42 :: d)%Z + 2)%nat by (cbn [length]; lia).
    change (Z.to_nat 0) with 0%nat in Hw. rewrite drop_0 in Hw. rewrite Hw, <- drop_drop, drop_app_length. done. }
  destruct (multibulk_loop_ok args rest (S (Z.to_nat n)) c1 pos1 Hw1 Ha) as (c2 & pos2 & objs & -> & G);
    [done|done|unfold n; lia|].
  destruct G as ((Hq2 & Hl2 & Hp2 & Hv2) & G2 & G3 & G4 & G5 & G6 & G7 & G8 & G9). rewrite bind_ok.
  assert (exists q', (if negb (pos2 =? 0) then sdsrange (q_querybuf c2) pos2 (-1) else Ok (q_querybuf c2)) = Ok q' /\
    sds_ok q' /\ sdsval q' = rest) as (q' & -> & Hq' & Hv').
  { destruct (Z.eqb_spec pos2 0) as [->|]; cbn [negb].
    - exists (q_querybuf c2). by split_and!.
    - destruct (sdsrange_from _ pos2 Hq2 Hl2 Hp2) as (q' & ? & ? & ? & _). exists q'. split_and!; try done. congruence. }
  rewrite bind_ok. cbn [with_querybuf q_multibulklen]. rewrite G5. cbn [Z.eqb].
  eexists _, objs. split; [reflexivity|]. cbn. rewrite G2. split_and!; done.
Qed.

(** *** One request *)

Definition idle (c : reqst) : Prop :=
  q_reqtype c = 0 /\ q_argv c = [] /\ q_multibulklen c = 0 /\ q_bulklen c = -1 /\
  flag (q_out c) CLIENT_BLOCKED = false /\ flag (q_out c) CLIENT_CLOSE_AFTER_REPLY = false.

Context {server : Type}.
Variable processCommand : server -> reqst -> res (server * option (reqst * bool)).

(** A buffer that holds one encoded request: the command is processed with its
    arguments, once, and the client is reset. *)
Lemma processInputBuffer_one fuel s c args (Q : server -> reqst -> Prop) :
  at_window c 0 (resp_encode args) -> idle c -> args <> [] -> Z.of_nat (length args) <= 1024 * 1024 ->
  Forall (fun a => Z.of_nat (length a) <= 512 * 1024 * 1024) args ->
  (forall c1, Forall node_ok (q_argv c1) -> objval <$> q_argv c1 = Some <$> args ->
     sds_ok (q_querybuf c1) -> sdsval (q_querybuf c1) = [] -> q_multibulklen c1 = 0 -> q_bulklen c1 = -1 ->
     q_out c1 = q_out c ->
     exists s' c2, processCommand s c1 = Ok (s', Some (c2, true)) /\ q_querybuf c2 = q_querybuf c1 /\ Q s' c2) ->
  exists s' c2, processInputBuffer junk sdsZmallocSize embeddedSize client_obuf_limits unixtime
      processCommand false (S (S fuel)) s c = Ok (s', Some (resetClient c2)) /\
    sds_ok (q_querybuf c2) /\ sdsval (q_querybuf c2) = [] /\ Q s' c2.
Proof.
  intros Hw (I1 & I2 & I3 & I4 & I5 & I6) Hne Hn Ha Hcmd.
  pose proof Hw as (Hq & Hl & Hp & Hv). change (Z.to_nat 0) with 0%nat in Hv. rewrite drop_0 in Hv.
  pose proof (sdsval_length _ Hq) as HL. rewrite Hv in HL.
  assert (exists t, resp_encode args = 42 :: t) as [t Ht] by (eexists; reflexivity).
  unfold processInputBuffer at 1. fold (processInputBuffer junk sdsZmallocSize embeddedSize client_obuf_limits unixtime
    processCommand false).
  destruct (Z.eqb_spec (sdslen (q_querybuf c)) 0) as [E|_]; [unfold sdslen in E; rewrite Ht in HL; cbn in HL; lia|].
  rewrite andb_false_r, I5, I6, I1. cbn [Z.eqb].
  destruct (sds_mem_split _ Hq) as [tl Hm]. rewrite Hm, Hv, Ht.
  rewrite (rdZ_window _ 0 42 (t ++ 0 :: tl)) by done. rewrite bind_ok.
  cbn [Z.eqb Pos.eqb].
  set (c0 := with_reqtype c PROTO_REQ_MULTIBULK). change (q_reqtype c0) with PROTO_REQ_MULTIBULK. cbn [Z.eqb Pos.eqb PROTO_REQ_MULTIBULK PROTO_REQ_INLINE].
  rewrite <- (app_nil_r (resp_encode args)) in Hw.
  destruct (multibulk_ok c0 args []) as (c1 & objs & -> & Ho & Hso & Hov & Hq1 & Hv1 & Hm1 & Hb1 & Ho1 & _); [done..|].
  rewrite bind_ok. cbn [negb]. rewrite <- Ho in Hso, Hov.
  destruct (Z.eqb_spec (q_argc c1) 0) as [E|_].
  { unfold q_argc in E. destruct (q_argv c1); [|cbn in E; lia]. by destruct args. }
  destruct (Hcmd c1 Hso Hov Hq1 Hv1 Hm1 Hb1 Ho1) as (s' & c2 & -> & Hq2 & HQ). rewrite bind_ok.
  exists s', c2. rewrite Hq2. split_and!; try done. cbn [processInputBuffer resetClient q_querybuf]. rewrite Hq2.
  unfold sdslen. rewrite <- (sdsval_length _ Hq1), Hv1. done.
Qed.
End ParseSpec.

(** ** Inline requests *)

Lemma make_args_ok junk args : Forall (fun a => Z.of_nat (length a) < 2 ^ 63) args ->
  exists objs, make_args junk args = Ok objs /\ objval <$> objs = Some <$> filter (fun a => a <> []) args /\ Forall node_ok objs.
Proof.
  induction 1 as [|a args Ha _ (objs & E & Hv & Hn)]; cbn [make_args]; [by exists []|]. rewrite E, bind_ok.
  destruct (decide (a = [])) as [->|Hne]; [exists objs; by rewrite filter_cons_False by auto|].
  destruct (Nat.eqb_spec (length a) 0) as [Hz%length_zero_iff_nil|]; [done|].
  destruct (sdsnewlen_ok junk a (Z.of_nat (length a))) as (s & -> & Hs & Hsv & _); [lia|lia|]. rewrite bind_ok, Nat2Z.id, firstn_all in *.
  eexists. split; [reflexivity|]. rewrite filter_cons_True by done. cbn [fmap list_fmap]. rewrite Hv.
  split; [f_equal; cbn; by rewrite Hsv|]. constructor; [|done]. split; [|done]. split; [done|]. split; [cbn; lia|]. cbn. eauto.
Qed.

(** The line is split and [querylen+2] bytes are dropped. *)
Lemma inline_ok junk zs es limits unixtime c args eol rest :
  sds_ok (q_querybuf c) -> sds_len (q_querybuf c) < 2 ^ 31 - 1 -> Forall (Forall byte) args ->
  eol = [13; 10] \/ eol = [10] -> sdsval (q_querybuf c) = print_args args ++ eol ++ rest ->
  exists q objs, processInlineBuffer junk zs es limits unixtime c =
      Ok (with_args (with_querybuf c q) objs (q_multibulklen c) (q_bulklen c), true) /\
    sds_ok q /\ sdsval q = drop 2 (eol ++ rest) /\
    objval <$> objs = Some <$> filter (fun a => a <> []) args /\ Forall node_ok objs.
Proof.
  intros Hq Hlq Hargs Heol Hv. unfold processInlineBuffer. set (q := q_querybuf c) in *. set (line := print_args args) in *.
  pose proof (print_args_plain args Hargs) as Hplain. fold line in Hplain.
  destruct (sds_mem_split q Hq) as [t Ht]. rewrite Hv in Ht. pose proof (sdsval_length q Hq) as Hl. rewrite Hv in Hl.
  assert (exists pre, eol = pre ++ [10] /\ (pre = [] \/ pre = [13])) as (pre & -> & Hpre)
    by (destruct Heol as [-> | ->]; [by exists [13]; auto|by exists []; auto]).
  rewrite <- !app_assoc in *. cbn [app] in *.
  assert (querybuf_strchr q 0 10 = Some (Z.of_nat (length (line ++ pre)))) as ->.
  { unfold querybuf_strchr. change (Z.to_nat 0) with 0%nat. rewrite drop_0, Ht, app_assoc.
    rewrite strchr_prefix; [done|done| |].
    - apply Forall_app. split; [eapply Forall_impl; [exact Hplain|cbn; tauto]|]. destruct Hpre as [-> | ->]; repeat constructor; done.
    - rewrite elem_of_app. intros [H|H]; [|destruct Hpre as [-> | ->]; set_solver]. rewrite Forall_forall in Hplain. by apply Hplain in H as (_ & ? & _). }
  set (newline := Z.of_nat (length (line ++ pre))).
  assert (exists prev, (if newline =? 0 then Ok 0 else rdZ (sds_mem q) (newline - 1)) = Ok prev /\
    (if negb (newline =? 0) && (prev =? 13) then newline - 1 else newline) = Z.of_nat (length line)) as (prev & -> & Hnl).
  { unfold newline. rewrite length_app, Ht. destruct Hpre as [-> | ->]; cbn [length app].
    - rewrite Nat.add_0_r. destruct (Z.eqb_spec (Z.of_nat (length line)) 0) as [Hz|Hz]; [by exists 0|].
      assert (Z.to_nat (Z.of_nat (length line) - 1) < length line)%nat as [x Hx]%lookup_lt_is_Some_2 by lia.
      pose proof (Forall_lookup_1 _ _ _ _ Hplain Hx) as (_ & _ & Hx13). exists x. split.
      + unfold rdZ, rd. rewrite decide_True by lia. rewrite lookup_app_l by lia. by rewrite Hx.
      + destruct (Z.eqb_spec x 13); [done|]. by rewrite andb_false_r.
    - destruct (Z.eqb_spec (Z.of_nat (length line + 1)) 0); [lia|]. exists 13. split; [|cbn [negb andb]; rewrite Z.eqb_refl; lia].
      unfold rdZ, rd. rewrite decide_True by lia. replace (Z.to_nat (Z.of_nat (length line + 1) - 1)) with (length line) by lia.
      rewrite lookup_app_r by lia. by rewrite Nat.sub_diag. }
  rewrite bind_ok. cbn zeta. rewrite Hnl. rewrite mread_ok by (rewrite Ht, !length_app; cbn; lia). rewrite bind_ok, drop_0, Ht, Nat2Z.id.
  rewrite take_app_length. unfold line. rewrite sdssplitargs_ok, bind_ok by done. fold line.
  pose proof (sdsval_length q Hq) as Hlen. rewrite Hv, !length_app in Hlen.
  assert (length pre <= 1)%nat as Hpl by (destruct Hpre as [-> | ->]; cbn; lia). cbn [length] in Hlen.
  destruct (sdsrange_ok q (Z.of_nat (length line) + 2) (-1) Hq ltac:(lia)) as (q' & -> & Hq' & Hv'); [lia|lia|]. rewrite bind_ok.
  assert (Forall (fun a => Z.of_nat (length a) < 2 ^ 63) args) as Hsm.
  { apply Forall_forall. intros a Hin. pose proof (print_args_bound args a Hin Hargs) as Hb. fold line in Hb. lia. }
  destruct (make_args_ok junk args Hsm) as (objs & -> & Hov & Hno). rewrite bind_ok.
  exists q', objs. split_and!; try done. rewrite Hv', Hv. unfold range_index.
  rewrite (proj2 (Z.ltb_ge (Z.of_nat (length line) + 2) 0)) by lia. change (-1 <? 0) with true. cbv iota. replace (Z.to_nat (Z.of_nat (length line) + 2)) with (length line + 2)%nat by lia.
  rewrite drop_app_add. rewrite take_ge; [done|]. rewrite length_drop, length_app. cbn [length]. lia.
Qed.
