(* ===== verification/KeyDict.v ===== *)
(** * The dictionary interface

    What the key space uses of a dictionary ([src/dict.h]): the operations as a
    class, and their laws with respect to a finite map. The hash tables of
    Dict.v are an instance; so are finite maps themselves. *)

From S2P Require Import Prelude Dict.
Local Open Scope Z_scope.

Class KeyDict (T : Type -> Type) := {
  kd_empty : forall {V}, T V;
  kd_size : forall {V}, T V -> Z;
  kd_find : forall {V}, T V -> bytes -> res (T V * option V);
  kd_add : forall {V}, T V -> bytes -> V -> res (T V * bool);
  kd_replace : forall {V}, T V -> bytes -> V -> res (T V * bool);
  kd_delete : forall {V}, T V -> bytes -> res (T V * bool);
  kd_store : forall {V}, T V -> bytes -> V -> res (T V)      (* a write to the value of an entry *)
}.

(** A dictionary with more entries may fail to grow. *)
Definition KD_MAX : Z := 2 ^ 30.

(** Lookups may reorganise the dictionary, but do not change its map. *)
Class KeyDictLaws (T : Type -> Type) `{KeyDict T} := {
  kd_ok : forall {V}, T V -> Prop;
  kd_map : forall {V}, T V -> gmap bytes V;
  kd_empty_ok : forall V, kd_ok (kd_empty : T V) /\ kd_map (kd_empty : T V) = ∅;
  kd_size_ok : forall V (d : T V), kd_ok d -> kd_size d = Z.of_nat (base.size (kd_map d));
  kd_find_ok : forall V (d : T V) k, kd_ok d ->
    exists d', kd_find d k = Ok (d', kd_map d !! k) /\ kd_ok d' /\ kd_map d' = kd_map d;
  kd_add_ok : forall V (d : T V) k v, kd_ok d -> kd_size d <= KD_MAX ->
    exists d', kd_add d k v = Ok (d', bool_decide (kd_map d !! k = None)) /\ kd_ok d' /\
      kd_map d' = match kd_map d !! k with Some _ => kd_map d | None => <[k := v]> (kd_map d) end;
  kd_replace_ok : forall V (d : T V) k v, kd_ok d -> kd_size d <= KD_MAX ->
    exists d', kd_replace d k v = Ok (d', bool_decide (kd_map d !! k = None)) /\ kd_ok d' /\
      kd_map d' = <[k := v]> (kd_map d);
  kd_delete_ok : forall V (d : T V) k, kd_ok d ->
    exists d', kd_delete d k = Ok (d', bool_decide (is_Some (kd_map d !! k))) /\ kd_ok d' /\
      kd_map d' = delete k (kd_map d);
  kd_store_ok : forall V (d : T V) k v, kd_ok d -> is_Some (kd_map d !! k) ->
    exists d', kd_store d k v = Ok d' /\ kd_ok d' /\ kd_map d' = <[k := v]> (kd_map d)
}.

(** ** The hash tables *)

Section DictInstance.
Variable hash : bytes -> Z.
Variable can_resize : bool.

Definition dict_keydict : KeyDict dict := {|
  kd_empty V := dictCreate;
  kd_size V := dictSize;
  kd_find V := dictFind hash;
  kd_add V := dictAdd hash can_resize;
  kd_replace V := dictReplace hash can_resize;
  kd_delete V := dictGenericDelete hash;
  kd_store V := entry_set_val hash
|}.

Definition dict_keydict_laws : @KeyDictLaws dict dict_keydict.
Proof.
  refine {| kd_ok V := @dict_ok V hash; kd_map V := @dict_map V |}.
  - intros V. split; [|done]. split; cbn; [by apply reset_ok..|done|constructor].
  - intros V d Hd. by apply (dict_map_size hash).
  - intros V d k. by apply dictFind_map.
  - intros V d k v. by apply dictAdd_map.
  - intros V d k v. by apply dictReplace_map.
  - intros V d k. by apply dictDelete_map.
  - intros V d k v. by apply entry_set_val_ok.
Defined.
End DictInstance.

(** ** Finite maps *)

Definition map_keydict : KeyDict (gmap bytes) := {|
  kd_empty V := ∅;
  kd_size V d := Z.of_nat (base.size d);
  kd_find V d k := Ok (d, d !! k);
  kd_add V d k v := match d !! k with Some _ => Ok (d, false) | None => Ok (<[k := v]> d, true) end;
  kd_replace V d k v := Ok (<[k := v]> d, bool_decide (d !! k = None));
  kd_delete V d k := Ok (delete k d, bool_decide (is_Some (d !! k)));
  kd_store V d k v := match d !! k with Some _ => Ok (<[k := v]> d) | None => Fault NullPointer end
|}.

Definition map_keydict_laws : @KeyDictLaws (gmap bytes) map_keydict.
Proof.
  refine {| kd_ok V _ := True; kd_map V d := d |}; cbn; eauto.
  - intros V d k v _ _. destruct (d !! k); eauto.
  - intros V d k v _ [x ->]. eauto.
Defined.

(** ** The key space of a running server *)

(** The hash seed of a server that has not changed it. *)
#[export] Instance server_dict : KeyDict dict := dict_keydict (dictGenHashFunction 5381) true.
#[export] Instance server_dict_laws : KeyDictLaws dict := dict_keydict_laws (dictGenHashFunction 5381) true.
