(* ===== verification/Db.v ===== *)
(** * The key space ([src/db.c])

    A database is two dictionaries: the values, and the times at which keys
    expire. The dictionary is any that has the [KeyDict] interface. What the
    functions tell other parts of the server (replication and AOF, keyspace
    events, WATCH, blocked clients, the cluster's slots) is recorded as a list of
    events. The access time of the values is not modelled. *)

From S2P Require Import Prelude CLib Sds Object Dict KeyDict.
Local Open Scope Z_scope.

Inductive db_event (T : Type -> Type) :=
  | EvExpired (key : bytes)              (* propagateExpire, "expired" *)
  | EvModified (key : bytes)             (* signalModifiedKey *)
  | EvListReady (key : bytes)            (* signalListAsReady *)
  | EvFlushed (before : T robj)          (* signalFlushedDb, on this dictionary *)
  | EvSlotFlush                          (* slotToKeyFlush *)
  | EvSlotAdd (key : bytes)              (* slotToKeyAdd *)
  | EvSlotDel (key : bytes)              (* slotToKeyDel *)
  | EvNotify (event key : bytes).        (* notifyKeyspaceEvent *)
Arguments EvExpired {T}.
Arguments EvModified {T}.
Arguments EvListReady {T}.
Arguments EvFlushed {T}.
Arguments EvSlotFlush {T}.
Arguments EvSlotAdd {T}.
Arguments EvSlotDel {T}.
Arguments EvNotify {T}.

(** What the functions read of the server: [e_masterhost] is that the server is
    a slave; [e_readonly_client], that the current client is not the master and
    runs a read-only command; [e_now] is the time, or the start of the script. *)
Record env := mkEnv {
  e_loading : bool;
  e_masterhost : bool;
  e_readonly_client : bool;
  e_cluster : bool;
  e_now : Z
}.

(** The same server at another time. *)
Definition at_time (en : env) (now : Z) : env :=
  mkEnv (e_loading en) (e_masterhost en) (e_readonly_client en) (e_cluster en) now.

Section Db.
Context {T : Type -> Type} `{KD : KeyDict T}.

Record redisDb := mkDb {
  db_dict : T robj;
  db_expires : T Z;
  db_events : list (db_event T)
}.

Definition emit (db : redisDb) (e : db_event T) : redisDb :=
  mkDb (db_dict db) (db_expires db) (db_events db ++ [e]).

Definition dict_find (db : redisDb) (key : bytes) : res (redisDb * option robj) :=
  '(d, r) ← kd_find (db_dict db) key; Ok (mkDb d (db_expires db) (db_events db), r).

Definition expires_find (db : redisDb) (key : bytes) : res (redisDb * option Z) :=
  '(d, r) ← kd_find (db_expires db) key; Ok (mkDb (db_dict db) d (db_events db), r).

(** The flag is the result 1. *)
Definition dbDelete (en : env) (db : redisDb) (key : bytes) : res (redisDb * bool) :=
  db ← (if kd_size (db_expires db) >? 0
        then '(e, _) ← kd_delete (db_expires db) key; Ok (mkDb (db_dict db) e (db_events db))
        else Ok db);
  '(d, ok) ← kd_delete (db_dict db) key;
  let db := mkDb d (db_expires db) (db_events db) in
  Ok (if (ok : bool) && e_cluster en then emit db (EvSlotDel key) else db, ok).

Definition dbExists (db : redisDb) (key : bytes) : res (redisDb * bool) :=
  '(db, r) ← dict_find db key; Ok (db, match r with Some _ => true | None => false end).

(** ** Expires *)

Definition getExpire (db : redisDb) (key : bytes) : res (redisDb * Z) :=
  if kd_size (db_expires db) =? 0 then Ok (db, -1) else
  '(db, de) ← expires_find db key;
  match de with
  | None => Ok (db, -1)
  | Some w =>
      '(db, v) ← dict_find db key;
      match v with Some _ => Ok (db, w) | None => Fault AssertFailed end
  end.

(** The time is the one of the command, [e_now]; the one of a script ([lua_time_start]) is
    not modelled. *)
Definition expireIfNeeded (en : env) (db : redisDb) (key : bytes) : res (redisDb * bool) :=
  '(db, when) ← getExpire db key;
  if when <? 0 then Ok (db, false) else
  if e_loading en then Ok (db, false) else
  let now := e_now en in
  if e_masterhost en then Ok (db, now >? when) else
  if now <=? when then Ok (db, false) else
  dbDelete en (emit db (EvExpired key)) key.

Definition removeExpire (db : redisDb) (key : bytes) : res (redisDb * bool) :=
  '(db, v) ← dict_find db key;
  match v with
  | None => Fault AssertFailed
  | Some _ => '(e, ok) ← kd_delete (db_expires db) key; Ok (mkDb (db_dict db) e (db_events db), ok)
  end.

(** [dictReplaceRaw] and the store of the time. *)
Definition setExpire (db : redisDb) (key : bytes) (when : Z) : res redisDb :=
  '(db, v) ← dict_find db key;
  match v with
  | None => Fault AssertFailed
  | Some _ => '(e, _) ← kd_replace (db_expires db) key when; Ok (mkDb (db_dict db) e (db_events db))
  end.

(** ** Lookups *)

Definition lookupKey (db : redisDb) (key : bytes) : res (redisDb * option robj) := dict_find db key.

Definition lookupKeyReadWithFlags (en : env) (db : redisDb) (key : bytes) : res (redisDb * option robj) :=
  '(db, expired) ← expireIfNeeded en db key;
  if (expired : bool) && (negb (e_masterhost en) || e_readonly_client en) then Ok (db, None)
  else lookupKey db key.

Definition lookupKeyRead (en : env) (db : redisDb) (key : bytes) : res (redisDb * option robj) :=
  lookupKeyReadWithFlags en db key.

Definition lookupKeyWrite (en : env) (db : redisDb) (key : bytes) : res (redisDb * option robj) :=
  '(db, _) ← expireIfNeeded en db key; lookupKey db key.

(** ** Stores *)

Definition dbAdd (en : env) (db : redisDb) (key : bytes) (val : robj) : res redisDb :=
  '(d, ok) ← kd_add (db_dict db) key val;
  if negb ok then Fault AssertFailed else
  let db := mkDb d (db_expires db) (db_events db) in
  let db := if bool_decide (o_type val = OBJ_LIST) then emit db (EvListReady key) else db in
  Ok (if e_cluster en then emit db (EvSlotAdd key) else db).

Definition dbOverwrite (db : redisDb) (key : bytes) (val : robj) : res redisDb :=
  '(db, de) ← dict_find db key;
  match de with
  | None => Fault AssertFailed
  | Some _ => '(d, _) ← kd_replace (db_dict db) key val; Ok (mkDb d (db_expires db) (db_events db))
  end.

(** A write through the pointer to the value of a key. *)
Definition write_value (db : redisDb) (key : bytes) (val : robj) : res redisDb :=
  d ← kd_store (db_dict db) key val; Ok (mkDb d (db_expires db) (db_events db)).

(** [incrRefCount(val)] comes after the store of the pointer: the stored
    object has the new count. *)
Definition setKey (en : env) (db : redisDb) (key : bytes) (val : robj) : res redisDb :=
  '(db, old) ← lookupKeyWrite en db key;
  db ← match old with
       | None => dbAdd en db key (incrRefCount val)
       | Some _ => dbOverwrite db key (incrRefCount val)
       end;
  '(db, _) ← removeExpire db key;
  Ok (emit db (EvModified key)).
End Db.

Arguments redisDb : clear implicits.

(** ** What a database stands for *)

Section DbSpec.
Context {T : Type -> Type} `{KD : KeyDict T} `{KL : !KeyDictLaws T}.

(** Only keys that exist expire. *)
Record db_ok (db : redisDb T) : Prop := {
  dbk_dict : kd_ok (db_dict db);
  dbk_expires : kd_ok (db_expires db);
  dbk_dom : forall k, is_Some (kd_map (db_expires db) !! k) -> is_Some (kd_map (db_dict db) !! k);
  dbk_pos : forall k w, kd_map (db_expires db) !! k = Some w -> 0 <= w
}.

Definition vals (db : redisDb T) : gmap bytes robj := kd_map (db_dict db).
Definition exps (db : redisDb T) : gmap bytes Z := kd_map (db_expires db).

(** The key has an expire time, and it is over. *)
Definition expired (now : Z) (db : redisDb T) (k : bytes) : bool :=
  match exps db !! k with Some w => w <? now | None => false end.

(** The value that a read sees. *)
Definition live (now : Z) (db : redisDb T) (k : bytes) : option robj :=
  if expired now db k then None else vals db !! k.

Definition same_db (db db' : redisDb T) : Prop :=
  db_ok db' /\ vals db' = vals db /\ exps db' = exps db.

Lemma dict_find_ok db k : db_ok db ->
  exists db', dict_find db k = Ok (db', vals db !! k) /\ same_db db db' /\ db_events db' = db_events db.
Proof.
  intros [H1 H2 H3 H4]. unfold dict_find, vals. destruct (kd_find_ok _ (db_dict db) k H1) as (d & -> & Hd & Hm).
  rewrite bind_ok. eexists. split; [reflexivity|]. split; [|done]. split; [|split; [exact Hm|done]].
  split; cbn; try done. intros j Hj. rewrite Hm. auto.
Qed.

Lemma expires_find_ok db k : db_ok db ->
  exists db', expires_find db k = Ok (db', exps db !! k) /\ same_db db db' /\ db_events db' = db_events db.
Proof.
  intros [H1 H2 H3 H4]. unfold expires_find, exps. destruct (kd_find_ok _ (db_expires db) k H2) as (d & -> & Hd & Hm).
  rewrite bind_ok. eexists. split; [reflexivity|]. split; [|done]. split; [|split; [done|exact Hm]].
  split; cbn; rewrite ?Hm; try done.
Qed.

Lemma same_db_trans a b c : same_db a b -> same_db b c -> same_db a c.
Proof. intros (? & E1 & E2) (? & E3 & E4). split; [done|]. by rewrite E3, E4. Qed.

Lemma dbDelete_ok en db k : db_ok db ->
  exists db', dbDelete en db k = Ok (db', bool_decide (is_Some (vals db !! k))) /\ db_ok db' /\
    vals db' = delete k (vals db) /\ exps db' = delete k (exps db).
Proof.
  intros [H1 H2 H3 H4]. unfold dbDelete.
  assert (exists e, (if kd_size (db_expires db) >? 0
        then '(e, _) ← kd_delete (db_expires db) k; Ok (mkDb (db_dict db) e (db_events db)) else Ok db)
     = Ok (mkDb (db_dict db) e (db_events db)) /\ kd_ok e /\ kd_map e = delete k (exps db)) as (e & -> & He & Hem).
  { destruct (Z.gtb_spec (kd_size (db_expires db)) 0) as [Hs|Hs].
    - destruct (kd_delete_ok _ (db_expires db) k H2) as (e & -> & ? & ?). by exists e.
    - exists (db_expires db). split; [by destruct db|]. split; [done|]. unfold exps.
      rewrite (kd_size_ok _ _ H2) in Hs. assert (kd_map (db_expires db) = ∅) as ->; [|by rewrite delete_empty].
      apply map_size_empty_iff. lia. }
  rewrite bind_ok. cbn [db_dict db_expires db_events].
  destruct (kd_delete_ok _ (db_dict db) k H1) as (d & -> & Hd & Hm). rewrite bind_ok.
  assert (db_ok (mkDb d e (db_events db))) as Hok.
  { split; cbn; [done|done| |].
    - intros j. rewrite Hem, Hm. intros [w [Hjk Hw]%lookup_delete_Some]. rewrite lookup_delete_ne by done. apply H3. eauto.
    - intros j w. rewrite Hem. intros [_ Hw]%lookup_delete_Some. by apply (H4 j). }
  eexists. split; [reflexivity|]. destruct (_ && _); (split; [by destruct Hok|]); unfold vals, exps; cbn; by rewrite Hm, Hem.
Qed.

Lemma getExpire_ok db k : db_ok db ->
  exists db', getExpire db k = Ok (db', default (-1) (exps db !! k)) /\ same_db db db'.
Proof.
  intros Hdb. unfold getExpire. destruct (Z.eqb_spec (kd_size (db_expires db)) 0) as [Hs|Hs].
  - exists db. rewrite (kd_size_ok _ _ (dbk_expires _ Hdb)) in Hs. unfold exps.
    assert (kd_map (db_expires db) = ∅) as -> by (apply map_size_empty_iff; lia). by rewrite lookup_empty.
  - destruct (expires_find_ok db k Hdb) as (db1 & -> & H1 & _). rewrite bind_ok.
    destruct (exps db !! k) as [w|] eqn:Ew; [|by exists db1].
    destruct H1 as (Hdb1 & E1 & E2). destruct (dict_find_ok db1 k Hdb1) as (db2 & -> & H2 & _). rewrite bind_ok.
    destruct (dbk_dom _ Hdb1 k) as [v Hv]; [fold (exps db1); rewrite E2, Ew; eauto|].
    fold (vals db1) in Hv. rewrite Hv. exists db2. split; [done|]. eapply same_db_trans; [|done]. done.
Qed.

(** On a master, an expired key is deleted when it is looked up. *)
Lemma expireIfNeeded_ok en db k : db_ok db -> e_loading en = false -> e_masterhost en = false ->
  exists db', expireIfNeeded en db k = Ok (db', expired (e_now en) db k) /\ db_ok db' /\
    (if expired (e_now en) db k then vals db' = delete k (vals db) /\ exps db' = delete k (exps db)
     else vals db' = vals db /\ exps db' = exps db).
Proof.
  intros Hdb Hl Hm. unfold expireIfNeeded. destruct (getExpire_ok db k Hdb) as (db1 & -> & Hdb1 & E1 & E2).
  rewrite bind_ok. unfold expired. destruct (exps db !! k) as [w|] eqn:Ew; cbn [default from_option id].
  2:{ exists db1. by split_and!. }
  pose proof (dbk_pos _ Hdb k w Ew). destruct (Z.ltb_spec w 0); [lia|]. rewrite Hl, Hm.
  destruct (Z.leb_spec (e_now en) w), (Z.ltb_spec w (e_now en)); try lia.
  - exists db1. by split_and!.
  - assert (db_ok (emit db1 (EvExpired k))) as Hdb1' by (by destruct Hdb1).
    destruct (dbDelete_ok en _ k Hdb1') as (db2 & -> & Hdb2 & F1 & F2). exists db2.
    unfold vals, exps in *. cbn in F1, F2 |- *. rewrite F1, F2, E1, E2. split_and!; try done.
    rewrite bool_decide_eq_true_2; [done|]. apply (dbk_dom _ Hdb). rewrite Ew. eauto.
Qed.

(** The same values are live from now on. *)
Definition same_live (now : Z) (db db' : redisDb T) : Prop :=
  forall t j, now <= t -> live t db' j = live t db j.

#[global] Instance same_live_preorder now : PreOrder (same_live now).
Proof. split; [done|]. intros a b c H1 H2 t j Ht. by rewrite H2, H1. Qed.

Lemma same_live_later now t db db' : now <= t -> same_live now db db' -> same_live t db db'.
Proof. intros Ht H t' j Ht'. apply H. lia. Qed.

(** Removing an expired key leaves what is live, now and later. *)
Lemma live_delete now db db' k : expired now db k = true ->
  vals db' = delete k (vals db) -> exps db' = delete k (exps db) -> same_live now db db'.
Proof.
  intros Ee E1 E2 t j Ht. unfold live. destruct (decide (k = j)) as [<-|Hne].
  - assert (expired t db k = true) as ->.
    { unfold expired in *. destruct (exps db !! k) as [w|]; [|done]. destruct (Z.ltb_spec w now); [|done].
      apply Z.ltb_lt. lia. }
    rewrite E1, lookup_delete_eq. by case_match.
  - unfold expired. by rewrite E1, E2, !lookup_delete_ne.
Qed.

Lemma live_same now db db' : vals db' = vals db -> exps db' = exps db -> same_live now db db'.
Proof. intros E1 E2 t j _. unfold live, expired. by rewrite E1, E2. Qed.

(** A read returns the live value, and changes no live value. *)
Lemma lookupKeyRead_ok en db k : db_ok db -> e_loading en = false -> e_masterhost en = false ->
  exists db', lookupKeyRead en db k = Ok (db', live (e_now en) db k) /\ db_ok db' /\ same_live (e_now en) db db' /\
    (base.size (vals db') <= base.size (vals db))%nat /\
    (expired (e_now en) db k = true -> vals db' = delete k (vals db) /\ exps db' = delete k (exps db)).
Proof.
  intros Hdb Hl Hm. unfold lookupKeyRead, lookupKeyReadWithFlags.
  destruct (expireIfNeeded_ok en db k Hdb Hl Hm) as (db1 & -> & Hdb1 & H1). rewrite bind_ok, Hm. cbn [negb orb].
  rewrite andb_true_r. unfold live at 1. destruct (expired (e_now en) db k) eqn:Ee; destruct H1 as [E1 E2].
  - exists db1. split_and!; try done; [by apply (live_delete _ _ _ k)|]. rewrite E1, map_size_delete.
    destruct (vals db !! k); unfold id; lia.
  - destruct (dict_find_ok db1 k Hdb1) as (db2 & Hf & (Hdb2 & F1 & F2) & _). exists db2.
    unfold lookupKey. rewrite Hf, E1. split_and!; try done; [apply live_same; congruence|]. by rewrite F1, E1.
Qed.

Lemma lookupKeyWrite_ok en db k : db_ok db -> e_loading en = false -> e_masterhost en = false ->
  exists db', lookupKeyWrite en db k = Ok (db', live (e_now en) db k) /\ db_ok db' /\ vals db' !! k = live (e_now en) db k /\
    same_live (e_now en) db db' /\
    (base.size (vals db') <= base.size (vals db))%nat /\ (base.size (exps db') <= base.size (exps db))%nat.
Proof.
  intros Hdb Hl Hm. unfold lookupKeyWrite.
  destruct (expireIfNeeded_ok en db k Hdb Hl Hm) as (db1 & -> & Hdb1 & H1). rewrite bind_ok.
  destruct (dict_find_ok db1 k Hdb1) as (db2 & Hf & (Hdb2 & F1 & F2) & _). unfold lookupKey. rewrite Hf.
  unfold live at 1 2. destruct (expired (e_now en) db k) eqn:Ee; destruct H1 as [E1 E2]; exists db2.
  - assert (same_live (e_now en) db db2) as Hlive by (apply (live_delete _ _ _ k); congruence).
    rewrite F1, F2, E1, E2, lookup_delete_eq, !map_size_delete. split_and!; try done; [destruct (vals db !! k)|destruct (exps db !! k)]; unfold id; lia.
  - rewrite F1, F2, E1, E2. split_and!; try done. apply live_same; congruence.
Qed.

Lemma db_ok_emit db e : db_ok db -> db_ok (emit db e).
Proof. by intros []. Qed.

Lemma db_ok_store db d k v : db_ok db -> kd_ok d -> kd_map d = <[k := v]> (vals db) ->
  db_ok (mkDb d (db_expires db) (db_events db)).
Proof.
  intros [H1 H2 H3 H4] Hd Hm. split; cbn; try done. intros j Hj. rewrite Hm. destruct (decide (j = k)) as [->|Hne].
  - rewrite lookup_insert_eq. eauto.
  - rewrite lookup_insert_ne by done. by apply H3.
Qed.

Lemma dbAdd_ok en db k v : db_ok db -> kd_size (db_dict db) <= KD_MAX -> vals db !! k = None ->
  exists db', dbAdd en db k v = Ok db' /\ db_ok db' /\ vals db' = <[k := v]> (vals db) /\ exps db' = exps db.
Proof.
  intros Hdb Hsz Hk. unfold dbAdd. destruct (kd_add_ok _ (db_dict db) k v (dbk_dict _ Hdb) Hsz) as (d & -> & Hd & Hm).
  fold (vals db) in *. rewrite Hk in *. rewrite bind_ok, bool_decide_eq_true_2 by done. cbn [negb].
  pose proof (db_ok_store db d k v Hdb Hd Hm) as Hdb'.
  eexists. split; [reflexivity|]. unfold vals, exps.
  destruct (bool_decide _), (e_cluster en); cbn; (split; [repeat apply db_ok_emit; done|done]).
Qed.

Lemma dbOverwrite_ok db k v old : db_ok db -> kd_size (db_dict db) <= KD_MAX -> vals db !! k = Some old ->
  exists db', dbOverwrite db k v = Ok db' /\ db_ok db' /\ vals db' = <[k := v]> (vals db) /\ exps db' = exps db.
Proof.
  intros Hdb Hsz Hk. unfold dbOverwrite. destruct (dict_find_ok db k Hdb) as (db1 & -> & (Hdb1 & E1 & E2) & Ev).
  rewrite bind_ok, Hk.
  assert (kd_size (db_dict db1) <= KD_MAX) as Hsz1.
  { rewrite (kd_size_ok _ _ (dbk_dict _ Hdb)) in Hsz. rewrite (kd_size_ok _ _ (dbk_dict _ Hdb1)).
    fold (vals db1) (vals db) in *. by rewrite E1. }
  destruct (kd_replace_ok _ (db_dict db1) k v (dbk_dict _ Hdb1) Hsz1) as (d & -> & Hd & Hm). fold (vals db1) in Hm.
  rewrite bind_ok. eexists. split; [reflexivity|]. split; [by apply (db_ok_store db1 d k v)|].
  unfold vals, exps in *. cbn. by rewrite Hm, E1.
Qed.

Lemma removeExpire_ok db k : db_ok db -> is_Some (vals db !! k) ->
  exists db', removeExpire db k = Ok (db', bool_decide (is_Some (exps db !! k))) /\ db_ok db' /\
    vals db' = vals db /\ exps db' = delete k (exps db).
Proof.
  intros Hdb [v Hv]. unfold removeExpire. destruct (dict_find_ok db k Hdb) as (db1 & -> & (Hdb1 & E1 & E2) & _).
  rewrite bind_ok, Hv. destruct (kd_delete_ok _ (db_expires db1) k (dbk_expires _ Hdb1)) as (e & -> & He & Hm).
  fold (exps db1) in *. rewrite bind_ok, E2 in *. eexists. split; [reflexivity|]. unfold vals, exps in *. cbn.
  split; [|done]. destruct Hdb1 as [H1 H2 H3 H4]. split; cbn; try done.
  - intros j. rewrite Hm. intros [w [_ Hw]%lookup_delete_Some]. apply H3. rewrite E2. eauto.
  - intros j w. rewrite Hm. intros [_ Hw]%lookup_delete_Some. apply (H4 j). by rewrite E2.
Qed.

(** A time can be set for a key that exists, and only for such a key. *)
Lemma setExpire_ok db k w v : db_ok db -> kd_size (db_expires db) <= KD_MAX -> 0 <= w -> vals db !! k = Some v ->
  exists db', setExpire db k w = Ok db' /\ db_ok db' /\ vals db' = vals db /\ exps db' = <[k := w]> (exps db).
Proof.
  intros Hdb Hsz Hw Hv. unfold setExpire.
  pose proof Hdb as [H1 H2 H3 H4].
  unfold dict_find. destruct (kd_find_ok _ (db_dict db) k H1) as (d & -> & Hd & Hm). rewrite !bind_ok.
  fold (vals db) in *. rewrite Hv. cbn [db_dict db_expires db_events].
  destruct (kd_replace_ok _ (db_expires db) k w H2 Hsz) as (e & -> & He & Hem). rewrite bind_ok. fold (exps db) in *.
  eexists. split; [reflexivity|]. unfold vals, exps in *. cbn. split; [|done]. split; cbn; try done.
  - intros j. rewrite Hem, Hm. destruct (decide (j = k)) as [->|Hne]; [rewrite Hv; eauto|].
    rewrite lookup_insert_ne by done. apply H3.
  - intros j t. rewrite Hem, lookup_insert_Some. intros [[_ <-]|[_ Ht]]; [done|by apply (H4 j)].
Qed.

Lemma write_value_ok db k v : db_ok db -> is_Some (vals db !! k) ->
  exists db', write_value db k v = Ok db' /\ db_ok db' /\ vals db' = <[k := v]> (vals db) /\ exps db' = exps db.
Proof.
  intros Hdb Hk. unfold write_value. destruct (kd_store_ok _ (db_dict db) k v (dbk_dict _ Hdb) Hk) as (d & -> & Hd & Hm).
  rewrite bind_ok. eexists. split; [reflexivity|]. split; [by apply (db_ok_store db d k v)|]. unfold vals, exps. cbn. done.
Qed.

(** A store is a lookup, and then the value without an expire time. *)
Lemma setKey_maps en db k v : db_ok db -> e_loading en = false -> e_masterhost en = false ->
  kd_size (db_dict db) <= KD_MAX ->
  exists db1 db', setKey en db k v = Ok db' /\ db_ok db1 /\ same_live (e_now en) db db1 /\ db_ok db' /\
    vals db' = <[k := incrRefCount v]> (vals db1) /\ exps db' = delete k (exps db1) /\
    (base.size (vals db1) <= base.size (vals db) /\ base.size (exps db1) <= base.size (exps db))%nat.
Proof.
  intros Hdb Hl Hm Hsz. unfold setKey.
  destruct (lookupKeyWrite_ok en db k Hdb Hl Hm) as (db1 & -> & Hdb1 & Hk & Hlive & Hs1 & Hs2). rewrite bind_ok.
  rewrite (kd_size_ok _ _ (dbk_dict _ Hdb)) in Hsz.
  assert (kd_size (db_dict db1) <= KD_MAX) as Hsz1 by (rewrite (kd_size_ok _ _ (dbk_dict _ Hdb1)); unfold vals in Hs1; lia).
  set (o := incrRefCount v).
  assert (exists db2, match live (e_now en) db k with
     | None => dbAdd en db1 k o | Some _ => dbOverwrite db1 k o end = Ok db2 /\ db_ok db2 /\
     vals db2 = <[k := o]> (vals db1) /\ exps db2 = exps db1) as (db2 & -> & Hdb2 & F1 & F2).
  { rewrite <- Hk. destruct (vals db1 !! k) eqn:Ev; [by eapply dbOverwrite_ok|by apply dbAdd_ok]. }
  rewrite bind_ok. destruct (removeExpire_ok db2 k Hdb2) as (db3 & -> & Hdb3 & G1 & G2).
  { rewrite F1, lookup_insert_eq. eauto. }
  rewrite bind_ok. exists db1. eexists. split; [reflexivity|]. unfold vals, exps in *. cbn. rewrite G1, G2, F1, F2.
  split_and!; try done. by apply db_ok_emit.
Qed.

(** A store makes the value live, without an expire time, and leaves the other keys. *)
Lemma setKey_ok en db k v : db_ok db -> e_loading en = false -> e_masterhost en = false ->
  kd_size (db_dict db) <= KD_MAX ->
  exists db', setKey en db k v = Ok db' /\ db_ok db' /\ exps db' !! k = None /\
    (base.size (vals db') <= S (base.size (vals db)) /\ base.size (exps db') <= base.size (exps db))%nat /\
    (forall j, live (e_now en) db' j = if decide (j = k) then Some (incrRefCount v) else live (e_now en) db j).
Proof.
  intros Hdb Hl Hm Hsz. destruct (setKey_maps en db k v Hdb Hl Hm Hsz) as (db1 & db' & E & _ & Hlive & Hdb' & V & X & Hs1 & Hs2).
  exists db'. unfold live, expired. rewrite V, X. split; [done|]. split; [done|]. split; [apply lookup_delete_eq|].
  split; [split; [rewrite map_size_insert; destruct (vals db1 !! k)|rewrite map_size_delete; destruct (exps db1 !! k)]; unfold id; lia|].
  intros j. destruct (decide (j = k)) as [->|Hne]; [by rewrite lookup_delete_eq, lookup_insert_eq|].
  rewrite lookup_delete_ne, lookup_insert_ne by done. by apply Hlive.
Qed.

(** ** Entries *)

(** The live value of a key with its expire time. *)
Definition entry (now : Z) (db : redisDb T) (k : bytes) : option (robj * option Z) :=
  (fun o => (o, exps db !! k)) <$> live now db k.

(** What is live at all later times determines the expire times. *)
Lemma same_live_entry now db db' k : same_live now db db' -> entry now db' k = entry now db k.
Proof.
  intros H. unfold entry. pose proof (H now k ltac:(lia)) as Hn. rewrite Hn. destruct (live now db k) as [o|] eqn:E; [|done]. cbn. do 2 f_equal.
  assert (forall d, live now d k = Some o -> vals d !! k = Some o) as Hv by (intros d; unfold live; by destruct (expired now d k)).
  assert (forall t, now <= t -> expired t db' k = expired t db k) as Hx.
  { intros t Ht. specialize (H t k Ht). unfold live in H. rewrite (Hv db), (Hv db') in H by done.
    by destruct (expired t db' k), (expired t db k). }
  assert (expired now db k = false) as Hnow by (revert E; unfold live; by destruct (expired now db k)).
  pose proof (Hx now ltac:(lia)) as Hnow'. rewrite Hnow in Hnow'. unfold expired in *.
  destruct (exps db' !! k) as [w'|], (exps db !! k) as [w|]; try done.
  - pose proof (Hx (w + 1)). pose proof (Hx (w' + 1)). f_equal.
    destruct (Z.ltb_spec w' (w + 1)), (Z.ltb_spec w (w' + 1)), (Z.ltb_spec w (w + 1)), (Z.ltb_spec w' (w' + 1)); lia.
  - pose proof (Hx (w' + 1)). destruct (Z.ltb_spec w' (w' + 1)), (Z.ltb_spec w' now); try lia.
  - pose proof (Hx (w + 1)). destruct (Z.ltb_spec w (w + 1)), (Z.ltb_spec w now); try lia.
Qed.

End DbSpec.

Definition empty_db {T} `{KeyDict T} : redisDb T := mkDb kd_empty kd_empty [].

Lemma empty_db_ok {T} `{KeyDict T} `{!KeyDictLaws T} : db_ok (empty_db : redisDb T).
Proof.
  destruct (kd_empty_ok robj) as [H1 H2]. destruct (kd_empty_ok Z) as [H3 H4].
  split; cbn; [done|done| |]; rewrite H4; intros k; rewrite lookup_empty; [by intros []|done].
Qed.

Lemma empty_db_live {T} `{KeyDict T} `{!KeyDictLaws T} now k : live now (empty_db : redisDb T) k = None.
Proof.
  unfold live, vals, empty_db. cbn. destruct (kd_empty_ok robj) as [_ ->]. rewrite lookup_empty. by destruct (expired _ _ _).
Qed.
