(* ===== verification/Command.v ===== *)
(** * Commands ([src/server.c], [src/t_string.c], [src/blogd.c])

    [processCommand] with its guards, SET and GET, and the command that reads a
    page for the HTTP side. A [session] is what a command reads and writes of the
    server and of the client, next to the request and the output buffers: the key
    space, the count of changes, the last result of the page command and the
    commands queued by MULTI. The command table is an argument, as the
    configuration can rename its entries. Statistics, the slow log, MONITOR and the
    propagation to the AOF and the slaves are not modelled. *)

From S2P Require Import Prelude CLib Util Sds Object Reply Resp Dict KeyDict Db.
Local Open Scope Z_scope.

(** ** The command table *)

Inductive proc :=
  | GetCommand | SetCommand | GetNoReplyCommand
  | SetnxCommand | SetexCommand | PsetexCommand | AppendCommand | StrlenCommand | SetrangeCommand | GetrangeCommand
  | IncrCommand | DecrCommand | IncrbyCommand | DecrbyCommand | GetsetCommand | MgetCommand | MsetCommand | MsetnxCommand
  | DelCommand | ExistsCommand | TouchCommand | ExpireCommand | ExpireatCommand | PexpireCommand | PexpireatCommand
  | TtlCommand | PttlCommand | PersistCommand | TypeCommand | RenameCommand | RenamenxCommand | FlushdbCommand | DbsizeCommand
  | SaddCommand | SremCommand | SmoveCommand | SismemberCommand | ScardCommand
  | AuthCommand | ExecCommand | DiscardCommand | MultiCommand | WatchCommand | UnwatchCommand | PingCommand
  | SubscribeCommand | UnsubscribeCommand | PsubscribeCommand | PunsubscribeCommand
  | ReplconfCommand | ShutdownCommand | ScriptCommand | AskingCommand
  | OtherCommand (name : bytes).

#[export] Instance proc_eq_dec : EqDecision proc.
Proof. solve_decision. Defined.

Definition CMD_WRITE : Z := 0.
Definition CMD_READONLY : Z := 1.
Definition CMD_DENYOOM : Z := 2.
Definition CMD_LOADING : Z := 9.
Definition CMD_STALE : Z := 10.
Definition CMD_FAST : Z := 13.

Definition CLIENT_DIRTY_CAS : Z := 5.
Definition CLIENT_DIRTY_EXEC : Z := 12.

Record redisCommand := mkCmd {
  cmd_name : bytes;
  cmd_proc : proc;
  cmd_arity : Z;
  cmd_flags : Z;
  cmd_getkeys : bool;     (* [getkeys_proc] is not NULL *)
  cmd_firstkey : Z
}.

Definition cmd_flag (cmd : redisCommand) (b : Z) : bool := Z.testbit (cmd_flags cmd) b.

(** The entries "get", "set" and "getNoReplyCommand" of [redisCommandTable]. *)
Definition get_entry : redisCommand :=
  mkCmd (str "get") GetCommand 2 (2 ^ CMD_READONLY + 2 ^ CMD_FAST) false 1.
Definition set_entry : redisCommand :=
  mkCmd (str "set") SetCommand (-3) (2 ^ CMD_WRITE + 2 ^ CMD_DENYOOM) false 1.
Definition getNoReply_entry : redisCommand :=
  mkCmd (str "getNoReplyCommand") GetNoReplyCommand 2 (2 ^ CMD_READONLY + 2 ^ CMD_FAST) false 1.

(** What the guards of [processCommand] read of the server; [sv_masterhost] and
    [sv_loading] are in [env]. *)
Record guards := mkGuards {
  g_requirepass : bool;
  g_authenticated : bool;
  g_cluster_enabled : bool;
  g_lua_caller_master : bool;
  g_maxmemory : Z;
  g_stop_writes_on_bgsave_err : bool;
  g_saveparamslen : Z;
  g_lastbgsave_ok : bool;
  g_aof_last_write_ok : bool;
  g_aof_last_write_error : bytes;    (* [strerror(server.aof_last_write_errno)] *)
  g_repl_min_slaves_to_write : Z;
  g_repl_min_slaves_max_lag : Z;
  g_repl_good_slaves_count : Z;
  g_repl_slave_ro : bool;
  g_repl_connected : bool;
  g_repl_serve_stale_data : bool;
  g_lua_timedout : bool
}.

Definition OBJ_SET_NX : Z := 0.
Definition OBJ_SET_XX : Z := 1.
Definition OBJ_SET_EX : Z := 2.
Definition OBJ_SET_PX : Z := 3.

Inductive time_unit := UNIT_SECONDS | UNIT_MILLISECONDS.

Definition wrongtypeerr : bytes :=
  str "-WRONGTYPE Operation against a key holding the wrong kind of value" ++ crlf.

Definition is_some {A} (o : option A) : bool := match o with Some _ => true | None => false end.

(** An argument of the client: [c->argv[i]]. *)
Definition arg (c : reqst) (i : nat) : res robj :=
  match q_argv c !! i with Some o => Ok o | None => Fault OutOfBounds end.

Definition set_arg (c : reqst) (i : nat) (o : robj) : reqst :=
  mkReq (q_querybuf c) (q_reqtype c) (<[i := o]> (q_argv c)) (q_multibulklen c) (q_bulklen c) (q_asking c) (q_out c).

Definition with_asking (c : reqst) (b : bool) : reqst :=
  mkReq (q_querybuf c) (q_reqtype c) (q_argv c) (q_multibulklen c) (q_bulklen c) b (q_out c).

(** [o->ptr] as a key, and as a C string. *)
Definition obj_key (o : robj) : res bytes := s ← obj_sds o; Ok (sdsval s).
Definition obj_cstr (o : robj) : res bytes := s ← obj_sds o; Ok (cstr (sds_mem s)).

Section Commands.
Context {T : Type -> Type} `{KD : KeyDict T}.
Variable junk : Z.
Variable sdsZmallocSize : sds -> Z.
Variable embeddedSize : sds -> Z.
Variable client_obuf_limits : client_type -> obuf_limits.
Variable unixtime : Z.
Variable shareable : bool.     (* the value can be a shared integer: see [tryObjectEncoding] *)

Record session := mkSession {
  s_db : redisDb T;
  s_dirty : Z;
  s_last_error : option bytes;       (* [c->command_last_error] *)
  s_last_reply : option obj_ptr;     (* [c->command_last_reply] *)
  s_queued : list (redisCommand * list robj);   (* [c->mstate.commands] *)
  s_watched : T (list Z);            (* [c->db->watched_keys]: the clients that watch a key *)
  s_watching : list bytes            (* [c->watched_keys] *)
}.

Definition with_db (s : session) (db : redisDb T) : session :=
  mkSession db (s_dirty s) (s_last_error s) (s_last_reply s) (s_queued s) (s_watched s) (s_watching s).
Definition with_last (s : session) (e : option bytes) (r : option obj_ptr) : session :=
  mkSession (s_db s) (s_dirty s) e r (s_queued s) (s_watched s) (s_watching s).

#[local] Abbreviation reply_shared := (addReplyShared junk sdsZmallocSize embeddedSize client_obuf_limits unixtime).
#[local] Abbreviation reply_err := (addReplyError junk sdsZmallocSize embeddedSize client_obuf_limits unixtime).
#[local] Abbreviation reply_bulk := (addReplyBulk junk sdsZmallocSize embeddedSize client_obuf_limits unixtime).

Definition add_shared (c : reqst) (msg : bytes) : res reqst :=
  o ← reply_shared (q_out c) msg; Ok (with_out c o).
Definition add_error (c : reqst) (msg : bytes) : res reqst :=
  o ← reply_err (q_out c) msg; Ok (with_out c o).

(** ** Reading keys *)

Definition lookupKeyReadOrReply (en : env) (s : session) (c : reqst) (key : robj) (reply : bytes)
  : res (session * reqst * option robj) :=
  k ← obj_key key;
  '(db, o) ← lookupKeyRead en (s_db s) k;
  c ← match o with None => add_shared c reply | Some _ => Ok c end;
  Ok (with_db s db, c, o).

(** The flag is the result C_OK. *)
Definition getGenericCommand (en : env) (s : session) (c : reqst) : res (session * reqst * bool) :=
  key ← arg c 1;
  '(s, c, o) ← lookupKeyReadOrReply en s c key (str "$-1" ++ crlf);
  match o with
  | None => Ok (s, c, true)
  | Some o =>
      if negb (bool_decide (o_type o = OBJ_STRING)) then c ← add_shared c wrongtypeerr; Ok (s, c, false)
      else out ← reply_bulk (q_out c) o; Ok (s, with_out c out, true)
  end.

Definition getCommand (en : env) (s : session) (c : reqst) : res (session * reqst) :=
  '(s, c, _) ← getGenericCommand en s c; Ok (s, c).

(** [lookupRedisKeyReadOrReply] does not reply. *)
Definition getRedisNoReplyCommand (en : env) (s : session) (c : reqst) : res (session * reqst * bool) :=
  key ← arg c 1;
  k ← obj_key key;
  '(db, o) ← lookupKeyRead en (s_db s) k;
  let s := with_db s db in
  match o with
  | None => Ok (with_last s (Some (str "Not found")) None, c, true)
  | Some o =>
      if negb (bool_decide (o_type o = OBJ_STRING)) then Ok (with_last s (Some wrongtypeerr) None, c, false)
      else Ok (with_last s None (Some (o_ptr o)), c, true)
  end.

(** ** SET *)

Definition getLongLongFromObject (o : option robj) : res (option Z) :=
  match o with
  | None => Ok (Some 0)
  | Some o =>
      if negb (bool_decide (o_type o = OBJ_STRING)) then Fault AssertFailed else
      if sdsEncodedObject o then s ← obj_sds o; Ok (string2ll (sdsval s))
      else match o_encoding o, o_ptr o with
           | OBJ_ENCODING_INT, PtrInt n => Ok (Some n)
           | _, _ => Fault AssertFailed
           end
  end.

Definition getLongLongFromObjectOrReply (c : reqst) (o : option robj) (msg : option bytes) : res (reqst * option Z) :=
  v ← getLongLongFromObject o;
  match v with
  | Some n => Ok (c, Some n)
  | None =>
      c ← add_error c (default (str "value is not an integer or out of range") msg);
      Ok (c, None)
  end.

(** The expire time in milliseconds; [None]: an error was replied. *)
Definition set_expire_time (name : bytes) (c : reqst) (expire : option robj) (unit : time_unit)
  : res (reqst * option Z) :=
  match expire with
  | None => Ok (c, Some 0)
  | Some e =>
      '(c, v) ← getLongLongFromObjectOrReply c (Some e) None;
      match v with
      | None => Ok (c, None)
      | Some ms =>
          if ms <=? 0 then
            c ← add_error c (error_format (str "invalid expire time in " ++ name)); Ok (c, None)
          else Ok (c, Some (match unit with UNIT_SECONDS => s64 (ms * 1000) | UNIT_MILLISECONDS => ms end))
      end
  end.

(** [NX] with a key that exists, or [XX] with one that does not. *)
Definition set_refused (en : env) (db : redisDb T) (flags : Z) (k : bytes) : res (redisDb T * bool) :=
  '(db, r) ← (if Z.testbit flags OBJ_SET_NX
              then '(db, o) ← lookupKeyWrite en db k; Ok (db, is_some o) else Ok (db, false));
  if (r : bool) then Ok (db, true) else
  if Z.testbit flags OBJ_SET_XX
  then '(db, o) ← lookupKeyWrite en db k; Ok (db, negb (is_some o)) else Ok (db, false).

Definition setGenericCommand (en : env) (name : bytes) (s : session) (c : reqst) (flags : Z) (key val : robj)
    (expire : option robj) (unit : time_unit) (ok_reply abort_reply : option bytes) : res (session * reqst) :=
  '(c, ms) ← set_expire_time name c expire unit;
  match ms with
  | None => Ok (s, c)
  | Some milliseconds =>
      k ← obj_key key;
      '(db, refused) ← set_refused en (s_db s) flags k;
      if (refused : bool) then
        c ← add_shared c (default (str "$-1" ++ crlf) abort_reply); Ok (with_db s db, c)
      else
        db ← setKey en db k val;
        db ← match expire with
             | Some _ => setExpire db k (s64 (e_now en + milliseconds))
             | None => Ok db
             end;
        let db := emit db (EvNotify (str "set") k) in
        let db := match expire with Some _ => emit db (EvNotify (str "expire") k) | None => db end in
        c ← add_shared c (default (str "+OK" ++ crlf) ok_reply);
        Ok (mkSession db (s_dirty s + 1) (s_last_error s) (s_last_reply s) (s_queued s) (s_watched s) (s_watching s), c)
  end.

(** The option [a] is the letter, in either case, and "x" or "X". *)
Definition is_option (a : bytes) (letter : Z) : bool :=
  match a with
  | [p; q] => ((p =? letter) || (p =? letter - 32)) && ((q =? 120) || (q =? 88))
  | _ => false
  end.

(** [None]: a syntax error. *)
Fixpoint set_options (args : list robj) (flags : Z) (expire : option robj) (unit : time_unit)
  : res (option (Z * option robj * time_unit)) :=
  match args with
  | [] => Ok (Some (flags, expire, unit))
  | o :: rest =>
      a ← obj_cstr o;
      if is_option a 110 && negb (Z.testbit flags OBJ_SET_XX)
      then set_options rest (Z.setbit flags OBJ_SET_NX) expire unit else
      if is_option a 120 && negb (Z.testbit flags OBJ_SET_NX)
      then set_options rest (Z.setbit flags OBJ_SET_XX) expire unit else
      match rest with
      | next :: rest' =>
          if is_option a 101 && negb (Z.testbit flags OBJ_SET_PX)
          then set_options rest' (Z.setbit flags OBJ_SET_EX) (Some next) UNIT_SECONDS else
          if is_option a 112 && negb (Z.testbit flags OBJ_SET_EX)
          then set_options rest' (Z.setbit flags OBJ_SET_PX) (Some next) UNIT_MILLISECONDS else
          Ok None
      | [] => Ok None
      end
  end.

Definition setCommand (en : env) (s : session) (c : reqst) : res (session * reqst) :=
  o ← set_options (drop 3 (q_argv c)) 0 None UNIT_SECONDS;
  match o with
  | None => c ← add_shared c (str "-ERR syntax error" ++ crlf); Ok (s, c)
  | Some (flags, expire, unit) =>
      v ← arg c 2;
      v ← tryObjectEncoding junk shareable v;
      let c := set_arg c 2 v in
      k ← arg c 1;
      setGenericCommand en (str "set") s c flags k v expire unit None None
  end.

(** ** Guards *)

(** What [processCommand] asks of parts that are not modelled: the other
    commands; [getNodeByQuery] and [clusterRedirectClient] ([None]: this node
    serves the command); [discardTransaction], of Multi.v; [freeMemoryIfNeeded], its
    result C_OK, and whether the current client is still there;
    [handleClientsBlockedOnLists], when there are ready keys. *)
Variable lookupCommand : bytes -> option redisCommand.
Variable other_proc : proc -> session -> reqst -> res (session * reqst).
Variable cluster_redirect : redisCommand -> reqst -> option (reqst -> res reqst).
Variable discardTransaction : session -> reqst -> res (session * reqst).
Variable freeMemoryIfNeeded : session -> session * bool * bool.
Variable handleClientsBlockedOnLists : session -> res session.

Definition flagTransaction (c : reqst) : reqst :=
  let o := q_out c in
  if flag o CLIENT_MULTI then with_out c (with_flags o (Z.setbit (c_flags o) CLIENT_DIRTY_EXEC)) else c.

(** The command is queued with a copy of the arguments. *)
Definition queueMultiCommand (s : session) (cmd : redisCommand) (c : reqst) : session * reqst :=
  (mkSession (s_db s) (s_dirty s) (s_last_error s) (s_last_reply s)
     (s_queued s ++ [(cmd, incrRefCount <$> q_argv c)]) (s_watched s) (s_watching s),
   mkReq (q_querybuf c) (q_reqtype c) (incrRefCount <$> q_argv c) (q_multibulklen c) (q_bulklen c) (q_asking c) (q_out c)).

(** [c->cmd->proc(c)]. *)
Definition call (en : env) (cmd : redisCommand) (s : session) (c : reqst) : res (session * reqst) :=
  match cmd_proc cmd with
  | GetCommand => getCommand en s c
  | SetCommand => setCommand en s c
  | GetNoReplyCommand => '(s, c, _) ← getRedisNoReplyCommand en s c; Ok (s, c)
  | p => other_proc p s c
  end.

(** The first letter of the second argument, in lower case, is [ch]. *)
Definition arg1_starts (c : reqst) (ch : Z) : res bool :=
  o ← arg c 1; a ← obj_cstr o; Ok (tolower (hd 0 a) =? ch).

(** The commands that run while a script does not end. *)
Definition slow_script_ok (cmd : redisCommand) (c : reqst) : res bool :=
  match cmd_proc cmd with
  | AuthCommand | ReplconfCommand => Ok true
  | ShutdownCommand => if q_argc c =? 2 then arg1_starts c 110 else Ok false
  | ScriptCommand => if q_argc c =? 2 then arg1_starts c 107 else Ok false
  | _ => Ok false
  end.

Definition pubsub_ok (p : proc) : bool :=
  match p with
  | PingCommand | SubscribeCommand | UnsubscribeCommand | PsubscribeCommand | PunsubscribeCommand => true
  | _ => false
  end.

Definition transaction_proc (p : proc) : bool :=
  match p with ExecCommand | DiscardCommand | MultiCommand | WatchCommand => true | _ => false end.

(** The guards that only refuse: the reply, and whether the transaction is
    flagged. *)
Inductive refusal := Refuse (flagged : bool) (reply : bytes) | RefuseError (text : bytes).

Definition write_refusal (g : guards) (en : env) (cmd : redisCommand) : option refusal :=
  if ((g_stop_writes_on_bgsave_err g && (g_saveparamslen g >? 0) && negb (g_lastbgsave_ok g)) ||
      negb (g_aof_last_write_ok g)) && negb (e_masterhost en) &&
     (cmd_flag cmd CMD_WRITE || bool_decide (cmd_proc cmd = PingCommand)) then
    Some (Refuse true (if g_aof_last_write_ok g
      then str "-MISCONF Redis is configured to save RDB snapshots, but is currently not able to persist on disk. Commands that may modify the data set are disabled. Please check Redis logs for details about the error." ++ crlf
      else str "-MISCONF Errors writing to the AOF file: " ++ g_aof_last_write_error g ++ crlf))
  else if negb (e_masterhost en) && negb (g_repl_min_slaves_to_write g =? 0) &&
     negb (g_repl_min_slaves_max_lag g =? 0) && cmd_flag cmd CMD_WRITE &&
     (g_repl_good_slaves_count g <? g_repl_min_slaves_to_write g) then
    Some (Refuse true (str "-NOREPLICAS Not enough good slaves to write." ++ crlf))
  else None.

Definition state_refusal (g : guards) (en : env) (cmd : redisCommand) (c : reqst) : res (option refusal) :=
  if e_masterhost en && g_repl_slave_ro g && negb (flag (q_out c) CLIENT_MASTER) && cmd_flag cmd CMD_WRITE then
    Ok (Some (Refuse false (str "-READONLY You can't write against a read only slave." ++ crlf)))
  else if flag (q_out c) CLIENT_PUBSUB && negb (pubsub_ok (cmd_proc cmd)) then
    Ok (Some (RefuseError (str "only (P)SUBSCRIBE / (P)UNSUBSCRIBE / PING / QUIT allowed in this context")))
  else if e_masterhost en && negb (g_repl_connected g) && negb (g_repl_serve_stale_data g) &&
          negb (cmd_flag cmd CMD_STALE) then
    Ok (Some (Refuse true (str "-MASTERDOWN Link with MASTER is down and slave-serve-stale-data is set to 'no'." ++ crlf)))
  else if e_loading en && negb (cmd_flag cmd CMD_LOADING) then
    Ok (Some (Refuse false (str "-LOADING Redis is loading the dataset in memory" ++ crlf)))
  else if g_lua_timedout g then
    ok ← slow_script_ok cmd c;
    Ok (if (ok : bool) then None
        else Some (Refuse true (str "-BUSY Redis is busy running a script. You can only call SCRIPT KILL or SHUTDOWN NOSAVE." ++ crlf)))
  else Ok None.

Definition refuse (s : session) (c : reqst) (r : refusal) : res (session * option (reqst * bool)) :=
  c ← match r with
      | Refuse flagged reply => add_shared (if (flagged : bool) then flagTransaction c else c) reply
      | RefuseError text => add_error c text
      end;
  Ok (s, Some (c, true)).

(** The command is executed, or queued. *)
Definition exec_command (en : env) (cmd : redisCommand) (s : session) (c : reqst)
  : res (session * option (reqst * bool)) :=
  if flag (q_out c) CLIENT_MULTI && negb (transaction_proc (cmd_proc cmd)) then
    let '(s, c) := queueMultiCommand s cmd c in
    c ← add_shared c (str "+QUEUED" ++ crlf); Ok (s, Some (c, true))
  else
    '(s, c) ← call en cmd s c;
    s ← handleClientsBlockedOnLists s;
    Ok (s, Some (c, true)).

(** From the maxmemory directive on. *)
Definition accept_command (g : guards) (en : env) (cmd : redisCommand) (s : session) (c : reqst)
  : res (session * option (reqst * bool)) :=
  let '(s, ok, alive) := if negb (g_maxmemory g =? 0) then freeMemoryIfNeeded s else (s, true, true) in
  if negb alive then Ok (s, None) else
  if cmd_flag cmd CMD_DENYOOM && negb ok
  then refuse s c (Refuse true (str "-OOM command not allowed when used memory > 'maxmemory'." ++ crlf)) else
  match write_refusal g en cmd with
  | Some r => refuse s c r
  | None =>
      r ← state_refusal g en cmd c;
      match r with Some r => refuse s c r | None => exec_command en cmd s c end
  end.

Definition processCommand (g : guards) (en : env) (s : session) (c : reqst)
  : res (session * option (reqst * bool)) :=
  a0 ← arg c 0;
  name ← obj_cstr a0;
  if strcasecmp name (str "quit") =? 0 then
    c ← add_shared c (str "+OK" ++ crlf);
    Ok (s, Some (with_out c (with_flags (q_out c) (Z.setbit (c_flags (q_out c)) CLIENT_CLOSE_AFTER_REPLY)), false))
  else
  k ← obj_key a0;
  match lookupCommand k with
  | None =>
      c ← add_error (flagTransaction c) (error_format (str "unknown command '" ++ name ++ str "'"));
      Ok (s, Some (c, true))
  | Some cmd =>
      let c := with_asking c (bool_decide (cmd_proc cmd = AskingCommand)) in
      if ((cmd_arity cmd >? 0) && negb (cmd_arity cmd =? q_argc c)) || (q_argc c <? - cmd_arity cmd) then
        c ← add_error (flagTransaction c)
              (error_format (str "wrong number of arguments for '" ++ cmd_name cmd ++ str "' command"));
        Ok (s, Some (c, true))
      else if g_requirepass g && negb (g_authenticated g) && negb (bool_decide (cmd_proc cmd = AuthCommand)) then
        refuse s c (Refuse true (str "-NOAUTH Authentication required." ++ crlf))
      else match (if g_cluster_enabled g && negb (flag (q_out c) CLIENT_MASTER) &&
                     negb (flag (q_out c) CLIENT_LUA && g_lua_caller_master g) &&
                     negb (negb (cmd_getkeys cmd) && (cmd_firstkey cmd =? 0) &&
                           negb (bool_decide (cmd_proc cmd = ExecCommand)))
                  then cluster_redirect cmd c else None) with
      | Some redirect =>
          '(s, c) ← (if bool_decide (cmd_proc cmd = ExecCommand) then discardTransaction s c
                     else Ok (s, flagTransaction c));
          c ← redirect c; Ok (s, Some (c, true))
      | None => accept_command g en cmd s c
      end
  end.
End Commands.

Arguments session : clear implicits.
Arguments mkSession {T}.

(** ** What the commands do *)

Lemma obj_key_ok o k : node_ok o -> objval o = Some k -> obj_key o = Ok k.
Proof.
  intros Ho Hv. destruct (node_ok_sds o Ho) as (s & Hp & _ & Hs & _). unfold obj_key, obj_sds. rewrite Hp, bind_ok.
  unfold nodeval in Hs. rewrite Hv in Hs. cbn in Hs. by subst.
Qed.

Lemma obj_cstr_ok o k : node_ok o -> objval o = Some k -> no_nul k -> obj_cstr o = Ok k.
Proof.
  intros Ho Hv Hn. destruct (node_ok_sds o Ho) as (s & Hp & Hok & Hs & _). unfold obj_cstr, obj_sds. rewrite Hp, bind_ok.
  unfold nodeval in Hs. rewrite Hv in Hs. cbn in Hs. subst k. destruct (sds_mem_split s Hok) as [t ->].
  by rewrite cstr_app_nul.
Qed.

(** The result of the page command for the value that a key has: the error, the
    pointer of the value, and the result code. *)
Definition page_result (o : option robj) : option bytes * option obj_ptr * bool :=
  match o with
  | None => (Some (str "Not found"), None, true)
  | Some o => if bool_decide (o_type o = OBJ_STRING) then (None, Some (o_ptr o), true) else (Some wrongtypeerr, None, false)
  end.

(** The guards let every command of a plain client pass that does not write. *)
Definition open_guards (g : guards) (en : env) (o : outst) : bool :=
  negb (g_requirepass g && negb (g_authenticated g)) && negb (g_cluster_enabled g) && (g_maxmemory g =? 0) &&
  negb (e_masterhost en) && negb (e_loading en) && negb (g_lua_timedout g) &&
  negb (flag o CLIENT_PUBSUB) && negb (flag o CLIENT_MULTI).

(** The guards without the test for a transaction. *)
Definition gates (g : guards) (en : env) (o : outst) : bool :=
  negb (g_requirepass g && negb (g_authenticated g)) && negb (g_cluster_enabled g) && (g_maxmemory g =? 0) &&
  negb (e_masterhost en) && negb (e_loading en) && negb (g_lua_timedout g) && negb (flag o CLIENT_PUBSUB).

Lemma open_guards_gates g en o : open_guards g en o = gates g en o && negb (flag o CLIENT_MULTI).
Proof. reflexivity. Qed.

(** The server takes writes: it can save, and has the slaves that it needs. *)
Definition writes_allowed (g : guards) : bool :=
  negb (g_stop_writes_on_bgsave_err g && (g_saveparamslen g >? 0) && negb (g_lastbgsave_ok g)) && g_aof_last_write_ok g &&
  negb (negb (g_repl_min_slaves_to_write g =? 0) && negb (g_repl_min_slaves_max_lag g =? 0) &&
        (g_repl_good_slaves_count g <? g_repl_min_slaves_to_write g)).

Section CommandSpec.
Context {T : Type -> Type} `{KD : KeyDict T} `{KL : !KeyDictLaws T}.
Variable junk : Z.
Variable sdsZmallocSize : sds -> Z.
Variable embeddedSize : sds -> Z.
Variable client_obuf_limits : client_type -> obuf_limits.
Variable unixtime : Z.
Variable shareable : bool.
Hypothesis zmalloc_size : forall s, 0 <= sdsZmallocSize s < 2 ^ 48.
Hypothesis embedded_size : forall s, 0 <= embeddedSize s < 2 ^ 48.
Variable en : env.
Hypothesis master : e_masterhost en = false.
Hypothesis loaded : e_loading en = false.

#[local] Abbreviation now := (e_now en).
#[local] Abbreviation replied' := (replied sdsZmallocSize embeddedSize).
#[local] Abbreviation ready' := (ready sdsZmallocSize embeddedSize).

Lemma add_shared_ok c msg : ready' 1 (q_out c) -> Z.of_nat (length msg) < 2 ^ 63 ->
  exists o, add_shared junk sdsZmallocSize embeddedSize client_obuf_limits unixtime c msg = Ok (with_out c o) /\
    replied' 1 (q_out c) msg o.
Proof.
  intros Hc Hl. unfold add_shared.
  destruct (addReplyShared_ok junk sdsZmallocSize embeddedSize client_obuf_limits unixtime zmalloc_size embedded_size
    (q_out c) msg Hc Hl) as (o & -> & Ho). rewrite bind_ok. by exists o.
Qed.

(** The page command reads the live value, and tells nothing to the client. *)
Lemma getNoReply_ok (s : session T) c key k :
  db_ok (s_db s) -> q_argv c !! 1%nat = Some key -> node_ok key -> objval key = Some k ->
  let '(err, rep, ok) := page_result (live now (s_db s) k) in
  exists db', getRedisNoReplyCommand en s c = Ok (mkSession db' (s_dirty s) err rep (s_queued s) (s_watched s) (s_watching s), c, ok) /\
    db_ok db' /\ same_live now (s_db s) db'.
Proof.
  intros Hdb Ha Hk Hv. unfold getRedisNoReplyCommand, arg. rewrite Ha, bind_ok, (obj_key_ok key k) by done. rewrite bind_ok.
  destruct (lookupKeyRead_ok en (s_db s) k Hdb loaded master) as (db' & -> & Hdb' & Hl & _). rewrite bind_ok.
  unfold page_result. destruct (live now (s_db s) k) as [o|]; [|by exists db'].
  destruct (bool_decide _); by exists db'.
Qed.

(** SET with a key and a value stores a string object with that value, for a
    client that the reply "+OK" takes to [R]. *)
Lemma setCommand_ok (s : session T) c cmd key val k (R : outst -> Prop) :
  db_ok (s_db s) -> kd_size (db_dict (s_db s)) <= KD_MAX ->
  q_argv c = [cmd; key; val] -> node_ok key -> objval key = Some k -> strobj_ok val ->
  (exists out, addReplyShared junk sdsZmallocSize embeddedSize client_obuf_limits unixtime (q_out c) (str "+OK" ++ crlf)
     = Ok out /\ R out) ->
  exists db' o out, setCommand junk sdsZmallocSize embeddedSize client_obuf_limits unixtime shareable en s c
    = Ok (mkSession db' (s_dirty s + 1) (s_last_error s) (s_last_reply s) (s_queued s) (s_watched s) (s_watching s), with_out (set_arg c 2 o) out) /\
    strobj_ok (incrRefCount o) /\ objval o = objval val /\
    db_ok db' /\ exps db' !! k = None /\ (base.size (vals db') <= S (base.size (vals (s_db s))))%nat /\
    (forall j, live now db' j = if decide (j = k) then Some (incrRefCount o) else live now (s_db s) j) /\ R out.
Proof.
  intros Hdb Hsz Ha Hk Hv Hval (out & Hadd & HR). unfold setCommand. rewrite Ha. cbn [drop set_options]. rewrite bind_ok.
  unfold arg. rewrite Ha. cbn [lookup list_lookup]. rewrite bind_ok.
  destruct (tryObjectEncoding_ok junk shareable val Hval) as (o & -> & Ho & Hov). rewrite bind_ok.
  cbn [set_arg q_argv]. rewrite Ha. cbn [insert list_insert lookup list_lookup]. rewrite bind_ok.
  unfold setGenericCommand, set_expire_time, set_refused. rewrite bind_ok, (obj_key_ok key k) by done. rewrite bind_ok.
  change (Z.testbit 0 OBJ_SET_NX) with false. change (Z.testbit 0 OBJ_SET_XX) with false. cbv iota. rewrite !bind_ok.
  destruct (setKey_ok en (s_db s) k o Hdb loaded master Hsz) as (db' & -> & Hdb' & He & [Hs _] & Hl). rewrite !bind_ok.
  cbn [default from_option]. unfold add_shared. change (q_out (set_arg c 2 o)) with (q_out c). rewrite Hadd, !bind_ok.
  exists (emit db' (EvNotify (str "set") k)), o, out. split; [reflexivity|].
  split_and!; try done.
  - destruct Ho as (? & ? & ?). split; [done|]. split; [cbn; lia|done].
  - by apply db_ok_emit.
Qed.

Variable lookupCommand : bytes -> option redisCommand.
Variable other_proc : proc -> session T -> reqst -> res (session T * reqst).
Variable cluster_redirect : redisCommand -> reqst -> option (reqst -> res reqst).
Variable discardTransaction : session T -> reqst -> res (session T * reqst).
Variable freeMemoryIfNeeded : session T -> session T * bool * bool.
Variable handleClientsBlockedOnLists : session T -> res (session T).

#[local] Abbreviation process := (processCommand junk sdsZmallocSize embeddedSize client_obuf_limits unixtime shareable
  lookupCommand other_proc cluster_redirect discardTransaction freeMemoryIfNeeded handleClientsBlockedOnLists).

Hypothesis page_command : lookupCommand (str "getNoReplyCommand") = Some getNoReply_entry.
Hypothesis no_blocked_clients : forall s, handleClientsBlockedOnLists s = Ok s.

(** The guards let a command pass that has the right number of arguments. *)
Lemma processCommand_passes g (s : session T) c a0 name cmd :
  gates g en (q_out c) = true -> writes_allowed g || negb (cmd_flag cmd CMD_WRITE) = true ->
  q_argv c !! 0%nat = Some a0 -> node_ok a0 -> objval a0 = Some name -> no_nul name -> (strcasecmp name (str "quit") =? 0) = false ->
  lookupCommand name = Some cmd -> cmd_proc cmd <> AskingCommand -> cmd_proc cmd <> PingCommand ->
  ((cmd_arity cmd >? 0) && negb (cmd_arity cmd =? q_argc c)) || (q_argc c <? - cmd_arity cmd) = false ->
  process g en s c = exec_command junk sdsZmallocSize embeddedSize client_obuf_limits unixtime shareable other_proc handleClientsBlockedOnLists
    en cmd s (with_asking c false).
Proof.
  intros Hg Hw Ha Hc Hcv Hnul Hq Hcmd Hask Hping Har. unfold process, arg. rewrite Ha, bind_ok, (obj_cstr_ok a0 name) by done.
  rewrite bind_ok, Hq, (obj_key_ok a0 name) by done. rewrite bind_ok, Hcmd.
  rewrite (bool_decide_eq_false_2 (cmd_proc cmd = AskingCommand)) by done. set (c1 := with_asking c false).
  change (q_argc c1) with (q_argc c). rewrite Har. change (q_out c1) with (q_out c).
  unfold gates in Hg. rewrite !andb_true_iff, !negb_true_iff in Hg.
  destruct Hg as [[[[[[Hpass Hcl] Hmm] _] _] Hlua] Hps].
  rewrite Hpass, Hcl. cbn [andb]. unfold accept_command. rewrite Hmm. cbn [negb]. rewrite andb_false_r.
  assert (write_refusal g en cmd = None) as ->.
  { unfold write_refusal. rewrite (bool_decide_eq_false_2 (cmd_proc cmd = PingCommand)) by done. rewrite orb_false_r.
    destruct (cmd_flag cmd CMD_WRITE); [|by rewrite !andb_false_r].
    rewrite orb_false_r in Hw. unfold writes_allowed in Hw. rewrite !andb_true_iff in Hw. destruct Hw as [[H1%negb_true_iff ->] H3%negb_true_iff].
    rewrite H1, !andb_true_r. cbn [negb orb andb]. rewrite master. cbn [negb andb]. by rewrite H3. }
  unfold state_refusal. rewrite master, loaded. change (q_out c1) with (q_out c). cbn [andb]. rewrite Hps, Hlua. cbn [andb]. by rewrite bind_ok.
Qed.

Lemma processCommand_runs g (s : session T) c a0 name cmd :
  open_guards g en (q_out c) = true -> writes_allowed g || negb (cmd_flag cmd CMD_WRITE) = true ->
  q_argv c !! 0%nat = Some a0 -> node_ok a0 -> objval a0 = Some name -> no_nul name -> (strcasecmp name (str "quit") =? 0) = false ->
  lookupCommand name = Some cmd -> cmd_proc cmd <> AskingCommand -> cmd_proc cmd <> PingCommand ->
  ((cmd_arity cmd >? 0) && negb (cmd_arity cmd =? q_argc c)) || (q_argc c <? - cmd_arity cmd) = false ->
  process g en s c = ('(s, c) ← call junk sdsZmallocSize embeddedSize client_obuf_limits unixtime shareable other_proc en cmd s (with_asking c false);
    s ← handleClientsBlockedOnLists s; Ok (s, Some (c, true))).
Proof.
  rewrite open_guards_gates, andb_true_iff, negb_true_iff. intros [Hg Hmulti] **. rewrite (processCommand_passes g s c a0 name cmd) by done.
  unfold exec_command. change (q_out (with_asking c false)) with (q_out c). by rewrite Hmulti.
Qed.

(** The page command passes the open guards: its result is left in the
    session, and nothing is sent. *)
Lemma processCommand_page g (s : session T) c cmd key k :
  open_guards g en (q_out c) = true -> db_ok (s_db s) ->
  q_argv c = [cmd; key] -> node_ok cmd -> objval cmd = Some (str "getNoReplyCommand") ->
  node_ok key -> objval key = Some k ->
  let '(err, rep, _) := page_result (live now (s_db s) k) in
  exists db', process g en s c = Ok (mkSession db' (s_dirty s) err rep (s_queued s) (s_watched s) (s_watching s), Some (with_asking c false, true)) /\
    db_ok db' /\ same_live now (s_db s) db'.
Proof.
  intros Hg Hdb Ha Hc Hcv Hk Hkv.
  assert (process g en s c = ('(s, c) ← call junk sdsZmallocSize embeddedSize client_obuf_limits unixtime shareable other_proc en
    getNoReply_entry s (with_asking c false); s ← handleClientsBlockedOnLists s; Ok (s, Some (c, true)))) as ->.
  { apply (processCommand_runs g s c cmd (str "getNoReplyCommand")); try done; [by rewrite orb_true_r|by rewrite Ha|
      repeat constructor; done|unfold q_argc; by rewrite Ha]. }
  unfold call. cbn [getNoReply_entry cmd_proc]. set (c1 := with_asking c false).
  pose proof (getNoReply_ok s c1 key k Hdb) as HG. change (q_argv c1) with (q_argv c) in HG. rewrite Ha in HG. specialize (HG eq_refl Hk Hkv).
  destruct (page_result (live now (s_db s) k)) as [[err rep] ok]. destruct HG as (db' & -> & Hdb' & Hl).
  rewrite !bind_ok, no_blocked_clients, bind_ok. by exists db'.
Qed.

(** Without a password, the page command is refused: an error is sent to the
    client, and the last result is what it was. *)
Lemma processCommand_noauth g (s : session T) c cmd key :
  g_requirepass g = true -> g_authenticated g = false -> ready' 1 (q_out c) -> flag (q_out c) CLIENT_MULTI = false ->
  q_argv c = [cmd; key] -> node_ok cmd -> objval cmd = Some (str "getNoReplyCommand") ->
  exists out, process g en s c = Ok (s, Some (with_out (with_asking c false) out, true)) /\
    replied' 1 (q_out c) (str "-NOAUTH Authentication required." ++ crlf) out.
Proof.
  intros Hp Hau Hr Hm Ha Hc Hcv. unfold process, arg. rewrite Ha. cbn [lookup list_lookup]. rewrite bind_ok.
  rewrite (obj_cstr_ok cmd (str "getNoReplyCommand")) by (done || (repeat constructor; done)). rewrite bind_ok.
  change (strcasecmp _ _ =? 0) with false. cbv iota. rewrite (obj_key_ok cmd (str "getNoReplyCommand")) by done.
  rewrite bind_ok, page_command. cbn [getNoReply_entry cmd_arity cmd_proc cmd_getkeys cmd_firstkey].
  rewrite (bool_decide_eq_false_2 (GetNoReplyCommand = AskingCommand)) by done. set (c1 := with_asking c false).
  assert (q_argv c1 = [cmd; key]) as Ha1 by done. unfold q_argc. rewrite Ha1. cbn [length].
  change ((2 >? 0) && negb (2 =? Z.of_nat 2) || (Z.of_nat 2 <? -(2))) with false. cbv iota.
  rewrite Hp, Hau. rewrite !bool_decide_eq_false_2 by done. cbn [andb negb]. unfold refuse, flagTransaction.
  change (q_out c1) with (q_out c). rewrite Hm.
  destruct (add_shared_ok c1 (str "-NOAUTH Authentication required." ++ crlf)) as (out & -> & Hout); [done|done|].
  rewrite bind_ok. by exists out.
Qed.
End CommandSpec.
