(* ===== verification/Strings.v ===== *)
(** * String commands ([src/t_string.c])

    The commands on strings next to GET and SET, with the helpers of
    [src/object.c] and [src/db.c] that they use. A command that changes a string
    in place does so only when the object has one owner and the right encoding;
    otherwise it stores a copy. INCRBYFLOAT, which computes with [long double],
    is not modelled. *)

From S2P Require Import Prelude CLib Util Sds Object Reply Resp Dict KeyDict Db Command.
Local Open Scope Z_scope.

Definition STRING_MAX : Z := 512 * 1024 * 1024.

(** ** The entries of [redisCommandTable] *)

Definition wm : Z := 2 ^ CMD_WRITE + 2 ^ CMD_DENYOOM.
Definition rF : Z := 2 ^ CMD_READONLY + 2 ^ CMD_FAST.

Definition string_table : list redisCommand := [
  get_entry; getNoReply_entry; set_entry;
  mkCmd (str "setnx") SetnxCommand 3 (wm + 2 ^ CMD_FAST) false 1;
  mkCmd (str "setex") SetexCommand 4 wm false 1;
  mkCmd (str "psetex") PsetexCommand 4 wm false 1;
  mkCmd (str "append") AppendCommand 3 wm false 1;
  mkCmd (str "strlen") StrlenCommand 2 rF false 1;
  mkCmd (str "setrange") SetrangeCommand 4 wm false 1;
  mkCmd (str "getrange") GetrangeCommand 4 (2 ^ CMD_READONLY) false 1;
  mkCmd (str "substr") GetrangeCommand 4 (2 ^ CMD_READONLY) false 1;
  mkCmd (str "incr") IncrCommand 2 (wm + 2 ^ CMD_FAST) false 1;
  mkCmd (str "decr") DecrCommand 2 (wm + 2 ^ CMD_FAST) false 1;
  mkCmd (str "mget") MgetCommand (-2) (2 ^ CMD_READONLY) false 1;
  mkCmd (str "incrby") IncrbyCommand 3 (wm + 2 ^ CMD_FAST) false 1;
  mkCmd (str "decrby") DecrbyCommand 3 (wm + 2 ^ CMD_FAST) false 1;
  mkCmd (str "getset") GetsetCommand 3 wm false 1;
  mkCmd (str "mset") MsetCommand (-3) wm false 1;
  mkCmd (str "msetnx") MsetnxCommand (-3) wm false 1 ].

(** [o->ptr = ...]: the object with another payload. *)
Definition with_ptr (o : robj) (p : obj_ptr) : robj := mkObj (o_type o) (o_encoding o) p (o_refcount o).

Section Strings.
Context {T : Type -> Type} `{KD : KeyDict T}.
Variable junk : Z.
Variable sdsZmallocSize : sds -> Z.
Variable embeddedSize : sds -> Z.
Variable client_obuf_limits : client_type -> obuf_limits.
Variable unixtime : Z.
Variable shareable : bool.

#[local] Abbreviation add_shared := (add_shared junk sdsZmallocSize embeddedSize client_obuf_limits unixtime).
#[local] Abbreviation add_error := (add_error junk sdsZmallocSize embeddedSize client_obuf_limits unixtime).
#[local] Abbreviation lookup_or_reply := (lookupKeyReadOrReply junk sdsZmallocSize embeddedSize client_obuf_limits unixtime).
#[local] Abbreviation get_longlong := (getLongLongFromObjectOrReply junk sdsZmallocSize embeddedSize client_obuf_limits unixtime).
#[local] Abbreviation set_generic := (setGenericCommand junk sdsZmallocSize embeddedSize client_obuf_limits unixtime).
#[local] Abbreviation encode := (tryObjectEncoding junk shareable).

Definition add_object (c : reqst) (o : robj) : res reqst :=
  out ← addReply junk sdsZmallocSize embeddedSize client_obuf_limits unixtime (q_out c) o; Ok (with_out c out).
Definition add_bulk (c : reqst) (o : robj) : res reqst :=
  out ← addReplyBulk junk sdsZmallocSize embeddedSize client_obuf_limits unixtime (q_out c) o; Ok (with_out c out).
Definition add_bulk_bytes (c : reqst) (p : bytes) : res reqst :=
  out ← addReplyBulkCBuffer junk sdsZmallocSize embeddedSize client_obuf_limits unixtime (q_out c) p; Ok (with_out c out).
(** The length, a [size_t], is converted to [long long]. *)
Definition add_longlong (c : reqst) (n : Z) : res reqst :=
  out ← addReplyLongLong junk sdsZmallocSize embeddedSize client_obuf_limits unixtime (q_out c) (s64 n); Ok (with_out c out).

Definition addReplyMultiBulkLen (c : reqst) (length : Z) : res reqst :=
  if length <? OBJ_SHARED_BULKHDR_LEN then add_shared c ([42] ++ dec length ++ crlf)
  else out ← addReplyLongLongWithPrefix junk sdsZmallocSize embeddedSize client_obuf_limits unixtime (q_out c) length 42;
       Ok (with_out c out).

(** ** Helpers *)

(** The flag is the result 1: an error was replied. *)
Definition checkType (c : reqst) (o : robj) (type : obj_type) : res (reqst * bool) :=
  if negb (bool_decide (o_type o = type)) then c ← add_shared c wrongtypeerr; Ok (c, true) else Ok (c, false).

(** The flag is the result C_OK. *)
Definition checkStringLength (c : reqst) (size : Z) : res (reqst * bool) :=
  if size >? STRING_MAX then c ← add_error c (str "string exceeds maximum allowed size (512MB)"); Ok (c, false)
  else Ok (c, true).

Definition stringObjectLen (o : robj) : res Z :=
  if negb (bool_decide (o_type o = OBJ_STRING)) then Fault AssertFailed else
  if sdsEncodedObject o then s ← obj_sds o; Ok (sdslen s)
  else match o_ptr o with PtrInt n => Ok (sdigits10 n) | _ => Fault OutOfBounds end.

(** [long] has 64 bits, as [long long]. *)
Definition getLongFromObjectOrReply (c : reqst) (o : option robj) (msg : option bytes) : res (reqst * option Z) :=
  '(c, v) ← get_longlong c o msg;
  match v with
  | None => Ok (c, None)
  | Some value =>
      if (value <? LLONG_MIN) || (value >? LLONG_MAX) then
        c ← add_error c (default (str "value is out of range") msg); Ok (c, None)
      else Ok (c, Some value)
  end.

(** The object at the key, ready to be changed in place. *)
Definition dbUnshareStringValue (db : redisDb T) (key : bytes) (o : robj) : res (redisDb T * robj) :=
  if negb (bool_decide (o_type o = OBJ_STRING)) then Fault AssertFailed else
  if negb (o_refcount o =? 1) || negb (bool_decide (o_encoding o = OBJ_ENCODING_RAW)) then
    decoded ← getDecodedObject junk o;
    s ← obj_sds decoded;
    o ← createRawStringObject junk (sds_mem s) (sdslen s);
    db ← dbOverwrite db key o;
    Ok (db, o)
  else Ok (db, o).

(** [signalModifiedKey], the notification and [server.dirty++]. *)
Definition modified (s : session T) (db : redisDb T) (event k : bytes) : session T :=
  mkSession (emit (emit db (EvModified k)) (EvNotify event k)) (s_dirty s + 1) (s_last_error s) (s_last_reply s) (s_queued s) (s_watched s) (s_watching s).

(** ** Stores *)

Definition setnxCommand (en : env) (s : session T) (c : reqst) : res (session T * reqst) :=
  v ← arg c 2; v ← encode v;
  let c := set_arg c 2 v in
  k ← arg c 1;
  set_generic en (str "setnx") s c (2 ^ OBJ_SET_NX) k v None UNIT_SECONDS (Some (str ":1" ++ crlf)) (Some (str ":0" ++ crlf)).

Definition setexCommand (en : env) (s : session T) (c : reqst) : res (session T * reqst) :=
  v ← arg c 3; v ← encode v;
  let c := set_arg c 3 v in
  k ← arg c 1; e ← arg c 2;
  set_generic en (str "setex") s c 0 k v (Some e) UNIT_SECONDS None None.

Definition psetexCommand (en : env) (s : session T) (c : reqst) : res (session T * reqst) :=
  v ← arg c 3; v ← encode v;
  let c := set_arg c 3 v in
  k ← arg c 1; e ← arg c 2;
  set_generic en (str "psetex") s c 0 k v (Some e) UNIT_MILLISECONDS None None.

Definition getsetCommand (en : env) (s : session T) (c : reqst) : res (session T * reqst) :=
  '(s, c, ok) ← getGenericCommand junk sdsZmallocSize embeddedSize client_obuf_limits unixtime en s c;
  if negb ok then Ok (s, c) else
  v ← arg c 2; v ← encode v;
  let c := set_arg c 2 v in
  key ← arg c 1; k ← obj_key key;
  db ← setKey en (s_db s) k v;
  Ok (mkSession (emit db (EvNotify (str "set") k)) (s_dirty s + 1) (s_last_error s) (s_last_reply s) (s_queued s) (s_watched s) (s_watching s), c).

(** The end of SETRANGE: the object at the key, which is in the database, is
    grown and written. *)
Definition setrange_write (s : session T) (c : reqst) (db : redisDb T) (k : bytes) (o : robj) (offset : Z) (value : sds)
  : res (session T * reqst) :=
  if sdslen value >? 0 then
    p ← obj_sds o;
    p ← sdsgrowzero junk p (u64 (offset + sdslen value));
    d ← mread (sds_mem value) 0 (Z.to_nat (sdslen value));
    mem ← mwrite (sds_mem p) (Z.to_nat offset) d;
    let p := set_mem p mem in
    db ← write_value db k (with_ptr o (PtrSds p));
    c ← add_longlong c (sdslen p);
    Ok (modified s db (str "setrange") k, c)
  else p ← obj_sds o; c ← add_longlong c (sdslen p); Ok (with_db s db, c).

Definition setrangeCommand (en : env) (s : session T) (c : reqst) : res (session T * reqst) :=
  v ← arg c 3; value ← obj_sds v;
  e ← arg c 2;
  '(c, offset) ← getLongFromObjectOrReply c (Some e) None;
  match offset with
  | None => Ok (s, c)
  | Some offset =>
      if offset <? 0 then c ← add_error c (str "offset is out of range"); Ok (s, c) else
      key ← arg c 1; k ← obj_key key;
      '(db, o) ← lookupKeyWrite en (s_db s) k;
      match o with
      | None =>
          if sdslen value =? 0 then c ← add_shared c (str ":0" ++ crlf); Ok (with_db s db, c) else
          '(c, ok) ← checkStringLength c (s64 (u64 (offset + sdslen value)));
          if negb ok then Ok (with_db s db, c) else
          p ← sdsnewlen junk None (u64 (offset + sdslen value));
          let o := createObject OBJ_STRING p in
          db ← dbAdd en db k o;
          setrange_write s c db k o offset value
      | Some o =>
          '(c, wrong) ← checkType c o OBJ_STRING;
          if (wrong : bool) then Ok (with_db s db, c) else
          olen ← stringObjectLen o;
          if sdslen value =? 0 then c ← add_longlong c olen; Ok (with_db s db, c) else
          '(c, ok) ← checkStringLength c (s64 (u64 (offset + sdslen value)));
          if negb ok then Ok (with_db s db, c) else
          '(db, o) ← dbUnshareStringValue db k o;
          setrange_write s c db k o offset value
      end
  end.

Definition appendCommand (en : env) (s : session T) (c : reqst) : res (session T * reqst) :=
  key ← arg c 1; k ← obj_key key;
  '(db, o) ← lookupKeyWrite en (s_db s) k;
  match o with
  | None =>
      v ← arg c 2; v ← encode v;
      let c := set_arg c 2 v in
      db ← dbAdd en db k (incrRefCount v);
      totlen ← stringObjectLen v;
      c ← add_longlong c totlen;
      Ok (modified s db (str "append") k, c)
  | Some o =>
      '(c, wrong) ← checkType c o OBJ_STRING;
      if (wrong : bool) then Ok (with_db s db, c) else
      v ← arg c 2; append ← obj_sds v;
      olen ← stringObjectLen o;
      '(c, ok) ← checkStringLength c (s64 (u64 (olen + sdslen append)));
      if negb ok then Ok (with_db s db, c) else
      '(db, o) ← dbUnshareStringValue db k o;
      p ← obj_sds o;
      p ← sdscatlen junk p (sds_mem append) (sdslen append);
      db ← write_value db k (with_ptr o (PtrSds p));
      c ← add_longlong c (sdslen p);
      Ok (modified s db (str "append") k, c)
  end.

(** ** Several keys *)

(** The keys of MSETNX that exist, [j] by two. *)
Fixpoint busy_keys (en : env) (db : redisDb T) (args : list robj) (busykeys : Z) : res (redisDb T * Z) :=
  match args with
  | [] => Ok (db, busykeys)
  | key :: rest =>
      k ← obj_key key;
      '(db, o) ← lookupKeyWrite en db k;
      let busykeys := match o with Some _ => busykeys + 1 | None => busykeys end in
      match rest with [] => Ok (db, busykeys) | _ :: rest => busy_keys en db rest busykeys end
  end.

(** The arguments come back with their values encoded. *)
Fixpoint mset_loop (en : env) (db : redisDb T) (args : list robj) : res (redisDb T * list robj) :=
  match args with
  | [] => Ok (db, [])
  | key :: v :: rest =>
      v ← encode v;
      k ← obj_key key;
      db ← setKey en db k v;
      '(db, rest) ← mset_loop en (emit db (EvNotify (str "set") k)) rest;
      Ok (db, key :: v :: rest)
  | [_] => Fault OutOfBounds
  end.

Definition msetGenericCommand (en : env) (s : session T) (c : reqst) (nx : bool) : res (session T * reqst) :=
  if Z.rem (q_argc c) 2 =? 0 then c ← add_error c (str "wrong number of arguments for MSET"); Ok (s, c) else
  '(db, busykeys) ← (if nx then busy_keys en (s_db s) (drop 1 (q_argv c)) 0 else Ok (s_db s, 0));
  if nx && negb (busykeys =? 0) then c ← add_shared c (str ":0" ++ crlf); Ok (with_db s db, c) else
  '(db, args) ← mset_loop en db (drop 1 (q_argv c));
  let c := with_args c (take 1 (q_argv c) ++ args) (q_multibulklen c) (q_bulklen c) in
  let s := mkSession db (s_dirty s + Z.quot (q_argc c - 1) 2) (s_last_error s) (s_last_reply s) (s_queued s) (s_watched s) (s_watching s) in
  c ← add_shared c (if nx then str ":1" ++ crlf else str "+OK" ++ crlf);
  Ok (s, c).

Definition msetCommand (en : env) (s : session T) (c : reqst) : res (session T * reqst) := msetGenericCommand en s c false.
Definition msetnxCommand (en : env) (s : session T) (c : reqst) : res (session T * reqst) := msetGenericCommand en s c true.

Fixpoint mget_loop (en : env) (db : redisDb T) (c : reqst) (args : list robj) : res (redisDb T * reqst) :=
  match args with
  | [] => Ok (db, c)
  | key :: rest =>
      k ← obj_key key;
      '(db, o) ← lookupKeyRead en db k;
      c ← match o with
          | None => add_shared c (str "$-1" ++ crlf)
          | Some o => if negb (bool_decide (o_type o = OBJ_STRING)) then add_shared c (str "$-1" ++ crlf) else add_bulk c o
          end;
      mget_loop en db c rest
  end.

Definition mgetCommand (en : env) (s : session T) (c : reqst) : res (session T * reqst) :=
  c ← addReplyMultiBulkLen c (q_argc c - 1);
  '(db, c) ← mget_loop en (s_db s) c (drop 1 (q_argv c));
  Ok (with_db s db, c).

(** ** Reads *)

Definition getrangeCommand (en : env) (s : session T) (c : reqst) : res (session T * reqst) :=
  e ← arg c 2;
  '(c, start) ← get_longlong c (Some e) None;
  match start with
  | None => Ok (s, c)
  | Some start =>
  e ← arg c 3;
  '(c, end_) ← get_longlong c (Some e) None;
  match end_ with
  | None => Ok (s, c)
  | Some end_ =>
  key ← arg c 1;
  '(s, c, o) ← lookup_or_reply en s c key (str "$0" ++ crlf ++ crlf);
  match o with
  | None => Ok (s, c)
  | Some o =>
  '(c, wrong) ← checkType c o OBJ_STRING;
  if (wrong : bool) then Ok (s, c) else
  '(text, strlen) ← match o_encoding o, o_ptr o with
    | OBJ_ENCODING_INT, PtrInt n => '(len, buf) ← ll2string (replicate 32 junk) 32 n; Ok (buf, len)
    | _, PtrSds p => Ok (sds_mem p, sdslen p)
    | _, _ => Fault OutOfBounds
    end;
  if (start <? 0) && (end_ <? 0) && (start >? end_) then c ← add_shared c (str "$0" ++ crlf ++ crlf); Ok (s, c) else
  let start := if start <? 0 then s64 (strlen + start) else start in
  let end_ := if end_ <? 0 then s64 (strlen + end_) else end_ in
  let start := if start <? 0 then 0 else start in
  let end_ := if end_ <? 0 then 0 else end_ in
  let end_ := if u64 end_ >=? strlen then s64 (strlen - 1) else end_ in
  if (start >? end_) || (strlen =? 0) then c ← add_shared c (str "$0" ++ crlf ++ crlf); Ok (s, c) else
  p ← mread text (Z.to_nat start) (Z.to_nat (end_ - start + 1));
  c ← add_bulk_bytes c p;
  Ok (s, c)
  end end end.

Definition strlenCommand (en : env) (s : session T) (c : reqst) : res (session T * reqst) :=
  key ← arg c 1;
  '(s, c, o) ← lookup_or_reply en s c key (str ":0" ++ crlf);
  match o with
  | None => Ok (s, c)
  | Some o =>
      '(c, wrong) ← checkType c o OBJ_STRING;
      if (wrong : bool) then Ok (s, c) else
      len ← stringObjectLen o;
      c ← add_longlong c len;
      Ok (s, c)
  end.

(** ** Counters *)

Definition incr_overflows (incr oldvalue : Z) : bool :=
  ((incr <? 0) && (oldvalue <? 0) && (incr <? LLONG_MIN - oldvalue)) ||
  ((incr >? 0) && (oldvalue >? 0) && (incr >? LLONG_MAX - oldvalue)).

(** The object with the new value, and the database that has it. *)
Definition store_number (en : env) (db : redisDb T) (k : bytes) (o : option robj) (value : Z) : res (redisDb T * robj) :=
  match o with
  | Some o =>
      if (o_refcount o =? 1) && bool_decide (o_encoding o = OBJ_ENCODING_INT) &&
         ((value <? 0) || (value >=? OBJ_SHARED_INTEGERS)) && (value >=? LLONG_MIN) && (value <=? LLONG_MAX) then
        let new := with_ptr o (PtrInt value) in db ← write_value db k new; Ok (db, new)
      else
        let new := createStringObjectFromLongLong value in db ← dbOverwrite db k new; Ok (db, new)
  | None =>
      let new := createStringObjectFromLongLong value in db ← dbAdd en db k new; Ok (db, new)
  end.

Definition incrDecrCommand (en : env) (s : session T) (c : reqst) (incr : Z) : res (session T * reqst) :=
  key ← arg c 1; k ← obj_key key;
  '(db, o) ← lookupKeyWrite en (s_db s) k;
  '(c, wrong) ← match o with Some o => checkType c o OBJ_STRING | None => Ok (c, false) end;
  if (wrong : bool) then Ok (with_db s db, c) else
  '(c, value) ← get_longlong c o None;
  match value with
  | None => Ok (with_db s db, c)
  | Some oldvalue =>
      if incr_overflows incr oldvalue then
        c ← add_error c (str "increment or decrement would overflow"); Ok (with_db s db, c)
      else
        '(db, new) ← store_number en db k o (s64 (oldvalue + incr));
        c ← add_shared c (str ":");
        c ← add_object c new;
        c ← add_shared c crlf;
        Ok (modified s db (str "incrby") k, c)
  end.

Definition incrCommand (en : env) (s : session T) (c : reqst) : res (session T * reqst) := incrDecrCommand en s c 1.
Definition decrCommand (en : env) (s : session T) (c : reqst) : res (session T * reqst) := incrDecrCommand en s c (-1).

Definition incrbyCommand (en : env) (s : session T) (c : reqst) : res (session T * reqst) :=
  e ← arg c 2;
  '(c, incr) ← get_longlong c (Some e) None;
  match incr with None => Ok (s, c) | Some incr => incrDecrCommand en s c incr end.

Definition decrbyCommand (en : env) (s : session T) (c : reqst) : res (session T * reqst) :=
  e ← arg c 2;
  '(c, incr) ← get_longlong c (Some e) None;
  match incr with None => Ok (s, c) | Some incr => incrDecrCommand en s c (s64 (- incr)) end.

(** ** The handlers *)

(** The commands that are not in this file. *)
Variable other_proc : proc -> session T -> reqst -> res (session T * reqst).

Definition string_proc (en : env) (p : proc) (s : session T) (c : reqst) : res (session T * reqst) :=
  match p with
  | SetnxCommand => setnxCommand en s c
  | SetexCommand => setexCommand en s c
  | PsetexCommand => psetexCommand en s c
  | AppendCommand => appendCommand en s c
  | StrlenCommand => strlenCommand en s c
  | SetrangeCommand => setrangeCommand en s c
  | GetrangeCommand => getrangeCommand en s c
  | IncrCommand => incrCommand en s c
  | DecrCommand => decrCommand en s c
  | IncrbyCommand => incrbyCommand en s c
  | DecrbyCommand => decrbyCommand en s c
  | GetsetCommand => getsetCommand en s c
  | MgetCommand => mgetCommand en s c
  | MsetCommand => msetCommand en s c
  | MsetnxCommand => msetnxCommand en s c
  | _ => other_proc p s c
  end.
End Strings.
