(* ===== verification/Keys.v ===== *)
(** * Commands on keys ([src/db.c])

    The commands that work on keys whatever their values: deletion, existence,
    expire times, renaming, types. *)

From S2P Require Import Prelude CLib Util Sds Object Reply Resp Dict KeyDict Db Command Strings.
Local Open Scope Z_scope.

(** ** The entries of [redisCommandTable] *)

Definition key_table : list redisCommand := [
  mkCmd (str "del") DelCommand (-2) (2 ^ CMD_WRITE) false 1;
  mkCmd (str "exists") ExistsCommand (-2) rF false 1;
  mkCmd (str "rename") RenameCommand 3 (2 ^ CMD_WRITE) false 1;
  mkCmd (str "renamenx") RenamenxCommand 3 (2 ^ CMD_WRITE + 2 ^ CMD_FAST) false 1;
  mkCmd (str "expire") ExpireCommand 3 (2 ^ CMD_WRITE + 2 ^ CMD_FAST) false 1;
  mkCmd (str "expireat") ExpireatCommand 3 (2 ^ CMD_WRITE + 2 ^ CMD_FAST) false 1;
  mkCmd (str "pexpire") PexpireCommand 3 (2 ^ CMD_WRITE + 2 ^ CMD_FAST) false 1;
  mkCmd (str "pexpireat") PexpireatCommand 3 (2 ^ CMD_WRITE + 2 ^ CMD_FAST) false 1;
  mkCmd (str "dbsize") DbsizeCommand 1 rF false 0;
  mkCmd (str "type") TypeCommand 2 rF false 1;
  mkCmd (str "flushdb") FlushdbCommand 1 (2 ^ CMD_WRITE) false 0;
  mkCmd (str "ttl") TtlCommand 2 rF false 1;
  mkCmd (str "touch") TouchCommand (-2) rF false 1;
  mkCmd (str "pttl") PttlCommand 2 rF false 1;
  mkCmd (str "persist") PersistCommand 2 (2 ^ CMD_WRITE + 2 ^ CMD_FAST) false 1 ].

Section Keys.
Context {T : Type -> Type} `{KD : KeyDict T}.
Variable junk : Z.
Variable sdsZmallocSize : sds -> Z.
Variable embeddedSize : sds -> Z.
Variable client_obuf_limits : client_type -> obuf_limits.
Variable unixtime : Z.

#[local] Abbreviation add_shared := (add_shared junk sdsZmallocSize embeddedSize client_obuf_limits unixtime).
#[local] Abbreviation add_longlong := (add_longlong junk sdsZmallocSize embeddedSize client_obuf_limits unixtime).
#[local] Abbreviation get_longlong := (getLongLongFromObjectOrReply junk sdsZmallocSize embeddedSize client_obuf_limits unixtime).

Definition add_status (c : reqst) (msg : bytes) : res reqst :=
  out ← addReplyStatus junk sdsZmallocSize embeddedSize client_obuf_limits unixtime (q_out c) msg; Ok (with_out c out).

(** ** Deletion and existence *)

Fixpoint del_loop (en : env) (s : session T) (args : list robj) (deleted : Z) : res (session T * Z) :=
  match args with
  | [] => Ok (s, deleted)
  | key :: rest =>
      k ← obj_key key;
      '(db, _) ← expireIfNeeded en (s_db s) k;
      '(db, ok) ← dbDelete en db k;
      if (ok : bool) then del_loop en (modified s db (str "del") k) rest (deleted + 1)
      else del_loop en (with_db s db) rest deleted
  end.

Definition delCommand (en : env) (s : session T) (c : reqst) : res (session T * reqst) :=
  '(s, deleted) ← del_loop en s (drop 1 (q_argv c)) 0;
  c ← add_longlong c deleted;
  Ok (s, c).

Fixpoint exists_loop (en : env) (db : redisDb T) (args : list robj) (count : Z) : res (redisDb T * Z) :=
  match args with
  | [] => Ok (db, count)
  | key :: rest =>
      k ← obj_key key;
      '(db, _) ← expireIfNeeded en db k;
      '(db, b) ← dbExists db k;
      exists_loop en db rest (if (b : bool) then count + 1 else count)
  end.

Definition existsCommand (en : env) (s : session T) (c : reqst) : res (session T * reqst) :=
  '(db, count) ← exists_loop en (s_db s) (drop 1 (q_argv c)) 0;
  c ← add_longlong c count;
  Ok (with_db s db, c).

Fixpoint touch_loop (en : env) (db : redisDb T) (args : list robj) (touched : Z) : res (redisDb T * Z) :=
  match args with
  | [] => Ok (db, touched)
  | key :: rest =>
      k ← obj_key key;
      '(db, o) ← lookupKeyRead en db k;
      touch_loop en db rest (if is_some o then touched + 1 else touched)
  end.

Definition touchCommand (en : env) (s : session T) (c : reqst) : res (session T * reqst) :=
  '(db, touched) ← touch_loop en (s_db s) (drop 1 (q_argv c)) 0;
  c ← add_longlong c touched;
  Ok (with_db s db, c).

Definition flushdbCommand (en : env) (s : session T) (c : reqst) : res (session T * reqst) :=
  let dirty := s_dirty s + kd_size (db_dict (s_db s)) in
  let db := mkDb kd_empty kd_empty (db_events (s_db s) ++ [EvFlushed (db_dict (s_db s))]) in
  let db := if e_cluster en then emit db EvSlotFlush else db in
  c ← add_shared c (str "+OK" ++ crlf);
  Ok (mkSession db dirty (s_last_error s) (s_last_reply s) (s_queued s) (s_watched s) (s_watching s), c).

(** Keys that have expired and were not deleted yet are counted. *)
Definition dbsizeCommand (s : session T) (c : reqst) : res (session T * reqst) :=
  c ← add_longlong c (kd_size (db_dict (s_db s))); Ok (s, c).

Definition type_name (t : obj_type) : bytes :=
  match t with
  | OBJ_STRING => str "string" | OBJ_LIST => str "list" | OBJ_SET => str "set" | OBJ_ZSET => str "zset" | OBJ_HASH => str "hash"
  end.

Definition typeCommand (en : env) (s : session T) (c : reqst) : res (session T * reqst) :=
  key ← arg c 1; k ← obj_key key;
  '(db, o) ← lookupKeyReadWithFlags en (s_db s) k;
  c ← add_status c (match o with None => str "none" | Some o => type_name (o_type o) end);
  Ok (with_db s db, c).

(** ** Expire times *)

(** The new vector has a reference to each of its objects. *)
Definition rewriteClientCommandVector (c : reqst) (argv : list robj) : reqst :=
  with_args c (incrRefCount <$> argv) (q_multibulklen c) (q_bulklen c).

Definition expireGenericCommand (en : env) (s : session T) (c : reqst) (basetime : Z) (unit : time_unit) : res (session T * reqst) :=
  key ← arg c 1; param ← arg c 2;
  '(c, when) ← get_longlong c (Some param) None;
  match when with
  | None => Ok (s, c)
  | Some when =>
      let when := match unit with UNIT_SECONDS => s64 (when * 1000) | UNIT_MILLISECONDS => when end in
      let when := s64 (when + basetime) in
      k ← obj_key key;
      '(db, o) ← lookupKeyWrite en (s_db s) k;
      match o with
      | None => c ← add_shared c (str ":0" ++ crlf); Ok (with_db s db, c)
      | Some _ =>
          if (when <=? e_now en) && negb (e_loading en) && negb (e_masterhost en) then
            '(db, ok) ← dbDelete en db k;
            if negb ok then Fault AssertFailed else
            aux ← createStringObject junk (str "DEL") 3;
            let c := rewriteClientCommandVector c [aux; key] in
            c ← add_shared c (str ":1" ++ crlf);
            Ok (modified s db (str "del") k, c)
          else
            db ← setExpire db k when;
            c ← add_shared c (str ":1" ++ crlf);
            Ok (modified s db (str "expire") k, c)
      end
  end.

Definition expireCommand (en : env) (s : session T) (c : reqst) : res (session T * reqst) :=
  expireGenericCommand en s c (e_now en) UNIT_SECONDS.
Definition expireatCommand (en : env) (s : session T) (c : reqst) : res (session T * reqst) :=
  expireGenericCommand en s c 0 UNIT_SECONDS.
Definition pexpireCommand (en : env) (s : session T) (c : reqst) : res (session T * reqst) :=
  expireGenericCommand en s c (e_now en) UNIT_MILLISECONDS.
Definition pexpireatCommand (en : env) (s : session T) (c : reqst) : res (session T * reqst) :=
  expireGenericCommand en s c 0 UNIT_MILLISECONDS.

Definition ttlGenericCommand (en : env) (s : session T) (c : reqst) (output_ms : bool) : res (session T * reqst) :=
  key ← arg c 1; k ← obj_key key;
  '(db, o) ← lookupKeyReadWithFlags en (s_db s) k;
  match o with
  | None => c ← add_longlong c (-2); Ok (with_db s db, c)
  | Some _ =>
      '(db, expire) ← getExpire db k;
      let ttl := if negb (expire =? -1) then
                   let ttl := s64 (expire - e_now en) in if ttl <? 0 then 0 else ttl
                 else -1 in
      c ← (if ttl =? -1 then add_longlong c (-1)
           else add_longlong c (if output_ms then ttl else Z.quot (s64 (ttl + 500)) 1000));
      Ok (with_db s db, c)
  end.

Definition ttlCommand (en : env) (s : session T) (c : reqst) : res (session T * reqst) := ttlGenericCommand en s c false.
Definition pttlCommand (en : env) (s : session T) (c : reqst) : res (session T * reqst) := ttlGenericCommand en s c true.

(** The key is looked up without [expireIfNeeded]. *)
Definition persistCommand (s : session T) (c : reqst) : res (session T * reqst) :=
  key ← arg c 1; k ← obj_key key;
  '(db, de) ← dict_find (s_db s) k;
  match de with
  | None => c ← add_shared c (str ":0" ++ crlf); Ok (with_db s db, c)
  | Some _ =>
      '(db, removed) ← removeExpire db k;
      if (removed : bool) then
        c ← add_shared c (str ":1" ++ crlf);
        Ok (mkSession db (s_dirty s + 1) (s_last_error s) (s_last_reply s) (s_queued s) (s_watched s) (s_watching s), c)
      else c ← add_shared c (str ":0" ++ crlf); Ok (with_db s db, c)
  end.

(** ** Renaming *)

Definition nokeyerr : bytes := str "-ERR no such key" ++ crlf.

(** The events after a rename. *)
Definition renamed (s : session T) (db : redisDb T) (k k2 : bytes) : session T :=
  let db := emit (emit db (EvModified k)) (EvModified k2) in
  let db := emit (emit db (EvNotify (str "rename_from") k)) (EvNotify (str "rename_to") k2) in
  mkSession db (s_dirty s + 1) (s_last_error s) (s_last_reply s) (s_queued s) (s_watched s) (s_watching s).

Definition renameGenericCommand (en : env) (s : session T) (c : reqst) (nx : bool) : res (session T * reqst) :=
  key ← arg c 1; key2 ← arg c 2;
  s1 ← obj_sds key; s2 ← obj_sds key2;
  cmp ← sdscmp s1 s2;
  k ← obj_key key; k2 ← obj_key key2;
  '(db, o) ← lookupKeyWrite en (s_db s) k;
  match o with
  | None => c ← add_shared c nokeyerr; Ok (with_db s db, c)
  | Some o =>
      if cmp =? 0 then c ← add_shared c (if nx then str ":0" ++ crlf else str "+OK" ++ crlf); Ok (with_db s db, c) else
      let o := incrRefCount o in
      '(db, expire) ← getExpire db k;
      '(db, o2) ← lookupKeyWrite en db k2;
      if is_some o2 && nx then c ← add_shared c (str ":0" ++ crlf); Ok (with_db s db, c) else
      db ← (if is_some o2 then '(db, _) ← dbDelete en db k2; Ok db else Ok db);
      db ← dbAdd en db k2 o;
      db ← (if negb (expire =? -1) then setExpire db k2 expire else Ok db);
      '(db, _) ← dbDelete en db k;
      c ← add_shared c (if nx then str ":1" ++ crlf else str "+OK" ++ crlf);
      Ok (renamed s db k k2, c)
  end.

Definition renameCommand (en : env) (s : session T) (c : reqst) : res (session T * reqst) := renameGenericCommand en s c false.
Definition renamenxCommand (en : env) (s : session T) (c : reqst) : res (session T * reqst) := renameGenericCommand en s c true.

(** ** The handlers *)

(** The commands that are not in this file. *)
Variable other_proc : proc -> session T -> reqst -> res (session T * reqst).

Definition key_proc (en : env) (p : proc) (s : session T) (c : reqst) : res (session T * reqst) :=
  match p with
  | DelCommand => delCommand en s c
  | ExistsCommand => existsCommand en s c
  | TouchCommand => touchCommand en s c
  | ExpireCommand => expireCommand en s c
  | ExpireatCommand => expireatCommand en s c
  | PexpireCommand => pexpireCommand en s c
  | PexpireatCommand => pexpireatCommand en s c
  | TtlCommand => ttlCommand en s c
  | PttlCommand => pttlCommand en s c
  | PersistCommand => persistCommand s c
  | TypeCommand => typeCommand en s c
  | RenameCommand => renameCommand en s c
  | RenamenxCommand => renamenxCommand en s c
  | FlushdbCommand => flushdbCommand en s c
  | DbsizeCommand => dbsizeCommand s c
  | _ => other_proc p s c
  end.
End Keys.
