(* ===== verification/Sets.v ===== *)
(** * Commands on sets ([src/t_set.c])

    SADD, SREM, SMOVE, SISMEMBER and SCARD. A set is changed through the pointer
    that the lookup returned, so the value at the key is written back; the lookup
    of a member may reorganise the hash table, which is a write too. *)

From S2P Require Import Prelude CLib Util Sds Dict IntSet Object SetType Reply Resp KeyDict Db Command Strings Keys.
Local Open Scope Z_scope.

(** ** The entries of [redisCommandTable] *)

Definition set_table : list redisCommand := [
  mkCmd (str "sadd") SaddCommand (-3) (wm + 2 ^ CMD_FAST) false 1;
  mkCmd (str "srem") SremCommand (-3) (2 ^ CMD_WRITE + 2 ^ CMD_FAST) false 1;
  mkCmd (str "smove") SmoveCommand 4 (2 ^ CMD_WRITE + 2 ^ CMD_FAST) false 1;
  mkCmd (str "sismember") SismemberCommand 3 rF false 1;
  mkCmd (str "scard") ScardCommand 2 rF false 1 ].

(** A set object that was just created. *)
Definition set_object (s : setobj) : robj := mkObj OBJ_SET OBJ_ENCODING_OTHER (PtrSet s) 1.

Definition obj_set (o : robj) : res setobj :=
  match o_ptr o with PtrSet s => Ok s | _ => Fault OutOfBounds end.

Section Sets.
Context {T : Type -> Type} `{KD : KeyDict T} `{SC : SetConfig}.
Variable junk : Z.
Variable sdsZmallocSize : sds -> Z.
Variable embeddedSize : sds -> Z.
Variable client_obuf_limits : client_type -> obuf_limits.
Variable unixtime : Z.
Variable shareable : bool.

#[local] Abbreviation add_shared := (add_shared junk sdsZmallocSize embeddedSize client_obuf_limits unixtime).
#[local] Abbreviation add_longlong := (add_longlong junk sdsZmallocSize embeddedSize client_obuf_limits unixtime).
#[local] Abbreviation lookup_or_reply := (lookupKeyReadOrReply junk sdsZmallocSize embeddedSize client_obuf_limits unixtime).
#[local] Abbreviation check_type := (checkType junk sdsZmallocSize embeddedSize client_obuf_limits unixtime).
#[local] Abbreviation encode := (tryObjectEncoding junk shareable).
#[local] Abbreviation set_add := (setTypeAdd junk set_hash set_can_resize set_max_entries).
#[local] Abbreviation set_remove := (setTypeRemove junk set_hash set_can_resize).
#[local] Abbreviation set_member := (setTypeIsMember set_hash).

Definition czero : bytes := str ":0" ++ crlf.
Definition cone : bytes := str ":1" ++ crlf.

Definition lookupKeyWriteOrReply (en : env) (s : session T) (c : reqst) (key : robj) (reply : bytes)
  : res (session T * reqst * option robj) :=
  k ← obj_key key;
  '(db, o) ← lookupKeyWrite en (s_db s) k;
  c ← match o with None => add_shared c reply | Some _ => Ok c end;
  Ok (with_db s db, c, o).

(** The members from argument [j] on: the set, the arguments as they are encoded,
    and how many members are new. *)
Fixpoint sadd_loop (set : setobj) (args : list robj) (added : Z) : res (setobj * list robj * Z) :=
  match args with
  | [] => Ok (set, [], added)
  | v :: rest =>
      v ← encode v;
      '(set, ok) ← set_add set v;
      '(set, rest, added) ← sadd_loop set rest (if (ok : bool) then added + 1 else added);
      Ok (set, v :: rest, added)
  end.

Definition with_argv (c : reqst) (argv : list robj) : reqst :=
  mkReq (q_querybuf c) (q_reqtype c) argv (q_multibulklen c) (q_bulklen c) (q_asking c) (q_out c).

Definition with_dirty (s : session T) (n : Z) : session T :=
  mkSession (s_db s) (s_dirty s + n) (s_last_error s) (s_last_reply s) (s_queued s) (s_watched s) (s_watching s).

Definition saddCommand (en : env) (s : session T) (c : reqst) : res (session T * reqst) :=
  key ← arg c 1; k ← obj_key key;
  '(db, o) ← lookupKeyWrite en (s_db s) k;
  '(db, c, set) ← match o with
                  | None => v ← arg c 2; new ← setTypeCreate v;
                            db ← dbAdd en db k (set_object new);
                            Ok (db, c, Some (set_object new))
                  | Some o => if negb (bool_decide (o_type o = OBJ_SET))
                              then c ← add_shared c wrongtypeerr; Ok (db, c, None)
                              else Ok (db, c, Some o)
                  end;
  match set with
  | None => Ok (with_db s db, c)
  | Some o =>
      set ← obj_set o;
      '(set, argv, added) ← sadd_loop set (drop 2 (q_argv c)) 0;
      let c := with_argv c (take 2 (q_argv c) ++ argv) in
      db ← write_value db k (with_ptr o (PtrSet set));
      let db := if negb (added =? 0) then emit (emit db (EvModified k)) (EvNotify (str "sadd") k) else db in
      c ← add_longlong c added;
      Ok (with_dirty (with_db s db) added, c)
  end.

(** The set, how many members are removed, and whether it became empty. *)
Fixpoint srem_loop (set : setobj) (args : list robj) (deleted : Z) : res (setobj * Z * bool) :=
  match args with
  | [] => Ok (set, deleted, false)
  | v :: rest =>
      '(set, ok) ← set_remove set v;
      if (ok : bool) then
        if setTypeSize set =? 0 then Ok (set, deleted + 1, true) else srem_loop set rest (deleted + 1)
      else srem_loop set rest deleted
  end.

Definition sremCommand (en : env) (s : session T) (c : reqst) : res (session T * reqst) :=
  key ← arg c 1;
  '(s, c, o) ← lookupKeyWriteOrReply en s c key czero;
  match o with
  | None => Ok (s, c)
  | Some o =>
      '(c, wrong) ← check_type c o OBJ_SET;
      if (wrong : bool) then Ok (s, c) else
      k ← obj_key key;
      set ← obj_set o;
      '(set, deleted, keyremoved) ← srem_loop set (drop 2 (q_argv c)) 0;
      db ← write_value (s_db s) k (with_ptr o (PtrSet set));
      db ← (if (keyremoved : bool) then '(db, _) ← dbDelete en db k; Ok db else Ok db);
      let db := if negb (deleted =? 0) then
                  let db := emit (emit db (EvModified k)) (EvNotify (str "srem") k) in
                  if (keyremoved : bool) then emit db (EvNotify (str "del") k) else db
                else db in
      c ← add_longlong c deleted;
      Ok (with_dirty (with_db s db) (if negb (deleted =? 0) then deleted else 0), c)
  end.

(** Two keys never have the same set object, so [srcset == dstset] compares the
    keys. *)
Definition smoveCommand (en : env) (s : session T) (c : reqst) : res (session T * reqst) :=
  key ← arg c 1; key2 ← arg c 2; k ← obj_key key; k2 ← obj_key key2;
  '(db, srcset) ← lookupKeyWrite en (s_db s) k;
  '(db, dstset) ← lookupKeyWrite en db k2;
  ele ← arg c 3; ele ← encode ele;
  let c := set_arg c 3 ele in
  match srcset with
  | None => c ← add_shared c czero; Ok (with_db s db, c)
  | Some src =>
      '(c, wrong) ← check_type c src OBJ_SET;
      if (wrong : bool) then Ok (with_db s db, c) else
      '(c, wrong) ← match dstset with Some dst => check_type c dst OBJ_SET | None => Ok (c, false) end;
      if (wrong : bool) then Ok (with_db s db, c) else
      set ← obj_set src;
      if bool_decide (k = k2) then
        '(set, b) ← set_member set ele;
        db ← write_value db k (with_ptr src (PtrSet set));
        c ← add_shared c (if (b : bool) then cone else czero);
        Ok (with_db s db, c)
      else
        '(set, ok) ← set_remove set ele;
        db ← write_value db k (with_ptr src (PtrSet set));
        if negb ok then c ← add_shared c czero; Ok (with_db s db, c) else
        let db := emit db (EvNotify (str "srem") k) in
        db ← (if setTypeSize set =? 0 then
                '(db, _) ← dbDelete en db k; Ok (emit db (EvNotify (str "del") k))
              else Ok db);
        '(db, dst) ← match dstset with
                     | Some dst => Ok (db, dst)
                     | None => new ← setTypeCreate ele; db ← dbAdd en db k2 (set_object new); Ok (db, set_object new)
                     end;
        let db := emit (emit db (EvModified k)) (EvModified k2) in
        set ← obj_set dst;
        '(set, added) ← set_add set ele;
        db ← write_value db k2 (with_ptr dst (PtrSet set));
        let db := if (added : bool) then emit db (EvNotify (str "sadd") k2) else db in
        c ← add_shared c cone;
        Ok (with_dirty (with_db s db) (if (added : bool) then 2 else 1), c)
  end.

Definition sismemberCommand (en : env) (s : session T) (c : reqst) : res (session T * reqst) :=
  key ← arg c 1;
  '(s, c, o) ← lookup_or_reply en s c key czero;
  match o with
  | None => Ok (s, c)
  | Some o =>
      '(c, wrong) ← check_type c o OBJ_SET;
      if (wrong : bool) then Ok (s, c) else
      k ← obj_key key;
      v ← arg c 2; v ← encode v;
      let c := set_arg c 2 v in
      set ← obj_set o;
      '(set, b) ← set_member set v;
      db ← write_value (s_db s) k (with_ptr o (PtrSet set));
      c ← add_shared c (if (b : bool) then cone else czero);
      Ok (with_db s db, c)
  end.

Definition scardCommand (en : env) (s : session T) (c : reqst) : res (session T * reqst) :=
  key ← arg c 1;
  '(s, c, o) ← lookup_or_reply en s c key czero;
  match o with
  | None => Ok (s, c)
  | Some o =>
      '(c, wrong) ← check_type c o OBJ_SET;
      if (wrong : bool) then Ok (s, c) else
      set ← obj_set o;
      c ← add_longlong c (setTypeSize set);
      Ok (s, c)
  end.

Variable other_proc : proc -> session T -> reqst -> res (session T * reqst).

Definition set_proc (en : env) (p : proc) (s : session T) (c : reqst) : res (session T * reqst) :=
  match p with
  | SaddCommand => saddCommand en s c
  | SremCommand => sremCommand en s c
  | SmoveCommand => smoveCommand en s c
  | SismemberCommand => sismemberCommand en s c
  | ScardCommand => scardCommand en s c
  | _ => other_proc p s c
  end.
End Sets.
