(* ===== verification/Rdb.v ===== *)
(** * Dump files ([src/rdb.c], [src/rdb.h])

    Model of src/redis-3.2.5/src/rdb.c: the snapshot of the key space that the
    server writes with SAVE and BGSAVE and reads when it starts. Modelled are the
    encodings of lengths, integers and strings, the strings and sets as objects,
    the key/value pairs with their expire times, and the whole file with its
    header, its auxiliary fields and its checksum ([rdbSaveRio], [rdbLoad]).

    The functions are computations on a stream ([io]); a result -1 or NULL of the
    code is the failure of the computation. The byte counts that the code returns
    are used for nothing but that test (and, in [rdbSaveLzfStringObject], for the
    test for 0, which is the [bool] here), and are left out. A call of [exit] is
    the fault [Exit].

    Lists, sorted sets and hashes have no contents in [robj] and are not saved or
    loaded here. The events that the server handles while it loads are not
    modelled. The machine is little-endian. *)

From S2P Require Import Prelude CLib Util Sds Dict IntSet Object SetType KeyDict Db.
From S2P Require Import SdsNum Sets Scan Crc64 Lzf Rio Iter.
Local Open Scope Z_scope.

(** ** Numbers in C strings *)

Fixpoint span_space (s : bytes) : bytes :=
  match s with
  | c :: s' => if isspace c then span_space s' else s
  | [] => []
  end.

(** [strtoll(m, &endptr, 10)]: the clamped value and the memory from [endptr] on.
    A scan that runs off the memory is a fault. *)
Definition strtoll (m : bytes) : res (Z * bytes) :=
  let p := span_space m in
  c ← rd p 0;
  let neg := c =? 45 in
  let q := if neg || (c =? 43) then tl p else p in
  _ ← rd q 0;
  let '(ds, rest) := span_digits q in
  match ds with
  | [] => Ok (0, m)
  | _ =>
      _ ← rd rest 0;
      Ok (if neg then Z.max LLONG_MIN (- undec ds) else Z.min LLONG_MAX (undec ds), rest)
  end.

Definition atoi (m : bytes) : res Z := '(v, _) ← strtoll m; Ok (s32 v).

(** ** Constants *)

Definition RDB_VERSION : Z := 7.
Definition REDIS_VERSION : bytes := str "3.2.5".

Definition RDB_6BITLEN : Z := 0.
Definition RDB_14BITLEN : Z := 1.
Definition RDB_32BITLEN : Z := 2.
Definition RDB_ENCVAL : Z := 3.
Definition RDB_LENERR : Z := 2 ^ 32 - 1.

Definition RDB_ENC_INT8 : Z := 0.
Definition RDB_ENC_INT16 : Z := 1.
Definition RDB_ENC_INT32 : Z := 2.
Definition RDB_ENC_LZF : Z := 3.

Definition RDB_TYPE_STRING : Z := 0.
Definition RDB_TYPE_SET : Z := 2.
Definition RDB_TYPE_SET_INTSET : Z := 11.

Definition rdbIsObjectType (t : Z) : bool := ((t >=? 0) && (t <=? 4)) || ((t >=? 9) && (t <=? 14)).

Definition RDB_OPCODE_AUX : Z := 250.
Definition RDB_OPCODE_RESIZEDB : Z := 251.
Definition RDB_OPCODE_EXPIRETIME_MS : Z := 252.
Definition RDB_OPCODE_EXPIRETIME : Z := 253.
Definition RDB_OPCODE_SELECTDB : Z := 254.
Definition RDB_OPCODE_EOF : Z := 255.

Definition UINT32_MAX : Z := 2 ^ 32 - 1.

(** What the code reads of the server's configuration and of its surroundings:
    [rdb_htab] is the hash table that the compressor finds on the stack when it is
    given a string, [rdb_junk] what the allocator leaves in new memory,
    [rdb_interval] is [loading_process_events_interval_bytes]. *)
Record rdb_conf := mkRdbConf {
  rdb_compression : bool;
  rdb_checksum : bool;
  rdb_htab : bytes -> Z -> Z;
  rdb_junk : Z;
  rdb_shareable : bool;
  rdb_interval : Z
}.

(** Process exit after the report of a corrupt file. *)
Definition rdbExitReportCorruptRDB {A} : io A := lift (Fault Exit).

(** ** Saving strings *)

Section Save.
Variable cf : rdb_conf.

Definition rdbWriteRaw (p : bytes) : io unit := rioWrite p.

Definition rdbSaveType (type : Z) : io unit := rdbWriteRaw [u8 type].

Definition rdbSaveMillisecondTime (t : Z) : io unit := rdbWriteRaw (le_bytes 8 t).

(** [htonl]: the bytes from the highest to the lowest. *)
Definition be32 (len : Z) : bytes :=
  [Z.land (Z.shiftr len 24) 0xFF; Z.land (Z.shiftr len 16) 0xFF; Z.land (Z.shiftr len 8) 0xFF; Z.land len 0xFF].

(** The argument is a [uint32_t]. *)
Definition rdbSaveLen (len : Z) : io unit :=
  let len := u32 len in
  if len <? Z.shiftl 1 6 then
    rdbWriteRaw [Z.lor (Z.land len 0xFF) (Z.shiftl RDB_6BITLEN 6)]
  else if len <? Z.shiftl 1 14 then
    rdbWriteRaw [Z.lor (Z.land (Z.shiftr len 8) 0xFF) (Z.shiftl RDB_14BITLEN 6); Z.land len 0xFF]
  else
    _ ← rdbWriteRaw [Z.shiftl RDB_32BITLEN 6];
    rdbWriteRaw (be32 len).

(** The bytes of the encoding; none when the value has no encoding. *)
Definition rdbEncodeInteger (value : Z) : bytes :=
  if (value >=? - Z.shiftl 1 7) && (value <=? Z.shiftl 1 7 - 1) then
    [Z.lor (Z.shiftl RDB_ENCVAL 6) RDB_ENC_INT8; Z.land value 0xFF]
  else if (value >=? - Z.shiftl 1 15) && (value <=? Z.shiftl 1 15 - 1) then
    [Z.lor (Z.shiftl RDB_ENCVAL 6) RDB_ENC_INT16; Z.land value 0xFF; Z.land (Z.shiftr value 8) 0xFF]
  else if (value >=? - Z.shiftl 1 31) && (value <=? Z.shiftl 1 31 - 1) then
    [Z.lor (Z.shiftl RDB_ENCVAL 6) RDB_ENC_INT32; Z.land value 0xFF; Z.land (Z.shiftr value 8) 0xFF;
     Z.land (Z.shiftr value 16) 0xFF; Z.land (Z.shiftr value 24) 0xFF]
  else [].

(** [s] is the memory the pointer points to. *)
Definition rdbTryIntegerEncoding (s : bytes) (len : Z) : res bytes :=
  '(value, endptr) ← strtoll s;
  e ← rd endptr 0;
  if negb (e =? 0) then Ok [] else
  '(_, buf) ← ll2string (replicate 32 (rdb_junk cf)) 32 value;
  if negb (Z.of_nat (length (cstr buf)) =? len) then Ok [] else
  a ← mread buf 0 (Z.to_nat len); b ← mread s 0 (Z.to_nat len);
  if negb (memcmp a b =? 0) then Ok [] else
  Ok (rdbEncodeInteger value).

Definition rdbSaveLzfBlob (data : bytes) (compress_len original_len : Z) : io unit :=
  _ ← rdbWriteRaw [Z.lor (Z.shiftl RDB_ENCVAL 6) RDB_ENC_LZF];
  _ ← rdbSaveLen compress_len;
  _ ← rdbSaveLen original_len;
  d ← lift (mread data 0 (Z.to_nat compress_len));
  rdbWriteRaw d.

(** [false] when the string was not compressed. *)
Definition rdbSaveLzfStringObject (s : bytes) (len : Z) : io bool :=
  if len <=? 4 then mret false else
  let outlen := len - 4 in
  inp ← lift (mread s 0 (Z.to_nat len));
  r ← lift (lzf_compress (rdb_htab cf inp) inp len (replicate (Z.to_nat (outlen + 1)) (rdb_junk cf)) outlen);
  match r with
  | None => mret false
  | Some (comprlen, out) => _ ← rdbSaveLzfBlob out comprlen len; mret true
  end.

Definition rdbSaveRawString (s : bytes) (len : Z) : io unit :=
  enc ← (if len <=? 11 then lift (rdbTryIntegerEncoding s len) else mret []);
  match enc with
  | _ :: _ => rdbWriteRaw enc
  | [] =>
      n ← (if rdb_compression cf && (len >? 20) then rdbSaveLzfStringObject s len else mret false);
      if (n : bool) then mret tt else
      _ ← rdbSaveLen len;
      if len >? 0 then d ← lift (mread s 0 (Z.to_nat len)); rdbWriteRaw d else mret tt
  end.

Definition rdbSaveLongLongAsStringObject (value : Z) : io unit :=
  match rdbEncodeInteger value with
  | _ :: _ => rdbWriteRaw (rdbEncodeInteger value)
  | [] =>
      '(enclen, buf) ← lift (ll2string (replicate 32 (rdb_junk cf)) 32 value);
      _ ← rdbSaveLen enclen;
      d ← lift (mread buf 0 (Z.to_nat enclen));
      rdbWriteRaw d
  end.

Definition rdbSaveStringObject (obj : robj) : io unit :=
  match o_encoding obj, o_ptr obj with
  | OBJ_ENCODING_INT, PtrInt n => rdbSaveLongLongAsStringObject n
  | _, _ =>
      if sdsEncodedObject obj then
        s ← lift (obj_sds obj);
        rdbSaveRawString (sds_mem s) (sdslen s)
      else lift (Fault AssertFailed)
  end.

(** ** Saving objects *)

Definition rdbSaveObjectType (o : robj) : io unit :=
  match o_type o, o_ptr o with
  | OBJ_STRING, _ => rdbSaveType RDB_TYPE_STRING
  | OBJ_SET, PtrSet (SetIntset _) => rdbSaveType RDB_TYPE_SET_INTSET
  | OBJ_SET, PtrSet (SetHT _) => rdbSaveType RDB_TYPE_SET
  | _, _ => lift (Fault AssertFailed)
  end.

(** The loop over the members of a hash table. A member is the string that its
    object denotes: an object that holds an integer is saved as the same bytes
    ([int_object_same] below). *)
Fixpoint save_members (fuel : nat) (set : dict unit) (di : dictIterator unit) : io unit :=
  match fuel with
  | O => lift (Fault OutOfFuel)
  | S f =>
      '(set, di, de) ← lift (dictNext set di);
      match de with
      | None => mret tt
      | Some (ele, _) =>
          _ ← rdbSaveRawString (ele ++ [0]) (Z.of_nat (length ele));
          save_members f set di
      end
  end.

(** The block of an intset: the header and the elements. *)
Definition intset_blob (s : intset) : bytes :=
  le_bytes 4 (is_encoding s) ++ le_bytes 4 (is_length s) ++ is_contents s.

Definition rdbSaveObject (o : robj) : io unit :=
  match o_type o, o_ptr o with
  | OBJ_STRING, _ => rdbSaveStringObject o
  | OBJ_SET, PtrSet (SetHT set) =>
      let di := dictGetIterator in
      _ ← rdbSaveLen (dictSize set);
      save_members (S (Z.to_nat (dictSize set))) set di
  | OBJ_SET, PtrSet (SetIntset s) => rdbSaveRawString (intset_blob s) (intsetBlobLen s)
  | _, _ => lift (Fault AssertFailed)
  end.

(** The result tells whether the pair was saved. The key is a static string object
    around the sds of the key. *)
Definition rdbSaveKeyValuePair (key : bytes) (val : robj) (expiretime now : Z) : io bool :=
  let pair :=
    (_ ← rdbSaveObjectType val;
     _ ← rdbSaveRawString (key ++ [0]) (Z.of_nat (length key));
     _ ← rdbSaveObject val;
     mret true) in
  if negb (expiretime =? -1) then
    if expiretime <? now then mret false else
    _ ← rdbSaveType RDB_OPCODE_EXPIRETIME_MS;
    _ ← rdbSaveMillisecondTime expiretime;
    pair
  else pair.

(** ** Saving the key space *)

Definition rdbSaveAuxField (key : bytes) (keylen : Z) (val : bytes) (vallen : Z) : io unit :=
  _ ← rdbSaveType RDB_OPCODE_AUX;
  _ ← rdbSaveRawString key keylen;
  rdbSaveRawString val vallen.

Definition rdbSaveAuxFieldStrStr (key val : bytes) : io unit :=
  rdbSaveAuxField (key ++ [0]) (Z.of_nat (length key)) (val ++ [0]) (Z.of_nat (length val)).

Definition LONG_STR_SIZE : Z := 21.

Definition rdbSaveAuxFieldStrInt (key : bytes) (val : Z) : io unit :=
  '(vlen, buf) ← lift (ll2string (replicate (Z.to_nat LONG_STR_SIZE) (rdb_junk cf)) LONG_STR_SIZE val);
  rdbSaveAuxField (key ++ [0]) (Z.of_nat (length key)) buf vlen.

(** [ctime] and [used_mem] are the results of [time] and [zmalloc_used_memory]. *)
Definition rdbSaveInfoAuxFields (ctime used_mem : Z) : io unit :=
  _ ← rdbSaveAuxFieldStrStr (str "redis-ver") REDIS_VERSION;
  _ ← rdbSaveAuxFieldStrInt (str "redis-bits") 64;
  _ ← rdbSaveAuxFieldStrInt (str "ctime") ctime;
  rdbSaveAuxFieldStrInt (str "used-mem") used_mem.

Section SaveDbs.
Variable hash : bytes -> Z.
Variable can_resize : bool.

#[local] Hint Extern 0 (KeyDict dict) => exact (dict_keydict hash can_resize) : typeclass_instances.

(** [while((de = dictNext(di)) != NULL)]. *)
Fixpoint save_entries (fuel : nat) (db : redisDb dict) (di : dictIterator robj) (now : Z) : io (redisDb dict * dictIterator robj) :=
  match fuel with
  | O => lift (Fault OutOfFuel)
  | S f =>
      '(d, di, de) ← lift (dictNext (db_dict db) di);
      let db := mkDb d (db_expires db) (db_events db) in
      match de with
      | None => mret (db, di)
      | Some (key, o) =>
          '(db, expire) ← lift (getExpire db key);
          _ ← rdbSaveKeyValuePair key o expire now;
          save_entries f db di now
      end
  end.

Definition trim_size (n : Z) : Z := if n <=? UINT32_MAX then n else UINT32_MAX.

Definition save_db (j : Z) (now : Z) (db : redisDb dict) : io (redisDb dict) :=
  if dictSize (db_dict db) =? 0 then mret db else
  let di := dictGetSafeIterator in
  _ ← rdbSaveType RDB_OPCODE_SELECTDB;
  _ ← rdbSaveLen j;
  let db_size := trim_size (dictSize (db_dict db)) in
  let expires_size := trim_size (dictSize (db_expires db)) in
  _ ← rdbSaveType RDB_OPCODE_RESIZEDB;
  _ ← rdbSaveLen db_size;
  _ ← rdbSaveLen expires_size;
  '(db, di) ← save_entries (S (Z.to_nat (dictSize (db_dict db)))) db di now;
  mret (mkDb (dictReleaseIterator (db_dict db) di) (db_expires db) (db_events db)).

(** [for (j = 0; j < server.dbnum; j++)]. *)
Fixpoint save_dbs (j : Z) (now : Z) (dbs : list (redisDb dict)) : io (list (redisDb dict)) :=
  match dbs with
  | [] => mret []
  | db :: dbs =>
      db ← save_db j now db;
      dbs ← save_dbs (j + 1) now dbs;
      mret (db :: dbs)
  end.

Definition get_cksum : io Z := fun r => Ok (Some (r_cksum r, r)).

(** [snprintf(magic, sizeof(magic), "REDIS%04d", RDB_VERSION)]. *)
Definition rdb_magic : bytes := str "REDIS0007".

(** The databases after the save, whose tables a lookup may have reorganised. *)
Definition rdbSaveRio (now ctime used_mem : Z) (dbs : list (redisDb dict)) : io (list (redisDb dict)) := fun r =>
  (let r := if rdb_checksum cf then with_update true r else r in
   (_ ← rdbWriteRaw rdb_magic;
    _ ← rdbSaveInfoAuxFields ctime used_mem;
    dbs ← save_dbs 0 now dbs;
    _ ← rdbSaveType RDB_OPCODE_EOF;
    cksum ← get_cksum;
    _ ← rioWrite (le_bytes 8 cksum);
    mret dbs : io _) r).
End SaveDbs.
End Save.

(** ** Loading strings *)

(** What [rdbGenericLoadStringObject] returns: an object, or a plain block. *)
Inductive loaded := LObj (o : robj) | LPlain (p : bytes).

(** The flags [RDB_LOAD_ENC] and [RDB_LOAD_PLAIN]. *)
Record load_flags := mkFlags { f_encode : bool; f_plain : bool }.
Definition RDB_LOAD_NONE : load_flags := mkFlags false false.
Definition RDB_LOAD_ENC : load_flags := mkFlags true false.
Definition RDB_LOAD_PLAIN : load_flags := mkFlags false true.

Definition rdbLoadType : io Z := b ← rioRead 1; lift (rd b 0).

Definition rdbLoadTime : io Z := b ← rioRead 4; mret (le_int b).

Definition rdbLoadMillisecondTime : io Z := b ← rioRead 8; mret (le_int b).

(** The length or the encoding, and the flag [*isencoded]. *)
Definition rdbLoadLen : io (Z * bool) :=
  b ← rioRead 1;
  b0 ← lift (rd b 0);
  let type := Z.shiftr (Z.land b0 0xC0) 6 in
  if type =? RDB_ENCVAL then mret (Z.land b0 0x3F, true)
  else if type =? RDB_6BITLEN then mret (Z.land b0 0x3F, false)
  else if type =? RDB_14BITLEN then
    b ← rioRead 1;
    b1 ← lift (rd b 0);
    mret (Z.lor (Z.shiftl (Z.land b0 0x3F) 8) b1, false)
  else if type =? RDB_32BITLEN then
    b ← rioRead 4;
    b0 ← lift (rd b 0); b1 ← lift (rd b 1); b2 ← lift (rd b 2); b3 ← lift (rd b 3);
    mret (Z.lor (Z.lor (Z.lor (Z.shiftl b0 24) (Z.shiftl b1 16)) (Z.shiftl b2 8)) b3, false)
  else rdbExitReportCorruptRDB.

(** [if ((len = rdbLoadLen(rdb,NULL)) == RDB_LENERR) return NULL]. *)
Definition load_len : io Z :=
  '(len, _) ← rdbLoadLen;
  if len =? RDB_LENERR then io_fail else mret len.

Section Load.
Variable cf : rdb_conf.
#[local] Abbreviation junk := (rdb_junk cf).

Definition rdbLoadIntegerObject (enctype : Z) (flags : load_flags) : io loaded :=
  val ← (if enctype =? RDB_ENC_INT8 then
           enc ← rioRead 1;
           e0 ← lift (rd enc 0);
           mret (sx 8 e0)
         else if enctype =? RDB_ENC_INT16 then
           enc ← rioRead 2;
           e0 ← lift (rd enc 0); e1 ← lift (rd enc 1);
           mret (sx 16 (Z.lor e0 (Z.shiftl e1 8)))
         else if enctype =? RDB_ENC_INT32 then
           enc ← rioRead 4;
           e0 ← lift (rd enc 0); e1 ← lift (rd enc 1); e2 ← lift (rd enc 2); e3 ← lift (rd enc 3);
           mret (sx 32 (Z.lor (Z.lor (Z.lor e0 (Z.shiftl e1 8)) (Z.shiftl e2 16)) (Z.shiftl e3 24)))
         else rdbExitReportCorruptRDB);
  if f_plain flags then
    '(len, buf) ← lift (ll2string (replicate (Z.to_nat LONG_STR_SIZE) junk) LONG_STR_SIZE val);
    p ← lift (mread buf 0 (Z.to_nat len));
    mret (LPlain p)
  else if f_encode flags then mret (LObj (createStringObjectFromLongLong val))
  else s ← lift (sdsfromlonglong junk val); mret (LObj (createObject OBJ_STRING s)).

(** The block for the string is all zeros in an object, and what the allocator
    leaves there in a plain block. *)
Definition rdbLoadLzfStringObject (flags : load_flags) : io loaded :=
  clen ← load_len;
  len ← load_len;
  let val := replicate (Z.to_nat len) (if f_plain flags then junk else 0) in
  c ← rioRead clen;
  r ← lift (lzf_decompress c clen val len);
  match r with
  | inl _ => io_fail
  | inr (_, val) =>
      if f_plain flags then mret (LPlain val)
      else s ← lift (sdsnewlen junk (Some val) len); mret (LObj (createObject OBJ_STRING s))
  end.

(** The object is made before its bytes are read into it. *)
Definition rdbGenericLoadStringObject (flags : load_flags) : io loaded :=
  '(len, isencoded) ← rdbLoadLen;
  if (isencoded : bool) then
    if (len =? RDB_ENC_INT8) || (len =? RDB_ENC_INT16) || (len =? RDB_ENC_INT32) then rdbLoadIntegerObject len flags
    else if len =? RDB_ENC_LZF then rdbLoadLzfStringObject flags
    else rdbExitReportCorruptRDB
  else if len =? RDB_LENERR then io_fail else
  data ← rioRead len;
  if negb (f_plain flags) then
    o ← lift (if f_encode flags then createStringObject junk data len else createRawStringObject junk data len);
    mret (LObj o)
  else mret (LPlain data).

Definition as_object (l : loaded) : io robj := match l with LObj o => mret o | LPlain _ => lift (Fault AssertFailed) end.
Definition as_plain (l : loaded) : io bytes := match l with LPlain p => mret p | LObj _ => lift (Fault AssertFailed) end.

Definition rdbLoadStringObject : io robj := l ← rdbGenericLoadStringObject RDB_LOAD_NONE; as_object l.
Definition rdbLoadEncodedStringObject : io robj := l ← rdbGenericLoadStringObject RDB_LOAD_ENC; as_object l.

(** ** Loading objects *)

Context `{SC : SetConfig}.

(** The loop over the elements of a set. *)
Fixpoint load_members (n : nat) (len : Z) (o : setobj) : io setobj :=
  match n with
  | O => mret o
  | S n' =>
      ele ← rdbLoadEncodedStringObject;
      ele ← lift (tryObjectEncoding junk (rdb_shareable cf) ele);
      o ← (match o with
           | SetIntset s =>
               v ← lift (isObjectRepresentableAsLongLong ele);
               match v with
               | Some llval => '(s, _) ← lift (intsetAdd junk s llval); mret (SetIntset s)
               | None =>
                   o ← lift (setTypeConvert set_hash set_can_resize (SetIntset s));
                   match o with
                   | SetHT d => mret (SetHT (dictExpand d len).1)
                   | SetIntset _ => lift (Fault AssertFailed)
                   end
               end
           | SetHT _ => mret o
           end : io setobj);
      o ← (match o with
           | SetHT d => k ← lift (member_key ele); '(d, _) ← lift (dictAdd set_hash set_can_resize d k tt); mret (SetHT d)
           | SetIntset _ => mret o
           end : io setobj);
      load_members n' len o
  end.

(** The block of an intset, read through its header. *)
Definition intset_of_blob (b : bytes) : res intset :=
  e ← mread b 0 4; l ← mread b 4 4;
  Ok (IntSet (le_nat e) (le_nat l) (drop 8 b)).

Definition rdbLoadObject (rdbtype : Z) : io robj :=
  if rdbtype =? RDB_TYPE_STRING then
    o ← rdbLoadEncodedStringObject;
    lift (tryObjectEncoding junk (rdb_shareable cf) o)
  else if rdbtype =? RDB_TYPE_SET then
    len ← load_len;
    let o := if len >? set_max_entries
             then SetHT (if len >? DICT_HT_INITIAL_SIZE then (dictExpand dictCreate len).1 else dictCreate)
             else createIntsetObject in
    o ← load_members (Z.to_nat len) len o;
    mret (set_object o)
  else if rdbtype =? RDB_TYPE_SET_INTSET then
    l ← rdbGenericLoadStringObject RDB_LOAD_PLAIN;
    encoded ← as_plain l;
    s ← lift (intset_of_blob encoded);
    o ← (if intsetLen s >? set_max_entries then lift (setTypeConvert set_hash set_can_resize (SetIntset s))
         else mret (SetIntset s));
    mret (set_object o)
  else if rdbIsObjectType rdbtype then lift (Fault AssertFailed)   (* a type without contents in [robj] *)
  else rdbExitReportCorruptRDB.

(** ** Loading the key space *)

Section LoadDbs.
Variable hash : bytes -> Z.
Variable can_resize : bool.
#[local] Hint Extern 0 (KeyDict dict) => exact (dict_keydict hash can_resize) : typeclass_instances.

Variable en : env.

Definition get_db (dbs : list (redisDb dict)) (j : nat) : res (redisDb dict) :=
  match dbs !! j with Some db => Ok db | None => Fault OutOfBounds end.

(** The pair after the type was read. *)
Definition load_pair (db : redisDb dict) (type expiretime now : Z) : io (redisDb dict) :=
  key ← rdbLoadStringObject;
  val ← rdbLoadObject type;
  if negb (e_masterhost en) && negb (expiretime =? -1) && (expiretime <? now) then mret db else
  k ← lift (obj_sds key);
  db ← lift (dbAdd en db (sdsval k) val);
  if negb (expiretime =? -1) then lift (setExpire db (sdsval k) expiretime) else mret db.

(** The main loop; [cur] is the selected database. Every round reads a byte, which
    bounds the fuel. *)
Fixpoint load_loop (fuel : nat) (now : Z) (cur : nat) (dbs : list (redisDb dict)) : io (list (redisDb dict)) :=
  match fuel with
  | O => lift (Fault OutOfFuel)
  | S f =>
      type ← rdbLoadType;
      if type =? RDB_OPCODE_EXPIRETIME then
        expiretime ← rdbLoadTime;
        if expiretime =? -1 then io_fail else
        type ← rdbLoadType;
        db ← lift (get_db dbs cur);
        db ← load_pair db type (s64 (expiretime * 1000)) now;
        load_loop f now cur (<[cur := db]> dbs)
      else if type =? RDB_OPCODE_EXPIRETIME_MS then
        expiretime ← rdbLoadMillisecondTime;
        if expiretime =? -1 then io_fail else
        type ← rdbLoadType;
        db ← lift (get_db dbs cur);
        db ← load_pair db type expiretime now;
        load_loop f now cur (<[cur := db]> dbs)
      else if type =? RDB_OPCODE_EOF then mret dbs
      else if type =? RDB_OPCODE_SELECTDB then
        dbid ← load_len;
        if dbid >=? Z.of_nat (length dbs) then lift (Fault Exit) else
        load_loop f now (Z.to_nat dbid) dbs
      else if type =? RDB_OPCODE_RESIZEDB then
        db_size ← load_len;
        expires_size ← load_len;
        db ← lift (get_db dbs cur);
        let db := mkDb (dictExpand (db_dict db) db_size).1 (dictExpand (db_expires db) expires_size).1 (db_events db) in
        load_loop f now cur (<[cur := db]> dbs)
      else if type =? RDB_OPCODE_AUX then
        auxkey ← rdbLoadStringObject;
        auxval ← rdbLoadStringObject;
        load_loop f now cur dbs
      else
        db ← lift (get_db dbs cur);
        db ← load_pair db type (-1) now;
        load_loop f now cur (<[cur := db]> dbs)
  end.

(** The check of the checksum, from version 5 on. *)
Definition check_cksum (rdbver : Z) : io unit :=
  if (rdbver >=? 5) && rdb_checksum cf then
    expected ← get_cksum;
    b ← rioRead 8;
    let cksum := le_nat b in
    if cksum =? 0 then mret tt
    else if negb (cksum =? expected) then rdbExitReportCorruptRDB
    else mret tt
  else mret tt.

(** [C_ERR] (the file is not a dump file of a version the code reads, and [errno]
    is set), or the databases. *)
Definition rdbLoad (now : Z) (file : bytes) (dbs : list (redisDb dict)) : res (option (list (redisDb dict))) :=
  let r := with_chunk (rdb_interval cf) (with_update (rdb_checksum cf) (rioInitWithFile file 0)) in
  let load : io (option (list (redisDb dict))) :=
    (buf ← rioRead 9;
     if negb (memcmp (take 5 buf) (str "REDIS") =? 0) then mret None else
     rdbver ← lift (atoi (drop 5 buf ++ [0]));
     if (rdbver <? 1) || (rdbver >? RDB_VERSION) then mret None else
     dbs ← load_loop (S (length file)) now 0 dbs;
     _ ← check_cksum rdbver;
     mret (Some dbs)) in
  r ← load r;
  match r with
  | Some (x, _) => Ok x
  | None => Fault Exit            (* eoferr: the process exits *)
  end.
End LoadDbs.
End Load.
