(* ===== verification/Multi.v ===== *)
(** * Transactions ([src/multi.c])

    MULTI, EXEC, DISCARD, WATCH and UNWATCH, at two levels. A command works on the
    session of its client: the queue of the transaction, the keys that the client
    watches, and the index of the key space from keys to the clients that watch
    them. The server has one key space and many clients: a command that modifies a
    key marks every other client that watches it, which are not in the session, so
    that the marks are made from the events of the command, when it ends. A client
    whose transaction runs watches nothing any more, and no other command both
    modifies a key and changes the index, so the marks are those that
    [signalModifiedKey] makes at once. The propagation to the AOF and the slaves
    and MONITOR are not modelled. *)

From S2P Require Import Prelude CLib Util Sds Dict Object SetType Reply Resp KeyDict Db Command Strings Keys Sets.
Local Open Scope Z_scope.

(** ** The table *)

Definition CMD_NOSCRIPT : Z := 6.
Definition CMD_SKIP_MONITOR : Z := 11.

Definition multi_table : list redisCommand := [
  mkCmd (str "multi") MultiCommand 1 (2 ^ CMD_NOSCRIPT + 2 ^ CMD_FAST) false 0;
  mkCmd (str "exec") ExecCommand 1 (2 ^ CMD_NOSCRIPT + 2 ^ CMD_SKIP_MONITOR) false 0;
  mkCmd (str "discard") DiscardCommand 1 (2 ^ CMD_NOSCRIPT + 2 ^ CMD_FAST) false 0;
  mkCmd (str "watch") WatchCommand (-2) (2 ^ CMD_NOSCRIPT + 2 ^ CMD_FAST) false 1;
  mkCmd (str "unwatch") UnwatchCommand 1 (2 ^ CMD_NOSCRIPT + 2 ^ CMD_FAST) false 0 ].

Definition command_table : list redisCommand := string_table ++ key_table ++ set_table ++ multi_table.

(** [lookupCommand]: the names are compared without case. *)
Definition lookup_command (name : bytes) : option redisCommand :=
  find (fun cmd => bool_decide (map tolower name = map tolower (cmd_name cmd))) command_table.

(** ** The commands *)

Definition execaborterr : bytes := str "-EXECABORT Transaction discarded because of previous errors." ++ crlf.
Definition nullmultibulk : bytes := str "*-1" ++ crlf.

Definition clear_flags (c : reqst) (bs : list Z) : reqst :=
  with_out c (with_flags (q_out c) (foldl Z.clearbit (c_flags (q_out c)) bs)).
Definition raise_flag (c : reqst) (b : Z) : reqst :=
  with_out c (with_flags (q_out c) (Z.setbit (c_flags (q_out c)) b)).

(** [listDelNode] of the first node of the client, which [listSearchKey] finds. *)
Fixpoint remove_client (id : Z) (l : list Z) : option (list Z) :=
  match l with
  | [] => None
  | x :: rest => if x =? id then Some rest else cons x <$> remove_client id rest
  end.

Section Multi.
Context {T : Type -> Type} `{KD : KeyDict T} `{SC : SetConfig}.
Variable junk : Z.
Variable sdsZmallocSize : sds -> Z.
Variable embeddedSize : sds -> Z.
Variable client_obuf_limits : client_type -> obuf_limits.
Variable unixtime : Z.
Variable shareable : bool.

#[local] Abbreviation add_shared := (add_shared junk sdsZmallocSize embeddedSize client_obuf_limits unixtime).
#[local] Abbreviation add_error := (add_error junk sdsZmallocSize embeddedSize client_obuf_limits unixtime).
#[local] Abbreviation add_multibulk := (addReplyMultiBulkLen junk sdsZmallocSize embeddedSize client_obuf_limits unixtime).

Definition with_queued (s : session T) (q : list (redisCommand * list robj)) : session T :=
  mkSession (s_db s) (s_dirty s) (s_last_error s) (s_last_reply s) q (s_watched s) (s_watching s).
Definition with_watch (s : session T) (w : T (list Z)) (ks : list bytes) : session T :=
  mkSession (s_db s) (s_dirty s) (s_last_error s) (s_last_reply s) (s_queued s) w ks.

(** *** WATCH *)

(** The list of the clients that watch [k], which is created if there is none. *)
Definition watchers (w : T (list Z)) (k : bytes) : res (T (list Z) * list Z) :=
  '(w, clients) ← kd_find (T := T) w k;
  match clients with
  | Some l => Ok (w, l)
  | None => '(w, _) ← kd_add (T := T) w k []; Ok (w, [])
  end.

Definition watchForKey (s : session T) (id : Z) (k : bytes) : res (session T) :=
  if bool_decide (k ∈ s_watching s) then Ok s else
  '(w, clients) ← watchers (s_watched s) k;
  w ← kd_store (T := T) w k (clients ++ [id]);
  Ok (with_watch s w (s_watching s ++ [k])).

(** The keys are removed from the index one after the other; [clients] has no node
    for the client when [listSearchKey] returns NULL. *)
Fixpoint unwatch_loop (id : Z) (w : T (list Z)) (ks : list bytes) : res (T (list Z)) :=
  match ks with
  | [] => Ok w
  | k :: rest =>
      '(w, clients) ← kd_find (T := T) w k;
      match clients with
      | None => Fault AssertFailed
      | Some l =>
          match remove_client id l with
          | None => Fault NullPointer
          | Some l =>
              w ← kd_store (T := T) w k l;
              w ← (if bool_decide (l = []) then '(w, _) ← kd_delete (T := T) w k; Ok w else Ok w);
              unwatch_loop id w rest
          end
      end
  end.

Definition unwatchAllKeys (s : session T) (id : Z) : res (session T) :=
  w ← unwatch_loop id (s_watched s) (s_watching s); Ok (with_watch s w []).

Fixpoint watch_args (s : session T) (id : Z) (args : list robj) : res (session T) :=
  match args with
  | [] => Ok s
  | a :: rest => k ← obj_key a; s ← watchForKey s id k; watch_args s id rest
  end.

Definition watchCommand (s : session T) (c : reqst) : res (session T * reqst) :=
  if flag (q_out c) CLIENT_MULTI then
    c ← add_error c (str "WATCH inside MULTI is not allowed"); Ok (s, c)
  else
    s ← watch_args s (c_id (q_out c)) (drop 1 (q_argv c));
    c ← add_shared c (str "+OK" ++ crlf); Ok (s, c).

Definition unwatchCommand (s : session T) (c : reqst) : res (session T * reqst) :=
  s ← unwatchAllKeys s (c_id (q_out c));
  c ← add_shared (clear_flags c [CLIENT_DIRTY_CAS]) (str "+OK" ++ crlf); Ok (s, c).

(** *** MULTI *)

(** [freeClientMultiState] and [initClientMultiState] drop the queue. *)
Definition discardTransaction (s : session T) (c : reqst) : res (session T * reqst) :=
  let c := clear_flags c [CLIENT_MULTI; CLIENT_DIRTY_CAS; CLIENT_DIRTY_EXEC] in
  s ← unwatchAllKeys (with_queued s []) (c_id (q_out c)); Ok (s, c).

Definition multiCommand (s : session T) (c : reqst) : res (session T * reqst) :=
  if flag (q_out c) CLIENT_MULTI then
    c ← add_error c (str "MULTI calls can not be nested"); Ok (s, c)
  else
    c ← add_shared (raise_flag c CLIENT_MULTI) (str "+OK" ++ crlf); Ok (s, c).

Definition discardCommand (s : session T) (c : reqst) : res (session T * reqst) :=
  if negb (flag (q_out c) CLIENT_MULTI) then
    c ← add_error c (str "DISCARD without MULTI"); Ok (s, c)
  else
    '(s, c) ← discardTransaction s c;
    c ← add_shared c (str "+OK" ++ crlf); Ok (s, c).

(** [call] of a queued command. *)
Variable call_queued : redisCommand -> session T -> reqst -> res (session T * reqst).

(** The flag is [must_propagate]. The commands do not change the queue. *)
Fixpoint exec_loop (queue : list (redisCommand * list robj)) (s : session T) (c : reqst) (must_propagate : bool)
  : res (session T * reqst * bool) :=
  match queue with
  | [] => Ok (s, c, must_propagate)
  | (cmd, argv) :: rest =>
      '(s, c) ← call_queued cmd s (with_argv c argv);
      exec_loop rest s c (must_propagate || negb (cmd_flag cmd CMD_READONLY))
  end.

Definition execCommand (s : session T) (c : reqst) : res (session T * reqst) :=
  if negb (flag (q_out c) CLIENT_MULTI) then
    c ← add_error c (str "EXEC without MULTI"); Ok (s, c)
  else if flag (q_out c) CLIENT_DIRTY_CAS || flag (q_out c) CLIENT_DIRTY_EXEC then
    c ← add_shared c (if flag (q_out c) CLIENT_DIRTY_EXEC then execaborterr else nullmultibulk);
    discardTransaction s c
  else
    s ← unwatchAllKeys s (c_id (q_out c));
    let argv := q_argv c in
    c ← add_multibulk c (Z.of_nat (length (s_queued s)));
    '(s, c, must_propagate) ← exec_loop (s_queued s) s c false;
    '(s, c) ← discardTransaction s (with_argv c argv);
    Ok (if (must_propagate : bool) then with_dirty s 1 else s, c).
End Multi.

(** ** All the commands *)

Section Handlers.
Context {T : Type -> Type} `{KD : KeyDict T} `{SC : SetConfig}.
Variable junk : Z.
Variable sdsZmallocSize : sds -> Z.
Variable embeddedSize : sds -> Z.
Variable client_obuf_limits : client_type -> obuf_limits.
Variable unixtime : Z.
Variable shareable : bool.

(** The handlers of the strings, the keys and the sets, with those of the other
    commands. *)
Definition handlers (other_proc : proc -> session T -> reqst -> res (session T * reqst)) (en : env)
  : proc -> session T -> reqst -> res (session T * reqst) :=
  string_proc junk sdsZmallocSize embeddedSize client_obuf_limits unixtime shareable
    (key_proc junk sdsZmallocSize embeddedSize client_obuf_limits unixtime
      (set_proc junk sdsZmallocSize embeddedSize client_obuf_limits unixtime shareable other_proc en) en) en.

Variable other_proc : proc -> session T -> reqst -> res (session T * reqst).

(** The commands that a transaction can have in its queue. *)
Definition queued_proc (p : proc) (s : session T) (c : reqst) : res (session T * reqst) :=
  match p with
  | UnwatchCommand => unwatchCommand junk sdsZmallocSize embeddedSize client_obuf_limits unixtime s c
  | _ => other_proc p s c
  end.

Definition call_queued (en : env) : redisCommand -> session T -> reqst -> res (session T * reqst) :=
  call junk sdsZmallocSize embeddedSize client_obuf_limits unixtime shareable (handlers queued_proc en) en.

Definition multi_proc (en : env) (p : proc) (s : session T) (c : reqst) : res (session T * reqst) :=
  match p with
  | MultiCommand => multiCommand junk sdsZmallocSize embeddedSize client_obuf_limits unixtime s c
  | ExecCommand => execCommand junk sdsZmallocSize embeddedSize client_obuf_limits unixtime (call_queued en) s c
  | DiscardCommand => discardCommand junk sdsZmallocSize embeddedSize client_obuf_limits unixtime s c
  | WatchCommand => watchCommand junk sdsZmallocSize embeddedSize client_obuf_limits unixtime s c
  | _ => queued_proc p s c
  end.
End Handlers.

(** ** The server *)

(** What a client has in a transaction. *)
Record txclient := mkTx {
  t_req : reqst;
  t_error : option bytes;
  t_reply : option obj_ptr;
  t_queued : list (redisCommand * list robj);
  t_watching : list bytes
}.

Definition with_req (t : txclient) (c : reqst) : txclient := mkTx c (t_error t) (t_reply t) (t_queued t) (t_watching t).

Section Server.
Context {T : Type -> Type} `{KD : KeyDict T} `{SC : SetConfig}.

(** The database, [server.dirty], the index of the watched keys, and
    [server.clients] by the identifiers of the clients. *)
Record txserver := mkTxServer {
  v_db : redisDb T;
  v_dirty : Z;
  v_watched : T (list Z);
  v_clients : gmap Z txclient
}.

Definition with_clients (v : txserver) (w : T (list Z)) (clients : gmap Z txclient) : txserver :=
  mkTxServer (v_db v) (v_dirty v) w clients.

(** The session of a client, without events yet. *)
Definition attach (v : txserver) (t : txclient) : session T :=
  mkSession (mkDb (db_dict (v_db v)) (db_expires (v_db v)) []) (v_dirty v) (t_error t) (t_reply t) (t_queued t)
    (v_watched v) (t_watching t).

(** *** Touched keys *)

(** [c->flags |= CLIENT_DIRTY_CAS] for a client that the index has. *)
Definition mark_dirty (clients : gmap Z txclient) (id : Z) : res (gmap Z txclient) :=
  match clients !! id with
  | Some t => Ok (<[id := with_req t (raise_flag (t_req t) CLIENT_DIRTY_CAS)]> clients)
  | None => Fault UseAfterFree
  end.

Fixpoint mark_all (clients : gmap Z txclient) (ids : list Z) : res (gmap Z txclient) :=
  match ids with
  | [] => Ok clients
  | id :: rest => clients ← mark_dirty clients id; mark_all clients rest
  end.

Definition touchWatchedKey (w : T (list Z)) (clients : gmap Z txclient) (k : bytes) : res (T (list Z) * gmap Z txclient) :=
  if kd_size (T := T) w =? 0 then Ok (w, clients) else
  '(w, l) ← kd_find (T := T) w k;
  match l with
  | None => Ok (w, clients)
  | Some l => clients ← mark_all clients l; Ok (w, clients)
  end.

(** One of the watched keys is in the dictionary. *)
Fixpoint watched_present (d : T robj) (ks : list bytes) (dirty : bool) : res (T robj * bool) :=
  match ks with
  | [] => Ok (d, dirty)
  | k :: rest => '(d, o) ← kd_find (T := T) d k; watched_present d rest (dirty || is_some o)
  end.

Fixpoint touch_clients (d : T robj) (ids : list Z) (clients : gmap Z txclient) : res (gmap Z txclient) :=
  match ids with
  | [] => Ok clients
  | id :: rest =>
      match clients !! id with
      | None => Fault UseAfterFree
      | Some t =>
          '(d, dirty) ← watched_present d (t_watching t) false;
          clients ← (if (dirty : bool) then mark_dirty clients id else Ok clients);
          touch_clients d rest clients
      end
  end.

(** All the clients, on the dictionary before the flush. *)
Definition touchWatchedKeysOnFlush (d : T robj) (clients : gmap Z txclient) : res (gmap Z txclient) :=
  touch_clients d (elements (dom clients)) clients.

(** [signalModifiedKey] and [signalFlushedDb]. *)
Fixpoint touch_events (evs : list (db_event T)) (w : T (list Z)) (clients : gmap Z txclient) : res (T (list Z) * gmap Z txclient) :=
  match evs with
  | [] => Ok (w, clients)
  | EvModified k :: rest => '(w, clients) ← touchWatchedKey w clients k; touch_events rest w clients
  | EvFlushed d :: rest => clients ← touchWatchedKeysOnFlush d clients; touch_events rest w clients
  | _ :: rest => touch_events rest w clients
  end.

(** *** Requests *)

(** The network code reads and sends for a client. *)
Definition exchange (v : txserver) (id : Z) (c : reqst) : txserver :=
  with_clients v (v_watched v) (alter (fun t => with_req t c) id (v_clients v)).

Variable process : session T -> reqst -> res (session T * option (reqst * bool)).

(** [processCommand] for the request that a client has sent. *)
Definition serve (v : txserver) (id : Z) : res txserver :=
  match v_clients v !! id with
  | None => Fault UseAfterFree
  | Some t =>
      '(s, r) ← process (attach v t) (t_req t);
      let clients := match r with
                     | None => delete id (v_clients v)
                     | Some (c, _) => <[id := mkTx c (s_last_error s) (s_last_reply s) (s_queued s) (s_watching s)]> (v_clients v)
                     end in
      '(w, clients) ← touch_events (db_events (s_db s)) (s_watched s) clients;
      Ok (mkTxServer (s_db s) (s_dirty s) w clients)
  end.

(** [freeClient]. *)
Definition free_client (v : txserver) (id : Z) : res txserver :=
  match v_clients v !! id with
  | None => Fault UseAfterFree
  | Some t => w ← unwatch_loop id (v_watched v) (t_watching t); Ok (with_clients v w (delete id (v_clients v)))
  end.

(** [createClient]. *)
Definition connect (v : txserver) (id : Z) (c : reqst) : txserver :=
  with_clients v (v_watched v) (<[id := mkTx c None None [] []]> (v_clients v)).
End Server.

Arguments txserver : clear implicits.
Arguments mkTxServer {T}.
