(* ===== verification/Keyspace.v ===== *)
(** * What the commands do

    The key space as a finite map from keys to values with expire times, what each
    command on strings, keys and sets does to it and replies, and when a database shows
    such a key space. *)

From S2P Require Import Prelude CLib Util Sds Object Reply Resp Dict IntSet KeyDict SetType Db Command Strings Keys Sets.
Local Open Scope Z_scope.

(** ** The specification *)

(** A value that is not a string: the members of a set, or a value of a type whose
    commands are not specified here. *)
Inductive other := Members (X : gset bytes) | Opaque (type : obj_type).
Inductive value := VString (s : bytes) | VOther (x : other).

#[export] Instance other_eq_dec : EqDecision other.
Proof. solve_decision. Defined.
#[export] Instance value_eq_dec : EqDecision value.
Proof. solve_decision. Defined.

Definition other_type (x : other) : obj_type := match x with Members _ => OBJ_SET | Opaque t => t end.
Abbreviation keyspace := (gmap bytes (value * option Z)).

(** What is left at a time. *)
Definition over (now : Z) (e : option Z) : bool := match e with Some w => w <? now | None => false end.
Definition alive (now : Z) (m : keyspace) : keyspace := filter (fun kv => over now kv.2.2 = false) m.

Definition bulk (s : bytes) : bytes := ([36] ++ dec (Z.of_nat (length s)) ++ crlf) ++ s ++ crlf.
Definition nil_reply : bytes := str "$-1" ++ crlf.
Definition int_reply (n : Z) : bytes := [58] ++ dec n ++ crlf.
Definition err_reply (s : bytes) : bytes := str "-ERR " ++ s ++ crlf.
Definition ok_reply : bytes := str "+OK" ++ crlf.
Definition not_integer : bytes := err_reply (str "value is not an integer or out of range").
Definition too_long : bytes := err_reply (str "string exceeds maximum allowed size (512MB)").

(** The commands with their arguments. *)
Inductive kcmd :=
  | Get (k : bytes)
  | Set_ (k v : bytes) (options : list bytes)
  | Setnx (k v : bytes)
  | Setex (k t v : bytes)
  | Psetex (k t v : bytes)
  | Getset (k v : bytes)
  | Setrange (k offset v : bytes)
  | Getrange (k start end_ : bytes)
  | Append (k v : bytes)
  | Strlen (k : bytes)
  | Incr (k : bytes)
  | Decr (k : bytes)
  | Incrby (k n : bytes)
  | Decrby (k n : bytes)
  | Mget (ks : list bytes)
  | Mset (args : list bytes)
  | Msetnx (args : list bytes)
  | Del (ks : list bytes)
  | Exists_ (ks : list bytes)
  | Touch (ks : list bytes)
  | Expire (relative : bool) (unit : time_unit) (k n : bytes)    (* EXPIRE, PEXPIRE, EXPIREAT, PEXPIREAT *)
  | Ttl (unit : time_unit) (k : bytes)                           (* TTL, PTTL *)
  | Type_ (k : bytes)
  | Rename (k k2 : bytes)
  | Renamenx (k k2 : bytes)
  | Flushdb
  | Sadd (k : bytes) (vs : list bytes)
  | Srem (k : bytes) (vs : list bytes)
  | Smove (k k2 v : bytes)
  | Sismember (k v : bytes)
  | Scard (k : bytes).

Definition get_spec (m : keyspace) (k : bytes) : bytes :=
  match m !! k with
  | None => nil_reply
  | Some (VString s, _) => bulk s
  | Some (VOther _, _) => wrongtypeerr
  end.

Definition milliseconds (unit : time_unit) (n : Z) : Z := match unit with UNIT_SECONDS => n * 1000 | UNIT_MILLISECONDS => n end.

(** The expire time that a store asks for: an error, or a time if there is one. *)
Definition expire_spec (now : Z) (name : bytes) (expire : option (bytes * time_unit)) : bytes + option Z :=
  match expire with
  | None => inr None
  | Some (e, unit) =>
      match string2ll e with
      | None => inl not_integer
      | Some n => if n <=? 0 then inl (err_reply (str "invalid expire time in " ++ name))
                  else inr (Some (now + milliseconds unit n))
      end
  end.

Definition set_spec (now : Z) (m : keyspace) (name k v : bytes) (nx xx : bool) (expire : option (bytes * time_unit))
    (yes no : bytes) : keyspace * bytes :=
  match expire_spec now name expire with
  | inl e => (m, e)
  | inr w => if (nx && is_some (m !! k)) || (xx && negb (is_some (m !! k))) then (m, no)
             else (<[k := (VString v, w)]> m, yes)
  end.

(** The options of SET: NX, XX and the expire time; NX excludes XX, EX excludes PX. *)
Fixpoint options_spec (args : list bytes) (nx xx : bool) (expire : option (bytes * time_unit))
  : option (bool * bool * option (bytes * time_unit)) :=
  match args with
  | [] => Some (nx, xx, expire)
  | a :: rest =>
      let a := cstr a in
      if is_option a 110 && negb xx then options_spec rest true xx expire else
      if is_option a 120 && negb nx then options_spec rest nx true expire else
      match rest, expire with
      | t :: rest', (None | Some (_, UNIT_SECONDS)) =>
          if is_option a 101 then options_spec rest' nx xx (Some (t, UNIT_SECONDS)) else
          match expire with
          | None => if is_option a 112 then options_spec rest' nx xx (Some (t, UNIT_MILLISECONDS)) else None
          | Some _ => None
          end
      | t :: rest', Some (_, UNIT_MILLISECONDS) =>
          if is_option a 112 then options_spec rest' nx xx (Some (t, UNIT_MILLISECONDS)) else None
      | [], _ => None
      end
  end.

(** The text with [v] from the offset [o] on, and zeros before it. *)
Definition overlay (s : bytes) (o : nat) (v : bytes) : bytes :=
  take o (s ++ replicate (o - length s) 0) ++ v ++ drop (o + length v) s.

Definition setrange_spec (m : keyspace) (k offset v : bytes) : keyspace * bytes :=
  match string2ll offset with
  | None => (m, not_integer)
  | Some o =>
      if o <? 0 then (m, err_reply (str "offset is out of range")) else
      match m !! k with
      | Some (VOther _, _) => (m, wrongtypeerr)
      | e => let '(s, w) := match e with Some (VString s, w) => (s, w) | _ => ([], None) end in
             if bool_decide (v = []) then (m, int_reply (Z.of_nat (length s))) else
             if o + Z.of_nat (length v) >? STRING_MAX then (m, too_long) else
             let s := overlay s (Z.to_nat o) v in
             (<[k := (VString s, w)]> m, int_reply (Z.of_nat (length s)))
      end
  end.

(** The bytes between two indices, which count from the end if they are negative. *)
Definition range_spec (s : bytes) (start end_ : Z) : bytes :=
  let len := Z.of_nat (length s) in
  let i := Z.max 0 (if start <? 0 then len + start else start) in
  let j := Z.min (len - 1) (Z.max 0 (if end_ <? 0 then len + end_ else end_)) in
  if (start <? 0) && (end_ <? 0) && (start >? end_) then [] else
  take (Z.to_nat (j - i + 1)) (drop (Z.to_nat i) s).

Definition getrange_spec (m : keyspace) (k start end_ : bytes) : bytes :=
  match string2ll start, string2ll end_ with
  | Some i, Some j =>
      match m !! k with
      | None => bulk []
      | Some (VString s, _) => bulk (range_spec s i j)
      | Some (VOther _, _) => wrongtypeerr
      end
  | _, _ => not_integer
  end.

Definition append_spec (m : keyspace) (k v : bytes) : keyspace * bytes :=
  match m !! k with
  | None => (<[k := (VString v, None)]> m, int_reply (Z.of_nat (length v)))
  | Some (VOther _, _) => (m, wrongtypeerr)
  | Some (VString s, w) =>
      let len := Z.of_nat (length s) + Z.of_nat (length v) in
      if len >? STRING_MAX then (m, too_long) else (<[k := (VString (s ++ v), w)]> m, int_reply len)
  end.

Definition strlen_spec (m : keyspace) (k : bytes) : bytes :=
  match m !! k with
  | None => int_reply 0
  | Some (VString s, _) => int_reply (Z.of_nat (length s))
  | Some (VOther _, _) => wrongtypeerr
  end.

Definition incr_spec (m : keyspace) (k : bytes) (n : Z) : keyspace * bytes :=
  match m !! k with
  | Some (VOther _, _) => (m, wrongtypeerr)
  | e => let '(old, w) := match e with Some (VString s, w) => (string2ll s, w) | _ => (Some 0, None) end in
         match old with
         | None => (m, not_integer)
         | Some old => if bool_decide (LLONG_MIN <= old + n <= LLONG_MAX)
                       then (<[k := (VString (dec (old + n)), w)]> m, int_reply (old + n))
                       else (m, err_reply (str "increment or decrement would overflow"))
         end
  end.

Definition incrby_spec (m : keyspace) (k n : bytes) (sign : Z) : keyspace * bytes :=
  match string2ll n with None => (m, not_integer) | Some n => incr_spec m k (sign * n) end.

Definition mget_spec (m : keyspace) (ks : list bytes) : bytes :=
  [42] ++ dec (Z.of_nat (length ks)) ++ crlf ++
  concat ((fun k => match m !! k with Some (VString s, _) => bulk s | _ => nil_reply end) <$> ks).

Fixpoint mset_spec (m : keyspace) (args : list bytes) : keyspace :=
  match args with
  | k :: v :: rest => mset_spec (<[k := (VString v, None)]> m) rest
  | _ => m
  end.

Fixpoint any_key (m : keyspace) (args : list bytes) : bool :=
  match args with
  | k :: _ :: rest => is_some (m !! k) || any_key m rest
  | _ => false
  end.

Definition wrong_mset : bytes := err_reply (str "wrong number of arguments for MSET").

Fixpoint del_spec (m : keyspace) (ks : list bytes) : keyspace * Z :=
  match ks with
  | [] => (m, 0)
  | k :: ks' => let '(m', n) := del_spec (delete k m) ks' in (m', (if is_some (m !! k) then 1 else 0) + n)
  end.

Fixpoint exists_spec (m : keyspace) (ks : list bytes) : Z :=
  match ks with [] => 0 | k :: ks' => (if is_some (m !! k) then 1 else 0) + exists_spec m ks' end.

(** A time that is not in the future deletes the key. *)
Definition expire_cmd_spec (now : Z) (m : keyspace) (relative : bool) (unit : time_unit) (k n : bytes) : keyspace * bytes :=
  match string2ll n with
  | None => (m, not_integer)
  | Some n =>
      match m !! k with
      | None => (m, int_reply 0)
      | Some (x, _) =>
          let when := milliseconds unit n + (if relative then now else 0) in
          (if when <=? now then delete k m else <[k := (x, Some when)]> m, int_reply 1)
      end
  end.

(** The time that is left, rounded to seconds or in milliseconds. *)
Definition ttl_spec (now : Z) (m : keyspace) (unit : time_unit) (k : bytes) : Z :=
  match m !! k with
  | None => -2
  | Some (_, None) => -1
  | Some (_, Some w) => match unit with UNIT_SECONDS => (w - now + 500) / 1000 | UNIT_MILLISECONDS => w - now end
  end.

Definition type_spec (m : keyspace) (k : bytes) : bytes :=
  match m !! k with None => str "none" | Some (VString _, _) => str "string" | Some (VOther x, _) => type_name (other_type x) end.

Definition rename_spec (m : keyspace) (k k2 : bytes) (nx : bool) : keyspace * bytes :=
  match m !! k with
  | None => (m, nokeyerr)
  | Some x =>
      if bool_decide (k = k2) || nx && is_some (m !! k2) then (m, if nx then int_reply 0 else ok_reply)
      else (<[k2 := x]> (delete k m), if nx then int_reply 1 else ok_reply)
  end.

(** The set at a key: the empty set without an expire time if there is no key;
    [None]: the value is not a set. *)
Definition set_at (m : keyspace) (k : bytes) : option (gset bytes * option Z) :=
  match m !! k with
  | None => Some (∅, None)
  | Some (VOther (Members X), w) => Some (X, w)
  | Some _ => None
  end.

(** There is no key with an empty set. *)
Definition put_set (m : keyspace) (k : bytes) (X : gset bytes) (w : option Z) : keyspace :=
  if bool_decide (X = ∅) then delete k m else <[k := (VOther (Members X), w)]> m.

Definition sadd_spec (m : keyspace) (k : bytes) (vs : list bytes) : keyspace * bytes :=
  match set_at m k with
  | None => (m, wrongtypeerr)
  | Some (X, w) => (put_set m k (X ∪ list_to_set vs) w, int_reply (Z.of_nat (base.size (list_to_set vs ∖ X))))
  end.

Definition srem_spec (m : keyspace) (k : bytes) (vs : list bytes) : keyspace * bytes :=
  match set_at m k with
  | None => (m, wrongtypeerr)
  | Some (X, w) => (put_set m k (X ∖ list_to_set vs) w, int_reply (Z.of_nat (base.size (X ∩ list_to_set vs))))
  end.

(** A key without a set is looked for first, then the types are checked. *)
Definition smove_spec (m : keyspace) (k k2 v : bytes) : keyspace * bytes :=
  match m !! k with
  | None => (m, int_reply 0)
  | Some _ =>
      match set_at m k, set_at m k2 with
      | Some (X, w), Some (Y, w2) =>
          if bool_decide (v ∈ X) then
            (if bool_decide (k = k2) then m else put_set (put_set m k (X ∖ {[v]}) w) k2 (Y ∪ {[v]}) w2, int_reply 1)
          else (m, int_reply 0)
      | _, _ => (m, wrongtypeerr)
      end
  end.

Definition sismember_spec (m : keyspace) (k v : bytes) : bytes :=
  match set_at m k with
  | None => wrongtypeerr
  | Some (X, _) => int_reply (if bool_decide (v ∈ X) then 1 else 0)
  end.

Definition scard_spec (m : keyspace) (k : bytes) : bytes :=
  match set_at m k with
  | None => wrongtypeerr
  | Some (X, _) => int_reply (Z.of_nat (base.size X))
  end.

(** The key space after a command, and the reply. *)
Definition kspec (now : Z) (m : keyspace) (cmd : kcmd) : keyspace * bytes :=
  match cmd with
  | Get k => (m, get_spec m k)
  | Set_ k v options =>
      match options_spec options false false None with
      | None => (m, str "-ERR syntax error" ++ crlf)
      | Some (nx, xx, expire) => set_spec now m (str "set") k v nx xx expire ok_reply nil_reply
      end
  | Setnx k v => set_spec now m (str "setnx") k v true false None (int_reply 1) (int_reply 0)
  | Setex k t v => set_spec now m (str "setex") k v false false (Some (t, UNIT_SECONDS)) ok_reply nil_reply
  | Psetex k t v => set_spec now m (str "psetex") k v false false (Some (t, UNIT_MILLISECONDS)) ok_reply nil_reply
  | Getset k v =>
      match m !! k with
      | Some (VOther _, _) => (m, wrongtypeerr)
      | _ => (<[k := (VString v, None)]> m, get_spec m k)
      end
  | Setrange k o v => setrange_spec m k o v
  | Getrange k i j => (m, getrange_spec m k i j)
  | Append k v => append_spec m k v
  | Strlen k => (m, strlen_spec m k)
  | Incr k => incr_spec m k 1
  | Decr k => incr_spec m k (-1)
  | Incrby k n => incrby_spec m k n 1
  | Decrby k n => incrby_spec m k n (-1)
  | Mget ks => (m, mget_spec m ks)
  | Mset args => if Nat.odd (length args) then (m, wrong_mset) else (mset_spec m args, ok_reply)
  | Msetnx args =>
      if Nat.odd (length args) then (m, wrong_mset) else
      if any_key m args then (m, int_reply 0) else (mset_spec m args, int_reply 1)
  | Del ks => let '(m', n) := del_spec m ks in (m', int_reply n)
  | Exists_ ks | Touch ks => (m, int_reply (exists_spec m ks))
  | Expire relative unit k n => expire_cmd_spec now m relative unit k n
  | Ttl unit k => (m, int_reply (ttl_spec now m unit k))
  | Type_ k => (m, [43] ++ type_spec m k ++ crlf)
  | Rename k k2 => rename_spec m k k2 false
  | Renamenx k k2 => rename_spec m k k2 true
  | Flushdb => (∅, ok_reply)
  | Sadd k vs => sadd_spec m k vs
  | Srem k vs => srem_spec m k vs
  | Smove k k2 v => smove_spec m k k2 v
  | Sismember k v => (m, sismember_spec m k v)
  | Scard k => (m, scard_spec m k)
  end.

(** ** Times *)

(** The end of an expire time, with room for the rounding of TTL. *)
Definition TIME_MAX : Z := LLONG_MAX - 500.

Definition times_ok (m : keyspace) : Prop := map_Forall (fun _ x => from_option (fun w => w <= TIME_MAX) True (snd x)) m.

(** ** The database shows a key space *)

Definition oother (o : robj) : other :=
  match o_type o, o_ptr o with
  | OBJ_SET, PtrSet s => Members (members s)
  | t, _ => Opaque t
  end.

Lemma other_type_oother o : other_type (oother o) = o_type o.
Proof. unfold oother. destruct (o_type o); try done. by destruct (o_ptr o). Qed.

Definition oval (o : robj) : value := if bool_decide (o_type o = OBJ_STRING) then VString (nodeval o) else VOther (oother o).

(** A stored string is well-formed and not too long; a stored set is well-formed,
    has a member, and has room for [n] more. *)
Definition value_fits `{SC : SetConfig} (n : Z) (o : robj) : Prop :=
  (o_type o = OBJ_STRING -> strobj_ok o /\ Z.of_nat (length (nodeval o)) <= STRING_MAX) /\
  (o_type o = OBJ_SET -> exists s X, o_ptr o = PtrSet s /\ set_is set_hash s X /\ X <> ∅ /\ 1 <= o_refcount o /\
     Z.of_nat (base.size X) + n + 1 < INTSET_MAX).

Lemma value_fits_le `{SC : SetConfig} n n' o : n' <= n -> value_fits n o -> value_fits n' o.
Proof.
  intros Hn [H1 H2]. split; [done|]. intros Ht. destruct (H2 Ht) as (s & X & ? & ? & ? & ? & ?). exists s, X. split_and!; auto. lia.
Qed.

Lemma strobj_val o : strobj_ok o -> objval o = Some (nodeval o).
Proof.
  intros (_ & _ & He). unfold nodeval, objval. destruct (o_encoding o); try done.
  - by destruct He as (s & -> & _).
  - by destruct He as (n & -> & _).
  - by destruct He as (s & -> & _).
Qed.

(** Fewer keys than a dictionary can hold, and than a set can have members. *)
Definition ROOM_MAX : Z := INTSET_MAX - 3.

Lemma room_max : ROOM_MAX <= KD_MAX /\ ROOM_MAX + 2 < INTSET_MAX.
Proof. unfold ROOM_MAX, INTSET_MAX, KD_MAX. lia. Qed.

Section Shows.
Context {T : Type -> Type} `{KD : KeyDict T} `{KL : !KeyDictLaws T} `{SC : SetConfig}.

(** At the time [now] the database shows [m], and has room for [n] more keys and
    for [n] more members in each set. *)
Record shows (n : Z) (now : Z) (db : redisDb T) (m : keyspace) : Prop := {
  sh_ok : db_ok db;
  sh_room : Z.of_nat (base.size (vals db)) + n <= ROOM_MAX;
  sh_fits : forall k o, live now db k = Some o -> value_fits n o;
  sh_map : forall k, m !! k = prod_map oval id <$> entry now db k
}.

Lemma shows_le n n' now db m : n' <= n -> shows n now db m -> shows n' now db m.
Proof.
  intros ? [H1 H2 H3 H4]. split; try done; [lia|]. intros k o Hl. by eapply value_fits_le, H3.
Qed.

Lemma shows_same n now db db' m : shows n now db m -> db_ok db' -> same_live now db db' ->
  (base.size (vals db') <= base.size (vals db))%nat -> shows n now db' m.
Proof.
  intros [H1 H2 H3 H4] Hdb' Hs Hz. split; [done|lia| |].
  - intros k o. rewrite Hs by lia. apply H3.
  - intros k. by rewrite (same_live_entry now db).
Qed.

Lemma entry_alive now t db k : now <= t -> entry t db k =
  match entry now db k with Some (o, e) => if over t e then None else Some (o, e) | None => None end.
Proof.
  intros Ht. unfold entry, live, expired, over. destruct (exps db !! k) as [w|]; [|by destruct (vals db !! k)].
  destruct (Z.ltb_spec w now), (Z.ltb_spec w t); destruct (vals db !! k); cbn; try done; try lia.
  - destruct (Z.ltb_spec w t); [done|lia].
  - destruct (Z.ltb_spec w t); [lia|done].
Qed.

(** Time passes. *)
Lemma shows_later n now t db m : now <= t -> shows n now db m -> shows n t db (alive t m).
Proof.
  intros Ht [H1 H2 H3 H4]. split; try done.
  - intros k o Hl. apply (H3 k). revert Hl. unfold live, expired. destruct (exps db !! k) as [w|]; [|done].
    destruct (Z.ltb_spec w t), (Z.ltb_spec w now); (done || lia).
  - intros k. unfold alive. rewrite (entry_alive now t) by done. specialize (H4 k).
    destruct (entry now db k) as [[o e]|]; cbn in H4 |- *.
    + destruct (over t e) eqn:Eo; cbn.
      * apply map_lookup_filter_None. right. intros x Hx. rewrite H4 in Hx. injection Hx as <-. cbn. by rewrite Eo.
      * by apply map_lookup_filter_Some.
    + apply map_lookup_filter_None. by left.
Qed.

Lemma shows_emit n now db m e : shows n now db m -> shows n now (emit db e) m.
Proof. intros [H1 H2 H3 H4]. split; try done. by apply db_ok_emit. Qed.

(** What a lookup finds. *)
Inductive finds (m : keyspace) (k : bytes) : option robj -> Prop :=
  | finds_none : m !! k = None -> finds m k None
  | finds_string o s w : m !! k = Some (VString s, w) -> strobj_ok o -> objval o = Some s ->
      Z.of_nat (length s) <= STRING_MAX -> finds m k (Some o)
  | finds_other o w : m !! k = Some (VOther (oother o), w) -> o_type o <> OBJ_STRING -> finds m k (Some o).

Lemma shows_finds n now db m k : shows n now db m -> finds m k (live now db k).
Proof.
  intros [_ _ H3 H4]. specialize (H3 k). specialize (H4 k). unfold entry in H4.
  destruct (live now db k) as [o|]; cbn in H4; [|by constructor].
  unfold oval in H4. case_bool_decide as Et.
  - destruct (proj1 (H3 o eq_refl) Et) as [Ho Hl]. eapply finds_string; [done|done| |done]. by apply strobj_val.
  - by eapply finds_other.
Qed.

(** The key is ready for a write: a value that is over is gone. *)
Definition fresh (now : Z) (db : redisDb T) (k : bytes) : Prop := vals db !! k = live now db k.

Lemma shows_fresh n now db m k : shows n now db m -> is_Some (m !! k) -> fresh now db k.
Proof.
  intros [_ _ _ H4] Hk. rewrite H4 in Hk. unfold fresh, entry, live in *. destruct (expired now db k); [|done].
  cbn in Hk. by destruct Hk.
Qed.

Lemma shows_write n now db db' m k o : shows n now db m -> fresh now db k -> db_ok db' ->
  vals db' = <[k := o]> (vals db) -> exps db' = exps db -> value_fits n o ->
  shows (if is_some (vals db !! k) then n else n - 1) now db' (<[k := (oval o, m !! k ≫= snd)]> m).
Proof.
  intros [H1 H2 H3 H4] Hf Hdb' V X Ho.
  assert (expired now db k = false) as Hx.
  { destruct (expired now db k) eqn:E; [|done]. unfold fresh, live in Hf. rewrite E in Hf. unfold expired in E.
    destruct (exps db !! k) eqn:Ew; [|done]. destruct (dbk_dom _ H1 k) as [v Hv]; [unfold exps in Ew; rewrite Ew; eauto|].
    unfold vals in Hf. congruence. }
  assert (forall j, live now db' j = if decide (j = k) then Some o else live now db j) as Hl.
  { intros j. unfold live, expired. rewrite V, X. destruct (decide (j = k)) as [->|Hne].
    - unfold expired in Hx. rewrite Hx. apply lookup_insert_eq.
    - by rewrite lookup_insert_ne. }
  split; [done| | |].
  - rewrite V, map_size_insert. destruct (vals db !! k); cbn; unfold id; lia.
  - intros j p. rewrite Hl. intros Hp. apply (value_fits_le n); [destruct (is_some _); lia|].
    destruct (decide (j = k)); [by injection Hp as <-|by apply (H3 j)].
  - intros j. unfold entry. rewrite Hl, X. destruct (decide (j = k)) as [->|Hne].
    + rewrite lookup_insert_eq. cbn. do 2 f_equal. rewrite H4. unfold entry. unfold fresh in Hf. rewrite <- Hf.
      destruct (vals db !! k) eqn:Ev; cbn; [done|]. symmetry. apply eq_None_not_Some. intros Hs.
      apply (dbk_dom _ H1) in Hs as [v Hv]. unfold vals in Ev. congruence.
    + rewrite lookup_insert_ne by done. apply H4.
Qed.

Lemma shows_delete n now db db' m k : shows n now db m -> db_ok db' -> vals db' = delete k (vals db) -> exps db' = delete k (exps db) ->
  shows n now db' (delete k m).
Proof.
  intros [H1 H2 H3 H4] Hdb' V X.
  assert (forall j, live now db' j = if decide (k = j) then None else live now db j) as Hl.
  { intros j. unfold live, expired. rewrite V, X. destruct (decide (k = j)) as [<-|Hne].
    - by rewrite !lookup_delete_eq.
    - by rewrite !lookup_delete_ne. }
  split; [done| | |].
  - rewrite V, map_size_delete. destruct (vals db !! k); unfold id; lia.
  - intros j p. rewrite Hl. destruct (decide (k = j)); [done|apply H3].
  - intros j. unfold entry. rewrite Hl, X. destruct (decide (k = j)) as [<-|Hne].
    + by rewrite lookup_delete_eq.
    + rewrite !lookup_delete_ne by done. apply H4.
Qed.

Lemma shows_set n now db db1 db' m k o : shows n now db m -> db_ok db1 -> same_live now db db1 ->
  (base.size (vals db1) <= base.size (vals db))%nat -> db_ok db' ->
  vals db' = <[k := o]> (vals db1) -> exps db' = delete k (exps db1) -> value_fits n o ->
  shows (n - 1) now db' (<[k := (oval o, None)]> m).
Proof.
  intros Hsh Hdb1 Hs Hz Hdb' V X Ho. destruct (shows_same n now db db1 m Hsh Hdb1 Hs Hz) as [H1 H2 H3 H4].
  assert (forall j, live now db' j = if decide (j = k) then Some o else live now db1 j) as Hl.
  { intros j. unfold live, expired. rewrite V, X. destruct (decide (j = k)) as [->|Hne].
    - by rewrite lookup_delete_eq, lookup_insert_eq.
    - by rewrite lookup_delete_ne, lookup_insert_ne. }
  split; [done| | |].
  - rewrite V, map_size_insert. destruct (vals db1 !! k); unfold id; lia.
  - intros j p. rewrite Hl. intros Hp. apply (value_fits_le n); [lia|].
    destruct (decide (j = k)); [by injection Hp as <-|by apply (H3 j)].
  - intros j. unfold entry. rewrite Hl, X. destruct (decide (j = k)) as [->|Hne].
    + by rewrite lookup_delete_eq, lookup_insert_eq.
    + rewrite lookup_delete_ne, lookup_insert_ne by done. apply H4.
Qed.
End Shows.
