(* ===== verification/RdbProofs.v ===== *)
(** * Dump files: what is saved is loaded

    For every encoding of a dump file ([Rdb.v]): the bytes that the save function
    writes, and that the load function reads them back as the same value. The
    saving and the loading server may have different configurations. *)

From S2P Require Import Prelude CLib Util Sds Dict IntSet Object SetType KeyDict Db Keyspace.
From S2P Require Import SdsNum Sets Scan Crc64 Lzf Rio Iter Rdb.
Local Open Scope Z_scope.

(** ** Bits of bytes *)

Lemma land_FF z : Z.land z 0xFF = z mod 256.
Proof. change 0xFF with (Z.ones 8). by rewrite Z.land_ones by lia. Qed.

Lemma mod_byte z : byte_ok (z mod 256).
Proof. unfold byte_ok. apply Z.mod_pos_bound. lia. Qed.

Lemma land_3F z : Z.land z 0x3F = z mod 64.
Proof. change 0x3F with (Z.ones 6). by rewrite Z.land_ones by lia. Qed.

(** The two high bits of a byte. *)
Lemma land_C0 b : byte_ok b -> Z.shiftr (Z.land b 0xC0) 6 = b / 64.
Proof.
  unfold byte_ok. intros Hb. rewrite Z.shiftr_land. change (Z.shiftr 192 6) with (Z.ones 2).
  rewrite Z.land_ones, Z.shiftr_div_pow2 by lia. change (2 ^ 2) with 4. change (2 ^ 6) with 64.
  apply Z.mod_small. split; [apply Z.div_pos; lia|apply Z.div_lt_upper_bound; lia].
Qed.

Lemma lor_add a b k : 0 <= k -> 0 <= b < 2 ^ k -> Z.lor (Z.shiftl a k) b = a * 2 ^ k + b.
Proof.
  intros Hk Hb. rewrite <- Z.shiftl_mul_pow2 by done.
  assert (Z.land (Z.shiftl a k) b = 0) as E; [|by rewrite <- Z.lxor_lor, <- Z.add_nocarry_lxor].
  apply Z.bits_inj'. intros i Hi. rewrite Z.land_spec, Z.bits_0. destruct (decide (i < k)); [by rewrite Z.shiftl_spec_low|].
  destruct (decide (b = 0)) as [->|]; [by rewrite Z.bits_0, andb_false_r|].
  rewrite (Z.bits_above_log2 b), andb_false_r; [done|lia|]. enough (Z.log2 b < k) by lia. apply Z.log2_lt_pow2; lia.
Qed.

(** Four bytes in their places. *)
Lemma lor_bytes b3 b2 b1 b0 : byte_ok b3 -> byte_ok b2 -> byte_ok b1 -> byte_ok b0 ->
  Z.lor (Z.lor (Z.lor (Z.shiftl b3 24) (Z.shiftl b2 16)) (Z.shiftl b1 8)) b0 = b3 * 2 ^ 24 + b2 * 2 ^ 16 + b1 * 2 ^ 8 + b0.
Proof.
  unfold byte_ok. intros H3 H2 H1 H0.
  assert (forall a b k, 0 <= k -> 0 <= b < 256 -> Z.lor (a * 2 ^ (k + 8)) (b * 2 ^ k) = (a * 2 ^ 8 + b) * 2 ^ k) as L.
  { intros a b k Hk Hb.
    replace (a * 2 ^ (k + 8)) with (Z.shiftl (Z.shiftl a 8) k) by (rewrite Z.pow_add_r, !Z.shiftl_mul_pow2 by lia; lia).
    replace (b * 2 ^ k) with (Z.shiftl b k) by (by rewrite Z.shiftl_mul_pow2 by lia).
    rewrite <- Z.shiftl_lor, lor_add by lia. by rewrite Z.shiftl_mul_pow2 by lia. }
  rewrite !Z.shiftl_mul_pow2 by lia. pose proof (L b3 b2 16 ltac:(lia) H2) as E2. pose proof (L (b3 * 2 ^ 8 + b2) b1 8 ltac:(lia) H1) as E1.
  pose proof (L ((b3 * 2 ^ 8 + b2) * 2 ^ 8 + b1) b0 0 ltac:(lia) H0) as E0. rewrite Z.pow_0_r, !Z.mul_1_r in E0.
  change (16 + 8) with 24 in E2. change (8 + 8) with 16 in E1. change (0 + 8) with 8 in E0. rewrite E2, E1, E0. lia.
Qed.

Lemma gives_rd_head {B} b rest (k : Z -> io B) y c : gives (k b) y c -> gives (x ← lift (rd (b :: rest) 0); k x) y c.
Proof. intros H. apply (gives_bind_r (lift (rd (b :: rest) 0)) k b); [by apply gives_lift|done]. Qed.

(** ** Lengths *)

Definition len_bytes (n : Z) : bytes :=
  if n <? 64 then [n]
  else if n <? 16384 then [n / 256 + 64; n mod 256]
  else [128; n / 2 ^ 24; n / 2 ^ 16 mod 256; n / 2 ^ 8 mod 256; n mod 256].

Lemma rdbSaveLen_writes n : 0 <= n < 2 ^ 32 -> writes (rdbSaveLen n) tt (len_bytes n).
Proof.
  intros Hn. unfold rdbSaveLen, len_bytes. rewrite u32_small by done. change (Z.shiftl 1 6) with 64. change (Z.shiftl 1 14) with 16384.
  unfold rdbWriteRaw. rewrite !land_FF.
  destruct (Z.ltb_spec n 64).
  - rewrite Z.mod_small by lia. rewrite Z.lor_0_r. apply writes_rio. repeat constructor; lia.
  - destruct (Z.ltb_spec n 16384).
    + rewrite Z.shiftr_div_pow2 by lia. change (2 ^ 8) with 256.
      assert (0 <= n / 256 < 64) by (split; [apply Z.div_pos|apply Z.div_lt_upper_bound]; lia).
      rewrite (Z.mod_small (n / 256)) by lia. rewrite Z.lor_comm. change (Z.shiftl RDB_14BITLEN 6) with (Z.shiftl 1 6).
      rewrite lor_add by lia. replace (1 * 2 ^ 6 + n / 256) with (n / 256 + 64) by lia.
      apply writes_rio. repeat constructor; try apply mod_byte; lia.
    + unfold be32. rewrite !land_FF, !Z.shiftr_div_pow2 by lia.
      assert (0 <= n / 2 ^ 24 < 256) as Hq by (split; [apply Z.div_pos|apply Z.div_lt_upper_bound]; lia).
      rewrite (Z.mod_small (n / 2 ^ 24)) by lia.
      change (128 :: ?l) with ([128] ++ l). apply (writes_bind (rioWrite [128]) _ tt); apply writes_rio;
        repeat constructor; try apply mod_byte; unfold byte_ok; lia.
Qed.

(** Reading one byte. *)
Lemma gives_byte {B} b (k : Z -> io B) y c : byte_ok b -> gives (k b) y c ->
  gives (x ← rioRead 1; b ← lift (rd x 0); k b) y (b :: c).
Proof.
  intros Hb Hk. change (b :: c) with ([b] ++ c). apply (gives_bind (rioRead 1) _ [b]).
  - apply gives_read; [by constructor|done].
  - by apply gives_rd_head.
Qed.

(** Reading [n] bytes and using them. *)
Lemma gives_block {B} b n (k : bytes -> io B) y c : Forall byte_ok b -> n = Z.of_nat (length b) -> gives (k b) y c ->
  gives (x ← rioRead n; k x) y (b ++ c).
Proof. intros Hb Hn Hk. apply (gives_bind (rioRead n) k b); [by apply gives_read|done]. Qed.

Lemma gives_last {B} b n (k : bytes -> io B) y : Forall byte_ok b -> n = Z.of_nat (length b) -> gives (k b) y [] ->
  gives (x ← rioRead n; k x) y b.
Proof. intros Hb Hn Hk. rewrite <- (app_nil_r b). by apply gives_block. Qed.

Lemma gives_then {A B} (m : res A) (k : A -> io B) x y c : m = Ok x -> gives (k x) y c -> gives (x ← lift m; k x) y c.
Proof. intros Hm Hk. apply (gives_bind_r (lift m) k x); [by apply gives_lift|done]. Qed.

Lemma writes_then {A B} (m : res A) (k : A -> io B) x y c : m = Ok x -> writes (k x) y c -> writes (x ← lift m; k x) y c.
Proof. intros Hm Hk. apply (writes_bind_r (lift m) k x); [by apply writes_lift|done]. Qed.

Lemma byte_fields b : byte_ok b -> b = b / 64 * 64 + b mod 64.
Proof. intros. pose proof (Z.div_mod b 64). lia. Qed.

Lemma rdbLoadLen_gives n : 0 <= n < 2 ^ 32 -> gives rdbLoadLen (n, false) (len_bytes n).
Proof.
  intros Hn. unfold rdbLoadLen, len_bytes. destruct (Z.ltb_spec n 64).
  - apply gives_byte; [unfold byte_ok; lia|]. rewrite land_C0 by (unfold byte_ok; lia). rewrite Z.div_small by lia.
    cbn [Z.eqb RDB_ENCVAL RDB_6BITLEN]. rewrite land_3F, Z.mod_small by lia. apply gives_ret.
  - destruct (Z.ltb_spec n 16384).
    + assert (0 <= n / 256 < 64) as Hq by (split; [apply Z.div_pos|apply Z.div_lt_upper_bound]; lia).
      apply gives_byte; [unfold byte_ok; lia|]. rewrite land_C0 by (unfold byte_ok; lia). rewrite land_3F.
      replace (n / 256 + 64) with (n / 256 + 1 * 64) by lia. rewrite Z.div_add, Z.div_small, Z_mod_plus_full, (Z.mod_small (n / 256)) by lia.
      cbn [Z.eqb Z.add RDB_ENCVAL RDB_6BITLEN RDB_14BITLEN]. apply gives_byte; [apply mod_byte|].
      rewrite lor_add by (try lia; apply mod_byte). change (2 ^ 8) with 256. replace (n / 256 * 256 + n mod 256) with n; [apply gives_ret|].
      pose proof (Z.div_mod n 256). lia.
    + apply gives_byte; [unfold byte_ok; lia|]. change (Z.shiftr (Z.land 128 192) 6) with 2. cbn [Z.eqb Pos.eqb RDB_ENCVAL RDB_6BITLEN RDB_14BITLEN RDB_32BITLEN].
      assert (0 <= n / 2 ^ 24 < 256) as Hq by (split; [apply Z.div_pos|apply Z.div_lt_upper_bound]; lia).
      apply gives_last; [|done|].
      { repeat constructor; try apply mod_byte; unfold byte_ok; lia. }
      do 4 (eapply gives_then; [reflexivity|]).
      match goal with |- gives (mret (?z, _)) _ _ => replace z with n end; [apply gives_ret|].
      rewrite lor_bytes by (try apply mod_byte; unfold byte_ok; lia).
      pose proof (Z.div_mod n 256). pose proof (Z.div_mod (n / 2 ^ 8) 256). pose proof (Z.div_mod (n / 2 ^ 16) 256).
      assert (n / 2 ^ 8 / 256 = n / 2 ^ 16 /\ n / 2 ^ 16 / 256 = n / 2 ^ 24) as [E1 E2] by (rewrite !Z.div_div by lia; done).
      change (2 ^ 8) with 256 in *. lia.
Qed.

Lemma load_len_gives n : 0 <= n < RDB_LENERR -> gives load_len n (len_bytes n).
Proof.
  unfold RDB_LENERR. intros Hn. unfold load_len. apply (gives_bind_l rdbLoadLen _ (n, false)); [apply rdbLoadLen_gives; lia|].
  unfold RDB_LENERR. rewrite (proj2 (Z.eqb_neq _ _)) by lia. apply gives_ret.
Qed.

(** An encoding in place of a length. *)
Lemma load_encval e : 0 <= e < 64 -> gives rdbLoadLen (e, true) [192 + e].
Proof.
  intros He. unfold rdbLoadLen. apply gives_byte; [unfold byte_ok; lia|]. rewrite land_C0, land_3F by (unfold byte_ok; lia).
  replace (192 + e) with (e + 3 * 64) by lia. rewrite Z.div_add, Z.div_small, Z_mod_plus_full, Z.mod_small by lia. apply gives_ret.
Qed.

(** ** Integers *)

Definition width32 (n : Z) : Prop := - 2 ^ 31 <= n < 2 ^ 31.

(** The number of bytes that hold the value. *)
Definition int_size (n : Z) : nat :=
  if (n >=? - 128) && (n <=? 127) then 1 else if (n >=? - 32768) && (n <=? 32767) then 2 else 4.

Definition int_enc (k : nat) : Z := match k with 1%nat => 192 | 2%nat => 193 | _ => 194 end.

Lemma le_bytes_1 z : le_bytes 1 z = [z mod 256].
Proof. done. Qed.
Lemma le_bytes_2 z : le_bytes 2 z = [z mod 256; z / 2 ^ 8 mod 256].
Proof. done. Qed.
Lemma le_bytes_4 z : le_bytes 4 z = [z mod 256; z / 2 ^ 8 mod 256; z / 2 ^ 16 mod 256; z / 2 ^ 24 mod 256].
Proof. cbn [le_bytes]. rewrite !Z.div_div by lia. done. Qed.

Lemma le_bytes_ok n : forall z, Forall byte_ok (le_bytes n z).
Proof. induction n; intros z; cbn; constructor; [apply mod_byte|done]. Qed.

Lemma rdbEncodeInteger_bytes n : width32 n -> rdbEncodeInteger n = int_enc (int_size n) :: le_bytes (int_size n) n.
Proof.
  unfold width32, rdbEncodeInteger, int_size. intros Hn. rewrite !land_FF, !Z.shiftr_div_pow2 by lia.
  change (- Z.shiftl 1 7) with (-128). change (Z.shiftl 1 7 - 1) with 127.
  change (- Z.shiftl 1 15) with (-32768). change (Z.shiftl 1 15 - 1) with 32767.
  change (- Z.shiftl 1 31) with (- 2 ^ 31). change (Z.shiftl 1 31 - 1) with (2 ^ 31 - 1).
  destruct (_ && _); [done|]. destruct (_ && _); [by rewrite le_bytes_2|]. rewrite le_bytes_4.
  rewrite Z.geb_leb, (proj2 (Z.leb_le _ _)), (proj2 (Z.leb_le _ _)) by lia. done.
Qed.

Lemma rdbEncodeInteger_none n : ~ width32 n -> rdbEncodeInteger n = [].
Proof.
  unfold width32, rdbEncodeInteger. intros Hn.
  change (- Z.shiftl 1 7) with (-128). change (Z.shiftl 1 7 - 1) with 127.
  change (- Z.shiftl 1 15) with (-32768). change (Z.shiftl 1 15 - 1) with 32767.
  change (- Z.shiftl 1 31) with (- 2 ^ 31). change (Z.shiftl 1 31 - 1) with (2 ^ 31 - 1).
  repeat (rewrite Z.geb_leb; match goal with |- context [?a <=? ?b] => destruct (Z.leb_spec a b) end; cbn [andb]); try lia;
    repeat (match goal with |- context [?a <=? ?b] => destruct (Z.leb_spec a b) end; cbn [andb]); (done || lia).
Qed.

Lemma int_size_fits n : width32 n -> fits (Z.of_nat (int_size n)) n.
Proof.
  unfold width32, int_size, fits. intros Hn. rewrite !Z.geb_leb.
  destruct (Z.leb_spec (-128) n), (Z.leb_spec n 127); cbn; [lia|..];
    destruct (Z.leb_spec (-32768) n), (Z.leb_spec n 32767); cbn; lia.
Qed.

(** The value of the bytes, as the code puts them together. *)
Lemma le_value n k : width32 n -> k = int_size n -> sx (8 * Z.of_nat k) (le_nat (le_bytes k n)) = n.
Proof.
  intros Hn ->. pose proof (int_size_fits n Hn) as Hf. rewrite le_nat_bytes, sx_mod. apply sx_small; [|exact Hf].
  unfold int_size. repeat destruct (_ && _); lia.
Qed.

(** ** Strings *)

(** The bytes [b] are loaded as the string [v], in each of the three forms. *)
Definition loads_as (b v : bytes) : Prop := forall cf,
  (exists s, sds_ok s /\ sdsval s = v /\
     gives (rdbGenericLoadStringObject cf RDB_LOAD_NONE) (LObj (createObject OBJ_STRING s)) b) /\
  (exists o, strobj_ok o /\ objval o = Some v /\ gives (rdbGenericLoadStringObject cf RDB_LOAD_ENC) (LObj o) b) /\
  gives (rdbGenericLoadStringObject cf RDB_LOAD_PLAIN) (LPlain v) b.

Lemma load_integer cf n flags y : width32 n ->
  gives (if f_plain flags then
           '(len, buf) ← lift (ll2string (replicate (Z.to_nat LONG_STR_SIZE) (rdb_junk cf)) LONG_STR_SIZE n);
           p ← lift (mread buf 0 (Z.to_nat len));
           mret (LPlain p)
         else if f_encode flags then mret (LObj (createStringObjectFromLongLong n))
         else s ← lift (sdsfromlonglong (rdb_junk cf) n); mret (LObj (createObject OBJ_STRING s))) y [] ->
  gives (rdbGenericLoadStringObject cf flags) y (rdbEncodeInteger n).
Proof.
  intros Hn Hk. rewrite rdbEncodeInteger_bytes by done. unfold rdbGenericLoadStringObject.
  pose proof (le_value n _ Hn eq_refl) as Hv. pose proof (le_bytes_ok (int_size n) n) as Hb.
  assert (int_size n = 1%nat \/ int_size n = 2%nat \/ int_size n = 4%nat) as Hs by (unfold int_size; repeat destruct (_ && _); auto).
  change (?h :: ?t) with ([h] ++ t).
  destruct Hs as [E|[E|E]]; rewrite E in *; cbn [int_enc].
  - apply (gives_bind rdbLoadLen _ (0, true)); [by apply (load_encval 0)|]. cbn [Z.eqb orb RDB_ENC_INT8].
    unfold rdbLoadIntegerObject. apply (gives_bind_l _ _ n); [|exact Hk]. cbn [Z.eqb RDB_ENC_INT8].
    apply gives_last; [done|done|]. eapply gives_then; [reflexivity|].
    rewrite le_bytes_1 in Hv. cbn [le_nat] in Hv. rewrite Z.mul_0_r, Z.add_0_r in Hv. change (8 * Z.of_nat 1) with 8 in Hv. rewrite Hv. apply gives_ret.
  - apply (gives_bind rdbLoadLen _ (1, true)); [by apply (load_encval 1)|]. cbn [Z.eqb orb RDB_ENC_INT8 RDB_ENC_INT16 Pos.eqb].
    unfold rdbLoadIntegerObject. apply (gives_bind_l _ _ n); [|exact Hk]. cbn [Z.eqb RDB_ENC_INT8 RDB_ENC_INT16 Pos.eqb].
    apply gives_last; [done|done|]. do 2 (eapply gives_then; [reflexivity|]).
    match goal with |- gives (mret ?z) _ _ => replace z with n end; [apply gives_ret|]. rewrite <- Hv at 1. f_equal.
    rewrite le_bytes_2 in *. cbn [le_nat]. rewrite Z.lor_comm, lor_add by (try lia; apply mod_byte). change (2 ^ 8) with 256. lia.
  - apply (gives_bind rdbLoadLen _ (2, true)); [by apply (load_encval 2)|]. cbn [Z.eqb orb RDB_ENC_INT8 RDB_ENC_INT16 RDB_ENC_INT32 Pos.eqb].
    unfold rdbLoadIntegerObject. apply (gives_bind_l _ _ n); [|exact Hk]. cbn [Z.eqb RDB_ENC_INT8 RDB_ENC_INT16 RDB_ENC_INT32 Pos.eqb].
    apply gives_last; [done|done|]. do 4 (eapply gives_then; [reflexivity|]).
    match goal with |- gives (mret ?z) _ _ => replace z with n end; [apply gives_ret|]. rewrite <- Hv at 1. f_equal.
    fold (n / 256) (n / 256 / 256) (n / 256 / 256 / 256). cbn [le_bytes le_nat].
    rewrite !(Z.lor_comm (Z.lor _ _)), (Z.lor_comm (n mod 256)), !Z.lor_assoc.
    rewrite lor_bytes by apply mod_byte. lia.
Qed.

Lemma width32_ll n : width32 n -> LLONG_MIN <= n <= LLONG_MAX.
Proof. unfold width32, LLONG_MIN, LLONG_MAX. lia. Qed.

Lemma int_object_ok n : LLONG_MIN <= n <= LLONG_MAX ->
  strobj_ok (createStringObjectFromLongLong n) /\ objval (createStringObjectFromLongLong n) = Some (dec n).
Proof.
  intros Hn. unfold createStringObjectFromLongLong, shared_integer. destruct (_ && _); (split; [|done]);
    (split; [done|]); (split; [cbn; lia|]); cbn; eauto.
Qed.

Lemma dec_long n : LLONG_MIN <= n <= LLONG_MAX -> Z.of_nat (length (dec n)) < LONG_STR_SIZE.
Proof. intros Hn. pose proof (dec_length_bound n Hn). unfold LONG_STR_SIZE. lia. Qed.

Lemma int_loads n : width32 n -> loads_as (rdbEncodeInteger n) (dec n).
Proof.
  intros Hn cf. pose proof (width32_ll n Hn) as Hl. split_and!.
  - destruct (sdsfromlonglong_ok (rdb_junk cf) n Hl) as (s & E & Hs & Hv). exists s. split; [done|]. split; [done|].
    apply load_integer; [done|]. cbn. eapply gives_then; [exact E|]. apply gives_ret.
  - exists (createStringObjectFromLongLong n). destruct (int_object_ok n Hl) as [? ?]. split; [done|]. split; [done|].
    apply load_integer; [done|]. cbn. apply gives_ret.
  - apply load_integer; [done|]. cbn [f_plain RDB_LOAD_PLAIN]. pose proof (dec_long n Hl).
    eapply gives_then; [apply ll2string_writes; [done|done|rewrite length_replicate; unfold LONG_STR_SIZE in *; lia]|].
    cbn [app]. eapply gives_then; [apply mread_ok; rewrite Nat2Z.id; len_lia|].
    rewrite drop_0, Nat2Z.id, take_app_length. apply gives_ret.
Qed.

(** [strtoll] on a memory with a terminator. *)
Lemma span_space_nul v rest : exists w, span_space (v ++ 0 :: rest) = w ++ 0 :: rest.
Proof. induction v as [|c v [w IH]]; [by exists []|]. cbn. destruct (isspace c); [by exists w|by exists (c :: v)]. Qed.

Lemma span_digits_nul v rest : exists ds w, span_digits (v ++ 0 :: rest) = (ds, w ++ 0 :: rest) /\ Forall (fun c => isdigit c = true) ds.
Proof.
  induction v as [|c v (ds & w & IH & Hd)]; [by exists [], []|]. cbn. destruct (isdigit c) eqn:E; [|by exists [], (c :: v)].
  rewrite IH. exists (c :: ds), w. split; [done|]. by constructor.
Qed.

Lemma undec_nonneg ds : Forall (fun c => isdigit c = true) ds -> 0 <= undec ds.
Proof.
  intros H. enough (forall acc, 0 <= acc -> 0 <= undec_from acc ds) as E by (by apply E).
  induction H as [|c ds Hc _ IH]; intros acc Hacc; [done|]. unfold undec_from in *. cbn. apply IH.
  unfold isdigit in Hc. bool_hyps. lia.
Qed.

Lemma rd_nul w rest : exists c, rd (w ++ 0 :: rest) 0 = Ok c.
Proof. destruct w; eexists; done. Qed.

Lemma strtoll_nul v rest : exists x e c, strtoll (v ++ 0 :: rest) = Ok (x, e) /\ rd e 0 = Ok c /\ LLONG_MIN <= x <= LLONG_MAX.
Proof.
  unfold strtoll. destruct (span_space_nul v rest) as [w ->]. destruct (rd_nul w rest) as [c Hc]. rewrite Hc, bind_ok.
  assert (exists q, (if (c =? 45) || (c =? 43) then tl (w ++ 0 :: rest) else w ++ 0 :: rest) = q ++ 0 :: rest) as [q ->].
  { destruct w as [|c' w]; [injection Hc as <-; by exists []|]. destruct (_ || _); [by exists w|by exists (c' :: w)]. }
  destruct (rd_nul q rest) as [c1 ->]. rewrite bind_ok. destruct (span_digits_nul q rest) as (ds & w' & -> & Hd).
  destruct ds as [|d ds].
  - destruct (rd_nul v rest) as [c2 Hc2]. exists 0, (v ++ 0 :: rest), c2. split; [done|]. split; [done|]. unfold LLONG_MIN, LLONG_MAX. lia.
  - destruct (rd_nul w' rest) as [c2 Hc2]. rewrite Hc2, bind_ok. do 3 eexists. split; [reflexivity|]. split; [exact Hc2|].
    pose proof (undec_nonneg _ Hd). unfold LLONG_MIN, LLONG_MAX. destruct (c =? 45); lia.
Qed.

Lemma span_digits_all ds rest : Forall (fun c => isdigit c = true) ds -> span_digits (ds ++ 0 :: rest) = (ds, 0 :: rest).
Proof. induction 1 as [|c ds Hc _ IH]; [done|]. cbn. by rewrite Hc, IH. Qed.

Lemma strtoll_dec n rest : LLONG_MIN <= n <= LLONG_MAX -> strtoll (dec n ++ 0 :: rest) = Ok (n, 0 :: rest).
Proof.
  intros Hn. assert (forall m, 0 <= m -> exists c t, udec m = c :: t /\ isdigit c = true) as Hhd.
  { intros m Hm. pose proof (udec_nonempty m Hm). pose proof (udec_digits m Hm) as Hd. destruct (udec m) as [|c t]; [cbn in *; lia|].
    inversion Hd; subst. eauto. }
  unfold strtoll, dec. destruct (Z.ltb_spec n 0).
  - cbn [app span_space]. change (isspace 45) with false. cbn match. cbn [rd lookup list_lookup]. rewrite bind_ok. cbn [Z.eqb Pos.eqb orb tl].
    destruct (Hhd (- n)) as (c & t & E & Hc); [lia|]. assert (rd (udec (- n) ++ 0 :: rest) 0 = Ok c) as -> by (by rewrite E). rewrite bind_ok.
    rewrite span_digits_all by (apply udec_digits; lia). rewrite E at 1. cbn [rd lookup list_lookup]. rewrite bind_ok.
    rewrite undec_udec by lia. do 2 f_equal. lia.
  - destruct (Hhd n) as (c & t & E & Hc); [lia|]. assert (span_space (udec n ++ 0 :: rest) = udec n ++ 0 :: rest) as ->.
    { rewrite E. cbn. unfold isspace. unfold isdigit in Hc. bool_hyps. repeat case_bool; try lia; done. }
    assert (rd (udec n ++ 0 :: rest) 0 = Ok c) as Hrd by (by rewrite E). rewrite Hrd, bind_ok.
    assert ((c =? 45) = false /\ (c =? 43) = false) as [-> ->] by (unfold isdigit in Hc; bool_hyps; split; apply Z.eqb_neq; lia).
    cbn [orb]. rewrite Hrd, bind_ok. rewrite span_digits_all by (apply udec_digits; lia). rewrite E at 1. cbn [rd lookup list_lookup].
    rewrite bind_ok, undec_udec by lia. do 2 f_equal. lia.
Qed.

(** The attempt to encode [v] as an integer: it fails, or [v] is the decimal form
    of the integer. *)
Definition tried (cf : rdb_conf) (mem v : bytes) : Prop :=
  exists enc, rdbTryIntegerEncoding cf mem (Z.of_nat (length v)) = Ok enc /\
    (enc = [] \/ exists n, width32 n /\ v = dec n /\ enc = rdbEncodeInteger n).

Lemma encoded_width n : rdbEncodeInteger n <> [] -> width32 n.
Proof. intros H. destruct (decide (- 2 ^ 31 <= n /\ n < 2 ^ 31)); [done|]. by rewrite rdbEncodeInteger_none in H. Qed.

Lemma try_compare cf v rest x e : strtoll (v ++ 0 :: rest) = Ok (x, e) -> rd e 0 = Ok 0 -> LLONG_MIN <= x <= LLONG_MAX ->
  rdbTryIntegerEncoding cf (v ++ 0 :: rest) (Z.of_nat (length v)) = Ok (if decide (dec x = v) then rdbEncodeInteger x else []).
Proof.
  intros Hs He Hx. unfold rdbTryIntegerEncoding. rewrite Hs, bind_ok, He, bind_ok. cbn [Z.eqb negb].
  pose proof (dec_length_bound x Hx) as Hl.
  rewrite ll2string_writes by (rewrite ?length_replicate; (done || lia)). rewrite bind_ok. cbn [app].
  rewrite cstr_app_nul by apply dec_no_nul.
  destruct (Z.eqb_spec (Z.of_nat (length (dec x))) (Z.of_nat (length v))) as [El|El]; cbn [negb].
  - rewrite Nat2Z.id. rewrite !mread_ok by len_lia. rewrite !bind_ok, !drop_0.
    replace (length v) with (length (dec x)) at 1 by lia. rewrite !take_app_length.
    pose proof (memcmp_eq (dec x) v ltac:(lia)) as Hc. case_decide as Hd.
    + by rewrite (proj2 (Z.eqb_eq _ 0) (proj2 Hc Hd)).
    + rewrite (proj2 (Z.eqb_neq _ 0)); [done|]. by rewrite Hc.
  - rewrite decide_False; [done|]. intros E. by rewrite E in El.
Qed.

Lemma tried_nul cf v rest : tried cf (v ++ 0 :: rest) v.
Proof.
  destruct (strtoll_nul v rest) as (x & e & c & Hs & He & Hx). unfold tried.
  destruct (Z.eqb_spec c 0) as [->|Hc].
  - rewrite (try_compare cf v rest x e) by done. eexists. split; [done|]. case_decide as Hd; [|by left].
    destruct (decide (rdbEncodeInteger x = [])); [by left|]. right. exists x. split; [by apply encoded_width|]. by rewrite Hd.
  - exists []. split; [|by left]. unfold rdbTryIntegerEncoding. rewrite Hs, bind_ok, He, bind_ok.
    by rewrite (proj2 (Z.eqb_neq c 0)).
Qed.

Lemma try_dec cf n rest : LLONG_MIN <= n <= LLONG_MAX ->
  rdbTryIntegerEncoding cf (dec n ++ 0 :: rest) (Z.of_nat (length (dec n))) = Ok (rdbEncodeInteger n).
Proof. intros Hn. rewrite (try_compare cf _ rest n (0 :: rest)); [by rewrite decide_True|by apply strtoll_dec|done|done]. Qed.

(** A string that starts with a byte which no number starts with. *)
Lemma tried_other cf c mem v : isspace c = false -> isdigit c = false -> c <> 45 -> c <> 43 -> c <> 0 -> tried cf (c :: mem) v.
Proof.
  intros Hs Hd H1 H2 H0. exists []. split; [|by left]. unfold rdbTryIntegerEncoding, strtoll. cbn [span_space]. rewrite Hs.
  cbn [rd lookup list_lookup]. rewrite bind_ok, (proj2 (Z.eqb_neq c 45)), (proj2 (Z.eqb_neq c 43)) by done. cbn [orb rd lookup list_lookup].
  rewrite bind_ok. cbn [span_digits]. rewrite Hd, bind_ok. cbn [rd lookup list_lookup]. by rewrite bind_ok, (proj2 (Z.eqb_neq c 0)).
Qed.

(** *** Verbatim strings *)

Lemma len_bytes_range n : 0 <= n < RDB_LENERR -> 0 <= n < 2 ^ 32.
Proof. unfold RDB_LENERR. lia. Qed.

Lemma verbatim_loads v : Forall byte_ok v -> Z.of_nat (length v) < RDB_LENERR -> loads_as (len_bytes (Z.of_nat (length v)) ++ v) v.
Proof.
  intros Hb Hl cf. set (n := Z.of_nat (length v)) in *.
  assert (forall flags y, gives (if negb (f_plain flags) then
      o ← lift (if f_encode flags then createStringObject (rdb_junk cf) v n else createRawStringObject (rdb_junk cf) v n); mret (LObj o)
    else mret (LPlain v)) y [] -> gives (rdbGenericLoadStringObject cf flags) y (len_bytes n ++ v)) as L.
  { intros flags y Hk. unfold rdbGenericLoadStringObject. apply (gives_bind rdbLoadLen _ (n, false)); [apply rdbLoadLen_gives, len_bytes_range; lia|].
    rewrite (proj2 (Z.eqb_neq n RDB_LENERR)) by lia. by apply gives_last. }
  unfold RDB_LENERR in Hl. split_and!.
  - destruct (sdsnewlen_ok (rdb_junk cf) v n) as (s & E & Hs & Hv & _); [lia|lia|]. exists s. split; [done|].
    split; [rewrite Hv; unfold n; rewrite Nat2Z.id; by rewrite take_ge|]. apply L. cbn [negb f_plain f_encode RDB_LOAD_NONE].
    apply (gives_then _ _ (createObject OBJ_STRING s)); [unfold createRawStringObject; by rewrite E|]. apply gives_ret.
  - destruct (createStringObject_ok (rdb_junk cf) v n) as (o & E & Ho & Hv & _); [lia|lia|]. exists o. split; [done|].
    split; [rewrite Hv; unfold n; rewrite Nat2Z.id; by rewrite take_ge|]. apply L. cbn.
    eapply gives_then; [exact E|]. apply gives_ret.
  - apply L. cbn. apply gives_ret.
Qed.

(** *** Compressed strings *)

Lemma compressed_loads c v : decodes c v -> c <> [] -> Forall byte_ok v -> Z.of_nat (length v) < RDB_LENERR -> Z.of_nat (length c) < RDB_LENERR ->
  loads_as ([195] ++ len_bytes (Z.of_nat (length c)) ++ len_bytes (Z.of_nat (length v)) ++ c) v.
Proof.
  intros Hd Hc Hb Hv Hl cf. set (n := Z.of_nat (length v)) in *.
  assert (forall flags y, gives (if f_plain flags then mret (LPlain v)
      else s ← lift (sdsnewlen (rdb_junk cf) (Some v) n); mret (LObj (createObject OBJ_STRING s))) y [] ->
    gives (rdbGenericLoadStringObject cf flags) y ([195] ++ len_bytes (Z.of_nat (length c)) ++ len_bytes n ++ c)) as L.
  { intros flags y Hk. unfold rdbGenericLoadStringObject. apply (gives_bind rdbLoadLen _ (3, true)); [by apply (load_encval 3)|].
    cbn [Z.eqb orb RDB_ENC_INT8 RDB_ENC_INT16 RDB_ENC_INT32 RDB_ENC_LZF Pos.eqb]. unfold rdbLoadLzfStringObject.
    apply (gives_bind load_len _ (Z.of_nat (length c))); [apply load_len_gives; lia|].
    apply (gives_bind load_len _ n); [apply load_len_gives; lia|].
    apply gives_last; [by eapply decodes_bytes|done|].
    set (val := replicate _ _). assert (length val = length v) as El by (unfold val, n; rewrite length_replicate; lia).
    eapply gives_then; [unfold n; rewrite <- El; apply decompress_decodes; [done|done|lia]|].
    rewrite drop_ge, app_nil_r by lia. exact Hk. }
  unfold RDB_LENERR in *. split_and!.
  - destruct (sdsnewlen_ok (rdb_junk cf) v n) as (s & E & Hs & Hval & _); [lia|lia|]. exists s. split; [done|].
    split; [rewrite Hval; unfold n; rewrite Nat2Z.id; by rewrite take_ge|]. apply L. cbn. eapply gives_then; [exact E|]. apply gives_ret.
  - destruct (createRaw_ok (rdb_junk cf) v n) as (o & E & Ho & Hval & _); [lia|lia|]. unfold createRawStringObject in E.
    destruct (sdsnewlen (rdb_junk cf) (Some v) n) as [s|] eqn:Es; [|done]. injection E as <-.
    eexists. split; [exact Ho|]. split; [rewrite Hval; unfold n; rewrite Nat2Z.id; by rewrite take_ge|].
    apply L. cbn. eapply gives_then; [reflexivity|]. apply gives_ret.
  - apply L. cbn. apply gives_ret.
Qed.

(** *** The save functions *)

Lemma len_bytes_ok n : 0 <= n < 2 ^ 32 -> Forall byte_ok (len_bytes n).
Proof. intros Hn. apply (rdbSaveLen_writes n Hn). Qed.

Lemma mread_prefix mem v : take (length v) mem = v -> mread mem 0 (Z.to_nat (Z.of_nat (length v))) = Ok v.
Proof.
  intros H. rewrite Nat2Z.id. assert (length v <= length mem)%nat by (rewrite <- H, length_take; lia).
  rewrite mread_ok by lia. by rewrite drop_0, H.
Qed.

Lemma save_lzf cf mem v : take (length v) mem = v -> Forall byte_ok v -> 4 < Z.of_nat (length v) < RDB_LENERR ->
  exists b done, writes (rdbSaveLzfStringObject cf mem (Z.of_nat (length v))) done b /\
    (if done then loads_as b v else b = []).
Proof.
  intros Hm Hb Hl. unfold RDB_LENERR in Hl. unfold rdbSaveLzfStringObject. rewrite (proj2 (Z.leb_gt _ 4)) by lia.
  set (out := replicate _ _). assert (Z.of_nat (length out) = Z.of_nat (length v) - 3) as Ho by (unfold out; rewrite length_replicate; lia).
  destruct (lzf_compress_ok (rdb_htab cf v) v out (Z.of_nat (length v) - 4)) as (r & Hr & Hspec); [lia|lia|].
  destruct r as [[n out']|].
  - destruct Hspec as (Hn & Ho' & Hd). set (c := take (Z.to_nat n) out') in *.
    assert (Z.of_nat (length c) = n) as Hc by (unfold c; rewrite length_take; lia).
    exists ([195] ++ len_bytes n ++ len_bytes (Z.of_nat (length v)) ++ c), true. split.
    + eapply writes_then; [by apply mread_prefix|]. eapply writes_then; [exact Hr|]. eapply writes_bind_l; [|apply writes_ret].
      unfold rdbSaveLzfBlob. apply (writes_bind (rdbWriteRaw _) _ tt); [apply writes_rio; repeat constructor; done|].
      apply (writes_bind (rdbSaveLen _) _ tt); [apply rdbSaveLen_writes; lia|].
      apply (writes_bind (rdbSaveLen _) _ tt); [apply rdbSaveLen_writes; lia|].
      eapply writes_then; [apply mread_ok; lia|]. rewrite drop_0. fold c. apply writes_rio. by eapply decodes_bytes.
    + rewrite <- Hc. apply compressed_loads; try done; unfold RDB_LENERR; try lia. intros E. rewrite E in Hc. cbn in Hc. lia.
  - exists [], false. split; [|done]. eapply writes_then; [by apply mread_prefix|]. eapply writes_then; [exact Hr|]. apply writes_ret.
Qed.

Lemma save_raw cf mem v : take (length v) mem = v -> Forall byte_ok v -> Z.of_nat (length v) < RDB_LENERR -> tried cf mem v ->
  exists b, writes (rdbSaveRawString cf mem (Z.of_nat (length v))) tt b /\ loads_as b v.
Proof.
  intros Hm Hb Hl Htry. set (n := Z.of_nat (length v)) in *. unfold rdbSaveRawString.
  assert (exists enc, writes (if n <=? 11 then lift (rdbTryIntegerEncoding cf mem n) else mret []) enc [] /\
    (enc = [] \/ exists n, width32 n /\ v = dec n /\ enc = rdbEncodeInteger n)) as (enc & Hw & Henc).
  { destruct (n <=? 11); [|exists []; split; [apply writes_ret|by left]].
    destruct Htry as (enc & E & Henc). exists enc. split; [by apply writes_lift|done]. }
  destruct Henc as [->|(i & Hi & -> & ->)].
  2:{ exists (rdbEncodeInteger i). split; [|by apply int_loads]. eapply writes_bind_r; [exact Hw|].
      rewrite rdbEncodeInteger_bytes by done. apply writes_rio. constructor; [|apply le_bytes_ok].
      unfold int_enc, byte_ok. destruct (int_size i) as [|[|[|?]]]; lia. }
  assert (exists b done, writes (if rdb_compression cf && (n >? 20) then rdbSaveLzfStringObject cf mem n else mret false) done b /\
    (if done then loads_as b v else b = [])) as (b & done & Hw2 & Hdone).
  { destruct (rdb_compression cf); cbn [andb]; [|exists [], false; split; [apply writes_ret|done]].
    rewrite Z.gtb_ltb. destruct (Z.ltb_spec 20 n); [|exists [], false; split; [apply writes_ret|done]].
    apply save_lzf; [done|done|]. unfold n in *. lia. }
  destruct done.
  - exists b. split; [|done]. eapply writes_bind_r; [exact Hw|]. eapply writes_bind_l; [exact Hw2|]. apply writes_ret.
  - subst b. exists (len_bytes n ++ v). split; [|by apply verbatim_loads]. eapply writes_bind_r; [exact Hw|].
    eapply writes_bind_r; [exact Hw2|]. unfold RDB_LENERR in Hl. apply (writes_bind (rdbSaveLen n) _ tt); [apply rdbSaveLen_writes; lia|].
    rewrite Z.gtb_ltb. destruct (Z.ltb_spec 0 n); [eapply writes_then; [by apply mread_prefix|]; by apply writes_rio|].
    destruct v; [apply writes_ret|cbn in *; lia].
Qed.

(** A string with its terminator. *)
Lemma save_sds_string cf v rest : Forall byte_ok v -> Z.of_nat (length v) < RDB_LENERR ->
  exists b, writes (rdbSaveRawString cf (v ++ 0 :: rest) (Z.of_nat (length v))) tt b /\ loads_as b v.
Proof. intros. apply save_raw; [by rewrite take_app_length|done|done|apply tried_nul]. Qed.

Lemma dec_bytes n : Forall byte_ok (dec n).
Proof.
  assert (forall m, 0 <= m -> Forall byte_ok (udec m)) as H.
  { intros m Hm. eapply Forall_impl; [by apply udec_digits|]. intros c Hc. unfold isdigit in Hc. unfold byte_ok. bool_hyps. lia. }
  unfold dec. case_bool; [constructor; [unfold byte_ok; lia|]|]; apply H; lia.
Qed.

Lemma dec_width32 n : width32 n -> (length (dec n) <= 11)%nat.
Proof.
  unfold width32. intros Hn. rewrite dec_abs, length_app. assert (length (udec (Z.abs n)) <= 10)%nat.
  { apply udec_length_bound; [lia|lia|]. change (10 ^ Z.of_nat 10) with 10000000000. lia. }
  destruct (n <? 0); cbn [length]; lia.
Qed.

(** An object that holds an integer is saved as the bytes of its decimal string. *)
Lemma int_object_same cf n rest : LLONG_MIN <= n <= LLONG_MAX ->
  exists b, writes (rdbSaveLongLongAsStringObject cf n) tt b /\
    writes (rdbSaveRawString cf (dec n ++ 0 :: rest) (Z.of_nat (length (dec n)))) tt b /\ loads_as b (dec n).
Proof.
  intros Hn. pose proof (dec_length_bound n Hn) as Hl. unfold rdbSaveLongLongAsStringObject, rdbSaveRawString.
  destruct (decide (width32 n)) as [Hw|Hw].
  - exists (rdbEncodeInteger n). split_and!; [| |by apply int_loads].
    + rewrite rdbEncodeInteger_bytes by done. apply writes_rio. constructor; [|apply le_bytes_ok].
      unfold int_enc, byte_ok. destruct (int_size n) as [|[|[|?]]]; lia.
    + pose proof (dec_width32 n Hw). rewrite (proj2 (Z.leb_le _ 11)) by lia. eapply writes_bind_r; [apply writes_lift, try_dec; done|].
      rewrite rdbEncodeInteger_bytes by done. apply writes_rio. constructor; [|apply le_bytes_ok].
      unfold int_enc, byte_ok. destruct (int_size n) as [|[|[|?]]]; lia.
  - exists (len_bytes (Z.of_nat (length (dec n))) ++ dec n). pose proof (rdbEncodeInteger_none n Hw) as E.
    split_and!; [| |apply verbatim_loads; [apply dec_bytes|unfold RDB_LENERR; lia]].
    + rewrite E. eapply writes_then; [apply ll2string_writes; [done|lia|rewrite length_replicate; lia]|].
      apply (writes_bind (rdbSaveLen _) _ tt); [apply rdbSaveLen_writes; lia|].
      eapply writes_then; [apply mread_prefix; by rewrite take_app_length|]. apply writes_rio, dec_bytes.
    + apply (writes_bind_r _ _ []).
      { destruct (_ <=? 11); [|apply writes_ret]. apply writes_lift. by rewrite try_dec, E by done. }
      rewrite (Z.gtb_ltb _ 20), (proj2 (Z.ltb_ge 20 _)), andb_false_r by lia. eapply writes_bind_r; [apply writes_ret|].
      apply (writes_bind (rdbSaveLen _) _ tt); [apply rdbSaveLen_writes; lia|].
      rewrite Z.gtb_ltb. destruct (Z.ltb_spec 0 (Z.of_nat (length (dec n)))).
      * eapply writes_then; [apply mread_prefix; by rewrite take_app_length|]. apply writes_rio, dec_bytes.
      * destruct (dec n); [apply writes_ret|cbn [length] in *; lia].
Qed.

Lemma save_strobj cf o v : strobj_ok o -> objval o = Some v -> Forall byte_ok v -> Z.of_nat (length v) < RDB_LENERR ->
  exists b, writes (rdbSaveStringObject cf o) tt b /\ loads_as b v.
Proof.
  intros (Ht & Hr & He) Hv Hb Hl.
  assert (forall s, o_ptr o = PtrSds s -> sds_ok s -> exists b, writes (rdbSaveRawString cf (sds_mem s) (sdslen s)) tt b /\ loads_as b v) as Hsds.
  { intros s Hp Hs. unfold objval in Hv. rewrite Hp in Hv. injection Hv as <-.
    pose proof (sds_ok_mem s Hs). pose proof (sds_ok_len s Hs). pose proof (sdsval_length s Hs) as Hlen. unfold sdslen. rewrite <- Hlen.
    assert (sds_mem s = sdsval s ++ 0 :: drop (S (Z.to_nat (sds_len s))) (sds_mem s)) as ->; [|by apply save_sds_string].
    unfold sdsval. rewrite <- (drop_S _ 0); [by rewrite take_drop|]. apply Hs. }
  unfold rdbSaveStringObject, sdsEncodedObject. destruct (o_encoding o) eqn:E; cbn [bool_decide orb]; try done.
  - destruct He as (s & Hp & Hs). destruct (Hsds s Hp Hs) as (b & Hw & Hld). exists b. split; [|done].
    eapply writes_then; [unfold obj_sds; by rewrite Hp|exact Hw].
  - destruct He as (n & Hp & Hn). rewrite Hp. unfold objval in Hv. rewrite Hp in Hv. injection Hv as <-.
    destruct (int_object_same cf n [] Hn) as (b & Hw & _ & Hld). eauto.
  - destruct He as (s & Hp & Hs & _). destruct (Hsds s Hp Hs) as (b & Hw & Hld). exists b. split; [|done].
    eapply writes_then; [unfold obj_sds; by rewrite Hp|exact Hw].
Qed.
