(* ===== verification/RdbObjects.v ===== *)
(** * Dump files: objects and databases

    The strings and sets of a key space, its pairs with their expire times, and
    whole databases: what [rdbSaveRio] writes is read back by [rdbLoad]. Builds on
    the encodings of [RdbProofs.v] and on the relation [shows] between a database
    and the key space it stands for. *)

From S2P Require Import Prelude CLib Util Sds Dict IntSet Object SetType Reply KeyDict Db Strings Keyspace.
From S2P Require Import SdsNum Sets Scan Crc64 Lzf Rio Iter Rdb RdbProofs.
Local Open Scope Z_scope.

(** ** Lists of strings *)

(** A string that can be saved. *)
Definition savable_bytes (k : bytes) : Prop := Forall byte_ok k /\ Z.of_nat (length k) < RDB_LENERR.

Lemma save_members_ok hash cf fuel : forall (d : dict unit) di, dict_ok hash d -> iter_ok d di -> it_safe di = false ->
  (length (remaining d di) < fuel)%nat -> Forall savable_bytes (remaining d di).*1 ->
  exists bs, writes (save_members cf fuel d di) tt (concat bs) /\ Forall2 loads_as bs (remaining d di).*1.
Proof.
  induction fuel as [|f IH]; intros d di Hd Hdi Hsafe Hf Hk; [lia|]. cbn [save_members].
  destruct (dictNext_ok hash d di Hd Hdi) as (d' & di' & r & E & Hr & Hd' & Hs' & Ho & Hrest).
  rewrite Hsafe in Hd', Hs'. replace (if opened di then d else d) with d in Hd' by (by destruct (opened di)). subst d'.
  destruct (remaining d di) as [|[k u] l] eqn:El; cbn [head] in Hr; subst r.
  - exists []. split; [|constructor]. eapply writes_then; [exact E|]. apply writes_ret.
  - destruct (Hrest ltac:(by eexists)) as [Hdi' Hrem]. cbn [tail] in Hrem. cbn [fmap list_fmap fst] in Hk |- *.
    apply Forall_cons in Hk as [[Hb Hlen] Hk]. destruct (save_sds_string cf k [] Hb Hlen) as (b & Hw & Hld).
    destruct (IH d di' Hd Hdi' Hs') as (bs & Hws & Hlds); [rewrite Hrem; cbn in Hf; lia|by rewrite Hrem|].
    rewrite Hrem in Hlds. exists (b :: bs). split; [|by constructor].
    eapply writes_then; [exact E|]. cbn [concat]. by apply (writes_bind (rdbSaveRawString _ _ _) _ tt).
Qed.

(** ** Sets *)

Section LoadSets.
Context `{SC : SetConfig}.
Variable cf : rdb_conf.

Lemma load_encoded b v : loads_as b v -> exists o, gives (rdbLoadEncodedStringObject cf) o b /\ strobj_ok o /\ objval o = Some v.
Proof.
  intros H. destruct (H cf) as (_ & (o & Ho & Hv & Hg) & _). exists o. split; [|done].
  unfold rdbLoadEncodedStringObject. eapply gives_bind_l; [exact Hg|]. apply gives_ret.
Qed.

Lemma load_plain_string b v : loads_as b v -> exists o s, gives (rdbLoadStringObject cf) o b /\ o_ptr o = PtrSds s /\ sdsval s = v.
Proof.
  intros H. destruct (H cf) as ((s & Hs & Hv & Hg) & _). exists (createObject OBJ_STRING s), s. split; [|done].
  unfold rdbLoadStringObject. eapply gives_bind_l; [exact Hg|]. apply gives_ret.
Qed.

(** One element: the set is converted first when the element is no integer. *)
Lemma load_member_step b k len o X : loads_as b k -> set_is set_hash o X -> Z.of_nat (size X) + 1 < INTSET_MAX -> 0 <= len <= 2 ^ 31 ->
  exists o', set_is set_hash o' ({[k]} ∪ X) /\ forall n y c,
    gives (load_members cf n len o') y c -> gives (load_members cf (S n) len o) y (b ++ c).
Proof.
  intros Hb Ho Hs Hlen. destruct (load_encoded b k Hb) as (e & Hg & He & Hv).
  destruct (tryObjectEncoding_ok (rdb_junk cf) (rdb_shareable cf) e He) as (e' & Ete & He' & Hv'). rewrite Hv in Hv'.
  assert (forall d, dict_ok set_hash d -> X = dom (dict_map d) -> exists d', set_is set_hash (SetHT d') ({[k]} ∪ X) /\
    forall y c (K : setobj -> io setobj), gives (K (SetHT d')) y c ->
      gives (o ← (k ← lift (member_key e'); '(d, _) ← lift (dictAdd set_hash set_can_resize d k tt); mret (SetHT d) : io setobj); K o) y c) as Hht.
  { intros d Hd ->. destruct (key_add_ok set_hash set_can_resize d k Hd) as (d' & E & Hd' & Hdom);
      [rewrite (dict_size_dom set_hash) by done; unfold INTSET_MAX in Hs; lia|].
    exists d'. split; [by split|]. intros y c K HK. eapply gives_bind_r; [|exact HK].
    eapply gives_then; [by apply member_key_ok|]. eapply gives_then; [exact E|]. apply gives_ret. }
  destruct o as [d|s].
  - destruct Ho as [Hd HX]. destruct (Hht d Hd HX) as (d' & Hd' & HK). exists (SetHT d'). split; [done|].
    intros n y c Hc. cbn [load_members]. apply (gives_bind (rdbLoadEncodedStringObject cf) _ e); [done|].
    eapply gives_then; [exact Ete|]. apply (gives_bind_r (mret (SetHT d)) _ (SetHT d)); [apply gives_ret|]. by apply HK.
  - destruct Ho as (l & Hl & HX). rewrite HX, (members_size s l Hl) in Hs.
    pose proof (representable_ok e' k He' Hv') as Hrep. destruct (string2ll k) as [v|] eqn:Ek.
    + apply string2ll_iff in Ek as [-> Hll].
      destruct (add_ok (rdb_junk cf) s l v Hl) as (s' & l' & E & Hl' & _ & _ & Hin); [done|by apply fits_ll|].
      exists (SetIntset s'). split; [exists l'; split; [done|]; rewrite HX; symmetry; by apply int_members_add|].
      intros n y c Hc. cbn [load_members]. apply (gives_bind (rdbLoadEncodedStringObject cf) _ e); [done|].
      eapply gives_then; [exact Ete|]. apply (gives_bind_r _ _ (SetIntset s'));
        [|apply (gives_bind_r (mret (SetIntset s')) _ (SetIntset s')); [apply gives_ret|exact Hc]].
      eapply gives_then; [exact Hrep|]. eapply gives_then; [exact E|]. apply gives_ret.
    + destruct (convert_ok set_hash set_can_resize s l Hl) as (d & Econv & Hd & Hdom); [unfold INTSET_MAX in *; lia|].
      destruct (dictExpand_ok set_hash d len Hd Hlen) as (d1 & ex & Eex & Hd1 & He1 & _).
      destruct (Hht d1 Hd1) as (d' & Hd' & HK); [unfold dict_map; rewrite He1, HX; exact Hdom|].
      exists (SetHT d'). split; [done|]. intros n y c Hc. cbn [load_members].
      apply (gives_bind (rdbLoadEncodedStringObject cf) _ e); [done|].
      eapply gives_then; [exact Ete|]. apply (gives_bind_r _ _ (SetHT d1)); [|by apply HK].
      eapply gives_then; [exact Hrep|]. eapply gives_then; [exact Econv|]. cbv beta iota. rewrite Eex. apply gives_ret.
Qed.

Lemma load_members_ok len bs : forall ks o X, Forall2 loads_as bs ks -> set_is set_hash o X ->
  Z.of_nat (size X + length ks) < INTSET_MAX -> 0 <= len <= 2 ^ 31 ->
  exists o', gives (load_members cf (length bs) len o) o' (concat bs) /\ set_is set_hash o' (list_to_set ks ∪ X).
Proof.
  induction bs as [|b bs IH]; intros ks o X Hall Ho Hs Hlen; inversion Hall as [|? k ? ks' Hb Hbs]; subst.
  - exists o. split; [apply gives_ret|]. cbn. by rewrite union_empty_l_L.
  - cbn [length] in Hs. destruct (load_member_step b k len o X Hb Ho) as (o1 & Ho1 & Hstep); [lia|done|].
    destruct (IH ks' o1 ({[k]} ∪ X) Hbs Ho1) as (o' & Hg & Ho'); [|done|].
    { pose proof (size_union_alt {[k]} X) as E. assert (size ({[k]} ∪ X) <= S (size X))%nat; [|lia].
      rewrite size_union_alt, size_singleton. assert (size (X ∖ {[k]}) <= size X)%nat; [|lia]. apply subseteq_size. set_solver. }
    exists o'. split; [cbn [length concat]; by apply Hstep|].
    cbn [list_to_set]. replace ({[k]} ∪ list_to_set ks' ∪ X) with (list_to_set ks' ∪ ({[k]} ∪ X)) by set_solver. done.
Qed.
End LoadSets.

(** ** Values *)

(** The values that are saved: strings and sets of bytes. *)
Definition savable_value (v : value) : Prop :=
  match v with
  | VString s => Forall byte_ok s
  | VOther (Members X) => set_Forall savable_bytes X
  | VOther (Opaque _) => False
  end.

Definition saved_type (ty : Z) : Prop := ty = RDB_TYPE_STRING \/ ty = RDB_TYPE_SET \/ ty = RDB_TYPE_SET_INTSET.

(** The bytes [b] of type [ty] are loaded as a value that fits and denotes [v]. *)
Definition value_loads (n : Z) (ty : Z) (b : bytes) (v : value) : Prop := forall (SC : SetConfig) cf,
  exists o, gives (rdbLoadObject cf ty) o b /\ value_fits n o /\ oval o = v.

Lemma dict_create_ok {V} hash : dict_ok hash (dictCreate : dict V).
Proof. split; cbn; [by apply reset_ok..|done|constructor]. Qed.

Lemma save_type ty : 0 <= ty < 256 -> writes (rdbSaveType ty) tt [ty].
Proof.
  intros H. unfold rdbSaveType. replace (u8 ty) with ty by (unfold u8; rewrite Z.mod_small; lia).
  apply writes_rio. constructor; [exact H|constructor].
Qed.

Lemma string_loads n b v : loads_as b v -> Z.of_nat (length v) <= STRING_MAX -> value_loads n RDB_TYPE_STRING b (VString v).
Proof.
  intros Hb Hl SC cf. destruct (load_encoded cf b v Hb) as (e & Hg & He & Hv).
  destruct (tryObjectEncoding_ok (rdb_junk cf) (rdb_shareable cf) e He) as (o & E & Ho & Hov). rewrite Hv in Hov.
  assert (nodeval o = v) as Hn by (unfold nodeval; by rewrite Hov). exists o. split_and!.
  - unfold rdbLoadObject. cbn [Z.eqb RDB_TYPE_STRING]. eapply gives_bind_l; [exact Hg|]. by apply gives_lift.
  - destruct Ho as (Ht & Ho). split; [|by rewrite Ht]. intros _. rewrite Hn. done.
  - unfold oval. rewrite bool_decide_eq_true_2 by apply Ho. by rewrite Hn.
Qed.

(** A loaded set. *)
Lemma set_object_fits `{SC : SetConfig} n s X : set_is set_hash s X -> X <> ∅ -> Z.of_nat (size X) + n + 1 < INTSET_MAX ->
  value_fits n (set_object s) /\ oval (set_object s) = VOther (Members X).
Proof.
  intros Hs HX Hn. split.
  - split; [done|]. intros _. exists s, X. by split_and!.
  - unfold oval, oother. cbn. by rewrite (set_is_members set_hash s X Hs).
Qed.

Lemma ht_loads n bs ks X : Forall2 loads_as bs ks -> X = list_to_set ks -> length ks = size X -> X <> ∅ -> 0 <= n ->
  Z.of_nat (size X) + n + 1 < INTSET_MAX -> value_loads n RDB_TYPE_SET (len_bytes (Z.of_nat (size X)) ++ concat bs) (VOther (Members X)).
Proof.
  intros Hall HX Hks Hne Hn Hsz SC cf. unfold INTSET_MAX in Hsz. set (len := Z.of_nat (size X)) in *.
  set (o0 := if len >? set_max_entries then SetHT (if len >? DICT_HT_INITIAL_SIZE then (dictExpand dictCreate len).1 else dictCreate)
             else createIntsetObject).
  assert (set_is set_hash o0 ∅) as Ho0.
  { unfold o0. pose proof (dict_create_ok (V := unit) set_hash) as Hd. destruct (len >? set_max_entries).
    - destruct (dictExpand_ok set_hash dictCreate len Hd) as (d & e & Ee & Hd' & He & _); [lia|].
      destruct (len >? DICT_HT_INITIAL_SIZE); split; rewrite ?Ee; cbn [fst]; try done.
      unfold dict_map. by rewrite He.
    - exists []. split; [|done]. constructor; cbn; repeat constructor. }
  destruct (load_members_ok cf len bs ks o0 ∅ Hall Ho0) as (o & Hg & Ho); [rewrite size_empty; unfold INTSET_MAX; lia|lia|].
  rewrite union_empty_r_L, <- HX in Ho.
  assert (Z.to_nat len = length bs) as Elen by (unfold len; rewrite (Forall2_length _ _ _ Hall); lia).
  destruct (set_object_fits n o X) as [Hf Hv]; [done|done|unfold INTSET_MAX; lia|].
  exists (set_object o). split_and!; [|done|done]. unfold rdbLoadObject. cbn [Z.eqb RDB_TYPE_STRING RDB_TYPE_SET Pos.eqb].
  apply (gives_bind load_len _ len); [apply load_len_gives; unfold RDB_LENERR; lia|]. fold o0.
  eapply gives_bind_l; [rewrite Elen; exact Hg|]. apply gives_ret.
Qed.

(** *** Intsets *)

Lemma is_space_encoding e : enc_ok e -> isspace (e mod 256) = false /\ isdigit (e mod 256) = false /\ 1 < e mod 256 < 9.
Proof. intros [-> | [-> | ->]]; done. Qed.

Lemma blob_roundtrip s : 0 <= is_encoding s < 2 ^ 32 -> 0 <= is_length s < 2 ^ 32 -> intset_of_blob (intset_blob s) = Ok s.
Proof.
  intros He Hl. unfold intset_of_blob, intset_blob.
  set (e := le_bytes 4 (is_encoding s)). set (l := le_bytes 4 (is_length s)).
  assert (length e = 4%nat /\ length l = 4%nat) as [Le Ll] by (unfold e, l; by rewrite !length_le_bytes).
  rewrite !mread_ok by len_lia. rewrite !bind_ok, drop_0.
  rewrite (take_app_length' e) by done. rewrite (drop_app_length' e) by done. rewrite (take_app_length' l) by done.
  replace (drop 8 (e ++ l ++ is_contents s)) with (is_contents s).
  2:{ change 8%nat with (4 + 4)%nat. rewrite <- drop_drop, (drop_app_length' e), (drop_app_length' l) by done. done. }
  unfold e, l. rewrite !le_nat_bytes. change (2 ^ (8 * Z.of_nat 4)) with (2 ^ 32). rewrite !Z.mod_small by lia. by destruct s.
Qed.

Lemma intset_blob_facts s l : holds s l -> Z.of_nat (length l) < INTSET_MAX ->
  intsetBlobLen s = Z.of_nat (length (intset_blob s)) /\ Forall byte_ok (intset_blob s) /\
  Z.of_nat (length (intset_blob s)) < RDB_LENERR /\ intset_of_blob (intset_blob s) = Ok s.
Proof.
  intros H Hl. unfold INTSET_MAX in Hl. pose proof (enc_pos _ (h_enc _ _ H)) as He.
  assert (length (intset_blob s) = 8 + length l * Z.to_nat (is_encoding s))%nat as L.
  { unfold intset_blob. rewrite !length_app, !length_le_bytes, (h_bytes _ _ H), length_elems. lia. }
  assert (Z.of_nat (length (intset_blob s)) = 8 + Z.of_nat (length l) * is_encoding s) as LZ by (rewrite L; lia).
  assert (Z.of_nat (length l) * is_encoding s <= 2 ^ 28 * 8) by (apply Z.mul_le_mono_nonneg; lia).
  assert (0 <= Z.of_nat (length l) * is_encoding s) by (apply Z.mul_nonneg_nonneg; lia).
  split_and!.
  - unfold intsetBlobLen, sizeof_intset. rewrite (h_len _ _ H). rewrite u32_small, u64_small by lia. lia.
  - unfold intset_blob. repeat apply Forall_app_2; try apply le_bytes_ok. rewrite (h_bytes _ _ H). unfold elems.
    clear. induction l as [|v l IH]; [constructor|]. cbn. apply Forall_app_2; [apply le_bytes_ok|done].
  - unfold RDB_LENERR. lia.
  - apply blob_roundtrip; [lia|rewrite (h_len _ _ H); lia].
Qed.

Lemma intset_loads n b s l X : holds s l -> loads_as b (intset_blob s) -> X = list_to_set (dec <$> l) -> X <> ∅ -> 0 <= n ->
  Z.of_nat (size X) + n + 1 < INTSET_MAX -> value_loads n RDB_TYPE_SET_INTSET b (VOther (Members X)).
Proof.
  intros Hl Hb HX Hne Hn Hsz SC cf. assert (Z.of_nat (length l) < INTSET_MAX) as Hlen.
  { rewrite HX, (members_size s l Hl) in Hsz. lia. }
  destruct (intset_blob_facts s l Hl Hlen) as (_ & _ & _ & Hblob).
  assert (exists o, set_is set_hash o X /\ gives (if intsetLen s >? set_max_entries
      then lift (setTypeConvert set_hash set_can_resize (SetIntset s)) else mret (SetIntset s)) o []) as (o & Ho & Hg).
  { destruct (intsetLen s >? set_max_entries).
    - destruct (convert_ok set_hash set_can_resize s l Hl Hlen) as (d & E & Hd). exists (SetHT d). rewrite HX. split; [done|]. by apply gives_lift.
    - exists (SetIntset s). split; [by exists l|]. apply gives_ret. }
  destruct (set_object_fits n o X) as [Hf Hv]; [done..|]. exists (set_object o). split_and!; [|done|done].
  unfold rdbLoadObject. cbn [Z.eqb RDB_TYPE_STRING RDB_TYPE_SET RDB_TYPE_SET_INTSET Pos.eqb].
  destruct (Hb cf) as (_ & _ & Hp). eapply gives_bind_l; [exact Hp|]. eapply gives_bind_r; [apply gives_ret|].
  eapply gives_then; [exact Hblob|]. eapply gives_bind_r; [exact Hg|]. apply gives_ret.
Qed.

(** ** Every value that is saved is loaded *)

Lemma save_object `{SC : SetConfig} cf n o : value_fits n o -> savable_value (oval o) -> 0 <= n ->
  exists ty b, writes (rdbSaveObjectType o) tt [ty] /\ writes (rdbSaveObject cf o) tt b /\ saved_type ty /\ value_loads n ty b (oval o).
Proof.
  intros [Hstr Hset] Hsv Hn. unfold oval in *. case_bool_decide as Ht.
  - destruct (Hstr Ht) as [Ho Hlen]. pose proof (strobj_val o Ho) as Hv. cbn in Hsv.
    destruct (save_strobj cf o (nodeval o) Ho Hv Hsv) as (b & Hw & Hld); [unfold STRING_MAX, RDB_LENERR in *; lia|].
    exists RDB_TYPE_STRING, b. unfold rdbSaveObjectType, rdbSaveObject. rewrite Ht. split_and!; [by apply save_type|done|by left|].
    by apply string_loads.
  - unfold oother in *. destruct (o_type o) eqn:Et; try done. destruct (Hset eq_refl) as (s & X & Hp & Hs & Hne & _ & Hsz).
    rewrite Hp in *. rewrite (set_is_members set_hash s X Hs) in *. cbn in Hsv. unfold rdbSaveObjectType, rdbSaveObject. rewrite Et, Hp.
    destruct s as [d|s].
    + destruct Hs as [Hd HX]. destruct (iterator_start set_hash d false Hd) as [Hit Hrem].
      assert (X = list_to_set (entries d).*1) as HXk by (rewrite HX; unfold dict_map; by rewrite dom_list_to_map_L).
      assert (length (entries d).*1 = size X) as Hks.
      { rewrite length_fmap. pose proof (dictSize_entries _ d Hd). pose proof (dict_size_dom set_hash d Hd) as E. rewrite <- HX in E. lia. }
      assert (dictSize d = Z.of_nat (size X)) as Esz by (rewrite HX; by apply (dict_size_dom set_hash)).
      destruct (save_members_ok set_hash cf (S (Z.to_nat (dictSize d))) d dictGetIterator Hd Hit eq_refl) as (bs & Hw & Hall).
      { unfold dictGetIterator. rewrite Hrem, Esz. rewrite length_fmap in Hks. lia. }
      { unfold dictGetIterator. rewrite Hrem. apply Forall_forall. intros k Hk. apply Hsv. rewrite HXk. by apply elem_of_list_to_set. }
      unfold dictGetIterator in Hall, Hw. rewrite Hrem in Hall. unfold INTSET_MAX in Hsz.
      exists RDB_TYPE_SET, (len_bytes (Z.of_nat (size X)) ++ concat bs). split_and!.
      * by apply save_type.
      * eapply writes_bind; [rewrite Esz; apply rdbSaveLen_writes; lia|exact Hw].
      * by right; left.
      * by apply (ht_loads n bs (entries d).*1).
    + destruct Hs as (l & Hl & HX). assert (Z.of_nat (length l) < INTSET_MAX) as Hlen by (rewrite HX, (members_size s l Hl) in Hsz; lia).
      destruct (intset_blob_facts s l Hl Hlen) as (Eb & Hbb & Hbl & _).
      destruct (save_raw cf (intset_blob s) (intset_blob s)) as (b & Hw & Hld); [by rewrite take_ge|done|done| |].
      { unfold intset_blob. cbn [le_bytes app]. destruct (is_space_encoding _ (h_enc _ _ Hl)) as (H1 & H2 & H3). apply tried_other; try done; lia. }
      exists RDB_TYPE_SET_INTSET, b. rewrite Eb. split_and!; [by apply save_type|done|by right; right|]. by apply (intset_loads n b s l X).
Qed.
