(* ===== verification/RdbFiles.v ===== *)
(** * Dump files: key spaces

    The pairs of a database with their expire times, the databases of a server, and
    the file: header, auxiliary fields, databases and checksum. *)

From S2P Require Import Prelude CLib Util Sds Dict IntSet Object SetType Reply KeyDict Db Strings Keyspace.
From S2P Require Import SdsNum Sets Scan Crc64 Lzf Rio Iter Rdb RdbProofs RdbObjects.
Local Open Scope Z_scope.

(** ** Pairs *)

(** The code's form of an expire time: -1 for none. *)
Definition expire_of (e : option Z) : Z := default (-1) e.

Definition time_ok (e : option Z) : Prop := match e with Some w => 0 <= w <= LLONG_MAX | None => True end.

(** The bytes of a pair. *)
Definition pair_bytes (n : Z) (b k : bytes) (e : option Z) (v : value) : Prop :=
  exists ty kb vb, b = (match e with Some w => 252 :: le_bytes 8 w | None => [] end) ++ ty :: kb ++ vb /\
    saved_type ty /\ loads_as kb k /\ value_loads n ty vb v.

(** A pair whose time is over is not saved. *)
Definition saved_pair (n now : Z) (b k : bytes) (e : option Z) (v : value) : Prop :=
  if over now e then b = [] else pair_bytes n b k e v.

Lemma expire_cases e : time_ok e -> (expire_of e =? -1) = (match e with Some _ => false | None => true end).
Proof. destruct e as [w|]; cbn; [|done]. intros. apply Z.eqb_neq. lia. Qed.

Lemma save_pair `{SC : SetConfig} cf n k o e now : time_ok e -> 0 <= n ->
  (over now e = false -> savable_bytes k /\ value_fits n o /\ savable_value (oval o)) ->
  exists b done, writes (rdbSaveKeyValuePair cf k o (expire_of e) now) done b /\ saved_pair n now b k e (oval o).
Proof.
  intros He Hn Hk. unfold rdbSaveKeyValuePair, saved_pair. rewrite (expire_cases e He). destruct (over now e) eqn:Eo.
  - destruct e as [w|]; [|done]. cbn [over] in Eo. change (expire_of (Some w)) with w. cbn [negb]. rewrite Eo. exists [], false. split; [apply writes_ret|done].
  - destruct (Hk eq_refl) as ((Hb & Hl) & Hf & Hs).
    destruct (save_object cf n o Hf Hs Hn) as (ty & vb & Ht & Hw & Hty & Hld).
    destruct (save_sds_string cf k [] Hb Hl) as (kb & Hwk & Hldk).
    assert (writes (_ ← rdbSaveObjectType o; _ ← rdbSaveRawString cf (k ++ [0]) (Z.of_nat (length k)); _ ← rdbSaveObject cf o; mret true)
      true (ty :: kb ++ vb)) as Hpair.
    { change (ty :: kb ++ vb) with ([ty] ++ kb ++ vb). apply (writes_bind _ _ tt); [done|]. apply (writes_bind _ _ tt); [done|].
      apply (writes_bind_l _ _ tt); [done|]. apply writes_ret. }
    destruct e as [w|]; cbn [negb over] in *.
    + change (expire_of (Some w)) with w. rewrite Eo. exists ((252 :: le_bytes 8 w) ++ ty :: kb ++ vb), true. split.
      * change ((252 :: le_bytes 8 w) ++ ty :: kb ++ vb) with ([252] ++ le_bytes 8 w ++ ty :: kb ++ vb).
        apply (writes_bind _ _ tt); [by apply save_type|]. apply (writes_bind _ _ tt); [apply writes_rio, le_bytes_ok|done].
      * by exists ty, kb, vb.
    + exists (ty :: kb ++ vb), true. split; [done|]. by exists ty, kb, vb.
Qed.

(** ** Loading databases *)

Lemma load_type ty : byte_ok ty -> gives rdbLoadType ty [ty].
Proof. intros H. unfold rdbLoadType. apply gives_last; [by constructor|done|]. by apply gives_lift. Qed.

(** The type is followed by what its branch reads. *)
Lemma load_type_then {B} (K : Z -> io B) ty y c : byte_ok ty -> gives (K ty) y c -> gives (ty ← rdbLoadType; K ty) y (ty :: c).
Proof. intros H HK. change (ty :: c) with ([ty] ++ c). apply (gives_bind rdbLoadType K ty); [by apply load_type|done]. Qed.

Section LoadDbs.
Context `{SC : SetConfig}.
Variables (cf : rdb_conf) (hash : bytes -> Z) (can_resize : bool) (en : env) (now : Z).
Hypothesis Hmaster : e_masterhost en = false.

#[local] Hint Extern 0 (KeyDict dict) => exact (dict_keydict hash can_resize) : typeclass_instances.
#[local] Hint Extern 0 (KeyDictLaws dict) => exact (dict_keydict_laws hash can_resize) : typeclass_instances.

#[local] Abbreviation loop := (load_loop cf hash can_resize en).

(** A pair whose time is over at the time of the load is dropped. *)
Lemma load_pair_ok n (db : redisDb dict) ty kb vb k e v : loads_as kb k -> value_loads n ty vb v -> time_ok e ->
  db_ok db -> vals db !! k = None -> Z.of_nat (base.size (vals db)) <= KD_MAX -> Z.of_nat (base.size (exps db)) <= KD_MAX ->
  exists db', gives (load_pair cf hash can_resize en db ty (expire_of e) now) db' (kb ++ vb) /\ db_ok db' /\
    (if over now e then db' = db
     else exists o, value_fits n o /\ oval o = v /\ vals db' = <[k := o]> (vals db) /\
       exps db' = match e with Some w => <[k := w]> (exps db) | None => exps db end).
Proof.
  intros Hk Hv He Hdb Hnone Hs1 Hs2. destruct (load_plain_string cf kb k Hk) as (ko & s & Hgk & Hp & Hs).
  destruct (Hv SC cf) as (o & Hgo & Hf & Ho). unfold load_pair. rewrite Hmaster. cbn [negb andb].
  rewrite (expire_cases e He).
  assert (negb (match e with Some _ => false | None => true end) && (expire_of e <? now) = over now e) as Eo by (by destruct e).
  destruct (over now e).
  - exists db. split; [|done]. apply (gives_bind _ _ ko); [done|]. apply (gives_bind_l _ _ o); [done|]. rewrite Eo. apply gives_ret.
  - destruct (dbAdd_ok en db k o) as (db1 & E1 & Hdb1 & V1 & X1); [done|by rewrite (kd_size_ok _ _ (dbk_dict _ Hdb))|done|].
    assert (exists db', db_ok db' /\ vals db' = <[k := o]> (vals db) /\
      exps db' = match e with Some w => <[k := w]> (exps db) | None => exps db end /\
      gives (if negb (match e with Some _ => false | None => true end) then lift (setExpire db1 k (expire_of e)) else mret db1) db' [])
      as (db' & Hdb' & V' & X' & Hg).
    { destruct e as [w|]; cbn [negb]; [|exists db1; split_and!; try done; apply gives_ret].
      change (expire_of (Some w)) with w. cbn [time_ok] in He.
      destruct (setExpire_ok db1 k w o) as (db2 & E2 & Hdb2 & V2 & X2); [done| |lia|by rewrite V1, lookup_insert_eq|].
      { rewrite (kd_size_ok _ _ (dbk_expires _ Hdb1)). fold (exps db1). by rewrite X1. }
      exists db2. rewrite V2, X2, V1, X1. split_and!; try done. by apply gives_lift. }
    exists db'. split; [|split; [done|]; by exists o].
    apply (gives_bind _ _ ko); [done|]. apply (gives_bind_l _ _ o); [done|]. rewrite Eo.
    eapply gives_then; [unfold obj_sds; by rewrite Hp|]. rewrite Hs. eapply gives_then; [exact E1|]. exact Hg.
Qed.

(** The loop gets from one state to another over the bytes [b]. *)
Definition loads_over (cur : nat) (dbs : list (redisDb dict)) (b : bytes) (cur' : nat) (dbs' : list (redisDb dict)) : Prop :=
  exists k, (k <= length b)%nat /\ forall f y c, gives (loop f now cur' dbs') y c -> gives (loop (k + f) now cur dbs) y (b ++ c).

Lemma loads_over_nil cur dbs : loads_over cur dbs [] cur dbs.
Proof. by exists 0%nat. Qed.

Lemma loads_over_app cur dbs a cur1 dbs1 b cur2 dbs2 :
  loads_over cur dbs a cur1 dbs1 -> loads_over cur1 dbs1 b cur2 dbs2 -> loads_over cur dbs (a ++ b) cur2 dbs2.
Proof.
  intros (k1 & H1 & L1) (k2 & H2 & L2). exists (k1 + k2)%nat. split; [rewrite length_app; lia|]. intros f y c Hy.
  rewrite <- Nat.add_assoc, <- app_assoc. by apply L1, L2.
Qed.

Lemma saved_type_range ty : saved_type ty -> ty = 0 \/ ty = 2 \/ ty = 11.
Proof. intros [-> | [-> | ->]]; auto. Qed.

Lemma load_pair_over n cur dbs (db : redisDb dict) b k e v : dbs !! cur = Some db -> pair_bytes n b k e v -> time_ok e ->
  db_ok db -> vals db !! k = None -> Z.of_nat (base.size (vals db)) <= KD_MAX -> Z.of_nat (base.size (exps db)) <= KD_MAX ->
  exists db', loads_over cur dbs b cur (<[cur := db']> dbs) /\ db_ok db' /\
    (if over now e then db' = db
     else exists o, value_fits n o /\ oval o = v /\ vals db' = <[k := o]> (vals db) /\
       exps db' = match e with Some w => <[k := w]> (exps db) | None => exps db end).
Proof.
  intros Hcur (ty & kb & vb & -> & Hty & Hkb & Hvb) He Hdb Hnone Hs1 Hs2.
  destruct (load_pair_ok n db ty kb vb k e v) as (db' & Hg & Hdb' & Hspec); [done..|]. exists db'. split; [|done].
  assert (get_db dbs cur = Ok db) as Hget by (unfold get_db; by rewrite Hcur).
  assert (byte_ok ty) as Hbt by (apply saved_type_range in Hty; unfold byte_ok; lia).
  exists 1%nat. split; [rewrite length_app; cbn; lia|]. intros f y c Hy. rewrite <- app_assoc. cbn [Nat.add load_loop].
  destruct e as [w|]; cbn [app].
  - unfold time_ok, LLONG_MAX in He. change (expire_of (Some w)) with w in Hg.
    apply load_type_then; [done|]. cbn [Z.eqb Pos.eqb RDB_OPCODE_EXPIRETIME RDB_OPCODE_EXPIRETIME_MS].
    apply (gives_bind rdbLoadMillisecondTime _ w).
    { unfold rdbLoadMillisecondTime. apply gives_last; [apply le_bytes_ok|by rewrite length_le_bytes|].
      rewrite le_int_bytes; [apply gives_ret|lia|unfold fits; cbn; lia]. }
    rewrite (proj2 (Z.eqb_neq w (-1))) by lia. apply load_type_then; [done|]. eapply gives_then; [exact Hget|].
    by apply (gives_bind _ _ db').
  - change (expire_of None) with (-1) in Hg. apply load_type_then; [done|]. apply saved_type_range in Hty.
    assert (forall z, 200 < z -> (ty =? z) = false) as Hne by (intros z Hz; apply Z.eqb_neq; lia).
    rewrite !Hne by done. eapply gives_then; [exact Hget|]. by apply (gives_bind _ _ db').
Qed.

(** *** The pairs of a database *)

Lemma exps_size (db : redisDb dict) : db_ok db -> (base.size (exps db) <= base.size (vals db))%nat.
Proof.
  intros Hdb. rewrite <- !size_dom. apply subseteq_size. intros k. rewrite !elem_of_dom. apply (dbk_dom _ Hdb).
Qed.

Lemma over_later a b e : a <= b -> over a e = true -> over b e = true.
Proof. destruct e as [w|]; [|done]. cbn. rewrite !Z.ltb_lt. lia. Qed.

(** What was loaded of the pairs [l], whose expire times are in [E]. *)
Definition loaded_pairs (n : Z) (E : gmap bytes Z) (l : list (bytes * robj)) (db db' : redisDb dict) : Prop :=
  forall k, match Dict.assoc k l with
  | Some o =>
      if over now (E !! k) then vals db' !! k = None
      else exists o', vals db' !! k = Some o' /\ value_fits n o' /\ oval o' = oval o /\ exps db' !! k = E !! k
  | None => vals db' !! k = vals db !! k /\ exps db' !! k = exps db !! k
  end.

Lemma load_entries_over (n now0 : Z) (E : gmap bytes Z) (bs : list bytes) : now0 <= now -> (forall k, time_ok (E !! k)) -> forall l cur dbs (db : redisDb dict),
  Forall2 (fun b kv => saved_pair n now0 b kv.1 (E !! kv.1) (oval kv.2)) bs l -> NoDup l.*1 ->
  dbs !! cur = Some db -> db_ok db -> (forall k, k ∈ l.*1 -> vals db !! k = None /\ exps db !! k = None) ->
  Z.of_nat (base.size (vals db) + length l) <= KD_MAX ->
  exists db', loads_over cur dbs (concat bs) cur (<[cur := db']> dbs) /\ db_ok db' /\ loaded_pairs n E l db db'.
Proof.
  intros Hnow HE. induction bs as [|b bs IH]; intros l cur dbs db Hall Hnd Hcur Hdb Hfresh Hsz;
    inversion Hall as [|? [k o] ? l' Hb Hbs]; subst.
  { exists db. rewrite list_insert_id by done. split; [apply loads_over_nil|]. by split. }
  cbn [fmap list_fmap fst] in Hnd, Hfresh. apply NoDup_cons in Hnd as [Hk Hnd]. cbn [fst snd length] in Hb, Hsz.
  destruct (Hfresh k ltac:(by constructor)) as [Hv0 He0]. pose proof (exps_size db Hdb).
  (* the state after this pair *)
  assert (exists db1, loads_over cur dbs b cur (<[cur := db1]> dbs) /\ db_ok db1 /\
    (if over now (E !! k) then vals db1 = vals db /\ exps db1 = exps db
     else exists o', value_fits n o' /\ oval o' = oval o /\ vals db1 = <[k := o']> (vals db) /\
       exps db1 = match E !! k with Some w => <[k := w]> (exps db) | None => exps db end)) as (db1 & Hl1 & Hdb1 & Hspec).
  { unfold saved_pair in Hb. destruct (over now0 (E !! k)) eqn:Eo.
    - subst b. exists db. rewrite list_insert_id by done. split; [apply loads_over_nil|]. split; [done|]. by rewrite (over_later now0 now).
    - destruct (load_pair_over n cur dbs db b k (E !! k) (oval o)) as (db1 & Hl1 & Hdb1 & Hs1); try done; [lia|lia|].
      exists db1. split; [done|]. split; [done|]. destruct (over now (E !! k)); [by subst db1|done]. }
  assert (forall j, j <> k -> vals db1 !! j = vals db !! j /\ exps db1 !! j = exps db !! j) as Hother.
  { intros j Hj. destruct (over now (E !! k)); [destruct Hspec as [-> ->]; done|]. destruct Hspec as (o' & _ & _ & -> & ->).
    destruct (E !! k); rewrite ?lookup_insert_ne by done; done. }
  destruct (IH l' cur (<[cur := db1]> dbs) db1 Hbs Hnd) as (db' & Hl' & Hdb' & Hspec').
  - apply list_lookup_insert_eq. by eapply lookup_lt_Some.
  - done.
  - intros j Hj. assert (j <> k) by (intros ->; done). destruct (Hother j) as [-> ->]; [done|]. apply Hfresh. by constructor.
  - assert (base.size (vals db1) <= S (base.size (vals db)))%nat; [|lia]. destruct (over now (E !! k)); [destruct Hspec as [-> _]; apply Nat.le_succ_diag_r|].
    destruct Hspec as (o' & _ & _ & -> & _). rewrite map_size_insert, Hv0. apply Nat.le_refl.
  - exists db'. rewrite list_insert_insert_eq in Hl'. split; [by eapply loads_over_app|]. split; [done|].
    intros j. specialize (Hspec' j). cbn [Dict.assoc]. destruct (decide (j = k)) as [->|Hj].
    + rewrite (proj2 (Dict.assoc_None hash k l') Hk) in Hspec'. destruct Hspec' as [Hv' He']. destruct (over now (E !! k)).
      * destruct Hspec as [Hv _]. by rewrite Hv', Hv.
      * destruct Hspec as (o' & Hf & Ho & Hv & He). exists o'. rewrite Hv', Hv, lookup_insert_eq, He', He. split_and!; try done.
        destruct (E !! k); [by rewrite lookup_insert_eq|done].
    + destruct (Hother j Hj) as [E1 E2]. rewrite E1, E2 in Hspec'. exact Hspec'.
Qed.

(** *** The opcodes *)

Lemma load_select cur dbs j : 0 <= j < Z.of_nat (length dbs) -> j < RDB_LENERR ->
  loads_over cur dbs (254 :: len_bytes j) (Z.to_nat j) dbs.
Proof.
  intros Hj Hl. exists 1%nat. split; [cbn; lia|]. intros f y c Hy. cbn [Nat.add load_loop app]. apply load_type_then; [done|].
  cbn [Z.eqb Pos.eqb RDB_OPCODE_EXPIRETIME RDB_OPCODE_EXPIRETIME_MS RDB_OPCODE_EOF RDB_OPCODE_SELECTDB].
  apply (gives_bind load_len _ j); [apply load_len_gives; lia|]. rewrite Z.geb_leb, (proj2 (Z.leb_gt _ _)) by lia. done.
Qed.

Lemma load_resize cur dbs (db : redisDb dict) a b : dbs !! cur = Some db -> db_ok db -> 0 <= a <= 2 ^ 31 -> 0 <= b <= 2 ^ 31 ->
  exists db', loads_over cur dbs (251 :: len_bytes a ++ len_bytes b) cur (<[cur := db']> dbs) /\ db_ok db' /\
    vals db' = vals db /\ exps db' = exps db.
Proof.
  intros Hcur Hdb Ha Hb. destruct (dictExpand_ok hash (db_dict db) a (dbk_dict _ Hdb) Ha) as (d & x & Ed & Hd & Hde & _).
  destruct (dictExpand_ok hash (db_expires db) b (dbk_expires _ Hdb) Hb) as (e & x' & Ee & He & Hee & _).
  set (db' := mkDb d e (db_events db)). assert (vals db' = vals db /\ exps db' = exps db) as [V X].
  { unfold vals, exps, db'. cbn. unfold dict_map. by rewrite Hde, Hee. }
  exists db'. split; [|split; [|done]].
  - exists 1%nat. split; [cbn; lia|]. intros f y c Hy. cbn [Nat.add load_loop app]. apply load_type_then; [done|].
    cbn [Z.eqb Pos.eqb RDB_OPCODE_EXPIRETIME RDB_OPCODE_EXPIRETIME_MS RDB_OPCODE_EOF RDB_OPCODE_SELECTDB RDB_OPCODE_RESIZEDB].
    rewrite <- app_assoc. apply (gives_bind load_len _ a); [apply load_len_gives; unfold RDB_LENERR; lia|].
    apply (gives_bind load_len _ b); [apply load_len_gives; unfold RDB_LENERR; lia|].
    eapply gives_then; [unfold get_db; by rewrite Hcur|]. rewrite Ed, Ee. exact Hy.
  - destruct Hdb as [H1 H2 H3 H4]. split; [done|done| |]; fold (vals db') (exps db'); rewrite ?V, ?X; done.
Qed.

Lemma load_aux cur dbs ka va k v : loads_as ka k -> loads_as va v -> loads_over cur dbs (250 :: ka ++ va) cur dbs.
Proof.
  intros Hk Hv. destruct (load_plain_string cf ka k Hk) as (ko & _ & Hgk & _). destruct (load_plain_string cf va v Hv) as (vo & _ & Hgv & _).
  exists 1%nat. split; [cbn; lia|]. intros f y c Hy. cbn [Nat.add load_loop app]. apply load_type_then; [done|].
  cbn [Z.eqb Pos.eqb RDB_OPCODE_EXPIRETIME RDB_OPCODE_EXPIRETIME_MS RDB_OPCODE_EOF RDB_OPCODE_SELECTDB RDB_OPCODE_RESIZEDB RDB_OPCODE_AUX].
  rewrite <- app_assoc. apply (gives_bind _ _ ko); [done|]. by apply (gives_bind _ _ vo).
Qed.

End LoadDbs.

(** ** Saving databases *)

Section SaveDbs.
Context `{SC : SetConfig}.
Variables (cf : rdb_conf) (hash : bytes -> Z) (can_resize : bool) (now n : Z).
Hypothesis Hn : 0 <= n.

#[local] Hint Extern 0 (KeyDict dict) => exact (dict_keydict hash can_resize) : typeclass_instances.
#[local] Hint Extern 0 (KeyDictLaws dict) => exact (dict_keydict_laws hash can_resize) : typeclass_instances.

(** The lookups of the save loop leave the table that is iterated as it is. *)
Lemma getExpire_iterating (db : redisDb dict) k : db_ok db -> 0 < iterators (db_dict db) ->
  exists e, getExpire db k = Ok (mkDb (db_dict db) e (db_events db), expire_of (exps db !! k)) /\
    db_ok (mkDb (db_dict db) e (db_events db)) /\ dict_map e = exps db.
Proof.
  intros Hdb Hit. destruct (getExpire_ok db k Hdb) as (db' & E & Hdb' & V & X). unfold expire_of.
  assert (exists e, db' = mkDb (db_dict db) e (db_events db)) as [e ->]; [|by exists e].
  unfold getExpire, expires_find, dict_find in E. destruct (_ =? 0); [injection E as <- _; exists (db_expires db); by destruct db|].
  cbn [kd_find dict_keydict] in E. destruct (dictFind hash (db_expires db) k) as [[e r]|]; [|done]. rewrite !bind_ok in E.
  destruct r as [w|]; [|injection E as <- _; by exists e]. cbn [db_dict db_expires db_events] in E.
  rewrite (dictFind_iterating hash _ k (dbk_dict _ Hdb) Hit), !bind_ok in E. destruct (_ !! k); [|done]. injection E as <- _. by exists e.
Qed.

(** What is required of an entry: its time is over, or its key and value can be
    saved. *)
Definition entry_savable (E : gmap bytes Z) (kv : bytes * robj) : Prop :=
  over now (E !! kv.1) = false -> savable_bytes kv.1 /\ value_fits n kv.2 /\ savable_value (oval kv.2).

Lemma save_entries_ok fuel : forall (db : redisDb dict) di, db_ok db -> iter_ok (db_dict db) di -> it_safe di = true ->
  (if opened di then 0 < iterators (db_dict db) else 0 <= iterators (db_dict db)) ->
  (length (remaining (db_dict db) di) < fuel)%nat -> (forall k, time_ok (exps db !! k)) ->
  Forall (entry_savable (exps db)) (remaining (db_dict db) di) ->
  exists bs e di', let d := if opened di then db_dict db else add_iterators (db_dict db) 1 in
    let db' := mkDb d e (db_events db) in
    writes (save_entries cf hash can_resize fuel db di now) (db', di') (concat bs) /\
    Forall2 (fun b kv => saved_pair n now b kv.1 (exps db !! kv.1) (oval kv.2)) bs (remaining (db_dict db) di) /\
    db_ok db' /\ dict_map e = exps db /\ it_safe di' = true /\ opened di' = true.
Proof.
  induction fuel as [|f IH]; intros db di Hdb Hdi Hsafe Hopen Hf Htime Hall; [lia|]. cbn [save_entries].
  destruct (dictNext_ok hash (db_dict db) di (dbk_dict _ Hdb) Hdi) as (d & di1 & r & E & Hr & Hd & Hs1 & Ho1 & Hrest).
  rewrite Hsafe in Hd, Hs1. rewrite <- Hd.
  assert (db_ok (mkDb d (db_expires db) (db_events db))) as Hdb1.
  { destruct Hdb as [H1 H2 H3 H4]. split; cbn; try done; [subst d; destruct (opened di); [done|by apply dict_ok_iterators]|].
    intros k Hk. destruct (H3 k Hk) as [v Hv]. exists v. subst d. by destruct (opened di). }
  assert (0 < iterators d) as Hit by (subst d; destruct (opened di); cbn; lia).
  destruct (remaining (db_dict db) di) as [|[k o] l] eqn:El; cbn [head] in Hr; subst r.
  - exists [], (db_expires db), di1. split_and!; try done. eapply writes_then; [exact E|]. apply writes_ret.
  - destruct (Hrest ltac:(by eexists)) as [Hdi1 Hrem]. cbn [tail] in Hrem. apply Forall_cons in Hall as [Hko Hall].
    destruct (getExpire_iterating (mkDb d (db_expires db) (db_events db)) k Hdb1 Hit) as (e & Eg & Hdb2 & Hm).
    cbn [db_dict db_events] in Eg, Hdb2. change (exps (mkDb d (db_expires db) (db_events db))) with (exps db) in *.
    destruct (save_pair cf n k o (exps db !! k) now) as (b & dn & Hw & Hsp); [done|done|exact Hko|].
    set (db2 := mkDb d e (db_events db)) in *. assert (exps db2 = exps db) as X2 by exact Hm.
    destruct (IH db2 di1 Hdb2) as (bs & e' & di' & Hws & Hbs & Hdb' & Hm' & Hs' & Ho'); try done.
    + by rewrite Ho1.
    + change (db_dict db2) with d. rewrite Hrem. cbn [length] in Hf. lia.
    + intros j. by rewrite X2.
    + change (db_dict db2) with d. by rewrite Hrem, X2.
    + rewrite Ho1 in Hws, Hdb'. change (db_dict db2) with d in *. change (db_events db2) with (db_events db) in *. rewrite Hrem in Hbs. rewrite X2 in Hbs, Hm'.
      exists (b :: bs), e', di'. split_and!; try done; [|by constructor].
      eapply writes_then; [exact E|]. eapply writes_then; [exact Eg|]. cbn [concat]. apply (writes_bind _ _ dn); done.
Qed.
End SaveDbs.

(** ** The format of a database *)

(** The bytes of a database: nothing for an empty one; else the selection, the
    sizes and the pairs. *)
Definition db_format (n now j : Z) (b : bytes) (l : list (bytes * robj)) (E : gmap bytes Z) : Prop :=
  l = [] /\ b = [] \/
  exists sz esz bs, b = (254 :: len_bytes j) ++ (251 :: len_bytes sz ++ len_bytes esz) ++ concat bs /\
    0 <= sz <= 2 ^ 31 /\ 0 <= esz <= 2 ^ 31 /\
    Forall2 (fun b kv => saved_pair n now b kv.1 (E !! kv.1) (oval kv.2)) bs l.

(** A database without keys. *)
Definition blank (hash : bytes -> Z) (can_resize : bool) (db : redisDb dict) : Prop :=
  @db_ok dict (dict_keydict hash can_resize) (dict_keydict_laws hash can_resize) db /\
  dict_map (db_dict db) = ∅ /\ dict_map (db_expires db) = ∅.

Lemma load_db_over `{SC : SetConfig} cf hash can_resize en now n now0 j b l E dbs cur db :
  e_masterhost en = false -> now0 <= now -> db_format n now0 j b l E -> NoDup l.*1 -> (forall k, time_ok (E !! k)) ->
  0 <= j < RDB_LENERR -> dbs !! Z.to_nat j = Some db -> blank hash can_resize db -> Z.of_nat (length l) <= KD_MAX ->
  exists cur' db', loads_over cf hash can_resize en now cur dbs b cur' (<[Z.to_nat j := db']> dbs) /\
    @db_ok dict (dict_keydict hash can_resize) (dict_keydict_laws hash can_resize) db' /\
    loaded_pairs hash can_resize now n E l db db'.
Proof.
  intros Hm Hnow Hfmt Hnd Htime Hj Hdb (Hok & Hv & He) Hl. destruct Hfmt as [[-> ->]|(sz & esz & bs & -> & Hsz & Hesz & Hbs)].
  - exists cur, db. rewrite list_insert_id by done. split; [apply loads_over_nil|]. by split.
  - pose proof (lookup_lt_Some _ _ _ Hdb) as Hlt.
    pose proof (load_select cf hash can_resize en now cur dbs j ltac:(lia) ltac:(lia)) as L1.
    destruct (load_resize cf hash can_resize en now (Z.to_nat j) dbs db sz esz) as (db1 & L2 & Hok1 & V1 & X1); try done.
    unfold vals, exps in V1, X1. cbn [kd_map dict_keydict_laws] in V1, X1. rewrite Hv in V1. rewrite He in X1.
    destruct (load_entries_over cf hash can_resize en now Hm n now0 E bs Hnow Htime l (Z.to_nat j) (<[Z.to_nat j := db1]> dbs) db1 Hbs Hnd)
      as (db' & L3 & Hok' & Hp); try done.
    + apply list_lookup_insert_eq. lia.
    + intros k _. unfold vals, exps. cbn [kd_map dict_keydict_laws]. by rewrite V1, X1, !lookup_empty.
    + unfold vals. cbn [kd_map dict_keydict_laws]. rewrite V1, map_size_empty. lia.
    + exists (Z.to_nat j), db'. rewrite list_insert_insert_eq in L3. split; [|split; [done|]].
      * eapply loads_over_app; [exact L1|]. eapply loads_over_app; [exact L2|exact L3].
      * intros k. specialize (Hp k). unfold vals, exps in *. cbn [kd_map dict_keydict_laws] in *. rewrite V1, X1 in Hp. rewrite Hv, He. done.
Qed.

(** ** Key spaces *)

(** The database shows the key space; the tables have the given hash function. *)
Definition db_shows (SC : SetConfig) (hash : bytes -> Z) (can_resize : bool) (n now : Z) (db : redisDb dict) (m : keyspace) : Prop :=
  @shows dict (dict_keydict hash can_resize) (dict_keydict_laws hash can_resize) SC n now db m.

(** A key space that can be saved. *)
Definition savable (m : keyspace) : Prop :=
  map_Forall (fun k x => savable_bytes k /\ savable_value x.1 /\ from_option (fun w => w <= LLONG_MAX) True x.2) m.

Section SaveShows.
Context `{SC : SetConfig}.
Variables (cf : rdb_conf) (hash : bytes -> Z) (can_resize : bool) (now n : Z).
Hypothesis Hn : 0 <= n.
Hypothesis Hnow : now <= LLONG_MAX.

#[local] Hint Extern 0 (KeyDict dict) => exact (dict_keydict hash can_resize) : typeclass_instances.
#[local] Hint Extern 0 (KeyDictLaws dict) => exact (dict_keydict_laws hash can_resize) : typeclass_instances.

Lemma live_over (db : redisDb dict) k : live now db k = if over now (exps db !! k) then None else vals db !! k.
Proof. unfold live, expired, over. by destruct (exps db !! k). Qed.

Lemma shows_saved (db : redisDb dict) m k o : db_shows SC hash can_resize n now db m -> savable m ->
  vals db !! k = Some o -> over now (exps db !! k) = false ->
  savable_bytes k /\ value_fits n o /\ savable_value (oval o) /\ from_option (fun w => w <= LLONG_MAX) True (exps db !! k).
Proof.
  intros [H1 H2 H3 H4] Hs Hv Ho. assert (live now db k = Some o) as Hl by (by rewrite live_over, Ho).
  specialize (H4 k). unfold entry in H4. rewrite Hl in H4. cbn in H4. destruct (Hs k _ H4) as (S1 & S2 & S3). split_and!; try done. by apply (H3 k).
Qed.

Lemma shows_times (db : redisDb dict) m k : db_shows SC hash can_resize n now db m -> savable m -> time_ok (exps db !! k).
Proof.
  intros Hsh Hs. pose proof (sh_ok _ _ _ _ Hsh) as Hdb. destruct (exps db !! k) as [w|] eqn:Ew; [|done].
  pose proof (dbk_pos _ Hdb k w Ew) as H0. cbn. split; [done|]. destruct (over now (Some w)) eqn:Eo; [cbn in Eo; bool_hyps; lia|].
  destruct (dbk_dom _ Hdb k) as [o Ho]; [by eexists|]. destruct (shows_saved db m k o Hsh Hs Ho) as (_ & _ & _ & Ht); [by rewrite Ew|].
  by rewrite Ew in Ht.
Qed.

Lemma shows_entries (db : redisDb dict) m : db_shows SC hash can_resize n now db m -> savable m ->
  Forall (entry_savable now n (exps db)) (entries (db_dict db)).
Proof.
  intros Hsh Hs. apply Forall_forall. intros [k o] Hk Ho. cbn in Ho |- *. pose proof (sh_ok _ _ _ _ Hsh) as Hdb.
  destruct (shows_saved db m k o Hsh Hs) as (? & ? & ? & _); try done. unfold vals. cbn [kd_map dict_keydict_laws]. unfold dict_map.
  apply elem_of_list_to_map_1; [apply (dbk_dict _ Hdb)|done].
Qed.

Lemma trim_small x : 0 <= x <= 2 ^ 31 -> trim_size x = x.
Proof. intros. unfold trim_size, UINT32_MAX. by rewrite (proj2 (Z.leb_le _ _)) by lia. Qed.

Lemma save_db_ok (db : redisDb dict) m j : db_shows SC hash can_resize n now db m -> savable m -> iterators (db_dict db) = 0 -> 0 <= j < 2 ^ 32 ->
  exists b db', writes (save_db cf hash can_resize j now db) db' b /\
    db_format n now j b (entries (db_dict db)) (exps db) /\
    db_shows SC hash can_resize n now db' m /\ iterators (db_dict db') = 0.
Proof.
  intros Hsh Hs Hit Hj. pose proof (sh_ok _ _ _ _ Hsh) as Hdb. pose proof (dbk_dict _ Hdb) as Hd. cbn [kd_ok dict_keydict_laws] in Hd.
  assert (dictSize (db_dict db) = Z.of_nat (base.size (vals db))) as Esz by (by apply (dict_map_size hash)).
  assert (dictSize (db_expires db) = Z.of_nat (base.size (exps db))) as Eex by (apply (dict_map_size hash), (dbk_expires _ Hdb)).
  pose proof (exps_size hash can_resize db Hdb) as Hle. pose proof (sh_room _ _ _ _ Hsh) as Hroom.
  pose proof room_max as [Hrm _]. unfold KD_MAX in Hrm. unfold save_db.
  destruct (Z.eqb_spec (dictSize (db_dict db)) 0) as [E0|E0].
  { exists [], db. split; [apply writes_ret|]. split; [|done]. left. split; [|done].
    rewrite (dictSize_entries hash) in E0 by done. destruct (entries (db_dict db)); [done|cbn in E0; lia]. }
  destruct (iterator_start hash (db_dict db) true Hd) as [Hdi Hrem].
  destruct (save_entries_ok cf hash can_resize now n Hn (S (Z.to_nat (dictSize (db_dict db)))) db dictGetSafeIterator Hdb Hdi eq_refl)
    as (bs & e & di' & Hw & Hbs & Hdb' & Hm' & Hs' & Ho').
  { cbn. lia. }
  { unfold dictGetSafeIterator. rewrite Hrem. rewrite (dictSize_entries hash) by done. lia. }
  { intros k. by eapply shows_times. }
  { unfold dictGetSafeIterator. rewrite Hrem. by eapply shows_entries. }
  cbn [opened dictGetSafeIterator it_index it_table Z.eqb andb negb] in Hw, Hdb'. unfold dictGetSafeIterator in Hbs. rewrite Hrem in Hbs.
  rewrite !trim_small by lia. set (sz := dictSize (db_dict db)) in *. set (esz := dictSize (db_expires db)) in *.
  exists ((254 :: len_bytes j) ++ (251 :: len_bytes sz ++ len_bytes esz) ++ concat bs). eexists.
  split; [|split; [right; exists sz, esz, bs; split_and!; (done || lia)|]].
  { change ((254 :: len_bytes j) ++ (251 :: len_bytes sz ++ len_bytes esz) ++ concat bs)
      with ([254] ++ len_bytes j ++ [251] ++ (len_bytes sz ++ len_bytes esz) ++ concat bs). rewrite <- (app_assoc (len_bytes sz)).
    apply (writes_bind _ _ tt); [by apply save_type|]. apply (writes_bind _ _ tt); [apply rdbSaveLen_writes; lia|].
    apply (writes_bind _ _ tt); [by apply save_type|]. apply (writes_bind _ _ tt); [apply rdbSaveLen_writes; lia|].
    apply (writes_bind _ _ tt); [apply rdbSaveLen_writes; lia|]. eapply writes_bind_l; [exact Hw|]. apply writes_ret. }
  unfold dictReleaseIterator. unfold opened in Ho'. rewrite Ho', Hs'. cbn [andb db_dict db_expires db_events].
  split; [|cbn; lia]. split.
  - destruct Hdb' as [H1 H2 H3 H4]. split; cbn in *; try done. by apply dict_ok_iterators.
  - cbn. exact Hroom.
  - intros k o Hl. apply (sh_fits _ _ _ _ Hsh k). rewrite <- Hl. rewrite !live_over. unfold vals, exps. cbn. by rewrite Hm'.
  - intros k. rewrite (sh_map _ _ _ _ Hsh k). f_equal. unfold entry. rewrite !live_over. unfold vals, exps. cbn. by rewrite Hm'.
Qed.
End SaveShows.

(** ** The loaded database *)

Lemma loaded_shows `{SC1 : SetConfig} `{SC2 : SetConfig} h1 r1 h2 r2 n now0 now (db db0 db' : redisDb dict) m :
  db_shows SC1 h1 r1 n now0 db m -> now0 <= now -> blank h2 r2 db0 ->
  @db_ok dict (dict_keydict h2 r2) (dict_keydict_laws h2 r2) db' ->
  loaded_pairs (SC := SC2) h2 r2 now n (dict_map (db_expires db)) (entries (db_dict db)) db0 db' ->
  db_shows SC2 h2 r2 n now db' (alive now m).
Proof.
  intros Hsh Hnow (_ & Hv0 & He0) Hok Hp.
  assert (forall k, Dict.assoc k (entries (db_dict db)) = dict_map (db_dict db) !! k) as Ha by (intros; unfold dict_map; by rewrite assoc_map).
  pose proof (shows_later _ _ _ _ _ Hnow Hsh) as Hlater.
  unfold loaded_pairs, vals, exps in Hp. cbn [kd_map dict_keydict_laws] in Hp. rewrite Hv0, He0 in Hp. split.
  - done.
  - pose proof (sh_room _ _ _ _ Hsh) as Hroom. unfold vals in *. cbn [kd_map dict_keydict_laws] in *.
    assert (base.size (dict_map (db_dict db')) <= base.size (dict_map (db_dict db)))%nat; [|lia].
    rewrite <- !size_dom. apply subseteq_size. intros k. rewrite !elem_of_dom. intros [o' Ho']. specialize (Hp k). rewrite Ha in Hp.
    destruct (dict_map (db_dict db) !! k); [done|]. destruct Hp as [Hp _]. rewrite Hp in Ho'. by rewrite lookup_empty in Ho'.
  - intros k o. rewrite live_over. unfold vals, exps. cbn [kd_map dict_keydict_laws]. destruct (over _ _); [done|]. intros Ho.
    specialize (Hp k). destruct (Dict.assoc k _); [|destruct Hp as [Hp _]; rewrite Hp in Ho; by rewrite lookup_empty in Ho].
    destruct (over now _); [by rewrite Hp in Ho|]. destruct Hp as (o' & Hp & Hf & _). rewrite Hp in Ho. by injection Ho as <-.
  - intros k. rewrite (sh_map _ _ _ _ Hlater k). unfold entry. rewrite !live_over. unfold vals, exps. cbn [kd_map dict_keydict_laws].
    specialize (Hp k). rewrite Ha in Hp. destruct (dict_map (db_dict db) !! k) as [o|].
    + destruct (over now (dict_map (db_expires db) !! k)) eqn:Eo.
      * rewrite Hp. destruct (over now (dict_map (db_expires db') !! k)); reflexivity.
      * destruct Hp as (o' & -> & _ & Hov & ->). rewrite Eo. cbn. unfold prod_map. cbn. by rewrite Hov.
    + destruct Hp as [-> ->]. rewrite !lookup_empty. destruct (over now (dict_map (db_expires db) !! k)); reflexivity.
Qed.

(** ** All databases *)

(** What is required of a database that is saved: no iterator is open on it. *)
Definition good_db (SC : SetConfig) (hash : bytes -> Z) (can_resize : bool) (n now : Z) (db : redisDb dict) (m : keyspace) : Prop :=
  db_shows SC hash can_resize n now db m /\ savable m /\ iterators (db_dict db) = 0.

Fixpoint dbs_format (n now j : Z) (b : bytes) (dbs : list (redisDb dict)) : Prop :=
  match dbs with
  | [] => b = []
  | db :: dbs => exists b1 b2, b = b1 ++ b2 /\
      db_format n now j b1 (entries (db_dict db)) (dict_map (db_expires db)) /\ dbs_format n now (j + 1) b2 dbs
  end.

Lemma save_dbs_ok `{SC : SetConfig} cf hash can_resize now n dbs : 0 <= n -> now <= LLONG_MAX -> forall ms j,
  Forall2 (good_db SC hash can_resize n now) dbs ms -> 0 <= j -> j + Z.of_nat (length dbs) <= 2 ^ 32 ->
  exists b dbs', writes (save_dbs cf hash can_resize j now dbs) dbs' b /\ dbs_format n now j b dbs /\
    Forall2 (good_db SC hash can_resize n now) dbs' ms.
Proof.
  intros Hn Hnow. induction dbs as [|db dbs IH]; intros ms j Hall Hj Hlen; inversion Hall as [|? m ? ms' Hdb Hdbs]; subst.
  - exists [], []. split; [apply writes_ret|]. by split.
  - cbn [length] in Hlen. destruct Hdb as (Hsh & Hs & Hit).
    destruct (save_db_ok cf hash can_resize now n Hn Hnow db m j Hsh Hs Hit) as (b1 & db' & Hw & Hf & Hsh' & Hit'); [lia|].
    destruct (IH ms' (j + 1) Hdbs) as (b2 & dbs' & Hw2 & Hf2 & Hall2); [lia..|].
    exists (b1 ++ b2), (db' :: dbs'). split_and!; [|by exists b1, b2|by constructor].
    cbn [save_dbs]. apply (writes_bind _ _ db'); [done|]. apply (writes_bind_l _ _ dbs'); [done|]. apply writes_ret.
Qed.

Lemma load_dbs_over `{SC1 : SetConfig} `{SC2 : SetConfig} cf h1 r1 h2 r2 en now n now0 dbs :
  e_masterhost en = false -> 0 <= n -> now0 <= now -> now0 <= LLONG_MAX -> forall ms j b cur dbsL,
  Forall2 (good_db SC1 h1 r1 n now0) dbs ms -> dbs_format n now0 j b dbs -> 0 <= j -> j + Z.of_nat (length dbs) < RDB_LENERR ->
  (forall i, (i < length dbs)%nat -> exists db0, dbsL !! (Z.to_nat j + i)%nat = Some db0 /\ blank h2 r2 db0) ->
  exists cur' dbs', loads_over (SC := SC2) cf h2 r2 en now cur dbsL b cur' dbs' /\ length dbs' = length dbsL /\
    (forall i, (i < Z.to_nat j)%nat -> dbs' !! i = dbsL !! i) /\
    (forall i m, ms !! i = Some m -> exists db, dbs' !! (Z.to_nat j + i)%nat = Some db /\ db_shows SC2 h2 r2 n now db (alive now m)).
Proof.
  intros Hm Hn Hnow Hll. induction dbs as [|db dbs IH]; intros ms j b cur dbsL Hall Hfmt Hj Hlen Hblank;
    inversion Hall as [|? m ? ms' Hdb Hdbs]; subst.
  - cbn in Hfmt. subst b. exists cur, dbsL. split; [apply loads_over_nil|]. by split_and!.
  - cbn [length dbs_format] in *. destruct Hfmt as (b1 & b2 & -> & Hf & Hf2). destruct Hdb as (Hsh & Hs & Hit).
    destruct (Hblank 0%nat ltac:(lia)) as (db0 & Hdb0 & Hbl). rewrite Nat.add_0_r in Hdb0.
    pose proof (dbk_dict _ (sh_ok _ _ _ _ Hsh)) as Hd. cbn [kd_ok dict_keydict_laws] in Hd.
    destruct (load_db_over cf h2 r2 en now n now0 j b1 (entries (db_dict db)) (dict_map (db_expires db)) dbsL cur db0)
      as (cur1 & db' & L1 & Hok & Hp); try done; [apply Hd|intros k; exact (shows_times h1 r1 now0 n Hll db m k Hsh Hs)|lia| |].
    { rewrite <- (Nat2Z.id (length _)). pose proof (sh_room _ _ _ _ Hsh) as Hroom. pose proof room_max as [Hrm _].
      pose proof (dictSize_entries h1 _ Hd) as E1. pose proof (dict_map_size h1 _ Hd) as E2. unfold vals in Hroom.
      cbn [kd_map dict_keydict_laws] in Hroom. lia. }
    pose proof (lookup_lt_Some _ _ _ Hdb0) as Hlt.
    assert (Z.to_nat (j + 1) = S (Z.to_nat j)) as Ej by lia.
    destruct (IH ms' (j + 1) b2 cur1 (<[Z.to_nat j := db']> dbsL) Hdbs Hf2) as (cur' & dbs' & L2 & Hl & Hlow & Hsh'); [lia|lia| |].
    { intros i Hi. destruct (Hblank (S i) ltac:(lia)) as (dbi & Hdbi & Hbi). exists dbi. split; [|done]. rewrite Ej.
      rewrite list_lookup_insert_ne by lia. rewrite <- Hdbi. f_equal. lia. }
    exists cur', dbs'. split; [by eapply loads_over_app|]. rewrite length_insert in Hl. split; [done|]. split.
    + intros i Hi. rewrite Hlow by lia. by rewrite list_lookup_insert_ne by lia.
    + intros [|i] mi Hi; cbn in Hi.
      * injection Hi as <-. exists db'. rewrite Nat.add_0_r, Hlow by lia. split; [by apply list_lookup_insert_eq|].
        by eapply (loaded_shows (SC1 := SC1) (SC2 := SC2)).
      * destruct (Hsh' i mi Hi) as (dbi & Hdbi & ?). exists dbi. split; [|done]. rewrite <- Hdbi. f_equal. lia.
Qed.

(** ** The file *)

(** Auxiliary fields. *)
Inductive aux_format : bytes -> Prop :=
  | aux_nil : aux_format []
  | aux_cons ka va k v b : loads_as ka k -> loads_as va v -> aux_format b -> aux_format ((250 :: ka ++ va) ++ b).

Lemma load_aux_over `{SC : SetConfig} cf hash can_resize en now b : aux_format b -> forall cur dbs,
  loads_over cf hash can_resize en now cur dbs b cur dbs.
Proof.
  induction 1 as [|ka va k v b Hk Hv _ IH]; intros cur dbs; [apply loads_over_nil|].
  eapply loads_over_app; [by eapply load_aux|apply IH].
Qed.

Lemma aux_one k v : forall ka va, loads_as ka k -> loads_as va v -> aux_format (250 :: ka ++ va).
Proof. intros ka va Hk Hv. rewrite <- (app_nil_r (250 :: ka ++ va)). apply (aux_cons ka va k v); [done|done|constructor]. Qed.

Lemma aux_app a b : aux_format a -> aux_format b -> aux_format (a ++ b).
Proof. induction 1 as [|ka va k v a Hk Hv _ IH]; intros Hb; [done|]. rewrite <- app_assoc. by apply (aux_cons ka va k v); [..|apply IH]. Qed.

Lemma save_aux_field cf k v rest rest' : Forall byte_ok k -> Forall byte_ok v -> Z.of_nat (length k) < RDB_LENERR -> Z.of_nat (length v) < RDB_LENERR ->
  exists b, writes (rdbSaveAuxField cf (k ++ 0 :: rest) (Z.of_nat (length k)) (v ++ 0 :: rest') (Z.of_nat (length v))) tt b /\ aux_format b.
Proof.
  intros Hk Hv Lk Lv. destruct (save_sds_string cf k rest Hk Lk) as (ka & Hwk & Hlk). destruct (save_sds_string cf v rest' Hv Lv) as (va & Hwv & Hlv).
  exists (250 :: ka ++ va). split; [|by apply (aux_one k v)]. unfold rdbSaveAuxField. change (250 :: ka ++ va) with ([250] ++ ka ++ va).
  apply (writes_bind _ _ tt); [by apply save_type|]. by apply (writes_bind _ _ tt).
Qed.

Lemma save_aux_int cf k x : Forall byte_ok k -> Z.of_nat (length k) < RDB_LENERR -> LLONG_MIN <= x <= LLONG_MAX ->
  exists b, writes (rdbSaveAuxFieldStrInt cf k x) tt b /\ aux_format b.
Proof.
  intros Hk Lk Hx. pose proof (dec_long x Hx) as Hl. unfold rdbSaveAuxFieldStrInt.
  destruct (save_aux_field cf k (dec x) [] (drop (S (length (dec x))) (replicate (Z.to_nat LONG_STR_SIZE) (rdb_junk cf))) Hk (dec_bytes x) Lk) as (b & Hw & Hf).
  { unfold LONG_STR_SIZE in Hl. unfold RDB_LENERR. lia. }
  exists b. split; [|done]. eapply writes_then; [apply ll2string_writes; [done|done|rewrite length_replicate; unfold LONG_STR_SIZE; lia]|]. exact Hw.
Qed.

Lemma save_info cf ctime used_mem : LLONG_MIN <= ctime <= LLONG_MAX -> LLONG_MIN <= used_mem <= LLONG_MAX ->
  exists b, writes (rdbSaveInfoAuxFields cf ctime used_mem) tt b /\ aux_format b.
Proof.
  intros Hc Hu. unfold rdbSaveInfoAuxFields.
  assert (forall s : string, bool_decide (Forall byte_ok (str s)) = true -> Forall byte_ok (str s)) as B by (intros s Hs; by apply bool_decide_eq_true in Hs).
  destruct (save_aux_field cf (str "redis-ver") REDIS_VERSION [] []) as (b1 & W1 & F1); [by apply B..|done|done|].
  destruct (save_aux_int cf (str "redis-bits") 64) as (b2 & W2 & F2); [by apply B|done|unfold LLONG_MIN, LLONG_MAX; lia|].
  destruct (save_aux_int cf (str "ctime") ctime) as (b3 & W3 & F3); [by apply B|done|done|].
  destruct (save_aux_int cf (str "used-mem") used_mem) as (b4 & W4 & F4); [by apply B|done|done|].
  exists (b1 ++ b2 ++ b3 ++ b4). split; [|by repeat apply aux_app].
  do 3 (apply (writes_bind _ _ tt); [done|]). done.
Qed.

(** Running the rest after a computation that writes. *)
Lemma run_writes {A B} (m : io A) (k : A -> io B) x b r : writes m x b -> rio_ok r -> 0 <= r_space r ->
  (m ≫= k) r = if Z.of_nat (length b) <=? r_space r then k x (wrote r b) else Ok None.
Proof. intros [_ Hm] Hr Hs. unfold mbind, io_bind. rewrite Hm by done. by destruct (_ <=? _). Qed.

Lemma run_gives {A B} (m : io A) (k : A -> io B) x b r rest : gives m x b -> rio_ok r -> r_file r = b ++ rest ->
  (m ≫= k) r = k x (consumed r b).
Proof. intros [_ Hm] Hr Hf. unfold mbind, io_bind. by rewrite (Hm r rest). Qed.

Definition cksum_of (checksum : bool) (body : bytes) : Z := if checksum then crc64_ref 0 body else 0.

Lemma cksum_word checksum body : Forall byte_ok body -> 0 <= cksum_of checksum body < 2 ^ 64.
Proof. intros Hb. unfold cksum_of. destruct checksum; [by apply crc64_ref_range|lia]. Qed.

(** The body of the file. *)
Definition body_format (n now : Z) (body : bytes) (dbs : list (redisDb dict)) : Prop :=
  Forall byte_ok body /\ exists aux b, body = rdb_magic ++ aux ++ b ++ [255] /\ aux_format aux /\ dbs_format n now 0 b dbs.

Lemma save_file `{SC : SetConfig} cf hash can_resize now ctime used_mem n dbs ms :
  0 <= n -> now <= LLONG_MAX -> LLONG_MIN <= ctime <= LLONG_MAX -> LLONG_MIN <= used_mem <= LLONG_MAX ->
  Forall2 (good_db SC hash can_resize n now) dbs ms -> Z.of_nat (length dbs) <= 2 ^ 32 ->
  exists body dbs', body_format n now body dbs /\ Forall2 (good_db SC hash can_resize n now) dbs' ms /\
    let file := body ++ le_bytes 8 (cksum_of (rdb_checksum cf) body) in
    forall space, 0 <= space -> exists r,
      rdbSaveRio cf hash can_resize now ctime used_mem dbs (rioInitWithFile [] space) =
        Ok (if Z.of_nat (length file) <=? space then Some (dbs', r) else None) /\ r_file r = file.
Proof.
  intros Hn Hnow Hc Hu Hall Hlen. destruct (save_info cf ctime used_mem Hc Hu) as (aux & Wa & Fa).
  destruct (save_dbs_ok cf hash can_resize now n dbs Hn Hnow ms 0 Hall) as (b & dbs' & Wd & Fd & Hall'); [lia|lia|].
  set (body := rdb_magic ++ aux ++ b ++ [255]).
  assert (Forall byte_ok rdb_magic) as Hmagic by by_compute.
  assert (Forall byte_ok body) as Hbody.
  { repeat apply Forall_app_2; [done|apply Wa|apply Wd|by repeat constructor]. }
  exists body, dbs'. split; [split; [done|]; by exists aux, b|]. split; [done|]. cbn zeta. intros space Hsp.
  set (r0 := if rdb_checksum cf then with_update true (rioInitWithFile [] space) else rioInitWithFile [] space).
  assert (rio_ok r0 /\ r_space r0 = space /\ r_file r0 = [] /\ r_update r0 = rdb_checksum cf /\ r_cksum r0 = 0) as (Hr0 & Es & Ef & Eu & Ec)
    by (unfold r0; destruct (rdb_checksum cf); by repeat split).
  set (sum := cksum_of (rdb_checksum cf) body).
  exists (wrote (wrote r0 body) (le_bytes 8 sum)). split; [|cbn; rewrite Ef; done].
  unfold rdbSaveRio. fold r0. cbv zeta.
  assert (forall k r, rio_ok r -> 0 <= r_space r -> (_ ← rdbWriteRaw rdb_magic; _ ← rdbSaveInfoAuxFields cf ctime used_mem;
      dbs ← save_dbs cf hash can_resize 0 now dbs; _ ← rdbSaveType RDB_OPCODE_EOF; k dbs : io (list (redisDb dict))) r =
      if Z.of_nat (length body) <=? r_space r then k dbs' (wrote r body) else Ok None) as Hrun.
  { intros k r Hr Hs. rewrite <- (run_writes (_ ← rdbWriteRaw rdb_magic; _ ← rdbSaveInfoAuxFields cf ctime used_mem;
      dbs ← save_dbs cf hash can_resize 0 now dbs; _ ← rdbSaveType RDB_OPCODE_EOF; mret dbs) k dbs' body r); [|..|done|done].
    - unfold mbind, io_bind, mret, io_ret. destruct (rdbWriteRaw rdb_magic r) as [[[? r1]|]|]; try done.
      destruct (rdbSaveInfoAuxFields cf ctime used_mem r1) as [[[? r2]|]|]; try done.
      destruct (save_dbs cf hash can_resize 0 now dbs r2) as [[[? r3]|]|]; try done.
      by destruct (rdbSaveType RDB_OPCODE_EOF r3) as [[[? r4]|]|].
    - apply (writes_bind _ _ tt); [by apply writes_rio|]. apply (writes_bind _ _ tt); [done|]. apply (writes_bind _ _ dbs'); [done|].
      apply (writes_bind_l _ _ tt); [by apply save_type|]. apply writes_ret. }
  rewrite Hrun by (rewrite ?Es; done). rewrite Es. rewrite !length_app, length_le_bytes.
  destruct (Z.leb_spec (Z.of_nat (length body)) space); [|rewrite (proj2 (Z.leb_gt _ _)) by lia; done].
  unfold get_cksum at 1. unfold mbind at 1, io_bind at 1.
  assert (r_cksum (wrote r0 body) = sum) as -> by (cbn; unfold sum_after, sum, cksum_of; rewrite Eu, Ec; done).
  rewrite (run_writes _ _ _ _ _ (writes_rio (le_bytes 8 sum) (le_bytes_ok 8 sum))) by (first [by apply wrote_ok|cbn [r_space wrote]; lia]).
  rewrite length_le_bytes. cbn [r_space wrote]. rewrite Es.
  destruct (Z.leb_spec (Z.of_nat 8) (space - Z.of_nat (length body)));
    [rewrite (proj2 (Z.leb_le _ _)) by lia|rewrite (proj2 (Z.leb_gt _ _)) by lia]; done.
Qed.

(** Reading the checksum of a file that is intact. *)
Lemma check_cksum_ok cf checksum body r rest : rio_ok r -> Forall byte_ok body -> r_cksum r = cksum_of (rdb_checksum cf) body ->
  r_file r = le_bytes 8 (cksum_of checksum body) ++ rest ->
  exists r', check_cksum cf RDB_VERSION r = Ok (Some (tt, r')).
Proof.
  intros Hr Hb Hc Hf. unfold check_cksum. change (RDB_VERSION >=? 5) with true. cbn [andb]. destruct (rdb_checksum cf) eqn:Ech; [|by exists r].
  unfold get_cksum. unfold mbind at 1, io_bind at 1.
  rewrite (run_gives _ _ (le_bytes 8 (cksum_of checksum body)) (le_bytes 8 (cksum_of checksum body)) r rest); [|apply gives_read; [apply le_bytes_ok|by rewrite length_le_bytes]|done|done].
  rewrite le_nat_bytes. change (2 ^ (8 * Z.of_nat 8)) with (2 ^ 64). rewrite Z.mod_small by (by apply cksum_word). rewrite Hc. unfold cksum_of.
  destruct checksum; [|by eexists]. rewrite Z.eqb_refl. destruct (_ =? 0); by eexists.
Qed.

Lemma magic_version : negb (memcmp (take 5 rdb_magic) (str "REDIS") =? 0) = false /\ atoi (drop 5 rdb_magic ++ [0]) = Ok RDB_VERSION.
Proof. by vm_compute. Qed.

(** The loop ends at the end-of-file opcode. *)
Lemma load_eof `{SC : SetConfig} cf hash can_resize en now f cur dbs :
  gives (load_loop cf hash can_resize en (S f) now cur dbs) dbs [255].
Proof. cbn [load_loop]. apply load_type_then; [done|]. apply gives_ret. Qed.

Lemma load_file `{SC1 : SetConfig} `{SC2 : SetConfig} cf h1 r1 h2 r2 en now now0 n checksum body dbs ms dbsL :
  e_masterhost en = false -> 0 <= rdb_interval cf -> 0 <= n -> now0 <= now -> now0 <= LLONG_MAX ->
  Forall2 (good_db SC1 h1 r1 n now0) dbs ms -> body_format n now0 body dbs ->
  Z.of_nat (length dbs) < RDB_LENERR -> (length dbs <= length dbsL)%nat -> Forall (blank h2 r2) dbsL ->
  exists dbs', rdbLoad (SC := SC2) cf h2 r2 en now (body ++ le_bytes 8 (cksum_of checksum body)) dbsL = Ok (Some dbs') /\
    length dbs' = length dbsL /\
    forall i m, ms !! i = Some m -> exists db, dbs' !! i = Some db /\ db_shows SC2 h2 r2 n now db (alive now m).
Proof.
  intros Hm Hint Hn Hnow Hll Hall (Hbody & aux & b & Ebody & Faux & Fdbs) Hlen Hle Hblank.
  destruct (load_dbs_over (SC1 := SC1) (SC2 := SC2) cf h1 r1 h2 r2 en now n now0 dbs Hm Hn Hnow Hll ms 0 b 0 dbsL Hall Fdbs)
    as (cur' & dbs' & L & Hl & _ & Hsh); [lia|lia| |].
  { intros i Hi. destruct (lookup_lt_is_Some_2 dbsL i) as [db Hdb]; [lia|]. exists db. split; [done|]. by apply (Forall_lookup_1 _ _ _ _ Hblank Hdb). }
  exists dbs'. split; [|split; [done|exact Hsh]].
  set (sum := le_bytes 8 (cksum_of checksum body)). unfold rdbLoad.
  set (r0 := with_chunk (rdb_interval cf) (with_update (rdb_checksum cf) (rioInitWithFile (body ++ sum) 0))).
  assert (rio_ok r0) as Hr0 by (by split).
  assert (Forall byte_ok rdb_magic) as Hmagic by by_compute. destruct magic_version as [Hmg Hver].
  assert (gives (load_loop cf h2 r2 en (S (length (body ++ sum))) now 0 dbsL) dbs' (aux ++ b ++ [255])) as Hloop.
  { destruct (loads_over_app cf h2 r2 en now 0 dbsL aux 0 dbsL b cur' dbs') as (k & Hk & HL); [by apply load_aux_over|done|].
    assert (exists f, S (length (body ++ sum)) = (k + S f)%nat) as [f ->].
    { exists (length (body ++ sum) - k)%nat. rewrite length_app in Hk. rewrite Ebody, !length_app. lia. }
    rewrite app_assoc. apply HL, load_eof. }
  assert (gives (buf ← rioRead 9; if negb (memcmp (take 5 buf) (str "REDIS") =? 0) then mret None else
     rdbver ← lift (atoi (drop 5 buf ++ [0])); if (rdbver <? 1) || (rdbver >? RDB_VERSION) then mret None else
     dbs ← load_loop cf h2 r2 en (S (length (body ++ sum))) now 0 dbsL; mret (Some (rdbver, dbs)))
     (Some (RDB_VERSION, dbs')) body) as Hgives.
  { rewrite Ebody. apply gives_block; [done|done|]. rewrite Hmg. eapply gives_then; [exact Hver|].
    change ((RDB_VERSION <? 1) || (RDB_VERSION >? RDB_VERSION)) with false. cbv iota.
    apply (gives_bind_l _ _ dbs'); [rewrite <- Ebody; exact Hloop|]. apply gives_ret. }
  destruct Hgives as [_ Hrun]. specialize (Hrun r0 sum Hr0 eq_refl).
  destruct (check_cksum_ok cf checksum body (consumed r0 body) []) as [r' Hck]; [by apply consumed_ok|done| | |].
  { cbn. unfold sum_after, cksum_of. cbn. by destruct (rdb_checksum cf). }
  { rewrite app_nil_r. cbn. by rewrite drop_app_length. }
  revert Hrun. clear Hmg Hver Hloop. unfold mbind, io_bind, res_bind. unfold lift, mret, io_ret.
  destruct (rioRead 9 r0) as [[[buf r1']|]|]; try done. destruct (negb _); [done|].
  destruct (atoi _) as [ver|]; [|done]. destruct (_ || _); [done|].
  destruct (load_loop cf h2 r2 en _ now 0 dbsL r1') as [[[ds r2']|]|]; try done. intros [= -> -> ->]. by rewrite Hck.
Qed.
