(* ===== verification/Transactions.v ===== *)
(** * Transactions: the specification

    What a server promises to its clients: a key space, and for every client the
    state of its transaction. A request of a client has one outcome for the key
    space, for the client and for the reply. Then clients may be marked: those that
    watch a key whose value has changed are, those that watch no key that a command
    names are not. EXEC
    of a marked client executes nothing; of any other it executes the whole queue
    at once. *)

From S2P Require Import Prelude CLib Util Sds Dict IntSet Object SetType Reply Resp KeyDict Db Command Strings Keys Sets Multi Keyspace.
Local Open Scope Z_scope.

(** ** The state of a client *)

Record actx := mkActx {
  a_multi : bool;            (* MULTI has been sent *)
  a_cas : bool;              (* a watched key was touched *)
  a_abort : bool;            (* a command could not be queued *)
  a_queue : list kcmd;
  a_watch : list bytes
}.

Definition idle_actx : actx := mkActx false false false [] [].

Inductive treq :=
  | Cmd (cmd : kcmd)
  | Unknown (name : bytes)   (* a command that is not in the table *)
  | Multi_ | Exec | Discard
  | Watch (ks : list bytes)
  | Unwatch.

Definition add_key (ks : list bytes) (k : bytes) : list bytes := if bool_decide (k ∈ ks) then ks else ks ++ [k].

(** Commands are executed one after the other, at one time. *)
Fixpoint krun (now : Z) (m : keyspace) (cmds : list kcmd) : keyspace * bytes :=
  match cmds with
  | [] => (m, [])
  | cmd :: rest => let '(m1, r) := kspec now m cmd in let '(m2, rs) := krun now m1 rest in (m2, r ++ rs)
  end.

Definition queued_reply : bytes := str "+QUEUED" ++ crlf.
Definition unknown_reply (name : bytes) : bytes := err_reply (error_format (str "unknown command '" ++ name ++ str "'")).
Definition exec_reply (n : nat) (replies : bytes) : bytes := [42] ++ dec (Z.of_nat n) ++ crlf ++ replies.

Definition exec_spec (now : Z) (m : keyspace) (a : actx) : keyspace * actx * bytes :=
  if negb (a_multi a) then (m, a, err_reply (str "EXEC without MULTI")) else
  if a_abort a then (m, idle_actx, execaborterr) else
  if a_cas a then (m, idle_actx, nullmultibulk) else
  let '(m', replies) := krun now m (a_queue a) in (m', idle_actx, exec_reply (length (a_queue a)) replies).

(** A request of a client: the key space, the state of the client and the reply. *)
Definition tspec (now : Z) (m : keyspace) (a : actx) (r : treq) : keyspace * actx * bytes :=
  match r with
  | Cmd cmd =>
      if a_multi a then (m, mkActx true (a_cas a) (a_abort a) (a_queue a ++ [cmd]) (a_watch a), queued_reply)
      else let '(m', reply) := kspec now m cmd in (m', a, reply)
  | Unknown name =>
      (m, if a_multi a then mkActx true (a_cas a) true (a_queue a) (a_watch a) else a, unknown_reply name)
  | Multi_ =>
      if a_multi a then (m, a, err_reply (str "MULTI calls can not be nested"))
      else (m, mkActx true (a_cas a) (a_abort a) (a_queue a) (a_watch a), ok_reply)
  | Discard => if a_multi a then (m, idle_actx, ok_reply) else (m, a, err_reply (str "DISCARD without MULTI"))
  | Watch ks =>
      if a_multi a then (m, a, err_reply (str "WATCH inside MULTI is not allowed"))
      else (m, mkActx false (a_cas a) (a_abort a) (a_queue a) (foldl add_key (a_watch a) ks), ok_reply)
  | Unwatch => (m, mkActx (a_multi a) false (a_abort a) (a_queue a) [], ok_reply)
  | Exec => exec_spec now m a
  end.

(** ** Marks *)

(** The keys of MSET. *)
Fixpoint pair_keys (args : list bytes) : list bytes :=
  match args with k :: _ :: rest => k :: pair_keys rest | _ => [] end.

(** The keys that a command may announce: those that it names to write them, and
    all the keys for FLUSHDB. *)
Definition touches (cmd : kcmd) (k : bytes) : Prop :=
  match cmd with
  | Set_ j _ _ | Setnx j _ | Setex j _ _ | Psetex j _ _ | Getset j _ | Setrange j _ _ | Append j _ | Incr j | Decr j | Incrby j _ | Decrby j _
  | Expire _ _ j _ | Sadd j _ | Srem j _ => k = j
  | Mset args | Msetnx args => k ∈ pair_keys args
  | Del ks => k ∈ ks
  | Rename j j2 | Renamenx j j2 | Smove j j2 _ => k = j \/ k = j2
  | Flushdb => True
  | _ => False
  end.

(** The commands that a request executes. *)
Definition executes (a : actx) (r : treq) : list kcmd :=
  match r with
  | Cmd cmd => if a_multi a then [] else [cmd]
  | Exec => if a_multi a && negb (a_abort a) && negb (a_cas a) then a_queue a else []
  | _ => []
  end.

(** A client after commands have changed the key space from [m] to [m']. *)
Record marked (cmds : list kcmd) (m m' : keyspace) (a b : actx) : Prop := {
  mk_multi : a_multi b = a_multi a;
  mk_abort : a_abort b = a_abort a;
  mk_queue : a_queue b = a_queue a;
  mk_watch : a_watch b = a_watch a;
  mk_keeps : a_cas a = true -> a_cas b = true;
  mk_changed : forall k, k ∈ a_watch a -> m' !! k <> m !! k -> a_cas b = true;
  mk_only : (forall k cmd, k ∈ a_watch a -> cmd ∈ cmds -> ~ touches cmd k) -> a_cas b = a_cas a
}.

(** ** Steps *)

Inductive tlabel :=
  | Request (now : Z) (id : Z) (r : treq) (reply : bytes)
  | Connect (id : Z)
  | Disconnect (id : Z).

Inductive astep (m : keyspace) (A : gmap Z actx) : tlabel -> keyspace -> gmap Z actx -> Prop :=
  | astep_request now id r reply a a' m' A' :
      A !! id = Some a -> tspec now (alive now m) a r = (m', a', reply) ->
      (forall j, option_Forall2 (marked (executes a r) (alive now m) m') (<[id := a']> A !! j) (A' !! j)) ->
      astep m A (Request now id r reply) m' A'
  | astep_connect id : A !! id = None -> astep m A (Connect id) m (<[id := idle_actx]> A)
  | astep_disconnect id : is_Some (A !! id) -> astep m A (Disconnect id) m (delete id A).

Inductive aruns : keyspace -> gmap Z actx -> list tlabel -> keyspace -> gmap Z actx -> Prop :=
  | aruns_nil m A : aruns m A [] m A
  | aruns_cons m A l m1 A1 ls m' A' : astep m A l m1 A1 -> aruns m1 A1 ls m' A' -> aruns m A (l :: ls) m' A'.
