(* ===== verification/StringProofs.v ===== *)
(** * The string commands do what is specified

    Each command of Strings.v leaves a database that shows the key space of
    Keyspace.v, and queues the reply of Keyspace.v. *)

From S2P Require Import Prelude CLib Util Sds Object Reply Resp Dict KeyDict SetType Db Command Strings Keyspace.
Local Open Scope Z_scope.

(** ** The code does what the specification says *)

(** Objects of the arguments of a command. *)
Definition is_arg (v : bytes) (o : robj) : Prop :=
  node_ok o /\ objval o = Some v /\ Z.of_nat (length v) <= STRING_MAX.

Lemma obj_sds_ok o s : o_ptr o = PtrSds s -> obj_sds o = Ok s.
Proof. unfold obj_sds. by intros ->. Qed.

Lemma is_arg_sds v o : is_arg v o -> exists s, o_ptr o = PtrSds s /\ sds_ok s /\ sdsval s = v /\ sdslen s = Z.of_nat (length v).
Proof.
  intros (Ho & Hv & _). destruct (node_ok_sds o Ho) as (s & Hp & Hok & Hs & _). exists s. split_and!; try done.
  - unfold nodeval in Hs. by rewrite Hv in Hs.
  - unfold sdslen. rewrite <- (sdsval_length s Hok), <- Hs. unfold nodeval. by rewrite Hv.
Qed.

(** A string object with the value [v] fits if [v] does. *)
Lemma fits_intro `{SetConfig} n o v : strobj_ok o -> objval o = Some v -> Z.of_nat (length v) <= STRING_MAX ->
  value_fits n o /\ oval o = VString v.
Proof.
  intros Ho Hv Hl. unfold value_fits, oval, nodeval. rewrite Hv. cbn. destruct Ho as (Ht & ? & ?).
  rewrite bool_decide_eq_true_2 by done. rewrite Ht. split; [split; [|done]|done]. done.
Qed.

Lemma incrRefCount_ok o : strobj_ok o -> strobj_ok (incrRefCount o) /\ objval (incrRefCount o) = objval o.
Proof. intros (? & ? & ?). split; [|done]. split; [done|]. split; [cbn; lia|done]. Qed.

(** The length of the decimal form. *)
Lemma sdigits10_length n : LLONG_MIN <= n <= LLONG_MAX -> sdigits10 n = Z.of_nat (length (dec n)).
Proof.
  unfold LLONG_MIN, LLONG_MAX, sdigits10. intros Hn. rewrite dec_abs, length_app. destruct (Z.ltb_spec n 0).
  - assert ((if negb (n =? LLONG_MIN) then u64 (- n) else u64 (LLONG_MAX + 1)) = Z.abs n) as ->.
    { unfold LLONG_MIN, LLONG_MAX. destruct (Z.eqb_spec n (- 2 ^ 63)); cbn [negb]; rewrite u64_small; lia. }
    rewrite digits10_length by lia. pose proof (udec_length_u64 (Z.abs n) ltac:(lia)). rewrite u32_small by lia. cbn [length]. lia.
  - rewrite digits10_length by lia. rewrite Z.abs_eq by lia. cbn [length]. lia.
Qed.

Lemma stringObjectLen_ok o v : strobj_ok o -> objval o = Some v -> stringObjectLen o = Ok (Z.of_nat (length v)).
Proof.
  intros (Ht & _ & He) Hv. unfold stringObjectLen, sdsEncodedObject, obj_sds, objval in *. rewrite bool_decide_eq_true_2 by done.
  cbn [negb]. destruct (o_encoding o); cbn [bool_decide orb] in *; try done.
  - destruct He as (s & Hp & Hs). rewrite Hp in *. injection Hv as <-. rewrite bind_ok. by rewrite sdsval_length.
  - destruct He as (n & Hp & Hn). rewrite Hp in *. injection Hv as <-. by rewrite sdigits10_length.
  - destruct He as (s & Hp & Hs & _). rewrite Hp in *. injection Hv as <-. rewrite bind_ok. by rewrite sdsval_length.
Qed.

Lemma getLongLongFromObject_ok o v : strobj_ok o -> objval o = Some v -> getLongLongFromObject (Some o) = Ok (string2ll v).
Proof.
  intros (Ht & _ & He) Hv. unfold getLongLongFromObject, sdsEncodedObject, obj_sds, objval in *. rewrite bool_decide_eq_true_2 by done.
  cbn [negb]. destruct (o_encoding o); cbn [bool_decide orb] in *; try done.
  - destruct He as (s & Hp & Hs). rewrite Hp in *. by injection Hv as <-.
  - destruct He as (n & Hp & Hn). rewrite Hp in *. injection Hv as <-. do 2 f_equal. symmetry. by apply string2ll_iff.
  - destruct He as (s & Hp & Hs & _). rewrite Hp in *. by injection Hv as <-.
Qed.

Section CommandsDo.
Context {T : Type -> Type} `{KD : KeyDict T} `{KL : !KeyDictLaws T} `{SC : SetConfig}.
Variable junk : Z.
Variable sdsZmallocSize : sds -> Z.
Variable embeddedSize : sds -> Z.
Variable client_obuf_limits : client_type -> obuf_limits.
Variable unixtime : Z.
Variable shareable : bool.
Hypothesis zmalloc_size : forall s, 0 <= sdsZmallocSize s < 2 ^ 48.
Hypothesis embedded_size : forall s, 0 <= embeddedSize s < 2 ^ 48.
Variable en : env.
Hypothesis master : e_masterhost en = false.
Hypothesis loaded : e_loading en = false.

#[local] Abbreviation now := (e_now en).
#[local] Abbreviation replied' := (replied sdsZmallocSize embeddedSize).
#[local] Abbreviation ready' := (ready sdsZmallocSize embeddedSize).
#[local] Abbreviation add_shared' := (add_shared junk sdsZmallocSize embeddedSize client_obuf_limits unixtime).
#[local] Abbreviation add_error' := (add_error junk sdsZmallocSize embeddedSize client_obuf_limits unixtime).
#[local] Abbreviation add_bulk' := (add_bulk junk sdsZmallocSize embeddedSize client_obuf_limits unixtime).
#[local] Abbreviation add_longlong' := (add_longlong junk sdsZmallocSize embeddedSize client_obuf_limits unixtime).

(** *** Replies *)

(** A reply function queues [s] with at most [r] nodes. *)
Definition replies (r : Z) (c : reqst) (s : bytes) (f : res reqst) : Prop :=
  exists o, f = Ok (with_out c o) /\ replied' r (q_out c) s o.

Lemma shared_replies c s : ready' 1 (q_out c) -> Z.of_nat (length s) < 2 ^ 63 -> replies 1 c s (add_shared' c s).
Proof. intros. by apply add_shared_ok. Qed.

Lemma error_replies c s : ready' 3 (q_out c) -> Z.of_nat (length s) < 2 ^ 63 -> replies 3 c (err_reply s) (add_error' c s).
Proof.
  intros Hc Hl. unfold replies, add_error, addReplyError, addReplyErrorLength.
  destruct (addReplyString3_ok junk sdsZmallocSize embeddedSize client_obuf_limits unixtime zmalloc_size embedded_size
    (q_out c) (str "-ERR ") s crlf Hc) as (o & -> & Ho); [done..|]. rewrite bind_ok. by exists o.
Qed.

Lemma bulk_replies c o v : ready' 3 (q_out c) -> strobj_ok o -> objval o = Some v -> Z.of_nat (length v) < 2 ^ 63 ->
  replies 3 c (bulk v) (add_bulk' c o).
Proof.
  intros Hc Ho Hv Hl. unfold replies, add_bulk.
  destruct (addReplyBulk_ok junk sdsZmallocSize embeddedSize client_obuf_limits unixtime zmalloc_size embedded_size
    (q_out c) o v) as (out & -> & Hout); [done..|]. rewrite bind_ok. by exists out.
Qed.

Lemma longlong_replies c n : ready' 1 (q_out c) -> LLONG_MIN <= n <= LLONG_MAX -> replies 1 c (int_reply n) (add_longlong' c n).
Proof.
  intros Hc Hn. unfold replies, add_longlong, addReplyLongLong. rewrite s64_small by (unfold LLONG_MIN, LLONG_MAX in Hn; lia).
  assert (exists o, (if n =? 0 then addReplyShared junk sdsZmallocSize embeddedSize client_obuf_limits unixtime (q_out c) (str ":0" ++ crlf)
    else if n =? 1 then addReplyShared junk sdsZmallocSize embeddedSize client_obuf_limits unixtime (q_out c) (str ":1" ++ crlf)
    else addReplyLongLongWithPrefix junk sdsZmallocSize embeddedSize client_obuf_limits unixtime (q_out c) n 58) = Ok o /\
    replied' 1 (q_out c) (int_reply n) o) as (o & -> & Ho).
  { destruct (Z.eqb_spec n 0) as [->|]; [|destruct (Z.eqb_spec n 1) as [->|]].
    - by apply addReplyShared_ok.
    - by apply addReplyShared_ok.
    - by apply addReplyLongLongWithPrefix_ok. }
  rewrite bind_ok. by exists o.
Qed.

Lemma multibulk_replies c n : ready' 1 (q_out c) -> 0 <= n <= LLONG_MAX ->
  replies 1 c ([42] ++ dec n ++ crlf) (addReplyMultiBulkLen junk sdsZmallocSize embeddedSize client_obuf_limits unixtime c n).
Proof.
  intros Hc Hn. unfold addReplyMultiBulkLen. destruct (n <? OBJ_SHARED_BULKHDR_LEN).
  - apply shared_replies; [done|]. pose proof (dec_length_bound n ltac:(unfold LLONG_MIN; lia)). unfold crlf. len_lia.
  - destruct (addReplyLongLongWithPrefix_ok junk sdsZmallocSize embeddedSize client_obuf_limits unixtime zmalloc_size embedded_size
      (q_out c) n 42) as (o & -> & Ho); [done|unfold LLONG_MIN; lia|]. rewrite bind_ok. by exists o.
Qed.

Lemma bulk_bytes_replies c p : ready' 3 (q_out c) -> Z.of_nat (length p) < 2 ^ 63 ->
  replies 3 c (bulk p) (add_bulk_bytes junk sdsZmallocSize embeddedSize client_obuf_limits unixtime c p).
Proof.
  intros Hc Hl. unfold replies, add_bulk_bytes, addReplyBulkCBuffer.
  destruct (addReplyLongLongWithPrefix_ok junk sdsZmallocSize embeddedSize client_obuf_limits unixtime zmalloc_size embedded_size
    (q_out c) (Z.of_nat (length p)) 36) as (o1 & -> & H1); [by apply (ready_le _ _ 3)|unfold LLONG_MIN, LLONG_MAX; lia|]. rewrite bind_ok.
  pose proof (replied_ready _ _ 3 1 2 _ _ _ Hc H1 ltac:(lia)) as Hc1.
  destruct (addReplyString_replied junk sdsZmallocSize embeddedSize client_obuf_limits unixtime zmalloc_size embedded_size
    o1 p) as (o2 & -> & H2); [by apply (ready_le _ _ 2)|done|]. rewrite bind_ok.
  pose proof (replied_ready _ _ 2 1 1 _ _ _ Hc1 H2 ltac:(lia)) as Hc2.
  destruct (addReplyShared_ok junk sdsZmallocSize embeddedSize client_obuf_limits unixtime zmalloc_size embedded_size
    o2 crlf) as (o3 & -> & H3); [done|done|]. rewrite bind_ok. exists o3. split; [done|].
  eapply (replied_app _ _ 1 2); [done| |done]. by eapply (replied_app _ _ 1 1).
Qed.

(** A command leaves a database that shows [m], and queues [reply]. *)
Definition does (n r : Z) (o : outst) (m : keyspace) (reply : bytes) (f : res (session T * reqst)) : Prop :=
  exists s' c', f = Ok (s', c') /\ shows n now (s_db s') m /\ replied' r o reply (q_out c').

Lemma does_le n n' r r' o m reply f : does n r o m reply f -> n' <= n -> r <= r' -> does n' r' o m reply f.
Proof. intros (s' & c' & E & Hs & Hout) ? ?. exists s', c'. split_and!; [done|by eapply shows_le|by eapply replied_le]. Qed.

Lemma does_pair_le (n n' r r' : Z) (o : outst) (x : keyspace * bytes) (f : res (session T * reqst)) : (let '(m, reply) := x in does n r o m reply f) -> n' <= n -> r <= r' ->
  let '(m, reply) := x in does n' r' o m reply f.
Proof. destruct x. apply does_le. Qed.

Lemma does_reply n r r0 o c m reply f (s : session T) :
  shows n now (s_db s) m -> replies r0 c reply f -> q_out c = o -> r0 <= r ->
  does n r o m reply (c ← f; Ok (s, c)).
Proof.
  intros Hs (out & -> & Hout) <- Hr. rewrite bind_ok. exists s, (with_out c out). split_and!; [done..|]. by eapply replied_le.
Qed.

(** *** Access to the key space *)

Lemma write_lookup n db m k : shows n now db m ->
  exists db' r, lookupKeyWrite en db k = Ok (db', r) /\ shows n now db' m /\ fresh now db' k /\ vals db' !! k = r /\ finds m k r.
Proof.
  intros Hs. destruct (lookupKeyWrite_ok en db k (sh_ok _ _ _ _ Hs) loaded master) as (db' & E & Hdb' & Hk & Hl & Hz & _).
  exists db', (live now db k). split_and!; [done|by apply (shows_same n now db)| |done|by apply (shows_finds n)].
  unfold fresh. rewrite Hk. symmetry. apply Hl. lia.
Qed.

Lemma read_lookup_live n db m k : shows n now db m ->
  exists db' r, lookupKeyRead en db k = Ok (db', r) /\ shows n now db' m /\ finds m k r /\ live now db' k = r.
Proof.
  intros Hs. destruct (lookupKeyRead_ok en db k (sh_ok _ _ _ _ Hs) loaded master) as (db' & E & Hdb' & Hl & Hz & _).
  exists db', (live now db k). split_and!; [done|by apply (shows_same n now db)|by apply (shows_finds n)|apply Hl; lia].
Qed.

Lemma read_lookup n db m k : shows n now db m ->
  exists db' r, lookupKeyRead en db k = Ok (db', r) /\ shows n now db' m /\ finds m k r.
Proof. intros Hs. destruct (read_lookup_live n db m k Hs) as (db' & r & ? & ? & ? & _). eauto. Qed.

Lemma shows_size n db m : shows n now db m -> 0 <= n -> kd_size (db_dict db) <= KD_MAX.
Proof. intros [H1 H2 _ _] ?. rewrite (kd_size_ok _ _ (dbk_dict _ H1)). unfold vals in H2. pose proof room_max. lia. Qed.

Lemma set_key n db m k o v : shows n now db m -> 0 <= n -> strobj_ok o -> objval o = Some v -> Z.of_nat (length v) <= STRING_MAX ->
  exists db', setKey en db k o = Ok db' /\ shows (n - 1) now db' (<[k := (VString v, None)]> m).
Proof.
  intros Hs Hn Ho Hv Hl.
  destruct (setKey_maps en db k o (sh_ok _ _ _ _ Hs) loaded master (shows_size n db m Hs Hn))
    as (db1 & db' & E & Hdb1 & Hlive & Hdb' & V & X & Hz & _).
  destruct (incrRefCount_ok o Ho) as [Ho' Hv']. rewrite Hv in Hv'. destruct (fits_intro n _ v Ho' Hv' Hl) as [Hf <-].
  exists db'. split; [done|]. by apply (shows_set n now db db1).
Qed.

(** A write at a key that has been looked up, with [dbAdd], [dbOverwrite] or
    through the pointer. *)
Lemma put_new n db m k o v : shows n now db m -> 0 <= n -> fresh now db k -> m !! k = None -> vals db !! k = None ->
  strobj_ok o -> objval o = Some v -> Z.of_nat (length v) <= STRING_MAX ->
  exists db', dbAdd en db k o = Ok db' /\ shows (n - 1) now db' (<[k := (VString v, None)]> m) /\ vals db' !! k = Some o.
Proof.
  intros Hs Hn Hf Hm Hk Ho Hv Hl. destruct (fits_intro n _ v Ho Hv Hl) as [Hfit <-].
  destruct (dbAdd_ok en db k o (sh_ok _ _ _ _ Hs) (shows_size n db m Hs Hn) Hk) as (db' & E & Hdb' & V & X).
  pose proof (shows_write n now db db' m k o Hs Hf Hdb' V X Hfit) as Hs'. rewrite Hm, Hk in Hs'. exists db'. split_and!; [done|done|].
  by rewrite V, lookup_insert_eq.
Qed.

Lemma put_old n db m k o v old x w : shows n now db m -> 0 <= n -> m !! k = Some (x, w) -> vals db !! k = Some old ->
  strobj_ok o -> objval o = Some v -> Z.of_nat (length v) <= STRING_MAX ->
  (exists db', dbOverwrite db k o = Ok db' /\ shows n now db' (<[k := (VString v, w)]> m) /\ vals db' !! k = Some o) /\
  (exists db', write_value db k o = Ok db' /\ shows n now db' (<[k := (VString v, w)]> m) /\ vals db' !! k = Some o).
Proof.
  intros Hs Hn Hm Hk Ho Hv Hl. destruct (fits_intro n _ v Ho Hv Hl) as [Hfit <-].
  assert (fresh now db k) as Hf by (eapply shows_fresh; [done|rewrite Hm; eauto]).
  assert (forall db', db_ok db' -> vals db' = <[k := o]> (vals db) -> exps db' = exps db ->
    shows n now db' (<[k := (oval o, w)]> m) /\ vals db' !! k = Some o) as HH.
  { intros db' Hdb' V X. pose proof (shows_write n now db db' m k o Hs Hf Hdb' V X Hfit) as Hs'. rewrite Hm, Hk in Hs'.
    split; [done|]. by rewrite V, lookup_insert_eq. }
  split.
  - destruct (dbOverwrite_ok db k o old (sh_ok _ _ _ _ Hs) (shows_size n db m Hs Hn) Hk) as (db' & E & Hdb' & V & X). eauto.
  - destruct (write_value_ok db k o (sh_ok _ _ _ _ Hs)) as (db' & E & Hdb' & V & X); [by rewrite Hk|]. eauto.
Qed.

(** An expire time for a key. *)
Lemma expire_key n db m k x e w : shows n now db m -> 0 <= n -> m !! k = Some (x, e) -> 0 <= w -> now <= w ->
  exists db', setExpire db k w = Ok db' /\ shows n now db' (<[k := (x, Some w)]> m).
Proof.
  intros Hs Hn Hm Hw Hnw. pose proof (shows_fresh n now db m k Hs ltac:(rewrite Hm; eauto)) as Hf. unfold fresh in Hf.
  destruct Hs as [H1 H2 H3 H4]. pose proof (H4 k) as Hk. rewrite Hm in Hk. unfold entry in Hk.
  destruct (live now db k) as [o|] eqn:El; [|done]. cbn in Hk. injection Hk as -> ->.
  assert (kd_size (db_expires db) <= KD_MAX) as Hsz.
  { pose proof room_max. rewrite (kd_size_ok _ _ (dbk_expires _ H1)). fold (exps db).
    assert (base.size (exps db) <= base.size (vals db))%nat; [|lia]. rewrite <- !size_dom. apply subseteq_size.
    intros j. rewrite !elem_of_dom. apply (dbk_dom _ H1). }
  destruct (setExpire_ok db k w o H1 Hsz Hw Hf) as (db' & E & Hdb' & V & X). exists db'. split; [done|].
  assert (forall j, live now db' j = live now db j) as Hl.
  { intros j. unfold live, expired. rewrite V, X. destruct (decide (k = j)) as [<-|Hne]; [|by rewrite lookup_insert_ne].
    rewrite lookup_insert_eq. destruct (Z.ltb_spec w now); [lia|]. unfold live, expired in El. rewrite Hf in El. by rewrite Hf, El. }
  split; [done|by rewrite V| |].
  - intros j p. rewrite Hl. apply H3.
  - intros j. unfold entry. rewrite Hl, X. destruct (decide (k = j)) as [<-|Hne].
    + by rewrite El, !lookup_insert_eq.
    + rewrite !lookup_insert_ne by done. apply H4.
Qed.

(** *** Reads *)

Lemma is_arg_key v o : is_arg v o -> obj_key o = Ok v.
Proof. intros (Ho & Hv & _). by apply obj_key_ok. Qed.

Lemma type_ok c o : strobj_ok o -> checkType junk sdsZmallocSize embeddedSize client_obuf_limits unixtime c o OBJ_STRING = Ok (c, false).
Proof. intros (Ht & _). unfold checkType. by rewrite bool_decide_eq_true_2. Qed.

Lemma type_wrong c o : o_type o <> OBJ_STRING ->
  checkType junk sdsZmallocSize embeddedSize client_obuf_limits unixtime c o OBJ_STRING = (c ← add_shared' c wrongtypeerr; Ok (c, true)).
Proof. intros Ht. unfold checkType. by rewrite bool_decide_eq_false_2. Qed.

Lemma wrong_replies c : ready' 1 (q_out c) -> replies 1 c wrongtypeerr (add_shared' c wrongtypeerr).
Proof. intros. by apply shared_replies. Qed.

(** The lookup of a read command, with the reply for a key that is not there. *)
Lemma lookup_replies_live n s c key k m msg : shows n now (s_db s) m -> is_arg k key -> ready' 1 (q_out c) ->
  Z.of_nat (length msg) < 2 ^ 63 ->
  exists db' out r, lookupKeyReadOrReply junk sdsZmallocSize embeddedSize client_obuf_limits unixtime en s c key msg
    = Ok (with_db s db', with_out c out, r) /\ shows n now db' m /\ finds m k r /\ live now db' k = r /\
    match r with Some _ => out = q_out c | None => replied' 1 (q_out c) msg out end.
Proof.
  intros Hs Hk Hr Hl. unfold lookupKeyReadOrReply. rewrite (is_arg_key k) by done. rewrite bind_ok.
  destruct (read_lookup_live n (s_db s) m k Hs) as (db' & r & -> & Hs' & Hf & Hlive). rewrite bind_ok. destruct r as [o|].
  - rewrite bind_ok. exists db', (q_out c), (Some o). split; [by destruct c|]. done.
  - destruct (shared_replies c msg Hr Hl) as (out & -> & Hout). rewrite bind_ok. by exists db', out, None.
Qed.

Lemma lookup_replies n s c key k m msg : shows n now (s_db s) m -> is_arg k key -> ready' 1 (q_out c) ->
  Z.of_nat (length msg) < 2 ^ 63 ->
  exists db' out r, lookupKeyReadOrReply junk sdsZmallocSize embeddedSize client_obuf_limits unixtime en s c key msg
    = Ok (with_db s db', with_out c out, r) /\ shows n now db' m /\ finds m k r /\
    match r with Some _ => out = q_out c | None => replied' 1 (q_out c) msg out end.
Proof.
  intros Hs Hk Hr Hl. destruct (lookup_replies_live n s c key k m msg Hs Hk Hr Hl) as (db' & out & r & ? & ? & ? & _ & ?). eauto 8.
Qed.

Lemma get_generic n s c key k m : shows n now (s_db s) m -> q_argv c !! 1%nat = Some key -> is_arg k key -> ready' 3 (q_out c) ->
  exists db' out, getGenericCommand junk sdsZmallocSize embeddedSize client_obuf_limits unixtime en s c
    = Ok (with_db s db', with_out c out, match m !! k with Some (VOther _, _) => false | _ => true end) /\
    shows n now db' m /\ replied' 3 (q_out c) (get_spec m k) out.
Proof.
  intros Hs Ha Hk Hr. unfold getGenericCommand, arg. rewrite Ha, bind_ok.
  destruct (lookup_replies n s c key k m nil_reply Hs Hk) as (db' & out & r & E & Hs' & Hf & Hout); [by apply (ready_le _ _ 3)|done|].
  unfold nil_reply in E. rewrite E, bind_ok. unfold get_spec.
  destruct Hf as [Hm|o v w Hm Ho Hv Hl|o w Hm Ht]; rewrite Hm.
  - exists db', out. split_and!; try done. by apply (replied_le _ _ 1).
  - subst out. pose proof Ho as (Ht & _). rewrite bool_decide_eq_true_2 by done. cbn [negb].
    destruct (addReplyBulk_ok junk sdsZmallocSize embeddedSize client_obuf_limits unixtime zmalloc_size embedded_size
      (q_out c) o v) as (out & Eo & Hout); try done; [unfold STRING_MAX in Hl; lia|].
    cbn [with_out q_out]. rewrite Eo, bind_ok. by exists db', out.
  - subst out. rewrite bool_decide_eq_false_2 by done. cbn [negb].
    destruct (wrong_replies (with_out c (q_out c))) as (out & -> & Hout); [by apply (ready_le _ _ 3)|]. rewrite bind_ok.
    exists db', out. split_and!; try done. by apply (replied_le _ _ 1).
Qed.

Lemma get_does n s c cmd key k m : shows n now (s_db s) m -> q_argv c = [cmd; key] -> is_arg k key -> ready' 3 (q_out c) ->
  does n 3 (q_out c) m (get_spec m k) (getCommand junk sdsZmallocSize embeddedSize client_obuf_limits unixtime en s c).
Proof.
  intros Hs Ha Hk Hr. unfold getCommand.
  destruct (get_generic n s c key k m Hs) as (db' & out & -> & Hs' & Hout); [by rewrite Ha|done..|]. rewrite bind_ok.
  by exists (with_db s db'), (with_out c out).
Qed.

Lemma strlen_does n s c cmd key k m : shows n now (s_db s) m -> q_argv c = [cmd; key] -> is_arg k key -> ready' 3 (q_out c) ->
  does n 3 (q_out c) m (strlen_spec m k) (strlenCommand junk sdsZmallocSize embeddedSize client_obuf_limits unixtime en s c).
Proof.
  intros Hs Ha Hk Hr. assert (ready' 1 (q_out c)) as Hr1 by (by apply (ready_le _ _ 3)).
  unfold strlenCommand, arg. rewrite Ha. cbn [lookup list_lookup]. rewrite bind_ok.
  destruct (lookup_replies n s c key k m (str ":0" ++ crlf) Hs Hk) as (db' & out & r & -> & Hs' & Hf & Hout); [done..|].
  rewrite bind_ok. unfold strlen_spec. destruct Hf as [Hm|o v w Hm Ho Hv Hl|o w Hm Ht]; rewrite Hm.
  - exists (with_db s db'), (with_out c out). split_and!; try done. by apply (replied_le _ _ 1).
  - subst out. rewrite type_ok by done. rewrite bind_ok, (stringObjectLen_ok o v) by done. rewrite bind_ok.
    eapply does_reply; [exact Hs'|apply longlong_replies; [done|]|done|lia].
    unfold STRING_MAX, LLONG_MIN, LLONG_MAX in *. lia.
  - subst out. rewrite type_wrong by done.
    destruct (wrong_replies (with_out c (q_out c)) Hr1) as (out & -> & Hout). rewrite !bind_ok.
    exists (with_db s db'), (with_out c out). split_and!; try done. by apply (replied_le _ _ 1).
Qed.

(** *** Numbers *)

(** The result of a function that reads a number, or replies an error. *)
Definition reads (c : reqst) (r : option Z) (f : res (reqst * option Z)) : Prop :=
  match r with
  | Some n => f = Ok (c, Some n)
  | None => exists out, f = Ok (with_out c out, None) /\ replied' 3 (q_out c) not_integer out
  end.

Lemma longlong_reads c o v : strobj_ok o -> objval o = Some v -> ready' 3 (q_out c) ->
  reads c (string2ll v) (getLongLongFromObjectOrReply junk sdsZmallocSize embeddedSize client_obuf_limits unixtime c (Some o) None).
Proof.
  intros Ho Hv Hr. unfold getLongLongFromObjectOrReply. rewrite (getLongLongFromObject_ok o v) by done. rewrite bind_ok.
  destruct (string2ll v); [done|]. cbn [default from_option id].
  destruct (error_replies c (str "value is not an integer or out of range") Hr) as (out & -> & Hout); [done|]. rewrite bind_ok. by exists out.
Qed.

Lemma longlong_reads_arg c o v : is_arg v o -> ready' 3 (q_out c) ->
  reads c (string2ll v) (getLongLongFromObjectOrReply junk sdsZmallocSize embeddedSize client_obuf_limits unixtime c (Some o) None).
Proof. intros ([Ho _] & Hv & _). by apply longlong_reads. Qed.

Lemma long_reads c o v : is_arg v o -> ready' 3 (q_out c) ->
  reads c (string2ll v) (getLongFromObjectOrReply junk sdsZmallocSize embeddedSize client_obuf_limits unixtime c (Some o) None).
Proof.
  intros Ho Hr. unfold getLongFromObjectOrReply. pose proof (longlong_reads_arg c o v Ho Hr) as H. unfold reads in *.
  destruct (string2ll v) as [n|] eqn:E.
  - rewrite H, bind_ok. apply string2ll_iff in E as [_ Hn].
    destruct (Z.ltb_spec n LLONG_MIN); [lia|]. destruct (Z.gtb_spec n LLONG_MAX); [lia|]. done.
  - destruct H as (out & -> & Hout). rewrite bind_ok. by exists out.
Qed.

(** A command that ends after such an error. *)
Lemma does_read_error n (s : session T) c m out : shows n now (s_db s) m -> replied' 3 (q_out c) not_integer out ->
  does n 3 (q_out c) m not_integer (Ok (s, with_out c out)).
Proof. intros Hs Hout. by exists s, (with_out c out). Qed.

(** *** GETRANGE *)

Lemma range_text (text s : bytes) start end_ : Z.of_nat (length s) <= STRING_MAX -> take (length s) text = s ->
  LLONG_MIN <= start <= LLONG_MAX -> LLONG_MIN <= end_ <= LLONG_MAX ->
  let strlen := Z.of_nat (length s) in
  let i := if start <? 0 then s64 (strlen + start) else start in
  let j := if end_ <? 0 then s64 (strlen + end_) else end_ in
  let i := if i <? 0 then 0 else i in
  let j := if j <? 0 then 0 else j in
  let j := if u64 j >=? strlen then s64 (strlen - 1) else j in
  (start <? 0) && (end_ <? 0) && (start >? end_) = false ->
  if (i >? j) || (strlen =? 0) then range_spec s start end_ = []
  else mread text (Z.to_nat i) (Z.to_nat (j - i + 1)) = Ok (range_spec s start end_).
Proof.
  unfold STRING_MAX, LLONG_MIN, LLONG_MAX. intros Hl Ht Hs He. cbv zeta. intros Hcase.
  assert ((length s <= length text)%nat) as Hlt by (apply (f_equal length) in Ht; rewrite length_take in Ht; lia).
  set (len := Z.of_nat (length s)) in *.
  rewrite (s64_small (len - 1)) by lia.
  assert ((if start <? 0 then s64 (len + start) else start) = (if start <? 0 then len + start else start)) as ->
    by (destruct (Z.ltb_spec start 0); [rewrite s64_small; lia|done]).
  assert ((if end_ <? 0 then s64 (len + end_) else end_) = (if end_ <? 0 then len + end_ else end_)) as ->
    by (destruct (Z.ltb_spec end_ 0); [rewrite s64_small; lia|done]).
  unfold range_spec. fold len. rewrite Hcase.
  set (a := if start <? 0 then len + start else start). set (b := if end_ <? 0 then len + end_ else end_).
  assert (b <= LLONG_MAX) by (unfold b, LLONG_MAX; destruct (Z.ltb_spec end_ 0); lia). unfold LLONG_MAX in *. clearbody a b.
  replace (if a <? 0 then 0 else a) with (Z.max 0 a) by (destruct (Z.ltb_spec a 0); lia).
  replace (if b <? 0 then 0 else b) with (Z.max 0 b) by (destruct (Z.ltb_spec b 0); lia).
  rewrite u64_small by lia.
  replace (if Z.max 0 b >=? len then len - 1 else Z.max 0 b) with (Z.min (len - 1) (Z.max 0 b))
    by (destruct (Z.geb_spec (Z.max 0 b) len); lia).
  destruct (Z.gtb_spec (Z.max 0 a) (Z.min (len - 1) (Z.max 0 b))); cbn [orb].
  - replace (Z.to_nat _) with 0%nat by lia. done.
  - destruct (Z.eqb_spec len 0); [lia|]. rewrite mread_ok by lia. f_equal.
    rewrite <- Ht. rewrite skipn_firstn_comm, take_take. f_equal. lia.
Qed.

Lemma getrange_does n s c cmd key a b k i j m : shows n now (s_db s) m -> q_argv c = [cmd; key; a; b] ->
  is_arg k key -> is_arg i a -> is_arg j b -> ready' 6 (q_out c) ->
  does n 3 (q_out c) m (getrange_spec m k i j) (getrangeCommand junk sdsZmallocSize embeddedSize client_obuf_limits unixtime en s c).
Proof.
  intros Hs Ha Hk Hi Hj Hr. assert (ready' 3 (q_out c)) as Hr3 by (by apply (ready_le _ _ 6)).
  assert (ready' 1 (q_out c)) as Hr1 by (by apply (ready_le _ _ 6)).
  unfold getrangeCommand, arg, getrange_spec. rewrite Ha. cbn [lookup list_lookup]. rewrite bind_ok.
  pose proof (longlong_reads_arg c a i Hi Hr3) as H1. unfold reads in H1. destruct (string2ll i) as [start|] eqn:Ei.
  2:{ destruct H1 as (out & -> & Hout). rewrite bind_ok. by apply does_read_error. }
  rewrite H1, bind_ok, Ha. cbn [lookup list_lookup]. rewrite bind_ok.
  pose proof (longlong_reads_arg c b j Hj Hr3) as H2. unfold reads in H2. destruct (string2ll j) as [end_|] eqn:Ej.
  2:{ destruct H2 as (out & -> & Hout). rewrite bind_ok. by apply does_read_error. }
  rewrite H2, bind_ok, Ha. cbn [lookup list_lookup]. rewrite bind_ok.
  destruct (lookup_replies n s c key k m (str "$0" ++ crlf ++ crlf) Hs Hk) as (db' & out & r & -> & Hs' & Hf & Hout); [done..|].
  rewrite bind_ok. destruct Hf as [Hm|o v w Hm Ho Hv Hl|o w Hm Ht]; rewrite Hm.
  - exists (with_db s db'), (with_out c out). split_and!; try done. by apply (replied_le _ _ 1).
  - subst out. rewrite type_ok by done. rewrite bind_ok.
    assert (exists text, match o_encoding o, o_ptr o with
      | OBJ_ENCODING_INT, PtrInt n => '(len, buf) ← ll2string (replicate 32 junk) 32 n; Ok (buf, len)
      | _, PtrSds p => Ok (sds_mem p, sdslen p)
      | _, _ => Fault OutOfBounds end = Ok (text, Z.of_nat (length v)) /\ take (length v) text = v) as (text & -> & Htext).
    { unfold objval in Hv. destruct Ho as (_ & _ & He). destruct (o_encoding o); try done.
      - destruct He as (p & Hp & Hok). rewrite Hp in *. injection Hv as <-. exists (sds_mem p). unfold sdslen.
        pose proof (sdsval_length p Hok) as Hlen. rewrite Hlen. split; [done|]. unfold sdsval at 2. f_equal. lia.
      - destruct He as (z & Hp & Hz). rewrite Hp in *. injection Hv as <-.
        pose proof (dec_length_bound z Hz). rewrite ll2string_writes by (rewrite ?length_replicate; (done || lia)). rewrite bind_ok.
        eexists. split; [done|]. by rewrite take_app_length.
      - destruct He as (p & Hp & Hok & _). rewrite Hp in *. injection Hv as <-. exists (sds_mem p). unfold sdslen.
        pose proof (sdsval_length p Hok) as Hlen. rewrite Hlen. split; [done|]. unfold sdsval at 2. f_equal. lia. }
    rewrite bind_ok. apply string2ll_iff in Ei as [_ Hst]. apply string2ll_iff in Ej as [_ Hen].
    pose proof (range_text text v start end_ Hl Htext Hst Hen) as Hrange. cbv zeta in Hrange |- *.
    destruct ((start <? 0) && (end_ <? 0) && (start >? end_)) eqn:Ecase.
    { eapply does_reply; [done|unfold range_spec; rewrite Ecase; by apply shared_replies|done|lia]. }
    specialize (Hrange eq_refl). destruct (_ || _).
    + eapply does_reply; [done|rewrite Hrange; by apply shared_replies|done|lia].
    + rewrite Hrange, bind_ok. eapply does_reply; [done|apply bulk_bytes_replies; [done|]|done|lia].
      unfold range_spec. rewrite Ecase, length_take, length_drop. unfold STRING_MAX in Hl. lia.
  - subst out. rewrite type_wrong by done.
    destruct (wrong_replies (with_out c (q_out c)) Hr1) as (out & -> & Hout). rewrite !bind_ok.
    exists (with_db s db'), (with_out c out). split_and!; try done. by apply (replied_le _ _ 1).
Qed.

(** *** Counters *)

Lemma incr_overflows_ok incr old : LLONG_MIN <= incr <= LLONG_MAX -> LLONG_MIN <= old <= LLONG_MAX ->
  incr_overflows incr old = negb (bool_decide (LLONG_MIN <= old + incr <= LLONG_MAX)).
Proof.
  unfold incr_overflows, LLONG_MIN, LLONG_MAX. intros Hi Ho.
  destruct (Z.ltb_spec incr 0), (Z.ltb_spec old 0), (Z.gtb_spec incr 0), (Z.gtb_spec old 0),
    (Z.ltb_spec incr (- 2 ^ 63 - old)), (Z.gtb_spec incr (2 ^ 63 - 1 - old)); cbn [andb orb]; case_bool_decide; cbn [negb]; (done || lia).
Qed.

Lemma number_object v : LLONG_MIN <= v <= LLONG_MAX ->
  strobj_ok (createStringObjectFromLongLong v) /\ objval (createStringObjectFromLongLong v) = Some (dec v).
Proof.
  intros Hv. unfold createStringObjectFromLongLong, shared_integer. destruct (_ && _); (split; [|done]); (split; [done|]); (split; [cbn; lia|]); cbn; eauto.
Qed.

Lemma dec_fits v : LLONG_MIN <= v <= LLONG_MAX -> Z.of_nat (length (dec v)) <= STRING_MAX.
Proof. intros Hv. pose proof (dec_length_bound v Hv). unfold STRING_MAX. lia. Qed.

(** The number is stored, in place or not. *)
Lemma store_number_ok n db m k r v : shows n now db m -> 0 <= n -> fresh now db k -> vals db !! k = r -> finds m k r ->
  (match m !! k with Some (VOther _, _) => false | _ => true end) = true -> LLONG_MIN <= v <= LLONG_MAX ->
  exists db' o, store_number en db k r v = Ok (db', o) /\ strobj_ok o /\ objval o = Some (dec v) /\
    shows (n - 1) now db' (<[k := (VString (dec v), m !! k ≫= snd)]> m).
Proof.
  intros Hs Hn Hf Hk Hfind Hcase Hv. destruct (number_object v Hv) as [Hno Hnv]. pose proof (dec_fits v Hv) as Hfit.
  destruct Hfind as [Hm|o s w Hm Ho Hov Hl|o w Hm Ht]; rewrite Hm in Hcase |- *; cbn [mbind option_bind snd]; [| |done].
  - unfold store_number. destruct (put_new n db m k (createStringObjectFromLongLong v) (dec v)) as (db' & -> & Hs' & _); [done..|].
    rewrite bind_ok. by exists db', (createStringObjectFromLongLong v).
  - unfold store_number. destruct (_ && _) eqn:Ec.
    + rewrite !andb_true_iff in Ec. destruct Ec as [[[[_ He%bool_decide_eq_true] _] _] _].
      assert (strobj_ok (with_ptr o (PtrInt v))) as Ho'.
      { destruct Ho as (? & ? & _). split; [done|]. split; [done|]. cbn. rewrite He. eauto. }
      destruct (put_old n db m k (with_ptr o (PtrInt v)) (dec v) o (VString s) w) as [_ (db' & -> & Hs' & _)]; [done..|].
      rewrite bind_ok. exists db', (with_ptr o (PtrInt v)). split_and!; try done. eapply shows_le; [|done]. lia.
    + destruct (put_old n db m k (createStringObjectFromLongLong v) (dec v) o (VString s) w) as [(db' & -> & Hs' & _) _]; [done..|].
      rewrite bind_ok. exists db', (createStringObjectFromLongLong v). split_and!; try done. eapply shows_le; [|done]. lia.
Qed.

(** ":", the number and CRLF. *)
Lemma number_does n (s : session T) c o v m : shows n now (s_db s) m -> ready' 3 (q_out c) -> strobj_ok o -> objval o = Some (dec v) ->
  does n 3 (q_out c) m (int_reply v) (c ← add_shared' c (str ":");
    c ← add_object junk sdsZmallocSize embeddedSize client_obuf_limits unixtime c o; c ← add_shared' c crlf; Ok (s, c)).
Proof.
  intros Hs Hc Ho Hv. destruct (shared_replies c (str ":")) as (o1 & -> & H1); [by apply (ready_le _ _ 3)|done|].
  rewrite bind_ok. unfold add_object. cbn [with_out q_out].
  pose proof (replied_ready _ _ 3 1 2 _ _ _ Hc H1 ltac:(lia)) as Hc1.
  destruct (addReply_ok junk sdsZmallocSize embeddedSize client_obuf_limits unixtime zmalloc_size embedded_size o1 o (dec v))
    as (o2 & -> & H2); [by apply (ready_le _ _ 2)|done|done|]. rewrite !bind_ok.
  pose proof (replied_ready _ _ 2 1 1 _ _ _ Hc1 H2 ltac:(lia)) as Hc2.
  destruct (shared_replies (with_out (with_out c o1) o2) crlf) as (o3 & -> & H3); [done|done|]. rewrite bind_ok.
  exists s, (with_out c o3). split; [done|]. split; [done|].
  eapply (replied_app _ _ 1 2); [done| |done]. by eapply (replied_app _ _ 1 1).
Qed.

Lemma shows_modified n (s : session T) db m ev k : shows n now db m -> shows n now (s_db (modified s db ev k)) m.
Proof. intros. cbn. by do 2 apply shows_emit. Qed.

Lemma incrDecr_does n s c key k m incr : shows n now (s_db s) m -> 1 <= n -> q_argv c !! 1%nat = Some key -> is_arg k key ->
  ready' 3 (q_out c) -> LLONG_MIN <= incr <= LLONG_MAX ->
  let '(m', reply) := incr_spec m k incr in
  does (n - 1) 3 (q_out c) m' reply (incrDecrCommand junk sdsZmallocSize embeddedSize client_obuf_limits unixtime en s c incr).
Proof.
  intros Hs Hn Ha Hk Hr Hi. assert (ready' 1 (q_out c)) as Hr1 by (by apply (ready_le _ _ 3)).
  unfold incrDecrCommand, arg. rewrite Ha, bind_ok, (is_arg_key k) by done. rewrite bind_ok.
  destruct (write_lookup n (s_db s) m k Hs) as (db & r & -> & Hs1 & Hf & Hv & Hfind). rewrite bind_ok.
  assert (shows (n - 1) now (s_db (with_db s db)) m) as Hs1' by (eapply shows_le; [|exact Hs1]; lia).
  assert (forall old, LLONG_MIN <= old <= LLONG_MAX -> (match m !! k with Some (VOther _, _) => false | _ => true end) = true ->
    let '(m', reply) := if bool_decide (LLONG_MIN <= old + incr <= LLONG_MAX)
      then (<[k := (VString (dec (old + incr)), m !! k ≫= snd)]> m, int_reply (old + incr))
      else (m, err_reply (str "increment or decrement would overflow")) in
    does (n - 1) 3 (q_out c) m' reply (if incr_overflows incr old
      then c ← add_error' c (str "increment or decrement would overflow"); Ok (with_db s db, c)
      else '(db, new) ← store_number en db k r (s64 (old + incr));
        c ← add_shared' c (str ":"); c ← add_object junk sdsZmallocSize embeddedSize client_obuf_limits unixtime c new;
        c ← add_shared' c crlf; Ok (modified s db (str "incrby") k, c))) as Hgo.
  { intros old Hold Hcase. rewrite incr_overflows_ok by done. case_bool_decide as Hb; cbn [negb].
    - rewrite s64_small by (unfold LLONG_MIN, LLONG_MAX in Hb; lia).
      destruct (store_number_ok n db m k r (old + incr) Hs1) as (db' & o & -> & Ho & Hov & Hs2); [lia|done..|]. rewrite bind_ok.
      apply number_does; [by apply shows_modified|done..].
    - eapply does_reply; [exact Hs1'|by apply error_replies|done|lia]. }
  unfold incr_spec. destruct Hfind as [Hm|o v w Hm Ho Hov Hl|o w Hm Ht]; rewrite Hm in Hgo |- *; cbn [mbind option_bind snd] in Hgo.
  - rewrite bind_ok. cbn [getLongLongFromObjectOrReply getLongLongFromObject]. unfold getLongLongFromObjectOrReply. cbn [getLongLongFromObject].
    rewrite !bind_ok. apply Hgo; [by split|done].
  - rewrite type_ok by done. rewrite bind_ok. pose proof (longlong_reads c o v Ho Hov Hr) as H1. unfold reads in H1.
    destruct (string2ll v) as [old|] eqn:Ev.
    + rewrite H1, bind_ok. apply string2ll_iff in Ev as [_ Hold]. by apply Hgo.
    + destruct H1 as (out & -> & Hout). rewrite bind_ok. by apply does_read_error.
  - rewrite type_wrong by done. destruct (wrong_replies c Hr1) as (out & -> & Hout). rewrite !bind_ok.
    exists (with_db s db), (with_out c out). split_and!; try done. by apply (replied_le _ _ 1).
Qed.

(** [sign] is 1 for INCRBY and -1 for DECRBY. *)
Lemma incrby_does n s c cmd key num k a m : shows n now (s_db s) m -> 1 <= n -> q_argv c = [cmd; key; num] ->
  is_arg k key -> is_arg a num -> ready' 3 (q_out c) ->
  (let '(m', reply) := incrby_spec m k a 1 in
   does (n - 1) 3 (q_out c) m' reply (incrbyCommand junk sdsZmallocSize embeddedSize client_obuf_limits unixtime en s c)) /\
  (string2ll a <> Some LLONG_MIN -> let '(m', reply) := incrby_spec m k a (-1) in
   does (n - 1) 3 (q_out c) m' reply (decrbyCommand junk sdsZmallocSize embeddedSize client_obuf_limits unixtime en s c)).
Proof.
  intros Hs Hn Ha Hk Hnum Hr. unfold incrbyCommand, decrbyCommand, arg, incrby_spec. rewrite Ha. cbn [lookup list_lookup]. rewrite !bind_ok.
  pose proof (longlong_reads_arg c num a Hnum Hr) as H1. unfold reads in H1. destruct (string2ll a) as [z|] eqn:Ez.
  - rewrite H1, !bind_ok. apply string2ll_iff in Ez as [_ Hz]. rewrite Z.mul_1_l. split; [|intros Hmin].
    + apply (incrDecr_does n s c key); try done. by rewrite Ha.
    + assert (z <> LLONG_MIN) by congruence. unfold LLONG_MIN, LLONG_MAX in *. replace (-1 * z) with (- z) by lia. rewrite s64_small by lia.
      apply (incrDecr_does n s c key); try done; [by rewrite Ha|]. unfold LLONG_MIN, LLONG_MAX. lia.
  - destruct H1 as (out & -> & Hout). rewrite !bind_ok. assert (shows (n - 1) now (s_db s) m) by (eapply shows_le; [|exact Hs]; lia).
    split; [|intros _]; by apply does_read_error.
Qed.

(** *** Changes in place *)

(** A raw string object at the key. *)
Definition raw_at (db : redisDb T) (k : bytes) (o : robj) (p : sds) : Prop :=
  vals db !! k = Some o /\ strobj_ok o /\ o_encoding o = OBJ_ENCODING_RAW /\ o_ptr o = PtrSds p /\ sds_ok p.

Lemma unshare_ok n db m k o v w : shows n now db m -> 0 <= n -> m !! k = Some (VString v, w) -> vals db !! k = Some o ->
  strobj_ok o -> objval o = Some v -> Z.of_nat (length v) <= STRING_MAX ->
  exists db' o' p, dbUnshareStringValue junk db k o = Ok (db', o') /\ shows n now db' m /\ raw_at db' k o' p /\ sdsval p = v.
Proof.
  intros Hs Hn Hm Hk Ho Hv Hl. unfold dbUnshareStringValue. pose proof Ho as (Ht & _ & He). rewrite bool_decide_eq_true_2 by done.
  cbn [negb]. destruct (negb (o_refcount o =? 1) || negb (bool_decide (o_encoding o = OBJ_ENCODING_RAW))) eqn:E.
  - destruct (getDecodedObject_ok junk o Ho) as (d & p & -> & Hd & Hp & Hpok & Hdv). rewrite bind_ok. unfold obj_sds. rewrite Hp, bind_ok.
    rewrite Hv in Hdv. unfold objval in Hdv. rewrite Hp in Hdv. injection Hdv as Hdv.
    pose proof (sds_ok_len p Hpok). pose proof (sds_ok_mem p Hpok). pose proof (sdsval_length p Hpok) as Hlen.
    rewrite Hdv in Hlen. unfold STRING_MAX in Hl.
    destruct (createRaw_ok junk (sds_mem p) (sdslen p)) as (o' & -> & Ho' & Hov' & He'); [unfold sdslen; lia..|]. rewrite bind_ok.
    assert (objval o' = Some v) as Hov by (by rewrite Hov', <- Hdv).
    destruct (put_old n db m k o' v o (VString v) w) as [(db' & -> & Hs' & Hk') _]; [done..|]. rewrite bind_ok.
    rewrite insert_id in Hs' by done. pose proof Ho' as (_ & _ & He2). rewrite He' in He2. destruct He2 as (q & Hq & Hqok).
    exists db', o', q. split_and!; try done. unfold objval in Hov. rewrite Hq in Hov. by injection Hov as ->.
  - apply orb_false_iff in E as [_ E%negb_false_iff%bool_decide_eq_true]. rewrite E in He. destruct He as (p & Hp & Hpok).
    exists db, o, p. split_and!; try done. unfold objval in Hv. rewrite Hp in Hv. by injection Hv as ->.
Qed.

(** The new text of such an object. *)
Lemma rewrite_raw n db m k o p p' x w : shows n now db m -> 0 <= n -> m !! k = Some (x, w) -> raw_at db k o p ->
  sds_ok p' -> Z.of_nat (length (sdsval p')) <= STRING_MAX ->
  exists db', write_value db k (with_ptr o (PtrSds p')) = Ok db' /\ shows n now db' (<[k := (VString (sdsval p'), w)]> m).
Proof.
  intros Hs Hn Hm (Hk & Ho & He & _) Hp Hl. pose proof Ho as (? & ? & _).
  destruct (put_old n db m k (with_ptr o (PtrSds p')) (sdsval p') o x w) as [_ (db' & -> & Hs' & _)]; try done; [|by eauto].
  split; [done|]. split; [done|]. cbn. rewrite He. eauto.
Qed.

Lemma length_ok c size : size <= STRING_MAX ->
  checkStringLength junk sdsZmallocSize embeddedSize client_obuf_limits unixtime c size = Ok (c, true).
Proof. intros H. unfold checkStringLength. by destruct (Z.gtb_spec size STRING_MAX); [lia|]. Qed.

Lemma length_wrong c size : STRING_MAX < size -> ready' 3 (q_out c) ->
  exists out, checkStringLength junk sdsZmallocSize embeddedSize client_obuf_limits unixtime c size = Ok (with_out c out, false) /\
    replied' 3 (q_out c) too_long out.
Proof.
  intros H Hr. unfold checkStringLength. destruct (Z.gtb_spec size STRING_MAX); [|lia].
  destruct (error_replies c (str "string exceeds maximum allowed size (512MB)") Hr) as (out & -> & Hout); [done|].
  rewrite bind_ok. by exists out.
Qed.

Lemma append_does n s c cmd key val k v m : shows n now (s_db s) m -> 1 <= n -> q_argv c = [cmd; key; val] ->
  is_arg k key -> is_arg v val -> ready' 3 (q_out c) ->
  let '(m', reply) := append_spec m k v in
  does (n - 1) 3 (q_out c) m' reply (appendCommand junk sdsZmallocSize embeddedSize client_obuf_limits unixtime shareable en s c).
Proof.
  intros Hs Hn Ha Hk Hval Hr. assert (ready' 1 (q_out c)) as Hr1 by (by apply (ready_le _ _ 3)).
  unfold appendCommand, arg. rewrite Ha. cbn [lookup list_lookup]. rewrite bind_ok, (is_arg_key k) by done. rewrite bind_ok.
  destruct (write_lookup n (s_db s) m k Hs) as (db & r & -> & Hs1 & Hf & Hv & Hfind). rewrite bind_ok.
  pose proof Hval as ([Hso _] & Hvv & Hvl). unfold append_spec. unfold STRING_MAX in Hvl.
  assert (shows (n - 1) now (s_db (with_db s db)) m) as Hs1' by (eapply shows_le; [|exact Hs1]; lia).
  destruct Hfind as [Hm|o t w Hm Ho Hov Hl|o w Hm Ht]; rewrite Hm.
  - rewrite bind_ok. destruct (tryObjectEncoding_ok junk shareable val Hso) as (o & -> & Ho & Hov). rewrite bind_ok.
    rewrite Hvv in Hov. destruct (incrRefCount_ok o Ho) as [Ho' Hov']. rewrite Hov in Hov'.
    destruct (put_new n db m k (incrRefCount o) v) as (db' & -> & Hs2 & _); try done; [lia|]. rewrite bind_ok.
    rewrite (stringObjectLen_ok o v) by done. rewrite bind_ok.
    eapply does_reply; [by apply shows_modified|apply longlong_replies; [done|]|done|lia]. unfold LLONG_MIN, LLONG_MAX. lia.
  - rewrite type_ok by done. rewrite !bind_ok, Ha. cbn [lookup list_lookup]. rewrite bind_ok.
    destruct (is_arg_sds v val Hval) as (q & Hq & Hqok & Hqv & Hql). rewrite (obj_sds_ok val q) by done. rewrite bind_ok.
    rewrite (stringObjectLen_ok o t) by done. rewrite bind_ok, Hql. unfold STRING_MAX in Hl.
    rewrite u64_small, s64_small by lia. destruct (Z.gtb_spec (Z.of_nat (length t) + Z.of_nat (length v)) STRING_MAX) as [Hbig|Hfit].
    + destruct (length_wrong c (Z.of_nat (length t) + Z.of_nat (length v)) ltac:(lia) Hr) as (out & -> & Hout). rewrite bind_ok.
      by exists (with_db s db), (with_out c out).
    + rewrite length_ok by lia. rewrite bind_ok. cbn [negb].
      destruct (unshare_ok n db m k o t w) as (db' & o' & p & -> & Hs2 & Hraw & Hp); try done; [lia|]. rewrite bind_ok.
      pose proof Hraw as (_ & _ & _ & Hop & Hpok). rewrite (obj_sds_ok o' p) by done. rewrite bind_ok.
      pose proof (sdsval_length p Hpok) as Hpl. rewrite Hp in Hpl. pose proof (sds_ok_mem q Hqok). pose proof (sds_ok_len q Hqok).
      unfold sdslen in Hql. destruct (sdscatlen_ok junk p (sds_mem q) (Z.of_nat (length v)) Hpok) as (p' & -> & Hp' & Hpv'); [lia..|]. rewrite bind_ok.
      assert (sdsval p' = t ++ v) as Hpv by (rewrite Hpv', Hp, <- Hql; f_equal; exact Hqv).
      destruct (rewrite_raw n db' m k o' p p' (VString t) w) as (db2 & -> & Hs3); try done; [lia|rewrite Hpv, length_app; lia|].
      rewrite bind_ok. rewrite Hpv in Hs3. unfold sdslen. rewrite <- (sdsval_length p' Hp'), Hpv, length_app, Nat2Z.inj_add.
      eapply does_reply; [apply shows_modified; eapply shows_le; [|done]; lia|apply longlong_replies; [done|]|done|lia].
      unfold LLONG_MIN, LLONG_MAX. lia.
  - rewrite type_wrong by done. destruct (wrong_replies c Hr1) as (out & -> & Hout). rewrite !bind_ok.
    exists (with_db s db), (with_out c out). split_and!; try done. by apply (replied_le _ _ 1).
Qed.

(** Bytes written inside a string. *)
Lemma sds_overwrite p off (d : bytes) : sds_ok p -> Z.of_nat (off + length d) <= sds_len p ->
  exists mem, mwrite (sds_mem p) off d = Ok mem /\ sds_ok (set_mem p mem) /\
    sdsval (set_mem p mem) = take off (sdsval p) ++ d ++ drop (off + length d) (sdsval p).
Proof.
  intros Hp Hl. pose proof (sds_ok_len p Hp). pose proof (sds_ok_mem p Hp). rewrite mwrite_ok by lia.
  eexists. split; [done|]. destruct Hp as [H1 H2 H3 H4]. split.
  - split; unfold sdsalloc, set_mem in *; cbn in *; try done.
    + rewrite !length_app, length_take, length_drop. destruct (sds_type p); lia.
    + rewrite lookup_app_r by (rewrite length_take; lia). rewrite lookup_app_r by (rewrite length_take; lia).
      rewrite lookup_drop, length_take. rewrite <- H4. f_equal. lia.
  - unfold sdsval, set_mem. cbn. rewrite take_app_ge by (rewrite length_take; lia). rewrite take_app_ge by (rewrite length_take; lia).
    rewrite take_take, length_take. f_equal; [f_equal; lia|]. f_equal. rewrite skipn_firstn_comm. f_equal. lia.
Qed.

Lemma overlay_grow s o v : let t := s ++ replicate (o + length v - length s) 0 in
  take o t ++ v ++ drop (o + length v) t = overlay s o v.
Proof.
  cbv zeta. unfold overlay. f_equal; [|f_equal].
  - destruct (decide (o <= length s)%nat).
    + by rewrite !take_app_le by lia.
    + rewrite !take_app_ge by lia. f_equal. rewrite !take_replicate. f_equal. lia.
  - destruct (decide (length s <= o + length v)%nat).
    + rewrite drop_app_ge by lia. rewrite drop_replicate. rewrite (drop_ge s) by lia.
      replace (_ - _ - _)%nat with 0%nat by lia. done.
    + replace (o + length v - length s)%nat with 0%nat by lia. by rewrite app_nil_r.
Qed.

Lemma overlay_length s o v : length (overlay s o v) = Nat.max (length s) (o + length v).
Proof. unfold overlay. rewrite !length_app, length_take, length_app, length_replicate, length_drop. lia. Qed.

Lemma overlay_zeros o v : overlay (replicate (o + length v) 0) o v = overlay [] o v.
Proof. rewrite <- (overlay_grow []), <- overlay_grow, length_replicate. cbv zeta. cbn [length app]. rewrite Nat.sub_diag, Nat.sub_0_r, app_nil_r. done. Qed.

Lemma setrange_write_does n s c db m k o p t w q v offset : shows n now db m -> 0 <= n -> m !! k = Some (VString t, w) ->
  raw_at db k o p -> sdsval p = t -> Z.of_nat (length t) <= STRING_MAX ->
  sds_ok q -> sdsval q = v -> v <> [] -> 0 <= offset -> offset + Z.of_nat (length v) <= STRING_MAX -> ready' 3 (q_out c) ->
  does n 3 (q_out c) (<[k := (VString (overlay t (Z.to_nat offset) v), w)]> m)
    (int_reply (Z.of_nat (length (overlay t (Z.to_nat offset) v))))
    (setrange_write junk sdsZmallocSize embeddedSize client_obuf_limits unixtime s c db k o offset q).
Proof.
  intros Hs Hn Hm Hraw Ht Htl Hq Hqv Hne Ho Hl Hr. unfold setrange_write, sdslen.
  pose proof (sdsval_length q Hq) as Hql. rewrite Hqv in Hql. rewrite <- Hql.
  assert (0 < length v)%nat by (destruct v; [done|cbn; lia]). unfold STRING_MAX in *.
  destruct (Z.gtb_spec (Z.of_nat (length v)) 0); [|lia]. pose proof Hraw as (_ & _ & _ & Hop & Hpok).
  rewrite (obj_sds_ok o p) by done. rewrite bind_ok, u64_small by lia.
  destruct (sdsgrowzero_ok junk p (offset + Z.of_nat (length v)) Hpok) as (p1 & -> & Hp1 & Hv1); [lia|]. rewrite bind_ok.
  pose proof (sds_ok_mem q Hq). pose proof (sds_ok_len q Hq). rewrite mread_ok by lia. rewrite bind_ok, drop_0.
  assert (take (Z.to_nat (Z.of_nat (length v))) (sds_mem q) = v) as -> by (rewrite <- Hqv at 2; unfold sdsval; f_equal; lia).
  pose proof (sdsval_length p Hpok) as Hpl. rewrite Ht in Hpl. pose proof (sdsval_length p1 Hp1) as Hpl1.
  rewrite Hv1, Ht, length_app, length_replicate in Hpl1.
  destruct (sds_overwrite p1 (Z.to_nat offset) v Hp1) as (mem & -> & Hp2 & Hv2); [lia|]. rewrite bind_ok. cbv zeta.
  assert (sdsval (set_mem p1 mem) = overlay t (Z.to_nat offset) v) as Hov.
  { rewrite Hv2, Hv1, Ht, <- overlay_grow. cbv zeta. rewrite <- Hpl.
    by replace (Z.to_nat (offset + Z.of_nat (length v) - Z.of_nat (length t))) with (Z.to_nat offset + length v - length t)%nat by lia. }
  destruct (rewrite_raw n db m k o p (set_mem p1 mem) (VString t) w) as (db2 & -> & Hs3); try done.
  { rewrite Hov, overlay_length. unfold STRING_MAX. lia. }
  rewrite bind_ok. rewrite Hov in Hs3.
  replace (sds_len (set_mem p1 mem)) with (Z.of_nat (length (overlay t (Z.to_nat offset) v)))
    by (rewrite <- Hov; by apply sdsval_length).
  eapply does_reply; [by apply shows_modified|apply longlong_replies; [by apply (ready_le _ _ 3)|]|done|lia].
  rewrite overlay_length. unfold LLONG_MIN, LLONG_MAX. lia.
Qed.

Lemma setrange_does n s c cmd key off val k a v m : shows n now (s_db s) m -> 1 <= n -> q_argv c = [cmd; key; off; val] ->
  is_arg k key -> is_arg a off -> is_arg v val -> ready' 3 (q_out c) ->
  (forall o, string2ll a = Some o -> o + Z.of_nat (length v) <= LLONG_MAX) ->
  let '(m', reply) := setrange_spec m k a v in
  does (n - 1) 3 (q_out c) m' reply (setrangeCommand junk sdsZmallocSize embeddedSize client_obuf_limits unixtime en s c).
Proof.
  intros Hs Hn Ha Hk Hoff Hval Hr Hnowrap. assert (ready' 1 (q_out c)) as Hr1 by (by apply (ready_le _ _ 3)).
  assert (shows (n - 1) now (s_db s) m) as Hs0 by (eapply shows_le; [|exact Hs]; lia).
  unfold setrangeCommand, arg. rewrite Ha. cbn [lookup list_lookup]. rewrite bind_ok.
  destruct (is_arg_sds v val Hval) as (q & Hq & Hqok & Hqv & Hql). rewrite (obj_sds_ok val q) by done. rewrite !bind_ok.
  pose proof (long_reads c off a Hoff Hr) as H1. unfold reads in H1. unfold setrange_spec.
  destruct (string2ll a) as [o|] eqn:Eo.
  2:{ destruct H1 as (out & -> & Hout). rewrite bind_ok. by apply does_read_error. }
  rewrite H1, bind_ok. specialize (Hnowrap o eq_refl). destruct (Z.ltb_spec o 0) as [Hneg|Hpos].
  { eapply does_reply; [exact Hs0|by apply error_replies|done|lia]. }
  rewrite Ha. cbn [lookup list_lookup]. rewrite bind_ok, (is_arg_key k) by done. rewrite bind_ok.
  destruct (write_lookup n (s_db s) m k Hs) as (db & r & -> & Hs1 & Hf & Hv & Hfind). rewrite bind_ok.
  assert (shows (n - 1) now (s_db (with_db s db)) m) as Hs1' by (eapply shows_le; [|exact Hs1]; lia).
  rewrite Hql. unfold LLONG_MAX in Hnowrap. rewrite u64_small, s64_small by lia.
  replace (bool_decide (v = [])) with (Z.of_nat (length v) =? 0)
    by (destruct v; [done|rewrite bool_decide_eq_false_2 by done; apply Z.eqb_neq; cbn; lia]).
  destruct Hfind as [Hm|obj t w Hm Ho Hov Hl|obj w Hm Ht]; rewrite Hm.
  - destruct (Z.eqb_spec (Z.of_nat (length v)) 0) as [E|E].
    { eapply does_reply; [exact Hs1'|by apply shared_replies|done|lia]. }
    destruct (Z.gtb_spec (o + Z.of_nat (length v)) STRING_MAX) as [Hbig|Hfit].
    { destruct (length_wrong c (o + Z.of_nat (length v)) ltac:(lia) Hr) as (out & -> & Hout). rewrite bind_ok.
      by exists (with_db s db), (with_out c out). }
    rewrite length_ok by lia. rewrite bind_ok. cbn [negb].
    destruct (sdsnewlen_none junk (o + Z.of_nat (length v))) as (p & -> & Hpok & Hpv); [lia|]. rewrite bind_ok. cbv zeta.
    assert (strobj_ok (createObject OBJ_STRING p)) as Ho by (split; [done|]; split; [cbn; lia|]; cbn; eauto).
    assert (length (sdsval p) = Z.to_nat o + length v)%nat as Hplen by (rewrite Hpv, length_replicate; lia).
    unfold STRING_MAX in *.
    destruct (put_new n db m k (createObject OBJ_STRING p) (sdsval p)) as (db' & -> & Hs2 & Hk2); try done; [lia|unfold STRING_MAX; lia|].
    rewrite bind_ok. replace (overlay [] (Z.to_nat o) v) with (overlay (sdsval p) (Z.to_nat o) v)
      by (rewrite Hpv, <- overlay_zeros; f_equal; f_equal; lia).
    rewrite <- (insert_insert_eq m k (VString (overlay (sdsval p) (Z.to_nat o) v), None) (VString (sdsval p), None)).
    eapply (setrange_write_does (n - 1)); try done; [lia|by rewrite lookup_insert_eq|unfold STRING_MAX; lia|by intros ->].
  - rewrite type_ok by done. rewrite bind_ok, (stringObjectLen_ok obj t) by done. rewrite bind_ok.
    destruct (Z.eqb_spec (Z.of_nat (length v)) 0) as [E|E].
    { eapply does_reply; [exact Hs1'|apply longlong_replies; [done|]|done|lia]. unfold STRING_MAX, LLONG_MIN, LLONG_MAX in *. lia. }
    destruct (Z.gtb_spec (o + Z.of_nat (length v)) STRING_MAX) as [Hbig|Hfit].
    { destruct (length_wrong c (o + Z.of_nat (length v)) ltac:(lia) Hr) as (out & -> & Hout). rewrite bind_ok.
      by exists (with_db s db), (with_out c out). }
    rewrite length_ok by lia. rewrite bind_ok. cbn [negb].
    destruct (unshare_ok n db m k obj t w) as (db' & o' & p & -> & Hs2 & Hraw & Hp); try done; [lia|]. rewrite bind_ok.
    eapply (setrange_write_does (n - 1)); try done; [eapply shows_le; [|done]; lia|lia|by intros ->].
  - rewrite type_wrong by done. destruct (wrong_replies c Hr1) as (out & -> & Hout). rewrite !bind_ok.
    exists (with_db s db), (with_out c out). split_and!; try done. by apply (replied_le _ _ 1).
Qed.

(** *** Stores *)

(** The object and the unit of an expire argument. *)
Definition is_expire (e : option (bytes * time_unit)) (o : option robj) (unit : time_unit) : Prop :=
  match e, o with
  | None, None => True
  | Some (t, u), Some o => is_arg t o /\ u = unit
  | _, _ => False
  end.

(** The expire time is a 64-bit number. *)
Definition expire_fits (e : option (bytes * time_unit)) : Prop :=
  forall t u n, e = Some (t, u) -> string2ll t = Some n ->
  now + milliseconds u n <= LLONG_MAX.

Lemma expire_time_ok name c e o unit : error_format (str "invalid expire time in " ++ name) = str "invalid expire time in " ++ name ->
  Z.of_nat (length name) < 2 ^ 62 ->
  is_expire e o unit -> expire_fits e -> 0 <= now -> ready' 3 (q_out c) ->
  match expire_spec now name e with
  | inr None => o = None /\ e = None
  | inr (Some w) => now <= w <= LLONG_MAX /\ is_some o = true /\
      exists ms, set_expire_time junk sdsZmallocSize embeddedSize client_obuf_limits unixtime name c o unit = Ok (c, Some ms) /\ w = now + ms
  | inl reply => exists out, set_expire_time junk sdsZmallocSize embeddedSize client_obuf_limits unixtime name c o unit
                               = Ok (with_out c out, None) /\ replied' 3 (q_out c) reply out
  end.
Proof.
  intros Hname Hnl He Hfit Hnow Hr. unfold expire_spec, set_expire_time. destruct e as [[t u]|], o as [o|]; try done.
  destruct He as [Ho ->]. pose proof (longlong_reads_arg c o t Ho Hr) as H1. unfold reads in H1. pose proof (Hfit t unit) as Hf.
  destruct (string2ll t) as [n|].
  - rewrite H1, bind_ok. specialize (Hf n eq_refl eq_refl). destruct (Z.leb_spec n 0).
    + rewrite Hname. destruct (error_replies c (str "invalid expire time in " ++ name) Hr) as (out & -> & Hout).
      { rewrite length_app. cbn [length str]. lia. }
      rewrite bind_ok. by exists out.
    + unfold LLONG_MAX, milliseconds in *. destruct unit; (split; [lia|]); (split; [done|]); eexists; (split; [reflexivity|]); [|done].
      rewrite s64_small; lia.
  - destruct H1 as (out & -> & Hout). rewrite bind_ok. by exists out.
Qed.

Lemma set_generic_does n s c name flags key val k v e eo unit nx xx yes no m :
  shows n now (s_db s) m -> 1 <= n -> is_arg k key -> strobj_ok val -> objval val = Some v -> Z.of_nat (length v) <= STRING_MAX ->
  error_format (str "invalid expire time in " ++ name) = str "invalid expire time in " ++ name -> Z.of_nat (length name) < 2 ^ 62 ->
  is_expire e eo unit -> expire_fits e -> 0 <= now -> ready' 3 (q_out c) ->
  Z.testbit flags OBJ_SET_NX = nx -> Z.testbit flags OBJ_SET_XX = xx ->
  Z.of_nat (length (default ok_reply yes)) < 2 ^ 63 -> Z.of_nat (length (default nil_reply no)) < 2 ^ 63 ->
  let '(m', reply) := set_spec now m name k v nx xx e (default ok_reply yes) (default nil_reply no) in
  does (n - 1) 3 (q_out c) m' reply
    (setGenericCommand junk sdsZmallocSize embeddedSize client_obuf_limits unixtime en name s c flags key val eo unit yes no).
Proof.
  intros Hs Hn Hk Ho Hv Hl Hname Hnl He Hfit Hnow Hr Hnx Hxx Hyes Hno. assert (ready' 1 (q_out c)) as Hr1 by (by apply (ready_le _ _ 3)).
  unfold setGenericCommand, set_spec. pose proof (expire_time_ok name c e eo unit Hname Hnl He Hfit Hnow Hr) as H1.
  destruct (expire_spec now name e) as [reply|w].
  { destruct H1 as (out & -> & Hout). rewrite bind_ok. exists s, (with_out c out). split_and!; try done. eapply shows_le; [|done]; lia. }
  assert (exists ms, set_expire_time junk sdsZmallocSize embeddedSize client_obuf_limits unixtime name c eo unit = Ok (c, Some ms) /\
    match eo with Some _ => exists w', w = Some w' /\ w' = now + ms /\ now <= w' <= LLONG_MAX | None => w = None end) as (ms & -> & Hw).
  { destruct w as [w|]; [destruct H1 as (? & Hsome & ms & -> & ->); exists ms; destruct eo; [|done]; split; eauto|].
    destruct H1 as [-> ->]. by exists 0. }
  rewrite bind_ok, (is_arg_key k) by done. rewrite bind_ok. unfold set_refused. rewrite Hnx, Hxx.
  assert (exists db, (('(db, r) ← if nx then '(db, o) ← lookupKeyWrite en (s_db s) k; Ok (db, is_some o) else Ok (s_db s, false);
     if (r : bool) then Ok (db, true) else
     if xx then '(db, o) ← lookupKeyWrite en db k; Ok (db, negb (is_some o)) else Ok (db, false))
    = Ok (db, nx && is_some (m !! k) || xx && negb (is_some (m !! k)))) /\ shows n now db m) as (db & -> & Hs1).
  { assert (forall db, shows n now db m -> exists db' r, lookupKeyWrite en db k = Ok (db', r) /\ shows n now db' m /\ is_some r = is_some (m !! k)) as HL.
    { intros db0 Hs0. destruct (write_lookup n db0 m k Hs0) as (db' & r & E & Hs' & _ & _ & Hf). exists db', r. split_and!; try done.
      destruct Hf as [Hm|? ? ? Hm|? ? Hm]; by rewrite Hm. }
    assert (exists db, (if nx then '(db, o) ← lookupKeyWrite en (s_db s) k; Ok (db, is_some o) else Ok (s_db s, false))
      = Ok (db, nx && is_some (m !! k)) /\ shows n now db m) as (db & -> & Hs1).
    { destruct nx; [|by exists (s_db s)]. destruct (HL _ Hs) as (db' & r & -> & Hs' & Hr'). rewrite bind_ok, Hr'. by exists db'. }
    rewrite bind_ok. destruct (nx && is_some (m !! k)); [by exists db|]. destruct xx; [|by exists db].
    destruct (HL _ Hs1) as (db' & r & -> & Hs' & Hr'). rewrite bind_ok, Hr'. by exists db'. }
  rewrite bind_ok. destruct (_ || _).
  { eapply (does_reply _ _ _ _ c); [|by apply shared_replies|done|lia]. cbn. eapply shows_le; [|done]; lia. }
  destruct (set_key n db m k val v Hs1) as (db1 & -> & Hs2); [lia|done..|]. rewrite bind_ok.
  assert (exists db2, match eo with Some _ => setExpire db1 k (s64 (now + ms)) | None => Ok db1 end = Ok db2 /\
    shows (n - 1) now db2 (<[k := (VString v, w)]> m)) as (db2 & -> & Hs3).
  { destruct eo as [x|]; [|subst w; by exists db1]. destruct Hw as (w' & -> & Hw' & Hb). unfold LLONG_MAX in Hb.
    rewrite s64_small by lia. rewrite <- Hw'.
    rewrite <- (insert_insert_eq m k (VString v, Some w') (VString v, None)).
    eapply (expire_key (n - 1)); [done|lia|by rewrite lookup_insert_eq|lia|lia]. }
  rewrite bind_ok. eapply (does_reply _ _ _ _ c); [|by apply shared_replies|done|lia]. cbn.
  destruct eo; by repeat apply shows_emit.
Qed.

(** The flags of SET as the specification keeps them. *)
Definition flags_ok (flags : Z) (nx xx : bool) (e : option (bytes * time_unit)) : Prop :=
  Z.testbit flags OBJ_SET_NX = nx /\ Z.testbit flags OBJ_SET_XX = xx /\
  Z.testbit flags OBJ_SET_EX = (match e with Some (_, UNIT_SECONDS) => true | _ => false end) /\
  Z.testbit flags OBJ_SET_PX = (match e with Some (_, UNIT_MILLISECONDS) => true | _ => false end).

Lemma is_arg_cstr v o : is_arg v o -> obj_cstr o = Ok (cstr v).
Proof.
  intros Ho. destruct (is_arg_sds v o Ho) as (s & Hp & Hok & Hv & _). unfold obj_cstr. rewrite (obj_sds_ok o s) by done. rewrite bind_ok.
  destruct (sds_mem_split s Hok) as [t ->]. rewrite Hv. f_equal. clear.
  induction v as [|b v IH]; [done|]. cbn. destruct (b =? 0); [done|]. by rewrite IH.
Qed.

Lemma set_options_ok n : forall args objs flags eo unit nx xx e, (length args <= n)%nat -> Forall2 is_arg args objs ->
  flags_ok flags nx xx e -> is_expire e eo unit ->
  match options_spec args nx xx e with
  | None => set_options objs flags eo unit = Ok None
  | Some (nx', xx', e') => exists flags' eo' unit', set_options objs flags eo unit = Ok (Some (flags', eo', unit')) /\
      flags_ok flags' nx' xx' e' /\ is_expire e' eo' unit'
  end.
Proof.
  induction n as [|n IH]; intros args objs flags eo unit nx xx e Hn HF Hfl He;
    (destruct HF as [|a o args objs Ha HF]; [by exists flags, eo, unit|]); cbn [length] in Hn; [lia|].
  cbn [options_spec set_options]. rewrite (is_arg_cstr a) by done. rewrite bind_ok. cbv zeta.
  pose proof Hfl as (F1 & F2 & F3 & F4). rewrite F2.
  destruct (is_option (cstr a) 110 && negb xx).
  { apply IH; [lia|done| |done]. unfold flags_ok. rewrite !Z.setbit_eqb by done. by rewrite F2, F3, F4. }
  rewrite F1. destruct (is_option (cstr a) 120 && negb nx).
  { apply IH; [lia|done| |done]. unfold flags_ok. rewrite !Z.setbit_eqb by done. by rewrite F1, F3, F4. }
  destruct HF as [|t ot args objs Ht HF]; [by destruct e as [[? []]|]|]. rewrite F3, F4. cbn [length] in Hn.
  destruct e as [[? []]|]; cbn [negb]; rewrite ?andb_true_r, ?andb_false_r; destruct (is_option (cstr a) 101) eqn:E1; try done;
    try (destruct (is_option (cstr a) 112) eqn:E2; [|done]);
    (apply IH; [lia|done|unfold flags_ok; rewrite !Z.setbit_eqb by done; by rewrite F1, F2, ?F3, ?F4|done]).
Qed.

Lemma encode_ok v o : is_arg v o -> exists o', tryObjectEncoding junk shareable o = Ok o' /\ strobj_ok o' /\ objval o' = Some v.
Proof.
  intros ([Ho _] & Hv & _). destruct (tryObjectEncoding_ok junk shareable o Ho) as (o' & E & Ho' & Hv').
  exists o'. by rewrite Hv', Hv.
Qed.

Lemma set_does n s c cmd key val rest k v opts m : shows n now (s_db s) m -> 1 <= n -> q_argv c = cmd :: key :: val :: rest ->
  is_arg k key -> is_arg v val -> Forall2 is_arg opts rest -> 0 <= now -> ready' 3 (q_out c) ->
  (forall nx xx e, options_spec opts false false None = Some (nx, xx, e) -> expire_fits e) ->
  let '(m', reply) := kspec now m (Set_ k v opts) in
  does (n - 1) 3 (q_out c) m' reply (setCommand junk sdsZmallocSize embeddedSize client_obuf_limits unixtime shareable en s c).
Proof.
  intros Hs Hn Ha Hk Hval Hopts Hnow Hr Hfit. unfold setCommand. rewrite Ha. change (drop 3 (cmd :: key :: val :: rest)) with rest. cbn [kspec].
  pose proof (set_options_ok (length opts) opts rest 0 None UNIT_SECONDS false false None) as H1.
  destruct (options_spec opts false false None) as [[[nx xx] e]|].
  - destruct H1 as (flags & eo & unit & -> & (F1 & F2 & _) & He); [done|done|done|done|]. rewrite bind_ok. unfold arg. rewrite Ha.
    cbn [lookup list_lookup]. rewrite bind_ok. destruct (encode_ok v val Hval) as (o & -> & Ho & Hov). rewrite bind_ok. cbv zeta.
    cbn [set_arg q_argv]. rewrite Ha. cbn [insert list_insert lookup list_lookup]. rewrite bind_ok. pose proof Hval as (_ & _ & Hl).
    by apply (set_generic_does n s (set_arg c 2 o) (str "set") flags key o k v e eo unit nx xx None None m); try (by eapply Hfit).
  - rewrite H1, bind_ok by done. eapply does_reply; [eapply shows_le; [|exact Hs]; lia|apply shared_replies; [by apply (ready_le _ _ 3)|done]|done|lia].
Qed.

Lemma setnx_does n s c cmd key val k v m : shows n now (s_db s) m -> 1 <= n -> q_argv c = [cmd; key; val] ->
  is_arg k key -> is_arg v val -> 0 <= now -> ready' 3 (q_out c) ->
  let '(m', reply) := kspec now m (Setnx k v) in
  does (n - 1) 3 (q_out c) m' reply (setnxCommand junk sdsZmallocSize embeddedSize client_obuf_limits unixtime shareable en s c).
Proof.
  intros Hs Hn Ha Hk Hval Hnow Hr. unfold setnxCommand, arg. rewrite Ha. cbn [lookup list_lookup]. rewrite bind_ok.
  destruct (encode_ok v val Hval) as (o & -> & Ho & Hov). rewrite bind_ok. cbv zeta.
  cbn [set_arg q_argv]. rewrite Ha. cbn [insert list_insert lookup list_lookup]. rewrite bind_ok. pose proof Hval as (_ & _ & Hl).
  by apply (set_generic_does n s (set_arg c 2 o) (str "setnx") _ key o k v None None UNIT_SECONDS true false
    (Some (int_reply 1)) (Some (int_reply 0)) m).
Qed.

Lemma setex_does n s c cmd key t val k a v m : shows n now (s_db s) m -> 1 <= n -> q_argv c = [cmd; key; t; val] ->
  is_arg k key -> is_arg a t -> is_arg v val -> 0 <= now -> ready' 3 (q_out c) ->
  (expire_fits (Some (a, UNIT_SECONDS)) ->
   let '(m', reply) := kspec now m (Setex k a v) in
   does (n - 1) 3 (q_out c) m' reply (setexCommand junk sdsZmallocSize embeddedSize client_obuf_limits unixtime shareable en s c)) /\
  (expire_fits (Some (a, UNIT_MILLISECONDS)) ->
   let '(m', reply) := kspec now m (Psetex k a v) in
   does (n - 1) 3 (q_out c) m' reply (psetexCommand junk sdsZmallocSize embeddedSize client_obuf_limits unixtime shareable en s c)).
Proof.
  intros Hs Hn Ha Hk Ht Hval Hnow Hr. unfold setexCommand, psetexCommand, arg. rewrite Ha. cbn [lookup list_lookup]. rewrite !bind_ok.
  destruct (encode_ok v val Hval) as (o & -> & Ho & Hov). rewrite !bind_ok. cbv zeta.
  cbn [set_arg q_argv]. rewrite Ha. cbn [insert list_insert lookup list_lookup]. rewrite !bind_ok. pose proof Hval as (_ & _ & Hl).
  split; intros Hfit.
  - by apply (set_generic_does n s (set_arg c 3 o) (str "setex") 0 key o k v (Some (a, UNIT_SECONDS)) (Some t) UNIT_SECONDS false false None None m).
  - by apply (set_generic_does n s (set_arg c 3 o) (str "psetex") 0 key o k v (Some (a, UNIT_MILLISECONDS)) (Some t) UNIT_MILLISECONDS false false None None m).
Qed.

Lemma getset_does n s c cmd key val k v m : shows n now (s_db s) m -> 1 <= n -> q_argv c = [cmd; key; val] ->
  is_arg k key -> is_arg v val -> ready' 3 (q_out c) ->
  let '(m', reply) := kspec now m (Getset k v) in
  does (n - 1) 3 (q_out c) m' reply (getsetCommand junk sdsZmallocSize embeddedSize client_obuf_limits unixtime shareable en s c).
Proof.
  intros Hs Hn Ha Hk Hval Hr. unfold getsetCommand. cbn [kspec].
  destruct (get_generic n s c key k m Hs) as (db & out & -> & Hs1 & Hout); [by rewrite Ha|done..|]. rewrite bind_ok.
  assert (forall x : bool, (let '(m', reply) := if x then (<[k := (VString v, None)]> m, get_spec m k) else (m, get_spec m k) in
    does (n - 1) 3 (q_out c) m' reply (if negb x then Ok (with_db s db, with_out c out) else
      v ← arg (with_out c out) 2; v ← tryObjectEncoding junk shareable v;
      let c := set_arg (with_out c out) 2 v in
      key ← arg c 1; k ← obj_key key; db ← setKey en (s_db (with_db s db)) k v;
      Ok (mkSession (emit db (EvNotify (str "set") k)) (s_dirty (with_db s db) + 1) (s_last_error (with_db s db))
        (s_last_reply (with_db s db)) (s_queued (with_db s db)) (s_watched s) (s_watching s), c)))) as H.
  { intros []; cbn [negb].
    - unfold arg. cbn [with_out q_argv]. rewrite Ha. cbn [lookup list_lookup]. rewrite bind_ok.
      destruct (encode_ok v val Hval) as (o & -> & Ho & Hov). rewrite bind_ok. cbv zeta.
      cbn [set_arg with_out q_argv]. rewrite Ha. cbn [insert list_insert lookup list_lookup]. rewrite bind_ok, (is_arg_key k) by done.
      rewrite bind_ok. pose proof Hval as (_ & _ & Hl). destruct (set_key n db m k o v Hs1) as (db1 & E & Hs2); [lia|done..|].
      cbn [with_db s_db]. rewrite E, bind_ok. eexists _, _. split; [reflexivity|]. split; [by apply shows_emit|done].
    - exists (with_db s db), (with_out c out). split_and!; try done. eapply shows_le; [|done]; lia. }
  specialize (H (match m !! k with Some (VOther _, _) => false | _ => true end)). revert H. unfold get_spec.
  destruct (m !! k) as [[[] ?]|]; by intros H.
Qed.

(** *** Several keys *)

Lemma replied_refl o : ready' 0 o -> replied' 0 o [] o.
Proof.
  intros (Ho & _). split; [done|]. rewrite app_nil_r. split; [by destruct (takes_replies o)|].
  split; [by split|]. split; [lia|]. intros _ _ _ H. by right.
Qed.

Lemma mget_loop_ok n m : forall ks objs db c, Forall2 is_arg ks objs -> shows n now db m ->
  ready' (3 * Z.of_nat (length ks)) (q_out c) ->
  exists db' out, mget_loop junk sdsZmallocSize embeddedSize client_obuf_limits unixtime en db c objs = Ok (db', with_out c out) /\
    shows n now db' m /\ replied' (3 * Z.of_nat (length ks)) (q_out c)
      (concat ((fun k => match m !! k with Some (VString s, _) => bulk s | _ => nil_reply end) <$> ks)) out.
Proof.
  induction ks as [|k ks IH]; intros objs db c HF Hs Hr; inversion HF as [|? o ? objs' Hk HF']; subst; cbn [mget_loop].
  { exists db, (q_out c). split; [by destruct c|]. split; [done|]. by apply replied_refl. }
  rewrite (is_arg_key k) by done. rewrite bind_ok. cbn [length fmap list_fmap concat] in *.
  destruct (read_lookup n db m k Hs) as (db1 & r & -> & Hs1 & Hf). rewrite bind_ok.
  assert (exists out, (match r with
    | None => add_shared' c (str "$-1" ++ crlf)
    | Some o => if negb (bool_decide (o_type o = OBJ_STRING)) then add_shared' c (str "$-1" ++ crlf) else add_bulk' c o end) = Ok (with_out c out) /\
    replied' 3 (q_out c) (match m !! k with Some (VString s, _) => bulk s | _ => nil_reply end) out) as (out & -> & Hout).
  { assert (exists out, add_shared' c (str "$-1" ++ crlf) = Ok (with_out c out) /\ replied' 3 (q_out c) nil_reply out) as Hnil.
    { destruct (shared_replies c nil_reply) as (out & E & Hout); [eapply ready_le; [|exact Hr]; lia|done|]. exists out.
      split; [done|]. by apply (replied_le _ _ 1). }
    destruct Hf as [Hm|p s w Hm Hp Hv Hl|p w Hm Ht]; rewrite Hm; [done| |by rewrite bool_decide_eq_false_2].
    pose proof Hp as (Ht & _). rewrite bool_decide_eq_true_2 by done. cbn [negb].
    apply (bulk_replies c p s); [eapply ready_le; [|exact Hr]; lia|done|done|unfold STRING_MAX in Hl; lia]. }
  rewrite bind_ok. pose proof (replied_ready _ _ _ 3 (3 * Z.of_nat (length ks)) _ _ _ Hr Hout ltac:(lia)) as Hr1.
  destruct (IH objs' db1 (with_out c out) HF' Hs1 Hr1) as (db2 & out2 & -> & Hs2 & Hout2). exists db2, out2. split; [done|]. split; [done|].
  eapply replied_app; [exact Hout|exact Hout2|lia].
Qed.

Lemma mget_does n s c cmd objs ks m : shows n now (s_db s) m -> q_argv c = cmd :: objs -> Forall2 is_arg ks objs ->
  Z.of_nat (length ks) <= LLONG_MAX -> ready' (3 * Z.of_nat (length ks) + 1) (q_out c) ->
  does n (3 * Z.of_nat (length ks) + 1) (q_out c) m (mget_spec m ks)
    (mgetCommand junk sdsZmallocSize embeddedSize client_obuf_limits unixtime en s c).
Proof.
  intros Hs Ha HF Hl Hr. unfold mgetCommand, q_argc. pose proof (Forall2_length _ _ _ HF) as Hlen.
  rewrite Ha. cbn [length]. replace (Z.of_nat (S (length objs)) - 1) with (Z.of_nat (length ks)) by lia.
  destruct (multibulk_replies c (Z.of_nat (length ks))) as (out & -> & Hout); [eapply ready_le; [|exact Hr]; lia|lia|]. rewrite bind_ok.
  pose proof (replied_ready _ _ _ 1 (3 * Z.of_nat (length ks)) _ _ _ Hr Hout ltac:(lia)) as Hr1.
  cbn [with_out q_argv]. rewrite Ha. change (drop 1 (cmd :: objs)) with objs.
  destruct (mget_loop_ok n m ks objs (s_db s) (with_out c out) HF Hs Hr1) as (db' & out2 & E & Hs' & Hout2).
  cbn [with_out] in E. rewrite E, bind_ok. exists (with_db s db'), (with_out c out2). split; [done|]. split; [done|].
  unfold mget_spec. rewrite !app_assoc. rewrite <- (app_assoc [42]). eapply replied_app; [exact Hout|exact Hout2|lia].
Qed.

(** The keys and values of the arguments, by two. *)
Lemma busy_keys_ok n m f : forall args objs db busy, (length args <= f)%nat -> Nat.odd (length args) = false -> Forall2 is_arg args objs ->
  shows n now db m -> 0 <= busy -> exists db' b, busy_keys en db objs busy = Ok (db', b) /\ shows n now db' m /\ 0 <= b /\
    negb (b =? 0) = negb (busy =? 0) || any_key m args.
Proof.
  induction f as [|f IH]; intros args objs db busy Hf Hodd HF Hs Hb;
    (destruct HF as [|k ok args objs Hk HF]; [exists db, busy; split_and!; try done; cbn; by rewrite orb_false_r|]); [cbn in Hf; lia|].
  destruct HF as [|v ov args objs Hv HF]; [done|]. cbn [length] in Hf, Hodd. cbn [busy_keys any_key].
  rewrite (is_arg_key k) by done. rewrite bind_ok.
  destruct (write_lookup n db m k Hs) as (db1 & r & -> & Hs1 & _ & _ & Hfd). rewrite bind_ok. cbv zeta.
  destruct (IH args objs db1 (match r with Some _ => busy + 1 | None => busy end)) as (db2 & b & -> & Hs2 & Hb2 & Hbz); try done; [lia|destruct r; lia|].
  exists db2, b. split_and!; try done. rewrite Hbz, orb_assoc. f_equal.
  destruct Hfd as [Hm|? ? ? Hm|? ? Hm]; rewrite Hm; cbn; rewrite ?orb_false_r, ?orb_true_r; try done; apply negb_true_iff, Z.eqb_neq; lia.
Qed.

Lemma mset_loop_ok f : forall n m args objs db, (length args <= f)%nat -> Nat.odd (length args) = false -> Forall2 is_arg args objs ->
  shows n now db m -> Z.of_nat (length args) <= n -> exists db' objs', mset_loop junk shareable en db objs = Ok (db', objs') /\
    shows (n - Z.of_nat (length args)) now db' (mset_spec m args).
Proof.
  induction f as [|f IH]; intros n m args objs db Hf Hodd HF Hs Hn;
    (destruct HF as [|k ok args objs Hk HF]; [exists db, []; split; [done|]; eapply shows_le; [|done]; cbn; lia|]); [cbn in Hf; lia|].
  destruct HF as [|v ov args objs Hv HF]; [done|]. cbn [length] in Hf, Hodd, Hn. cbn [mset_loop mset_spec length].
  destruct (encode_ok v ov Hv) as (o & -> & Ho & Hov). rewrite bind_ok, (is_arg_key k) by done. rewrite bind_ok.
  pose proof Hv as (_ & _ & Hl). destruct (set_key n db m k o v Hs) as (db1 & -> & Hs1); [lia|done..|]. rewrite bind_ok.
  destruct (IH (n - 1) (<[k := (VString v, None)]> m) args objs (emit db1 (EvNotify (str "set") k))) as (db2 & objs' & -> & Hs2);
    [lia|done|done|by apply shows_emit|lia|]. rewrite bind_ok. eexists _, _. split; [reflexivity|]. eapply shows_le; [|exact Hs2]. lia.
Qed.

Lemma mset_does n s c cmd objs args m (nx : bool) : shows n now (s_db s) m -> q_argv c = cmd :: objs -> Forall2 is_arg args objs ->
  Z.of_nat (length args) <= n -> ready' 3 (q_out c) ->
  let '(m', reply) := kspec now m (if nx then Msetnx args else Mset args) in
  does (n - Z.of_nat (length args)) 3 (q_out c) m' reply
    (msetGenericCommand junk sdsZmallocSize embeddedSize client_obuf_limits unixtime shareable en s c nx).
Proof.
  intros Hs Ha HF Hn Hr. assert (ready' 1 (q_out c)) as Hr1 by (by apply (ready_le _ _ 3)).
  assert (forall db, shows n now db m -> shows (n - Z.of_nat (length args)) now (s_db (with_db s db)) m) as Hle
    by (intros db H; eapply shows_le; [|exact H]; lia).
  unfold msetGenericCommand. pose proof (Forall2_length _ _ _ HF) as Hlen.
  assert ((Z.rem (q_argc c) 2 =? 0) = Nat.odd (length args)) as ->.
  { unfold q_argc. rewrite Ha, Hlen. cbn [length]. rewrite Z.rem_mod_nonneg by lia. change 2 with (Z.of_nat 2). rewrite <- Nat2Z.inj_mod.
    destruct (Nat.odd (length objs)) eqn:E.
    - apply Nat.odd_spec in E as [x ->]. replace (S (2 * x + 1)) with ((x + 1) * 2)%nat by lia. by rewrite Nat.Div0.mod_mul.
    - rewrite <- Nat.negb_even in E. apply negb_false_iff, Nat.even_spec in E as [x ->].
      replace (S (2 * x)) with (1 + x * 2)%nat by lia. by rewrite Nat.Div0.mod_add. }
  destruct (Nat.odd (length args)) eqn:Eodd.
  { destruct nx; cbn [kspec]; rewrite Eodd; (eapply does_reply; [exact (Hle _ Hs)|by apply error_replies|done|lia]). }
  rewrite Ha. change (drop 1 (cmd :: objs)) with objs.
  assert (exists db b, (if nx then busy_keys en (s_db s) objs 0 else Ok (s_db s, 0)) = Ok (db, b) /\ shows n now db m /\
    nx && negb (b =? 0) = nx && any_key m args) as (db & b & -> & Hs1 & Hb).
  { destruct nx; [|by exists (s_db s), 0]. destruct (busy_keys_ok n m (length args) args objs (s_db s) 0) as (db & b & -> & Hs1 & _ & Hb); try done.
    exists db, b. by rewrite Hb. }
  rewrite bind_ok, Hb. destruct (mset_loop_ok (length args) n m args objs db) as (db2 & objs' & E2 & Hs2); [done..|].
  destruct nx; cbn [andb kspec]; rewrite Eodd.
  - destruct (any_key m args); [eapply does_reply; [by apply Hle|by apply shared_replies|done|lia]|].
    rewrite E2, bind_ok. cbv zeta. by eapply does_reply; [|by apply shared_replies|done|].
  - rewrite E2, bind_ok. cbv zeta. by eapply does_reply; [|by apply shared_replies|done|].
Qed.
End CommandsDo.
