(* ===== verification/KeyProofs.v ===== *)
(** * The key commands do what is specified

    Each command of Keys.v leaves a database that shows the key space of
    Keyspace.v, and queues the reply of Keyspace.v. *)

From S2P Require Import Prelude CLib Util Sds Object Reply Resp Dict KeyDict SetType Db Command Strings Keys Keyspace StringProofs.
Local Open Scope Z_scope.

Section KeyCommandsDo.
Context {T : Type -> Type} `{KD : KeyDict T} `{KL : !KeyDictLaws T} `{SC : SetConfig}.
Variable junk : Z.
Variable sdsZmallocSize : sds -> Z.
Variable embeddedSize : sds -> Z.
Variable client_obuf_limits : client_type -> obuf_limits.
Variable unixtime : Z.
Hypothesis zmalloc_size : forall s, 0 <= sdsZmallocSize s < 2 ^ 48.
Hypothesis embedded_size : forall s, 0 <= embeddedSize s < 2 ^ 48.
Variable en : env.
Hypothesis master : e_masterhost en = false.
Hypothesis loaded : e_loading en = false.

#[local] Abbreviation now := (e_now en).
#[local] Abbreviation replied' := (replied sdsZmallocSize embeddedSize).
#[local] Abbreviation ready' := (ready sdsZmallocSize embeddedSize).
#[local] Abbreviation does' := (does sdsZmallocSize embeddedSize en).
#[local] Abbreviation shared_replies' := (shared_replies junk sdsZmallocSize embeddedSize client_obuf_limits unixtime zmalloc_size embedded_size).
#[local] Abbreviation longlong_replies' := (longlong_replies junk sdsZmallocSize embeddedSize client_obuf_limits unixtime zmalloc_size embedded_size).

Lemma finds_some m k r : finds m k r -> is_some r = is_some (m !! k).
Proof. intros []; by match goal with H : m !! k = _ |- _ => rewrite H end. Qed.

(** A key that is over is deleted first. *)
Lemma expire_first n db m k : shows n now db m ->
  exists db' b, expireIfNeeded en db k = Ok (db', b) /\ shows n now db' m /\ is_some (vals db' !! k) = is_some (m !! k).
Proof.
  intros Hs. destruct (write_lookup en master loaded n db m k Hs) as (db1 & r & E & _ & _ & _ & Hf). apply finds_some in Hf.
  destruct (expireIfNeeded_ok en db k (sh_ok _ _ _ _ Hs) loaded master) as (db' & Ee & Hdb' & Hx). exists db', (expired now db k).
  split; [done|]. assert (vals db' !! k = live now db k /\ same_live now db db' /\ (base.size (vals db') <= base.size (vals db))%nat) as (Hv & Hlive & Hz).
  { unfold live. destruct (expired now db k) eqn:Eexp; destruct Hx as [V X].
    - rewrite V. split; [apply lookup_delete_eq|]. split; [by apply (live_delete _ _ _ k)|].
      rewrite map_size_delete. destruct (vals db !! k); unfold id; lia.
    - rewrite V. split_and!; try done. by apply live_same. }
  split; [by apply (shows_same n now db)|]. rewrite Hv. by apply finds_some, (shows_finds n).
Qed.

Lemma delete_key n db m k : shows n now db m -> exists db', dbDelete en db k = Ok (db', is_some (vals db !! k)) /\ shows n now db' (delete k m).
Proof.
  intros Hs. destruct (dbDelete_ok en db k (sh_ok _ _ _ _ Hs)) as (db' & E & Hdb' & V & X). exists db'. split.
  - rewrite E. do 2 f_equal. by destruct (vals db !! k).
  - by apply (shows_delete n now db).
Qed.

(** ** Deletion and existence *)

Lemma del_loop_ok n : forall ks objs (s : session T) m deleted, Forall2 is_arg ks objs -> shows n now (s_db s) m ->
  let '(m', d) := del_spec m ks in
  exists s', del_loop en s objs deleted = Ok (s', deleted + d) /\ shows n now (s_db s') m' /\ 0 <= d <= Z.of_nat (length ks).
Proof.
  induction ks as [|k ks IH]; intros objs s m deleted HF Hs; inversion HF as [|? o ? objs' Hk HF']; subst; cbn [del_spec del_loop].
  { exists s. split; [do 2 f_equal; lia|]. split; [done|]. cbn. lia. }
  rewrite (is_arg_key k) by done. rewrite bind_ok.
  destruct (expire_first n (s_db s) m k Hs) as (db1 & b & -> & Hs1 & Hv). rewrite bind_ok.
  destruct (delete_key n db1 m k Hs1) as (db2 & -> & Hs2). rewrite bind_ok, Hv.
  assert (forall s1 (b : bool) z, s_db s1 = s_db (if b then modified s db2 (str "del") k else with_db s db2) ->
    let '(m', d) := del_spec (delete k m) ks in
    exists s', del_loop en s1 objs' z = Ok (s', z + d) /\ shows n now (s_db s') m' /\ 0 <= d <= Z.of_nat (length ks)) as HI.
  { intros s1 b1 z E1. apply (IH objs' s1 (delete k m) z HF'). rewrite E1. destruct b1; [by apply shows_modified|done]. }
  destruct (is_some (m !! k)).
  - specialize (HI (modified s db2 (str "del") k) true (deleted + 1) eq_refl). destruct (del_spec (delete k m) ks) as [m' d].
    destruct HI as (s' & -> & Hs' & Hd). exists s'. split; [do 2 f_equal; lia|]. split; [done|]. cbn [length]. lia.
  - specialize (HI (with_db s db2) false deleted eq_refl). destruct (del_spec (delete k m) ks) as [m' d].
    destruct HI as (s' & -> & Hs' & Hd). exists s'. split; [do 2 f_equal; lia|]. split; [done|]. cbn [length]. lia.
Qed.

Lemma del_does n s c cmd objs ks m : shows n now (s_db s) m -> q_argv c = cmd :: objs -> Forall2 is_arg ks objs ->
  Z.of_nat (length ks) <= LLONG_MAX -> ready' 3 (q_out c) ->
  let '(m', reply) := kspec now m (Del ks) in
  does' n 3 (q_out c) m' reply (delCommand junk sdsZmallocSize embeddedSize client_obuf_limits unixtime en s c).
Proof.
  intros Hs Ha HF Hl Hr. unfold delCommand. rewrite Ha. change (drop 1 (cmd :: objs)) with objs. cbn [kspec].
  pose proof (del_loop_ok n ks objs s m 0 HF Hs) as H. destruct (del_spec m ks) as [m' d]. destruct H as (s' & -> & Hs' & Hd). rewrite bind_ok.
  eapply does_reply; [done|apply longlong_replies'; [by apply (ready_le _ _ 3)|unfold LLONG_MIN; lia]|done|lia].
Qed.

Lemma exists_spec_range m ks : 0 <= exists_spec m ks <= Z.of_nat (length ks).
Proof. induction ks as [|k ks IH]; cbn [exists_spec length]; [lia|]. destruct (is_some _); lia. Qed.

Lemma exists_loop_ok n m : forall ks objs db count, Forall2 is_arg ks objs -> shows n now db m ->
  (exists db', exists_loop en db objs count = Ok (db', count + exists_spec m ks) /\ shows n now db' m) /\
  (exists db', touch_loop en db objs count = Ok (db', count + exists_spec m ks) /\ shows n now db' m).
Proof.
  induction ks as [|k ks IH]; intros objs db count HF Hs; inversion HF as [|? o ? objs' Hk HF']; subst; cbn [exists_spec exists_loop touch_loop].
  { split; exists db; by rewrite Z.add_0_r. }
  rewrite (is_arg_key k) by done. rewrite !bind_ok. split.
  - destruct (expire_first n db m k Hs) as (db1 & b & -> & Hs1 & Hv). rewrite bind_ok. unfold dbExists.
    destruct (dict_find_ok db1 k (sh_ok _ _ _ _ Hs1)) as (db2 & -> & (Hdb2 & V & X) & _). rewrite !bind_ok.
    replace (match vals db1 !! k with Some _ => true | None => false end) with (is_some (m !! k)) by (rewrite <- Hv; by destruct (vals db1 !! k)).
    assert (shows n now db2 m) as Hs2 by (apply (shows_same n now db1); [done|done|by apply live_same|by rewrite V]).
    destruct (IH objs' db2 (if is_some (m !! k) then count + 1 else count) HF' Hs2) as [(db' & -> & Hs') _]. exists db'.
    split; [|done]. do 2 f_equal. destruct (is_some (m !! k)); lia.
  - destruct (read_lookup en master loaded n db m k Hs) as (db1 & r & -> & Hs1 & Hf). rewrite bind_ok, (finds_some m k r Hf).
    destruct (IH objs' db1 (if is_some (m !! k) then count + 1 else count) HF' Hs1) as [_ (db' & -> & Hs')]. exists db'.
    split; [|done]. do 2 f_equal. destruct (is_some (m !! k)); lia.
Qed.

Lemma exists_does n s c cmd objs ks m : shows n now (s_db s) m -> q_argv c = cmd :: objs -> Forall2 is_arg ks objs ->
  Z.of_nat (length ks) <= LLONG_MAX -> ready' 3 (q_out c) ->
  does' n 3 (q_out c) m (int_reply (exists_spec m ks)) (existsCommand junk sdsZmallocSize embeddedSize client_obuf_limits unixtime en s c) /\
  does' n 3 (q_out c) m (int_reply (exists_spec m ks)) (touchCommand junk sdsZmallocSize embeddedSize client_obuf_limits unixtime en s c).
Proof.
  intros Hs Ha HF Hl Hr. unfold existsCommand, touchCommand. rewrite Ha. change (drop 1 (cmd :: objs)) with objs.
  pose proof (exists_spec_range m ks).
  destruct (exists_loop_ok n m ks objs (s_db s) 0 HF Hs) as [(db1 & -> & Hs1) (db2 & -> & Hs2)]. rewrite !bind_ok.
  split; (eapply does_reply; [done|apply longlong_replies'; [by apply (ready_le _ _ 3)|unfold LLONG_MIN; lia]|done|lia]).
Qed.

Lemma empty_shows n t : n <= ROOM_MAX -> shows n t (empty_db : redisDb T) ∅.
Proof.
  intros Hn. split; [apply empty_db_ok| | |].
  - unfold vals, empty_db. cbn [db_dict]. destruct (kd_empty_ok robj) as [_ ->]. by rewrite map_size_empty.
  - intros k o. by rewrite empty_db_live.
  - intros k. unfold entry. by rewrite empty_db_live, lookup_empty.
Qed.

Lemma flushdb_does n s c m : shows n now (s_db s) m -> ready' 3 (q_out c) ->
  does' n 3 (q_out c) ∅ ok_reply (flushdbCommand junk sdsZmallocSize embeddedSize client_obuf_limits unixtime en s c).
Proof.
  intros Hs Hr. unfold flushdbCommand. eapply does_reply; [|apply shared_replies'; [by apply (ready_le _ _ 3)|done]|done|lia].
  assert (shows n now (empty_db : redisDb T) ∅) as [H1 H2 H3 H4].
  { apply empty_shows. pose proof (sh_room _ _ _ _ Hs). lia. }
  cbn [s_db]. destruct (e_cluster en); (split; [|exact H2|exact H3|exact H4]); (destruct H1; by split).
Qed.

Lemma type_does n s c cmd key k m : shows n now (s_db s) m -> q_argv c = [cmd; key] -> is_arg k key -> ready' 3 (q_out c) ->
  does' n 3 (q_out c) m ([43] ++ type_spec m k ++ crlf) (typeCommand junk sdsZmallocSize embeddedSize client_obuf_limits unixtime en s c).
Proof.
  intros Hs Ha Hk Hr. unfold typeCommand, arg. rewrite Ha. cbn [lookup list_lookup]. rewrite bind_ok, (is_arg_key k) by done. rewrite bind_ok.
  destruct (read_lookup en master loaded n (s_db s) m k Hs) as (db1 & r & E & Hs1 & Hf). unfold lookupKeyRead in E. rewrite E, bind_ok.
  replace (match r with None => str "none" | Some o => type_name (o_type o) end) with (type_spec m k).
  2:{ unfold type_spec. destruct Hf as [Hm|o v w Hm (Ht & _)|o w Hm Ht]; rewrite Hm; [done|by rewrite Ht|by rewrite other_type_oother]. }
  assert (replies sdsZmallocSize embeddedSize 3 c ([43] ++ type_spec m k ++ crlf)
    (add_status junk sdsZmallocSize embeddedSize client_obuf_limits unixtime c (type_spec m k))) as Hrep.
  { assert (Z.of_nat (length (type_spec m k)) < 100) as Hl.
    { unfold type_spec. destruct (m !! k) as [[[|x] ?]|]; [done| |done]. by destruct (other_type x). }
    unfold replies, add_status, addReplyStatus, addReplyStatusLength. set (msg := type_spec m k) in *. clearbody msg.
    destruct (addReplyString3_ok junk sdsZmallocSize embeddedSize client_obuf_limits unixtime zmalloc_size embedded_size
      (q_out c) (str "+") msg crlf Hr) as (o & -> & Ho); [done|lia|done|]. rewrite bind_ok. by exists o. }
  eapply does_reply; [exact Hs1|exact Hrep|done|lia].
Qed.

(** ** Expire times *)

(** The object and the time behind an entry of the key space. *)
Lemma shows_entry n db m k x w : shows n now db m -> m !! k = Some (x, w) ->
  exists o, live now db k = Some o /\ x = oval o /\ exps db !! k = w /\ value_fits n o /\ (forall t, w = Some t -> now <= t /\ 0 <= t).
Proof.
  intros [H1 H2 H3 H4] Hm. pose proof (H4 k) as Hk. rewrite Hm in Hk. unfold entry in Hk. destruct (live now db k) as [o|] eqn:El; [|done].
  cbn in Hk. injection Hk as -> ->. exists o. split_and!; try done; [by apply (H3 k)|]. intros t Et.
  split; [|by apply (dbk_pos _ H1 k)]. unfold live, expired in El. rewrite Et in El. destruct (Z.ltb_spec t now); [done|lia].
Qed.

Lemma expire_does n s c cmd key param k a m unit (relative : bool) : shows n now (s_db s) m -> 0 <= n -> 0 <= now ->
  q_argv c = [cmd; key; param] -> is_arg k key -> is_arg a param -> ready' 3 (q_out c) ->
  (forall z, string2ll a = Some z -> LLONG_MIN <= milliseconds unit z <= LLONG_MAX /\
     LLONG_MIN <= milliseconds unit z + (if relative then now else 0) <= LLONG_MAX) ->
  let '(m', reply) := expire_cmd_spec now m relative unit k a in
  does' n 3 (q_out c) m' reply
    (expireGenericCommand junk sdsZmallocSize embeddedSize client_obuf_limits unixtime en s c (if relative then now else 0) unit).
Proof.
  intros Hs Hn Hnow Ha Hk Hp Hr Hfit. assert (ready' 1 (q_out c)) as Hr1 by (by apply (ready_le _ _ 3)).
  unfold expireGenericCommand, arg, expire_cmd_spec. rewrite Ha. cbn [lookup list_lookup]. rewrite !bind_ok.
  pose proof (longlong_reads_arg junk sdsZmallocSize embeddedSize client_obuf_limits unixtime zmalloc_size embedded_size c param a Hp Hr) as H1.
  unfold reads in H1. destruct (string2ll a) as [z|].
  2:{ destruct H1 as (out & -> & Hout). rewrite bind_ok. by apply does_read_error. }
  rewrite H1, bind_ok. destruct (Hfit z eq_refl) as [F1 F2]. unfold LLONG_MIN, LLONG_MAX in F1, F2.
  replace (match unit with UNIT_SECONDS => s64 (z * 1000) | UNIT_MILLISECONDS => z end) with (milliseconds unit z)
    by (unfold milliseconds in *; destruct unit; [by rewrite s64_small by lia|done]).
  rewrite s64_small by lia. set (when := milliseconds unit z + (if relative then now else 0)) in *. clearbody when.
  rewrite (is_arg_key k) by done. rewrite bind_ok.
  destruct (write_lookup en master loaded n (s_db s) m k Hs) as (db & r & -> & Hs1 & Hf & Hv & Hfind). rewrite bind_ok.
  destruct (m !! k) as [[x w]|] eqn:Em.
  2:{ destruct Hfind as [_|? ? ? Hm|? ? Hm]; [|congruence..]. eapply does_reply; [exact Hs1|by apply shared_replies'|done|lia]. }
  assert (exists o, r = Some o) as [o ->] by (destruct Hfind as [Hm|o ? ? Hm|o ? Hm]; [congruence|by exists o..]).
  rewrite loaded, master. cbn [negb]. rewrite !andb_true_r. destruct (Z.leb_spec when now).
  - destruct (delete_key n db m k Hs1) as (db2 & -> & Hs2). rewrite bind_ok, Hv. cbn [is_some negb].
    destruct (createStringObject_ok junk (str "DEL") 3) as (aux & -> & _); [cbn; lia|lia|]. rewrite bind_ok. cbv zeta.
    eapply does_reply; [by apply shows_modified|by apply shared_replies'|done|lia].
  - destruct (expire_key en n db m k x w when Hs1 Hn Em) as (db2 & -> & Hs2); [lia|lia|]. rewrite bind_ok.
    eapply does_reply; [by apply shows_modified|by apply shared_replies'|done|lia].
Qed.

Lemma ttl_does n s c cmd key k m unit : shows n now (s_db s) m -> times_ok m -> 0 <= now -> q_argv c = [cmd; key] -> is_arg k key ->
  ready' 3 (q_out c) ->
  does' n 3 (q_out c) m (int_reply (ttl_spec now m unit k)) (ttlGenericCommand junk sdsZmallocSize embeddedSize client_obuf_limits unixtime en s c
    (match unit with UNIT_SECONDS => false | UNIT_MILLISECONDS => true end)).
Proof.
  intros Hs Ht Hnow Ha Hk Hr. assert (ready' 1 (q_out c)) as Hr1 by (by apply (ready_le _ _ 3)).
  unfold ttlGenericCommand, arg. rewrite Ha. cbn [lookup list_lookup]. rewrite bind_ok, (is_arg_key k) by done. rewrite bind_ok.
  destruct (read_lookup en master loaded n (s_db s) m k Hs) as (db1 & r & E & Hs1 & Hf). unfold lookupKeyRead in E. rewrite E, bind_ok.
  apply finds_some in Hf. unfold ttl_spec. destruct (m !! k) as [[x w]|] eqn:Em; destruct r as [o|]; try done.
  - destruct (shows_entry n db1 m k x w Hs1 Em) as (_ & _ & _ & Hw & _ & Hwt).
    destruct (getExpire_ok db1 k (sh_ok _ _ _ _ Hs1)) as (db2 & -> & (Hdb2 & V & X)). rewrite bind_ok, Hw.
    assert (shows n now db2 m) as Hs2 by (apply (shows_same n now db1); [done|done|by apply live_same|by rewrite V]).
    destruct w as [w|]; cbn [default from_option id].
    + destruct (Hwt w eq_refl) as [Hn0 Hw0]. pose proof (map_Forall_lookup_1 _ _ _ _ Ht Em) as Hmax. cbn in Hmax. unfold TIME_MAX, LLONG_MAX in Hmax.
      destruct (Z.eqb_spec w (-1)); [lia|]. cbn [negb]. rewrite (s64_small (w - now)) by lia. destruct (Z.ltb_spec (w - now) 0); [lia|].
      destruct (Z.eqb_spec (w - now) (-1)); [lia|]. rewrite s64_small by lia.
      replace (if match unit with UNIT_SECONDS => false | UNIT_MILLISECONDS => true end then w - now else (w - now + 500) `quot` 1000)
        with (match unit with UNIT_SECONDS => (w - now + 500) / 1000 | UNIT_MILLISECONDS => w - now end)
        by (destruct unit; [by rewrite Z.quot_div_nonneg by lia|done]).
      eapply does_reply; [exact Hs2|apply longlong_replies'; [done|]|done|lia].
      assert (0 <= (w - now + 500) / 1000 <= w - now + 500) by (split; [apply Z.div_pos; lia|apply Z.div_le_upper_bound; lia]).
      unfold LLONG_MIN, LLONG_MAX. destruct unit; lia.
    + eapply does_reply; [exact Hs2|by apply longlong_replies'|done|lia].
  - eapply does_reply; [exact Hs1|by apply longlong_replies'|done|lia].
Qed.

(** ** Renaming *)

Lemma value_fits_incr n o : value_fits n o -> value_fits n (incrRefCount o).
Proof.
  intros [H1 H2]. split; intros Ht.
  - destruct (H1 Ht) as [Ho Hl]. split; [by apply incrRefCount_ok|done].
  - destruct (H2 Ht) as (s & X & ? & ? & ? & ? & ?). exists s, X. split_and!; try done. cbn. lia.
Qed.

Lemma rename_does n s c cmd key key2 k k2 m (nx : bool) : shows n now (s_db s) m -> 1 <= n ->
  q_argv c = [cmd; key; key2] -> is_arg k key -> is_arg k2 key2 -> ready' 3 (q_out c) ->
  let '(m', reply) := rename_spec m k k2 nx in
  does' (n - 1) 3 (q_out c) m' reply (renameGenericCommand junk sdsZmallocSize embeddedSize client_obuf_limits unixtime en s c nx).
Proof.
  intros Hs Hn Ha Hk Hk2 Hr. assert (ready' 1 (q_out c)) as Hr1 by (by apply (ready_le _ _ 3)).
  unfold renameGenericCommand, arg, rename_spec. rewrite Ha. cbn [lookup list_lookup]. rewrite !bind_ok.
  destruct (is_arg_sds k key Hk) as (p1 & P1 & Ok1 & V1 & L1). destruct (is_arg_sds k2 key2 Hk2) as (p2 & P2 & Ok2 & V2 & L2).
  rewrite (obj_sds_ok key p1), (obj_sds_ok key2 p2) by done. rewrite !bind_ok. pose proof Hk as (_ & _ & Hl1). pose proof Hk2 as (_ & _ & Hl2).
  unfold sdslen, STRING_MAX in *. destruct (sdscmp_zero p1 p2 Ok1 Ok2) as (cmp & -> & Hcmp); [lia|lia|]. rewrite V1, V2 in Hcmp.
  rewrite bind_ok, (is_arg_key k key Hk), bind_ok, (is_arg_key k2 key2 Hk2), bind_ok.
  destruct (write_lookup en master loaded n (s_db s) m k Hs) as (db1 & r & -> & Hs1 & Hf1 & Hv1 & Hfind). rewrite bind_ok.
  apply finds_some in Hfind. destruct (m !! k) as [[x w]|] eqn:Em; destruct r as [o|]; try done.
  2:{ eapply does_reply; [eapply shows_le; [|exact Hs1]; lia|by apply shared_replies'|done|lia]. }
  destruct (shows_entry n db1 m k x w Hs1 Em) as (o' & Hlive & -> & Hw & Hfit & Hwt).
  unfold fresh in Hf1. rewrite Hv1, Hlive in Hf1. injection Hf1 as <-.
  rewrite Hcmp. destruct (bool_decide (k = k2)) eqn:Ek; cbn [orb].
  { eapply does_reply; [eapply shows_le; [|exact Hs1]; lia|destruct nx; by apply shared_replies'|done|lia]. }
  apply bool_decide_eq_false in Ek.
  destruct (getExpire_ok db1 k (sh_ok _ _ _ _ Hs1)) as (db2 & -> & (Hdb2 & V & X)). rewrite bind_ok, Hw.
  assert (shows n now db2 m) as Hs2 by (apply (shows_same n now db1); [done|done|by apply live_same|by rewrite V]).
  destruct (write_lookup en master loaded n db2 m k2 Hs2) as (db3 & r2 & -> & Hs3 & Hf3 & Hv3 & Hfind2). rewrite bind_ok.
  apply finds_some in Hfind2. rewrite Hfind2, (andb_comm nx). destruct (is_some (m !! k2) && nx) eqn:Enx.
  { apply andb_true_iff in Enx as [_ ->].
    eapply does_reply; [eapply shows_le; [|exact Hs3]; lia|by apply shared_replies'|done|lia]. }
  assert (exists db4, (if is_some (m !! k2) then '(db, _) ← dbDelete en db3 k2; Ok db else Ok db3) = Ok db4 /\
    shows n now db4 (delete k2 m) /\ vals db4 !! k2 = None) as (db4 & -> & Hs4 & Hv4).
  { destruct (m !! k2) as [y|] eqn:Em2; cbn [is_some].
    - destruct (dbDelete_ok en db3 k2 (sh_ok _ _ _ _ Hs3)) as (db4 & -> & Hdb4 & V4 & X4). rewrite bind_ok. exists db4.
      split; [done|]. split; [by apply (shows_delete n now db3)|]. rewrite V4. apply lookup_delete_eq.
    - exists db3. split; [done|]. rewrite delete_id by done. split; [done|]. rewrite Hv3. by destruct r2. }
  rewrite bind_ok.
  destruct (dbAdd_ok en db4 k2 (incrRefCount o) (sh_ok _ _ _ _ Hs4) (shows_size en n db4 _ Hs4 ltac:(lia)) Hv4) as (db5 & -> & Hdb5 & V5 & X5).
  rewrite bind_ok. assert (fresh now db4 k2) as Hf4 by (unfold fresh, live; rewrite Hv4; by destruct (expired now db4 k2)).
  pose proof (shows_write n now db4 db5 _ k2 _ Hs4 Hf4 Hdb5 V5 X5 (value_fits_incr n o Hfit)) as Hs5.
  rewrite Hv4, lookup_delete_eq in Hs5. cbn [is_some mbind option_bind] in Hs5. change (oval (incrRefCount o)) with (oval o) in Hs5.
  assert (exists db6, (if negb (default (-1) w =? -1) then setExpire db5 k2 (default (-1) w) else Ok db5) = Ok db6 /\
    shows (n - 1) now db6 (<[k2 := (oval o, w)]> (delete k2 m))) as (db6 & -> & Hs6).
  { destruct w as [w|]; cbn [default from_option id]; [|by exists db5]. destruct (Hwt w eq_refl) as [? ?]. destruct (Z.eqb_spec w (-1)); [lia|]. cbn [negb].
    rewrite <- (insert_insert_eq (delete k2 m) k2 (oval o, Some w) (oval o, None)).
    eapply (expire_key en (n - 1)); [done|lia|by rewrite lookup_insert_eq|lia|lia]. }
  rewrite bind_ok. destruct (delete_key (n - 1) db6 _ k Hs6) as (db7 & -> & Hs7). rewrite bind_ok.
  assert (delete k (<[k2 := (oval o, w)]> (delete k2 m)) = <[k2 := (oval o, w)]> (delete k m)) as Eq.
  { apply map_eq. intros j. destruct (decide (j = k2)) as [->|Hj2].
    - by rewrite lookup_delete_ne, !lookup_insert_eq by done.
    - rewrite lookup_insert_ne by done. destruct (decide (j = k)) as [->|Hj]; [by rewrite !lookup_delete_eq|].
      by rewrite !lookup_delete_ne, lookup_insert_ne, lookup_delete_ne by done. }
  rewrite Eq in Hs7. eapply does_reply; [|destruct nx; by apply shared_replies'|done|lia]. cbn. by repeat apply shows_emit.
Qed.
End KeyCommandsDo.
