(* ===== verification/SetProofs.v ===== *)
(** * The set commands do what is specified

    Each command of Sets.v leaves a database that shows the key space of
    Keyspace.v, and queues the reply of Keyspace.v. *)

From S2P Require Import Prelude CLib Util Sds Dict IntSet Object SetType Reply Resp KeyDict Db Command Strings Keys Sets Keyspace.
From S2P Require Import StringProofs KeyProofs.
Local Open Scope Z_scope.

Section SetCommandsDo.
Context {T : Type -> Type} `{KD : KeyDict T} `{KL : !KeyDictLaws T} `{SC : SetConfig}.
Variable junk : Z.
Variable sdsZmallocSize : sds -> Z.
Variable embeddedSize : sds -> Z.
Variable client_obuf_limits : client_type -> obuf_limits.
Variable unixtime : Z.
Variable shareable : bool.
Hypothesis zmalloc_size : forall s, 0 <= sdsZmallocSize s < 2 ^ 48.
Hypothesis embedded_size : forall s, 0 <= embeddedSize s < 2 ^ 48.
Variable en : env.
Hypothesis master : e_masterhost en = false.
Hypothesis loaded : e_loading en = false.

#[local] Abbreviation now := (e_now en).
#[local] Abbreviation ready' := (ready sdsZmallocSize embeddedSize).
#[local] Abbreviation does' := (does sdsZmallocSize embeddedSize en).
#[local] Abbreviation shared_replies' := (shared_replies junk sdsZmallocSize embeddedSize client_obuf_limits unixtime zmalloc_size embedded_size).
#[local] Abbreviation longlong_replies' := (longlong_replies junk sdsZmallocSize embeddedSize client_obuf_limits unixtime zmalloc_size embedded_size).
#[local] Abbreviation set_is' := (set_is set_hash).

(** ** Sets in the key space *)

(** What a command on a set finds at a key. *)
Inductive set_finds (n : Z) (m : keyspace) (k : bytes) : option robj -> Prop :=
  | sf_none : m !! k = None -> set_finds n m k None
  | sf_set o s X w : o_type o = OBJ_SET -> o_ptr o = PtrSet s -> 1 <= o_refcount o -> set_is' s X -> X <> ∅ ->
      Z.of_nat (base.size X) + n + 1 < INTSET_MAX -> m !! k = Some (VOther (Members X), w) -> set_finds n m k (Some o)
  | sf_wrong o : o_type o <> OBJ_SET -> is_Some (m !! k) -> set_at m k = None -> set_finds n m k (Some o).

Lemma shows_set_finds n (db : redisDb T) m k r : shows n now db m -> live now db k = r -> set_finds n m k r.
Proof.
  intros Hs Hl. pose proof (sh_map _ _ _ _ Hs k) as Hm. pose proof (sh_fits _ _ _ _ Hs k) as Hf. unfold entry in Hm. rewrite Hl in *.
  destruct r as [o|]; cbn in Hm; [|by apply sf_none]. destruct (Hf o eq_refl) as [_ H2].
  destruct (decide (o_type o = OBJ_SET)) as [Ht|Ht].
  - destruct (H2 Ht) as (s & X & Hp & Hset & HX & Hrc & Hsz). eapply sf_set; try done.
    rewrite Hm. unfold oval, oother. rewrite Ht, Hp. rewrite bool_decide_eq_false_2 by done. by rewrite (set_is_members set_hash s X Hset).
  - apply sf_wrong; [done|by rewrite Hm|]. unfold set_at. rewrite Hm. unfold oval, oother.
    case_bool_decide; [done|]. by destruct (o_type o).
Qed.

Lemma set_value_fits n o s X : o_type o = OBJ_SET -> 1 <= o_refcount o -> set_is' s X -> X <> ∅ -> Z.of_nat (base.size X) + n + 1 < INTSET_MAX ->
  value_fits n (with_ptr o (PtrSet s)) /\ oval (with_ptr o (PtrSet s)) = VOther (Members X).
Proof.
  intros Ht Hrc Hset HX Hsz. split.
  - split; cbn; rewrite Ht; [done|]. intros _. exists s, X. done.
  - unfold oval, oother. cbn. rewrite Ht, bool_decide_eq_false_2 by done. by rewrite (set_is_members set_hash s X Hset).
Qed.

(** A set is written through its pointer, and the key is deleted when it is empty. *)
Lemma write_members n n' (db : redisDb T) m k o s X w x : shows n now db m -> n' <= n -> vals db !! k = Some o -> m !! k = Some (x, w) ->
  o_type o = OBJ_SET -> 1 <= o_refcount o -> set_is' s X -> Z.of_nat (base.size X) + n' + 1 < INTSET_MAX ->
  exists db1, write_value db k (with_ptr o (PtrSet s)) = Ok db1 /\ db_ok db1 /\
    (X <> ∅ -> shows n' now db1 (put_set m k X w)) /\
    (X = ∅ -> forall db2, db_ok db2 -> vals db2 = vals db1 -> exps db2 = exps db1 ->
      exists db3, dbDelete en db2 k = Ok (db3, true) /\ shows n' now db3 (put_set m k X w) /\ vals db3 = delete k (vals db)) /\
    vals db1 = <[k := with_ptr o (PtrSet s)]> (vals db).
Proof.
  intros Hs Hn Hv Hm Ht Hrc Hset Hsz. pose proof (shows_le n n' now db m Hn Hs) as Hs'.
  destruct (write_value_ok db k (with_ptr o (PtrSet s)) (sh_ok _ _ _ _ Hs)) as (db1 & E & Hdb1 & V & X1); [by rewrite Hv|].
  exists db1. split_and!; [done|done| | |done].
  - intros HX. destruct (set_value_fits n' o s X Ht Hrc Hset HX Hsz) as [Hfit Ho].
    assert (fresh now db k) as Hf by (eapply shows_fresh; [exact Hs|rewrite Hm; eauto]).
    pose proof (shows_write n' now db db1 m k _ Hs' Hf Hdb1 V X1 Hfit) as Hw. rewrite Hv, Hm, Ho in Hw. cbn in Hw.
    unfold put_set. by rewrite bool_decide_eq_false_2.
  - intros HX db2 Hdb2 V2 X2. destruct (dbDelete_ok en db2 k Hdb2) as (db3 & E3 & Hdb3 & V3 & X3). exists db3.
    assert (vals db3 = delete k (vals db)) as V' by (rewrite V3, V2, V; apply delete_insert_eq). split_and!; [| |done].
    + rewrite E3, bool_decide_eq_true_2; [done|]. by rewrite V2, V, lookup_insert_eq.
    + unfold put_set. rewrite bool_decide_eq_true_2 by done. apply (shows_delete n' now db); [done|done|done|by rewrite X3, X2, X1].
Qed.

(** A set that is created at a key and then gets its members. *)
Lemma create_members n (db : redisDb T) m k new : shows n now db m -> 1 <= n -> fresh now db k -> vals db !! k = None -> m !! k = None ->
  exists db1, dbAdd en db k (set_object new) = Ok db1 /\ db_ok db1 /\
    forall db2 s X, db_ok db2 -> vals db2 = vals db1 -> exps db2 = exps db1 -> set_is' s X -> X <> ∅ ->
      Z.of_nat (base.size X) + n + 1 < INTSET_MAX ->
      exists db3, write_value db2 k (with_ptr (set_object new) (PtrSet s)) = Ok db3 /\
        shows (n - 1) now db3 (put_set m k X None).
Proof.
  intros Hs Hn Hf Hv Hm.
  destruct (dbAdd_ok en db k (set_object new) (sh_ok _ _ _ _ Hs) (shows_size en n db m Hs ltac:(lia)) Hv) as (db1 & E & Hdb1 & V & X1).
  exists db1. split; [done|]. split; [done|]. intros db2 s X Hdb2 V2 X2 Hset HX Hsz.
  destruct (write_value_ok db2 k (with_ptr (set_object new) (PtrSet s)) Hdb2) as (db3 & E3 & Hdb3 & V3 & X3).
  { rewrite V2, V, lookup_insert_eq. eauto. }
  exists db3. split; [done|]. destruct (set_value_fits n (set_object new) s X) as [Hfit Ho]; [done|cbn; lia|done|done|lia|].
  assert (vals db3 = <[k := with_ptr (set_object new) (PtrSet s)]> (vals db)) as V' by (rewrite V3, V2, V; apply insert_insert_eq).
  pose proof (shows_write n now db db3 m k _ Hs Hf Hdb3 V' ltac:(by rewrite X3, X2, X1) Hfit) as W.
  rewrite Hv, Hm, Ho in W. unfold put_set. by rewrite bool_decide_eq_false_2.
Qed.

(** ** The members of the arguments *)

#[local] Abbreviation set_add := (setTypeAdd junk set_hash set_can_resize set_max_entries).
#[local] Abbreviation set_remove := (setTypeRemove junk set_hash set_can_resize).

Lemma added_size (v : bytes) (V X : gset bytes) :
  base.size (({[v]} ∪ V) ∖ X) = ((if bool_decide (v ∉ X) then 1 else 0) + base.size (V ∖ ({[v]} ∪ X)))%nat.
Proof.
  case_bool_decide as Hv.
  - rewrite <- (size_singleton (C := gset bytes) v), <- size_union by set_solver. f_equal. apply set_eq. intros x.
    destruct (decide (x = v)); set_solver.
  - cbn. f_equal. apply set_eq. intros x. destruct (decide (x = v)); set_solver.
Qed.

Lemma sadd_loop_ok : forall vs objs set X added, Forall2 is_arg vs objs -> set_is' set X ->
  Z.of_nat (base.size X) + Z.of_nat (length vs) + 1 < INTSET_MAX ->
  exists set' argv, sadd_loop junk shareable set objs added =
      Ok (set', argv, added + Z.of_nat (base.size (list_to_set vs ∖ X))) /\ set_is' set' (X ∪ list_to_set vs).
Proof.
  induction vs as [|v vs IH]; intros objs set X added HF HX Hsz; inversion HF as [|? o ? objs' Ho HF']; subst; cbn [sadd_loop].
  { exists set, []. rewrite list_to_set_nil, union_empty_r_L. replace (∅ ∖ X) with (∅ : gset bytes) by set_solver.
    by rewrite size_empty, Z.add_0_r. }
  destruct (encode_ok junk shareable v o Ho) as (o' & -> & Ho' & Hv). rewrite bind_ok. cbn [length] in Hsz.
  destruct (set_add_ok junk set_hash set_can_resize set_max_entries set X o' v HX) as (s1 & -> & H1); [unfold small; lia|done|done|]. rewrite bind_ok.
  destruct (IH objs' s1 ({[v]} ∪ X) (if bool_decide (v ∉ X) then added + 1 else added) HF' H1) as (s2 & argv & -> & H2).
  { assert (base.size ({[v]} ∪ X) <= 1 + base.size X)%nat; [|lia]. rewrite size_union_alt, size_singleton.
    assert (base.size (X ∖ {[v]}) <= base.size X)%nat by (apply subseteq_size; set_solver). lia. }
  rewrite bind_ok. exists s2, (o' :: argv). rewrite list_to_set_cons, added_size. split.
  - do 2 f_equal. case_bool_decide; lia.
  - replace (X ∪ ({[v]} ∪ list_to_set vs)) with ({[v]} ∪ X ∪ list_to_set vs) by set_solver. done.
Qed.

Lemma removed_size (v : bytes) (V X : gset bytes) :
  base.size (X ∩ ({[v]} ∪ V)) = ((if bool_decide (v ∈ X) then 1 else 0) + base.size ((X ∖ {[v]}) ∩ V))%nat.
Proof.
  case_bool_decide as Hv.
  - rewrite <- (size_singleton (C := gset bytes) v), <- size_union by set_solver. f_equal. apply set_eq. intros x.
    destruct (decide (x = v)); set_solver.
  - cbn. f_equal. apply set_eq. intros x. destruct (decide (x = v)); set_solver.
Qed.

(** The loop stops at an empty set, and the other arguments are not members. *)
Lemma srem_loop_ok : forall vs objs set X deleted, Forall2 is_arg vs objs -> set_is' set X -> X <> ∅ ->
  Z.of_nat (base.size X) + 1 < INTSET_MAX ->
  exists set', srem_loop junk set objs deleted =
      Ok (set', deleted + Z.of_nat (base.size (X ∩ list_to_set vs)), bool_decide (X ∖ list_to_set vs = ∅)) /\
    set_is' set' (X ∖ list_to_set vs).
Proof.
  induction vs as [|v vs IH]; intros objs set X deleted HF HX Hne Hsz; inversion HF as [|? o ? objs' Ho HF']; subst; cbn [srem_loop].
  { exists set. rewrite list_to_set_nil, intersection_empty_r_L, size_empty, Z.add_0_r, difference_empty_L. by rewrite bool_decide_eq_false_2. }
  destruct Ho as ((Ho & _) & Hv & _).
  destruct (set_remove_ok junk set_hash set_can_resize set X o v HX) as (s1 & -> & H1); [unfold small; lia|done|done|]. rewrite bind_ok.
  rewrite list_to_set_cons, removed_size.
  replace (X ∖ ({[v]} ∪ list_to_set vs)) with ((X ∖ {[v]}) ∖ list_to_set vs) by set_solver.
  assert (base.size (X ∖ {[v]}) <= base.size X)%nat by (apply subseteq_size; set_solver).
  case_bool_decide as Hin.
  - rewrite (set_size_ok set_hash s1 _ H1). destruct (decide (X ∖ {[v]} = ∅)) as [Ee|Ee].
    + exists s1. rewrite Ee, size_empty, intersection_empty_l_L, size_empty. replace (∅ ∖ list_to_set vs) with (∅ : gset bytes) by set_solver.
      rewrite bool_decide_eq_true_2, <- Ee by done. done.
    + assert (base.size (X ∖ {[v]}) <> 0)%nat by (by rewrite size_empty_iff, leibniz_equiv_iff).
      replace (_ =? 0) with false by (symmetry; apply Z.eqb_neq; lia).
      destruct (IH objs' s1 (X ∖ {[v]}) (deleted + 1) HF' H1 Ee ltac:(lia)) as (s2 & -> & H2). exists s2. split; [|done].
      do 2 f_equal. f_equal. lia.
  - replace (X ∖ {[v]}) with X in * by set_solver.
    destruct (IH objs' s1 X deleted HF' H1 Hne Hsz) as (s2 & -> & H2). by exists s2.
Qed.

(** ** The commands *)

Lemma write_set_lookup n (db : redisDb T) m k : shows n now db m ->
  exists db' r, lookupKeyWrite en db k = Ok (db', r) /\ shows n now db' m /\ fresh now db' k /\ vals db' !! k = r /\ set_finds n m k r.
Proof.
  intros Hs. destruct (write_lookup en master loaded n db m k Hs) as (db' & r & E & Hs' & Hf & Hv & _).
  exists db', r. split_and!; try done. apply (shows_set_finds n db'); [done|]. unfold fresh in Hf. congruence.
Qed.

(** The second lookup of a command on two keys does not change what the first found. *)
Lemma lookup_keeps n (db : redisDb T) m k k2 db' r : shows n now db m -> is_Some (m !! k) -> lookupKeyWrite en db k2 = Ok (db', r) -> shows n now db' m ->
  vals db' !! k = vals db !! k.
Proof.
  intros Hs Hk E Hs'. destruct (lookupKeyWrite_ok en db k2 (sh_ok _ _ _ _ Hs) loaded master) as (db2 & E2 & _ & _ & Hl & _).
  assert (db2 = db') as -> by congruence.
  pose proof (shows_fresh n now db m k Hs Hk) as F1. pose proof (shows_fresh n now db' m k Hs' Hk) as F2.
  unfold fresh in F1, F2. rewrite F1, F2. apply Hl. lia.
Qed.

Lemma type_is_set c o : o_type o = OBJ_SET -> checkType junk sdsZmallocSize embeddedSize client_obuf_limits unixtime c o OBJ_SET = Ok (c, false).
Proof. intros Ht. unfold checkType. by rewrite bool_decide_eq_true_2. Qed.

Lemma type_not_set c o : o_type o <> OBJ_SET -> ready' 1 (q_out c) ->
  exists out, checkType junk sdsZmallocSize embeddedSize client_obuf_limits unixtime c o OBJ_SET = Ok (with_out c out, true) /\
    replied sdsZmallocSize embeddedSize 1 (q_out c) wrongtypeerr out.
Proof.
  intros Ht Hr. unfold checkType. rewrite bool_decide_eq_false_2 by done. cbn [negb].
  destruct (shared_replies' c wrongtypeerr Hr ltac:(done)) as (out & -> & Hout). rewrite bind_ok. eauto.
Qed.

Lemma does_wrong n s db c m o : shows n now db m -> o_type o <> OBJ_SET -> ready' 3 (q_out c) ->
  exists out, checkType junk sdsZmallocSize embeddedSize client_obuf_limits unixtime c o OBJ_SET = Ok (with_out c out, true) /\
    does' n 3 (q_out c) m wrongtypeerr (Ok (with_db s db, with_out c out)).
Proof.
  intros Hs Ht Hr. destruct (type_not_set c o Ht) as (out & E & Hout); [by apply (ready_le _ _ 3)|].
  exists out. split; [done|]. exists (with_db s db), (with_out c out). split_and!; [done|done|]. by apply (replied_le _ _ 1).
Qed.

Lemma set_at_found m k X w : m !! k = Some (VOther (Members X), w) -> set_at m k = Some (X, w).
Proof. unfold set_at. by intros ->. Qed.

Lemma set_at_none m k : m !! k = None -> set_at m k = Some (∅, None).
Proof. unfold set_at. by intros ->. Qed.

Lemma size_args (vs : list bytes) : (base.size (list_to_set vs : gset bytes) <= length vs)%nat.
Proof.
  induction vs as [|v vs IH]; [by rewrite list_to_set_nil, size_empty|]. rewrite list_to_set_cons, size_union_alt, size_singleton. cbn [length].
  assert (base.size (list_to_set vs ∖ {[v]} : gset bytes) <= base.size (list_to_set vs : gset bytes))%nat by (apply subseteq_size; set_solver). lia.
Qed.

Lemma size_new_args (vs : list bytes) (X : gset bytes) : (base.size (list_to_set vs ∖ X) <= length vs)%nat.
Proof. etrans; [apply (subseteq_size _ (list_to_set vs)); set_solver|apply size_args]. Qed.

(** The events of a command that changed a set, and the reply with the number of
    changes. *)
Lemma does_count n (s : session T) c db m j events : shows n now db m -> (forall db, shows n now db m -> shows n now (events db) m) ->
  0 <= j <= LLONG_MAX -> ready' 3 (q_out c) ->
  does' n 3 (q_out c) m (int_reply j)
    (c ← add_longlong junk sdsZmallocSize embeddedSize client_obuf_limits unixtime c j;
     Ok (with_dirty (with_db s (if negb (j =? 0) then events db else db)) j, c)).
Proof.
  intros Hs He Hj Hr. eapply does_reply; [|apply longlong_replies'; [by apply (ready_le _ _ 3)|unfold LLONG_MIN; lia]|done|lia].
  cbn. destruct (negb (j =? 0)); auto.
Qed.

Lemma sadd_does n s c cmd key objs k vs m : shows n now (s_db s) m -> Z.of_nat (length vs) + 1 <= n ->
  q_argv c = cmd :: key :: objs -> is_arg k key -> Forall2 is_arg vs objs -> (1 <= length vs)%nat -> ready' 3 (q_out c) ->
  let '(m', reply) := sadd_spec m k vs in
  does' (n - Z.of_nat (length vs) - 1) 3 (q_out c) m' reply
    (saddCommand junk sdsZmallocSize embeddedSize client_obuf_limits unixtime shareable en s c).
Proof.
  intros Hs Hn Ha Hk HF Hvs Hr. pose proof (sh_room _ _ _ _ Hs) as Hroom. pose proof room_max as Hmax. unfold INTSET_MAX in Hmax.
  unfold saddCommand, arg, sadd_spec. rewrite Ha. cbn [lookup list_lookup drop take]. rewrite bind_ok, (is_arg_key k) by done. rewrite bind_ok.
  destruct (write_set_lookup n (s_db s) m k Hs) as (db & r & -> & Hs1 & Hf & Hv & Hfind). rewrite bind_ok.
  assert (forall X : gset bytes, X ∪ list_to_set vs <> ∅) as Hne.
  { intros X. destruct vs as [|v vs]; [cbn in Hvs; lia|]. set_solver. }
  assert (forall X : gset bytes, Z.of_nat (base.size (X ∪ list_to_set vs)) <= Z.of_nat (base.size X) + Z.of_nat (length vs)) as Hsz'.
  { intros X. rewrite size_union_alt. pose proof (size_new_args vs X). lia. }
  assert (forall X : gset bytes, 0 <= Z.of_nat (base.size (list_to_set vs ∖ X)) <= LLONG_MAX) as Hcount.
  { intros X. pose proof (size_new_args vs X). unfold LLONG_MAX. lia. }
  destruct Hfind as [Hm|o st X w Ht Hp Hrc Hset HX Hsz Hm|o Ht Hm Hat].
  - rewrite (set_at_none m k Hm). destruct objs as [|o1 objs]; [apply Forall2_length in HF; cbn in HF; lia|]. cbn [lookup list_lookup].
    assert (exists v, is_arg v o1) as (v1 & (Ho1 & Hv1 & _)) by (inversion HF; eauto).
    rewrite bind_ok. destruct (create_set_ok set_hash o1 v1 (proj1 Ho1) Hv1) as (new & -> & Hnew). rewrite bind_ok.
    destruct (create_members (n - Z.of_nat (length vs)) db m k new) as (db1 & -> & Hdb1 & Hwrite);
      [by apply (shows_le n); [lia|]|lia|done|done|done|].
    rewrite !bind_ok. cbn [obj_set set_object o_ptr]. rewrite bind_ok, Ha. cbn [drop take].
    destruct (sadd_loop_ok vs (o1 :: objs) new ∅ 0 HF Hnew) as (set' & argv & -> & Hset'); [rewrite size_empty; unfold INTSET_MAX; lia|].
    rewrite bind_ok, Z.add_0_l. specialize (Hsz' ∅). rewrite size_empty in Hsz'.
    destruct (Hwrite db1 set' (∅ ∪ list_to_set vs) Hdb1 eq_refl eq_refl Hset' (Hne ∅)) as (db2 & E2 & Hs2); [unfold INTSET_MAX; lia|].
    cbn [set_object] in E2. rewrite E2, bind_ok.
    eapply (does_count _ s (with_argv c _) db2 _ _ (fun db => emit (emit db (EvModified k)) (EvNotify (str "sadd") k))); [done| |done|done].
    intros db' Hdb'. by do 2 apply shows_emit.
  - rewrite (set_at_found m k X w Hm). rewrite Ht, bool_decide_eq_true_2 by done. cbn [negb]. rewrite bind_ok.
    unfold obj_set. rewrite Hp, bind_ok, Ha. cbn [drop take]. rewrite drop_0.
    destruct (sadd_loop_ok vs objs st X 0 HF Hset) as (set' & argv & -> & Hset'); [lia|]. rewrite bind_ok, Z.add_0_l. specialize (Hsz' X).
    destruct (write_members n (n - Z.of_nat (length vs) - 1) db m k o set' (X ∪ list_to_set vs) w _ Hs1 ltac:(lia) Hv Hm Ht Hrc Hset')
      as (db1 & -> & _ & Hs2 & _ & _); [lia|]. rewrite bind_ok.
    eapply (does_count _ s (with_argv c _) db1 _ _ (fun db => emit (emit db (EvModified k)) (EvNotify (str "sadd") k))); [by apply Hs2| |done|done].
    intros db' Hdb'. by do 2 apply shows_emit.
  - rewrite Hat, bool_decide_eq_false_2 by done. cbn [negb].
    destruct (shared_replies' c wrongtypeerr ltac:(by apply (ready_le _ _ 3)) ltac:(done)) as (out & -> & Hout). rewrite !bind_ok.
    exists (with_db s db), (with_out c out). split_and!; [done|by apply (shows_le n); [lia|]|by apply (replied_le _ _ 1)].
Qed.

Lemma srem_does n s c cmd key objs k vs m : shows n now (s_db s) m -> 0 <= n ->
  q_argv c = cmd :: key :: objs -> is_arg k key -> Forall2 is_arg vs objs -> ready' 3 (q_out c) ->
  let '(m', reply) := srem_spec m k vs in
  does' n 3 (q_out c) m' reply
    (sremCommand junk sdsZmallocSize embeddedSize client_obuf_limits unixtime en s c).
Proof.
  intros Hs Hn Ha Hk HF Hr. unfold sremCommand, lookupKeyWriteOrReply, arg, srem_spec. rewrite Ha. cbn [lookup list_lookup].
  rewrite bind_ok, (is_arg_key k) by done. rewrite bind_ok.
  destruct (write_set_lookup n (s_db s) m k Hs) as (db & r & -> & Hs1 & Hf & Hv & Hfind). rewrite bind_ok.
  destruct Hfind as [Hm|o st X w Ht Hp Hrc Hset HX Hsz Hm|o Ht Hm Hat].
  - rewrite (set_at_none m k Hm). destruct (shared_replies' c czero ltac:(by apply (ready_le _ _ 3)) ltac:(done)) as (out & -> & Hout).
    rewrite !bind_ok. replace (∅ ∖ list_to_set vs) with (∅ : gset bytes) by set_solver. rewrite intersection_empty_l_L, size_empty.
    exists (with_db s db), (with_out c out). split_and!; [done| |by apply (replied_le _ _ 1)].
    unfold put_set. rewrite bool_decide_eq_true_2, delete_id by done. done.
  - rewrite (set_at_found m k X w Hm), !bind_ok, (type_is_set c o Ht), !bind_ok.
    unfold obj_set. rewrite Hp, bind_ok, Ha. cbn [drop]. rewrite ?drop_0. destruct (srem_loop_ok vs objs st X 0 HF Hset HX ltac:(lia)) as (set' & -> & Hset'). rewrite bind_ok, Z.add_0_l. cbn [s_db with_db].
    assert (base.size (X ∖ list_to_set vs) <= base.size X)%nat by (apply subseteq_size; set_solver).
    assert (base.size (X ∩ list_to_set vs) <= base.size X)%nat by (apply subseteq_size; set_solver). unfold INTSET_MAX in Hsz.
    destruct (write_members n n db m k o set' (X ∖ list_to_set vs) w _ Hs1 ltac:(lia) Hv Hm Ht Hrc Hset')
      as (db1 & -> & Hdb1 & Hs2 & Hs3 & _); [unfold INTSET_MAX; lia|]. rewrite bind_ok.
    assert (exists db2, (if bool_decide (X ∖ list_to_set vs = ∅) then '(db, _) ← dbDelete en db1 k; Ok db else Ok db1) = Ok db2 /\
      shows n now db2 (put_set m k (X ∖ list_to_set vs) w)) as (db2 & -> & Hs4).
    { case_bool_decide as He; [|eauto]. destruct (Hs3 He db1 Hdb1 eq_refl eq_refl) as (db3 & -> & Hs4 & _). rewrite bind_ok. eauto. }
    rewrite bind_ok. set (j := Z.of_nat (base.size (X ∩ list_to_set vs))).
    replace (if negb (j =? 0) then j else 0) with j by (destruct (Z.eqb_spec j 0); cbn; lia).
    eapply (does_count _ (with_db s db) c db2 _ _ (fun db => if bool_decide (X ∖ list_to_set vs = ∅)
      then emit (emit (emit db (EvModified k)) (EvNotify (str "srem") k)) (EvNotify (str "del") k)
      else emit (emit db (EvModified k)) (EvNotify (str "srem") k))); [done| |unfold LLONG_MAX; lia|done].
    intros db' Hdb'. case_bool_decide; repeat apply shows_emit; done.
  - rewrite Hat, !bind_ok. destruct (does_wrong n s db c m o Hs1 Ht Hr) as (out & -> & Hd). rewrite bind_ok. exact Hd.
Qed.

Lemma does_flag n (s : session T) c m (b : bool) : shows n now (s_db s) m -> ready' 3 (q_out c) ->
  does' n 3 (q_out c) m (int_reply (if b then 1 else 0))
    (c ← add_shared junk sdsZmallocSize embeddedSize client_obuf_limits unixtime c (if b then cone else czero); Ok (s, c)).
Proof.
  intros Hs Hr. destruct b; (eapply does_reply; [done|apply shared_replies'; [by apply (ready_le _ _ 3)|done]|done|lia]).
Qed.

(** The set at a key after a lookup that only moved entries of its table. *)
Lemma rewrite_members n (db : redisDb T) m k o s X w : shows n now db m -> live now db k = Some o -> o_type o = OBJ_SET -> 1 <= o_refcount o ->
  set_is' s X -> X <> ∅ -> Z.of_nat (base.size X) + n + 1 < INTSET_MAX -> m !! k = Some (VOther (Members X), w) ->
  exists db1, write_value db k (with_ptr o (PtrSet s)) = Ok db1 /\ shows n now db1 m.
Proof.
  intros Hs Hl Ht Hrc Hset HX Hsz Hm. pose proof (shows_fresh n now db m k Hs ltac:(rewrite Hm; eauto)) as Hf. unfold fresh in Hf. rewrite Hl in Hf.
  destruct (write_members n n db m k o s X w _ Hs ltac:(lia) Hf Hm Ht Hrc Hset Hsz) as (db1 & E & _ & Hs1 & _).
  exists db1. split; [done|]. specialize (Hs1 HX). unfold put_set in Hs1. rewrite bool_decide_eq_false_2, insert_id in Hs1 by done. done.
Qed.

Lemma sismember_does n s c cmd key val k v m : shows n now (s_db s) m -> 0 <= n ->
  q_argv c = [cmd; key; val] -> is_arg k key -> is_arg v val -> ready' 3 (q_out c) ->
  does' n 3 (q_out c) m (sismember_spec m k v)
    (sismemberCommand junk sdsZmallocSize embeddedSize client_obuf_limits unixtime shareable en s c).
Proof.
  intros Hs Hn Ha Hk Hval Hr. unfold sismemberCommand, arg, sismember_spec. rewrite Ha. cbn [lookup list_lookup]. rewrite bind_ok.
  destruct (lookup_replies_live junk sdsZmallocSize embeddedSize client_obuf_limits unixtime zmalloc_size embedded_size en master loaded
    n s c key k m czero Hs Hk) as (db & out & r & -> & Hs1 & _ & Hl & Hout); [by apply (ready_le _ _ 3)|done|]. rewrite bind_ok.
  pose proof (shows_set_finds n db m k r Hs1 Hl) as Hfind.
  destruct Hfind as [Hm|o st X w Ht Hp Hrc Hset HX Hsz Hm|o Ht Hm Hat].
  - rewrite (set_at_none m k Hm). rewrite bool_decide_eq_false_2 by set_solver.
    exists (with_db s db), (with_out c out). split_and!; [done|done|by apply (replied_le _ _ 1)].
  - subst out. rewrite (set_at_found m k X w Hm), (type_is_set _ o Ht), bind_ok, (is_arg_key k) by done. rewrite bind_ok.
    cbn [with_out q_argv]. rewrite Ha. cbn [lookup list_lookup]. rewrite bind_ok.
    destruct (encode_ok junk shareable v val Hval) as (val' & -> & Hval' & Hv'). rewrite bind_ok. unfold obj_set. rewrite Hp, bind_ok.
    destruct (set_member_ok set_hash st X val' v Hset) as (st' & -> & Hset'); [unfold small; lia|done|done|]. rewrite bind_ok. cbn [s_db with_db].
    destruct (rewrite_members n db m k o st' X w Hs1 Hl Ht Hrc Hset' HX Hsz Hm) as (db1 & -> & Hs2). rewrite bind_ok.
    apply (does_flag n (with_db (with_db s db) db1) (set_arg (with_out c (q_out c)) 2 val') m (bool_decide (v ∈ X))); done.
  - subst out. rewrite Hat. destruct (does_wrong n s db (with_out c (q_out c)) m o Hs1 Ht Hr) as (out & -> & Hd). rewrite bind_ok. exact Hd.
Qed.

Lemma scard_does n s c cmd key k m : shows n now (s_db s) m -> 0 <= n ->
  q_argv c = [cmd; key] -> is_arg k key -> ready' 3 (q_out c) ->
  does' n 3 (q_out c) m (scard_spec m k)
    (scardCommand junk sdsZmallocSize embeddedSize client_obuf_limits unixtime en s c).
Proof.
  intros Hs Hn Ha Hk Hr. unfold scardCommand, arg, scard_spec. rewrite Ha. cbn [lookup list_lookup]. rewrite bind_ok.
  destruct (lookup_replies_live junk sdsZmallocSize embeddedSize client_obuf_limits unixtime zmalloc_size embedded_size en master loaded
    n s c key k m czero Hs Hk) as (db & out & r & -> & Hs1 & _ & Hl & Hout); [by apply (ready_le _ _ 3)|done|]. rewrite bind_ok.
  pose proof (shows_set_finds n db m k r Hs1 Hl) as Hfind.
  destruct Hfind as [Hm|o st X w Ht Hp Hrc Hset HX Hsz Hm|o Ht Hm Hat].
  - rewrite (set_at_none m k Hm), size_empty. exists (with_db s db), (with_out c out). split_and!; [done|done|by apply (replied_le _ _ 1)].
  - subst out. rewrite (set_at_found m k X w Hm), (type_is_set _ o Ht), bind_ok. unfold obj_set. rewrite Hp, bind_ok, (set_size_ok set_hash st X Hset).
    unfold INTSET_MAX in Hsz.
    eapply does_reply; [exact Hs1|apply longlong_replies'; [by apply (ready_le _ _ 3)|unfold LLONG_MIN, LLONG_MAX; lia]|done|lia].
  - subst out. rewrite Hat. destruct (does_wrong n s db (with_out c (q_out c)) m o Hs1 Ht Hr) as (out & -> & Hd). rewrite bind_ok. exact Hd.
Qed.

(** A member is taken out of a set, and the key of a set that became empty is
    deleted. *)
Lemma take_out n (db : redisDb T) m k o st v ele X w : shows n now db m -> 1 <= n -> vals db !! k = Some o -> m !! k = Some (VOther (Members X), w) ->
  o_type o = OBJ_SET -> 1 <= o_refcount o -> set_is' st (X ∖ {[v]}) -> v ∈ X -> strobj_ok ele -> objval ele = Some v ->
  Z.of_nat (base.size X) + n + 1 < INTSET_MAX ->
  exists db1 db2, write_value db k (with_ptr o (PtrSet st)) = Ok db1 /\
    (if setTypeSize st =? 0
     then '(db, _) ← dbDelete en (emit db1 (EvNotify (str "srem") k)) k; Ok (emit db (EvNotify (str "del") k))
     else Ok (emit db1 (EvNotify (str "srem") k))) = Ok db2 /\
    shows n now db2 (put_set m k (X ∖ {[v]}) w) /\ forall j, j <> k -> vals db2 !! j = vals db !! j.
Proof.
  intros Hs Hn Hv Hm Ht Hrc Hset Hin Hele Hev Hsz.
  assert (base.size (X ∖ {[v]}) <= base.size X)%nat by (apply subseteq_size; set_solver).
  destruct (write_members n n db m k o st (X ∖ {[v]}) w _ Hs ltac:(lia) Hv Hm Ht Hrc Hset ltac:(lia)) as (db1 & E & Hdb1 & Hs2 & Hs3 & V1).
  exists db1. rewrite (set_size_ok set_hash st _ Hset). destruct (decide (X ∖ {[v]} = ∅)) as [He|He].
  - rewrite He, size_empty. change (Z.of_nat 0 =? 0) with true. cbv iota.
    destruct (Hs3 He (emit db1 (EvNotify (str "srem") k)) ltac:(by apply db_ok_emit) eq_refl eq_refl) as (db3 & -> & Hs4 & V3).
    rewrite bind_ok. eexists. split_and!; [done|done|rewrite <- He; by apply shows_emit|]. intros j Hj. change (vals (emit db3 (EvNotify (str "del") k))) with (vals db3).
    by rewrite V3, lookup_delete_ne.
  - assert (base.size (X ∖ {[v]}) <> 0)%nat by (by rewrite size_empty_iff, leibniz_equiv_iff).
    replace (Z.of_nat (base.size (X ∖ {[v]})) =? 0) with false by (symmetry; apply Z.eqb_neq; lia).
    eexists. split_and!; [done|done|by apply shows_emit, Hs2|]. intros j Hj. change (vals (emit db1 (EvNotify (str "srem") k))) with (vals db1).
    by rewrite V1, lookup_insert_ne.
Qed.

Lemma shows_live n (db : redisDb T) m k r : shows n now db m -> vals db !! k = r -> is_some r = is_some (m !! k) -> live now db k = r.
Proof.
  intros Hs Hv He. rewrite (sh_map _ _ _ _ Hs k) in He. unfold entry in He. unfold live in *. rewrite Hv in *.
  destruct (expired now db k); [|done]. by destruct r.
Qed.

Lemma put_set_ne m k k2 X w : k2 <> k -> put_set m k X w !! k2 = m !! k2.
Proof. intros H. unfold put_set. case_bool_decide; [by rewrite lookup_delete_ne|by rewrite lookup_insert_ne]. Qed.

Lemma set_at_ne m k k2 X w : k2 <> k -> set_at (put_set m k X w) k2 = set_at m k2.
Proof. intros H. unfold set_at. by rewrite put_set_ne. Qed.

(** A member is put in a set, which is created if there is none. *)
Lemma put_in n (db : redisDb T) m k k2 dst v ele Y w2 : shows n now db m -> 1 <= n -> vals db !! k2 = dst -> fresh now db k2 -> set_finds n m k2 dst ->
  set_at m k2 = Some (Y, w2) -> strobj_ok ele -> objval ele = Some v ->
  exists db1 o set set' db2, match dst with
      | Some dst => Ok (db, dst)
      | None => new ← setTypeCreate ele; db ← dbAdd en db k2 (set_object new); Ok (db, set_object new)
      end = Ok (db1, o) /\
    obj_set o = Ok set /\ set_add set ele = Ok (set', bool_decide (v ∉ Y)) /\
    write_value (emit (emit db1 (EvModified k)) (EvModified k2)) k2 (with_ptr o (PtrSet set')) = Ok db2 /\
    shows (n - 1) now db2 (put_set m k2 (Y ∪ {[v]}) w2).
Proof.
  intros Hs Hn Hv Hf Hfind Hat Hele Hev. pose proof (sh_room _ _ _ _ Hs) as Hroom. pose proof room_max as Hmax.
  destruct Hfind as [Hm|o st X w Ht Hp Hrc Hset HX Hsz Hm|o Ht Hm Hat']; [| |congruence].
  - rewrite (set_at_none m k2 Hm) in Hat. injection Hat as <- <-.
    destruct (create_set_ok set_hash ele v Hele Hev) as (new & -> & Hnew). rewrite bind_ok.
    destruct (create_members n db m k2 new Hs ltac:(lia) Hf Hv Hm) as (db1 & -> & Hdb1 & Hwrite). rewrite bind_ok.
    destruct (set_add_ok junk set_hash set_can_resize set_max_entries new ∅ ele v Hnew) as (set' & E & Hset');
      [unfold small; rewrite size_empty; unfold INTSET_MAX; lia|done|done|].
    destruct (Hwrite (emit (emit db1 (EvModified k)) (EvModified k2)) set' ({[v]} ∪ ∅)) as (db2 & E2 & Hs2);
      [by do 2 apply db_ok_emit|done|done|done|set_solver| |].
    { rewrite union_empty_r_L, size_singleton. lia. }
    exists db1, (set_object new), new, set', db2. rewrite (union_comm_L ∅). done.
  - rewrite (set_at_found m k2 X w Hm) in Hat. injection Hat as <- <-.
    destruct (set_add_ok junk set_hash set_can_resize set_max_entries st X ele v Hset) as (set' & E & Hset'); [unfold small; lia|done|done|].
    assert (shows n now (emit (emit db (EvModified k)) (EvModified k2)) m) as Hs1 by (by do 2 apply shows_emit).
    assert (base.size ({[v]} ∪ X) <= 1 + base.size X)%nat as Hgrow.
    { rewrite size_union_alt, size_singleton. assert (base.size (X ∖ {[v]}) <= base.size X)%nat by (apply subseteq_size; set_solver). lia. }
    destruct (write_members n (n - 1) _ m k2 o set' ({[v]} ∪ X) w _ Hs1 ltac:(lia) Hv Hm Ht Hrc Hset' ltac:(lia)) as (db2 & E2 & _ & Hs2 & _).
    exists db, o, st, set', db2. unfold obj_set. rewrite Hp, (union_comm_L X). split_and!; try done. apply Hs2. set_solver.
Qed.

Lemma smove_does n s c cmd key key2 val k k2 v m : shows n now (s_db s) m -> 2 <= n ->
  q_argv c = [cmd; key; key2; val] -> is_arg k key -> is_arg k2 key2 -> is_arg v val -> ready' 3 (q_out c) ->
  let '(m', reply) := smove_spec m k k2 v in
  does' (n - 1) 3 (q_out c) m' reply
    (smoveCommand junk sdsZmallocSize embeddedSize client_obuf_limits unixtime shareable en s c).
Proof.
  intros Hs Hn Ha Hk Hk2 Hval Hr. assert (ready' 1 (q_out c)) as Hr1 by (by apply (ready_le _ _ 3)).
  unfold smoveCommand, arg, smove_spec. rewrite Ha. cbn [lookup list_lookup].
  rewrite !bind_ok, (is_arg_key k key Hk), bind_ok, (is_arg_key k2 key2 Hk2), bind_ok.
  destruct (write_set_lookup n (s_db s) m k Hs) as (db0 & r1 & -> & Hs0 & _ & Hv0 & Hfind1). rewrite bind_ok.
  destruct (write_set_lookup n db0 m k2 Hs0) as (db & r2 & Elk & Hs1 & Hf2 & Hv2 & Hfind2). rewrite Elk, !bind_ok.
  destruct (encode_ok junk shareable v val Hval) as (ele & -> & Hele & Hev). rewrite bind_ok.
  assert (shows (n - 1) now db m) as Hs1' by (apply (shows_le n); [lia|done]).
  destruct Hfind1 as [Hm|o st X w Ht Hp Hrc Hset HX Hsz Hm|o Ht Hm Hat].
  - rewrite Hm. apply (does_flag (n - 1) (with_db s db) (set_arg c 3 ele) m false); done.
  - rewrite Hm, (set_at_found m k X w Hm), (type_is_set _ o Ht), bind_ok.
    assert (vals db !! k = Some o) as Hv by (rewrite (lookup_keeps n db0 m k k2 db r2); [done|done|rewrite Hm; eauto|done|done]).
    assert (live now db k = Some o) as Hl by (pose proof (shows_fresh n now db m k Hs1 ltac:(rewrite Hm; eauto)) as F; unfold fresh in F; congruence).
    assert ((exists Y w2, set_at m k2 = Some (Y, w2) /\ match r2 with Some dst => checkType junk sdsZmallocSize embeddedSize client_obuf_limits unixtime (set_arg c 3 ele) dst OBJ_SET
        | None => Ok (set_arg c 3 ele, false) end = Ok (set_arg c 3 ele, false)) \/
      (exists dst, r2 = Some dst /\ o_type dst <> OBJ_SET /\ set_at m k2 = None)) as [(Y & w2 & Hat2 & ->)|(dst & -> & Ht2 & Hat2)].
    { destruct Hfind2 as [Hm2|o2 st2 Y w2 Ht2 Hp2 Hrc2 Hset2 HY Hsz2 Hm2|o2 Ht2 Hm2 Hat2]; [left|left|right; eauto].
      - exists ∅, None. by rewrite (set_at_none m k2 Hm2).
      - exists Y, w2. by rewrite (set_at_found m k2 Y w2 Hm2), (type_is_set _ o2 Ht2). }
    2:{ rewrite Hat2. destruct (does_wrong (n - 1) s db (set_arg c 3 ele) m dst Hs1' Ht2 Hr) as (out & -> & Hd). rewrite bind_ok. exact Hd. }
    rewrite Hat2, bind_ok. assert (obj_set o = Ok st) as -> by (unfold obj_set; by rewrite Hp). rewrite bind_ok.
    destruct (decide (k = k2)) as [Heq|Heq]; [rewrite !(bool_decide_eq_true_2 (k = k2)) by done|rewrite !(bool_decide_eq_false_2 (k = k2)) by done].
    + subst k2. destruct (set_member_ok set_hash st X ele v Hset) as (st' & -> & Hset'); [unfold small; lia|done|done|]. rewrite bind_ok.
      destruct (rewrite_members n db m k o st' X w Hs1 Hl Ht Hrc Hset' HX Hsz Hm) as (db1 & -> & Hs2). rewrite bind_ok.
      pose proof (does_flag (n - 1) (with_db s db1) (set_arg c 3 ele) m (bool_decide (v ∈ X)) ltac:(by apply (shows_le n); [lia|]) Hr) as Hd.
      case_bool_decide; exact Hd.
    + destruct (set_remove_ok junk set_hash set_can_resize st X ele v Hset) as (st' & -> & Hset'); [unfold small; lia|done|done|]. rewrite bind_ok.
      case_bool_decide as Hin; cbn [negb].
      * destruct (take_out n db m k o st' v ele X w Hs1 ltac:(lia) Hv Hm Ht Hrc Hset' Hin Hele Hev Hsz) as (db1 & db2 & -> & E2 & Hs2 & Hkeep).
        rewrite bind_ok, E2, bind_ok. set (m1 := put_set m k (X ∖ {[v]}) w) in *.
        assert (k2 <> k) as Hne by done. specialize (Hkeep k2 Hne).
        assert (set_finds n m1 k2 r2 /\ fresh now db2 k2) as [Hfind Hfresh].
        { assert (live now db2 k2 = r2) as Hl2.
          { apply (shows_live n db2 m1); [done|congruence|]. unfold m1. rewrite put_set_ne by done.
            by destruct Hfind2 as [-> | ? ? ? ? ? ? ? ? ? ? -> | ? ? [? ->] ?]. }
          split; [by apply (shows_set_finds n db2)|]. unfold fresh. congruence. }
        assert (set_at m1 k2 = Some (Y, w2)) as Hat1 by (unfold m1; by rewrite set_at_ne).
        destruct (put_in n db2 m1 k k2 r2 v ele Y w2 Hs2 ltac:(lia) ltac:(congruence) Hfresh Hfind Hat1 Hele Hev) as (db3 & o2 & set2 & set2' & db4 & -> & Eo & Ea & Ew & Hs4).
        rewrite bind_ok, Eo, bind_ok, Ea, bind_ok, Ew, bind_ok.
        eapply (does_flag (n - 1) (with_dirty (with_db s (if bool_decide (v ∉ Y) then emit db4 (EvNotify (str "sadd") k2) else db4))
          (if bool_decide (v ∉ Y) then 2 else 1)) (set_arg c 3 ele) (put_set m1 k2 (Y ∪ {[v]}) w2) true); [|exact Hr].
        cbn. case_bool_decide; [by apply shows_emit|done].
      * replace (X ∖ {[v]}) with X in Hset' by set_solver.
        destruct (rewrite_members n db m k o st' X w Hs1 Hl Ht Hrc Hset' HX Hsz Hm) as (db1 & -> & Hs2).
        rewrite bind_ok. apply (does_flag (n - 1) (with_db s db1) (set_arg c 3 ele) m false); [by apply (shows_le n); [lia|]|done].
  - destruct Hm as [x Hm]. rewrite Hm, Hat.
    destruct (does_wrong (n - 1) s db (set_arg c 3 ele) m o Hs1' Ht Hr) as (out & -> & Hd). rewrite bind_ok. exact Hd.
Qed.

End SetCommandsDo.
