(* ===== verification/CommandProofs.v ===== *)
(** * Every command does what is specified

    The requests of the commands of Keyspace.v, and the step that the theorems on
    the key space and on transactions share: the handler that the table names for
    a request replies what the specification replies, and leaves a database that
    shows the key space of the specification. *)

From S2P Require Import Prelude CLib Util Sds Dict IntSet Object SetType Reply Resp KeyDict Db Command Strings Keys Sets Multi Keyspace.
From S2P Require Import StringProofs KeyProofs SetProofs.
Local Open Scope Z_scope.

(** ** Requests *)

Definition request (cmd : kcmd) : list bytes :=
  match cmd with
  | Get k => [str "get"; k]
  | Set_ k v options => str "set" :: k :: v :: options
  | Setnx k v => [str "setnx"; k; v]
  | Setex k t v => [str "setex"; k; t; v]
  | Psetex k t v => [str "psetex"; k; t; v]
  | Getset k v => [str "getset"; k; v]
  | Setrange k o v => [str "setrange"; k; o; v]
  | Getrange k i j => [str "getrange"; k; i; j]
  | Append k v => [str "append"; k; v]
  | Strlen k => [str "strlen"; k]
  | Incr k => [str "incr"; k]
  | Decr k => [str "decr"; k]
  | Incrby k n => [str "incrby"; k; n]
  | Decrby k n => [str "decrby"; k; n]
  | Mget ks => str "mget" :: ks
  | Mset args => str "mset" :: args
  | Msetnx args => str "msetnx" :: args
  | Del ks => str "del" :: ks
  | Exists_ ks => str "exists" :: ks
  | Touch ks => str "touch" :: ks
  | Expire true UNIT_SECONDS k n => [str "expire"; k; n]
  | Expire true UNIT_MILLISECONDS k n => [str "pexpire"; k; n]
  | Expire false UNIT_SECONDS k n => [str "expireat"; k; n]
  | Expire false UNIT_MILLISECONDS k n => [str "pexpireat"; k; n]
  | Ttl UNIT_SECONDS k => [str "ttl"; k]
  | Ttl UNIT_MILLISECONDS k => [str "pttl"; k]
  | Type_ k => [str "type"; k]
  | Rename k k2 => [str "rename"; k; k2]
  | Renamenx k k2 => [str "renamenx"; k; k2]
  | Flushdb => [str "flushdb"]
  | Sadd k vs => str "sadd" :: k :: vs
  | Srem k vs => str "srem" :: k :: vs
  | Smove k k2 v => [str "smove"; k; k2; v]
  | Sismember k v => [str "sismember"; k; v]
  | Scard k => [str "scard"; k]
  end.

Definition name (cmd : kcmd) : bytes := hd [] (request cmd).

(** Nodes of the reply, and keys that the command may add, at most. *)
Definition nodes (cmd : kcmd) : Z := 3 * Z.of_nat (length (request cmd)).
Definition new_keys (cmd : kcmd) : Z := Z.of_nat (length (request cmd)).

(** The arguments have the number that the command table asks for, and the
    numbers that the code computes have 64 bits: the expire time, the end of the
    range of SETRANGE, and the negation of DECRBY. *)
Definition in_range (now : Z) (cmd : kcmd) : Prop :=
  let fits e u := forall n, string2ll e = Some n ->
    now + milliseconds u n <= TIME_MAX in
  match cmd with
  | Set_ _ _ options => match options_spec options false false None with Some (_, _, Some (e, u)) => fits e u | _ => True end
  | Setex _ e _ => fits e UNIT_SECONDS
  | Psetex _ e _ => fits e UNIT_MILLISECONDS
  | Setrange _ o v => forall n, string2ll o = Some n -> n + Z.of_nat (length v) <= LLONG_MAX
  | Decrby _ n => string2ll n <> Some LLONG_MIN
  | Mget ks | Del ks | Exists_ ks | Touch ks => (1 <= length ks)%nat /\ Z.of_nat (length ks) <= LLONG_MAX
  | Expire relative unit _ n => forall z, string2ll n = Some z -> LLONG_MIN <= milliseconds unit z <= LLONG_MAX /\
      LLONG_MIN <= milliseconds unit z + (if relative then now else 0) <= TIME_MAX
  | Mset args | Msetnx args => (2 <= length args)%nat
  | Sadd _ vs | Srem _ vs => (1 <= length vs)%nat
  | _ => True
  end.

(** The table has the command, and it takes these arguments. *)
Lemma request_entry now cmd : in_range now cmd ->
  exists entry, lookup_command (name cmd) = Some entry /\ cmd_proc entry <> AskingCommand /\ cmd_proc entry <> PingCommand /\
    no_nul (name cmd) /\ (strcasecmp (name cmd) (str "quit") =? 0) = false /\
    let argc := Z.of_nat (length (request cmd)) in
    (cmd_arity entry >? 0) && negb (cmd_arity entry =? argc) || (argc <? - cmd_arity entry) = false.
Proof.
  intros Hr. destruct cmd; try (destruct relative); try (destruct unit);
    (eexists; split; [vm_compute; reflexivity|]; cbn [cmd_proc cmd_arity request length]; split; [done|]; split; [done|];
    split; [repeat constructor; done|]; split; [done|]; try done); apply Z.ltb_ge; cbn in Hr; lia.
Qed.

(** The rounding of TTL stays in range. *)
Lemma kspec_times now m cmd : times_ok m -> in_range now cmd -> times_ok (kspec now m cmd).1.
Proof.
  intros Hm Hr. assert (forall k x, times_ok (<[k := (x, None)]> m)) as Hnone by (intros k x; by apply map_Forall_insert_2).
  assert (forall k x y w, m !! k = Some (y, w) -> times_ok (<[k := (x, w)]> m)) as Hsame.
  { intros k x y w E. apply map_Forall_insert_2; [|done]. exact (map_Forall_lookup_1 _ _ _ _ Hm E). }
  assert (forall nm k v nx xx e yes no, (forall t u z, e = Some (t, u) -> string2ll t = Some z -> now + milliseconds u z <= TIME_MAX) ->
    times_ok (set_spec now m nm k v nx xx e yes no).1) as Hset.
  { intros nm k v nx xx e yes no He. unfold set_spec, expire_spec. destruct e as [[t u]|].
    - destruct (string2ll t) as [z|] eqn:Ez; [|done]. destruct (z <=? 0); [done|]. destruct (_ || _); [done|].
      apply map_Forall_insert_2; [|done]. by apply (He t u z).
    - destruct (_ || _); [done|apply Hnone]. }
  assert (forall f args m, (length args <= f)%nat -> times_ok m -> times_ok (mset_spec m args)) as Hmset.
  { intros f. induction f as [|f IH]; intros args m0 Hf Hm0; (destruct args as [|k [|v rest]]; try done); cbn [length] in Hf; [lia|].
    cbn [mset_spec]. apply IH; [lia|]. by apply map_Forall_insert_2. }
  assert (forall k n, times_ok (incr_spec m k n).1) as Hincr.
  { intros k n. unfold incr_spec. destruct (m !! k) as [[[v|] w]|] eqn:E; [|done|]; [destruct (string2ll v); [|done]|];
      (destruct (bool_decide _); [|done]); [by eapply Hsame|apply Hnone]. }
  assert (forall ks m, times_ok m -> times_ok (del_spec m ks).1) as Hdel.
  { intros ks. induction ks as [|k ks IH]; intros m0 Hm0; [done|]. cbn. specialize (IH (delete k m0) (map_Forall_delete _ _ _ Hm0)).
    by destruct (del_spec (delete k m0) ks). }
  assert (forall k k2 nx, times_ok (rename_spec m k k2 nx).1) as Hren.
  { intros k k2 nx. unfold rename_spec. destruct (m !! k) as [x|] eqn:E; [|done]. destruct (_ || _); [done|].
    apply map_Forall_insert_2; [exact (map_Forall_lookup_1 _ _ _ _ Hm E)|by apply map_Forall_delete]. }
  assert (forall k X w, set_at m k = Some (X, w) -> from_option (fun w => w <= TIME_MAX) True w) as Hat.
  { intros k X w. unfold set_at. destruct (m !! k) as [[[|[]] w']|] eqn:E; try done; intros [= <- <-]; [|done].
    exact (map_Forall_lookup_1 _ _ _ _ Hm E). }
  assert (forall m k X w, times_ok m -> from_option (fun w => w <= TIME_MAX) True w -> times_ok (put_set m k X w)) as Hput.
  { intros m0 k X w Hm0 Hw. unfold put_set. case_bool_decide; [by apply map_Forall_delete|by apply map_Forall_insert_2]. }
  destruct cmd; cbn [kspec] in *; cbn [in_range] in Hr; try done; try (apply Hincr).
  - destruct (options_spec options false false None) as [[[nx xx] e]|]; [|done]. apply Hset. intros t u z -> Ez. by apply Hr.
  - by apply Hset.
  - apply Hset. intros ? ? z [= <- <-]. apply Hr.
  - apply Hset. intros ? ? z [= <- <-]. apply Hr.
  - destruct (m !! k) as [[[]?]|]; [apply Hnone|done|apply Hnone].
  - unfold setrange_spec. destruct (string2ll offset) as [o|]; [|done]. destruct (o <? 0); [done|].
    destruct (m !! k) as [[[t|] w]|] eqn:E; [|done|]; (destruct (bool_decide _); [done|]); (destruct (_ >? _); [done|]); [by eapply Hsame|apply Hnone].
  - unfold append_spec. destruct (m !! k) as [[[t|] w]|] eqn:E; [|done|apply Hnone]. destruct (_ >? _); [done|by eapply Hsame].
  - unfold incrby_spec. destruct (string2ll n); [apply Hincr|done].
  - unfold incrby_spec. destruct (string2ll n); [apply Hincr|done].
  - destruct (Nat.odd (length args)); [done|by apply (Hmset (length args))].
  - destruct (Nat.odd (length args)); [done|]. destruct (any_key m args); [done|by apply (Hmset (length args))].
  - specialize (Hdel ks m Hm). by destruct (del_spec m ks).
  - unfold expire_cmd_spec. destruct (string2ll n) as [z|] eqn:Ez; [|done]. destruct (m !! k) as [[x w]|]; [|done]. destruct (Hr z eq_refl) as [_ [_ Hz]].
    cbn [fst]. destruct (_ <=? now); [by apply map_Forall_delete|by apply map_Forall_insert_2].
  - unfold sadd_spec. destruct (set_at m k) as [[X w]|] eqn:E; [|done]. by apply Hput; [|apply (Hat k X)].
  - unfold srem_spec. destruct (set_at m k) as [[X w]|] eqn:E; [|done]. by apply Hput; [|apply (Hat k X)].
  - unfold smove_spec. destruct (m !! k); [|done]. destruct (set_at m k) as [[X w]|] eqn:E1; [|done].
    destruct (set_at m k2) as [[Y w2]|] eqn:E2; [|done]. 
    destruct (bool_decide (v ∈ X)); [|done]. destruct (bool_decide (k = k2)); [done|].
    apply Hput; [|by apply (Hat k2 Y)]. by apply Hput; [|apply (Hat k X)].
Qed.

Lemma alive_times now m : times_ok m -> times_ok (alive now m).
Proof. intros H k x [Hx _]%map_lookup_filter_Some. by apply (H k). Qed.

(** ** Owners *)

(** Owners of the stored objects come and go: a client that frees its arguments,
    or a reply that is sent. *)
Definition recounted (o o' : robj) : Prop :=
  o_type o' = o_type o /\ o_encoding o' = o_encoding o /\ o_ptr o' = o_ptr o /\ (1 <= o_refcount o -> 1 <= o_refcount o').

Section Recounted.
Context {T : Type -> Type} `{KD : KeyDict T} `{KL : !KeyDictLaws T} `{SC : SetConfig}.

Definition recounted_db (db db' : redisDb T) : Prop :=
  db_ok db' /\ exps db' = exps db /\ forall k, option_Forall2 recounted (vals db !! k) (vals db' !! k).

Lemma recounted_shows n now db db' m : shows n now db m -> recounted_db db db' -> shows n now db' m.
Proof.
  intros [H1 H2 H3 H4] (Hdb' & X & V).
  assert (forall k, option_Forall2 recounted (live now db k) (live now db' k)) as HL.
  { intros k. unfold live, expired. rewrite X. destruct (match exps db !! k with Some w => w <? now | None => false end); [constructor|apply V]. }
  assert (base.size (vals db') = base.size (vals db)) as Hz.
  { rewrite <- !size_dom. f_equal. apply leibniz_equiv. intros k. rewrite !elem_of_dom. destruct (V k); split; intros []; eauto; done. }
  split; [done|by rewrite Hz| |].
  - intros k o' Hl. specialize (HL k). rewrite Hl in HL. inversion HL as [o ? Hrec E|]; subst. destruct (Hrec) as (R1 & R2 & R3 & R4).
    destruct (H3 k o (eq_sym E)) as [F1 F2]. unfold value_fits, strobj_ok, nodeval, objval in *. rewrite R1, R2, R3. split; [naive_solver|].
    intros Ht. destruct (F2 Ht) as (st & X' & ? & ? & ? & ? & ?). exists st, X'. split_and!; auto.
  - intros k. rewrite H4. unfold entry. rewrite X. specialize (HL k). destruct HL as [o o' (R1 & R2 & R3 & R4)|]; [|done]. cbn.
    unfold oval, oother, nodeval, objval. by rewrite R1, R3.
Qed.

Lemma recounted_refl (db : redisDb T) : db_ok db -> recounted_db db db.
Proof. intros Hdb. split; [done|]. split; [done|]. intros k. destruct (vals db !! k); constructor. done. Qed.
End Recounted.

Section Dispatch.
Context {T : Type -> Type} `{KD : KeyDict T} `{KL : !KeyDictLaws T} `{SC : SetConfig}.
Variable junk : Z.
Variable sdsZmallocSize : sds -> Z.
Variable embeddedSize : sds -> Z.
Variable client_obuf_limits : client_type -> obuf_limits.
Variable unixtime : Z.
Variable shareable : bool.
Variable other_proc : proc -> session T -> reqst -> res (session T * reqst).
Hypothesis zmalloc_size : forall s, 0 <= sdsZmallocSize s < 2 ^ 48.
Hypothesis embedded_size : forall s, 0 <= embeddedSize s < 2 ^ 48.

(** The handler does what is specified, and needs less room than is left. *)
Ltac by_command n r L :=
  first [ eapply (does_pair_le _ _ _ n _ r); [eapply L; eauto with lia|lia|lia]
        | cbn [kspec]; eapply (does_le _ _ _ n _ r); [eapply L; eauto with lia|lia|lia] ].

(** One command, from the handler of its entry in the table. *)
Lemma command_does en n cmd entry (s : session T) c m : e_masterhost en = false -> e_loading en = false -> 0 <= e_now en ->
  shows n (e_now en) (s_db s) m -> times_ok m -> new_keys cmd <= n -> in_range (e_now en) cmd ->
  Forall2 is_arg (request cmd) (q_argv c) -> ready sdsZmallocSize embeddedSize (nodes cmd) (q_out c) ->
  lookup_command (name cmd) = Some entry ->
  let '(m', reply) := kspec (e_now en) m cmd in
  does sdsZmallocSize embeddedSize en (n - new_keys cmd) (nodes cmd) (q_out c) m' reply
    (call junk sdsZmallocSize embeddedSize client_obuf_limits unixtime shareable
      (handlers junk sdsZmallocSize embeddedSize client_obuf_limits unixtime shareable other_proc en) en entry s c).
Proof.
  intros Hm Hl Hnow Hs Htimes Hn Hrange HF Hr Hent. remember (q_argv c) as objs eqn:Hq. symmetry in Hq.
  unfold new_keys, nodes in *. assert (TIME_MAX <= LLONG_MAX) as Hmax by (unfold TIME_MAX; lia).
  assert (forall r, r <= 3 * Z.of_nat (length (request cmd)) -> ready sdsZmallocSize embeddedSize r (q_out c)) as Hr'
    by (intros r Hle; by eapply ready_le).
  destruct cmd; try (destruct relative); try (destruct unit);
    (match type of Hent with ?a = _ => let b := eval vm_compute in a in change a with b in Hent end; injection Hent as <-);
    unfold call, handlers; cbn [cmd_proc string_proc key_proc set_proc];
    cbn [request length] in *; apply Forall2_cons_inv_l in HF as (o0 & os & _ & HF & ->);
    repeat match goal with HF : Forall2 is_arg (_ :: _) _ |- _ =>
      apply Forall2_cons_inv_l in HF as (? & ? & ? & HF & ->) end;
    try (apply Forall2_nil_inv_l in HF; subst); cbn [in_range] in Hrange.
  - by_command n 3 get_does.
  - by_command (n - 1) 3 set_does. intros nx xx e E t u z -> Hz. rewrite E in Hrange. specialize (Hrange z Hz). lia.
  - by_command (n - 1) 3 setnx_does.
  - by_command (n - 1) 3 setex_does. intros t' u z [= <- <-] Hz. specialize (Hrange z Hz). lia.
  - by_command (n - 1) 3 setex_does. intros t' u z [= <- <-] Hz. specialize (Hrange z Hz). lia.
  - by_command (n - 1) 3 getset_does.
  - by_command (n - 1) 3 setrange_does.
  - by_command n 3 getrange_does.
  - by_command (n - 1) 3 append_does.
  - by_command n 3 strlen_does.
  - by_command (n - 1) 3 incrDecr_does; by rewrite ?Hq.
  - by_command (n - 1) 3 incrDecr_does; by rewrite ?Hq.
  - by_command (n - 1) 3 incrby_does.
  - by_command (n - 1) 3 incrby_does.
  - by_command n (3 * Z.of_nat (length ks) + 1) mget_does.
  - eapply (does_pair_le _ _ _ (n - Z.of_nat (length args)) _ 3); [eapply mset_does with (nx := false); eauto with lia|lia|lia].
  - eapply (does_pair_le _ _ _ (n - Z.of_nat (length args)) _ 3); [eapply mset_does with (nx := true); eauto with lia|lia|lia].
  - by_command n 3 del_does.
  - by_command n 3 exists_does.
  - by_command n 3 exists_does.
  - eapply (does_pair_le _ _ _ n _ 3); [eapply expire_does with (relative := true); eauto with lia|lia|lia]. intros z Hz. specialize (Hrange z Hz). lia.
  - eapply (does_pair_le _ _ _ n _ 3); [eapply expire_does with (relative := true); eauto with lia|lia|lia]. intros z Hz. specialize (Hrange z Hz). lia.
  - eapply (does_pair_le _ _ _ n _ 3); [eapply expire_does with (relative := false); eauto with lia|lia|lia]. intros z Hz. specialize (Hrange z Hz). lia.
  - eapply (does_pair_le _ _ _ n _ 3); [eapply expire_does with (relative := false); eauto with lia|lia|lia]. intros z Hz. specialize (Hrange z Hz). lia.
  - cbn [kspec]. eapply (does_le _ _ _ n _ 3); [eapply ttl_does with (unit := UNIT_SECONDS); eauto with lia|lia|lia].
  - cbn [kspec]. eapply (does_le _ _ _ n _ 3); [eapply ttl_does with (unit := UNIT_MILLISECONDS); eauto with lia|lia|lia].
  - by_command n 3 type_does.
  - eapply (does_pair_le _ _ _ (n - 1) _ 3); [eapply rename_does with (nx := false); eauto with lia|lia|lia].
  - eapply (does_pair_le _ _ _ (n - 1) _ 3); [eapply rename_does with (nx := true); eauto with lia|lia|lia].
  - by_command n 3 flushdb_does.
  - by_command (n - Z.of_nat (length vs) - 1) 3 sadd_does.
  - by_command n 3 srem_does.
  - by_command (n - 1) 3 smove_does.
  - by_command n 3 sismember_does.
  - by_command n 3 scard_does.
Qed.
End Dispatch.
