(* ===== verification/Signals.v ===== *)
(** * The commands announce what they change

    What the transactions need of every command: it leaves the queue, the watched
    keys and the index alone, and a key that it changes is announced with
    [signalModifiedKey] or [signalFlushedDb]. The lemmas follow the paths of a
    handler that returns. *)

From S2P Require Import Prelude CLib Util Sds Dict IntSet Object SetType Reply Resp KeyDict Db Command Strings Keys Sets Multi Keyspace Transactions.
From S2P Require Import StringProofs KeyProofs SetProofs CommandProofs.
Local Open Scope Z_scope.

(** The paths of a handler that returns: [H] is an equation for its result. *)
Ltac path H :=
  repeat match type of H with
  | Ok _ = Ok _ => injection H as H; try subst
  | (_, _) = (_, _) => injection H as H; try subst
  | Fault _ = Ok _ => discriminate H
  | (Ok _ ≫= _) = Ok _ => rewrite bind_ok in H
  | (?e ≫= _) = Ok _ =>
      let E := fresh "E" in destruct e eqn:E; [rewrite bind_ok in H|discriminate H]
  | (let '(_, _) := ?p in _) = Ok _ => is_var p; destruct p
  | (if ?b then _ else _) = Ok _ => destruct b eqn:?
  | (match ?o with Some _ => _ | None => _ end) = Ok _ => destruct o eqn:?
  | (match ?o with [] => _ | _ :: _ => _ end) = Ok _ => destruct o eqn:?
  | context [match ?x with (_, _) => _ end] => is_var x; destruct x
  end.

Create HintDb signals.

Lemma nothing_added (V X : gset bytes) : Z.of_nat (base.size (V ∖ X)) = 0 -> X ∪ V = X.
Proof.
  intros H. assert (base.size (V ∖ X) = 0)%nat as Hz%size_empty_inv by lia.
  clear H. apply set_eq. intros x. destruct (decide (x ∈ X)), (decide (x ∈ V)); set_solver.
Qed.

Lemma nothing_removed (V X : gset bytes) : Z.of_nat (base.size (X ∩ V)) = 0 -> X ∖ V = X.
Proof.
  intros H. assert (base.size (X ∩ V) = 0)%nat as Hz%size_empty_inv by lia.
  clear H. apply set_eq. intros x. destruct (decide (x ∈ X)), (decide (x ∈ V)); set_solver.
Qed.

Section Signals.
Context {T : Type -> Type} `{KD : KeyDict T} `{KL : !KeyDictLaws T} `{SC : SetConfig}.
Variable junk : Z.
Variable sdsZmallocSize : sds -> Z.
Variable embeddedSize : sds -> Z.
Variable client_obuf_limits : client_type -> obuf_limits.
Variable unixtime : Z.
Variable shareable : bool.
Hypothesis zmalloc_size : forall s, 0 <= sdsZmallocSize s < 2 ^ 48.
Hypothesis embedded_size : forall s, 0 <= embeddedSize s < 2 ^ 48.
Variable en : env.
Hypothesis master : e_masterhost en = false.
Hypothesis loaded : e_loading en = false.
#[local] Abbreviation now := (e_now en).

(** The transaction state of the session is not changed. *)
Definition framed (s s' : session T) : Prop :=
  s_queued s' = s_queued s /\ s_watched s' = s_watched s /\ s_watching s' = s_watching s.

(** *** Events *)

(** The keys that the command may announce. *)
Variable P : bytes -> Prop.

Definition plain (e : db_event T) : Prop := match e with EvFlushed _ => False | EvModified k => P k | _ => True end.

(** Events are added to those before; no other keys are announced, and none of the
    events is a flush. *)
Definition adds (db db' : redisDb T) : Prop := exists l, db_events db' = db_events db ++ l /\ Forall plain l.

Lemma adds_refl (db : redisDb T) : adds db db.
Proof. exists []. by rewrite app_nil_r. Qed.

Lemma adds_mk (db0 db : redisDb T) d e : adds db0 db -> adds db0 (mkDb d e (db_events db)).
Proof. done. Qed.

Lemma adds_emit (db0 db : redisDb T) e : plain e -> adds db0 db -> adds db0 (emit db e).
Proof. intros He (l & E & Hl). exists (l ++ [e]). cbn. rewrite E, app_assoc. split; [done|]. apply Forall_app. split; [done|]. by apply Forall_singleton. Qed.

Lemma adds_trans (db0 db db' : redisDb T) : adds db0 db -> adds db db' -> adds db0 db'.
Proof. intros (l & E & Hl) (l' & E' & Hl'). exists (l ++ l'). rewrite E', E, app_assoc. split; [done|]. by apply Forall_app. Qed.

Lemma adds_elem (db db' : redisDb T) e : adds db db' -> e ∈ db_events db -> e ∈ db_events db'.
Proof. intros (l & -> & _) He. apply elem_of_app. by left. Qed.

Lemma ev_here (db : redisDb T) e : e ∈ db_events (emit db e).
Proof. cbn. apply elem_of_app. right. by apply list_elem_of_singleton. Qed.

Lemma ev_emit (db : redisDb T) e e' : e ∈ db_events db -> e ∈ db_events (emit db e').
Proof. intros H. cbn. apply elem_of_app. by left. Qed.

#[local] Hint Resolve adds_refl adds_mk ev_here ev_emit : signals.
#[local] Hint Extern 1 (adds _ (emit _ _)) => (apply adds_emit; [first [exact I|assumption]|]) : signals.

Lemma adds_find (db0 db : redisDb T) k db' r : dict_find db k = Ok (db', r) -> adds db0 db -> adds db0 db'.
Proof. unfold dict_find. intros H ?. path H. eauto with signals. Qed.
#[local] Hint Resolve adds_find : signals.

Lemma adds_expire (db0 db : redisDb T) k db' w : getExpire db k = Ok (db', w) -> adds db0 db -> adds db0 db'.
Proof. unfold getExpire, expires_find. intros H ?. path H; try done; path E; eauto 6 with signals. Qed.
#[local] Hint Resolve adds_expire : signals.

Lemma adds_delete (db0 db : redisDb T) k db' b : dbDelete en db k = Ok (db', b) -> adds db0 db -> adds db0 db'.
Proof. unfold dbDelete. intros H ?. path H; try path E; destruct (_ && _); eauto 6 with signals. Qed.
#[local] Hint Resolve adds_delete : signals.

Lemma adds_if_needed (db0 db : redisDb T) k db' b : expireIfNeeded en db k = Ok (db', b) -> adds db0 db -> adds db0 db'.
Proof. unfold expireIfNeeded. intros H ?. path H; eauto with signals. Qed.
#[local] Hint Resolve adds_if_needed : signals.

Lemma adds_remove_expire (db0 db : redisDb T) k db' b : removeExpire db k = Ok (db', b) -> adds db0 db -> adds db0 db'.
Proof. unfold removeExpire. intros H ?. path H. eauto with signals. Qed.
#[local] Hint Resolve adds_remove_expire : signals.

Lemma adds_set_expire (db0 db : redisDb T) k w db' : setExpire db k w = Ok db' -> adds db0 db -> adds db0 db'.
Proof. unfold setExpire. intros H ?. path H. eauto with signals. Qed.
#[local] Hint Resolve adds_set_expire : signals.

Lemma adds_add (db0 db : redisDb T) k v db' : dbAdd en db k v = Ok db' -> adds db0 db -> adds db0 db'.
Proof. unfold dbAdd. intros H ?. path H. destruct (e_cluster en), (bool_decide _); eauto with signals. Qed.
#[local] Hint Resolve adds_add : signals.

Lemma adds_overwrite (db0 db : redisDb T) k v db' : dbOverwrite db k v = Ok db' -> adds db0 db -> adds db0 db'.
Proof. unfold dbOverwrite. intros H ?. path H. eauto with signals. Qed.
#[local] Hint Resolve adds_overwrite : signals.

Lemma adds_write (db0 db : redisDb T) k v db' : write_value db k v = Ok db' -> adds db0 db -> adds db0 db'.
Proof. unfold write_value. intros H ?. path H. eauto with signals. Qed.
#[local] Hint Resolve adds_write : signals.

Lemma adds_lookup_write (db0 db : redisDb T) k db' r : lookupKeyWrite en db k = Ok (db', r) -> adds db0 db -> adds db0 db'.
Proof. unfold lookupKeyWrite, lookupKey. intros H ?. path H. eauto with signals. Qed.
#[local] Hint Resolve adds_lookup_write : signals.

Lemma adds_lookup_read (db0 db : redisDb T) k db' r : lookupKeyReadWithFlags en db k = Ok (db', r) -> adds db0 db -> adds db0 db'.
Proof. unfold lookupKeyReadWithFlags, lookupKey. intros H ?. path H; eauto with signals. Qed.
#[local] Hint Resolve adds_lookup_read : signals.

Lemma adds_set_key (db0 db : redisDb T) k v db' : setKey en db k v = Ok db' -> P k -> adds db0 db -> adds db0 db'.
Proof. unfold setKey. intros H ? ?. path H; path E0; eauto 6 with signals. Qed.
#[local] Hint Resolve adds_set_key : signals.

(** The same for the events that were there. *)

Lemma ev_find (db : redisDb T) k db' r e : dict_find db k = Ok (db', r) -> e ∈ db_events db -> e ∈ db_events db'.
Proof. intros H. apply adds_elem. eauto with signals. Qed.
Lemma ev_expire (db : redisDb T) k db' w e : getExpire db k = Ok (db', w) -> e ∈ db_events db -> e ∈ db_events db'.
Proof. intros H. apply adds_elem. eauto with signals. Qed.
Lemma ev_delete (db : redisDb T) k db' b e : dbDelete en db k = Ok (db', b) -> e ∈ db_events db -> e ∈ db_events db'.
Proof. intros H. apply adds_elem. eauto with signals. Qed.
Lemma ev_if_needed (db : redisDb T) k db' b e : expireIfNeeded en db k = Ok (db', b) -> e ∈ db_events db -> e ∈ db_events db'.
Proof. intros H. apply adds_elem. eauto with signals. Qed.
Lemma ev_remove_expire (db : redisDb T) k db' b e : removeExpire db k = Ok (db', b) -> e ∈ db_events db -> e ∈ db_events db'.
Proof. intros H. apply adds_elem. eauto with signals. Qed.
Lemma ev_set_expire (db : redisDb T) k w db' e : setExpire db k w = Ok db' -> e ∈ db_events db -> e ∈ db_events db'.
Proof. intros H. apply adds_elem. eauto with signals. Qed.
Lemma ev_add (db : redisDb T) k v db' e : dbAdd en db k v = Ok db' -> e ∈ db_events db -> e ∈ db_events db'.
Proof. intros H. apply adds_elem. eauto with signals. Qed.
Lemma ev_overwrite (db : redisDb T) k v db' e : dbOverwrite db k v = Ok db' -> e ∈ db_events db -> e ∈ db_events db'.
Proof. intros H. apply adds_elem. eauto with signals. Qed.
Lemma ev_write (db : redisDb T) k v db' e : write_value db k v = Ok db' -> e ∈ db_events db -> e ∈ db_events db'.
Proof. intros H. apply adds_elem. eauto with signals. Qed.
Lemma ev_lookup_write (db : redisDb T) k db' r e : lookupKeyWrite en db k = Ok (db', r) -> e ∈ db_events db -> e ∈ db_events db'.
Proof. intros H. apply adds_elem. eauto with signals. Qed.
Lemma ev_lookup_read (db : redisDb T) k db' r e : lookupKeyReadWithFlags en db k = Ok (db', r) -> e ∈ db_events db -> e ∈ db_events db'.
Proof. intros H. apply adds_elem. eauto with signals. Qed.
Lemma ev_set_key (db : redisDb T) k v db' e : setKey en db k v = Ok db' -> P k -> e ∈ db_events db -> e ∈ db_events db'.
Proof. intros H ?. apply adds_elem. eauto with signals. Qed.
#[local] Hint Resolve ev_find ev_expire ev_delete ev_if_needed ev_remove_expire ev_set_expire ev_add ev_overwrite ev_write ev_lookup_write ev_lookup_read ev_set_key : signals.

(** The key that is set is announced. *)
Lemma set_key_signals (db : redisDb T) k v db' : setKey en db k v = Ok db' -> EvModified k ∈ db_events db'.
Proof. unfold setKey. intros H. path H. apply ev_here. Qed.
#[local] Hint Resolve set_key_signals : signals.

(** *** Lookups *)

(** Lookups may delete keys that have expired, and reorganise the dictionaries. *)
Record still (db db' : redisDb T) : Prop := {
  st_ok : db_ok db';
  st_live : same_live now db db';
  st_size : (base.size (vals db') <= base.size (vals db))%nat
}.

Lemma still_refl (db : redisDb T) : db_ok db -> still db db.
Proof. by split. Qed.

Lemma still_write (db0 db : redisDb T) k db' r : lookupKeyWrite en db k = Ok (db', r) -> still db0 db -> still db0 db'.
Proof.
  intros E [H1 H2 H3]. destruct (lookupKeyWrite_ok en db k H1 loaded master) as (d & E' & Hd & _ & Hl & Hz & _).
  rewrite E' in E. injection E as <- _. split; [done|by etrans|lia].
Qed.

Lemma still_expire (db0 db : redisDb T) k db' w : getExpire db k = Ok (db', w) -> still db0 db -> still db0 db'.
Proof.
  intros E [H1 H2 H3]. destruct (getExpire_ok db k H1) as (d & E' & Hd & V & X). rewrite E' in E. injection E as <- _.
  split; [done| |by rewrite V]. etrans; [done|]. by apply live_same.
Qed.

Lemma still_read (db0 db : redisDb T) k db' r : lookupKeyRead en db k = Ok (db', r) -> still db0 db -> still db0 db'.
Proof.
  intros E [H1 H2 H3]. destruct (lookupKeyRead_ok en db k H1 loaded master) as (d & E' & Hd & Hl & Hz & _).
  rewrite E' in E. injection E as <- _. split; [done|by etrans|lia].
Qed.
#[local] Hint Resolve still_refl still_write still_expire still_read : signals.

Lemma still_shows n (db db' : redisDb T) m : still db db' -> shows n now db m -> shows n now db' m.
Proof. intros [H1 H2 H3] Hs. by apply (shows_same n now db). Qed.

(** *** The handlers *)

(** Events are added; a flush announces the dictionary that is flushed, and may
    concern every key. *)
Definition evolves (db db' : redisDb T) : Prop :=
  exists l, db_events db' = db_events db ++ l /\ Forall (fun e => match e with EvFlushed d => d = db_dict db /\ forall k, P k | EvModified k => P k | _ => True end) l.

Lemma adds_evolves (db db' : redisDb T) : adds db db' -> evolves db db'.
Proof. intros (l & E & Hl). exists l. split; [done|]. eapply Forall_impl; [exact Hl|]. by intros []. Qed.
#[local] Hint Resolve adds_evolves : signals.

(** The transaction state is kept, and the events grow. *)
Definition keeps (s s' : session T) : Prop := framed s s' /\ evolves (s_db s) (s_db s').

Lemma keeps_elem (s s' : session T) e : keeps s s' -> e ∈ db_events (s_db s) -> e ∈ db_events (s_db s').
Proof. intros [_ (l & -> & _)] He. apply elem_of_app. by left. Qed.

(** The announcements are those that the command may make. *)
Definition within (s s' : session T) : Prop := forall e, e ∈ db_events (s_db s') -> e ∈ db_events (s_db s) \/
  match e with EvFlushed d => kd_ok d /\ forall k, P k | EvModified k => P k | _ => True end.

Lemma keeps_within (s s' : session T) : keeps s s' -> db_ok (s_db s) -> within s s'.
Proof.
  intros [_ (l & E & Hl)] Hdb e He. rewrite E in He. apply elem_of_app in He as [He|He]; [by left|right].
  pose proof (proj1 (Forall_forall _ _) Hl _ He) as Hx. destruct e; try done. destruct Hx as [-> Hk]. split; [apply Hdb|done].
Qed.

Lemma keeps_refl (s : session T) : keeps s s.
Proof. split; [done|]. apply adds_evolves, adds_refl. Qed.

Lemma keeps_with_db (s : session T) db : adds (s_db s) db -> keeps s (with_db s db).
Proof. intros H. split; [done|]. by apply adds_evolves. Qed.

(** The command has only looked keys up, or announces the keys that it changes. *)
Definition announces (ks : list bytes) (s s' : session T) : Prop :=
  still (s_db s) (s_db s') \/ Forall (fun k => EvModified k ∈ db_events (s_db s')) ks.

Lemma announces_quiet ks (s : session T) db : still (s_db s) db -> announces ks s (with_db s db).
Proof. by left. Qed.
Lemma announces_none ks (s : session T) : db_ok (s_db s) -> announces ks s s.
Proof. left. by apply still_refl. Qed.
#[local] Hint Resolve announces_quiet announces_none : signals.

Lemma set_refused_ev flags (db0 db : redisDb T) k db' b : set_refused en db flags k = Ok (db', b) -> adds db0 db -> adds db0 db'.
Proof. unfold set_refused. intros H ?. path H; path E; eauto with signals. Qed.

Lemma set_refused_still (db0 db : redisDb T) flags k db' b : set_refused en db flags k = Ok (db', b) -> still db0 db -> still db0 db'.
Proof. unfold set_refused. intros H ?. path H; path E; eauto with signals. Qed.
#[local] Hint Resolve set_refused_ev set_refused_still : signals.

(** An argument that is a key. *)
Definition key_arg (c : reqst) (i : nat) (k : bytes) : Prop := exists o, q_argv c !! i = Some o /\ obj_key o = Ok k.

Lemma arg_key c i k o : key_arg c i k -> arg c i = Ok o -> obj_key o = Ok k.
Proof. unfold arg. intros (x & -> & Hx) [= <-]. done. Qed.

Lemma set_arg_key c i j k o : i <> j -> key_arg c i k -> key_arg (set_arg c j o) i k.
Proof. intros Hne (x & Hx & Hk). exists x. split; [|done]. cbn. by rewrite list_lookup_insert_ne. Qed.

(** The same argument is the same key. *)
Ltac same_key :=
  repeat match goal with
  | Hk : key_arg ?c ?i ?k, E : arg (set_arg ?c ?j _) ?i = Ok _ |- _ =>
      apply (arg_key _ _ k) in E; [|by apply set_arg_key]
  | Hk : key_arg ?c ?i ?k, E : arg ?c ?i = Ok _ |- _ => apply (arg_key _ _ k _ Hk) in E
  | E : Ok _ = Ok _ |- _ => injection E as E; try subst
  | E1 : obj_key ?o = Ok ?k, E2 : obj_key ?o = Ok ?j |- _ => rewrite E1 in E2; injection E2 as E2; subst
  end.

(** The end of a path: the state is kept, and the key is announced. *)
Ltac announce :=
  same_key; (split; [split; [done|]|]); cbn [s_db with_db modified]; eauto 10 with signals;
  try (intros _; right; repeat (apply Forall_cons; split); try apply Forall_nil; cbn [s_db with_db modified]; eauto 10 with signals; done).

Lemma set_generic_announces name (s : session T) c flags key val expire unit yes no s' c' k :
  setGenericCommand junk sdsZmallocSize embeddedSize client_obuf_limits unixtime en name s c flags key val expire unit yes no = Ok (s', c') ->
  obj_key key = Ok k -> P k -> keeps s s' /\ (db_ok (s_db s) -> announces [k] s s').
Proof.
  unfold setGenericCommand. intros H Hk HP. path H; try (destruct expire; path E3); announce.
Qed.

Lemma set_announces (s : session T) c s' c' k :
  setCommand junk sdsZmallocSize embeddedSize client_obuf_limits unixtime shareable en s c = Ok (s', c') -> key_arg c 1 k -> P k ->
  keeps s s' /\ (db_ok (s_db s) -> announces [k] s s').
Proof.
  unfold setCommand. intros H Hk HP. path H; [|announce]. same_key. by eapply set_generic_announces.
Qed.

Lemma setnx_announces (s : session T) c s' c' k :
  setnxCommand junk sdsZmallocSize embeddedSize client_obuf_limits unixtime shareable en s c = Ok (s', c') -> key_arg c 1 k -> P k ->
  keeps s s' /\ (db_ok (s_db s) -> announces [k] s s').
Proof. unfold setnxCommand. intros H Hk HP. path H. same_key. by eapply set_generic_announces. Qed.

Lemma setex_announces (s : session T) c s' c' k :
  setexCommand junk sdsZmallocSize embeddedSize client_obuf_limits unixtime shareable en s c = Ok (s', c') \/
  psetexCommand junk sdsZmallocSize embeddedSize client_obuf_limits unixtime shareable en s c = Ok (s', c') -> key_arg c 1 k -> P k ->
  keeps s s' /\ (db_ok (s_db s) -> announces [k] s s').
Proof. unfold setexCommand, psetexCommand. intros [H|H] Hk HP; path H; same_key; by eapply set_generic_announces. Qed.

(** A reply leaves the arguments. *)
Lemma shared_argv c m c' : add_shared junk sdsZmallocSize embeddedSize client_obuf_limits unixtime c m = Ok c' -> q_argv c' = q_argv c.
Proof. unfold add_shared. intros H. by path H. Qed.

Lemma error_argv c m c' : add_error junk sdsZmallocSize embeddedSize client_obuf_limits unixtime c m = Ok c' -> q_argv c' = q_argv c.
Proof. unfold add_error. intros H. by path H. Qed.

Lemma longlong_argv c o msg c' v : getLongLongFromObjectOrReply junk sdsZmallocSize embeddedSize client_obuf_limits unixtime c o msg = Ok (c', v) -> q_argv c' = q_argv c.
Proof. unfold getLongLongFromObjectOrReply. intros H. path H; [done|]. by eapply error_argv. Qed.

Lemma long_argv c o msg c' v : getLongFromObjectOrReply junk sdsZmallocSize embeddedSize client_obuf_limits unixtime c o msg = Ok (c', v) -> q_argv c' = q_argv c.
Proof.
  unfold getLongFromObjectOrReply. intros H. path H; apply longlong_argv in E; [|done..]. rewrite <- E. by eapply error_argv.
Qed.

Lemma type_argv c o t c' b : checkType junk sdsZmallocSize embeddedSize client_obuf_limits unixtime c o t = Ok (c', b) -> q_argv c' = q_argv c.
Proof. unfold checkType. intros H. path H; [|done]. by eapply shared_argv. Qed.

Lemma key_arg_argv c c' i k : key_arg c i k -> q_argv c' = q_argv c -> key_arg c' i k.
Proof. intros (o & Ho & Hk) E. exists o. by rewrite E. Qed.
#[local] Hint Resolve key_arg_argv shared_argv error_argv longlong_argv long_argv type_argv : signals.

(** *** Strings *)

Lemma lookup_reply_keeps (s : session T) c key msg s' c' r :
  lookupKeyReadOrReply junk sdsZmallocSize embeddedSize client_obuf_limits unixtime en s c key msg = Ok (s', c', r) -> exists db, s' = with_db s db /\
    adds (s_db s) db /\ (db_ok (s_db s) -> still (s_db s) db) /\ q_argv c' = q_argv c.
Proof.
  unfold lookupKeyReadOrReply, lookupKeyRead. intros H. path H. eexists. split; [reflexivity|]. split; [eauto with signals|].
  split; [eauto with signals|]. path E1; eauto with signals.
Qed.

Lemma get_generic_keeps (s : session T) c s' c' b :
  getGenericCommand junk sdsZmallocSize embeddedSize client_obuf_limits unixtime en s c = Ok (s', c', b) -> exists db, s' = with_db s db /\
    adds (s_db s) db /\ (db_ok (s_db s) -> still (s_db s) db) /\ q_argv c' = q_argv c.
Proof.
  unfold getGenericCommand. intros H. path H; apply lookup_reply_keeps in E0 as (db & -> & H1 & H2 & H3); exists db; split_and!; try done.
  rewrite <- H3. by eapply shared_argv.
Qed.

Lemma get_keeps (s : session T) c s' c' : getCommand junk sdsZmallocSize embeddedSize client_obuf_limits unixtime en s c = Ok (s', c') -> keeps s s'.
Proof. unfold getCommand. intros H. path H. (apply get_generic_keeps in E as (db & -> & ? & _); by apply keeps_with_db). Qed.

Lemma getset_announces (s : session T) c s' c' k : getsetCommand junk sdsZmallocSize embeddedSize client_obuf_limits unixtime shareable en s c = Ok (s', c') -> key_arg c 1 k -> P k ->
  keeps s s' /\ (db_ok (s_db s) -> announces [k] s s').
Proof.
  unfold getsetCommand. intros H Hk HP. path H; apply get_generic_keeps in E as (db & -> & H1 & H2 & H3); [announce|].
  apply (key_arg_argv _ r) in Hk; [|done]. cbn [s_db with_db] in *. announce.
Qed.

Lemma unshare_ev (db0 db : redisDb T) k o db' o' : dbUnshareStringValue junk db k o = Ok (db', o') -> adds db0 db -> adds db0 db'.
Proof. unfold dbUnshareStringValue. intros H ?. path H; eauto with signals. Qed.

Lemma store_number_ev (db0 db : redisDb T) k o v db' o' : store_number en db k o v = Ok (db', o') -> adds db0 db -> adds db0 db'.
Proof. unfold store_number. intros H ?. path H; eauto with signals. Qed.
#[local] Hint Resolve unshare_ev store_number_ev : signals.

Lemma append_announces (s : session T) c s' c' k : appendCommand junk sdsZmallocSize embeddedSize client_obuf_limits unixtime shareable en s c = Ok (s', c') -> key_arg c 1 k -> P k ->
  keeps s s' /\ (db_ok (s_db s) -> announces [k] s s').
Proof. unfold appendCommand. intros H Hk HP. path H; announce. Qed.

(** An empty value is refused before. *)
Lemma setrange_write_announces (s : session T) c db k o offset value s' c' :
  setrange_write junk sdsZmallocSize embeddedSize client_obuf_limits unixtime s c db k o offset value = Ok (s', c') -> (sdslen value >? 0) = true -> P k ->
  framed s s' /\ adds db (s_db s') /\ EvModified k ∈ db_events (s_db s').
Proof. unfold setrange_write. intros H Hv HP. rewrite Hv in H. path H. cbn [s_db modified]. split_and!; eauto with signals. done. Qed.

Lemma setrange_announces (s : session T) c s' c' k : setrangeCommand junk sdsZmallocSize embeddedSize client_obuf_limits unixtime en s c = Ok (s', c') -> key_arg c 1 k -> P k ->
  (forall v p, q_argv c !! 3%nat = Some v -> obj_sds v = Ok p -> 0 <= sdslen p) ->
  keeps s s' /\ (db_ok (s_db s) -> announces [k] s s').
Proof.
  unfold setrangeCommand. intros H Hk HP Hv.
  path H; (match goal with E : getLongFromObjectOrReply _ _ _ _ _ _ _ _ = Ok (?r, _) |- _ =>
    apply long_argv in E; apply (key_arg_argv _ r) in Hk; [|done] end); try (announce; done).
  all: match goal with E1 : arg ?c 3 = Ok ?v, E2 : obj_sds ?v = Ok ?p |- _ =>
    assert (0 <= sdslen p) by (apply (Hv v); [unfold arg in E1; destruct (q_argv c !! 3%nat); congruence|done]) end.
  all: same_key; match goal with E : setrange_write _ _ _ _ _ _ _ _ _ _ _ _ = _ |- _ =>
    apply setrange_write_announces in E as (F1 & F2 & F3); [|lia|done] end.
  all: (split; [split; [done|apply adds_evolves; eapply adds_trans; [|exact F2]; eauto with signals]|intros _; right; by apply Forall_singleton]).
Qed.

Lemma incr_announces (s : session T) c incr s' c' k : incrDecrCommand junk sdsZmallocSize embeddedSize client_obuf_limits unixtime en s c incr = Ok (s', c') -> key_arg c 1 k -> P k ->
  keeps s s' /\ (db_ok (s_db s) -> announces [k] s s').
Proof. unfold incrDecrCommand. intros H Hk HP. path H; announce. Qed.

Lemma incrby_announces (s : session T) c s' c' k :
  incrbyCommand junk sdsZmallocSize embeddedSize client_obuf_limits unixtime en s c = Ok (s', c') \/ decrbyCommand junk sdsZmallocSize embeddedSize client_obuf_limits unixtime en s c = Ok (s', c') -> key_arg c 1 k -> P k ->
  keeps s s' /\ (db_ok (s_db s) -> announces [k] s s').
Proof.
  unfold incrbyCommand, decrbyCommand. intros [H|H] Hk HP; path H; try (eapply incr_announces; eauto with signals; done); announce.
Qed.

Lemma busy_ev (db0 db : redisDb T) args n db' b : busy_keys en db args n = Ok (db', b) -> adds db0 db -> adds db0 db'.
Proof.
  revert db n. cut (forall f args (db : redisDb T) n, (length args <= f)%nat -> busy_keys en db args n = Ok (db', b) -> adds db0 db -> adds db0 db'); [eauto|].
  intros f. induction f as [|f IH]; intros [|key rest] db n Hf H ?; cbn [length busy_keys] in *; [by path H|lia|by path H|].
  path H; [eauto with signals|]. subst. eapply IH; [|exact H|eauto with signals]. cbn in Hf. lia.
Qed.

Lemma busy_still (db0 db : redisDb T) args n db' b : busy_keys en db args n = Ok (db', b) -> still db0 db -> still db0 db'.
Proof.
  revert db n. cut (forall f args (db : redisDb T) n, (length args <= f)%nat -> busy_keys en db args n = Ok (db', b) -> still db0 db -> still db0 db'); [eauto|].
  intros f. induction f as [|f IH]; intros [|key rest] db n Hf H ?; cbn [length busy_keys] in *; [by path H|lia|by path H|].
  path H; [eauto with signals|]. subst. eapply IH; [|exact H|eauto with signals]. cbn in Hf. lia.
Qed.
#[local] Hint Resolve busy_ev busy_still : signals.

Lemma mset_loop_signals : forall args objs (db : redisDb T) db' objs', Forall2 is_arg args objs ->
  mset_loop junk shareable en db objs = Ok (db', objs') -> Forall P (pair_keys args) ->
  adds db db' /\ Forall (fun k => EvModified k ∈ db_events db') (pair_keys args).
Proof.
  intros args. induction args as [[|k [|v args]] IH] using (induction_ltof1 _ (@length bytes)); unfold ltof in IH; intros objs db db' objs' HF H HP.
  - apply Forall2_nil_inv_l in HF. subst. cbn [mset_loop] in H. path H. split; [apply adds_refl|constructor].
  - apply Forall2_cons_inv_l in HF as (? & ? & _ & HF & ->). apply Forall2_nil_inv_l in HF. subst. cbn [mset_loop] in H. by path H.
  - apply Forall2_cons_inv_l in HF as (o & ? & Ho & HF & ->). apply Forall2_cons_inv_l in HF as (o2 & rest & _ & HF & ->).
    cbn [mset_loop] in H. rewrite (is_arg_key k) in H by done. cbn [pair_keys] in HP. apply Forall_cons in HP as [HP1 HP]. path H.
    apply (IH args) in E1 as [H1 H2]; [|cbn; lia|done|done].
    split; [eapply adds_trans; [|exact H1]; eauto with signals|]. cbn [pair_keys]. apply Forall_cons. split; [|done].
    apply (adds_elem _ _ _ H1). eauto with signals.
Qed.

Lemma mset_announces (s : session T) c nx s' c' cmd objs args : msetGenericCommand junk sdsZmallocSize embeddedSize client_obuf_limits unixtime shareable en s c nx = Ok (s', c') ->
  q_argv c = cmd :: objs -> Forall2 is_arg args objs -> Forall P (pair_keys args) -> keeps s s' /\ (db_ok (s_db s) -> announces (pair_keys args) s s').
Proof.
  unfold msetGenericCommand. intros H Ha HF HP. rewrite Ha in H. cbn [drop] in H. path H; [announce|..].
  - path E; announce.
  - apply (mset_loop_signals args) in E0 as [H1 H2]; [|done|done].
    assert (adds (s_db s) r) by (path E; eauto with signals).
    split; [split; [done|apply adds_evolves; by eapply adds_trans]|]. intros _. by right.
Qed.

Lemma mget_loop_ev : forall objs (db0 db : redisDb T) c db' c', mget_loop junk sdsZmallocSize embeddedSize client_obuf_limits unixtime en db c objs = Ok (db', c') -> adds db0 db -> adds db0 db'.
Proof.
  intros objs. induction objs as [|o objs IH]; intros db0 db c db' c' H ?; cbn [mget_loop] in H; [by path H|].
  unfold lookupKeyRead in H. path H; eapply IH; eauto with signals.
Qed.
#[local] Hint Resolve mget_loop_ev : signals.

Lemma mget_keeps (s : session T) c s' c' : mgetCommand junk sdsZmallocSize embeddedSize client_obuf_limits unixtime en s c = Ok (s', c') -> keeps s s'.
Proof. unfold mgetCommand. intros H. path H. split; [done|]. cbn [s_db with_db]. eauto with signals. Qed.

Lemma getrange_keeps (s : session T) c s' c' : getrangeCommand junk sdsZmallocSize embeddedSize client_obuf_limits unixtime en s c = Ok (s', c') -> keeps s s'.
Proof.
  unfold getrangeCommand. intros H. path H; try apply keeps_refl;
    match goal with E : lookupKeyReadOrReply _ _ _ _ _ _ _ _ _ _ = _ |- _ => (apply lookup_reply_keeps in E as (db & -> & ? & _); by apply keeps_with_db) end.
Qed.

Lemma strlen_keeps (s : session T) c s' c' : strlenCommand junk sdsZmallocSize embeddedSize client_obuf_limits unixtime en s c = Ok (s', c') -> keeps s s'.
Proof. unfold strlenCommand. intros H. path H; (apply lookup_reply_keeps in E0 as (db & -> & ? & _); by apply keeps_with_db). Qed.

(** *** Keys *)

Lemma expire_announces (s : session T) c base unit s' c' k : expireGenericCommand junk sdsZmallocSize embeddedSize client_obuf_limits unixtime en s c base unit = Ok (s', c') -> key_arg c 1 k -> P k ->
  keeps s s' /\ (db_ok (s_db s) -> announces [k] s s').
Proof. unfold expireGenericCommand. intros H Hk HP. path H; announce. Qed.

Lemma rename_announces (s : session T) c nx s' c' k k2 : renameGenericCommand junk sdsZmallocSize embeddedSize client_obuf_limits unixtime en s c nx = Ok (s', c') -> key_arg c 1 k -> key_arg c 2 k2 -> P k -> P k2 ->
  keeps s s' /\ (db_ok (s_db s) -> announces [k; k2] s s').
Proof.
  unfold renameGenericCommand. intros H Hk Hk2 HP HP2. path H; try (announce; done). path E9; path E11; unfold renamed; announce; eauto 14 with signals.
Qed.

Lemma ttl_keeps (s : session T) c ms s' c' : ttlGenericCommand junk sdsZmallocSize embeddedSize client_obuf_limits unixtime en s c ms = Ok (s', c') -> keeps s s'.
Proof. unfold ttlGenericCommand. intros H. path H; (split; [done|]); cbn [s_db with_db]; eauto with signals. Qed.

Lemma type_keeps (s : session T) c s' c' : typeCommand junk sdsZmallocSize embeddedSize client_obuf_limits unixtime en s c = Ok (s', c') -> keeps s s'.
Proof. unfold typeCommand. intros H. path H; (split; [done|]); cbn [s_db with_db]; eauto with signals. Qed.

Lemma exists_loop_ev : forall objs (db0 db : redisDb T) n db' n', exists_loop en db objs n = Ok (db', n') -> adds db0 db -> adds db0 db'.
Proof.
  intros objs. induction objs as [|o objs IH]; intros db0 db n db' n' H ?; cbn [exists_loop] in H; [by path H|].
  unfold dbExists in H. path H; path E1; eapply IH; eauto with signals.
Qed.

Lemma touch_loop_ev : forall objs (db0 db : redisDb T) n db' n', touch_loop en db objs n = Ok (db', n') -> adds db0 db -> adds db0 db'.
Proof.
  intros objs. induction objs as [|o objs IH]; intros db0 db n db' n' H ?; cbn [touch_loop] in H; [by path H|].
  unfold lookupKeyRead in H. path H; eapply IH; eauto with signals.
Qed.
#[local] Hint Resolve exists_loop_ev touch_loop_ev : signals.

Lemma exists_keeps (s : session T) c s' c' : existsCommand junk sdsZmallocSize embeddedSize client_obuf_limits unixtime en s c = Ok (s', c') \/ touchCommand junk sdsZmallocSize embeddedSize client_obuf_limits unixtime en s c = Ok (s', c') -> keeps s s'.
Proof. unfold existsCommand, touchCommand. intros [H|H]; path H; (split; [done|]); cbn [s_db with_db]; eauto with signals. Qed.

Lemma del_loop_signals : forall ks objs (s : session T) n s' n' room m, Forall2 is_arg ks objs -> del_loop en s objs n = Ok (s', n') ->
  shows room now (s_db s) m -> Forall P ks -> framed s s' /\ adds (s_db s) (s_db s') /\ forall k, k ∈ ks -> is_Some (m !! k) -> EvModified k ∈ db_events (s_db s').
Proof.
  intros ks. induction ks as [|k ks IH]; intros objs s n s' n' room m HF H Hs HP.
  { apply Forall2_nil_inv_l in HF. subst. cbn [del_loop] in H. path H. split; [done|]. split; [apply adds_refl|]. intros ? ?%elem_of_nil. done. }
  apply Forall2_cons_inv_l in HF as (o & rest & Ho & HF & ->). apply Forall_cons in HP as [HP1 HP]. cbn [del_loop] in H. rewrite (is_arg_key k) in H by done.
  rewrite bind_ok in H. destruct (expire_first en master loaded room (s_db s) m k Hs) as (db1 & b & E1 & Hs1 & Hv). rewrite E1, bind_ok in H.
  destruct (delete_key en room db1 m k Hs1) as (db2 & E2 & Hs2). rewrite E2, bind_ok, Hv in H.
  assert (adds (s_db s) db2) as Hev by eauto with signals.
  destruct (m !! k) as [x|] eqn:Ek; cbn [is_some] in H; apply (IH _ _ _ _ _ room (delete k m)) in H as (Hf & He & HI); try done; try (by apply shows_modified).
  - split; [exact Hf|]. split; [eapply adds_trans; [|exact He]; cbn [s_db modified]; auto with signals|].
    intros j Hj Hm. destruct (decide (j = k)) as [->|Hne]; [apply (adds_elem _ _ _ He); cbn [s_db modified]; eauto with signals|].
    apply elem_of_cons in Hj as [->|Hj]; [done|]. apply HI; [done|]. by rewrite lookup_delete_ne.
  - split; [exact Hf|]. split; [eapply adds_trans; [|exact He]; done|].
    intros j Hj Hm. destruct (decide (j = k)) as [->|Hne]; [rewrite Ek in Hm; by destruct Hm|].
    apply elem_of_cons in Hj as [->|Hj]; [done|]. apply HI; [done|]. by rewrite lookup_delete_ne.
Qed.

Lemma flushdb_announces (s : session T) c s' c' : flushdbCommand junk sdsZmallocSize embeddedSize client_obuf_limits unixtime en s c = Ok (s', c') -> (forall k, P k) ->
  keeps s s' /\ EvFlushed (db_dict (s_db s)) ∈ db_events (s_db s').
Proof.
  unfold flushdbCommand. intros H HP. path H. cbn [s_db]. split; [split; [done|]|].
  - destruct (e_cluster en).
    + exists [EvFlushed (db_dict (s_db s)); EvSlotFlush]. cbn. split; [by rewrite <- app_assoc|]. by repeat constructor.
    + exists [EvFlushed (db_dict (s_db s))]. by repeat constructor.
  - destruct (e_cluster en); [apply ev_emit|]; cbn [db_events]; apply elem_of_app; right; by apply list_elem_of_singleton.
Qed.

(** *** Sets *)

Lemma write_lookup_inv n (db : redisDb T) m k db' r : shows n now db m -> lookupKeyWrite en db k = Ok (db', r) ->
  shows n now db' m /\ set_finds n m k r.
Proof.
  intros Hs E. destruct (write_set_lookup en master loaded n db m k Hs) as (d & x & E' & Hs' & _ & _ & Hf). rewrite E' in E. by injection E as <- <-.
Qed.

Lemma put_set_id (m : keyspace) k X w : m !! k = Some (VOther (Members X), w) -> X <> ∅ -> put_set m k X w = m.
Proof. intros Hm HX. unfold put_set. by rewrite bool_decide_eq_false_2, insert_id. Qed.

Lemma sadd_announces n (s : session T) c s' c' k vs cmd key objs m : saddCommand junk sdsZmallocSize embeddedSize client_obuf_limits unixtime shareable en s c = Ok (s', c') ->
  q_argv c = cmd :: key :: objs -> is_arg k key -> Forall2 is_arg vs objs -> (1 <= length vs)%nat ->
  shows n now (s_db s) m -> Z.of_nat (length vs) + 1 <= n -> P k ->
  keeps s s' /\ ((sadd_spec m k vs).1 = m \/ EvModified k ∈ db_events (s_db s')).
Proof.
  unfold saddCommand, arg. intros H Ha Hk HF Hvs Hs Hn HP. rewrite Ha in H. cbn [lookup list_lookup] in H. rewrite bind_ok, (is_arg_key k) in H by done.
  path H.
  - assert (adds (s_db s) r0) as Hev by (path E0; eauto with signals).
    destruct (Z.eqb_spec z 0) as [->|Hz]; cbn [negb]; [|split; [split; [done|]|right]; cbn [s_db with_db with_dirty]; eauto 6 with signals].
    split; [split; [done|]|left]; cbn [s_db with_db with_dirty]; [eauto with signals|].
    apply (write_lookup_inv n _ m) in E as [Hs1 Hf]; [|done]. pose proof room_max as Hmax. pose proof (sh_room _ _ _ _ Hs).
    destruct Hf as [Hm|o st X w Ht Hp Hrc Hset HX Hsz Hm|o Ht _ Hat].
    + destruct vs as [|v vs]; [cbn in Hvs; lia|]. pose proof HF as HF0. apply Forall2_cons_inv_l in HF as (o1 & rest & ((Ho1 & _) & Hv1 & _) & HF & ->).
      cbn [lookup list_lookup] in E0. destruct (create_set_ok set_hash o1 v Ho1 Hv1) as (new & Enew & Hnew). rewrite bind_ok, Enew in E0. path E0.
      unfold obj_set in E1. cbn in E1. injection E1 as <-. rewrite Ha in E2. cbn [drop] in E2. rewrite ?drop_0 in E2.
      destruct (sadd_loop_ok junk sdsZmallocSize embeddedSize shareable zmalloc_size embedded_size en master loaded (v :: vs) (o1 :: rest) new ∅ 0 HF0 Hnew)
        as (st & av & Eq & _); [rewrite size_empty; lia|]. rewrite Eq in E2. injection E2 as _ _ Ez.
      apply nothing_added in Ez. exfalso. clear -Ez. set_solver.
    + rewrite bool_decide_eq_true_2 in E0 by done. cbn [negb] in E0. path E0. unfold obj_set in E1. rewrite Hp in E1. injection E1 as <-.
      rewrite Ha in E2. cbn [drop] in E2. rewrite ?drop_0 in E2.
      destruct (sadd_loop_ok junk sdsZmallocSize embeddedSize shareable zmalloc_size embedded_size en master loaded vs objs st X 0 HF Hset)
        as (st' & av & Eq & _); [lia|]. rewrite Eq in E2. injection E2 as _ _ Ez.
      unfold sadd_spec. rewrite (set_at_found m k X w Hm). cbn [fst]. rewrite nothing_added by (revert Ez; rewrite Z.add_0_l; done). by apply put_set_id.
    + rewrite bool_decide_eq_false_2 in E0 by done. cbn [negb] in E0. path E0. unfold sadd_spec. by rewrite Hat.
  - assert (adds (s_db s) r0) as Hev by (path E0; eauto with signals).
    split; [by apply keeps_with_db|]. left. apply (write_lookup_inv n _ m) in E as [Hs1 Hf]; [|done].
    destruct Hf as [Hm|o st X w Ht Hp Hrc Hset HX Hsz Hm|o Ht _ Hat]; [path E0; done|rewrite bool_decide_eq_true_2 in E0 by done; by path E0|].
    unfold sadd_spec. by rewrite Hat.
Qed.

Lemma lookup_write_inv n (s : session T) c key msg s' c' r k m : lookupKeyWriteOrReply junk sdsZmallocSize embeddedSize client_obuf_limits unixtime en s c key msg = Ok (s', c', r) ->
  is_arg k key -> shows n now (s_db s) m -> exists db, s' = with_db s db /\ shows n now db m /\ set_finds n m k r /\
    adds (s_db s) db /\ q_argv c' = q_argv c.
Proof.
  unfold lookupKeyWriteOrReply. intros H Hk Hs. rewrite (is_arg_key k) in H by done. path H.
  destruct (write_lookup_inv n _ m _ _ _ Hs E) as [Hs1 Hf]. eexists. split_and!; [done|exact Hs1|exact Hf|eauto with signals|].
  path E0; eauto with signals.
Qed.

(** A value that is not a set is refused. *)
Lemma type_set_inv n m k c o c' b : checkType junk sdsZmallocSize embeddedSize client_obuf_limits unixtime c o OBJ_SET = Ok (c', b) -> set_finds n m k (Some o) ->
  if b then set_at m k = None else exists st X w, o_ptr o = PtrSet st /\ set_is set_hash st X /\ X <> ∅ /\
    Z.of_nat (base.size X) + n + 1 < INTSET_MAX /\ m !! k = Some (VOther (Members X), w) /\ c' = c.
Proof.
  unfold checkType. intros H Hf. inversion Hf as [|? st X w Ht Hp Hrc Hset HX Hsz Hm|? Ht _ Hat]; subst.
  - rewrite bool_decide_eq_true_2 in H by done. injection H as <- <-. by exists st, X, w.
  - rewrite bool_decide_eq_false_2 in H by done. path H; subst; done.
Qed.

Lemma srem_announces n (s : session T) c s' c' k vs cmd key objs m : sremCommand junk sdsZmallocSize embeddedSize client_obuf_limits unixtime en s c = Ok (s', c') ->
  q_argv c = cmd :: key :: objs -> is_arg k key -> Forall2 is_arg vs objs -> shows n now (s_db s) m -> 0 <= n -> P k ->
  keeps s s' /\ ((srem_spec m k vs).1 = m \/ EvModified k ∈ db_events (s_db s')).
Proof.
  unfold sremCommand, arg. intros H Ha Hk HF Hs Hn HP. rewrite Ha in H. cbn [lookup list_lookup] in H. rewrite bind_ok in H.
  path H; apply (lookup_write_inv n _ _ _ _ _ _ _ k m) in E as (db & -> & Hs1 & Hf & Hev & Hq); try done; split; try (by apply keeps_with_db).
  - left. unfold srem_spec. by rewrite (type_set_inv n m k _ _ _ _ E0 Hf).
  - rewrite (is_arg_key k) in E1 by done. injection E1 as <-.
    split; [done|]. cbn [s_db with_db with_dirty] in *. path E5; destruct (z =? 0); cbn [negb]; try destruct b0; eauto 8 with signals.
  - destruct (type_set_inv n m k _ _ _ _ E0 Hf) as (st & X & w & Hp & Hset & HX & Hsz & Hm & ->).
    rewrite (is_arg_key k) in E1 by done. injection E1 as <-.
    unfold obj_set in E2. rewrite Hp in E2. injection E2 as <-. rewrite Hq, Ha in E3. cbn [drop] in E3. rewrite drop_0 in E3.
    destruct (srem_loop_ok junk sdsZmallocSize embeddedSize zmalloc_size embedded_size en master loaded vs objs st X 0 HF Hset HX) as (st' & Eq & _); [lia|].
    rewrite Eq in E3. injection E3 as _ Ez _.
    destruct (Z.eqb_spec z 0) as [->|Hz]; cbn [negb s_db with_db with_dirty]; [left|right; destruct b0; eauto with signals].
    unfold srem_spec. rewrite (set_at_found m k X w Hm). cbn [fst]. rewrite nothing_removed by (revert Ez; rewrite Z.add_0_l; done). by apply put_set_id.
  - left. inversion Hf as [Hm| |]; subst. unfold srem_spec. rewrite (set_at_none m k Hm). cbn [fst]. unfold put_set.
    rewrite bool_decide_eq_true_2 by (clear; set_solver). by apply delete_id.
Qed.

Lemma smove_same (m : keyspace) k k2 v :
  set_at m k = None \/ set_at m k2 = None \/ k = k2 \/ m !! k = None \/ (exists X w, set_at m k = Some (X, w) /\ v ∉ X) ->
  (smove_spec m k k2 v).1 = m.
Proof.
  unfold smove_spec. destruct (m !! k); [|done].
  intros [->|[->|[->|[|(X & w & -> & Hv)]]]]; try done; repeat case_match; simplify_eq; try done.
  - by match goal with H : bool_decide _ = false |- _ => apply bool_decide_eq_false_1 in H end.
  - by match goal with H : bool_decide (v ∈ _) = true |- _ => apply bool_decide_eq_true_1 in H end.
Qed.

Lemma smove_announces n (s : session T) c s' c' k k2 v cmd key key2 val m : smoveCommand junk sdsZmallocSize embeddedSize client_obuf_limits unixtime shareable en s c = Ok (s', c') ->
  q_argv c = [cmd; key; key2; val] -> is_arg k key -> is_arg k2 key2 -> is_arg v val -> shows n now (s_db s) m -> 0 <= n -> P k -> P k2 ->
  keeps s s' /\ ((smove_spec m k k2 v).1 = m \/ Forall (fun k => EvModified k ∈ db_events (s_db s')) [k; k2]).
Proof.
  unfold smoveCommand, arg. intros H Ha Hk Hk2 Hval Hs Hn HP HP2. rewrite Ha in H. cbn [lookup list_lookup] in H.
  rewrite !bind_ok, (is_arg_key k key Hk), bind_ok, (is_arg_key k2 key2 Hk2), bind_ok in H.
  destruct (lookupKeyWrite en (s_db s) k) as [[db1 r]|] eqn:E1; [|done]. rewrite bind_ok in H.
  destruct (lookupKeyWrite en db1 k2) as [[db2 r2]|] eqn:E2; [|done]. rewrite bind_ok in H.
  assert (adds (s_db s) db2) as Hev by eauto with signals.
  destruct (write_lookup_inv n _ m _ _ _ Hs E1) as [Hs1 Hf1]. destruct (write_lookup_inv n _ m _ _ _ Hs1 E2) as [Hs2 Hf2].
  destruct (encode_ok junk shareable v val Hval) as (o' & Eo & Ho' & Hv'). rewrite bind_ok, Eo, bind_ok in H.
  path H; (split; [split; [done|cbn [s_db with_db with_dirty]]|cbn [s_db with_db with_dirty]]); eauto with signals.
  - left. apply smove_same. left. by apply (type_set_inv n m k _ _ _ _ E).
  - left. apply smove_same. right. left. destruct r2; [|done]. by apply (type_set_inv n m k2 _ _ _ _ E0).
  - left. apply smove_same. right. right. left. by eapply bool_decide_eq_true_1.
  - left. apply smove_same. do 4 right. destruct (type_set_inv n m k _ _ _ _ E Hf1) as (st & X & w & Hp & Hset & HX & Hsz & Hm & _).
    unfold obj_set in E3. rewrite Hp in E3. injection E3 as <-. exists X, w. split; [by apply set_at_found|].
    destruct (set_remove_ok junk set_hash set_can_resize st X o' v) as (st' & Eq & _); [done|unfold small; lia|done|done|].
    rewrite Eq in E4. injection E4 as _ <-.
    match goal with H : negb _ = true |- _ => by apply negb_true_iff, bool_decide_eq_false_1 in H end.
  - path E6; path E7; path E10; destruct b2; eauto 14 with signals.
  - right. path E6; path E7; repeat (apply Forall_cons; split); try apply Forall_nil; try done; destruct b2; eauto 14 with signals.
  - left. apply smove_same. do 3 right. left. by inversion Hf1.
Qed.

Lemma sismember_keeps (s : session T) c s' c' : sismemberCommand junk sdsZmallocSize embeddedSize client_obuf_limits unixtime shareable en s c = Ok (s', c') -> keeps s s'.
Proof.
  unfold sismemberCommand. intros H. path H; apply lookup_reply_keeps in E0 as (db & -> & ? & _); try (by apply keeps_with_db).
  split; [done|]. cbn [s_db with_db] in *. eauto with signals.
Qed.

Lemma scard_keeps (s : session T) c s' c' : scardCommand junk sdsZmallocSize embeddedSize client_obuf_limits unixtime en s c = Ok (s', c') -> keeps s s'.
Proof. unfold scardCommand. intros H. path H; (apply lookup_reply_keeps in E0 as (db & -> & ? & _); by apply keeps_with_db). Qed.

(** *** What the specification changes *)

(** Only the keys of [ks] may change. *)
Definition changes (ks : list bytes) (m m' : keyspace) : Prop := forall j, j ∉ ks -> m' !! j = m !! j.

Lemma changes_none (ks : list bytes) (m : keyspace) : changes ks m m.
Proof. done. Qed.
Lemma changes_insert (k : bytes) (x : value * option Z) (m : keyspace) : changes [k] m (<[k := x]> m).
Proof. intros j Hj. apply lookup_insert_ne. intros ->. apply Hj. by apply list_elem_of_singleton. Qed.
Lemma changes_delete (k : bytes) (m : keyspace) : changes [k] m (delete k m).
Proof. intros j Hj. apply lookup_delete_ne. intros ->. apply Hj. by apply list_elem_of_singleton. Qed.
Lemma changes_put (k : bytes) (X : gset bytes) (w : option Z) (m : keyspace) : changes [k] m (put_set m k X w).
Proof. unfold put_set. case_bool_decide; [apply changes_delete|apply changes_insert]. Qed.
Lemma changes_then (ks : list bytes) (k : bytes) (m1 m2 m3 : keyspace) : changes ks m1 m2 -> changes [k] m2 m3 -> k ∈ ks -> changes ks m1 m3.
Proof. intros H1 H2 Hk j Hj. rewrite H2; [by apply H1|]. intros ->%list_elem_of_singleton. done. Qed.
#[local] Hint Resolve changes_none changes_insert changes_delete changes_put : signals.

Lemma set_spec_changes nm k v nx xx e yes no m : changes [k] m (set_spec now m nm k v nx xx e yes no).1.
Proof. unfold set_spec. repeat case_match; cbn; eauto with signals. Qed.

Lemma mset_spec_changes : forall args m, changes (pair_keys args) m (mset_spec m args).
Proof.
  intros args. induction args as [[|k [|v args]] IH] using (induction_ltof1 _ (@length bytes)); unfold ltof in IH; intros m; cbn [pair_keys mset_spec]; try done.
  intros j Hj. apply not_elem_of_cons in Hj as [Hne Hj]. rewrite IH; [by apply lookup_insert_ne|cbn; lia|done].
Qed.

Lemma incr_spec_changes m k n : changes [k] m (incr_spec m k n).1.
Proof. unfold incr_spec. repeat case_match; cbn; eauto with signals. Qed.

Lemma del_spec_lookup : forall ks m j, (del_spec m ks).1 !! j = if bool_decide (j ∈ ks) then None else m !! j.
Proof.
  intros ks. induction ks as [|k ks IH]; intros m j; [done|]. cbn. specialize (IH (delete k m) j). destruct (del_spec (delete k m) ks) as [m' n].
  cbn in *. rewrite IH. destruct (decide (j = k)) as [->|Hne].
  - rewrite lookup_delete_eq. rewrite (bool_decide_eq_true_2 (k ∈ k :: ks)) by set_solver. by case_bool_decide.
  - rewrite lookup_delete_ne by done. by rewrite (bool_decide_ext (j ∈ k :: ks) (j ∈ ks)) by set_solver.
Qed.

Lemma expire_spec_changes m relative unit k n : changes [k] m (expire_cmd_spec now m relative unit k n).1.
Proof. unfold expire_cmd_spec. repeat case_match; cbn; auto with signals. Qed.

Lemma changes_two (k k2 : bytes) (m1 m2 m3 : keyspace) : changes [k] m1 m2 -> changes [k2] m2 m3 -> changes [k; k2] m1 m3.
Proof. intros H1 H2 j Hj. rewrite H2, H1; [done|..]; intros ->%list_elem_of_singleton; apply Hj; set_solver. Qed.

Lemma rename_spec_changes m k k2 nx : changes [k; k2] m (rename_spec m k k2 nx).1.
Proof. unfold rename_spec. repeat case_match; cbn; auto with signals; (eapply changes_two; [apply changes_delete|apply changes_insert]). Qed.

Lemma smove_spec_changes m k k2 v : changes [k; k2] m (smove_spec m k k2 v).1.
Proof. unfold smove_spec. repeat case_match; cbn; auto with signals; (eapply changes_two; apply changes_put). Qed.

(** A key that a command changes is announced: it was modified, or was in the
    dictionary that was flushed. *)
Definition signalled (db : redisDb T) (k : bytes) : Prop :=
  EvModified k ∈ db_events db \/ exists d, EvFlushed d ∈ db_events db /\ kd_ok d /\ is_Some (kd_map d !! k).

Definition signals (m m' : keyspace) (db : redisDb T) : Prop := forall k, m' !! k <> m !! k -> signalled db k.

Lemma signals_same m db : signals m m db.
Proof. by intros k. Qed.

Lemma shows_unique n n' (db : redisDb T) m m' : shows n now db m -> shows n' now db m' -> m = m'.
Proof. intros [_ _ _ H] [_ _ _ H']. apply map_eq. intros k. by rewrite H, H'. Qed.

Lemma signals_keys ks m m' (s' : session T) : changes ks m m' -> Forall (fun k => EvModified k ∈ db_events (s_db s')) ks -> signals m m' (s_db s').
Proof.
  intros Hc HF k Hk. left. destruct (decide (k ∈ ks)) as [Hin|Hn]; [|by rewrite Hc in Hk]. exact (proj1 (Forall_forall _ _) HF k Hin).
Qed.

Lemma announces_signals n n' ks m m' (s s' : session T) : announces ks s s' -> changes ks m m' ->
  shows n now (s_db s) m -> shows n' now (s_db s') m' -> signals m m' (s_db s').
Proof.
  intros [Hst|HF] Hc Hs Hs'; [|by eapply signals_keys]. rewrite (shows_unique n n' (s_db s') m m'); [apply signals_same| |done].
  by apply (still_shows n (s_db s)).
Qed.

(** *** Every command *)

Lemma is_arg_at c i os k o : q_argv c = os -> os !! i = Some o -> is_arg k o -> key_arg c i k.
Proof. intros E Ho Hk. exists o. rewrite E. split; [done|by apply is_arg_key]. Qed.

Lemma arg_length c i os v o : q_argv c = os -> os !! i = Some o -> is_arg v o ->
  forall x p, q_argv c !! i = Some x -> obj_sds x = Ok p -> 0 <= sdslen p.
Proof.
  intros -> Ho Hv x p Hx Hp. destruct (is_arg_sds v o Hv) as (q & Hq & _ & _ & Hl). assert (x = o) as -> by congruence.
  unfold obj_sds in Hp. rewrite Hq in Hp. injection Hp as <-. lia.
Qed.

(** A command on one key. *)
Ltac by_key L E :=
  match goal with Hfin : forall ks, _ -> changes ks _ _ -> _ |- context [keeps] =>
    eapply Hfin; [eapply L; [exact E|by eapply is_arg_at|auto]| |done] end.

Variable other_proc : proc -> session T -> reqst -> res (session T * reqst).

(** The queue and the watched keys are as before, the events are added to those
    before, and every change is announced. *)
Lemma command_signals n n' cmd entry (s : session T) c s' c' m : shows n now (s_db s) m -> new_keys cmd <= n -> in_range now cmd -> (forall k, touches cmd k -> P k) ->
  Forall2 is_arg (request cmd) (q_argv c) -> lookup_command (name cmd) = Some entry ->
  call junk sdsZmallocSize embeddedSize client_obuf_limits unixtime shareable (handlers junk sdsZmallocSize embeddedSize client_obuf_limits unixtime shareable other_proc en) en entry s c = Ok (s', c') ->
  shows n' now (s_db s') (kspec now m cmd).1 -> keeps s s' /\ signals m (kspec now m cmd).1 (s_db s').
Proof.
  intros Hs Hn Hrange HP HF Hent. remember (q_argv c) as objs eqn:Hq. symmetry in Hq. unfold new_keys in *.
  assert (forall ks, keeps s s' /\ (db_ok (s_db s) -> announces ks s s') -> changes ks m (kspec now m cmd).1 -> shows n' now (s_db s') (kspec now m cmd).1 ->
    keeps s s' /\ signals m (kspec now m cmd).1 (s_db s')) as Hfin.
  { intros ks [Hk Ha] Hc Hs'. split; [done|]. eapply announces_signals; [apply Ha, Hs|exact Hc|exact Hs|exact Hs']. }
  destruct cmd; try (destruct relative); try (destruct unit);
    (match type of Hent with ?a = _ => let b := eval vm_compute in a in change a with b in Hent end; injection Hent as <-);
    unfold call, handlers; cbn [cmd_proc string_proc key_proc set_proc];
    cbn [request length] in *; apply Forall2_cons_inv_l in HF as (o0 & os & _ & HF & ->);
    repeat match goal with HF : Forall2 is_arg (_ :: _) _ |- _ =>
      apply Forall2_cons_inv_l in HF as (? & ? & ? & HF & ->) end;
    try (apply Forall2_nil_inv_l in HF; subst); cbn [in_range touches] in Hrange, HP; intros E Hs'; cbn [kspec] in *.
  - split; [by eapply get_keeps|apply signals_same].
  - apply (Hfin [k]); [eapply set_announces; [exact E|by eapply is_arg_at|auto]| |done].
    destruct (options_spec options false false None) as [[[nx xx] e]|]; [apply set_spec_changes|apply changes_none].
  - by_key setnx_announces E; apply set_spec_changes.
  - apply (Hfin [k]); [eapply setex_announces; [by left|by eapply is_arg_at|auto]|apply set_spec_changes|done].
  - apply (Hfin [k]); [eapply setex_announces; [by right|by eapply is_arg_at|auto]|apply set_spec_changes|done].
  - by_key getset_announces E. destruct (m !! k) as [[[] ?]|]; cbn; auto with signals.
  - apply (Hfin [k]); [eapply setrange_announces; [exact E|by eapply is_arg_at|auto|by eapply arg_length]| |done].
    unfold setrange_spec. repeat case_match; cbn; auto with signals.
  - split; [by eapply getrange_keeps|apply signals_same].
  - by_key append_announces E. unfold append_spec. repeat case_match; cbn; auto with signals.
  - split; [by eapply strlen_keeps|apply signals_same].
  - by_key incr_announces E; apply incr_spec_changes.
  - by_key incr_announces E; apply incr_spec_changes.
  - apply (Hfin [k]); [eapply incrby_announces; [by left|by eapply is_arg_at|auto]| |done].
    unfold incrby_spec. case_match; [apply incr_spec_changes|apply changes_none].
  - apply (Hfin [k]); [eapply incrby_announces; [by right|by eapply is_arg_at|auto]| |done].
    unfold incrby_spec. case_match; [apply incr_spec_changes|apply changes_none].
  - split; [by eapply mget_keeps|apply signals_same].
  - apply (Hfin (pair_keys args)); [eapply mset_announces; [exact E|exact Hq|exact HF|by apply Forall_forall]| |done]. destruct (Nat.odd (length args)); [apply changes_none|apply mset_spec_changes].
  - apply (Hfin (pair_keys args)); [eapply mset_announces; [exact E|exact Hq|exact HF|by apply Forall_forall]| |done].
    destruct (Nat.odd (length args)); [apply changes_none|]. destruct (any_key m args); [apply changes_none|apply mset_spec_changes].
  - unfold delCommand in E. rewrite Hq in E. change (drop 1 (o0 :: os)) with os in E. path E.
    destruct (del_loop_signals ks os s 0 _ _ n m HF E0 Hs (proj2 (Forall_forall _ _) HP)) as (Hk1 & Hk2 & Hd). split; [split; [exact Hk1|by apply adds_evolves]|].
    intros j Hj. left. pose proof (del_spec_lookup ks m j) as Hl.
    destruct (del_spec m ks) as [m' d]. cbn in Hj, Hl. rewrite Hl in Hj. case_bool_decide; [|done]. apply Hd; [done|]. destruct (m !! j); [eauto|done].
  - split; [eapply exists_keeps; by left|apply signals_same].
  - split; [eapply exists_keeps; by right|apply signals_same].
  - unfold expireCommand in E. by_key expire_announces E. apply expire_spec_changes.
  - unfold pexpireCommand in E. by_key expire_announces E. apply expire_spec_changes.
  - unfold expireatCommand in E. by_key expire_announces E. apply expire_spec_changes.
  - unfold pexpireatCommand in E. by_key expire_announces E. apply expire_spec_changes.
  - split; [by eapply ttl_keeps|apply signals_same].
  - split; [by eapply ttl_keeps|apply signals_same].
  - split; [by eapply type_keeps|apply signals_same].
  - apply (Hfin [k; k2]); [eapply rename_announces; [exact E|by eapply is_arg_at|by eapply is_arg_at|auto|auto]|apply rename_spec_changes|done].
  - apply (Hfin [k; k2]); [eapply rename_announces; [exact E|by eapply is_arg_at|by eapply is_arg_at|auto|auto]|apply rename_spec_changes|done].
  - apply flushdb_announces in E as [Hk Hf]; [|auto]. split; [exact Hk|]. intros j Hj. right. exists (db_dict (s_db s)). split; [exact Hf|].
    split; [apply (sh_ok _ _ _ _ Hs)|]. cbn in Hj. rewrite lookup_empty, (sh_map _ _ _ _ Hs j) in Hj. unfold entry, live in Hj.
    fold (vals (s_db s)). destruct (expired now (s_db s) j); [done|]. destruct (vals (s_db s) !! j); [eauto|done].
  - destruct (sadd_announces n s c s' c' k vs o0 x x0 m) as [Hk Hd]; try done; [lia|auto|]. split; [exact Hk|].
    destruct Hd as [->|Hd]; [apply signals_same|]. apply (signals_keys [k]); [|by apply Forall_singleton].
    unfold sadd_spec. repeat case_match; cbn; auto with signals.
  - destruct (srem_announces n s c s' c' k vs o0 x x0 m) as [Hk Hd]; try done; [lia|auto|]. split; [exact Hk|].
    destruct Hd as [->|Hd]; [apply signals_same|]. apply (signals_keys [k]); [|by apply Forall_singleton].
    unfold srem_spec. repeat case_match; cbn; auto with signals.
  - eapply smove_announces in E as [Hk Hd]; try done; [|lia|auto|auto]. split; [exact Hk|].
    destruct Hd as [->|Hd]; [apply signals_same|]. apply (signals_keys [k; k2]); [|done]. apply smove_spec_changes.
  - split; [by eapply sismember_keeps|apply signals_same].
  - split; [by eapply scard_keeps|apply signals_same].
Qed.
End Signals.
