(* ===== verification/MultiProofs.v ===== *)
(** * Transactions: the index of the watched keys, and the commands

    The index from keys to clients agrees with the lists of the clients, so that
    removing a client from it never fails; what MULTI, EXEC, DISCARD, WATCH and
    UNWATCH do to the session of a client; and which clients a command marks. *)

From S2P Require Import Prelude CLib Util Sds Dict IntSet Object SetType Reply Resp KeyDict Db Command Strings Keys Sets Multi Keyspace Transactions.
From S2P Require Import StringProofs KeyProofs SetProofs CommandProofs Signals.
Local Open Scope Z_scope.

(** ** The index *)

Definition upd (W : Z -> list bytes) (id : Z) (ks : list bytes) (j : Z) : list bytes := if decide (j = id) then ks else W j.

Lemma upd_same W id ks : upd W id ks id = ks.
Proof. unfold upd. by rewrite decide_True. Qed.

Lemma upd_other W id ks j : j <> id -> upd W id ks j = W j.
Proof. intros. unfold upd. by rewrite decide_False. Qed.

Lemma remove_client_ok id l : NoDup l -> id ∈ l ->
  exists l', remove_client id l = Some l' /\ NoDup l' /\ forall j, j ∈ l' <-> j ∈ l /\ j <> id.
Proof.
  induction l as [|x l IH]; intros Hn Hin; [by apply elem_of_nil in Hin|]. apply NoDup_cons in Hn as [Hx Hn]. cbn.
  destruct (Z.eqb_spec x id) as [->|Hne].
  - exists l. split; [done|]. split; [done|]. intros j. rewrite elem_of_cons. split; [|naive_solver]. intros Hj. split; [by right|]. by intros ->.
  - apply elem_of_cons in Hin as [->|Hin]; [done|]. destruct (IH Hn Hin) as (l' & -> & Hn' & Hl). exists (x :: l'). split; [done|].
    split; [|intros j; rewrite !elem_of_cons, Hl; naive_solver]. apply NoDup_cons. split; [|done]. rewrite Hl. naive_solver.
Qed.

Section Index.
Context {T : Type -> Type} `{KD : KeyDict T} `{KL : !KeyDictLaws T}.

(** [W] has the keys that every client watches. *)
Record index_ok (w : T (list Z)) (W : Z -> list bytes) : Prop := {
  ix_ok : kd_ok w;
  ix_nodup : forall id, NoDup (W id);
  ix_none : forall k id, kd_map w !! k = None -> k ∉ W id;
  ix_some : forall k l, kd_map w !! k = Some l -> l <> [] /\ NoDup l /\ forall id, id ∈ l <-> k ∈ W id
}.

Lemma index_ext w W W' : index_ok w W -> (forall id, W' id = W id) -> index_ok w W'.
Proof.
  intros [H1 H2 H3 H4] E. split; [done|..].
  - intros id. by rewrite E.
  - intros k id. rewrite E. apply H3.
  - intros k l Hl. destruct (H4 k l Hl) as (? & ? & H). split_and!; [done..|]. intros id. by rewrite E.
Qed.

(** The client that watches a key is in its list. *)
Lemma index_lookup w W id k : index_ok w W -> k ∈ W id -> exists l, kd_map w !! k = Some l /\ NoDup l /\ id ∈ l.
Proof.
  intros [_ _ H3 H4] Hk. destruct (kd_map w !! k) as [l|] eqn:E; [|by destruct (H3 k id E)].
  destruct (H4 k l E) as (_ & Hn & Hl). exists l. split_and!; [done..|]. by apply Hl.
Qed.

(** WATCH of a key that the client does not watch yet. *)
Lemma watch_index w W id k : index_ok w W -> k ∉ W id -> kd_size w <= KD_MAX ->
  exists w1 l w2, watchers w k = Ok (w1, l) /\ kd_store w1 k (l ++ [id]) = Ok w2 /\ index_ok w2 (upd W id (W id ++ [k])) /\
    (base.size (kd_map w2) <= S (base.size (kd_map w)))%nat.
Proof.
  intros [H1 H2 H3 H4] Hk Hsz. unfold watchers.
  destruct (kd_find_ok _ w k H1) as (w0 & -> & Hw0 & M0). rewrite bind_ok.
  assert (exists w1 l, (match kd_map w !! k with Some l => Ok (w0, l) | None => ('(w, _) ← kd_add (T := T) w0 k []; Ok (w, [])) end) = Ok (w1, l) /\
    kd_ok w1 /\ kd_map w1 = <[k := l]> (kd_map w) /\ l = default [] (kd_map w !! k)) as (w1 & l & -> & Hw1 & M1 & Hl).
  { destruct (kd_map w !! k) as [l|] eqn:E.
    - exists w0, l. split_and!; try done. rewrite M0. by rewrite insert_id.
    - destruct (kd_add_ok _ w0 k ([] : list Z) Hw0) as (w1 & -> & Hw1 & M1).
      { rewrite (kd_size_ok _ _ Hw0), M0, <- (kd_size_ok _ _ H1). done. }
      rewrite bind_ok. exists w1, []. rewrite M0, E in M1. done. }
  destruct (kd_store_ok _ w1 k (l ++ [id]) Hw1) as (w2 & E2 & Hw2 & M2); [rewrite M1, lookup_insert_eq; eauto|].
  exists w1, l, w2. split; [done|]. split; [done|]. rewrite M1, insert_insert_eq in M2.
  assert ((id ∉ l) /\ NoDup l /\ (forall j, j ∈ l <-> k ∈ W j)) as (Hid & Hnd & Hin).
  { subst l. destruct (kd_map w !! k) as [l|] eqn:E; cbn.
    - destruct (H4 k l E) as (_ & ? & Hin). split_and!; try done. by rewrite Hin.
    - split; [apply not_elem_of_nil|]. split; [constructor|]. intros j. split; [intros ?%elem_of_nil; done|]. intros Hj. by destruct (H3 k j E). }
  split; [|rewrite M2, map_size_insert; destruct (kd_map w !! k); unfold Datatypes.id; lia].
  split; [done|..].
  - intros j. unfold upd. destruct (decide (j = id)); [|done]. apply NoDup_app. split_and!; [done| |apply NoDup_singleton].
    intros x Hx ->%list_elem_of_singleton. done.
  - intros x j Hx. rewrite M2 in Hx. destruct (decide (x = k)) as [->|Hne]; [by rewrite lookup_insert_eq in Hx|].
    rewrite lookup_insert_ne in Hx by done. unfold upd. destruct (decide (j = id)) as [->|]; [|by apply H3].
    rewrite not_elem_of_app. split; [by apply H3|]. by intros ->%list_elem_of_singleton.
  - intros x l' Hx. rewrite M2 in Hx. destruct (decide (x = k)) as [->|Hne].
    + rewrite lookup_insert_eq in Hx. injection Hx as <-. split; [by destruct l|]. split.
      { apply NoDup_app. split_and!; [done| |apply NoDup_singleton]. intros y Hy ->%list_elem_of_singleton. done. }
      intros j. rewrite elem_of_app, list_elem_of_singleton, Hin. unfold upd. destruct (decide (j = id)) as [->|]; [|naive_solver].
      rewrite elem_of_app, list_elem_of_singleton. naive_solver.
    + rewrite lookup_insert_ne in Hx by done. destruct (H4 x l' Hx) as (? & ? & Hl'). split_and!; [done..|]. intros j. rewrite Hl'. unfold upd.
      destruct (decide (j = id)) as [->|]; [|done]. rewrite elem_of_app, list_elem_of_singleton. naive_solver.
Qed.

(** A key is removed from the list of a client and from the index. *)
Lemma unwatch_index w W id k ks : index_ok w W -> W id = k :: ks ->
  exists (w0 : T (list Z)) l l' (w1 w2 : T (list Z)), kd_find w k = Ok (w0, Some l) /\ remove_client id l = Some l' /\ kd_store w0 k l' = Ok w1 /\
    (if bool_decide (l' = []) then '(w, _) ← kd_delete (T := T) w1 k; Ok w else Ok w1) = Ok w2 /\ index_ok w2 (upd W id ks) /\
    (base.size (kd_map w2) <= base.size (kd_map w))%nat.
Proof.
  intros HX HW. destruct (index_lookup w W id k HX) as (l & El & Hnl & Hin); [rewrite HW; by left|]. destruct HX as [H1 H2 H3 H4].
  destruct (kd_find_ok _ w k H1) as (w0 & E0 & Hw0 & M0). rewrite El in E0.
  destruct (remove_client_ok id l Hnl Hin) as (l' & Er & Hnl' & Hl').
  destruct (kd_store_ok _ w0 k l' Hw0) as (w1 & E1 & Hw1 & M1); [rewrite M0, El; eauto|]. rewrite M0 in M1.
  destruct (H4 k l El) as (_ & _ & Hlk). specialize (H2 id) as Hnd. rewrite HW in Hnd. apply NoDup_cons in Hnd as [Hkk Hnk].
  assert (exists w2 : T (list Z), (if bool_decide (l' = []) then '(w, _) ← kd_delete (T := T) w1 k; Ok w else Ok w1) = Ok w2 /\ kd_ok w2 /\
    kd_map w2 = if bool_decide (l' = []) then delete k (kd_map w) else <[k := l']> (kd_map w)) as (w2 & E2 & Hw2 & M2).
  { case_bool_decide; [|by exists w1]. destruct (kd_delete_ok _ w1 k Hw1) as (w2 & -> & Hw2 & M2). rewrite bind_ok. exists w2.
    rewrite M1, delete_insert_eq in M2. done. }
  exists w0, l, l', w1, w2. split_and!; try done.
  2:{ rewrite M2. case_bool_decide; [rewrite map_size_delete|rewrite map_size_insert]; rewrite El; unfold Datatypes.id; lia. }
  assert (forall x j, x <> k -> x ∈ upd W id ks j <-> x ∈ W j) as Hother.
  { intros x j Hx. unfold upd. destruct (decide (j = id)) as [->|]; [|done]. rewrite HW, elem_of_cons. naive_solver. }
  assert (forall j, k ∈ upd W id ks j <-> j ∈ l') as Hk'.
  { intros j. rewrite Hl', Hlk. unfold upd. destruct (decide (j = id)) as [->|]; naive_solver. }
  split; [done|..].
  - intros j. unfold upd. destruct (decide (j = id)); [done|apply H2].
  - intros x j Hx. rewrite M2 in Hx. destruct (decide (x = k)) as [->|Hne].
    + rewrite Hk'. case_bool_decide as Hb; [rewrite Hb; apply not_elem_of_nil|by rewrite lookup_insert_eq in Hx].
    + rewrite Hother by done. apply H3. case_bool_decide; [rewrite lookup_delete_ne in Hx by done|rewrite lookup_insert_ne in Hx by done]; done.
  - intros x lx Hx. rewrite M2 in Hx. destruct (decide (x = k)) as [->|Hne].
    + case_bool_decide as Hb; [by rewrite lookup_delete_eq in Hx|]. rewrite lookup_insert_eq in Hx. injection Hx as <-. split_and!; [done..|].
      intros j. by rewrite Hk'.
    + assert (kd_map w !! x = Some lx) as Hx' by
        (case_bool_decide; [by rewrite lookup_delete_ne in Hx by done|by rewrite lookup_insert_ne in Hx by done]).
      destruct (H4 x lx Hx') as (? & ? & Hl). split_and!; [done..|]. intros j. by rewrite Hother, Hl.
Qed.

(** All the keys of a client are removed, and nothing fails. *)
Lemma unwatch_loop_ok id : forall ks (w : T (list Z)) W, index_ok w W -> W id = ks ->
  exists w', unwatch_loop id w ks = Ok w' /\ index_ok w' (upd W id []) /\ (base.size (kd_map w') <= base.size (kd_map w))%nat.
Proof.
  intros ks. induction ks as [|k ks IH]; intros w W HX HW; cbn [unwatch_loop].
  { exists w. split; [done|]. split; [|done]. apply (index_ext w W _ HX). intros j. unfold upd. by destruct (decide (j = id)) as [->|]. }
  destruct (unwatch_index w W id k ks HX HW) as (w0 & l & l' & w1 & w2 & E0 & El & E1 & E & HX2 & Hz).
  rewrite E0, bind_ok, El, E1, bind_ok, E, bind_ok.
  destruct (IH w2 (upd W id ks) HX2) as (w' & -> & HX' & Hz'); [apply upd_same|]. exists w'. split; [done|]. split; [|lia].
  apply (index_ext w' _ _ HX'). intros j. unfold upd. by destruct (decide (j = id)).
Qed.
End Index.

(** ** Flags *)

Definition tx_flags (o : outst) : bool * bool * bool :=
  (flag o CLIENT_MULTI, flag o CLIENT_DIRTY_CAS, flag o CLIENT_DIRTY_EXEC).

(** Only the flags of a transaction differ. *)
Definition tx_only (f : Z) (o : outst) : Prop :=
  forall b, b <> CLIENT_MULTI -> b <> CLIENT_DIRTY_CAS -> b <> CLIENT_DIRTY_EXEC -> Z.testbit f b = flag o b.

Lemma flag_raise c b b' : 0 <= b -> flag (q_out (raise_flag c b)) b' = (b =? b') || flag (q_out c) b'.
Proof. intros Hb. unfold flag. cbn. by rewrite Z.setbit_eqb. Qed.

Lemma flag_clear c bs b' : Forall (fun b => 0 <= b) bs -> flag (q_out (clear_flags c bs)) b' = flag (q_out c) b' && negb (bool_decide (b' ∈ bs)).
Proof.
  unfold flag. cbn. generalize (c_flags (q_out c)). induction bs as [|b bs IH]; intros f Hbs; cbn [foldl].
  { rewrite bool_decide_eq_false_2 by apply not_elem_of_nil. by rewrite andb_true_r. }
  apply Forall_cons in Hbs as [Hb Hbs]. rewrite IH, Z.clearbit_eqb by done. rewrite <- andb_assoc. f_equal. rewrite <- negb_orb. f_equal.
  destruct (Z.eqb_spec b b') as [->|Hne]; [by rewrite (bool_decide_eq_true_2 (b' ∈ b' :: bs)) by (by left)|]. cbn.
  apply bool_decide_ext. rewrite elem_of_cons. naive_solver.
Qed.

Lemma raise_tx c b : b ∈ [CLIENT_MULTI; CLIENT_DIRTY_CAS; CLIENT_DIRTY_EXEC] -> tx_only (c_flags (q_out (raise_flag c b))) (q_out c).
Proof.
  intros Hb b' H1 H2 H3. change (flag (q_out (raise_flag c b)) b' = flag (q_out c) b').
  assert (0 <= b) by (repeat (apply elem_of_cons in Hb as [->|Hb]; [done|]); by apply elem_of_nil in Hb).
  rewrite flag_raise by done. destruct (Z.eqb_spec b b') as [->|]; [|done].
  repeat (apply elem_of_cons in Hb as [->|Hb]; [done|]). by apply elem_of_nil in Hb.
Qed.

Lemma clear_tx c bs : (forall b, b ∈ bs -> b ∈ [CLIENT_MULTI; CLIENT_DIRTY_CAS; CLIENT_DIRTY_EXEC]) -> tx_only (c_flags (q_out (clear_flags c bs))) (q_out c).
Proof.
  intros Hbs b' H1 H2 H3. change (flag (q_out (clear_flags c bs)) b' = flag (q_out c) b').
  rewrite flag_clear.
  - rewrite bool_decide_eq_false_2; [by rewrite andb_true_r|]. intros Hb%Hbs.
    repeat (apply elem_of_cons in Hb as [->|Hb]; [done|]). by apply elem_of_nil in Hb.
  - apply Forall_forall. intros b Hb%Hbs. repeat (apply elem_of_cons in Hb as [->|Hb]; [done|]). by apply elem_of_nil in Hb.
Qed.

Section TxCommands.
Context {T : Type -> Type} `{KD : KeyDict T} `{KL : !KeyDictLaws T} `{SC : SetConfig}.
Variable junk : Z.
Variable sdsZmallocSize : sds -> Z.
Variable embeddedSize : sds -> Z.
Variable client_obuf_limits : client_type -> obuf_limits.
Variable unixtime : Z.
Variable shareable : bool.
Hypothesis zmalloc_size : forall s, 0 <= sdsZmallocSize s < 2 ^ 48.
Hypothesis embedded_size : forall s, 0 <= embeddedSize s < 2 ^ 48.
Variable other_proc : proc -> session T -> reqst -> res (session T * reqst).
Variable en : env.
Hypothesis master : e_masterhost en = false.
Hypothesis loaded : e_loading en = false.
#[local] Abbreviation now := (e_now en).
#[local] Abbreviation ready' := (ready sdsZmallocSize embeddedSize).
#[local] Abbreviation replied' := (replied sdsZmallocSize embeddedSize).

(** *** Replies *)

(** The reply is queued for the client [c], and the flags of the transaction are
    [F]. *)
Definition answers (c : reqst) (reply : bytes) (F : bool * bool * bool) (c' : reqst) : Prop :=
  stream (q_out c') = stream (q_out c) ++ reply /\ c_id (q_out c') = c_id (q_out c) /\ tx_flags (q_out c') = F.

Lemma answers_replied r c reply o : takes_replies (q_out c) = true -> replied' r (q_out c) reply o ->
  answers c reply (tx_flags (q_out c)) (with_out c o).
Proof.
  intros Ht (_ & Hst & [([= Hid _] & _) Hf] & _). rewrite Ht in Hst. split_and!; [done|done|].
  unfold tx_flags. change (q_out (with_out c o)) with o. by rewrite !Hf.
Qed.

Lemma ready_flags n o f : tx_only f o -> ready' n o -> ready' n (with_flags o f).
Proof. intros Hf ([] & Hc & Hb). split; [by split|]. split; [|done]. rewrite <- Hc. by apply Hf. Qed.

Lemma takes_flags o f : tx_only f o -> takes_replies (with_flags o f) = takes_replies o.
Proof.
  intros Hf. assert (forall b, b <> CLIENT_MULTI -> b <> CLIENT_DIRTY_CAS -> b <> CLIENT_DIRTY_EXEC -> flag (with_flags o f) b = flag o b) as H by exact Hf.
  unfold takes_replies. change (c_fd (with_flags o f)) with (c_fd o). by rewrite !H.
Qed.

Lemma shared_answers c reply : ready' 1 (q_out c) -> takes_replies (q_out c) = true -> Z.of_nat (length reply) < 2 ^ 63 ->
  exists c', add_shared junk sdsZmallocSize embeddedSize client_obuf_limits unixtime c reply = Ok c' /\ answers c reply (tx_flags (q_out c)) c' /\
    replied' 1 (q_out c) reply (q_out c') /\ c' = with_out c (q_out c').
Proof.
  intros Hr Ht Hl. destruct (shared_replies junk sdsZmallocSize embeddedSize client_obuf_limits unixtime zmalloc_size embedded_size c reply Hr Hl)
    as (o & -> & Ho). exists (with_out c o). split_and!; [done|by eapply answers_replied|done|done].
Qed.

Lemma error_answers c text : ready' 3 (q_out c) -> takes_replies (q_out c) = true -> Z.of_nat (length text) < 2 ^ 63 ->
  exists c', add_error junk sdsZmallocSize embeddedSize client_obuf_limits unixtime c text = Ok c' /\ answers c (err_reply text) (tx_flags (q_out c)) c'.
Proof.
  intros Hr Ht Hl. destruct (error_replies junk sdsZmallocSize embeddedSize client_obuf_limits unixtime zmalloc_size embedded_size c text Hr Hl)
    as (o & -> & Ho). exists (with_out c o). split; [done|]. by eapply answers_replied.
Qed.

(** *** The state of a client *)

Definition queue_is (q : list (redisCommand * list robj)) (cmds : list kcmd) : Prop :=
  Forall2 (fun e cmd => lookup_command (name cmd) = Some e.1 /\ Forall2 is_arg (request cmd) e.2) q cmds.

Definition actx_flags (a : actx) : bool * bool * bool := (a_multi a, a_cas a, a_abort a).

(** The session and the flags of the client [id] are the state [a]; [W] has the
    keys that every client watches. *)
Record tx_state (id : Z) (W : Z -> list bytes) (s : session T) (c : reqst) (a : actx) : Prop := {
  ts_id : c_id (q_out c) = id;
  ts_flags : tx_flags (q_out c) = actx_flags a;
  ts_queue : queue_is (s_queued s) (a_queue a);
  ts_watching : s_watching s = a_watch a;
  ts_index : index_ok (s_watched s) W;
  ts_self : W id = a_watch a
}.

(** A command of a transaction that does not touch the key space: the reply, the
    state of the client, and at most [n] more keys in the index. *)
Definition controls (id : Z) (W : Z -> list bytes) (s : session T) (c : reqst) (a' : actx) (reply : bytes) (n : nat) (f : res (session T * reqst)) : Prop :=
  exists s' c', f = Ok (s', c') /\ answers c reply (actx_flags a') c' /\ tx_state id (upd W id (a_watch a')) s' c' a' /\ s_db s' = s_db s /\
    (base.size (kd_map (s_watched s')) <= base.size (kd_map (s_watched s)) + n)%nat.

Lemma tx_state_same id W s c a c' reply : tx_state id W s c a -> answers c reply (actx_flags a) c' -> tx_state id (upd W id (a_watch a)) s c' a.
Proof.
  intros [H1 H2 H3 H4 H5 H6] (_ & Hid & Hf). split; try done; [by rewrite Hid| |apply upd_same].
  apply (index_ext _ W); [done|]. intros j. unfold upd. by destruct (decide (j = id)) as [->|].
Qed.

Lemma flags_three o a : tx_flags o = actx_flags a ->
  flag o CLIENT_MULTI = a_multi a /\ flag o CLIENT_DIRTY_CAS = a_cas a /\ flag o CLIENT_DIRTY_EXEC = a_abort a.
Proof. intros H. split_and!; [exact (f_equal (fun x => x.1.1) H)|exact (f_equal (fun x => x.1.2) H)|exact (f_equal snd H)]. Qed.

Lemma flags_multi o a : tx_flags o = actx_flags a -> flag o CLIENT_MULTI = a_multi a.
Proof. intros H. apply (flags_three o a H). Qed.

(** A refusal. *)
Lemma refuse_controls id W s c a text : tx_state id W s c a -> ready' 3 (q_out c) -> takes_replies (q_out c) = true -> Z.of_nat (length text) < 2 ^ 63 ->
  controls id W s c a (err_reply text) 0 (c ← add_error junk sdsZmallocSize embeddedSize client_obuf_limits unixtime c text; Ok (s, c)).
Proof.
  intros Hts Hr Ht Hl. destruct (error_answers c text Hr Ht Hl) as (c' & -> & Ha). rewrite bind_ok. exists s, c'.
  rewrite (ts_flags _ _ _ _ _ Hts) in Ha. split_and!; [done|done|by eapply tx_state_same|done|lia].
Qed.

Lemma flags_answers c c0 reply F c' : answers c0 reply F c' -> stream (q_out c0) = stream (q_out c) -> c_id (q_out c0) = c_id (q_out c) -> answers c reply F c'.
Proof. intros (H1 & H2 & H3) E1 E2. split_and!; [by rewrite H1, E1|by rewrite H2, E2|done]. Qed.

Lemma multi_controls id W s c a : tx_state id W s c a -> ready' 3 (q_out c) -> takes_replies (q_out c) = true ->
  let '(_, a', reply) := tspec now ∅ a Multi_ in controls id W s c a' reply 0 (multiCommand junk sdsZmallocSize embeddedSize client_obuf_limits unixtime s c).
Proof.
  intros Hts Hr Ht. unfold multiCommand, tspec. fold ok_reply. pose proof (ts_flags _ _ _ _ _ Hts) as Hf. rewrite (flags_multi _ _ Hf). destruct (a_multi a) eqn:Em.
  { by apply refuse_controls. }
  pose proof (raise_tx c CLIENT_MULTI ltac:(by left)) as Honly.
  destruct (shared_answers (raise_flag c CLIENT_MULTI) ok_reply) as (c' & -> & Ha & _); [|rewrite <- Ht; by apply takes_flags|done|].
  { apply ready_flags; [done|]. by apply (ready_le _ _ 3). }
  rewrite bind_ok. exists s, c'. apply (flags_answers c) in Ha; [|done|done].
  assert (tx_flags (q_out (raise_flag c CLIENT_MULTI)) = (true, a_cas a, a_abort a)) as E.
  { unfold tx_flags. rewrite !flag_raise by done. destruct (flags_three _ _ Hf) as (_ & -> & ->). done. }
  rewrite E in Ha. split_and!; [done|done| |done|lia]. destruct Hts as [H1 H2 H3 H4 H5 H6].
  destruct Ha as (_ & Hid & Hfl). split; try done; [by rewrite Hid| |apply upd_same].
  apply (index_ext _ W); [done|]. intros j. unfold upd. by destruct (decide (j = id)) as [->|].
Qed.

(** *** The end of a transaction *)

Lemma discard_ok id W s c a : tx_state id W s c a ->
  exists s' c', discardTransaction s c = Ok (s', c') /\ c' = clear_flags c [CLIENT_MULTI; CLIENT_DIRTY_CAS; CLIENT_DIRTY_EXEC] /\
    tx_state id (upd W id []) s' c' idle_actx /\ s_db s' = s_db s /\ s_dirty s' = s_dirty s /\
    (base.size (kd_map (s_watched s')) <= base.size (kd_map (s_watched s)))%nat.
Proof.
  intros [H1 H2 H3 H4 H5 H6]. unfold discardTransaction, unwatchAllKeys. cbv zeta.
  change (c_id (q_out (clear_flags c [CLIENT_MULTI; CLIENT_DIRTY_CAS; CLIENT_DIRTY_EXEC]))) with (c_id (q_out c)). rewrite H1.
  cbn [with_queued s_watched s_watching]. destruct (unwatch_loop_ok id (s_watching s) (s_watched s) W H5) as (w & -> & Hw & Hz); [congruence|].
  rewrite !bind_ok. eexists _, _. split; [reflexivity|]. split; [reflexivity|]. split; [|done].
  split; try done; [|constructor|apply upd_same]. unfold tx_flags. rewrite !flag_clear by (repeat constructor; done).
  rewrite !(bool_decide_eq_true_2 (_ ∈ _)) by set_solver. by rewrite !andb_false_r.
Qed.

Lemma discard_controls id W s c a : tx_state id W s c a -> ready' 3 (q_out c) -> takes_replies (q_out c) = true ->
  let '(_, a', reply) := tspec now ∅ a Discard in controls id W s c a' reply 0 (discardCommand junk sdsZmallocSize embeddedSize client_obuf_limits unixtime s c).
Proof.
  intros Hts Hr Ht. unfold discardCommand, tspec. fold ok_reply. rewrite (flags_multi _ _ (ts_flags _ _ _ _ _ Hts)). destruct (a_multi a) eqn:Em; cbn [negb].
  2:{ by apply refuse_controls. }
  destruct (discard_ok id W s c a Hts) as (s' & c1 & -> & -> & Hts' & Hdb & _ & Hz). rewrite bind_ok.
  pose proof (clear_tx c [CLIENT_MULTI; CLIENT_DIRTY_CAS; CLIENT_DIRTY_EXEC] ltac:(done)) as Honly.
  destruct (shared_answers (clear_flags c [CLIENT_MULTI; CLIENT_DIRTY_CAS; CLIENT_DIRTY_EXEC]) ok_reply) as (c' & -> & Ha & _);
    [|rewrite <- Ht; by apply takes_flags|done|].
  { apply ready_flags; [done|]. by apply (ready_le _ _ 3). }
  rewrite bind_ok. exists s', c'. rewrite (ts_flags _ _ _ _ _ Hts') in Ha. pose proof (tx_state_same _ _ _ _ _ _ _ Hts' Ha) as Hts2.
  apply (flags_answers c) in Ha; [|done|done]. split_and!; [done|done| |done|lia].
  destruct Hts2 as [T1 T2 T3 T4 T5 T6]. split; try done; [|apply upd_same]. apply (index_ext _ _ _ T5). intros j. cbn. unfold upd. by destruct (decide (j = id)).
Qed.

(** *** WATCH *)

Lemma watch_args_ok id : forall ks objs (s : session T) W, Forall2 is_arg ks objs -> index_ok (s_watched s) W -> W id = s_watching s ->
  Z.of_nat (base.size (kd_map (s_watched s))) + Z.of_nat (length ks) <= KD_MAX ->
  exists w, watch_args s id objs = Ok (with_watch s w (foldl add_key (s_watching s) ks)) /\ index_ok w (upd W id (foldl add_key (s_watching s) ks)) /\
    (base.size (kd_map w) <= base.size (kd_map (s_watched s)) + length ks)%nat.
Proof.
  intros ks. induction ks as [|k ks IH]; intros objs s W HF HX HW Hsz.
  { apply Forall2_nil_inv_l in HF as ->. exists (s_watched s). split; [by destruct s|]. split; [|cbn; lia].
    apply (index_ext _ W); [done|]. intros j. cbn. unfold upd. by destruct (decide (j = id)) as [->|]. }
  apply Forall2_cons_inv_l in HF as (o & rest & Ho & HF & ->). cbn [watch_args foldl length] in *. rewrite (is_arg_key k), bind_ok by done.
  assert (exists w, watchForKey s id k = Ok (with_watch s w (add_key (s_watching s) k)) /\ index_ok w (upd W id (add_key (s_watching s) k)) /\
    (base.size (kd_map w) <= S (base.size (kd_map (s_watched s))))%nat) as (w & -> & Hw & Hz).
  { unfold watchForKey, add_key. case_bool_decide as Hk.
    - exists (s_watched s). split; [by destruct s|]. split; [|lia]. apply (index_ext _ W); [done|]. intros j. unfold upd. by destruct (decide (j = id)) as [->|].
    - destruct (watch_index (s_watched s) W id k HX) as (w1 & l & w2 & -> & E & HX2 & Hz); [by rewrite HW| |].
      { rewrite (kd_size_ok _ _ (ix_ok _ _ HX)). lia. }
      rewrite bind_ok, E, bind_ok. exists w2. rewrite <- HW. done. }
  rewrite bind_ok. destruct (IH rest (with_watch s w (add_key (s_watching s) k)) (upd W id (add_key (s_watching s) k)) HF Hw) as (w' & -> & Hw' & Hz');
    [by rewrite upd_same|cbn [with_watch s_watched]; lia|].
  exists w'. cbn [with_watch s_watched s_watching] in *. split; [done|]. split; [|lia]. apply (index_ext _ _ _ Hw'). intros j. unfold upd. by destruct (decide (j = id)).
Qed.

Lemma watch_controls id W s c a cmd ks objs : tx_state id W s c a -> ready' 3 (q_out c) -> takes_replies (q_out c) = true ->
  q_argv c = cmd :: objs -> Forall2 is_arg ks objs -> Z.of_nat (base.size (kd_map (s_watched s))) + Z.of_nat (length ks) <= KD_MAX ->
  let '(_, a', reply) := tspec now ∅ a (Watch ks) in controls id W s c a' reply (length ks) (watchCommand junk sdsZmallocSize embeddedSize client_obuf_limits unixtime s c).
Proof.
  intros Hts Hr Ht Ha HF Hsz. unfold watchCommand, tspec. fold ok_reply. rewrite (flags_multi _ _ (ts_flags _ _ _ _ _ Hts)). destruct (a_multi a) eqn:Em.
  { destruct (refuse_controls id W s c a (str "WATCH inside MULTI is not allowed") Hts Hr Ht) as (s' & c' & E & H1 & H2 & H3 & H4); [done|].
    exists s', c'. split_and!; try done. lia. }
  rewrite Ha. change (drop 1 (cmd :: objs)) with objs. pose proof Hts as [H1 H2 H3 H4 H5 H6]. rewrite H1.
  destruct (watch_args_ok id ks objs s W HF H5) as (w & -> & Hw & Hz); [congruence|done|]. rewrite bind_ok.
  destruct (shared_answers c ok_reply) as (c' & -> & Hans & _); [by apply (ready_le _ _ 3)|done|done|]. rewrite bind_ok. eexists _, _. split; [reflexivity|].
  assert (tx_flags (q_out c) = (false, a_cas a, a_abort a)) as E by (rewrite H2; unfold actx_flags; by rewrite Em). rewrite E in Hans. rewrite H4 in *.
  split_and!; [exact Hans| |done|exact Hz]. destruct Hans as (_ & Hid & Hfl). split; try done; [by rewrite Hid|apply upd_same].
Qed.

Lemma unwatch_controls id W s c a : tx_state id W s c a -> ready' 3 (q_out c) -> takes_replies (q_out c) = true ->
  let '(_, a', reply) := tspec now ∅ a Unwatch in controls id W s c a' reply 0 (unwatchCommand junk sdsZmallocSize embeddedSize client_obuf_limits unixtime s c).
Proof.
  intros Hts Hr Ht. unfold unwatchCommand, unwatchAllKeys, tspec. fold ok_reply. pose proof Hts as [H1 H2 H3 H4 H5 H6]. rewrite H1.
  destruct (unwatch_loop_ok id (s_watching s) (s_watched s) W H5) as (w & -> & Hw & Hz); [congruence|]. rewrite !bind_ok.
  pose proof (clear_tx c [CLIENT_DIRTY_CAS] ltac:(set_solver)) as Honly.
  destruct (shared_answers (clear_flags c [CLIENT_DIRTY_CAS]) ok_reply) as (c' & -> & Ha & _); [|rewrite <- Ht; by apply takes_flags|done|].
  { apply ready_flags; [done|]. by apply (ready_le _ _ 3). }
  rewrite bind_ok. eexists _, _. split; [reflexivity|]. apply (flags_answers c) in Ha; [|done|done].
  assert (tx_flags (q_out (clear_flags c [CLIENT_DIRTY_CAS])) = (a_multi a, false, a_abort a)) as E.
  { unfold tx_flags. rewrite !flag_clear by (repeat constructor; done). destruct (flags_three _ _ H2) as (-> & -> & ->). 
    rewrite (bool_decide_eq_true_2 (CLIENT_DIRTY_CAS ∈ _)) by set_solver. rewrite !bool_decide_eq_false_2 by set_solver. by rewrite !andb_true_r, andb_false_r. }
  rewrite E in Ha. split_and!; [exact Ha| |done|cbn; lia]. destruct Ha as (_ & Hid & Hfl). split; try done; [by rewrite Hid|apply upd_same].
Qed.

(** *** EXEC *)

Lemma krun_signals_trans (m m1 m2 : keyspace) (db1 db2 : redisDb T) : signals m m1 db1 -> (forall e, e ∈ db_events db1 -> e ∈ db_events db2) ->
  signals m1 m2 db2 -> signals m m2 db2.
Proof.
  intros H1 Hev H2 k Hk. destruct (decide (m2 !! k = m1 !! k)) as [E|Hne]; [|by apply H2]. rewrite E in Hk.
  destruct (H1 k Hk) as [He|(d & He & Hd)]; [left; by apply Hev|right; exists d; split; [by apply Hev|done]].
Qed.

Definition sum_nodes (cmds : list kcmd) : Z := foldr (fun cmd n => nodes cmd + n) 0 cmds.
Definition sum_new (cmds : list kcmd) : Z := foldr (fun cmd n => new_keys cmd + n) 0 cmds.

Lemma sum_nodes_nonneg cmds : 0 <= sum_nodes cmds.
Proof. induction cmds as [|cmd cmds IH]; [done|]. change (0 <= nodes cmd + sum_nodes cmds). unfold nodes at 1. lia. Qed.
Lemma sum_new_nonneg cmds : 0 <= sum_new cmds.
Proof. induction cmds as [|cmd cmds IH]; [done|]. change (0 <= new_keys cmd + sum_new cmds). unfold new_keys at 1. lia. Qed.

(** One of the commands may announce the key. *)
Definition touched_by (cmds : list kcmd) (k : bytes) : Prop := exists cmd, cmd ∈ cmds /\ touches cmd k.

Lemma within_le (P Q : bytes -> Prop) (s s' : session T) : (forall k, P k -> Q k) -> within P s s' -> within Q s s'.
Proof. intros HPQ H e He. destruct (H e He) as [|Hx]; [by left|right]. destruct e; try done; [by apply HPQ|]. destruct Hx as [? Hk]. split; [done|auto]. Qed.

Lemma within_app P (s1 s s2 : session T) : within P s s1 -> within P s1 s2 -> within P s s2.
Proof. intros H1 H2 e He. destruct (H2 e He) as [He1|]; [by apply H1|by right]. Qed.

Lemma within_same P (s s' : session T) : db_events (s_db s') = db_events (s_db s) -> within P s s'.
Proof. intros E e He. left. by rewrite <- E. Qed.

(** The queued commands do what the specification says, one after the other. *)
Lemma exec_loop_ok (Hnow : 0 <= now) : forall cmds queue (s : session T) c b n m, queue_is queue cmds ->
  shows n now (s_db s) m -> times_ok m -> sum_new cmds <= n -> Forall (in_range now) cmds -> ready' (sum_nodes cmds) (q_out c) ->
  let '(m', replies) := krun now m cmds in
  exists s' c' b', exec_loop (call_queued junk sdsZmallocSize embeddedSize client_obuf_limits unixtime shareable other_proc en) queue s c b = Ok (s', c', b') /\
    shows (n - sum_new cmds) now (s_db s') m' /\ times_ok m' /\ framed s s' /\ (forall e, e ∈ db_events (s_db s) -> e ∈ db_events (s_db s')) /\
    within (touched_by cmds) s s' /\ signals m m' (s_db s') /\
    replied' (sum_nodes cmds) (q_out c) replies (q_out c').
Proof.
  intros cmds. induction cmds as [|cmd cmds IH]; intros queue s c b n m HQ Hs Htm Hn Hr Hrd.
  { apply Forall2_nil_inv_r in HQ as ->. cbn [krun exec_loop]. exists s, c, b. cbn [sum_new sum_nodes foldr] in *. rewrite Z.sub_0_r.
    split_and!; try done; [by left|by intros k|by apply replied_refl]. }
  apply Forall2_cons_inv_r in HQ as ([entry argv] & rest & [Hent Hargs] & HQ & ->). cbn [fst snd] in *. apply Forall_cons in Hr as [Hr1 Hr].
  cbn [sum_new sum_nodes foldr] in *. fold (sum_new cmds) in *. fold (sum_nodes cmds) in *.
  pose proof (sum_new_nonneg cmds). pose proof (sum_nodes_nonneg cmds).
  pose proof (command_does junk sdsZmallocSize embeddedSize client_obuf_limits unixtime shareable (queued_proc junk sdsZmallocSize embeddedSize client_obuf_limits unixtime other_proc)
    zmalloc_size embedded_size en n cmd entry s (with_argv c argv) m master loaded Hnow Hs Htm ltac:(lia) Hr1 Hargs) as HD.
  pose proof (kspec_times now m cmd Htm Hr1) as Htm1. cbn [krun exec_loop].
  destruct (kspec now m cmd) as [m1 r] eqn:Ek. destruct HD as (s1 & c1 & E & Hs1 & Hrep); [by apply (ready_le _ _ (nodes cmd + sum_nodes cmds)); [lia|]|done|].
  pose proof (command_signals junk sdsZmallocSize embeddedSize client_obuf_limits unixtime shareable zmalloc_size embedded_size en master loaded (touches cmd) (queued_proc junk sdsZmallocSize embeddedSize client_obuf_limits unixtime other_proc)
    n (n - new_keys cmd) cmd entry s (with_argv c argv) s1 c1 m Hs ltac:(lia) Hr1 (fun _ Hk => Hk) Hargs Hent E) as HS. rewrite Ek in HS. specialize (HS Hs1) as [Hk1 Hg1].
  assert (call_queued junk sdsZmallocSize embeddedSize client_obuf_limits unixtime shareable other_proc en entry s (with_argv c argv) = Ok (s1, c1)) as -> by exact E.
  rewrite bind_ok. change (q_out (with_argv c argv)) with (q_out c) in Hrep.
  specialize (IH rest s1 c1 (b || negb (cmd_flag entry CMD_READONLY)) (n - new_keys cmd) m1 HQ Hs1 Htm1 ltac:(lia) Hr).
  destruct (krun now m1 cmds) as [m2 rs]. destruct IH as (s2 & c2 & b2 & -> & Hs2 & Htm2 & (G1 & G2 & G3) & He2 & Hfl2 & Hg2 & Hrep2).
  { eapply replied_ready; [exact Hrd|exact Hrep|lia]. }
  pose proof (keeps_within _ _ _ Hk1 (sh_ok _ _ _ _ Hs)) as Hfl1. pose proof (fun e => keeps_elem _ s s1 e Hk1) as He1.
  exists s2, c2, b2. split; [done|]. destruct Hk1 as [(F1 & F2 & F3) _]. split_and!.
  - eapply shows_le; [|exact Hs2]. lia.
  - done.
  - split_and!; congruence.
  - auto.
  - apply (within_app _ s1); [apply (within_le (touches cmd)); [|done]|apply (within_le (touched_by cmds)); [|done]]; unfold touched_by; set_solver.
  - by eapply krun_signals_trans.
  - by eapply replied_app.
Qed.

(** A request: the reply, the state of the client, and a database that shows the
    new key space and announces the changes. *)
Definition performs (n : Z) (id : Z) (W : Z -> list bytes) (s : session T) (c : reqst) (m : keyspace) (m' : keyspace) (a' : actx) (reply : bytes) (cmds : list kcmd) (k : nat)
  (f : res (session T * reqst)) : Prop :=
  exists s' c', f = Ok (s', c') /\ answers c reply (actx_flags a') c' /\ tx_state id (upd W id (a_watch a')) s' c' a' /\
    shows n now (s_db s') m' /\ times_ok m' /\ signals m m' (s_db s') /\ within (touched_by cmds) s s' /\
    (base.size (kd_map (s_watched s')) <= base.size (kd_map (s_watched s)) + k)%nat.

Lemma controls_performs n id W s c m a' reply cmds k f : controls id W s c a' reply k f -> shows n now (s_db s) m -> times_ok m ->
  performs n id W s c m m a' reply cmds k f.
Proof.
  intros (s' & c' & E & Ha & Hts & Hdb & Hz) Hs Htm. exists s', c'. rewrite Hdb. split_and!; try done; [by intros j|]. apply within_same. by rewrite Hdb.
Qed.

Lemma queue_length cmds : Z.of_nat (length cmds) <= sum_new cmds.
Proof.
  induction cmds as [|cmd cmds IH]; [done|]. cbn [length sum_new foldr]. fold (sum_new cmds).
  assert (1 <= new_keys cmd); [|lia]. unfold new_keys. destruct cmd; try (destruct relative); try (destruct unit); cbn [request length]; lia.
Qed.

Lemma exec_refused n id W s c m a : tx_state id W s c a -> ready' 3 (q_out c) -> takes_replies (q_out c) = true -> shows n now (s_db s) m -> times_ok m ->
  a_multi a = false \/ a_abort a = true \/ a_cas a = true ->
  let '(m', a', reply) := exec_spec now m a in
  m' = m /\ performs n id W s c m m' a' reply [] 0 (execCommand junk sdsZmallocSize embeddedSize client_obuf_limits unixtime (call_queued junk sdsZmallocSize embeddedSize client_obuf_limits unixtime shareable other_proc en) s c).
Proof.
  intros Hts Hr Ht Hs Htm Ha. unfold execCommand, exec_spec. destruct (flags_three _ _ (ts_flags _ _ _ _ _ Hts)) as (Fm & Fc & Fe). rewrite Fm, Fc, Fe.
  destruct (a_multi a) eqn:Em; cbn [negb].
  2:{ split; [done|]. apply controls_performs; [|done|done]. by apply refuse_controls. }
  assert (a_cas a || a_abort a = true) as -> by (destruct Ha as [|[->| ->]]; [done|by rewrite orb_true_r|done]).
  assert ((if a_abort a then (m, idle_actx, execaborterr) else if a_cas a then (m, idle_actx, nullmultibulk) else
    let '(m', replies) := krun now m (a_queue a) in (m', idle_actx, exec_reply (length (a_queue a)) replies)) =
    (m, idle_actx, if a_abort a then execaborterr else nullmultibulk)) as ->.
  { destruct (a_abort a); [done|]. destruct Ha as [|[| ->]]; done. }
  split; [done|]. destruct (shared_answers c (if a_abort a then execaborterr else nullmultibulk)) as (c1 & -> & Hans & _);
    [by apply (ready_le _ _ 3)|done|by destruct (a_abort a)|]. rewrite bind_ok. rewrite (ts_flags _ _ _ _ _ Hts) in Hans.
  pose proof (tx_state_same _ _ _ _ _ _ _ Hts Hans) as Hts1.
  destruct (discard_ok _ _ _ _ _ Hts1) as (s' & c' & -> & -> & Hts' & Hdb & _ & Hz). eexists _, _. split; [reflexivity|].
  pose proof (ts_flags _ _ _ _ _ Hts') as Hf'. destruct Hans as (A1 & A2 & _). rewrite Hdb. split_and!; try done; [| by intros j|intros d; rewrite Hdb; by left|lia].
  destruct Hts' as [T1 T2 T3 T4 T5 T6]. split; try done; [|apply upd_same]. apply (index_ext _ _ _ T5). intros j. cbn. unfold upd. by destruct (decide (j = id)).
Qed.

Lemma exec_runs n id W s c m a : 0 <= now -> tx_state id W s c a -> ready' (1 + sum_nodes (a_queue a)) (q_out c) -> takes_replies (q_out c) = true ->
  shows n now (s_db s) m -> times_ok m -> sum_new (a_queue a) <= n -> Forall (in_range now) (a_queue a) ->
  a_multi a = true -> a_abort a = false -> a_cas a = false ->
  let '(m', a', reply) := exec_spec now m a in
  performs (n - sum_new (a_queue a)) id W s c m m' a' reply (a_queue a) 0 (execCommand junk sdsZmallocSize embeddedSize client_obuf_limits unixtime (call_queued junk sdsZmallocSize embeddedSize client_obuf_limits unixtime shareable other_proc en) s c).
Proof.
  intros Hnow Hts Hr Ht Hs Htm Hn HF Em Ea Ec. unfold execCommand, exec_spec. destruct (flags_three _ _ (ts_flags _ _ _ _ _ Hts)) as (Fm & Fc & Fe).
  rewrite Fm, Fc, Fe, Em, Ea, Ec. cbn [negb orb]. pose proof Hts as [H1 H2 H3 H4 H5 H6]. unfold unwatchAllKeys at 1. rewrite H1.
  destruct (unwatch_loop_ok id (s_watching s) (s_watched s) W H5) as (w & -> & Hw & Hz); [congruence|]. rewrite !bind_ok. cbn [with_watch s_queued].
  pose proof (Forall2_length _ _ _ H3) as Hlen. pose proof (queue_length (a_queue a)). pose proof (sum_nodes_nonneg (a_queue a)).
  pose proof (sh_room _ _ _ _ Hs) as Hroom. unfold ROOM_MAX, INTSET_MAX in Hroom.
  destruct (multibulk_replies junk sdsZmallocSize embeddedSize client_obuf_limits unixtime zmalloc_size embedded_size c (Z.of_nat (length (s_queued s)))) as (o1 & -> & Hrep1);
    [by apply (ready_le _ _ (1 + sum_nodes (a_queue a))); [lia|]|unfold LLONG_MAX; lia|]. rewrite bind_ok.
  pose proof (exec_loop_ok Hnow (a_queue a) (s_queued s) (with_watch s w []) (with_out c o1) false n m H3 Hs Htm Hn HF) as HL.
  destruct (krun now m (a_queue a)) as [m' replies]. destruct HL as (s2 & c2 & b2 & -> & Hs2 & Htm2 & (F1 & F2 & F3) & _ & Hfl2 & Hg2 & Hrep2).
  { eapply replied_ready; [exact Hr|exact Hrep1|lia]. }
  rewrite bind_ok. pose proof (replied_app _ _ _ _ _ _ _ _ _ _ Hrep1 Hrep2 eq_refl) as Hrep.
  pose proof (answers_replied _ c _ _ Ht Hrep) as (A1 & A2 & A3).
  assert (tx_state id (upd W id []) s2 (with_argv c2 (q_argv c)) (mkActx true false false (a_queue a) [])) as Hts2.
  { split; [by rewrite <- H1| |by rewrite F1|by rewrite F3|by rewrite F2|apply upd_same].
    change (q_out (with_argv c2 (q_argv c))) with (q_out (with_out c (q_out c2))). rewrite A3, H2. unfold actx_flags. cbn. by rewrite Em, Ea, Ec. }
  destruct (discard_ok _ _ _ _ _ Hts2) as (s' & c' & -> & -> & Hts' & Hdb & _ & Hz'). rewrite bind_ok. eexists _, _. split; [reflexivity|].
  assert (forall x : session T, s_db (if b2 then with_dirty x 1 else x) = s_db x /\ s_queued (if b2 then with_dirty x 1 else x) = s_queued x /\
    s_watching (if b2 then with_dirty x 1 else x) = s_watching x /\ s_watched (if b2 then with_dirty x 1 else x) = s_watched x) as Hd by (by destruct b2).
  destruct (Hd s') as (D1 & D2 & D3 & D4). pose proof (ts_flags _ _ _ _ _ Hts') as Hf'. rewrite D1, D4, Hdb. split_and!; try done.
  - split_and!; [|exact A2|exact Hf']. etrans; [exact A1|]. unfold exec_reply. rewrite Hlen. by rewrite <- !app_assoc.
  - destruct Hts' as [T1 T2 T3 T4 T5 T6]. split; rewrite ?D2, ?D3, ?D4; try done; [|apply upd_same]. apply (index_ext _ _ _ T5).
    intros j. cbn. unfold upd. by destruct (decide (j = id)).
  - intros d. rewrite D1, Hdb. apply Hfl2.
  - cbn in F2. rewrite F2 in Hz'. cbn in Hz'. lia.
Qed.

(** *** Requests *)

Variable cluster_redirect : redisCommand -> reqst -> option (reqst -> res reqst).
Variable freeMemoryIfNeeded : session T -> session T * bool * bool.
Variable handleClientsBlockedOnLists : session T -> res (session T).
Hypothesis no_blocked_clients : forall s, handleClientsBlockedOnLists s = Ok s.

(** [processCommand] with all the commands. *)
Definition process_tx (g : guards) : session T -> reqst -> res (session T * option (reqst * bool)) :=
  processCommand junk sdsZmallocSize embeddedSize client_obuf_limits unixtime shareable lookup_command
    (handlers junk sdsZmallocSize embeddedSize client_obuf_limits unixtime shareable (multi_proc junk sdsZmallocSize embeddedSize client_obuf_limits unixtime shareable other_proc en) en)
    cluster_redirect discardTransaction freeMemoryIfNeeded handleClientsBlockedOnLists g en.

#[local] Abbreviation exec_tx := (exec_command junk sdsZmallocSize embeddedSize client_obuf_limits unixtime shareable
  (handlers junk sdsZmallocSize embeddedSize client_obuf_limits unixtime shareable (multi_proc junk sdsZmallocSize embeddedSize client_obuf_limits unixtime shareable other_proc en) en) handleClientsBlockedOnLists en).

Lemma is_arg_incr v o : is_arg v o -> is_arg v (incrRefCount o).
Proof.
  intros (([H1 [H2 H3]] & H4) & Hv & Hl). destruct (incrRefCount_ok o) as [Ho Hov]; [done|]. split; [split; [done|by destruct o]|]. by rewrite Hov.
Qed.

Lemma queue_performs n id W s c m a cmd entry : tx_state id W s c a -> ready' 3 (q_out c) -> takes_replies (q_out c) = true -> shows n now (s_db s) m -> times_ok m ->
  a_multi a = true -> lookup_command (name cmd) = Some entry -> transaction_proc (cmd_proc entry) = false -> Forall2 is_arg (request cmd) (q_argv c) ->
  exists s' c', exec_tx entry s c = Ok (s', Some (c', true)) /\
    performs n id W s c m m (mkActx true (a_cas a) (a_abort a) (a_queue a ++ [cmd]) (a_watch a)) queued_reply [] 0 (Ok (s', c')).
Proof.
  intros Hts Hr Ht Hs Htm Em Hent Htr HF. pose proof Hts as [H1 H2 H3 H4 H5 H6]. unfold exec_command. rewrite (flags_multi _ _ H2), Em, Htr. cbn [andb negb].
  unfold queueMultiCommand. cbv zeta. set (c1 := mkReq _ _ _ _ _ _ _). fold queued_reply.
  destruct (shared_answers c1 queued_reply) as (c' & -> & Ha & _); [by apply (ready_le _ _ 3)|done|done|]. rewrite bind_ok.
  eexists _, _. split; [reflexivity|]. eexists _, _. split; [reflexivity|]. change (q_out c1) with (q_out c) in *.
  assert (answers c queued_reply (true, a_cas a, a_abort a) c') as Ha'.
  { destruct Ha as (A1 & A2 & A3). split_and!; [done|done|]. rewrite A3, H2. unfold actx_flags. by rewrite Em. }
  split_and!; try done; [| by intros j|by left|cbn; lia]. destruct Ha' as (_ & Hid & Hfl). split; try done; [by rewrite Hid| | |apply upd_same].
  - apply Forall2_app; [done|]. constructor; [|constructor]. split; [done|]. apply Forall2_fmap_r. eapply Forall2_impl; [exact HF|]. intros v o. apply is_arg_incr.
  - apply (index_ext _ W); [done|]. intros j. unfold upd. by destruct (decide (j = id)) as [->|].
Qed.

Lemma command_performs n id W s c m a cmd entry : 0 <= now -> tx_state id W s c a -> ready' (nodes cmd) (q_out c) -> takes_replies (q_out c) = true ->
  shows n now (s_db s) m -> times_ok m -> a_multi a = false -> new_keys cmd <= n -> in_range now cmd ->
  lookup_command (name cmd) = Some entry -> Forall2 is_arg (request cmd) (q_argv c) ->
  exists s' c', exec_tx entry s c = Ok (s', Some (c', true)) /\
    let '(m', reply) := kspec now m cmd in performs (n - new_keys cmd) id W s c m m' a reply [cmd] 0 (Ok (s', c')).
Proof.
  intros Hnow Hts Hr Ht Hs Htm Em Hn Hrange Hent HF. pose proof Hts as [H1 H2 H3 H4 H5 H6].
  unfold exec_command. rewrite (flags_multi _ _ H2), Em. cbn [andb].
  pose proof (command_does junk sdsZmallocSize embeddedSize client_obuf_limits unixtime shareable (multi_proc junk sdsZmallocSize embeddedSize client_obuf_limits unixtime shareable other_proc en)
    zmalloc_size embedded_size en n cmd entry s c m master loaded Hnow Hs Htm Hn Hrange HF Hr Hent) as HD.
  pose proof (kspec_times now m cmd Htm Hrange) as Htm1. destruct (kspec now m cmd) as [m' reply] eqn:Ek. destruct HD as (s' & c' & E & Hs' & Hrep).
  pose proof (command_signals junk sdsZmallocSize embeddedSize client_obuf_limits unixtime shareable zmalloc_size embedded_size en master loaded (touches cmd) (multi_proc junk sdsZmallocSize embeddedSize client_obuf_limits unixtime shareable other_proc en)
    n (n - new_keys cmd) cmd entry s c s' c' m Hs Hn Hrange (fun _ Hk => Hk) HF Hent E) as HS. rewrite Ek in HS. specialize (HS Hs') as [HK Hg].
  pose proof (within_le (touches cmd) (touched_by [cmd]) _ _ ltac:(intros k Hk; exists cmd; split; [by left|done]) (keeps_within _ _ _ HK (sh_ok _ _ _ _ Hs))) as Hfl. destruct HK as [(F1 & F2 & F3) _].
  rewrite E, bind_ok, no_blocked_clients, bind_ok. exists s', c'. split; [done|]. exists s', c'. split; [done|].
  pose proof (answers_replied _ c _ _ Ht Hrep) as (A1 & A2 & A3). rewrite H2 in A3. cbn [with_out q_out] in *. split_and!; try done; [|rewrite F2; lia].
  split; try done; [by rewrite A2|by rewrite F1|by rewrite F3| |apply upd_same]. rewrite F2.
  apply (index_ext _ W); [done|]. intros j. unfold upd. by destruct (decide (j = id)) as [->|].
Qed.

(** The arguments of a request, and what it needs: room for new keys, nodes of
    output, and keys in the index. *)
Definition trequest (r : treq) : list bytes :=
  match r with
  | Cmd cmd => request cmd
  | Unknown name => [name]
  | Multi_ => [str "multi"]
  | Exec => [str "exec"]
  | Discard => [str "discard"]
  | Watch ks => str "watch" :: ks
  | Unwatch => [str "unwatch"]
  end.

Definition uses (a : actx) (r : treq) : Z :=
  match r with Cmd cmd => if a_multi a then 0 else new_keys cmd | Exec => sum_new (a_queue a) | _ => 0 end.

Definition out_nodes (a : actx) (r : treq) : Z :=
  match r with Cmd cmd => 3 + nodes cmd | Exec => 3 + sum_nodes (a_queue a) | _ => 3 end.

Definition new_watched (r : treq) : nat := match r with Watch ks => length ks | _ => 0 end.

(** The numbers in the commands fit, as [in_range] asks. UNWATCH is not sent in a
    transaction. *)
Definition legal (a : actx) (r : treq) : Prop :=
  match r with
  | Cmd cmd => in_range now cmd
  | Unknown name => lookup_command name = None /\ no_nul name /\ (strcasecmp name (str "quit") =? 0) = false
  | Watch ks => ks <> []
  | Unwatch => a_multi a = false
  | Exec => Forall (in_range now) (a_queue a)
  | _ => True
  end.

Lemma queued_entry cmd entry : lookup_command (name cmd) = Some entry -> transaction_proc (cmd_proc entry) = false.
Proof.
  intros H. destruct cmd; try (destruct relative); try (destruct unit);
    (match type of H with ?a = _ => let b := eval vm_compute in a in change a with b in H end); by injection H as <-.
Qed.

Lemma performs_out n id W (s : session T) c c0 m m' a' reply cmds k f : q_out c0 = q_out c -> performs n id W s c m m' a' reply cmds k f -> performs n id W s c0 m m' a' reply cmds k f.
Proof. intros E (s' & c' & Ef & (A1 & A2 & A3) & HP). exists s', c'. split; [done|]. split; [|done]. by rewrite <- E in *. Qed.

(** The handler of a command of a transaction. *)
Lemma control_runs n id W (s : session T) c c0 m m' a' reply cmds k entry f : q_out c0 = q_out c ->
  flag (q_out c) CLIENT_MULTI = false \/ transaction_proc (cmd_proc entry) = true ->
  call junk sdsZmallocSize embeddedSize client_obuf_limits unixtime shareable (handlers junk sdsZmallocSize embeddedSize client_obuf_limits unixtime shareable (multi_proc junk sdsZmallocSize embeddedSize client_obuf_limits unixtime shareable other_proc en) en) en entry s c = f ->
  performs n id W s c m m' a' reply cmds k f ->
  exists s' c', exec_tx entry s c = Ok (s', Some (c', true)) /\ performs n id W s c0 m m' a' reply cmds k (Ok (s', c')).
Proof.
  intros Hq Hm Hc HP. apply (performs_out _ _ _ _ _ c0) in HP as (s' & c' & E & Hp); [|done]. unfold exec_command. assert (flag (q_out c) CLIENT_MULTI && negb (transaction_proc (cmd_proc entry)) = false) as ->
    by (destruct Hm as [->| ->]; [done|by rewrite andb_false_r]).
  rewrite Hc, E, bind_ok, no_blocked_clients, bind_ok. exists s', c'. split; [done|]. by exists s', c'.
Qed.

Lemma unknown_performs n id W s c m a name : tx_state id W s c a -> ready' 3 (q_out c) -> takes_replies (q_out c) = true -> shows n now (s_db s) m -> times_ok m ->
  Z.of_nat (length name) <= STRING_MAX ->
  let '(_, a', reply) := tspec now m a (Unknown name) in
  performs n id W s c m m a' reply [] 0
    (c ← add_error junk sdsZmallocSize embeddedSize client_obuf_limits unixtime (flagTransaction c) (error_format (str "unknown command '" ++ name ++ str "'")); Ok (s, c)).
Proof.
  intros Hts Hr Ht Hs Htm Hl. pose proof Hts as [H1 H2 H3 H4 H5 H6]. cbn [tspec]. unfold flagTransaction. rewrite (flags_multi _ _ H2).
  assert (Z.of_nat (length (error_format (str "unknown command '" ++ name ++ str "'"))) < 2 ^ 63) as Hlen.
  { unfold error_format. rewrite length_map. pose proof (cstr_length (str "unknown command '" ++ name ++ str "'")).
    rewrite !length_app in *. cbn [length str] in *. unfold STRING_MAX in Hl. cbn in *. lia. }
  destruct (a_multi a) eqn:Em; apply controls_performs; try done.
  - fold (raise_flag c CLIENT_DIRTY_EXEC). pose proof (raise_tx c CLIENT_DIRTY_EXEC ltac:(set_solver)) as Honly.
    destruct (error_answers (raise_flag c CLIENT_DIRTY_EXEC) _ (ready_flags 3 (q_out c) _ Honly Hr)
      ltac:(rewrite <- Ht; by apply takes_flags) Hlen) as (c' & -> & Ha). rewrite bind_ok. exists s, c'. apply (flags_answers c) in Ha; [|done|done].
    assert (tx_flags (q_out (raise_flag c CLIENT_DIRTY_EXEC)) = (true, a_cas a, true)) as E.
    { unfold tx_flags. rewrite !flag_raise by done. destruct (flags_three _ _ H2) as (-> & -> & _). by rewrite Em. }
    rewrite E in Ha. split_and!; [done|done| |done|lia]. destruct Ha as (_ & Hid & Hfl). split; try done; [by rewrite Hid| |apply upd_same].
    apply (index_ext _ W); [done|]. intros j. unfold upd. by destruct (decide (j = id)) as [->|].
  - by apply refuse_controls.
Qed.

(** The table has the commands of a transaction. *)
Definition control_entry (r : treq) : option redisCommand :=
  match r with
  | Multi_ => multi_table !! 0%nat
  | Exec => multi_table !! 1%nat
  | Discard => multi_table !! 2%nat
  | Watch _ => multi_table !! 3%nat
  | Unwatch => multi_table !! 4%nat
  | _ => None
  end.

Definition tname (r : treq) : bytes := hd [] (trequest r).

Lemma control_found a r entry : control_entry r = Some entry -> legal a r -> lookup_command (tname r) = Some entry /\
  cmd_proc entry <> AskingCommand /\ cmd_proc entry <> PingCommand /\ no_nul (tname r) /\ (strcasecmp (tname r) (str "quit") =? 0) = false /\
  cmd_flag entry CMD_WRITE = false /\
  let argc := Z.of_nat (length (trequest r)) in (cmd_arity entry >? 0) && negb (cmd_arity entry =? argc) || (argc <? - cmd_arity entry) = false.
Proof.
  intros H Hl. destruct r; try discriminate H; injection H as <-; (split; [vm_compute; reflexivity|]); (split; [done|]); (split; [done|]);
    (split; [repeat constructor; done|]); (split; [done|]); (split; [done|]); try done.
  cbn [trequest length cmd_arity]. destruct ks; [done|]. cbn [length]. apply Z.ltb_ge. cbn. lia.
Qed.

(** A request does what the specification says. *)
Lemma request_performs g n id W s c m a r : 0 <= now -> gates g en (q_out c) = true -> writes_allowed g = true ->
  tx_state id W s c a -> ready' (out_nodes a r) (q_out c) -> takes_replies (q_out c) = true -> shows n now (s_db s) m -> times_ok m ->
  uses a r <= n -> legal a r -> Z.of_nat (base.size (kd_map (s_watched s))) + Z.of_nat (new_watched r) <= KD_MAX ->
  Forall2 is_arg (trequest r) (q_argv c) ->
  exists s' c', process_tx g s c = Ok (s', Some (c', true)) /\
    let '(m', a', reply) := tspec now m a r in performs (n - uses a r) id W s c m m' a' reply (executes a r) (new_watched r) (Ok (s', c')).
Proof.
  intros Hnow Hg Hw Hts Hr Ht Hs Htm Hn Hl Hsz HF. pose proof (Forall2_length _ _ _ HF) as Hlen. unfold process_tx.
  assert (ready' 3 (q_out c)) as Hr3.
  { apply (ready_le _ _ (out_nodes a r)); [|done]. pose proof (sum_nodes_nonneg (a_queue a)). destruct r; cbn; unfold nodes; lia. }
  assert (exists a0, q_argv c !! 0%nat = Some a0 /\ is_arg (tname r) a0) as (a0 & Ha0 & (Hn0 & Hv0 & Hl0)).
  { unfold tname. destruct r; try (destruct cmd; try (destruct relative); try (destruct unit)); cbn [trequest request hd] in *;
      apply Forall2_cons_inv_l in HF as (o & os & Ho & _ & E); exists o; by rewrite E. }
  destruct (control_entry r) as [entry|] eqn:Ec.
  - destruct (control_found a r entry Ec Hl) as (Hent & H1 & H2 & H3 & H4 & H5 & H6).
    erewrite (processCommand_passes junk sdsZmallocSize embeddedSize client_obuf_limits unixtime shareable en master loaded lookup_command _ cluster_redirect discardTransaction freeMemoryIfNeeded
      handleClientsBlockedOnLists g s c a0 (tname r) entry); try done; [|by rewrite H5, orb_true_r|by unfold q_argc; rewrite <- Hlen].
    set (c1 := with_asking c false). assert (tx_state id W s c1 a) as Hts1 by (by destruct Hts).
    assert (flag (q_out c1) CLIENT_MULTI = a_multi a) as Hmulti by (apply (flags_multi _ _ (ts_flags _ _ _ _ _ Hts1))).
    destruct r; try discriminate Ec; injection Ec as <-; cbn [uses new_watched]; rewrite ?Z.sub_0_r.
    + pose proof (multi_controls id W s c1 a Hts1 Hr3 Ht) as HC. cbn [tspec] in *.
      destruct (a_multi a); (eapply (control_runs _ _ _ _ c1); [done|by right|reflexivity|]); by apply (controls_performs _ _ _ _ c1).
    + cbn [tspec]. destruct (decide (a_multi a = true /\ a_abort a = false /\ a_cas a = false)) as [(Em & Ea & Ecas)|Hno].
      * assert (executes a Exec = a_queue a) as -> by (cbn [executes]; by rewrite Em, Ea, Ecas).
        pose proof (exec_runs n id W s c1 m a Hnow Hts1) as HX. destruct (exec_spec now m a) as [[m' a'] reply].
        eapply (control_runs _ _ _ _ c1); [done|by right|reflexivity|]. apply HX; try done. apply (ready_le _ _ (out_nodes a Exec)); [|done]. cbn. lia.
      * assert (executes a Exec = []) as -> by (cbn [executes]; destruct (a_multi a), (a_abort a), (a_cas a); naive_solver).
        pose proof (exec_refused n id W s c1 m a Hts1 Hr3 Ht Hs Htm) as HX. destruct (exec_spec now m a) as [[m' a'] reply].
        destruct HX as [-> HX]; [destruct (a_multi a), (a_abort a), (a_cas a); naive_solver|].
        eapply (control_runs _ _ _ _ c1); [done|by right|reflexivity|]. destruct HX as (s' & c' & E & X1 & X2 & X3 & X4). exists s', c'.
        split; [done|]. split; [done|]. split; [done|]. split; [|done]. eapply shows_le; [|exact X3]. pose proof (sum_new_nonneg (a_queue a)). lia.
    + pose proof (discard_controls id W s c1 a Hts1 Hr3 Ht) as HC. cbn [tspec] in *.
      destruct (a_multi a); (eapply (control_runs _ _ _ _ c1); [done|by right|reflexivity|]); by apply (controls_performs _ _ _ _ c1).
    + cbn [trequest] in HF. apply Forall2_cons_inv_l in HF as (o0 & objs & _ & HF & Eq).
      pose proof (watch_controls id W s c1 a o0 ks objs Hts1 Hr3 Ht Eq HF Hsz) as HC. cbn [tspec] in *.
      destruct (a_multi a); (eapply (control_runs _ _ _ _ c1); [done|by right|reflexivity|]); by apply (controls_performs _ _ _ _ c1).
    + pose proof (unwatch_controls id W s c1 a Hts1 Hr3 Ht) as HC. cbn [tspec] in *.
      eapply (control_runs _ _ _ _ c1); [done|left; by rewrite Hmulti|reflexivity|]. by apply (controls_performs _ _ _ _ c1).
  - destruct r as [cmd|nm| | | | |]; try discriminate Ec; cbn [uses new_watched] in *.
    + destruct (request_entry now cmd Hl) as (entry & Hent & H1 & H2 & H3 & H4 & H5).
      erewrite (processCommand_passes junk sdsZmallocSize embeddedSize client_obuf_limits unixtime shareable en master loaded lookup_command _ cluster_redirect discardTransaction freeMemoryIfNeeded
        handleClientsBlockedOnLists g s c a0 (name cmd) entry); try done; [|by rewrite Hw|by unfold q_argc; rewrite <- Hlen].
      set (c1 := with_asking c false). assert (tx_state id W s c1 a) as Hts1 by (by destruct Hts). cbn [tspec executes]. destruct (a_multi a) eqn:Em.
      * rewrite Z.sub_0_r. apply (queue_performs n id W s c1 m a cmd entry); try done. by apply queued_entry in Hent.
      * destruct (command_performs n id W s c1 m a cmd entry) as (s' & c' & E & HP); try done.
        { apply (ready_le _ _ (out_nodes a (Cmd cmd))); [cbn; lia|done]. }
        exists s', c'. split; [done|]. by destruct (kspec now m cmd).
    + destruct Hl as (Hnone & Hnul & Hq). cbn in Hv0, Hl0. unfold processCommand, arg. rewrite Ha0, bind_ok, (obj_cstr_ok a0 nm) by done.
      rewrite bind_ok, Hq, (obj_key_ok a0 nm), bind_ok, Hnone by done. rewrite Z.sub_0_r.
      pose proof (unknown_performs n id W s c m a nm Hts Hr3 Ht Hs Htm Hl0) as HX. destruct (tspec now m a (Unknown nm)) as [[m' a'] reply] eqn:Es.
      assert (m' = m) as -> by (cbn in Es; by injection Es). destruct HX as (s' & c' & E & HX).
      revert E. destruct (add_error _ _ _ _ _ _ _) as [c2|]; [|done]. rewrite !bind_ok. intros [= -> ->]. exists s', c'. split; [done|]. by exists s', c'.
Qed.
End TxCommands.
