(* ===== verification/ServerProofs.v ===== *)
(** * Transactions: the clients of a server

    Which clients a command marks, from its events; the invariant of a server with
    many clients; and that a request of any client keeps it, and does to all the
    clients what the specification says. *)

From S2P Require Import Prelude CLib Util Sds Dict IntSet Object SetType Reply Resp KeyDict Db Command Strings Keys Sets Multi Keyspace Transactions.
From S2P Require Import StringProofs KeyProofs SetProofs CommandProofs Signals MultiProofs.
Local Open Scope Z_scope.

(** ** Marks *)

Definition watching_of (clients : gmap Z txclient) (id : Z) : list bytes := from_option t_watching [] (clients !! id).

Definition dirty_cas (t : txclient) : bool := flag (q_out (t_req t)) CLIENT_DIRTY_CAS.

Section Marks.
(** The keys that are announced. *)
Variable P : bytes -> Prop.

(** A client that may have been marked. *)
Record touched (t t' : txclient) : Prop := {
  to_queued : t_queued t' = t_queued t;
  to_watching : t_watching t' = t_watching t;
  to_id : c_id (q_out (t_req t')) = c_id (q_out (t_req t));
  to_stream : stream (q_out (t_req t')) = stream (q_out (t_req t));
  to_multi : flag (q_out (t_req t')) CLIENT_MULTI = flag (q_out (t_req t)) CLIENT_MULTI;
  to_exec : flag (q_out (t_req t')) CLIENT_DIRTY_EXEC = flag (q_out (t_req t)) CLIENT_DIRTY_EXEC;
  to_keeps : dirty_cas t = true -> dirty_cas t' = true;
  to_only : (forall k, k ∈ t_watching t -> ~ P k) -> t' = t
}.

Definition marks (clients clients' : gmap Z txclient) : Prop := forall j, option_Forall2 touched (clients !! j) (clients' !! j).

Definition is_dirty (clients : gmap Z txclient) (id : Z) : Prop := exists t, clients !! id = Some t /\ dirty_cas t = true.

#[export] Instance touched_preorder : PreOrder touched.
Proof.
  split; [by split|]. intros x y z [] []. split; try congruence; [by auto|]. intros H. rewrite <- to_only0 by done. apply to_only1. by rewrite to_watching0.
Qed.

#[export] Instance marks_preorder : PreOrder marks.
Proof.
  split; [intros x j; destruct (x !! j); constructor; done|]. intros x y z H1 H2 j. specialize (H1 j). specialize (H2 j).
  destruct H1 as [a b Hab|]; inversion H2; subst; constructor. by etrans.
Qed.

Lemma marks_dirty clients clients' id : marks clients clients' -> is_dirty clients id -> is_dirty clients' id.
Proof.
  intros H (t & E & Hd). specialize (H id). rewrite E in H. inversion H as [? t' Ht E1 E2|]; subst. exists t'. split; [done|]. by apply Ht.
Qed.

Lemma marks_watching clients clients' id : marks clients clients' -> watching_of clients' id = watching_of clients id.
Proof. intros H. unfold watching_of. destruct (H id) as [? ? []|]; cbn; done. Qed.

Lemma mark_dirty_ok clients id k : k ∈ watching_of clients id -> P k ->
  exists clients', mark_dirty clients id = Ok clients' /\ marks clients clients' /\ is_dirty clients' id.
Proof.
  intros Hw Hk. unfold mark_dirty, watching_of in *. destruct (clients !! id) as [t|] eqn:E; [|by apply elem_of_nil in Hw]. cbn in Hw.
  set (t' := with_req t _). assert (dirty_cas t' = true) as Hd by (unfold dirty_cas; cbn [t' with_req t_req]; by rewrite flag_raise).
  assert (touched t t') as Ht.
  { split; try done; cbn [t' with_req t_req]; try (by rewrite flag_raise). intros Hno. by destruct (Hno k Hw). }
  exists (<[id := t']> clients). split; [done|]. split; [|exists t'; by rewrite lookup_insert_eq].
  intros j. destruct (decide (j = id)) as [->|Hne]; [rewrite lookup_insert_eq, E; by constructor|].
  rewrite lookup_insert_ne by done. destruct (clients !! j); constructor. done.
Qed.

Lemma mark_all_ok k : P k -> forall ids clients, (forall id, id ∈ ids -> k ∈ watching_of clients id) ->
  exists clients', mark_all clients ids = Ok clients' /\ marks clients clients' /\ forall id, id ∈ ids -> is_dirty clients' id.
Proof.
  intros Hk ids. induction ids as [|id ids IH]; intros clients Hw; cbn [mark_all].
  { exists clients. split_and!; [done|done|]. by intros id ?%elem_of_nil. }
  destruct (mark_dirty_ok clients id k) as (c1 & -> & M1 & D1); [apply Hw; by left|done|]. rewrite bind_ok.
  destruct (IH c1) as (c2 & -> & M2 & D2).
  { intros j Hj. rewrite (marks_watching clients) by done. apply Hw. by right. }
  exists c2. split; [done|]. split; [by etrans|]. intros j [->|Hj]%elem_of_cons; [by eapply marks_dirty|by apply D2].
Qed.

Context {T : Type -> Type} `{KD : KeyDict T} `{KL : !KeyDictLaws T}.

(** The index of the clients, whose map is kept. *)
Lemma index_marks (w w' : T (list Z)) clients clients' : index_ok w (watching_of clients) -> kd_ok w' -> kd_map w' = kd_map w -> marks clients clients' ->
  index_ok w' (watching_of clients').
Proof.
  intros HX Hok Hmap HM. apply (index_ext _ (watching_of clients)); [|intros id; by apply marks_watching].
  destruct HX as [H1 H2 H3 H4]. split; [done|done|..]; rewrite Hmap; done.
Qed.

Lemma touchWatchedKey_ok (w : T (list Z)) clients k : index_ok w (watching_of clients) -> P k ->
  exists w' clients', touchWatchedKey w clients k = Ok (w', clients') /\ kd_ok w' /\ kd_map w' = kd_map w /\ marks clients clients' /\
    forall id, k ∈ watching_of clients id -> is_dirty clients' id.
Proof.
  intros HX HP. pose proof HX as [H1 H2 H3 H4]. unfold touchWatchedKey. rewrite (kd_size_ok _ _ H1).
  destruct (Z.eqb_spec (Z.of_nat (base.size (kd_map w))) 0) as [E|_].
  { assert (kd_map w = ∅) as E0 by (apply map_size_empty_iff; lia). exists w, clients. split_and!; try done. intros id Hk.
    by destruct (H3 k id ltac:(by rewrite E0, lookup_empty)). }
  destruct (kd_find_ok _ w k H1) as (w' & -> & Hw' & M'). rewrite bind_ok. destruct (kd_map w !! k) as [l|] eqn:El.
  - destruct (H4 k l El) as (_ & _ & Hl). destruct (mark_all_ok k HP l clients) as (c' & -> & HM & HD); [by intros id Hid%Hl|].
    rewrite bind_ok. exists w', c'. split_and!; try done. intros id Hk. by apply HD, Hl.
  - exists w', clients. split_and!; try done. intros id Hk. by destruct (H3 k id El).
Qed.

Lemma watched_present_ok : forall ks (d : T robj) b, kd_ok d ->
  exists d', watched_present d ks b = Ok (d', b || existsb (fun k => is_some (kd_map d !! k)) ks) /\ kd_ok d' /\ kd_map d' = kd_map d.
Proof.
  intros ks. induction ks as [|k ks IH]; intros d b Hd; cbn [watched_present existsb].
  { exists d. by rewrite orb_false_r. }
  destruct (kd_find_ok _ d k Hd) as (d1 & -> & Hd1 & M1). rewrite bind_ok. destruct (IH d1 (b || is_some (kd_map d !! k)) Hd1) as (d2 & -> & Hd2 & M2).
  exists d2. rewrite M2, M1, orb_assoc. done.
Qed.

Lemma touch_clients_ok : forall ids (d : T robj) clients, kd_ok d -> (forall k, P k) -> (forall id, id ∈ ids -> is_Some (clients !! id)) ->
  exists clients', touch_clients d ids clients = Ok clients' /\ marks clients clients' /\
    forall id k, id ∈ ids -> k ∈ watching_of clients id -> is_Some (kd_map d !! k) -> is_dirty clients' id.
Proof.
  intros ids. induction ids as [|id ids IH]; intros d clients Hd HP Hids; cbn [touch_clients].
  { exists clients. split_and!; [done|done|]. by intros id k ?%elem_of_nil. }
  destruct (Hids id) as [t Et]; [by left|]. rewrite Et.
  destruct (watched_present_ok (t_watching t) d false Hd) as (d1 & -> & Hd1 & M1). rewrite bind_ok. cbn [orb].
  assert (watching_of clients id = t_watching t) as Ew by (unfold watching_of; by rewrite Et).
  set (b := existsb _ _) in *.
  assert (exists c1, (if b then mark_dirty clients id else Ok clients) = Ok c1 /\ marks clients c1 /\ (b = true -> is_dirty c1 id)) as (c1 & -> & HM1 & HD1).
  { destruct b eqn:Eb; [|by exists clients]. apply existsb_exists in Eb as (k & Hk & _).
    destruct (mark_dirty_ok clients id k) as (c1 & -> & HM1 & HD1); [rewrite Ew; by apply list_elem_of_In|done|by exists c1]. }
  rewrite bind_ok. destruct (IH d1 c1 Hd1 HP) as (c2 & -> & HM2 & HD2).
  { intros j Hj. destruct (Hids j) as [tj Ej]; [by right|]. specialize (HM1 j). rewrite Ej in HM1. by inversion HM1. }
  exists c2. split; [done|]. split; [by etrans|]. intros j k [->|Hj]%elem_of_cons Hk Hs.
  - eapply marks_dirty; [exact HM2|]. apply HD1. unfold b. apply existsb_exists. exists k. rewrite Ew in Hk. split; [by apply list_elem_of_In|].
    by destruct Hs as [? ->].
  - apply (HD2 j k); [done|by rewrite (marks_watching clients)|by rewrite M1].
Qed.

(** The events of a command announce a change of [k]. *)
Definition signalled_by (evs : list (db_event T)) (k : bytes) : Prop :=
  EvModified k ∈ evs \/ exists d, EvFlushed d ∈ evs /\ kd_ok d /\ is_Some (kd_map d !! k).

(** Events that announce such keys. *)
Definition allowed (e : db_event T) : Prop := match e with EvFlushed d => kd_ok d /\ forall k, P k | EvModified k => P k | _ => True end.

Lemma touch_events_ok : forall evs (w : T (list Z)) clients, index_ok w (watching_of clients) -> (forall e, e ∈ evs -> allowed e) ->
  exists w' clients', touch_events evs w clients = Ok (w', clients') /\ kd_ok w' /\ kd_map w' = kd_map w /\ marks clients clients' /\
    forall id k, k ∈ watching_of clients id -> signalled_by evs k -> is_dirty clients' id.
Proof.
  intros evs. induction evs as [|e evs IH]; intros w clients HX Hfl.
  { exists w, clients. split_and!; try done; [apply HX|]. intros id k _ [?%elem_of_nil|(? & ?%elem_of_nil & _)]; done. }
  assert (exists w1 c1, touch_events (e :: evs) w clients = touch_events evs w1 c1 /\ kd_ok w1 /\ kd_map w1 = kd_map w /\ marks clients c1 /\
    forall id k, k ∈ watching_of clients id -> (e = EvModified k \/ exists d, e = EvFlushed d /\ is_Some (kd_map d !! k)) -> is_dirty c1 id)
    as (w1 & c1 & -> & Hok & Hmap & HM1 & HD1).
  { destruct e; cbn [touch_events]; try (exists w, clients; split_and!; try done; [apply HX|]; intros ? ? _ [?|(? & ? & _)]; done).
    - destruct (touchWatchedKey_ok w clients key HX ltac:(apply (Hfl (EvModified key)); by left)) as (w1 & c1 & -> & ? & ? & ? & HD). rewrite bind_ok. exists w1, c1. split_and!; try done.
      intros id k' Hk [[= ->]|(? & ? & _)]; [by apply HD|done].
    - destruct (Hfl (EvFlushed before)) as [Hb HP]; [by left|].
      destruct (touch_clients_ok (elements (dom clients)) before clients Hb HP) as (c1 & E & HM & HD); [by intros id ?%elem_of_elements%elem_of_dom|].
      unfold touchWatchedKeysOnFlush. rewrite E, bind_ok. exists w, c1. split_and!; try done; [apply HX|]. intros id k' Hk [?|(d & [= ->] & Hs)]; [done|].
      apply (HD id k'); try done. apply elem_of_elements, elem_of_dom. unfold watching_of in Hk. destruct (clients !! id); [eauto|by apply elem_of_nil in Hk]. }
  pose proof (index_marks w w1 clients c1 HX Hok Hmap HM1) as HX1.
  destruct (IH w1 c1 HX1) as (w2 & c2 & -> & Hok2 & Hmap2 & HM2 & HD2); [intros d Hd; apply Hfl; by right|].
  exists w2, c2. split_and!; try done; [by rewrite Hmap2|by etrans|]. intros id k Hk Hs.
  assert ((e = EvModified k \/ exists d, e = EvFlushed d /\ is_Some (kd_map d !! k)) \/ signalled_by evs k) as [He|Hs'].
  { destruct Hs as [[<-|?]%elem_of_cons|(d & [<-|?]%elem_of_cons & Hd & Hk')]; [by left; left|by right; left|left; right; by exists d|right; right; by exists d]. }
  - eapply marks_dirty; [exact HM2|]. by eapply HD1.
  - apply (HD2 id k); [by rewrite (marks_watching clients)|done].
Qed.
End Marks.

(** ** Room *)

(** The keys that the queued commands of the clients may add, at most. *)
Definition pending (A : gmap Z actx) : Z := map_fold (fun _ c n => c + n) 0 ((fun a => sum_new (a_queue a)) <$> A).

Lemma pending_insert A id a : A !! id = None -> pending (<[id := a]> A) = sum_new (a_queue a) + pending A.
Proof.
  intros H. unfold pending. rewrite fmap_insert, map_fold_insert_L; [done|intros; lia|]. by rewrite lookup_fmap, H.
Qed.

Lemma pending_delete A id a : A !! id = Some a -> pending A = sum_new (a_queue a) + pending (delete id A).
Proof.
  intros H. rewrite <- (insert_id A id a) at 1 by done. rewrite <- insert_delete_eq. apply pending_insert. apply lookup_delete_eq.
Qed.

Lemma pending_update A id a a' : A !! id = Some a -> pending (<[id := a']> A) = pending A - sum_new (a_queue a) + sum_new (a_queue a').
Proof.
  intros H. rewrite (pending_delete _ _ _ H), <- insert_delete_eq, pending_insert by apply lookup_delete_eq. lia.
Qed.

Lemma pending_nonneg A : 0 <= pending A.
Proof.
  induction A as [|id a A H IH] using map_ind; [done|]. rewrite pending_insert by done. pose proof (sum_new_nonneg (a_queue a)). lia.
Qed.

Lemma pending_ext A B : (forall j, option_Forall2 (fun a b => a_queue b = a_queue a) (A !! j) (B !! j)) -> pending B = pending A.
Proof.
  intros H. unfold pending. f_equal. apply map_eq. intros j. rewrite !lookup_fmap. destruct (H j) as [a b E|]; cbn; [by rewrite E|done].
Qed.

(** What a request may take of the room of the key space and of the index. *)
Definition cost (r : treq) : Z := match r with Cmd cmd => new_keys cmd | Watch ks => Z.of_nat (length ks) | _ => 0 end.

Lemma cost_nonneg r : 0 <= cost r.
Proof. destruct r; cbn; unfold new_keys; lia. Qed.

(** A client that is not in a transaction has no queue; until the time [H], the
    numbers of the queued commands fit. *)
Definition actx_ok (H : Z) (a : actx) : Prop := (a_multi a = false -> a_queue a = []) /\ Forall (in_range H) (a_queue a).

Lemma in_range_earlier t H cmd : 0 <= t <= H -> in_range H cmd -> in_range t cmd.
Proof.
  intros Ht Hr. destruct cmd; cbn [in_range] in *; try done.
  - destruct (options_spec options false false None) as [[[nx xx] [[e u]|]]|]; try done. intros n Hn. specialize (Hr n Hn). lia.
  - intros n Hn. specialize (Hr n Hn). lia.
  - intros n Hn. specialize (Hr n Hn). lia.
  - intros z Hz. specialize (Hr z Hz). destruct relative; lia.
Qed.

(** A request leaves a good state, and the room that it does not use. *)
Lemma tspec_ok H t m a r : actx_ok H a -> (forall cmd, r = Cmd cmd -> in_range H cmd) ->
  let '(_, a', _) := tspec t m a r in actx_ok H a' /\ sum_new (a_queue a') <= sum_new (a_queue a) + cost r - uses a r.
Proof.
  intros Hok Hr. pose proof Hok as [Hidle HF]. pose proof (sum_new_nonneg (a_queue a)).
  assert (forall x y z, actx_ok H (mkActx true x y (a_queue a) z)) as Hin by (by split).
  assert (forall x y z, a_multi a = false -> actx_ok H (mkActx false x y (a_queue a) z)) as Hout
    by (intros x y z E; split; [intros _; by apply Hidle|done]).
  destruct r as [cmd|nm| | | |ks|]; cbn [tspec cost uses].
  - destruct (a_multi a) eqn:Em; [|destruct (kspec t m cmd); split; [done|lia]].
    split; [split; [done|apply Forall_app; split; [done|]; constructor; [by apply Hr|constructor]]|]. cbn [a_queue].
    assert (sum_new (a_queue a ++ [cmd]) = sum_new (a_queue a) + new_keys cmd) as ->; [|lia].
    clear. induction (a_queue a) as [|c q IH]; [change (new_keys cmd + 0 = 0 + new_keys cmd); lia|].
    change (new_keys c + sum_new (q ++ [cmd]) = new_keys c + sum_new q + new_keys cmd). lia.
  - destruct (a_multi a) eqn:Em; (split; [|cbn [a_queue idle_actx]; change (sum_new []) with 0; lia]); [apply Hin|done].
  - destruct (a_multi a) eqn:Em; (split; [|cbn [a_queue idle_actx]; change (sum_new []) with 0; lia]); [done|apply Hin].
  - unfold exec_spec. destruct (a_multi a) eqn:Em; cbn [negb].
    + assert (actx_ok H idle_actx /\ sum_new (a_queue idle_actx) <= sum_new (a_queue a) + 0 - sum_new (a_queue a)) as Hi.
      { split; [by split|]. cbn. lia. }
      destruct (a_abort a); [exact Hi|]. destruct (a_cas a); [exact Hi|]. destruct (krun t m (a_queue a)). exact Hi.
    + split; [done|]. rewrite Hidle by done. done.
  - destruct (a_multi a) eqn:Em; (split; [|cbn [a_queue idle_actx]; change (sum_new []) with 0; lia]); [by split|done].
  - destruct (a_multi a) eqn:Em; (split; [|cbn [a_queue idle_actx]; change (sum_new []) with 0; lia]); [done|by apply Hout].
  - split; [|cbn [a_queue idle_actx]; change (sum_new []) with 0; lia]. by split.
Qed.

(** ** The server *)

Section Server.
Context {T : Type -> Type} `{KD : KeyDict T} `{KL : !KeyDictLaws T} `{SC : SetConfig}.
Variable junk : Z.
Variable sdsZmallocSize : sds -> Z.
Variable embeddedSize : sds -> Z.
Variable client_obuf_limits : client_type -> obuf_limits.
Variable unixtime : Z.
Variable shareable : bool.
Hypothesis zmalloc_size : forall s, 0 <= sdsZmallocSize s < 2 ^ 48.
Hypothesis embedded_size : forall s, 0 <= embeddedSize s < 2 ^ 48.
Variable other_proc : proc -> session T -> reqst -> res (session T * reqst).
Variable cluster_redirect : redisCommand -> reqst -> option (reqst -> res reqst).
Variable freeMemoryIfNeeded : session T -> session T * bool * bool.
Variable handleClientsBlockedOnLists : session T -> res (session T).
Hypothesis no_blocked_clients : forall s, handleClientsBlockedOnLists s = Ok s.
Variable en : env.
Hypothesis master : e_masterhost en = false.
Hypothesis loaded : e_loading en = false.

#[local] Abbreviation process_at t g := (process_tx junk sdsZmallocSize embeddedSize client_obuf_limits unixtime shareable other_proc (at_time en t)
  cluster_redirect freeMemoryIfNeeded handleClientsBlockedOnLists g).

(** A client of the server, and its state in the specification. *)
Record client_is (H : Z) (id : Z) (t : txclient) (a : actx) : Prop := {
  ci_id : c_id (q_out (t_req t)) = id;
  ci_flags : tx_flags (q_out (t_req t)) = actx_flags a;
  ci_queue : queue_is (t_queued t) (a_queue a);
  ci_watch : t_watching t = a_watch a;
  ci_ok : actx_ok H a
}.

(** The server shows the key space [m] and the clients [A]; requests of cost [n]
    can still be taken, until the time [H]. *)
Record server_is (H n now : Z) (v : txserver T) (m : keyspace) (A : gmap Z actx) : Prop := {
  si_shows : shows (n + pending A) now (v_db v) m;
  si_times : times_ok m;
  si_index : index_ok (v_watched v) (watching_of (v_clients v));
  si_room : Z.of_nat (base.size (kd_map (v_watched v))) + n <= KD_MAX;
  si_clients : forall j, option_Forall2 (client_is H j) (v_clients v !! j) (A !! j)
}.

(** The requests that the theorems are about. UNWATCH is not sent in a
    transaction. *)
Definition admissible (H : Z) (c : reqst) (r : treq) : Prop :=
  match r with
  | Cmd cmd => in_range H cmd
  | Unknown name => lookup_command name = None /\ no_nul name /\ (strcasecmp name (str "quit") =? 0) = false
  | Watch ks => ks <> []
  | Unwatch => flag (q_out c) CLIENT_MULTI = false
  | _ => True
  end.

(** Nodes of the reply: of the request, and of the queue. *)
Definition reply_nodes (t : txclient) (r : treq) : Z :=
  3 + 3 * Z.of_nat (length (trequest r)) + foldr (fun e n => 3 * Z.of_nat (length e.2) + n) 0 (t_queued t).

(** The client [t] has sent the request [r], and is [c] now: the network code has
    read the arguments and sent replies. *)
Record delivered (H : Z) (g : guards) (now : Z) (t : txclient) (c : reqst) (r : treq) : Prop := {
  de_id : c_id (q_out c) = c_id (q_out (t_req t));
  de_flags : tx_flags (q_out c) = tx_flags (q_out (t_req t));
  de_gates : gates g (at_time en now) (q_out c) = true;
  de_writes : writes_allowed g = true;
  de_ready : ready sdsZmallocSize embeddedSize (reply_nodes t r) (q_out c);
  de_takes : takes_replies (q_out c) = true;
  de_args : Forall2 is_arg (trequest r) (q_argv c);
  de_ok : admissible H c r
}.

Lemma queue_nodes q cmds : queue_is q cmds -> foldr (fun (e : redisCommand * list robj) n => 3 * Z.of_nat (length e.2) + n) 0 q = sum_nodes cmds.
Proof.
  induction 1 as [|e cmd q cmds [_ Hargs] _ IH]; [done|]. cbn [foldr]. rewrite IH, <- (Forall2_length _ _ _ Hargs). done.
Qed.

Lemma exchange_clients (v : txserver T) id t c : v_clients v !! id = Some t -> v_clients (exchange v id c) = <[id := with_req t c]> (v_clients v).
Proof. intros E. cbn. apply map_eq. intros j. destruct (decide (j = id)) as [->|]; [by rewrite lookup_alter_eq, E, lookup_insert_eq|by rewrite lookup_alter_ne, lookup_insert_ne]. Qed.

(** The state of a client that may have been marked. *)
Definition remark (a : actx) (t : txclient) : actx := mkActx (a_multi a) (dirty_cas t) (a_abort a) (a_queue a) (a_watch a).

Lemma remark_is P H id t t' a : client_is H id t a -> touched P t t' -> client_is H id t' (remark a t').
Proof.
  intros [H1 H2 H3 H4 H5] []. destruct (flags_three _ _ H2) as (F1 & F2 & F3). split; try done; try congruence.
  - unfold tx_flags, actx_flags, remark, dirty_cas. cbn [a_multi a_cas a_abort]. congruence.
  - by rewrite to_queued0.
  - cbn. congruence.
Qed.

Lemma remark_marked cmds H id t t' a m m' : client_is H id t a -> touched (touched_by cmds) t t' ->
  (forall k, k ∈ a_watch a -> m' !! k <> m !! k -> dirty_cas t' = true) -> marked cmds m m' a (remark a t').
Proof.
  intros [H1 H2 H3 H4 H5] Ht Hk. destruct (flags_three _ _ H2) as (F1 & F2 & F3). split; try done; cbn.
  - intros E. apply Ht. unfold dirty_cas. congruence.
  - intros Hno. rewrite (to_only _ _ _ Ht); [done|]. rewrite H4. intros k Hw (cmd & Hcmd & Hto). by apply (Hno k cmd).
Qed.

(** The session of a client, as a state of MultiProofs.v. *)
Lemma attach_state H (v : txserver T) id t a c : client_is H id t a -> index_ok (v_watched v) (watching_of (v_clients v)) -> v_clients v !! id = Some t ->
  c_id (q_out c) = c_id (q_out (t_req t)) -> tx_flags (q_out c) = tx_flags (q_out (t_req t)) ->
  tx_state id (watching_of (v_clients v)) (attach (exchange v id c) (with_req t c)) c a.
Proof.
  intros [H1 H2 H3 H4 H5] HX E Hid Hf. split; try done; [by rewrite Hid|by rewrite Hf|]. unfold watching_of. by rewrite E.
Qed.

Lemma attach_shows n now (v : txserver T) id t c m : shows n now (v_db v) m -> shows n now (s_db (attach (exchange v id c) (with_req t c))) m.
Proof.
  intros [[D1 D2 D3 D4] H2 H3 H4]. split; [by split|done..].
Qed.

Lemma legal_at t H a c r : 0 <= t <= H -> actx_ok H a -> tx_flags (q_out c) = actx_flags a -> admissible H c r -> legal (at_time en t) a r.
Proof.
  intros Ht [_ HF] Hf Ha. destruct r; cbn in *; try done; [by eapply in_range_earlier| |by rewrite <- (flags_multi _ _ Hf)].
  eapply Forall_impl; [exact HF|]. intros cmd. by apply in_range_earlier.
Qed.

Lemma watching_insert clients id t j : watching_of (<[id := t]> clients) j = upd (watching_of clients) id (t_watching t) j.
Proof.
  unfold watching_of, upd. destruct (decide (j = id)) as [->|]; [by rewrite lookup_insert_eq|by rewrite lookup_insert_ne].
Qed.

(** The clients after the marks. *)
Definition remark_all (A : gmap Z actx) (clients : gmap Z txclient) : gmap Z actx := map_zip_with remark A clients.

Lemma remark_all_ok cmds H A clients clients' m m' : (forall j, option_Forall2 (client_is H j) (clients !! j) (A !! j)) -> marks (touched_by cmds) clients clients' ->
  (forall id k, k ∈ watching_of clients id -> m' !! k <> m !! k -> is_dirty clients' id) ->
  (forall j, option_Forall2 (client_is H j) (clients' !! j) (remark_all A clients' !! j)) /\
  (forall j, option_Forall2 (marked cmds m m') (A !! j) (remark_all A clients' !! j)) /\ pending (remark_all A clients') = pending A.
Proof.
  intros HC HM HD.
  assert (forall j, option_Forall2 (client_is H j) (clients' !! j) (remark_all A clients' !! j) /\
    option_Forall2 (marked cmds m m') (A !! j) (remark_all A clients' !! j)) as Hj.
  { intros j. unfold remark_all. rewrite map_lookup_zip_with. pose proof (HC j) as Hc. pose proof (HM j) as Hm. pose proof (HD j) as Hd.
    unfold watching_of in Hd. destruct (clients !! j) as [t|], (A !! j) as [a|]; try (by inversion Hc).
    - inversion Hc as [? ? Hc'|]; subst. unfold is_dirty in Hd. destruct (clients' !! j) as [t'|]; [|by inversion Hm].
      inversion Hm as [? ? Ht|]; subst. cbn. split; constructor; [by eapply remark_is|]. eapply remark_marked; [done..|].
      intros k Hk Hne. destruct (Hd k) as (t2 & [= <-] & ?); [cbn; by rewrite (ci_watch _ _ _ _ Hc')|done|done].
    - destruct (clients' !! j); [by inversion Hm|]. split; constructor. }
  split; [apply Hj|]. split; [apply Hj|]. apply pending_ext. intros j. destruct (proj2 (Hj j)) as [? ? Hmk|]; constructor. apply Hmk.
Qed.

(** A request of a client. *)
Lemma serve_ok H n now (v : txserver T) m A id t a time g c r : 0 <= now -> now <= time <= H -> server_is H n now v m A ->
  v_clients v !! id = Some t -> A !! id = Some a -> delivered H g time t c r -> cost r <= n ->
  let '(m', a', reply) := tspec time (alive time m) a r in
  exists v' t' A', serve (process_at time g) (exchange v id c) id = Ok v' /\ v_clients v' !! id = Some t' /\
    stream (q_out (t_req t')) = stream (q_out c) ++ reply /\
    (forall j, option_Forall2 (marked (executes a r) (alive time m) m') (<[id := a']> A !! j) (A' !! j)) /\
    server_is H (n - cost r) time v' m' A'.
Proof.
  intros Hnow Htime [Hs Htm HX Hsz HC] Et Ea [D1 D2 D3 D4 D5 D6 D7 D8] Hn.
  pose proof (HC id) as Hc. rewrite Et, Ea in Hc. inversion Hc as [? ? Hcl|]; subst. clear Hc.
  pose proof (attach_state H v id t a c Hcl HX Et D1 D2) as Hts.
  assert (tx_flags (q_out c) = actx_flags a) as Hfl by (rewrite D2; apply Hcl).
  pose proof (attach_shows _ _ v id t c _ (shows_later _ _ time _ _ (proj1 Htime) Hs)) as Hs1.
  pose proof (cost_nonneg r) as Hcost. pose proof (pending_nonneg A) as Hpend.
  assert (uses a r <= cost r + sum_new (a_queue a)) as Huse by (pose proof (sum_new_nonneg (a_queue a)); destruct r; cbn [uses cost] in *; try lia; destruct (a_multi a); unfold new_keys; lia).
  pose proof (pending_delete A id a Ea) as Hpd. pose proof (pending_nonneg (delete id A)).
  destruct (request_performs junk sdsZmallocSize embeddedSize client_obuf_limits unixtime shareable zmalloc_size embedded_size other_proc
    (at_time en time) master loaded cluster_redirect freeMemoryIfNeeded handleClientsBlockedOnLists no_blocked_clients g (n + pending A) id
    (watching_of (v_clients v)) (attach (exchange v id c) (with_req t c)) c (alive time m) a r) as (s' & c' & E & HP); try done; [cbn; lia|..].
  { apply (ready_le _ _ (reply_nodes t r)); [|done]. unfold reply_nodes. rewrite (queue_nodes _ _ (ci_queue _ _ _ _ Hcl)).
    pose proof (sum_nodes_nonneg (a_queue a)). destruct r; cbn [out_nodes trequest]; unfold nodes; lia. }
  { by apply alive_times. }
  { lia. }
  { eapply legal_at; [|apply Hcl|exact Hfl|exact D8]. lia. }
  { cbn [attach exchange with_clients v_watched s_watched]. destruct r; cbn [new_watched cost] in *; lia. }
  cbn [e_now at_time] in HP. pose proof (tspec_ok H time (alive time m) a r (ci_ok _ _ _ _ Hcl)) as HA.
  destruct (tspec time (alive time m) a r) as [[m' a'] reply]. destruct HA as [Hok' Hroom].
  { intros cmd ->. exact D8. }
  destruct HP as (s2 & c2 & [= <- <-] & (Hst & Hid & Hfl') & Hts' & Hs' & Htm' & Hsig & Hflush & Hz).
  unfold serve. rewrite (exchange_clients v id t c Et), lookup_insert_eq. change (t_req (with_req t c)) with c. rewrite E, bind_ok. cbv zeta.
  set (t1 := mkTx c' (s_last_error s') (s_last_reply s') (s_queued s') (s_watching s')).
  rewrite insert_insert_eq. set (clients := <[id := t1]> (v_clients v)). destruct Hts' as [T1 T2 T3 T4 T5 T6].
  assert (index_ok (s_watched s') (watching_of clients)) as HX'.
  { apply (index_ext _ _ _ T5). intros j. unfold clients. rewrite watching_insert. cbn [t1 t_watching]. by rewrite T4. }
  destruct (touch_events_ok (touched_by (executes a r)) (db_events (s_db s')) (s_watched s') clients HX') as (w & clients' & -> & Hw & Mw & HM & HD).
  { intros e He. destruct (Hflush e He) as [He0|]; [|done]. by apply elem_of_nil in He0. }
  rewrite bind_ok.
  assert (forall j, option_Forall2 (client_is H j) (clients !! j) (<[id := a']> A !! j)) as HC'.
  { intros j. unfold clients. destruct (decide (j = id)) as [->|]; [|by rewrite !lookup_insert_ne].
    rewrite !lookup_insert_eq. constructor. by split. }
  destruct (remark_all_ok (executes a r) H (<[id := a']> A) clients clients' (alive time m) m' HC' HM) as (HC2 & HM2 & HP2).
  { intros j k Hk Hne. apply (HD j k Hk). by apply Hsig. }
  clear T1. pose proof (HM id) as Hme. unfold clients in Hme at 1. rewrite lookup_insert_eq in Hme. inversion Hme as [? t' Ht' E1 E2|]; subst.
  exists (mkTxServer (s_db s') (s_dirty s') w clients'), t', (remark_all (<[id := a']> A) clients'). split; [done|]. split; [done|].
  split; [by rewrite (to_stream _ _ _ Ht')|]. split; [done|]. split; cbn [v_db v_watched v_clients]; try done.
  - rewrite HP2, (pending_update A id a a' Ea). eapply shows_le; [|exact Hs']. lia.
  - by apply (index_marks (touched_by (executes a r)) (s_watched s') w clients).
  - rewrite Mw. cbn [attach exchange with_clients v_watched s_watched] in Hz. destruct r; cbn [new_watched cost] in *; lia.
Qed.

(** A new client, and one that leaves. *)
Lemma connect_ok H n now (v : txserver T) m A id c : server_is H n now v m A -> A !! id = None -> c_id (q_out c) = id ->
  tx_flags (q_out c) = (false, false, false) -> server_is H n now (connect v id c) m (<[id := idle_actx]> A).
Proof.
  intros [Hs Htm HX Hsz HC] Ea Hid Hfl. pose proof (HC id) as Hc. rewrite Ea in Hc. inversion Hc as [|E]. split; cbn [connect with_clients v_db v_watched v_clients]; try done.
  - rewrite pending_insert by done. exact Hs.
  - apply (index_ext _ _ _ HX). intros j. rewrite watching_insert. unfold upd, watching_of. destruct (decide (j = id)) as [->|]; [by rewrite <- E|done].
  - intros j. destruct (decide (j = id)) as [->|]; [|by rewrite !lookup_insert_ne]. rewrite !lookup_insert_eq. constructor. split; try done. constructor.
Qed.

Lemma free_ok H n now (v : txserver T) m A id : server_is H n now v m A -> is_Some (A !! id) ->
  exists v', free_client v id = Ok v' /\ server_is H n now v' m (delete id A).
Proof.
  intros [Hs Htm HX Hsz HC] [a Ea]. pose proof (HC id) as Hc. rewrite Ea in Hc. inversion Hc as [t ? Hcl E|]; subst. unfold free_client. rewrite <- E.
  destruct (unwatch_loop_ok id (t_watching t) (v_watched v) _ HX) as (w & -> & Hw & Hz); [unfold watching_of; by rewrite <- E|]. rewrite bind_ok.
  eexists. split; [reflexivity|]. split; cbn [with_clients v_db v_watched v_clients]; try done; [| |lia|].
  - eapply shows_le; [|exact Hs]. rewrite (pending_delete A id a Ea). pose proof (sum_new_nonneg (a_queue a)). lia.
  - apply (index_ext _ _ _ Hw). intros j. unfold upd, watching_of. destruct (decide (j = id)) as [->|]; [by rewrite lookup_delete_eq|by rewrite lookup_delete_ne].
  - intros j. destruct (decide (j = id)) as [->|]; [rewrite !lookup_delete_eq; constructor|by rewrite !lookup_delete_ne].
Qed.

Lemma server_le H n n' now (v : txserver T) m A : n' <= n -> server_is H n now v m A -> server_is H n' now v m A.
Proof. intros Hn [Hs Htm HX Hsz HC]. split; try done; [|lia]. eapply shows_le; [|exact Hs]. lia. Qed.

(** The owners of the stored objects come and go. *)
Lemma recounted_server H n now (v v' : txserver T) m A : server_is H n now v m A -> recounted_db (v_db v) (v_db v') ->
  v_watched v' = v_watched v -> v_clients v' = v_clients v -> server_is H n now v' m A.
Proof. intros [Hs Htm HX Hsz HC] Hr E1 E2. split; rewrite ?E1, ?E2; try done. by eapply recounted_shows. Qed.
End Server.
