(* ===== verification/Helper.v ===== *)
(** * String and file helpers of Blogd ([deps/blogd/helper.c])

    [strReplace], [stringConcat] and [removeFileExt] work on heap buffers of a
    computed size: the model allocates a buffer of that size and checks every
    write. A pointer into a string is the suffix it points to; a [char *]
    argument that can be NULL is an option. *)

From S2P Require Import Prelude CLib.
Local Open Scope Z_scope.

(** ** [strReplace] *)

(** [for (count = 0; tmp = strstr(ins, rep); ++count) ins = tmp + len_rep]. The
    search advances by at least one byte, since [rep] is not empty: the length
    of the string bounds the iterations. *)
Fixpoint count_occurrences (fuel : nat) (rep ins : bytes) : nat :=
  match fuel with
  | O => O
  | S f => match strstr ins rep with
           | Some i => S (count_occurrences f rep (drop (i + length rep) ins))
           | None => O
           end
  end.

(** [while (count--)]: [tmp] is the offset of the write pointer in [result], and
    [orig] what is left of the input. *)
Fixpoint replace_loop (count : nat) (rep with_ : bytes)
    (result : bytes) (tmp : nat) (orig : bytes) : res (bytes * nat * bytes) :=
  match count with
  | O => Ok (result, tmp, orig)
  | S c =>
      match strstr orig rep with
      | None => Fault NullPointer   (* [ins] is NULL: not reached *)
      | Some len_front =>
          result ← mwrite result tmp (take len_front orig);
          let tmp := (tmp + len_front)%nat in
          result ← mwrite result tmp (with_ ++ [0]);
          let tmp := (tmp + length with_)%nat in
          replace_loop c rep with_ result tmp (drop (len_front + length rep) orig)
      end
  end.

(** The size passed to [zmalloc]: the product is an [int], the sum a [size_t]. *)
Definition replace_alloc (len_orig len_with len_rep count : Z) : Z :=
  u64 (len_orig + s32 ((s32 len_with - s32 len_rep) * count) + 1).

Definition strReplace (rep with_ orig : option bytes) : res (option bytes) :=
  match orig, rep with
  | None, None => Ok None
  | _, None => Fault NullPointer     (* strlen(NULL) *)
  | None, Some [] => Ok None
  | None, Some _ => Fault NullPointer  (* strstr(NULL, rep) *)
  | Some _, Some [] => Ok None
  | Some orig, Some rep =>
      let with_ := match with_ with None => [] | Some w => w end in
      let count := count_occurrences (S (length orig)) rep orig in
      let size := replace_alloc (Z.of_nat (length orig)) (Z.of_nat (length with_))
                    (Z.of_nat (length rep)) (Z.of_nat count) in
      '(result, tmp, rest) ← replace_loop count rep with_ (replicate (Z.to_nat size) 0) 0 orig;
      result ← mwrite result tmp (rest ++ [0]);
      Ok (Some result)
  end.

(** ** [stringConcat], [removeFileExt] *)

Definition stringConcat (s1 s2 : bytes) : res bytes :=
  let result := replicate (length s1 + length s2 + 1) 0 in
  result ← mwrite result 0 s1;
  mwrite result (length s1) (s2 ++ [0]).

(** The copy of the string with the extension cut by a NUL. *)
Definition removeFileExt (mystr : option bytes) (dot sep : Z) : res (option bytes) :=
  match mystr with
  | None => Ok None
  | Some s =>
      retstr ← mwrite (replicate (length s + 1) 0) 0 (s ++ [0]);
      let lastdot := strrchr s dot in
      let lastsep := if sep =? 0 then None else strrchr s sep in
      match lastdot with
      | None => Ok (Some retstr)
      | Some d =>
          match lastsep with
          | Some p => if (p <? d)%nat then r ← wr retstr d 0; Ok (Some r) else Ok (Some retstr)
          | None => r ← wr retstr d 0; Ok (Some r)
          end
      end
  end.

(** ** Files *)

(** [fgets(buf, n, fp)]: at most [n - 1] bytes, up to and including a newline;
    the bytes read and what is left of the file. *)
Fixpoint fgets (n : nat) (file : bytes) : bytes * bytes :=
  match n, file with
  | S (S _ as n'), c :: file' =>
      if c =? 10 then ([c], file') else
      let (l, rest) := fgets n' file' in (c :: l, rest)
  | _, _ => ([], file)
  end.

(** The read loop: [sdscat] appends the chunk up to its first NUL. *)
Fixpoint read_lines (fuel : nat) (content file : bytes) : bytes :=
  match fuel, file with
  | S f, _ :: _ =>
      let (buf, rest) := fgets (1024 + 1) file in
      read_lines f (content ++ cstr buf) rest
  | _, _ => content
  end.

(** [fs] is the file system: the contents of the files that can be opened. The
    result is never NULL. *)
Definition readFileContent (fs : bytes -> option bytes) (path : bytes) : bytes :=
  match fs path with
  | Some file => read_lines (length file) [] file
  | None => []
  end.

(** ** Specification of the replacement *)

(** [sep]-separated concatenation. *)
Fixpoint join (sep : bytes) (pieces : list bytes) : bytes :=
  match pieces with
  | [] => []
  | [p] => p
  | p :: ps => p ++ sep ++ join sep ps
  end.

(** The pieces between the occurrences of [rep], left to right. *)
Fixpoint split_on (fuel : nat) (rep s : bytes) : list bytes :=
  match fuel with
  | O => [s]
  | S f => match strstr s rep with
           | Some i => take i s :: split_on f rep (drop (i + length rep) s)
           | None => [s]
           end
  end.

Definition replace_all (rep with_ orig : bytes) : bytes :=
  join with_ (split_on (S (length orig)) rep orig).

(** ** Proofs *)

Lemma strstr_split s rep i :
  strstr s rep = Some i -> s = take i s ++ rep ++ drop (i + length rep) s.
Proof.
  intros H. destruct (strstr_Some _ _ _ H) as [t Ht]. pose proof (strstr_lt _ _ _ H) as Hl.
  assert (drop (i + length rep) s = t) as ->.
  { rewrite Ht, app_assoc. apply drop_app_length'. rewrite length_app, length_take. lia. }
  done.
Qed.

Lemma split_on_nonempty f rep s : split_on f rep s <> [].
Proof. destruct f; cbn; [done|]. by destruct (strstr s rep). Qed.

Lemma join_cons sep p ps : ps <> [] -> join sep (p :: ps) = p ++ sep ++ join sep ps.
Proof. by destruct ps. Qed.

Lemma split_on_join f rep s : join rep (split_on f rep s) = s.
Proof.
  revert s. induction f as [|f IH]; intros s; cbn [split_on]; [done|].
  destruct (strstr s rep) as [i|] eqn:E; [|done].
  rewrite join_cons by apply split_on_nonempty. rewrite IH. symmetry. by apply strstr_split.
Qed.

Lemma count_split_on f rep s : (1 + count_occurrences f rep s = length (split_on f rep s))%nat.
Proof.
  revert s. induction f as [|f IH]; intros s; cbn; [done|].
  destruct (strstr s rep); [|done]. cbn. by rewrite <- IH.
Qed.

Lemma join_length sep ps :
  ps <> [] -> Z.of_nat (length (join sep ps))
  = Z.of_nat (sum_list (length <$> ps)) + Z.of_nat (length sep) * (Z.of_nat (length ps) - 1).
Proof.
  induction ps as [|p [|q ps] IH]; intros H; [done | cbn; lia |].
  rewrite join_cons by done. rewrite !length_app.
  specialize (IH ltac:(done)). revert IH. generalize (join sep (q :: ps)). intros l IH.
  simpl. simpl in IH. lia.
Qed.

(** The loop writes the pieces it passes, each followed by [with_], and stays
    inside the buffer. *)
Lemma replace_loop_ok c rep with_ : forall out buf f orig,
  c = count_occurrences f rep orig -> rep <> [] ->
  (length out + length (join with_ (split_on f rep orig)) < length (out ++ buf))%nat ->
  exists buf' rest out',
    replace_loop c rep with_ (out ++ buf) (length out) orig
      = Ok (out' ++ buf', length out', rest) /\
    length (out' ++ buf') = length (out ++ buf) /\
    out' ++ rest = out ++ join with_ (split_on f rep orig).
Proof.
  induction c as [|c IH]; intros out buf f orig Hc Hrep Hlen.
  - exists buf, orig, out. cbn. split; [done|]. split; [done|]. f_equal.
    destruct f as [|f]; [done|]. cbn in Hc |- *. by destruct (strstr orig rep).
  - destruct f as [|f]; [discriminate|]. cbn [count_occurrences] in Hc.
    cbn [replace_loop]. cbn [split_on] in *.
    destruct (strstr orig rep) as [i|] eqn:E; [|discriminate]. injection Hc as Hc.
    rewrite join_cons in * by apply split_on_nonempty.
    set (rest0 := drop (i + length rep) orig) in *.
    rewrite !length_app in Hlen.
    pose proof (strstr_lt _ _ _ E). assert (length (take i orig) = i) as Hti by (rewrite length_take; lia).
    rewrite mwrite_ok by (rewrite length_app; lia). rewrite bind_ok.
    rewrite take_app_length, drop_app_add.
    set (buf1 := drop _ buf). assert (length buf1 = (length buf - i)%nat) as Hb1
      by (unfold buf1; rewrite length_drop; lia).
    rewrite (app_assoc out). set (out1 := out ++ take i orig).
    assert (length out1 = (length out + i)%nat) as Ho1 by (unfold out1; rewrite length_app; lia).
    rewrite <- Ho1. rewrite mwrite_ok by (rewrite !length_app; cbn; lia). rewrite bind_ok.
    rewrite take_app_length, drop_app_add. rewrite <- app_assoc.
    replace (length out1 + length with_)%nat with (length (out1 ++ with_)) by (by rewrite length_app).
    rewrite (app_assoc out1).
    destruct (IH (out1 ++ with_) ([0] ++ drop (length (with_ ++ [0])) buf1) f rest0)
      as (buf' & rest & out' & -> & Hl & Hr); [done | done | |].
    { len_lia. }
    exists buf', rest, out'. split; [done|]. split.
    + rewrite Hl. len_lia.
    + rewrite Hr. unfold out1. by rewrite <- !app_assoc.
Qed.

(** [strReplace] is the replacement of every occurrence, and fills exactly the
    buffer it allocates. *)
Lemma strReplace_exact rep with_ orig :
  rep <> [] -> Z.of_nat (length orig) < 2 ^ 31 -> Z.of_nat (length with_) < 2 ^ 31 ->
  Z.of_nat (length rep) < 2 ^ 31 -> Z.of_nat (length (replace_all rep with_ orig)) < 2 ^ 31 ->
  strReplace (Some rep) (Some with_) (Some orig) = Ok (Some (replace_all rep with_ orig ++ [0])).
Proof.
  intros Hr Ho Hw Hrl Hout. unfold strReplace.
  destruct rep as [|r0 rep0] eqn:Er; [done|]. rewrite <- Er in *. clear Er r0 rep0.
  set (f := S (length orig)). set (count := count_occurrences f rep orig).
  assert (Z.of_nat (length (replace_all rep with_ orig)) =
    Z.of_nat (length orig) + (Z.of_nat (length with_) - Z.of_nat (length rep)) * Z.of_nat count) as Hlen.
  { unfold replace_all. fold f. rewrite join_length by apply split_on_nonempty.
    pose proof (split_on_join f rep orig) as Hj. apply (f_equal length) in Hj.
    apply (f_equal Z.of_nat) in Hj. rewrite join_length in Hj by apply split_on_nonempty.
    pose proof (count_split_on f rep orig) as Hc. fold count in Hc. nia. }
  unfold replace_alloc. rewrite (s32_small (Z.of_nat (length with_))), (s32_small (Z.of_nat (length rep))) by lia.
  rewrite s32_small by lia. rewrite u64_small by lia. rewrite <- Hlen.
  replace (Z.to_nat (Z.of_nat (length (replace_all rep with_ orig)) + 1))
    with (S (length (replace_all rep with_ orig))) by lia.
  destruct (replace_loop_ok count rep with_ [] (replicate (S (length (replace_all rep with_ orig))) 0) f orig)
    as (buf' & rest & out' & Hloop & Hl & He);
    [done | done | cbn [app]; rewrite length_replicate; cbn; unfold replace_all; fold f; lia |].
  cbn [app length] in Hloop, Hl, He. rewrite Hloop, bind_ok. rewrite length_replicate in Hl.
  change (join with_ (split_on f rep orig)) with (replace_all rep with_ orig) in He.
  rewrite <- He in Hl |- *. rewrite !length_app in Hl.
  rewrite mwrite_ok by (rewrite !length_app; cbn; lia). rewrite bind_ok.
  rewrite take_app_length, drop_app_add, drop_ge by (rewrite length_app; cbn; lia).
  by rewrite app_nil_r, app_assoc.
Qed.

(** What the replacement means, independently of the search: the text is cut at
    the first place where [rep] occurs, and the rest after it in the same way. *)
Definition occurs_at (rep s : bytes) (i : nat) : Prop := exists t, drop i s = rep ++ t.

Inductive leftmost (rep : bytes) : bytes -> list bytes -> Prop :=
  | leftmost_last s : (forall i, ~ occurs_at rep s i) -> leftmost rep s [s]
  | leftmost_cut p rest ps :
      (forall i, (i < length p)%nat -> ~ occurs_at rep (p ++ rep ++ rest) i) ->
      leftmost rep rest ps -> leftmost rep (p ++ rep ++ rest) (p :: ps).

Lemma strstr_first s rep : rep <> [] -> forall i, occurs_at rep s i -> exists j, strstr s rep = Some j /\ (j <= i)%nat.
Proof.
  intros Hr. induction s as [|x s IH]; intros i [t Ht].
  - rewrite drop_nil in Ht. by destruct rep.
  - cbn [strstr]. destruct (prefixb rep (x :: s)) eqn:E; [exists 0%nat; split; [done|lia]|].
    destruct i as [|i]; [rewrite drop_0 in Ht; by rewrite Ht, prefixb_app in E|].
    destruct (IH i) as (j & -> & Hj); [by exists t|]. exists (S j). split; [done|lia].
Qed.

Lemma split_on_leftmost f rep s : rep <> [] -> (length s < f)%nat -> leftmost rep s (split_on f rep s).
Proof.
  intros Hr. revert s. induction f as [|f IH]; intros s Hf; [lia|]. cbn [split_on].
  destruct (strstr s rep) as [i|] eqn:E.
  - pose proof (strstr_lt _ _ _ E) as Hl. rewrite (strstr_split _ _ _ E) at 1. constructor.
    + rewrite <- (strstr_split _ _ _ E), length_take. intros k Hk Ho.
      destruct (strstr_first s rep Hr k Ho) as (j & Ej & Hj). rewrite E in Ej. injection Ej as <-. lia.
    + apply IH. rewrite length_drop. assert (length rep <> 0%nat) by (by destruct rep). lia.
  - constructor. intros i Ho. destruct (strstr_first s rep Hr i Ho) as (j & Ej & _). congruence.
Qed.

Lemma occurs_cut rep p rest : occurs_at rep (p ++ rep ++ rest) (length p).
Proof. exists rest. apply drop_app_length. Qed.

(** There is one such list of pieces. *)
Lemma leftmost_unique rep s ps1 : leftmost rep s ps1 -> forall ps2, leftmost rep s ps2 -> ps1 = ps2.
Proof.
  induction 1 as [s Hno|p rest ps Hno Hps IH]; intros ps2 H2.
  - inversion H2 as [? ?|p' rest' ps' _ _]; subst; [done|]. destruct (Hno (length p')). apply occurs_cut.
  - inversion H2 as [? Hno'|p' rest' ps' Hno' Hps' E]; subst; [destruct (Hno' (length p)); apply occurs_cut|].
    assert (length p' = length p) as Hl.
    { destruct (Nat.lt_trichotomy (length p') (length p)) as [Hlt|[?|Hlt]]; [|done|].
      - destruct (Hno _ Hlt). rewrite <- E. apply occurs_cut.
      - destruct (Hno' _ Hlt). rewrite E. apply occurs_cut. }
    apply app_inj_1 in E as [-> E]; [|done]. apply app_inv_head in E as ->. f_equal. by apply IH.
Qed.

Lemma stringConcat_ok s1 s2 : stringConcat s1 s2 = Ok (s1 ++ s2 ++ [0]).
Proof.
  unfold stringConcat. rewrite mwrite_ok by (rewrite length_replicate; lia).
  rewrite bind_ok, take_0. cbn [app Nat.add].
  rewrite mwrite_ok by (rewrite !length_app, length_drop, length_replicate; cbn; lia).
  rewrite take_app_length, drop_app_add, drop_ge; [by rewrite app_nil_r|].
  rewrite length_drop, length_replicate, length_app. cbn. lia.
Qed.

(** The string [removeFileExt] returns. *)
Lemma removeFileExt_spec s dot sep :
  no_nul s -> dot <> 0 ->
  exists r, removeFileExt (Some s) dot sep = Ok (Some r) /\ length r = S (length s) /\
    cstr r = match strrchr s dot with
             | Some d => if match (if sep =? 0 then None else strrchr s sep) with
                            | Some p => (p <? d)%nat | None => true end
                         then take d s else s
             | None => s
             end.
Proof.
  intros Hs Hd. unfold removeFileExt.
  rewrite mwrite_ok by (rewrite length_replicate, length_app; cbn; lia).
  rewrite bind_ok, take_0, drop_ge by (rewrite length_replicate, length_app; cbn; lia).
  cbn [app]. rewrite app_nil_r.
  assert (length (s ++ [0]) = S (length s)) as Hlen by (rewrite length_app; cbn; lia).
  assert (cstr (s ++ [0]) = s) as Hc by (by apply cstr_app_nul).
  destruct (strrchr s dot) as [d|] eqn:E; [|by exists (s ++ [0])].
  apply strrchr_Some in E as (t & Ht & Hl & Hn).
  assert (exists r, (r ← wr (s ++ [0]) d 0; Ok (Some r)) = Ok (Some r) /\ length r = S (length s) /\
    cstr r = take d s) as Hcut.
  { assert (s ++ [0] = take d s ++ dot :: t ++ [0]) as ->
      by (change (dot :: t ++ [0]) with ((dot :: t) ++ [0]); by rewrite app_assoc, <- Ht).
    rewrite wr_app_mid by done. rewrite bind_ok.
    eexists. split; [done|]. split.
    - apply (f_equal length) in Ht. rewrite length_app in Ht. cbn in Ht. len_lia.
    - apply cstr_app_nul. unfold no_nul in *. by apply Forall_take. }
  destruct (if sep =? 0 then None else strrchr s sep) as [p|]; [|done].
  destruct (p <? d)%nat; [done|]. by exists (s ++ [0]).
Qed.

(** *** Reading a file *)

Lemma fgets_cons n c file :
  fgets (S (S n)) (c :: file) =
  if c =? 10 then ([c], file) else let (l, rest) := fgets (S n) file in (c :: l, rest).
Proof. reflexivity. Qed.

Lemma fgets_split n file l rest :
  (1 < n)%nat -> file <> [] -> fgets n file = (l, rest) ->
  file = l ++ rest /\ (length rest < length file)%nat.
Proof.
  revert file l rest. induction n as [|n IH]; intros file l rest Hn Hf H; [lia|].
  destruct file as [|c file]; [done|]. destruct n as [|n]; [lia|]. rewrite fgets_cons in H.
  destruct (Z.eqb_spec c 10); [injection H as <- <-; cbn; split; [done|lia]|].
  destruct (fgets (S n) file) as [l' r'] eqn:E. injection H as <- <-.
  destruct n as [|n].
  { cbn in E. destruct file; injection E as <- <-; cbn; split; (done || lia). }
  destruct file as [|c' file]; [cbn in E; injection E as <- <-; cbn; split; [done|lia]|].
  destruct (IH (c' :: file) l' r' ltac:(lia) ltac:(done) E) as [-> Hlt]. cbn. split; [done|].
  rewrite length_app. lia.
Qed.

Lemma read_lines_ok f content file :
  no_nul file -> (length file <= f)%nat -> read_lines f content file = content ++ file.
Proof.
  revert content file. induction f as [|f IH]; intros content file Hn Hf.
  - destruct file; [by rewrite app_nil_r | cbn in Hf; lia].
  - destruct file as [|c file]; [by rewrite app_nil_r|].
    cbn [read_lines]. destruct (fgets (1024 + 1) (c :: file)) as [l rest] eqn:E.
    destruct (fgets_split (1024 + 1) (c :: file) l rest ltac:(lia) ltac:(done) E) as [He Hlt].
    assert (length rest <= f)%nat as Hrf by (cbn [length] in *; lia).
    rewrite He in Hn |- *. apply no_nul_app in Hn as [Hl Hr].
    rewrite IH by done. by rewrite cstr_id, app_assoc by done.
Qed.

Lemma readFileContent_ok fs path file :
  fs path = Some file -> no_nul file -> readFileContent fs path = file.
Proof. intros H Hn. unfold readFileContent. rewrite H. by rewrite read_lines_ok by done. Qed.

Lemma readFileContent_missing fs path : fs path = None -> readFileContent fs path = [].
Proof. intros H. unfold readFileContent. by rewrite H. Qed.
