(* ===== verification/H3.v ===== *)
(** * The HTTP request header parser ([deps/h3/src/request_header.c], [scanner.h])

    A [const char *] into the request is an index into the buffer [m] that
    holds it; every [*p] is a checked read, so a scan that leaves the buffer is
    a fault. The parser looks for a NUL and does not use [bodyLength]. *)

From S2P Require Import Prelude CLib.
Local Open Scope Z_scope.

(** ** [scanner.h] *)

Definition CR : Z := 13.
Definition LF : Z := 10.

Definition endp (m : bytes) (p : nat) : res bool := c ← rd m p; Ok (c =? 0).
Definition notend (m : bytes) (p : nat) : res bool := c ← rd m p; Ok (negb (c =? 0)).

Definition iscrlf (m : bytes) (p : nat) : res bool :=
  c ← rd m p;
  if c =? CR then d ← rd m (S p); Ok (d =? LF) else Ok false.

(** Not the negation of [iscrlf]: false also on a lone CR and before a LF. *)
Definition notcrlf (m : bytes) (p : nat) : res bool :=
  c ← rd m p;
  if negb (c =? CR) then d ← rd m (S p); Ok (negb (d =? LF)) else Ok false.

Definition isspacep (m : bytes) (p : nat) : res bool := c ← rd m p; Ok (isspace c).
Definition notspacep (m : bytes) (p : nat) : res bool := c ← rd m p; Ok (negb (isspace c)).
Definition notchar (ch : Z) (m : bytes) (p : nat) : res bool := c ← rd m p; Ok (negb (c =? ch)).

(** [a && b] and [a || b] with the short circuit. *)
Definition and_then (a b : bytes -> nat -> res bool) (m : bytes) (p : nat) : res bool :=
  x ← a m p; if (x : bool) then b m p else Ok false.
Definition or_else (a b : bytes -> nat -> res bool) (m : bytes) (p : nat) : res bool :=
  x ← a m p; if (x : bool) then Ok true else b m p.

Infix "&&&" := and_then (at level 40, left associativity) : blogd_scope.
Infix "|||" := or_else (at level 50, left associativity) : blogd_scope.
Local Open Scope blogd_scope.

Fixpoint peekstr_loop (m : bytes) (buf : nat) (s : bytes) (i : nat) (len : nat) : res bool :=
  match len with
  | O => Ok true
  | S len' =>
      c ← rd m buf;
      d ← (if c =? 0 then Ok c else rd s i);
      if negb (c =? 0) && negb (c =? d) then Ok false
      else peekstr_loop m (S buf) s (S i) len'
  end.

(** [peekstr(buf, str, len)]: [str] is a C string, its NUL included. *)
Definition peekstr (m : bytes) (buf : nat) (s : bytes) (len : nat) : res bool :=
  peekstr_loop m (S buf) (s ++ [0]) O len.

(** [while (cond(p)) p++]. A condition reads [*p], so the fuel [S (length m)]
    is enough: the read at [length m] is a fault. *)
Fixpoint scan_loop (fuel : nat) (cond : bytes -> nat -> res bool) (m : bytes) (p : nat) : res nat :=
  match fuel with
  | O => Fault OutOfFuel
  | S f => b ← cond m p; if (b : bool) then scan_loop f cond m (S p) else Ok p
  end.

Definition scan (cond : bytes -> nat -> res bool) (m : bytes) (p : nat) : res nat :=
  scan_loop (S (length m)) cond m p.

(** ** [h3.h] *)

Definition MAX_HEADER_SIZE : nat := 20.

Record HeaderField := mkField {
  FieldName : option nat;
  FieldNameLen : nat;
  Value : option nat;
  ValueLen : nat
}.

(** [HTTPVersion] points into the request or to a literal. *)
Inductive version_ptr := VNull | VDefault | VAt (p : nat).

Record RequestHeader := mkHeader {
  RequestLineStart : option nat;
  RequestMethod : option nat;
  RequestMethodLen : nat;
  RequestURI : option nat;
  RequestURILen : nat;
  HTTPVersion : version_ptr;
  HTTPVersionLen : nat;
  HeaderSize : nat;
  Fields : list HeaderField
}.

Definition h3_header_field_new : HeaderField := mkField None 0 None 0.

Definition h3_request_header_new : RequestHeader :=
  mkHeader None None 0 None 0 VNull 0 0 (replicate MAX_HEADER_SIZE h3_header_field_new).

Inductive h3_result :=
  | H3_OK
  | H3_FAIL.    (* -1, also H3_ERR_REQUEST_LINE_PARSE_FAIL *)

#[export] Instance h3_result_eq_dec : EqDecision h3_result.
Proof. solve_decision. Defined.

(** ** Parsing *)

Definition set_method (h : RequestHeader) (p len : nat) : RequestHeader :=
  mkHeader (RequestLineStart h) (Some p) len (RequestURI h) (RequestURILen h)
           (HTTPVersion h) (HTTPVersionLen h) (HeaderSize h) (Fields h).

Definition set_uri (h : RequestHeader) (p len : nat) : RequestHeader :=
  mkHeader (RequestLineStart h) (RequestMethod h) (RequestMethodLen h) (Some p) len
           (HTTPVersion h) (HTTPVersionLen h) (HeaderSize h) (Fields h).

Definition set_version (h : RequestHeader) (v : version_ptr) (len : nat) : RequestHeader :=
  mkHeader (RequestLineStart h) (RequestMethod h) (RequestMethodLen h) (RequestURI h) (RequestURILen h)
           v len (HeaderSize h) (Fields h).

Definition set_fields (h : RequestHeader) (n : nat) (fs : list HeaderField) : RequestHeader :=
  mkHeader (RequestLineStart h) (RequestMethod h) (RequestMethodLen h) (RequestURI h) (RequestURILen h)
           (HTTPVersion h) (HTTPVersionLen h) n fs.

(** The end of the request line, or [None] for NULL. *)
Definition h3_request_line_parse (h : RequestHeader) (m : bytes) (body : nat) : res (RequestHeader * option nat) :=
  let h := mkHeader (Some body) (RequestMethod h) (RequestMethodLen h) (RequestURI h) (RequestURILen h)
                    (HTTPVersion h) (HTTPVersionLen h) (HeaderSize h) (Fields h) in
  p ← scan (notend &&& notspacep) m body;
  bad ← (endp ||| iscrlf) m p;
  if (bad : bool) then Ok (h, None) else
  let h := set_method h body (p - body) in
  uri ← scan (isspacep &&& notcrlf &&& notend) m p;
  p ← scan (notspacep &&& notcrlf &&& notend) m uri;
  let h := set_uri h uri (p - uri) in
  short ← (iscrlf ||| endp) m p;
  if (short : bool) then Ok (set_version h VDefault (HTTPVersionLen h), Some p) else
  v ← scan (isspacep &&& notcrlf) m p;
  p ← scan (notspacep &&& notcrlf) m v;
  Ok (set_version h (VAt v) (p - v), Some p).

(** [&header->Fields[header->HeaderSize++]]. *)
Definition next_field (h : RequestHeader) : res (RequestHeader * nat) :=
  let i := HeaderSize h in
  if (i <? MAX_HEADER_SIZE)%nat then Ok (set_fields h (S i) (Fields h), i) else Fault OutOfBounds.

Definition set_name (p len : nat) (f : HeaderField) : HeaderField :=
  mkField (Some p) len (Value f) (ValueLen f).

Definition set_value (p len : nat) (f : HeaderField) : HeaderField :=
  mkField (FieldName f) (FieldNameLen f) (Some p) len.

Definition upd_field (h : RequestHeader) (i : nat) (g : HeaderField -> HeaderField) : RequestHeader :=
  set_fields h (HeaderSize h) (alter g i (Fields h)).

(** The [do ... while (notend(p))] loop; each round moves [p] forward by more
    than two, so the fuel is the length of the buffer. *)
Fixpoint header_fields_loop (fuel : nat) (h : RequestHeader) (m : bytes) (p : nat) : res (RequestHeader * h3_result) :=
  match fuel with
  | O => Fault OutOfFuel
  | S f =>
      '(h, i) ← next_field h;
      let name := p in
      p ← scan (notend &&& notchar 58) m p;
      let h := upd_field h i (set_name name (p - name)) in
      let p := S p in
      bad ← (endp ||| iscrlf) m p;
      if (bad : bool) then Ok (h, H3_FAIL) else
      p ← scan (notend &&& isspacep) m p;
      bad ← (endp ||| iscrlf) m p;
      if (bad : bool) then Ok (h, H3_FAIL) else
      let value := p in
      p ← scan (notend &&& notcrlf) m p;
      let h := upd_field h i (set_value value (p - value)) in
      _ ← iscrlf m p;
      let p := (p + 2)%nat in
      stop ← iscrlf m p;
      if (stop : bool) then Ok (h, H3_OK) else
      more ← notend m p;
      if (more : bool) then header_fields_loop f h m p else Ok (h, H3_OK)
  end.

Definition h3_request_header_parse (h : RequestHeader) (m : bytes) (body : nat) : res (RequestHeader * h3_result) :=
  '(h, r) ← h3_request_line_parse h m body;
  match r with
  | None => Ok (h, H3_FAIL)
  | Some p =>
      e ← endp m p;
      if (e : bool) then Ok (h, H3_FAIL) else
      _ ← iscrlf m p;
      let p := (p + 2)%nat in
      e ← endp m p;
      if (e : bool) then Ok (h, H3_OK) else
      header_fields_loop (S (length m)) (set_fields h 0 (Fields h)) m p
  end.

(** The bytes a pointer and a length denote. *)
Definition slice (m : bytes) (p len : nat) : bytes := take len (drop p m).

(** ** Well-formed requests *)

Definition CRLF : bytes := [CR; LF].

Definition print_field (nv : bytes * bytes) : bytes := nv.1 ++ [58; 32] ++ nv.2 ++ CRLF.

(** [Method SP Request-URI SP HTTP-Version CRLF], the fields and an empty
    line. *)
Definition print_request (method uri version : bytes) (fields : list (bytes * bytes)) : bytes :=
  method ++ [32] ++ uri ++ [32] ++ version ++ CRLF ++ concat (print_field <$> fields) ++ CRLF.

Definition token_char (c : Z) : bool := negb (c =? 0) && negb (isspace c).
Definition name_char (c : Z) : bool := negb (c =? 0) && negb (c =? 58) && negb (c =? CR).
Definition value_char (c : Z) : bool := negb (c =? 0) && negb (c =? CR) && negb (c =? LF).

Definition token (t : bytes) : bool := negb (bool_decide (t = [])) && forallb token_char t.

Definition field_wf (nv : bytes * bytes) : bool :=
  negb (bool_decide (nv.1 = [])) && forallb name_char nv.1 &&
  match nv.2 with c :: _ => negb (isspace c) | [] => false end && forallb value_char nv.2.

(** ** Scans *)

(** [f c d] is the condition on the current and the next byte. *)
Definition reads2 (cond : bytes -> nat -> res bool) (f : Z -> Z -> bool) : Prop :=
  forall m p c d, rd m p = Ok c -> rd m (S p) = Ok d -> cond m p = Ok (f c d).

Create HintDb h3.

Lemma reads_notend : reads2 notend (fun c _ => negb (c =? 0)).
Proof. intros m p c d Hc _. unfold notend. by rewrite Hc. Qed.
Lemma reads_endp : reads2 endp (fun c _ => c =? 0).
Proof. intros m p c d Hc _. unfold endp. by rewrite Hc. Qed.
Lemma reads_isspacep : reads2 isspacep (fun c _ => isspace c).
Proof. intros m p c d Hc _. unfold isspacep. by rewrite Hc. Qed.
Lemma reads_notspacep : reads2 notspacep (fun c _ => negb (isspace c)).
Proof. intros m p c d Hc _. unfold notspacep. by rewrite Hc. Qed.
Lemma reads_notchar x : reads2 (notchar x) (fun c _ => negb (c =? x)).
Proof. intros m p c d Hc _. unfold notchar. by rewrite Hc. Qed.
Lemma reads_iscrlf : reads2 iscrlf (fun c d => (c =? CR) && (d =? LF)).
Proof. intros m p c d Hc Hd. unfold iscrlf. rewrite Hc, bind_ok. destruct (c =? CR); [by rewrite Hd|done]. Qed.
Lemma reads_notcrlf : reads2 notcrlf (fun c d => negb (c =? CR) && negb (d =? LF)).
Proof. intros m p c d Hc Hd. unfold notcrlf. rewrite Hc, bind_ok. destruct (c =? CR); cbn [negb]; [done|by rewrite Hd]. Qed.
Lemma reads_and a b f g : reads2 a f -> reads2 b g -> reads2 (a &&& b) (fun c d => f c d && g c d).
Proof.
  intros Ha Hb m p c d Hc Hd. unfold and_then. rewrite (Ha m p c d Hc Hd), bind_ok.
  destruct (f c d); [by apply Hb|done].
Qed.
Lemma reads_or a b f g : reads2 a f -> reads2 b g -> reads2 (a ||| b) (fun c d => f c d || g c d).
Proof.
  intros Ha Hb m p c d Hc Hd. unfold or_else. rewrite (Ha m p c d Hc Hd), bind_ok.
  destruct (f c d); [done|by apply Hb].
Qed.
#[export] Hint Resolve reads_notend reads_endp reads_isspacep reads_notspacep reads_notchar
  reads_iscrlf reads_notcrlf reads_and reads_or : h3.

Lemma rd_window m p s i : drop p m = s -> rd m (p + i) = rd s i.
Proof. intros <-. unfold rd. by rewrite lookup_drop. Qed.

Lemma reads_window cond f m p c d rest :
  reads2 cond f -> drop p m = c :: d :: rest -> cond m p = Ok (f c d).
Proof.
  intros Hr Hw. apply Hr.
  - rewrite <- (Nat.add_0_r p). by rewrite (rd_window m p _ 0 Hw).
  - rewrite <- Nat.add_1_r. by rewrite (rd_window m p _ 1 Hw).
Qed.

Lemma drop_window {A} (m s t : list A) p : drop p m = s ++ t -> drop (p + length s) m = t.
Proof. intros H. rewrite <- drop_drop, H. apply drop_app_length. Qed.

Lemma drop_window1 {A} (m t : list A) x p : drop p m = x :: t -> drop (p + 1) m = t.
Proof. apply (drop_window m [x] t). Qed.

Lemma scan_loop_token cond f m : reads2 cond f ->
  forall tok p x y rest fuel,
    drop p m = tok ++ x :: y :: rest ->
    (forall c d, c ∈ tok -> d ∈ tok ++ [x] -> f c d = true) -> f x y = false ->
    (length tok < fuel)%nat -> scan_loop fuel cond m p = Ok (p + length tok)%nat.
Proof.
  intros Hr. induction tok as [|c tok IH]; intros p x y rest fuel Hw Hc Hx Hf; (destruct fuel; [cbn in Hf; lia|]).
  - cbn [scan_loop]. rewrite (reads_window cond f m p x y rest Hr Hw), bind_ok, Hx. f_equal. cbn. lia.
  - cbn [scan_loop].
    assert (exists d rest', tok ++ x :: y :: rest = d :: rest' /\ d ∈ (c :: tok) ++ [x]) as (d & rest' & Hd & Hin).
    { destruct tok as [|d tok]; cbn; eexists _, _; (split; [done|]); set_solver. }
    rewrite (reads_window cond f m p c d rest' Hr) by (rewrite Hw; cbn; by rewrite Hd).
    rewrite bind_ok, (Hc c d) by (set_solver || done).
    rewrite (IH (S p) x y rest fuel); [f_equal; cbn; lia | | | done | cbn in Hf; lia].
    + change (c :: tok) with ([c] ++ tok) in Hw. rewrite <- app_assoc in Hw. apply drop_window in Hw.
      by rewrite Nat.add_1_r in Hw.
    + intros a b Ha Hb. apply Hc; set_solver.
Qed.

Lemma scan_token cond f m tok p x y rest :
  reads2 cond f -> drop p m = tok ++ x :: y :: rest ->
  (forall c d, c ∈ tok -> d ∈ tok ++ [x] -> f c d = true) -> f x y = false ->
  scan cond m p = Ok (p + length tok)%nat.
Proof.
  intros Hr Hw Hc Hx. unfold scan. apply (scan_loop_token cond f m Hr tok p x y rest); [done..|].
  apply (f_equal length) in Hw. revert Hw. len_simpl. lia.
Qed.

Lemma forallb_elem (P : Z -> bool) l c : forallb P l = true -> c ∈ l -> P c = true.
Proof. intros H Hc. rewrite forallb_forall in H. apply H. by apply list_elem_of_In. Qed.

Lemma token_char_spec c :
  token_char c = true -> (c =? 0) = false /\ isspace c = false /\ (c =? CR) = false /\ (c =? LF) = false.
Proof.
  unfold token_char. intros [H0%negb_true_iff Hs%negb_true_iff]%andb_true_iff.
  split_and!; [done|done|apply Z.eqb_neq; intros ->; done..].
Qed.

Lemma token_cons t : token t = true -> exists c t', t = c :: t' /\ token_char c = true.
Proof.
  unfold token. destruct t as [|c t]; [done|]. cbn. intros [H _]%andb_true_iff. eauto.
Qed.

Lemma token_elem t c : token t = true -> c ∈ t -> token_char c = true.
Proof. unfold token. intros [_ H]%andb_true_iff. by apply forallb_elem. Qed.

Lemma elem_of_snoc (t : bytes) x d : d ∈ t ++ [x] -> d ∈ t \/ d = x.
Proof. set_solver. Qed.

(** Solves the side conditions of [scan_token] from the facts about the
    characters of a token. *)
Ltac char_facts :=
  cbn beta;
  repeat match goal with
  | H : token_char _ = true |- _ => apply token_char_spec in H as (? & ? & ? & ?)
  end;
  repeat match goal with H : _ = false |- _ => rewrite H end; try done.

(** A scan over a token that a space or the end of the line follows. *)
Lemma scan_over_token cond f m p tok x y rest :
  reads2 cond f -> drop p m = tok ++ x :: y :: rest -> token tok = true -> x = 32 \/ x = CR ->
  (forall c d, token_char c = true -> (d =? LF) = false -> f c d = true) -> f x y = false ->
  scan cond m p = Ok (p + length tok)%nat.
Proof.
  intros Hr Hw Ht Hx Hf Hxy. eapply scan_token; [done..| |done].
  intros c d Hc Hd. apply Hf; [by eapply token_elem|].
  apply elem_of_snoc in Hd as [Hd| ->]; [|by destruct Hx as [-> | ->]].
  by apply (token_elem tok) in Hd as (_ & _ & _ & ?)%token_char_spec.
Qed.

(** A scan over the space before a token. *)
Lemma scan_over_space cond f m p tok rest :
  reads2 cond f -> drop p m = 32 :: tok ++ CR :: rest \/ drop p m = 32 :: tok ++ 32 :: rest ->
  token tok = true ->
  (forall d, (d =? LF) = false -> f 32 d = true) -> (forall c d, token_char c = true -> f c d = false) ->
  scan cond m p = Ok (p + 1)%nat.
Proof.
  intros Hr Hw Ht Hf Hg. destruct (token_cons _ Ht) as (c & t & -> & Hc).
  assert (exists y r, drop p m = [32] ++ c :: y :: r) as (y & r & Hw').
  { destruct Hw as [Hw|Hw]; rewrite Hw; destruct t; cbn; eauto. }
  eapply (scan_token cond f m [32]); [done..| |by apply Hg].
  intros a d ->%list_elem_of_singleton [->%list_elem_of_singleton| ->]%elem_of_snoc; apply Hf; [done|].
  by apply token_char_spec in Hc as (_ & _ & _ & ?).
Qed.

Lemma request_line_ok h method uri version m p rest :
  token method = true -> token uri = true -> token version = true ->
  drop p m = method ++ 32 :: uri ++ 32 :: version ++ CR :: LF :: rest ->
  h3_request_line_parse h m p =
    Ok (mkHeader (Some p) (Some p) (length method)
                 (Some (p + length method + 1)%nat) (length uri)
                 (VAt (p + length method + 1 + length uri + 1)%nat) (length version)
                 (HeaderSize h) (Fields h),
        Some (p + length method + 1 + length uri + 1 + length version)%nat).
Proof.
  intros Hm Hu Hv Hw. unfold h3_request_line_parse.
  destruct (token_cons _ Hu) as (u0 & u' & Eu & Hu0). destruct (token_cons _ Hv) as (v0 & v' & Ev & Hv0).
  assert (Hw1 := Hw). rewrite Eu in Hw1. cbn [app] in Hw1.
  erewrite scan_over_token; [|solve [eauto with h3]|exact Hw1|done|by left|intros; char_facts|done].
  rewrite bind_ok. clear Hw1. apply drop_window in Hw.
  assert (Hw1 := Hw). rewrite Eu in Hw1. cbn [app] in Hw1.
  erewrite reads_window; [|solve [eauto with h3]|exact Hw1]. cbn [orb andb Z.eqb CR]. rewrite bind_ok.
  erewrite scan_over_space; [|solve [eauto with h3]|right; exact Hw|done|intros; char_facts|intros; char_facts].
  rewrite bind_ok. apply drop_window1 in Hw.
  cbn [length] in Hw. clear Hw1. assert (Hw1 := Hw). rewrite Ev in Hw1. cbn [app] in Hw1.
  erewrite scan_over_token; [|solve [eauto with h3]|exact Hw1|done|by left|intros; char_facts|done].
  rewrite bind_ok. clear Hw1. apply drop_window in Hw. assert (Hw1 := Hw). rewrite Ev in Hw1. cbn [app] in Hw1.
  erewrite reads_window; [|solve [eauto with h3]|exact Hw1]. cbn [orb andb Z.eqb CR]. rewrite bind_ok.
  erewrite scan_over_space; [|solve [eauto with h3]|left; exact Hw|done|intros; char_facts|intros; char_facts].
  rewrite bind_ok. apply drop_window1 in Hw.
  erewrite scan_over_token; [|solve [eauto with h3]|exact Hw|done|by right|intros; char_facts|done].
  rewrite bind_ok. unfold set_version, set_uri, set_method. cbn [RequestLineStart RequestMethod
    RequestMethodLen RequestURI RequestURILen HTTPVersion HTTPVersionLen HeaderSize Fields length].
  repeat f_equal; lia.
Qed.

(** ** The fields *)

(** A line of one word: the method is not set. *)
Lemma request_line_word h word m p rest :
  token word = true -> drop p m = word ++ CR :: LF :: rest ->
  exists h', h3_request_line_parse h m p = Ok (h', None) /\ RequestMethod h' = RequestMethod h.
Proof.
  intros Hm Hw. unfold h3_request_line_parse.
  erewrite scan_over_token; [|solve [eauto with h3]|exact Hw|done|by right|intros; char_facts|done].
  rewrite bind_ok. apply drop_window in Hw.
  erewrite reads_window; [|solve [eauto with h3]|exact Hw]. cbn [orb andb Z.eqb CR]. rewrite bind_ok. cbn.
  by eexists.
Qed.

Lemma name_char_spec c : name_char c = true -> (c =? 0) = false /\ (c =? 58) = false /\ (c =? CR) = false.
Proof. unfold name_char. rewrite !andb_true_iff, !negb_true_iff. tauto. Qed.

Lemma value_char_spec c : value_char c = true -> (c =? 0) = false /\ (c =? CR) = false /\ (c =? LF) = false.
Proof. unfold value_char. rewrite !andb_true_iff, !negb_true_iff. tauto. Qed.

Lemma field_wf_spec nv : field_wf nv = true ->
  (exists c t, nv.1 = c :: t) /\ forallb name_char nv.1 = true /\
  (exists c t, nv.2 = c :: t /\ isspace c = false) /\ forallb value_char nv.2 = true.
Proof.
  unfold field_wf. destruct nv as [[|c n] [|d v]]; cbn [fst snd bool_decide negb andb]; try done;
    rewrite !andb_true_iff; intros [[[_ H1] H2] H3]; [done|].
  apply negb_true_iff in H2. split_and!; eauto.
Qed.

(** The record of a field printed at [p]. *)
Definition field_at (p : nat) (nv : bytes * bytes) : HeaderField :=
  mkField (Some p) (length nv.1) (Some (p + length nv.1 + 2)%nat) (length nv.2).

(** The header after the field. *)
Definition with_field (h : RequestHeader) (p : nat) (nv : bytes * bytes) : RequestHeader :=
  set_fields h (S (HeaderSize h)) (<[HeaderSize h := field_at p nv]> (Fields h)).

Lemma alter_fields (l : list HeaderField) i p n q k :
  alter (set_value q k) i (alter (set_name p n) i l) = <[i := mkField (Some p) n (Some q) k]> l.
Proof.
  apply list_eq. intros j. destruct (decide (i = j)) as [->|Hne].
  - rewrite !list_lookup_alter_eq. destruct (l !! j) eqn:E; cbn.
    + rewrite list_lookup_insert_eq; [done|]. by eapply lookup_lt_Some.
    + rewrite list_insert_ge; [by rewrite E|]. by apply lookup_ge_None.
  - by rewrite !list_lookup_alter_ne, list_lookup_insert_ne.
Qed.

(** One round of the loop on a well-formed field. *)
Lemma field_round f h m p nv x y rest :
  field_wf nv = true -> (HeaderSize h < MAX_HEADER_SIZE)%nat ->
  drop p m = print_field nv ++ x :: y :: rest ->
  header_fields_loop (S f) h m p =
    if (x =? CR) && (y =? LF) then Ok (with_field h p nv, H3_OK) else
    if negb (x =? 0) then header_fields_loop f (with_field h p nv) m (p + length (print_field nv))
    else Ok (with_field h p nv, H3_OK).
Proof.
  intros (_ & Hn & (v0 & v' & Ev & Hv0) & Hv)%field_wf_spec Hs Hw. cbn [header_fields_loop].
  unfold next_field. apply Nat.ltb_lt in Hs. rewrite Hs, bind_ok.
  unfold print_field in Hw. rewrite <- app_assoc in Hw. cbn [app] in Hw.
  assert (value_char v0 = true) as (Hz & Hcr & Hlf)%value_char_spec.
  { rewrite Ev in Hv. cbn in Hv. by apply andb_true_iff in Hv as [? _]. }
  erewrite scan_token; [|solve [eauto with h3]|exact Hw| |done].
  2:{ intros c d Hc _. destruct (name_char_spec c (forallb_elem _ _ _ Hn Hc)) as (? & ? & ?). char_facts. }
  rewrite bind_ok. apply drop_window in Hw. apply drop_window1 in Hw.
  cbn [length] in Hw. rewrite Nat.add_1_r in Hw.
  assert (exists a r, drop (S (p + length nv.1)) m = [32] ++ v0 :: a :: r) as (a & r & Hw1).
  { rewrite Hw, Ev. destruct v'; cbn; eauto. }
  erewrite reads_window; [|solve [eauto with h3]|exact Hw1]. cbn [orb andb Z.eqb CR]. rewrite bind_ok.
  erewrite (scan_token _ _ m [32]); [|solve [eauto with h3]|exact Hw1| |].
  2:{ by intros c d ->%list_elem_of_singleton _. }
  2:{ cbn beta. by rewrite Hz, Hv0. }
  rewrite bind_ok. apply drop_window in Hw1.
  erewrite reads_window; [|solve [eauto with h3]|exact Hw1]. cbn [orb andb]. rewrite Hz, Hcr, bind_ok.
  cbn [orb andb]. apply drop_window1 in Hw.
  rewrite <- app_assoc in Hw. cbn [CRLF app length] in *.
  erewrite scan_token; [|solve [eauto with h3]|exact Hw| |done].
  2:{ intros c d Hc Hd. destruct (value_char_spec c (forallb_elem _ _ _ Hv Hc)) as (? & ? & ?).
      assert ((d =? LF) = false) as Hd'.
      { apply elem_of_snoc in Hd as [Hd| ->]; [|done].
        by destruct (value_char_spec d (forallb_elem _ _ _ Hv Hd)) as (? & ? & ?). }
      char_facts. }
  rewrite bind_ok. apply drop_window in Hw.
  rewrite (reads_window _ _ _ _ _ _ _ reads_iscrlf Hw), bind_ok.
  change (CR :: LF :: ?l) with ([CR; LF] ++ l) in Hw. apply drop_window in Hw. cbn [length] in Hw.
  rewrite (reads_window _ _ _ _ _ _ _ reads_iscrlf Hw), bind_ok.
  rewrite (reads_window _ _ _ _ _ _ _ reads_notend Hw), bind_ok.
  unfold upd_field, with_field, set_fields. cbn [HeaderSize Fields]. rewrite alter_fields. unfold field_at.
  replace (p + length nv.1 - p)%nat with (length nv.1) by lia.
  replace (S (p + length nv.1) + 1)%nat with (p + length nv.1 + 2)%nat by lia.
  replace (p + length nv.1 + 2 + length nv.2 - (p + length nv.1 + 2))%nat with (length nv.2) by lia.
  replace (p + length (print_field nv))%nat with (p + length nv.1 + 2 + length nv.2 + 2)%nat
    by (unfold print_field, CRLF; len_lia).
  done.
Qed.

(** The records of the fields printed from [p] on. *)
Fixpoint layout (p : nat) (fields : list (bytes * bytes)) : list HeaderField :=
  match fields with
  | [] => []
  | nv :: fs => field_at p nv :: layout (p + length (print_field nv)) fs
  end.

Lemma print_field_cons nv : field_wf nv = true ->
  exists c d t, print_field nv = c :: d :: t /\ (c =? CR) = false /\ (c =? 0) = false.
Proof.
  intros ((c & t & Hc) & Hn & _ & _)%field_wf_spec. rewrite Hc in Hn. cbn in Hn.
  apply andb_true_iff in Hn as [(? & ? & ?)%name_char_spec _].
  unfold print_field. rewrite Hc. destruct t; cbn; eauto 10.
Qed.

Lemma fields_concat nv fs :
  concat (print_field <$> nv :: fs) = print_field nv ++ concat (print_field <$> fs).
Proof. done. Qed.

Lemma fields_loop_step f h m p nv nv' fs rest :
  field_wf nv = true -> field_wf nv' = true -> (HeaderSize h < MAX_HEADER_SIZE)%nat ->
  drop p m = concat (print_field <$> nv :: nv' :: fs) ++ rest ->
  header_fields_loop (S f) h m p =
    header_fields_loop f (with_field h p nv) m (p + length (print_field nv)).
Proof.
  intros H1 H2 Hs Hw. destruct (print_field_cons nv' H2) as (c & d & t & Ep & Hcr & Hz).
  assert (drop p m = print_field nv ++ c :: d :: (t ++ concat (print_field <$> fs)) ++ rest) as Hw'.
  { rewrite Hw, fields_concat, fields_concat, Ep. cbn [app]. by repeat (rewrite <- app_assoc; cbn [app]). }
  rewrite (field_round f h m p nv c d _ H1 Hs Hw'), Hcr, Hz. done.
Qed.

Lemma fields_window m p nv fs rest :
  drop p m = concat (print_field <$> nv :: fs) ++ rest ->
  drop (p + length (print_field nv)) m = concat (print_field <$> fs) ++ rest.
Proof. rewrite fields_concat, <- app_assoc. apply drop_window. Qed.

Lemma header_fields_ok m rest fields : forall f h p,
  fields <> [] -> forallb field_wf fields = true ->
  (HeaderSize h + length fields <= MAX_HEADER_SIZE)%nat -> (length fields <= f)%nat ->
  drop p m = concat (print_field <$> fields) ++ CR :: LF :: rest ->
  header_fields_loop f h m p =
    Ok (set_fields h (HeaderSize h + length fields) (list_inserts (HeaderSize h) (layout p fields) (Fields h)),
        H3_OK).
Proof.
  induction fields as [|nv fields IH]; intros f h p Hne Hwf Hs Hf Hw; [done|].
  cbn [forallb] in Hwf. apply andb_true_iff in Hwf as [H1 H2]. cbn [length] in *.
  destruct f as [|f]; [lia|]. destruct fields as [|nv' fields].
  - rewrite fields_concat in Hw. cbn [fmap list_fmap concat] in Hw. rewrite app_nil_r in Hw.
    rewrite (field_round f h m p nv CR LF rest H1 ltac:(unfold MAX_HEADER_SIZE in *; lia) Hw). cbn.
    unfold with_field. by rewrite Nat.add_1_r.
  - rewrite (fields_loop_step f h m p nv nv' fields _ H1
      (proj1 (proj1 (andb_true_iff _ _) H2)) ltac:(lia) Hw).
    rewrite (IH f (with_field h p nv)); [| done | done | cbn in *; lia | lia | by apply fields_window in Hw].
    unfold with_field, set_fields. cbn [HeaderSize Fields].
    change (layout p (nv :: nv' :: fields)) with (field_at p nv :: layout (p + length (print_field nv)) (nv' :: fields)).
    cbn [list_inserts]. rewrite (list_insert_inserts_lt (Fields h) (HeaderSize h) (S (HeaderSize h))) by lia.
    by rewrite Nat.add_succ_comm.
Qed.

Lemma header_fields_overflow m rest fields : forall f h p,
  forallb field_wf fields = true -> (HeaderSize h <= MAX_HEADER_SIZE)%nat ->
  (MAX_HEADER_SIZE < HeaderSize h + length fields)%nat -> (length fields <= f)%nat ->
  drop p m = concat (print_field <$> fields) ++ rest ->
  header_fields_loop f h m p = Fault OutOfBounds.
Proof.
  induction fields as [|nv fields IH]; intros f h p Hwf H20 Hs Hf Hw; [cbn in Hs; lia|].
  cbn [forallb] in Hwf. apply andb_true_iff in Hwf as [H1 H2]. cbn [length] in *.
  destruct f as [|f]; [lia|].
  destruct (Nat.ltb_spec (HeaderSize h) MAX_HEADER_SIZE) as [Hlt|Hge].
  - destruct fields as [|nv' fields]; [cbn in Hs; lia|].
    rewrite (fields_loop_step f h m p nv nv' fields _ H1
      (proj1 (proj1 (andb_true_iff _ _) H2)) Hlt Hw).
    apply IH; [done | cbn; lia | cbn in *; lia | lia | by apply fields_window in Hw].
  - cbn [header_fields_loop]. unfold next_field.
    by assert ((HeaderSize h <? MAX_HEADER_SIZE)%nat = false) as -> by (by apply Nat.ltb_ge).
Qed.

(** ** The request *)

(** The header a well-formed request at [p] gives. *)
Definition parsed (p : nat) (method uri version : bytes) (fields : list (bytes * bytes)) : RequestHeader :=
  let pu := (p + length method + 1)%nat in
  let pv := (pu + length uri + 1)%nat in
  mkHeader (Some p) (Some p) (length method) (Some pu) (length uri) (VAt pv) (length version)
           (length fields)
           (list_inserts 0 (layout (pv + length version + 2) fields) (replicate MAX_HEADER_SIZE h3_header_field_new)).

Definition request_wf (method uri version : bytes) (fields : list (bytes * bytes)) : bool :=
  token method && token uri && token version && negb (bool_decide (fields = [])) && forallb field_wf fields.

Lemma request_wf_spec method uri version fields :
  request_wf method uri version fields = true ->
  token method = true /\ token uri = true /\ token version = true /\ fields <> [] /\ forallb field_wf fields = true.
Proof.
  unfold request_wf. rewrite !andb_true_iff, negb_true_iff, bool_decide_eq_false. tauto.
Qed.

Lemma request_window m p method uri version fields rest :
  drop p m = print_request method uri version fields ++ rest ->
  drop p m = method ++ 32 :: uri ++ 32 :: version ++ CR :: LF :: concat (print_field <$> fields) ++ CR :: LF :: rest.
Proof.
  intros ->. unfold print_request, CRLF. cbn [app].
  by repeat (rewrite <- app_assoc; cbn [app]).
Qed.

Lemma concat_length_ge {A} (l : list (list A)) :
  Forall (fun x => x <> []) l -> (length l <= length (concat l))%nat.
Proof.
  induction 1 as [|x l Hx _ IH]; cbn; [lia|]. rewrite length_app. destruct x; [done|cbn; lia].
Qed.

(** After the request line, the parse of a well-formed request is the loop on
    its fields. *)
Lemma header_parse_fields m p method uri version fields rest :
  request_wf method uri version fields = true ->
  drop p m = print_request method uri version fields ++ rest ->
  exists h f q, HeaderSize h = 0%nat /\ (length fields <= f)%nat /\
    drop q m = concat (print_field <$> fields) ++ CR :: LF :: rest /\
    q = (p + length method + 1 + length uri + 1 + length version + 2)%nat /\
    h3_request_header_parse h3_request_header_new m p = header_fields_loop f h m q /\
    set_fields h (length fields) (list_inserts 0 (layout q fields) (Fields h)) = parsed p method uri version fields.
Proof.
  intros (Hm & Hu & Hv & Hne & Hf)%request_wf_spec Hw%request_window.
  unfold h3_request_header_parse. rewrite (request_line_ok _ _ _ _ _ _ _ Hm Hu Hv Hw), bind_ok.
  apply drop_window, drop_window1, drop_window, drop_window1, drop_window in Hw.
  rewrite (reads_window _ _ _ _ _ _ _ reads_endp Hw), bind_ok. cbn [Z.eqb CR].
  rewrite (reads_window _ _ _ _ _ _ _ reads_iscrlf Hw), bind_ok.
  change (CR :: LF :: ?l) with ([CR; LF] ++ l) in Hw. apply drop_window in Hw. cbn [length] in Hw.
  assert (Forall (fun x => x <> []) (print_field <$> fields)) as Hlen%concat_length_ge.
  { apply Forall_fmap, Forall_forall. intros nv _ [_ [=]]%app_nil. }
  rewrite length_fmap in Hlen. destruct fields as [|nv fields]; [done|].
  cbn [forallb] in Hf. apply andb_true_iff in Hf as [H1 _].
  destruct (print_field_cons nv H1) as (c & d & t & Ep & Hcr & Hz).
  assert (exists r, drop (p + length method + 1 + length uri + 1 + length version + 2) m = c :: d :: r) as [r Hr].
  { rewrite Hw, fields_concat, Ep. cbn [app]. eauto. }
  rewrite (reads_window _ _ _ _ _ _ _ reads_endp Hr), bind_ok, Hz.
  eexists _, _, _. split_and!; [| |exact Hw|reflexivity|reflexivity|reflexivity]; [done|].
  assert (length (nv :: fields) <= length m)%nat; [|lia].
  apply (f_equal length) in Hw. revert Hw. len_simpl. cbn [length] in *. lia.
Qed.

Lemma header_parse_ok m p method uri version fields rest :
  request_wf method uri version fields = true -> (length fields <= MAX_HEADER_SIZE)%nat ->
  drop p m = print_request method uri version fields ++ rest ->
  h3_request_header_parse h3_request_header_new m p = Ok (parsed p method uri version fields, H3_OK).
Proof.
  intros Hwf Hn Hw. destruct (header_parse_fields _ _ _ _ _ _ _ Hwf Hw) as (h & f & q & Hh & Hf & Hq & -> & -> & Hp).
  destruct (request_wf_spec _ _ _ _ Hwf) as (_ & _ & _ & Hne & Hfs).
  rewrite (header_fields_ok m rest fields f h); [rewrite Hh; cbn [Nat.add]; by rewrite Hp | done | done | lia | done | done].
Qed.

Lemma header_parse_overflow m p method uri version fields rest :
  request_wf method uri version fields = true -> (MAX_HEADER_SIZE < length fields)%nat ->
  drop p m = print_request method uri version fields ++ rest ->
  h3_request_header_parse h3_request_header_new m p = Fault OutOfBounds.
Proof.
  intros Hwf Hn Hw. destruct (header_parse_fields _ _ _ _ _ _ _ Hwf Hw) as (h & f & q & Hh & Hf & Hq & -> & -> & Hp).
  destruct (request_wf_spec _ _ _ _ Hwf) as (_ & _ & _ & Hne & Hfs).
  eapply header_fields_overflow; [done | lia | lia | done | done].
Qed.

(** The records denote the printed parts. *)
Lemma slice_window m p s rest : drop p m = s ++ rest -> slice m p (length s) = s.
Proof. intros H. unfold slice. rewrite H. apply take_app_length. Qed.

Lemma layout_slices m rest fields : forall p i nv,
  drop p m = concat (print_field <$> fields) ++ rest -> fields !! i = Some nv ->
  exists q r, layout p fields !! i = Some (mkField (Some q) (length nv.1) (Some r) (length nv.2)) /\
    slice m q (length nv.1) = nv.1 /\ slice m r (length nv.2) = nv.2.
Proof.
  induction fields as [|nv' fields IH]; intros p [|i] nv Hw Hi; try done; cbn in Hi.
  - injection Hi as ->. eexists _, _. split; [reflexivity|]. rewrite fields_concat, <- app_assoc in Hw.
    unfold print_field in Hw. rewrite <- app_assoc in Hw. split; [by eapply slice_window|].
    apply drop_window in Hw. rewrite <- app_assoc in Hw. apply drop_window in Hw. rewrite <- app_assoc in Hw.
    by eapply slice_window.
  - apply fields_window in Hw. by apply (IH _ _ _ Hw).
Qed.

Lemma layout_length p fields : length (layout p fields) = length fields.
Proof. revert p. induction fields; cbn; auto. Qed.
