(* ===== verification/HttpUrl.v ===== *)
(** * The URL parser ([deps/http-parser/http_parser.c], [http_parser.h])

    The state machines [parse_url_char] and [http_parse_host_char], one byte at
    a time, and [http_parser_parse_url], which turns their transitions into the
    offsets and lengths of the components. [strict] is HTTP_PARSER_STRICT; the
    build compiles with 0. The [field_data] array is not initialised by the
    parser: its content before the call is part of the input. *)

From S2P Require Import Prelude CLib.
Local Open Scope Z_scope.

(** ** Character classes *)

Definition LOWER (c : Z) : Z := u8 (Z.lor c 0x20).
Definition IS_ALPHA (c : Z) : bool := (97 <=? LOWER c) && (LOWER c <=? 122).
Definition IS_NUM (c : Z) : bool := (48 <=? c) && (c <=? 57).
Definition IS_ALPHANUM (c : Z) : bool := IS_ALPHA c || IS_NUM c.
Definition IS_HEX (c : Z) : bool := IS_NUM c || ((97 <=? LOWER c) && (LOWER c <=? 102)).
Definition IS_MARK (c : Z) : bool := existsb (Z.eqb c) (str "-_.!~*'()").
Definition IS_USERINFO_CHAR (c : Z) : bool :=
  IS_ALPHANUM c || IS_MARK c || existsb (Z.eqb c) (str "%;:&=+$,").

(** [normal_url_char], 32 bytes of bits; [T(v)] is 0 in strict mode. *)
Definition normal_url_char (strict : bool) : list Z :=
  let T := fun v => if strict then 0 else v in
  [0; Z.lor (T 2) (T 16); 0; 0;
   Z.lor 2 (Z.lor 4 (Z.lor 16 (Z.lor 32 (Z.lor 64 128)))); 255; 255; 127;
   255; 255; 255; 255; 255; 255; 255; 127] ++ replicate 16 0.

Definition BIT_AT (a : list Z) (i : Z) : bool :=
  Z.testbit (nth (Z.to_nat (Z.shiftr i 3)) a 0) (Z.land i 7).

Definition IS_URL_CHAR (strict : bool) (c : Z) : bool :=
  BIT_AT (normal_url_char strict) c || (negb strict && negb (Z.land c 0x80 =? 0)).

Definition IS_HOST_CHAR (strict : bool) (c : Z) : bool :=
  IS_ALPHANUM c || (c =? 46) || (c =? 45) || (negb strict && (c =? 95)).

(** ** Data *)

(** The states of [enum state] that the URL parser uses. *)
Inductive state :=
  | s_dead | s_req_spaces_before_url | s_req_schema | s_req_schema_slash | s_req_schema_slash_slash
  | s_req_server_start | s_req_server | s_req_server_with_at | s_req_path
  | s_req_query_string_start | s_req_query_string | s_req_fragment_start | s_req_fragment.

Inductive http_host_state :=
  | s_http_host_dead | s_http_userinfo_start | s_http_userinfo | s_http_host_start
  | s_http_host_v6_start | s_http_host | s_http_host_v6 | s_http_host_v6_end
  | s_http_host_v6_zone_start | s_http_host_v6_zone | s_http_host_port_start | s_http_host_port.

Inductive url_field := UF_SCHEMA | UF_HOST | UF_PORT | UF_PATH | UF_QUERY | UF_FRAGMENT | UF_USERINFO.

#[export] Instance state_eq_dec : EqDecision state.
Proof. solve_decision. Defined.
#[export] Instance http_host_state_eq_dec : EqDecision http_host_state.
Proof. solve_decision. Defined.
#[export] Instance url_field_eq_dec : EqDecision url_field.
Proof. solve_decision. Defined.

Definition uf_num (f : url_field) : nat :=
  match f with
  | UF_SCHEMA => 0 | UF_HOST => 1 | UF_PORT => 2 | UF_PATH => 3
  | UF_QUERY => 4 | UF_FRAGMENT => 5 | UF_USERINFO => 6
  end.

(** [struct http_parser_url]: [off] and [len] are [uint16_t]. *)
Record http_parser_url := mkUrl {
  field_set : Z;
  port : Z;
  field_data : list (Z * Z)
}.

Definition field_off (u : http_parser_url) (f : url_field) : Z := (nth (uf_num f) (field_data u) (0, 0)).1.
Definition field_len (u : http_parser_url) (f : url_field) : Z := (nth (uf_num f) (field_data u) (0, 0)).2.
Definition has_field (u : http_parser_url) (f : url_field) : bool := Z.testbit (field_set u) (Z.of_nat (uf_num f)).

Definition set_data (u : http_parser_url) (f : url_field) (off len : Z) : http_parser_url :=
  mkUrl (field_set u) (port u) (<[uf_num f := (u16 off, u16 len)]> (field_data u)).
Definition mark_field (u : http_parser_url) (f : url_field) : http_parser_url :=
  mkUrl (Z.lor (field_set u) (Z.shiftl 1 (Z.of_nat (uf_num f)))) (port u) (field_data u).

Definition http_parser_url_init : http_parser_url := mkUrl 0 0 (replicate 7 (0, 0)).

(** ** The state machine of the URL *)

Section Parser.
Variable strict : bool.

Definition server_char (ch : Z) : state :=
  if ch =? 47 then s_req_path else
  if ch =? 63 then s_req_query_string_start else
  if ch =? 64 then s_req_server_with_at else
  if IS_USERINFO_CHAR ch || (ch =? 91) || (ch =? 93) then s_req_server else s_dead.

Definition parse_url_char (s : state) (ch : Z) : state :=
  if (ch =? 32) || (ch =? 13) || (ch =? 10) then s_dead else
  if strict && ((ch =? 9) || (ch =? 12)) then s_dead else
  match s with
  | s_req_spaces_before_url =>
      if (ch =? 47) || (ch =? 42) then s_req_path else
      if IS_ALPHA ch then s_req_schema else s_dead
  | s_req_schema =>
      if IS_ALPHA ch then s else if ch =? 58 then s_req_schema_slash else s_dead
  | s_req_schema_slash => if ch =? 47 then s_req_schema_slash_slash else s_dead
  | s_req_schema_slash_slash => if ch =? 47 then s_req_server_start else s_dead
  | s_req_server_with_at => if ch =? 64 then s_dead else server_char ch
  | s_req_server_start | s_req_server => server_char ch
  | s_req_path =>
      if IS_URL_CHAR strict ch then s else
      if ch =? 63 then s_req_query_string_start else
      if ch =? 35 then s_req_fragment_start else s_dead
  | s_req_query_string_start | s_req_query_string =>
      if IS_URL_CHAR strict ch then s_req_query_string else
      if ch =? 63 then s_req_query_string else
      if ch =? 35 then s_req_fragment_start else s_dead
  | s_req_fragment_start =>
      if IS_URL_CHAR strict ch then s_req_fragment else
      if ch =? 63 then s_req_fragment else
      if ch =? 35 then s else s_dead
  | s_req_fragment =>
      if IS_URL_CHAR strict ch then s else
      if (ch =? 63) || (ch =? 35) then s else s_dead
  | s_dead => s_dead
  end.

Definition http_parse_host_char (s : http_host_state) (ch : Z) : http_host_state :=
  let v6_start := fun ch =>
    if IS_HEX ch || (ch =? 58) || (ch =? 46) then s_http_host_v6 else
    if bool_decide (s = s_http_host_v6) && (ch =? 37) then s_http_host_v6_zone_start
    else s_http_host_dead in
  let zone_start := fun ch =>
    if IS_ALPHANUM ch || (ch =? 37) || (ch =? 46) || (ch =? 45) || (ch =? 95) || (ch =? 126)
    then s_http_host_v6_zone else s_http_host_dead in
  match s with
  | s_http_userinfo | s_http_userinfo_start =>
      if ch =? 64 then s_http_host_start else
      if IS_USERINFO_CHAR ch then s_http_userinfo else s_http_host_dead
  | s_http_host_start =>
      if ch =? 91 then s_http_host_v6_start else
      if IS_HOST_CHAR strict ch then s_http_host else s_http_host_dead
  | s_http_host =>
      if IS_HOST_CHAR strict ch then s_http_host else
      if ch =? 58 then s_http_host_port_start else s_http_host_dead
  | s_http_host_v6_end => if ch =? 58 then s_http_host_port_start else s_http_host_dead
  | s_http_host_v6 => if ch =? 93 then s_http_host_v6_end else v6_start ch
  | s_http_host_v6_start => v6_start ch
  | s_http_host_v6_zone => if ch =? 93 then s_http_host_v6_end else zone_start ch
  | s_http_host_v6_zone_start => zone_start ch
  | s_http_host_port | s_http_host_port_start =>
      if IS_NUM ch then s_http_host_port else s_http_host_dead
  | s_http_host_dead => s_http_host_dead
  end.

(** ** The host *)

(** The body of the [for] after the transition from [s] to [new_s] at offset
    [pos]. *)
Definition host_update (s new_s : http_host_state) (pos : Z) (u : http_parser_url) : http_parser_url :=
  match new_s with
  | s_http_host | s_http_host_v6 =>
      let off := if bool_decide (s = new_s) then field_off u UF_HOST else pos in
      set_data u UF_HOST off (field_len u UF_HOST + 1)
  | s_http_host_v6_zone_start | s_http_host_v6_zone =>
      set_data u UF_HOST (field_off u UF_HOST) (field_len u UF_HOST + 1)
  | s_http_host_port =>
      let u := if bool_decide (s = s_http_host_port) then u
               else mark_field (set_data u UF_PORT pos 0) UF_PORT in
      set_data u UF_PORT (field_off u UF_PORT) (field_len u UF_PORT + 1)
  | s_http_userinfo =>
      let u := if bool_decide (s = s_http_userinfo) then u
               else mark_field (set_data u UF_USERINFO pos 0) UF_USERINFO in
      set_data u UF_USERINFO (field_off u UF_USERINFO) (field_len u UF_USERINFO + 1)
  | _ => u
  end.

(** [None]: the host is invalid. *)
Fixpoint host_loop (s : http_host_state) (pos : Z) (buf : bytes) (u : http_parser_url)
    : option (http_host_state * http_parser_url) :=
  match buf with
  | [] => Some (s, u)
  | ch :: buf' =>
      let new_s := http_parse_host_char s ch in
      if bool_decide (new_s = s_http_host_dead) then None
      else host_loop new_s (pos + 1) buf' (host_update s new_s pos u)
  end.

Definition host_end_ok (s : http_host_state) : bool :=
  match s with
  | s_http_host_start | s_http_host_v6_start | s_http_host_v6 | s_http_host_v6_zone_start
  | s_http_host_v6_zone | s_http_host_port_start | s_http_userinfo | s_http_userinfo_start => false
  | _ => true
  end.

Definition http_parse_host (buf : bytes) (u : http_parser_url) (found_at : bool) : res (option http_parser_url) :=
  if negb (has_field u UF_HOST) then Fault AssertFailed else
  let off := Z.to_nat (field_off u UF_HOST) in
  host ← mread buf off (Z.to_nat (field_len u UF_HOST));
  let u := set_data u UF_HOST (field_off u UF_HOST) 0 in
  let s := if found_at then s_http_userinfo_start else s_http_host_start in
  match host_loop s (Z.of_nat off) host u with
  | None => Ok None
  | Some (s, u) => Ok (if host_end_ok s then Some u else None)
  end.

(** ** The URL *)

Record url_st := mkUrlSt {
  us_state : state;
  us_old_uf : option url_field;
  us_found_at : bool;
  us_url : http_parser_url
}.

(** One iteration at offset [pos]; [None]: return 1. *)
Definition url_step (st : url_st) (pos : Z) (ch : Z) : res (option url_st) :=
  let s := parse_url_char (us_state st) ch in
  let advance := fun (found_at : bool) (uf : url_field) =>
    let u := us_url st in
    if bool_decide (us_old_uf st = Some uf) then
      Ok (Some (mkUrlSt s (us_old_uf st) found_at (set_data u uf (field_off u uf) (field_len u uf + 1))))
    else
      Ok (Some (mkUrlSt s (Some uf) found_at (mark_field (set_data u uf pos 1) uf))) in
  match s with
  | s_dead => Ok None
  | s_req_schema_slash | s_req_schema_slash_slash | s_req_server_start
  | s_req_query_string_start | s_req_fragment_start =>
      Ok (Some (mkUrlSt s (us_old_uf st) (us_found_at st) (us_url st)))
  | s_req_schema => advance (us_found_at st) UF_SCHEMA
  | s_req_server_with_at => advance true UF_HOST
  | s_req_server => advance (us_found_at st) UF_HOST
  | s_req_path => advance (us_found_at st) UF_PATH
  | s_req_query_string => advance (us_found_at st) UF_QUERY
  | s_req_fragment => advance (us_found_at st) UF_FRAGMENT
  | s_req_spaces_before_url => Fault AssertFailed
  end.

Fixpoint url_loop (st : url_st) (pos : Z) (buf : bytes) : res (option url_st) :=
  match buf with
  | [] => Ok (Some st)
  | ch :: buf' =>
      r ← url_step st pos ch;
      match r with None => Ok None | Some st => url_loop st (pos + 1) buf' end
  end.

(** [strtoul(s, NULL, 10)] on a string that starts with a digit, as the port
    does; it saturates. *)
Fixpoint digit_run (s : bytes) : bytes :=
  match s with c :: s' => if isdigit c then c :: digit_run s' else [] | [] => [] end.
Definition strtoul10 (s : bytes) : Z := Z.min ULLONG_MAX (undec (digit_run s)).

(** [Some u]: the result 0 and the URL; [None]: the result 1. *)
Definition http_parser_parse_url (buf : bytes) (is_connect : bool) (u : http_parser_url)
    : res (option http_parser_url) :=
  let u := mkUrl 0 0 (field_data u) in
  let s := if is_connect then s_req_server_start else s_req_spaces_before_url in
  r ← url_loop (mkUrlSt s None false u) 0 buf;
  match r with
  | None => Ok None
  | Some st =>
      let u := us_url st in
      if has_field u UF_SCHEMA && negb (has_field u UF_HOST) then Ok None else
      r ← (if has_field u UF_HOST then http_parse_host buf u (us_found_at st) else Ok (Some u));
      match r with
      | None => Ok None
      | Some u =>
          if is_connect && negb (field_set u =? 6) then Ok None else
          if has_field u UF_PORT then
            let v := strtoul10 (drop (Z.to_nat (field_off u UF_PORT)) buf) in
            if v >? 0xffff then Ok None
            else Ok (Some (mkUrl (field_set u) (u16 v) (field_data u)))
          else Ok (Some u)
      end
  end.

(** The bytes of a component. *)
Definition field_value (buf : bytes) (u : http_parser_url) (f : url_field) : bytes :=
  take (Z.to_nat (field_len u f)) (drop (Z.to_nat (field_off u f)) buf).
End Parser.

(** ** Fields *)

Lemma u16_small z : 0 <= z < 2 ^ 16 -> u16 z = z.
Proof. intros. unfold u16. by apply Z.mod_small. Qed.

Lemma uf_num_inj f g : uf_num f = uf_num g -> f = g.
Proof. by destruct f, g. Qed.

Lemma uf_num_lt f : (uf_num f < 7)%nat.
Proof. destruct f; cbn; lia. Qed.

Definition url_ok (u : http_parser_url) : Prop := length (field_data u) = 7%nat /\ 0 <= field_set u.

Lemma set_data_ok u f o l : url_ok u -> url_ok (set_data u f o l).
Proof. intros [H ?]. split; cbn; [by rewrite length_insert|done]. Qed.

Lemma mark_field_ok u f : url_ok u -> url_ok (mark_field u f).
Proof. intros [H ?]. split; cbn; [done|]. apply Z.lor_nonneg. split; [done|]. apply Z.shiftl_nonneg. lia. Qed.

Lemma field_set_data u f g o l : url_ok u ->
  nth (uf_num g) (field_data (set_data u f o l)) (0, 0) =
  if decide (f = g) then (u16 o, u16 l) else nth (uf_num g) (field_data u) (0, 0).
Proof.
  intros [H _]. cbn. rewrite !nth_lookup. case_decide as E.
  - subst. rewrite list_lookup_insert_eq; [done|]. rewrite H. apply uf_num_lt.
  - rewrite list_lookup_insert_ne; [done|]. intros ?%uf_num_inj. done.
Qed.

Lemma field_off_set u f g o l : url_ok u ->
  field_off (set_data u f o l) g = if decide (f = g) then u16 o else field_off u g.
Proof. intros H. unfold field_off. rewrite field_set_data by done. by case_decide. Qed.

Lemma field_len_set u f g o l : url_ok u ->
  field_len (set_data u f o l) g = if decide (f = g) then u16 l else field_len u g.
Proof. intros H. unfold field_len. rewrite field_set_data by done. by case_decide. Qed.

Lemma has_field_set u f g o l : has_field (set_data u f o l) g = has_field u g.
Proof. done. Qed.

Lemma field_off_mark u f g : field_off (mark_field u f) g = field_off u g.
Proof. done. Qed.

Lemma field_len_mark u f g : field_len (mark_field u f) g = field_len u g.
Proof. done. Qed.

Lemma has_field_mark u f g : has_field (mark_field u f) g = bool_decide (f = g) || has_field u g.
Proof.
  unfold has_field, mark_field. cbn. rewrite Z.lor_spec, Z.shiftl_spec by lia.
  rewrite orb_comm. f_equal. case_bool_decide as E.
  - subst. by rewrite Z.sub_diag.
  - destruct (Z.of_nat (uf_num g) - Z.of_nat (uf_num f)) eqn:D; [|by destruct p|done].
    exfalso. apply E, uf_num_inj. lia.
Qed.

Create Rewrite HintDb url.
#[export] Hint Rewrite field_off_set field_len_set using (auto using set_data_ok, mark_field_ok) : url.
#[export] Hint Rewrite has_field_set field_off_mark field_len_mark has_field_mark : url.
#[export] Hint Resolve set_data_ok mark_field_ok : core.

(** A component lies before [n]. *)
Definition field_within (u : http_parser_url) (f : url_field) (n : Z) : Prop :=
  has_field u f = true -> 0 <= field_off u f /\ 0 <= field_len u f /\ field_off u f + field_len u f <= n.

Section Bounds.
Variable strict : bool.

Lemma parse_url_char_not_start s ch : parse_url_char strict s ch <> s_req_spaces_before_url.
Proof.
  unfold parse_url_char, server_char. destruct s; repeat case_match; done.
Qed.

(** What the loop over the URL keeps at offset [pos]. *)
Record loop_inv (st : url_st) (pos : Z) : Prop := {
  li_ok : url_ok (us_url st);
  li_within : forall f, field_within (us_url st) f pos;
  li_old : forall f, us_old_uf st = Some f -> has_field (us_url st) f = true;
  li_port : has_field (us_url st) UF_PORT = false;
  li_user : has_field (us_url st) UF_USERINFO = false
}.

Lemma loop_inv_mono st st' pos pos' :
  us_url st' = us_url st -> us_old_uf st' = us_old_uf st -> loop_inv st pos -> pos <= pos' -> loop_inv st' pos'.
Proof.
  intros Hu Ho [H1 H2 H3 H4 H5] Hp. split; rewrite ?Hu, ?Ho; try done.
  intros f Hf. specialize (H2 f Hf). lia.
Qed.

Lemma advance_inv st pos s b uf :
  loop_inv st pos -> 0 <= pos < 2 ^ 16 - 1 -> uf <> UF_PORT -> uf <> UF_USERINFO ->
  loop_inv (if bool_decide (us_old_uf st = Some uf)
            then mkUrlSt s (us_old_uf st) b
                   (set_data (us_url st) uf (field_off (us_url st) uf) (field_len (us_url st) uf + 1))
            else mkUrlSt s (Some uf) b (mark_field (set_data (us_url st) uf pos 1) uf)) (pos + 1).
Proof.
  intros [H1 H2 H3 H4 H5] Hp Np Nu. case_bool_decide as E.
  - pose proof (H2 uf (H3 uf E)) as (Ho & Hl & Hb). split; cbn [us_url us_old_uf]; auto.
    intros f. unfold field_within. autorewrite with url. case_decide as Ef.
    + subst f. intros _. rewrite !u16_small by lia. lia.
    + intros Hf. specialize (H2 f Hf). lia.
  - split; cbn [us_url us_old_uf]; auto.
    + intros f. unfold field_within. autorewrite with url. case_decide as Ef.
      * intros _. rewrite !u16_small by lia. lia.
      * rewrite bool_decide_eq_false_2 by done. cbn. intros Hf. specialize (H2 f Hf). lia.
    + intros f [= <-]. autorewrite with url. by rewrite bool_decide_eq_true_2.
    + autorewrite with url. by rewrite bool_decide_eq_false_2.
    + autorewrite with url. by rewrite bool_decide_eq_false_2.
Qed.

Lemma url_step_inv st pos ch :
  loop_inv st pos -> 0 <= pos < 2 ^ 16 - 1 ->
  exists r, url_step strict st pos ch = Ok r /\ (forall st', r = Some st' -> loop_inv st' (pos + 1)).
Proof.
  intros Hi Hp. unfold url_step. pose proof (parse_url_char_not_start (us_state st) ch) as Hns.
  destruct (parse_url_char strict (us_state st) ch); try done;
    try (eexists; split; [reflexivity|]; intros st' [= <-]; by eapply loop_inv_mono; [..|exact Hi|lia]);
    try (by eexists; split; [reflexivity|]);
    match goal with |- context [Some ?f] =>
      match f with UF_SCHEMA => idtac | UF_HOST => idtac | UF_PATH => idtac | UF_QUERY => idtac | UF_FRAGMENT => idtac end;
      match goal with |- context [mkUrlSt ?s (us_old_uf st) ?b] =>
        pose proof (advance_inv st pos s b f Hi Hp ltac:(done) ltac:(done)) as Ha end
    end; cbn in Ha; case_bool_decide; (eexists; split; [reflexivity|]); by intros st' [= <-].
Qed.

Lemma url_loop_inv buf : forall st pos,
  loop_inv st pos -> 0 <= pos -> pos + Z.of_nat (length buf) < 2 ^ 16 ->
  exists r, url_loop strict st pos buf = Ok r /\
    (forall st', r = Some st' -> loop_inv st' (pos + Z.of_nat (length buf))).
Proof.
  induction buf as [|ch buf IH]; intros st pos Hi Hp Hl; cbn [url_loop length] in *.
  - exists (Some st). split; [done|]. intros st' [= <-]. by rewrite Z.add_0_r.
  - destruct (url_step_inv st pos ch Hi ltac:(lia)) as (r & -> & Hr). rewrite bind_ok.
    destruct r as [st1|]; [|by exists None].
    destruct (IH st1 (pos + 1) (Hr st1 eq_refl) ltac:(lia) ltac:(lia)) as (r & -> & Hr').
    exists r. split; [done|]. intros st' E. specialize (Hr' st' E).
    replace (pos + Z.of_nat (S (length buf))) with (pos + 1 + Z.of_nat (length buf)) by lia. done.
Qed.

(** Before its first byte the host is empty. *)
Definition host_early (s : http_host_state) : bool :=
  match s with
  | s_http_userinfo_start | s_http_userinfo | s_http_host_start | s_http_host_v6_start => true
  | _ => false
  end.

(** What the loop over the host keeps; [n] bounds the other components. *)
Record host_inv (s : http_host_state) (u : http_parser_url) (pos n : Z) : Prop := {
  hi_ok : url_ok u;
  hi_other : forall f, f <> UF_HOST -> f <> UF_PORT -> f <> UF_USERINFO -> field_within u f n;
  hi_within : forall f, f = UF_HOST \/ f = UF_PORT \/ f = UF_USERINFO -> field_within u f pos;
  hi_host : has_field u UF_HOST = true;
  hi_early : host_early s = true -> field_len u UF_HOST = 0;
  hi_port : s = s_http_host_port -> has_field u UF_PORT = true;
  hi_user : s = s_http_userinfo -> has_field u UF_USERINFO = true
}.

(** Which transitions of the host machine there are into a state. *)
Lemma host_char_enter s ch :
  let s' := http_parse_host_char strict s ch in
  (s' = s_http_host -> s <> s_http_host -> host_early s = true) /\
  (s' = s_http_host_v6 -> s <> s_http_host_v6 -> host_early s = true) /\
  (host_early s' = true -> host_early s = true).
Proof.
  cbn zeta. unfold http_parse_host_char. destruct s; repeat case_match; split_and!; done.
Qed.

(** A component is extended at [pos]: it starts there or continues. *)
Lemma extend_within u f pos o l :
  url_ok u -> 0 <= pos < 2 ^ 16 - 1 -> 0 <= o -> 0 <= l -> o + l <= pos ->
  forall g n, (g <> f -> field_within u g n) -> pos + 1 <= n -> field_within (set_data u f o (l + 1)) g n.
Proof.
  intros Hu Hp Ho Hl Hb g n Hg Hn. unfold field_within. autorewrite with url. case_decide as E.
  - intros _. rewrite !u16_small by lia. lia.
  - by apply Hg.
Qed.

Lemma host_inv_host s s' u pos n o :
  host_inv s u pos n -> 0 <= pos < 2 ^ 16 - 1 -> 0 <= o -> o + field_len u UF_HOST <= pos ->
  host_early s' = false -> s' <> s_http_host_port -> s' <> s_http_userinfo ->
  host_inv s' (set_data u UF_HOST o (field_len u UF_HOST + 1)) (pos + 1) n.
Proof.
  intros [H1 H2 H3 H4 H5 H6 H7] Hp Ho Hb He Np Nu.
  pose proof (H3 UF_HOST (or_introl eq_refl) H4) as (_ & Hl & _).
  split; auto; try congruence.
  - intros f Nh Npt Nus. unfold field_within. autorewrite with url. rewrite !decide_False by done. by apply H2.
  - intros f Hf. apply (extend_within u UF_HOST pos); auto; [|lia].
    intros _ Hh. specialize (H3 f Hf Hh). lia.
Qed.

Lemma host_inv_skip s s' u pos n :
  host_inv s u pos n -> (host_early s' = true -> host_early s = true) ->
  s' <> s_http_host_port -> s' <> s_http_userinfo -> host_inv s' u (pos + 1) n.
Proof.
  intros [H1 H2 H3 H4 H5 H6 H7] He Np Nu. split; auto; try congruence.
  intros f Hf Hh. specialize (H3 f Hf Hh). lia.
Qed.

(** The component [g] starts at [pos], unless it already has. *)
Definition started (b : bool) (u : http_parser_url) (g : url_field) (pos : Z) : http_parser_url :=
  if b then u else mark_field (set_data u g pos 0) g.

Lemma started_spec b u g pos :
  url_ok u -> 0 <= pos < 2 ^ 16 -> (b = true -> has_field u g = true) -> field_within u g pos ->
  let u' := started b u g pos in
  url_ok u' /\ has_field u' g = true /\ 0 <= field_off u' g /\ 0 <= field_len u' g /\
  field_off u' g + field_len u' g <= pos /\
  (forall f, f <> g -> has_field u' f = has_field u f /\ field_off u' f = field_off u f /\ field_len u' f = field_len u f).
Proof.
  intros Hu Hp Hb Hw. unfold started. destruct b; cbn zeta.
  - destruct (Hw (Hb eq_refl)) as (? & ? & ?). split_and!; auto.
  - autorewrite with url. rewrite !decide_True, !u16_small by (done || lia).
    rewrite bool_decide_eq_true_2 by done. split_and!; auto; try lia.
    intros f Nf. autorewrite with url. rewrite !decide_False by congruence.
    by rewrite bool_decide_eq_false_2 by congruence.
Qed.

Lemma host_inv_ext s s' u pos n g b :
  host_inv s u pos n -> 0 <= pos < 2 ^ 16 - 1 -> g = UF_PORT \/ g = UF_USERINFO ->
  (b = true -> has_field u g = true) -> (host_early s' = true -> host_early s = true) ->
  (s' = s_http_host_port -> g = UF_PORT) -> (s' = s_http_userinfo -> g = UF_USERINFO) ->
  let u' := started b u g pos in
  host_inv s' (set_data u' g (field_off u' g) (field_len u' g + 1)) (pos + 1) n.
Proof.
  intros [H1 H2 H3 H4 H5 H6 H7] Hp Hg Hb He Sp Su u'.
  destruct (started_spec b u g pos H1 ltac:(lia) Hb (H3 g ltac:(tauto))) as (Hu' & Hh & Ho & Hl & Hbd & Hsame).
  fold u' in Hu', Hh, Ho, Hl, Hbd, Hsame. clearbody u'.
  assert (UF_HOST <> g) as Nhost by (destruct Hg; congruence).
  assert (forall f m, f <> g -> field_within u f m -> field_within u' f m) as Hmv.
  { intros f m Nf Hw. destruct (Hsame f Nf) as (E1 & E2 & E3). unfold field_within. by rewrite E1, E2, E3. }
  destruct (Hsame UF_HOST Nhost) as (E1 & E2 & E3).
  split; auto; rewrite ?has_field_set.
  - intros f Nh Npt Nus. assert (f <> g) by (destruct Hg; congruence).
    unfold field_within. autorewrite with url. rewrite !decide_False by congruence. apply Hmv; auto.
  - intros f Hf. apply (extend_within u' g pos); auto; [|lia]. intros Nf. apply Hmv; auto.
    intros Hfh. specialize (H3 f Hf Hfh). lia.
  - by rewrite E1.
  - intros Hs. autorewrite with url. rewrite decide_False by congruence. rewrite E3. auto.
  - intros E. by rewrite <- (Sp E).
  - intros E. by rewrite <- (Su E).
Qed.

Lemma host_update_inv s ch u pos n :
  host_inv s u pos n -> http_parse_host_char strict s ch <> s_http_host_dead -> 0 <= pos < 2 ^ 16 - 1 ->
  host_inv (http_parse_host_char strict s ch) (host_update s (http_parse_host_char strict s ch) pos u) (pos + 1) n.
Proof.
  intros Hi Hd Hp. destruct (host_char_enter s ch) as (T1 & T2 & T3).
  set (s' := http_parse_host_char strict s ch) in *. clearbody s'.
  assert (Hi' := Hi). destruct Hi' as [H1 H2 H3 H4 H5 H6 H7].
  pose proof (H3 UF_HOST (or_introl eq_refl) H4) as (Hho & Hhl & Hhb).
  destruct s'; cbn [host_update]; try done;
    try (by apply (host_inv_skip s)); try (apply (host_inv_host s); auto; lia).
  - apply (host_inv_ext s _ u pos n UF_USERINFO (bool_decide (s = s_http_userinfo))); auto; try done.
    rewrite bool_decide_eq_true. auto.
  - case_bool_decide as E; apply (host_inv_host s); auto; try lia; rewrite (H5 (T1 eq_refl E)); lia.
  - case_bool_decide as E; apply (host_inv_host s); auto; try lia; rewrite (H5 (T2 eq_refl E)); lia.
  - apply (host_inv_ext s _ u pos n UF_PORT (bool_decide (s = s_http_host_port))); auto; try done.
    rewrite bool_decide_eq_true. auto.
Qed.

Lemma host_loop_inv n buf : forall s u pos,
  host_inv s u pos n -> 0 <= pos -> pos + Z.of_nat (length buf) <= n -> n < 2 ^ 16 ->
  forall s' u', host_loop strict s pos buf u = Some (s', u') ->
  url_ok u' /\ forall f, field_within u' f n.
Proof.
  induction buf as [|ch buf IH]; intros s u pos Hi Hp Hl Hn s' u' H; cbn [host_loop length] in *.
  - injection H as <- <-. destruct Hi as [H1 H2 H3]. split; [done|]. intros f.
    destruct (decide (f = UF_HOST \/ f = UF_PORT \/ f = UF_USERINFO)) as [Hf|Hf].
    + intros Hh. specialize (H3 f Hf Hh). lia.
    + apply H2; tauto.
  - case_bool_decide as E; [done|]. eapply IH; [| | | |exact H]; try lia.
    apply host_update_inv; auto; lia.
Qed.

Lemma http_parse_host_ok buf st :
  loop_inv st (Z.of_nat (length buf)) -> has_field (us_url st) UF_HOST = true -> Z.of_nat (length buf) < 2 ^ 16 ->
  exists r, http_parse_host strict buf (us_url st) (us_found_at st) = Ok r /\
    forall u, r = Some u -> url_ok u /\ forall f, field_within u f (Z.of_nat (length buf)).
Proof.
  intros [H1 H2 H3 H4 H5] Hh Hn. unfold http_parse_host. rewrite Hh. cbn [negb].
  destruct (H2 UF_HOST Hh) as (Ho & Hl & Hb). rewrite mread_ok by lia. rewrite bind_ok.
  set (host := take _ _). set (u0 := set_data _ _ _ 0). set (s := if us_found_at st then _ else _).
  assert (host_inv s u0 (field_off (us_url st) UF_HOST) (Z.of_nat (length buf))) as Hi.
  { unfold u0. split; auto.
    - intros f Nh _ _. unfold field_within. autorewrite with url. rewrite !decide_False by done. apply H2.
    - intros f Hf. unfold field_within. autorewrite with url. case_decide as E.
      + intros _. rewrite !u16_small by lia. lia.
      + destruct Hf as [->|[->| ->]]; [done| |]; congruence.
    - intros _. autorewrite with url. by rewrite decide_True.
    - unfold s. by destruct (us_found_at st).
    - unfold s. by destruct (us_found_at st). }
  destruct (host_loop strict s _ host u0) as [[s' u']|] eqn:E; [|by exists None].
  eexists. split; [reflexivity|]. destruct (host_end_ok s'); [|done]. intros u [= <-].
  eapply host_loop_inv in E; [exact E|..]; try lia.
  - by rewrite Z2Nat.id by lia.
  - unfold host. len_lia.
Qed.

(** The parser never faults, and every component it reports lies in the
    input. *)
Lemma parse_url_bounds buf is_connect u0 :
  length (field_data u0) = 7%nat -> Z.of_nat (length buf) < 2 ^ 16 ->
  exists r, http_parser_parse_url strict buf is_connect u0 = Ok r /\
    forall u, r = Some u -> forall f, field_within u f (Z.of_nat (length buf)).
Proof.
  intros H7 Hn. unfold http_parser_parse_url.
  set (st0 := mkUrlSt _ None false _).
  assert (loop_inv st0 0) as Hi.
  { split; try done. intros f Hf. cbn in Hf. unfold has_field in Hf. cbn in Hf. by rewrite Z.bits_0 in Hf. }
  destruct (url_loop_inv buf st0 0 Hi ltac:(lia) ltac:(lia)) as (r & -> & Hr). rewrite bind_ok.
  destruct r as [st|]; [|by exists None]. specialize (Hr st eq_refl). rewrite Z.add_0_l in Hr.
  destruct (has_field (us_url st) UF_SCHEMA && negb (has_field (us_url st) UF_HOST)); [by exists None|].
  assert (exists r, (if has_field (us_url st) UF_HOST then http_parse_host strict buf (us_url st) (us_found_at st)
                     else Ok (Some (us_url st))) = Ok r /\
    forall u, r = Some u -> forall f, field_within u f (Z.of_nat (length buf))) as (r & -> & Hw).
  { destruct (has_field (us_url st) UF_HOST) eqn:E.
    - destruct (http_parse_host_ok buf st Hr E Hn) as (r & -> & Hw). exists r. split; [done|]. intros u Eu. by apply Hw.
    - eexists. split; [reflexivity|]. intros u [= <-]. apply Hr. }
  rewrite bind_ok. destruct r as [u|]; [|by exists None]. specialize (Hw u eq_refl).
  destruct (is_connect && negb (field_set u =? 6)); [by exists None|].
  destruct (has_field u UF_PORT); [|exists (Some u); split; [done|]; by intros ? [= <-]].
  destruct (_ >? _); [by exists None|]. eexists. split; [reflexivity|]. by intros ? [= <-].
Qed.
End Bounds.

(** ** Origin-form URLs: [/path?query#fragment] *)

Section Origin.
Variable strict : bool.

Definition query_char (c : Z) : bool := IS_URL_CHAR strict c || (c =? 63).

Definition print_url (path : bytes) (query fragment : option bytes) : bytes :=
  path ++ match query with Some q => 63 :: q | None => [] end
       ++ match fragment with Some f => 35 :: f | None => [] end.

Definition origin_wf (path : bytes) (query fragment : option bytes) : bool :=
  match path with c :: p => (c =? 47) && forallb (IS_URL_CHAR strict) p | [] => false end &&
  match query with Some q => forallb query_char q | None => true end &&
  match fragment with Some f => forallb query_char f | None => true end.

(** The component [f] with the value [s] found at [pos]. *)
Definition put_field (u : http_parser_url) (f : url_field) (pos : nat) (s : bytes) : http_parser_url :=
  match s with
  | [] => u
  | _ => mark_field (set_data u f (Z.of_nat pos) (Z.of_nat (length s))) f
  end.

Definition opt_len (o : option bytes) : nat := match o with Some s => S (length s) | None => O end.

Definition origin_url (u : http_parser_url) (path : bytes) (query fragment : option bytes) : http_parser_url :=
  let u := put_field (mkUrl 0 0 (field_data u)) UF_PATH 0 path in
  let u := match query with Some q => put_field u UF_QUERY (length path + 1) q | None => u end in
  match fragment with
  | Some f => put_field u UF_FRAGMENT (length path + opt_len query + 1) f
  | None => u
  end.

Lemma url_char_live c :
  IS_URL_CHAR strict c = true ->
  ((c =? 32) || (c =? 13) || (c =? 10)) = false /\ (strict && ((c =? 9) || (c =? 12))) = false.
Proof.
  intros H.
  assert (forall x, IS_URL_CHAR strict x = false -> (c =? x) = false) as Hx.
  { intros x Hx. apply Z.eqb_neq. intros ->. congruence. }
  rewrite !Hx by (by destruct strict). split; [done|].
  destruct strict; [|done]. by rewrite !Hx.
Qed.

Lemma url_loop_app a : forall st pos b,
  url_loop strict st pos (a ++ b) =
  (r ← url_loop strict st pos a;
   match r with None => Ok None | Some st' => url_loop strict st' (pos + Z.of_nat (length a)) b end).
Proof.
  induction a as [|c a IH]; intros st pos b; cbn [app url_loop length].
  - rewrite bind_ok. f_equal. lia.
  - destruct (url_step strict st pos c) as [[st'|]|]; cbn; [|done..].
    rewrite IH. destruct (url_loop strict st' (pos + 1) a) as [[st''|]|]; cbn; [|done..]. f_equal. lia.
Qed.

(** The component a state of the origin form belongs to. *)
Definition state_field (s : state) : option url_field :=
  match s with
  | s_req_path => Some UF_PATH
  | s_req_query_string => Some UF_QUERY
  | s_req_fragment => Some UF_FRAGMENT
  | _ => None
  end.

Lemma url_step_field st pos c s f :
  parse_url_char strict (us_state st) c = s -> state_field s = Some f ->
  url_step strict st pos c = Ok (Some (
    if bool_decide (us_old_uf st = Some f)
    then mkUrlSt s (us_old_uf st) (us_found_at st)
           (set_data (us_url st) f (field_off (us_url st) f) (field_len (us_url st) f + 1))
    else mkUrlSt s (Some f) (us_found_at st) (mark_field (set_data (us_url st) f pos 1) f))).
Proof.
  intros Hs Hf. unfold url_step. rewrite Hs. destruct s; try done; injection Hf as <-; by case_bool_decide.
Qed.

Lemma set_data_mark u f g o l : set_data (mark_field u f) g o l = mark_field (set_data u g o l) f.
Proof. done. Qed.

Lemma set_data_twice u f o l o' l' : set_data (set_data u f o l) f o' l' = set_data u f o' l'.
Proof. unfold set_data. cbn. by rewrite list_insert_insert_eq. Qed.

(** A run of bytes of one component. *)
Lemma field_run st pos s f c l :
  url_ok (us_url st) -> parse_url_char strict (us_state st) c = s -> state_field s = Some f ->
  us_old_uf st <> Some f -> (forall x, x ∈ l -> parse_url_char strict s x = s) ->
  0 <= pos -> pos + Z.of_nat (length l) + 1 < 2 ^ 16 ->
  url_loop strict st pos (c :: l) =
    Ok (Some (mkUrlSt s (Some f) (us_found_at st)
               (mark_field (set_data (us_url st) f pos (Z.of_nat (length l) + 1)) f))).
Proof.
  intros Hu Hc Hf Ho. induction l as [|x l IH] using rev_ind; intros Hl Hp Hn.
  - cbn [url_loop]. rewrite (url_step_field st pos c s f Hc Hf), bind_ok.
    by rewrite bool_decide_eq_false_2.
  - rewrite length_app in Hn. cbn [length] in Hn. rewrite app_comm_cons, url_loop_app, IH; [|set_solver|lia..].
    rewrite bind_ok. cbn [url_loop].
    rewrite (url_step_field _ _ x s f); [|cbn; apply Hl; set_solver|done].
    cbn [us_old_uf us_url us_found_at us_state]. rewrite bool_decide_eq_true_2 by done. rewrite bind_ok.
    autorewrite with url. rewrite !decide_True by done. rewrite !u16_small by lia.
    rewrite set_data_mark, set_data_twice. rewrite length_app. cbn [length].
    by replace (Z.of_nat (length l) + 1 + 1) with (Z.of_nat (length l + 1) + 1) by lia.
Qed.

Lemma query_char_live s c :
  query_char c = true -> s = s_req_query_string_start \/ s = s_req_query_string ->
  parse_url_char strict s c = s_req_query_string.
Proof.
  unfold query_char. intros Hc Hs. unfold parse_url_char.
  destruct (IS_URL_CHAR strict c) eqn:E.
  - destruct (url_char_live c E) as [-> ->]. by destruct Hs as [-> | ->].
  - cbn in Hc. apply Z.eqb_eq in Hc. subst c. cbn. rewrite andb_false_r.
    by destruct Hs as [-> | ->].
Qed.

Lemma fragment_char_live s c :
  query_char c = true -> s = s_req_fragment_start \/ s = s_req_fragment ->
  parse_url_char strict s c = s_req_fragment.
Proof.
  unfold query_char. intros Hc Hs. unfold parse_url_char.
  destruct (IS_URL_CHAR strict c) eqn:E.
  - destruct (url_char_live c E) as [-> ->]. by destruct Hs as [-> | ->].
  - cbn in Hc. apply Z.eqb_eq in Hc. subst c. cbn. rewrite andb_false_r.
    by destruct Hs as [-> | ->].
Qed.

Lemma path_char_live c : IS_URL_CHAR strict c = true -> parse_url_char strict s_req_path c = s_req_path.
Proof. intros E. unfold parse_url_char. destruct (url_char_live c E) as [-> ->]. by rewrite E. Qed.

Lemma put_field_ok u f pos s : url_ok u -> url_ok (put_field u f pos s).
Proof. intros H. destruct s; cbn [put_field]; auto. Qed.

(** A delimiter and the component after it. *)
Lemma component_part st pos (d : Z) s0 s f q :
  url_ok (us_url st) -> us_old_uf st <> Some f -> state_field s = Some f ->
  url_step strict st (Z.of_nat pos) d = Ok (Some (mkUrlSt s0 (us_old_uf st) (us_found_at st) (us_url st))) ->
  (forall x, x ∈ q -> parse_url_char strict s0 x = s /\ parse_url_char strict s x = s) ->
  Z.of_nat pos + Z.of_nat (length q) + 1 < 2 ^ 16 ->
  exists st', url_loop strict st (Z.of_nat pos) (d :: q) = Ok (Some st') /\
    us_url st' = put_field (us_url st) f (pos + 1) q /\ us_found_at st' = us_found_at st /\
    (us_state st' = s0 \/ us_state st' = s) /\ (us_old_uf st' = us_old_uf st \/ us_old_uf st' = Some f).
Proof.
  intros Hu Ho Hf Hd Hq Hn. cbn [url_loop]. rewrite Hd, bind_ok. destruct q as [|c q].
  - eexists. split; [reflexivity|]. cbn. auto.
  - cbn [length] in Hn. rewrite (field_run _ _ s f); cbn [us_url us_state us_old_uf us_found_at]; auto; try lia.
    + eexists. split; [reflexivity|]. cbn [us_url us_state us_old_uf us_found_at put_field length].
      split_and!; auto. f_equal. f_equal; lia.
    + apply Hq. set_solver.
    + intros x Hx. apply Hq. set_solver.
Qed.

Lemma forallb_elem_url (P : Z -> bool) l x : forallb P l = true -> x ∈ l -> P x = true.
Proof. intros H Hx. rewrite forallb_forall in H. apply H. by apply list_elem_of_In. Qed.

Lemma query_part st pos query :
  url_ok (us_url st) -> us_state st = s_req_path -> us_old_uf st = Some UF_PATH ->
  match query with Some q => forallb query_char q | None => true end = true ->
  Z.of_nat pos + Z.of_nat (opt_len query) < 2 ^ 16 ->
  exists st', url_loop strict st (Z.of_nat pos) (match query with Some q => 63 :: q | None => [] end) = Ok (Some st') /\
    us_url st' = (match query with Some q => put_field (us_url st) UF_QUERY (pos + 1) q | None => us_url st end) /\
    us_found_at st' = us_found_at st /\
    (us_state st' = s_req_path \/ us_state st' = s_req_query_string_start \/ us_state st' = s_req_query_string) /\
    us_old_uf st' <> Some UF_FRAGMENT.
Proof.
  intros Hu Hs Ho Hq Hn. destruct query as [q|].
  2:{ exists st. rewrite Ho, Hs. split_and!; auto; done. }
  cbn [opt_len] in Hn.
  destruct (component_part st pos 63 s_req_query_string_start s_req_query_string UF_QUERY q) as (st' & H1 & H2 & H3 & H4 & H5);
    auto; try lia.
  - by rewrite Ho.
  - unfold url_step. rewrite Hs. unfold parse_url_char.
    assert (IS_URL_CHAR strict 63 = false) as -> by (by destruct strict). cbn. by rewrite andb_false_r.
  - intros x Hx. pose proof (forallb_elem_url _ _ _ Hq Hx). split; apply query_char_live; auto.
  - exists st'. split_and!; auto. destruct H5 as [-> | ->]; by rewrite ?Ho.
Qed.

Lemma fragment_part st pos fragment :
  url_ok (us_url st) -> us_old_uf st <> Some UF_FRAGMENT ->
  us_state st = s_req_path \/ us_state st = s_req_query_string_start \/ us_state st = s_req_query_string ->
  match fragment with Some f => forallb query_char f | None => true end = true ->
  Z.of_nat pos + Z.of_nat (opt_len fragment) < 2 ^ 16 ->
  exists st', url_loop strict st (Z.of_nat pos) (match fragment with Some f => 35 :: f | None => [] end) = Ok (Some st') /\
    us_url st' = (match fragment with Some f => put_field (us_url st) UF_FRAGMENT (pos + 1) f | None => us_url st end).
Proof.
  intros Hu Ho Hs Hq Hn. destruct fragment as [f|]; [|by exists st]. cbn [opt_len] in Hn.
  destruct (component_part st pos 35 s_req_fragment_start s_req_fragment UF_FRAGMENT f) as (st' & H1 & H2 & _);
    auto; try lia.
  - unfold url_step, parse_url_char.
    assert (IS_URL_CHAR strict 35 = false) as -> by (by destruct strict). cbn. rewrite andb_false_r.
    by destruct Hs as [-> |[-> | ->]].
  - intros x Hx. pose proof (forallb_elem_url _ _ _ Hq Hx). split; apply fragment_char_live; auto.
  - by exists st'.
Qed.

(** The loop over a well-formed URL of the origin form. *)
Lemma origin_loop u path query fragment :
  length (field_data u) = 7%nat -> origin_wf path query fragment = true ->
  Z.of_nat (length (print_url path query fragment)) < 2 ^ 16 ->
  exists st, url_loop strict (mkUrlSt s_req_spaces_before_url None false (mkUrl 0 0 (field_data u))) 0
               (print_url path query fragment) = Ok (Some st) /\
    us_url st = origin_url u path query fragment.
Proof.
  unfold origin_wf, print_url. intros Hu [[Hp Hq]%andb_true_iff Hf]%andb_true_iff Hn.
  destruct path as [|c p]; [done|]. apply andb_true_iff in Hp as [->%Z.eqb_eq Hp].
  rewrite !length_app in Hn.
  assert (length (match query with Some q => 63 :: q | None => [] end) = opt_len query) as Lq by (by destruct query).
  assert (length (match fragment with Some f => 35 :: f | None => [] end) = opt_len fragment) as Lf by (by destruct fragment).
  rewrite Lq, Lf in Hn. cbn [length] in Hn.
  rewrite url_loop_app, (field_run _ _ s_req_path UF_PATH 47 p); cbn [us_url us_state us_old_uf us_found_at];
    [| done | | done | done | | lia | lia].
  2:{ unfold parse_url_char. cbn. by rewrite andb_false_r. }
  2:{ intros x Hx. apply path_char_live. by eapply forallb_elem_url. }
  rewrite bind_ok, url_loop_app.
  set (st1 := mkUrlSt s_req_path _ _ _).
  assert (url_ok (us_url st1)) as Hok1 by (by apply mark_field_ok, set_data_ok).
  destruct (query_part st1 (length (47 :: p)) query Hok1 eq_refl eq_refl Hq ltac:(cbn [length]; lia))
    as (st2 & H1 & H2 & _ & H3 & H4).
  rewrite Z.add_0_l, H1, bind_ok, Lq, <- Nat2Z.inj_add.
  destruct (fragment_part st2 (length (47 :: p) + opt_len query) fragment) as (st3 & H5 & H6); auto.
  { rewrite H2. destruct query; [by apply put_field_ok|done]. }
  { cbn [length]. lia. }
  exists st3. rewrite H5. split; [done|]. rewrite H6, H2. unfold origin_url, st1. cbn [us_url].
  cbn [put_field length]. by replace (Z.of_nat (S (length p))) with (Z.of_nat (length p) + 1) by lia.
Qed.

(** *** What the URL of the result says *)

Lemma put_field_has u f pos s g :
  has_field (put_field u f pos s) g = (bool_decide (f = g) && negb (bool_decide (s = []))) || has_field u g.
Proof.
  destruct s; cbn [put_field].
  - by rewrite (bool_decide_eq_true_2 ([] = [])), andb_false_r.
  - rewrite has_field_mark, has_field_set. by rewrite (bool_decide_eq_false_2 (_ :: _ = [])), andb_true_r.
Qed.

Lemma put_field_value buf u f pos s g :
  url_ok u -> Z.of_nat pos < 2 ^ 16 -> Z.of_nat (length s) < 2 ^ 16 ->
  field_value buf (put_field u f pos s) g =
  if bool_decide (f = g) && negb (bool_decide (s = [])) then take (length s) (drop pos buf) else field_value buf u g.
Proof.
  intros Hu Hp Hl. destruct s as [|c s]; cbn [put_field].
  - by rewrite (bool_decide_eq_true_2 ([] = [])), andb_false_r.
  - rewrite (bool_decide_eq_false_2 (_ :: _ = [])), andb_true_r by done.
    unfold field_value. rewrite field_off_mark, field_len_mark. autorewrite with url.
    case_bool_decide; [|by rewrite !decide_False].
    rewrite !decide_True by done. rewrite !u16_small by lia. by rewrite !Nat2Z.id.
Qed.

Lemma put_field_other_off u f pos s g :
  url_ok u -> f <> g -> field_off (put_field u f pos s) g = field_off u g.
Proof. intros Hu Hf. destruct s; cbn [put_field]; [done|]. autorewrite with url. by rewrite decide_False. Qed.

Lemma put_field_other_len u f pos s g :
  url_ok u -> f <> g -> field_len (put_field u f pos s) g = field_len u g.
Proof. intros Hu Hf. destruct s; cbn [put_field]; [done|]. autorewrite with url. by rewrite decide_False. Qed.

Lemma origin_no_host u path query fragment f :
  f <> UF_PATH -> f <> UF_QUERY -> f <> UF_FRAGMENT -> has_field (origin_url u path query fragment) f = false.
Proof.
  intros H1 H2 H3. unfold origin_url.
  assert (has_field (mkUrl 0 0 (field_data u)) f = false) as H0 by (unfold has_field; apply Z.bits_0).
  destruct query, fragment; rewrite !put_field_has, H0;
    rewrite ?(bool_decide_eq_false_2 (UF_PATH = f)), ?(bool_decide_eq_false_2 (UF_QUERY = f)),
      ?(bool_decide_eq_false_2 (UF_FRAGMENT = f)) by congruence; done.
Qed.

Lemma origin_parse u path query fragment :
  length (field_data u) = 7%nat -> origin_wf path query fragment = true ->
  Z.of_nat (length (print_url path query fragment)) < 2 ^ 16 ->
  http_parser_parse_url strict (print_url path query fragment) false u =
    Ok (Some (origin_url u path query fragment)).
Proof.
  intros Hu Hwf Hn. unfold http_parser_parse_url.
  destruct (origin_loop u path query fragment Hu Hwf Hn) as (st & -> & Hst). rewrite bind_ok, Hst.
  rewrite !origin_no_host by done. by rewrite bind_ok, origin_no_host.
Qed.

(** What the result [u'] says of a component: a component that is there is marked,
    and its offset and length are those of its bytes; one that is absent or empty
    is not marked, and its entry is the one of the structure [u] of the caller. *)
Definition reported (buf : bytes) (u u' : http_parser_url) (f : url_field) (v : option bytes) : Prop :=
  match v with
  | Some ((_ :: _) as s) => has_field u' f = true /\ field_value buf u' f = s
  | _ => has_field u' f = false /\ field_off u' f = field_off u f /\ field_len u' f = field_len u f
  end.

Lemma reported_other buf u0 u f g pos s v :
  url_ok u -> f <> g -> reported buf u0 u g v -> reported buf u0 (put_field u f pos s) g v.
Proof.
  intros Hu Hf. unfold reported, field_value. rewrite put_field_has, put_field_other_off, put_field_other_len by done.
  by rewrite (bool_decide_eq_false_2 (f = g)).
Qed.

Lemma reported_same buf u0 u f pos s :
  url_ok u -> Z.of_nat pos < 2 ^ 16 -> Z.of_nat (length s) < 2 ^ 16 -> take (length s) (drop pos buf) = s ->
  reported buf u0 u f None -> reported buf u0 (put_field u f pos s) f (Some s).
Proof.
  intros Hu Hp Hl Hs. destruct s as [|c s]; [done|]. intros _. split.
  - by rewrite put_field_has, bool_decide_eq_true_2.
  - by rewrite put_field_value, bool_decide_eq_true_2.
Qed.

(** The components of a URL in origin form. *)
Definition component (path : bytes) (query fragment : option bytes) (f : url_field) : option bytes :=
  match f with UF_PATH => Some path | UF_QUERY => query | UF_FRAGMENT => fragment | _ => None end.

Lemma origin_fields u path query fragment f :
  length (field_data u) = 7%nat -> Z.of_nat (length (print_url path query fragment)) < 2 ^ 16 ->
  reported (print_url path query fragment) u (origin_url u path query fragment) f (component path query fragment f).
Proof.
  intros Hu Hn. set (buf := print_url path query fragment) in *.
  assert (length path + opt_len query + opt_len fragment = length buf)%nat as Hl.
  { unfold buf, print_url. destruct query, fragment; cbn [opt_len]; len_lia. }
  assert (take (length path) (drop 0 buf) = path) as Hpath.
  { unfold buf, print_url. rewrite drop_0. apply take_app_length. }
  assert (forall q, query = Some q -> take (length q) (drop (length path + 1) buf) = q) as Hquery.
  { intros q ->. unfold buf, print_url. rewrite <- drop_drop, drop_app_length. cbn [drop app]. apply take_app_length. }
  assert (forall t, fragment = Some t -> take (length t) (drop (length path + opt_len query + 1) buf) = t) as Hfrag.
  { intros t ->. unfold buf, print_url. rewrite <- !drop_drop, drop_app_length.
    destruct query; cbn [opt_len]; [change (63 :: ?l) with ([63] ++ l); rewrite drop_app_length' by (cbn; lia)|rewrite drop_0];
      cbn [drop app]; by rewrite firstn_all. }
  unfold origin_url. clearbody buf. set (u1 := mkUrl 0 0 (field_data u)).
  assert (url_ok u1) as Hok by done.
  assert (forall g, reported buf u u1 g None) as H0 by (intros g; split; [apply Z.bits_0|done]).
  destruct query as [q|], fragment as [t|]; cbn [opt_len] in *; destruct f; cbn [component];
    repeat first [apply reported_same; [by auto using put_field_ok|lia|lia|by auto| ]
                 |apply reported_other; [by auto using put_field_ok|done| ]]; try apply H0.
Qed.

(** *** Which URLs of the origin form are accepted *)

Definition target_char (c : Z) : bool := IS_URL_CHAR strict c || (c =? 63) || (c =? 35).

Definition origin_state (s : state) : bool :=
  match s with
  | s_req_path | s_req_query_string_start | s_req_query_string | s_req_fragment_start | s_req_fragment => true
  | _ => false
  end.

Lemma target_char_step s c :
  origin_state s = true ->
  if target_char c then origin_state (parse_url_char strict s c) = true
  else parse_url_char strict s c = s_dead.
Proof.
  intros Hs. unfold target_char, parse_url_char. destruct (IS_URL_CHAR strict c) eqn:E; cbn [orb].
  - destruct (url_char_live c E) as [-> ->]. by destruct s.
  - destruct (Z.eqb_spec c 63) as [->|]; [cbn; rewrite andb_false_r; by destruct s|].
    destruct (Z.eqb_spec c 35) as [->|]; [cbn; rewrite andb_false_r; by destruct s|].
    cbn [orb]. repeat case_match; done.
Qed.

(** No component of an origin-form URL is the authority. *)
Definition no_authority (u : http_parser_url) : Prop :=
  has_field u UF_SCHEMA = false /\ has_field u UF_HOST = false /\ has_field u UF_PORT = false.

Lemma origin_step st pos c :
  origin_state (us_state st) = true -> no_authority (us_url st) ->
  if target_char c
  then exists st', url_step strict st pos c = Ok (Some st') /\ origin_state (us_state st') = true /\ no_authority (us_url st')
  else url_step strict st pos c = Ok None.
Proof.
  intros Hs Hn. pose proof (target_char_step (us_state st) c Hs) as Ht. unfold url_step.
  destruct (target_char c); [|by rewrite Ht].
  destruct Hn as (N1 & N2 & N3).
  destruct (parse_url_char strict (us_state st) c); try done;
    try case_bool_decide; (eexists; split; [reflexivity|]); (split; [done|]); unfold no_authority; cbn [us_url];
    autorewrite with url; auto.
Qed.

Lemma origin_loop_accepts t : forall st pos,
  origin_state (us_state st) = true -> no_authority (us_url st) ->
  if forallb target_char t
  then exists st', url_loop strict st pos t = Ok (Some st') /\ no_authority (us_url st')
  else url_loop strict st pos t = Ok None.
Proof.
  induction t as [|c t IH]; intros st pos Hs Hn; cbn [forallb url_loop]; [by exists st|].
  pose proof (origin_step st pos c Hs Hn) as Hc. destruct (target_char c); cbn [andb].
  - destruct Hc as (st' & -> & Hs' & Hn'). rewrite bind_ok. by apply IH.
  - by rewrite Hc.
Qed.

Lemma origin_accepts u t :
  (exists u', http_parser_parse_url strict (47 :: t) false u = Ok (Some u')) <-> forallb target_char t = true.
Proof.
  unfold http_parser_parse_url. cbn [url_loop].
  rewrite (url_step_field _ _ 47 s_req_path UF_PATH) by (unfold parse_url_char; cbn; by rewrite ?andb_false_r).
  rewrite bind_ok, bool_decide_eq_false_2 by done.
  set (st := mkUrlSt s_req_path _ _ _).
  assert (no_authority (us_url st)) as Hn.
  { unfold st, no_authority. cbn [us_url]. autorewrite with url. unfold has_field. cbn [field_set].
    by rewrite !Z.bits_0. }
  pose proof (origin_loop_accepts t st (0 + 1) eq_refl Hn) as H. destruct (forallb target_char t).
  - destruct H as (st' & -> & N1 & N2 & N3). rewrite bind_ok, N1, N2, bind_ok, N3. cbn. split; eauto.
  - rewrite H, bind_ok. split; [by intros [? [=]]|done].
Qed.
End Origin.
