(* ===== verification/Template.v ===== *)
(** * Regular expressions and templates ([deps/blogd/regx.c], [deps/blogd/content.c])

    PCRE and the Markdown renderer are parameters, as classes; [PcreLaws] states
    what the PCRE documentation says of the offset vector. A [char *] that is
    used as a C string is the list of its bytes before the NUL. *)

From S2P Require Import Prelude CLib Helper.
Local Open Scope Z_scope.

(** ** PCRE *)

Definition OVECCOUNT : nat := 30.

(** [pcre_exec re subject] is the result code and the offset vector. *)
Class Pcre := {
  regex : Type;
  pcre_compile : bytes -> option regex;
  pcre_capturecount : regex -> nat;
  pcre_exec : regex -> bytes -> Z * list Z
}.

(** The pair of a group is a range of the subject, or (-1, -1) if the group is
    not set. *)
Definition ovector_pair_ok (n : nat) (s e : Z) : Prop :=
  (s = -1 /\ e = -1) \/ (0 <= s <= e /\ e <= Z.of_nat n).

Class PcreLaws (P : Pcre) := {
  ovector_length : forall re subject rc ov,
    pcre_exec re subject = (rc, ov) -> 0 <= rc -> length ov = OVECCOUNT;
  ovector_pairs : forall re subject rc ov i s e,
    pcre_exec re subject = (rc, ov) -> 0 <= rc -> (i <= pcre_capturecount re)%nat -> (2 * i + 1 < 20)%nat ->
    ov !! (2 * i)%nat = Some s -> ov !! (2 * i + 1)%nat = Some e -> ovector_pair_ok (length subject) s e
}.

Section Regx.
Context `{P : Pcre}.

(** The process exits if the pattern does not compile. *)
Definition preg_compile (regxp : bytes) : res regex :=
  match pcre_compile regxp with Some re => Ok re | None => Fault Exit end.

Definition ov_at (ov : list Z) (i : nat) : res Z :=
  match ov !! i with Some z => Ok z | None => Fault OutOfBounds end.

(** [sprintf(zmalloc(n + 1), "%.*s", n, data + s)]. A negative precision is no
    precision: the copy does not fit. *)
Definition copy_group (data : bytes) (s n : Z) : res bytes :=
  if n <? 0 then Fault OutOfBounds else
  if n =? 0 then Ok [] else
  if s <? 0 then Fault OutOfBounds else
  d ← mread (data ++ [0]) (Z.to_nat s) (Nat.min (Z.to_nat n) (length data + 1 - Z.to_nat s));
  Ok (cstr d).

(** [results] is an array of OVECCOUNT * sizeof(char) bytes, that holds three
    pointers of 8 bytes. *)
Definition results_slot (it : nat) : bool := (8 * (it + 1) <=? OVECCOUNT * 1)%nat.

(** [for (it = 0; it < groupsCount; it++)], with [i = 3 + 2 * it]. *)
Fixpoint groups_loop (n it : nat) (data : bytes) (ov : list Z) : res (list bytes) :=
  match n with
  | O => Ok []
  | S n' =>
      let i := (3 + 2 * it)%nat in
      s ← ov_at ov (i - 1);
      e ← ov_at ov i;
      g ← copy_group data s (s32 (e - s));
      if results_slot it then r ← groups_loop n' (S it) data ov; Ok (g :: r)
      else Fault OutOfBounds
  end.

(** [None] is NULL: no match. *)
Definition preg_match (regxp data : bytes) : res (option (list bytes)) :=
  re ← preg_compile regxp;
  let '(rc, ov) := pcre_exec re data in
  if rc <? 0 then Ok None else
  gs ← groups_loop (pcre_capturecount re) 0 data ov;
  Ok (Some gs).

(** [matches[i]]: an element that was not written is not a pointer. *)
Definition match_at (m : list bytes) (i : nat) : res bytes :=
  match m !! i with Some s => Ok s | None => Fault OutOfBounds end.
End Regx.

(** ** Templates *)

(** [markdown_data c] is the memory at [ob->data] after the content [c] is
    rendered, up to [ob->asize]; [None] is NULL. The renderer does not
    terminate it. *)
Class Markdown := { markdown_data : bytes -> option bytes }.

Record compiledObj := mkCompiled {
  title : bytes;
  meta_desc : bytes;
  desc : bytes;
  thumbnail : bytes;
  published_at : bytes;
  compiled_content : bytes
}.

(** A C string in a buffer that may have no NUL. *)
Definition mem_cstr (m : bytes) : res bytes :=
  if bool_decide (0 ∈ m) then Ok (cstr m) else Fault OutOfBounds.

(** [strReplace] on C strings, the result read as one. *)
Definition replace_str (rep : bytes) (with_ : option bytes) (orig : bytes) : res bytes :=
  r ← strReplace (Some rep) with_ (Some orig);
  match r with Some b => mem_cstr b | None => Fault NullPointer end.

Definition section_pattern (name : bytes) : bytes :=
  str "@section_" ++ name ++ str "\s*((.|\n)*?)\s*@endsection".

Section Content.
Context `{P : Pcre} `{M : Markdown}.

Definition compileMarkdownContent (content : bytes) : option bytes := markdown_data content.

(** [matches ? matches[0] : ""]. *)
Definition section_or_empty (m : option (list bytes)) : res bytes :=
  match m with Some gs => match_at gs 0 | None => Ok [] end.

Definition compileTemplate (fileContent layoutContent : bytes) (markdownCompile useMarkdown : Z) : res compiledObj :=
  titleMatches ← preg_match (section_pattern (str "title")) fileContent;
  metaDescMatches ← preg_match (section_pattern (str "meta_description")) fileContent;
  descMatches ← preg_match (section_pattern (str "description")) fileContent;
  thumbnailMatches ← preg_match (section_pattern (str "thumbnail")) fileContent;
  contentMatches ← preg_match (section_pattern (str "content")) fileContent;
  publishedAtMatches ← preg_match (section_pattern (str "published_at")) fileContent;
  title ← section_or_empty titleMatches;
  meta ← section_or_empty metaDescMatches;
  desc ← section_or_empty descMatches;
  thumb ← section_or_empty thumbnailMatches;
  published ← section_or_empty publishedAtMatches;
  content ← match contentMatches with
            | Some gs =>
                c ← match_at gs 0;
                if (markdownCompile >? 0) && (useMarkdown >? 0) then
                  match compileMarkdownContent c with
                  | Some m => s ← mem_cstr m; Ok (Some s)
                  | None => Ok None
                  end
                else Ok (Some c)
            | None => Ok (Some [])
            end;
  compiled ← replace_str (str "{{ title }}") (Some title) layoutContent;
  compiled ← replace_str (str "{{ meta_description }}") (Some meta) compiled;
  compiled ← replace_str (str "{{ content }}") content compiled;
  Ok (mkCompiled title meta desc thumb published compiled).
End Content.

(** ** What a match gives *)

(** The [i]-th group of an offset vector. *)
Definition group (data : bytes) (ov : list Z) (i : nat) : bytes :=
  let s := nth (2 * i) ov 0 in let e := nth (2 * i + 1) ov 0 in
  if s <? 0 then [] else take (Z.to_nat (e - s)) (drop (Z.to_nat s) data).

Lemma no_nul_take n s : no_nul s -> no_nul (take n s).
Proof. apply Forall_take. Qed.

Lemma no_nul_drop n s : no_nul s -> no_nul (drop n s).
Proof. apply Forall_drop. Qed.

Lemma copy_group_ok data s e :
  no_nul data -> Z.of_nat (length data) < 2 ^ 31 -> ovector_pair_ok (length data) s e ->
  copy_group data s (s32 (e - s)) = Ok (if s <? 0 then [] else take (Z.to_nat (e - s)) (drop (Z.to_nat s) data)).
Proof.
  intros Hn Hl [[-> ->]|[Hs He]]; [done|]. rewrite s32_small by lia. unfold copy_group.
  assert ((s <? 0) = false) as -> by (apply Z.ltb_ge; lia).
  assert ((e - s <? 0) = false) as -> by (apply Z.ltb_ge; lia).
  destruct (Z.eqb_spec (e - s) 0) as [->|Hne]; [done|].
  rewrite mread_ok by (len_lia). rewrite bind_ok. f_equal.
  rewrite Nat.min_l by lia. rewrite drop_app_le by lia. rewrite take_app_le by len_lia.
  by apply cstr_id, no_nul_take, no_nul_drop.
Qed.

Section RegxSpec.
Context `{P : Pcre} `{L : !PcreLaws P}.

Lemma groups_loop_ok data ov n : forall it,
  no_nul data -> Z.of_nat (length data) < 2 ^ 31 -> (n + it <= 3)%nat -> length ov = OVECCOUNT ->
  (forall i s e, (i <= n + it)%nat -> ov !! (2 * i)%nat = Some s -> ov !! (2 * i + 1)%nat = Some e ->
     ovector_pair_ok (length data) s e) ->
  groups_loop n it data ov = Ok (group data ov <$> seq (S it) n).
Proof.
  induction n as [|n IH]; intros it Hn Hl Hi Ho Hp; [done|]. cbn [groups_loop seq fmap list_fmap].
  unfold OVECCOUNT in Ho.
  destruct (lookup_lt_is_Some_2 ov (2 * S it)) as [s Hs]; [lia|].
  destruct (lookup_lt_is_Some_2 ov (2 * S it + 1)) as [e He]; [lia|].
  unfold ov_at. replace (3 + 2 * it - 1)%nat with (2 * S it)%nat by lia.
  replace (3 + 2 * it)%nat with (2 * S it + 1)%nat by lia. rewrite Hs, He, !bind_ok.
  rewrite copy_group_ok by (done || apply (Hp (S it)); (done || lia)). rewrite bind_ok.
  assert (results_slot it = true) as ->.
  { unfold results_slot, OVECCOUNT. apply Nat.leb_le. lia. }
  rewrite (IH (S it)); try done; [|lia|].
  - rewrite bind_ok. unfold group. rewrite !nth_lookup, Hs, He. done.
  - intros i s' e' Hi'. apply Hp. lia.
Qed.

(** A pattern with at most three groups: the groups are the ranges of the
    offset vector. *)
Lemma preg_match_ok regxp re data :
  pcre_compile regxp = Some re -> (pcre_capturecount re <= 3)%nat ->
  no_nul data -> Z.of_nat (length data) < 2 ^ 31 ->
  preg_match regxp data =
  Ok (let '(rc, ov) := pcre_exec re data in
      if rc <? 0 then None else Some (group data ov <$> seq 1 (pcre_capturecount re))).
Proof.
  intros Hc Hk Hn Hl. unfold preg_match, preg_compile. rewrite Hc, bind_ok.
  destruct (pcre_exec re data) as [rc ov] eqn:E. destruct (Z.ltb_spec rc 0) as [|Hrc]; [done|].
  rewrite groups_loop_ok; [done| done | done | lia | by eapply ovector_length |].
  intros i s e Hi. eapply ovector_pairs; [done|done|lia|lia].
Qed.

Lemma groups_loop_overflow data ov n : forall it,
  (it <= 3)%nat -> (3 < n + it)%nat -> exists f, groups_loop n it data ov = Fault f.
Proof.
  induction n as [|n IH]; intros it Hi Hn; [lia|]. cbn [groups_loop].
  destruct (ov_at ov (3 + 2 * it - 1)) as [s|f]; [|by exists f]. rewrite bind_ok.
  destruct (ov_at ov (3 + 2 * it)) as [e|f]; [|by exists f]. rewrite bind_ok.
  destruct (copy_group data s (s32 (e - s))) as [g|f]; [|by exists f]. rewrite bind_ok.
  destruct (results_slot it) eqn:E; [|by exists OutOfBounds].
  unfold results_slot, OVECCOUNT in E. apply Nat.leb_le in E.
  destruct (IH (S it) ltac:(lia) ltac:(lia)) as [f ->]. by exists f.
Qed.

(** A fourth group does not fit in the result array. *)
Lemma preg_match_overflow regxp re data :
  pcre_compile regxp = Some re -> (3 < pcre_capturecount re)%nat -> 0 <= (pcre_exec re data).1 ->
  is_ok (preg_match regxp data) = false.
Proof.
  intros Hc Hk Hrc. unfold preg_match, preg_compile. rewrite Hc, bind_ok.
  destruct (pcre_exec re data) as [rc ov]. cbn in Hrc.
  assert ((rc <? 0) = false) as -> by (apply Z.ltb_ge; lia).
  by destruct (groups_loop_overflow data ov (pcre_capturecount re) 0 ltac:(lia) ltac:(lia)) as [f ->].
Qed.
End RegxSpec.

(** ** What a template compiles to *)

Lemma no_nul_join sep ps : no_nul sep -> Forall no_nul ps -> no_nul (join sep ps).
Proof.
  intros Hs. induction 1 as [|p ps Hp Hps IH]; [constructor|]. destruct ps as [|q ps]; [done|].
  cbn [join]. rewrite !no_nul_app. auto.
Qed.

Lemma no_nul_split_on f rep s : no_nul s -> Forall no_nul (split_on f rep s).
Proof.
  revert s. induction f as [|f IH]; intros s Hs; cbn; [by repeat constructor|].
  destruct (strstr s rep); [|by repeat constructor]. constructor; [by apply no_nul_take|].
  by apply IH, no_nul_drop.
Qed.

Lemma replace_all_no_nul rep w s : no_nul w -> no_nul s -> no_nul (replace_all rep w s).
Proof. intros Hw Hs. apply no_nul_join; [done|]. by apply no_nul_split_on. Qed.

Lemma mem_cstr_ok s t : no_nul s -> mem_cstr (s ++ 0 :: t) = Ok s.
Proof.
  intros Hs. unfold mem_cstr. rewrite bool_decide_eq_true_2 by set_solver. by rewrite cstr_app_nul.
Qed.

(** The sizes of the strings fit in an [int]. *)
Definition fits (s : bytes) : Prop := Z.of_nat (length s) < 2 ^ 31.

Lemma replace_str_ok rep w orig :
  rep <> [] -> fits rep -> fits w -> fits orig -> fits (replace_all rep w orig) ->
  no_nul w -> no_nul orig -> replace_str rep (Some w) orig = Ok (replace_all rep w orig).
Proof.
  intros. unfold replace_str. rewrite strReplace_exact by done. rewrite bind_ok.
  apply mem_cstr_ok. by apply replace_all_no_nul.
Qed.

Lemma replace_str_null rep orig : replace_str rep None orig = replace_str rep (Some []) orig.
Proof. done. Qed.

(** The layout with the title, the description and the content in place of
    their tags. *)
Definition render_layout (layout title meta content : bytes) : bytes :=
  replace_all (str "{{ content }}") content
    (replace_all (str "{{ meta_description }}") meta
       (replace_all (str "{{ title }}") title layout)).

Definition render_fits (layout title meta content : bytes) : Prop :=
  fits layout /\ fits title /\ fits meta /\ fits content /\
  fits (replace_all (str "{{ title }}") title layout) /\
  fits (replace_all (str "{{ meta_description }}") meta (replace_all (str "{{ title }}") title layout)) /\
  fits (render_layout layout title meta content).

#[export] Instance render_fits_dec layout title meta content : Decision (render_fits layout title meta content).
Proof. unfold render_fits, fits. apply _. Defined.

Lemma render_layout_ok layout title meta content :
  render_fits layout title meta content -> no_nul layout -> no_nul title -> no_nul meta -> no_nul content ->
  (compiled ← replace_str (str "{{ title }}") (Some title) layout;
   compiled ← replace_str (str "{{ meta_description }}") (Some meta) compiled;
   replace_str (str "{{ content }}") (Some content) compiled) = Ok (render_layout layout title meta content).
Proof.
  intros (F1 & F2 & F3 & F4 & F5 & F6 & F7) N1 N2 N3 N4.
  rewrite replace_str_ok by (done || by vm_compute). rewrite bind_ok.
  rewrite replace_str_ok by (try done; (by vm_compute) || by apply replace_all_no_nul). rewrite bind_ok.
  rewrite replace_str_ok by (try done; (by vm_compute) || by repeat apply replace_all_no_nul). done.
Qed.

Section ContentSpec.
Context `{P : Pcre} `{M : Markdown}.

(** The text of a section of a file. *)
Definition section_text (file name : bytes) : option bytes :=
  match preg_match (section_pattern name) file with
  | Ok (Some (g :: _)) => Some g
  | _ => None
  end.

Definition section_names : list bytes :=
  [str "title"; str "meta_description"; str "description"; str "thumbnail"; str "content"; str "published_at"].

(** The matches succeed, and their first group is a C string. *)
Definition section_ok (file name : bytes) : Prop :=
  match preg_match (section_pattern name) file with
  | Ok (Some (g :: _)) => no_nul g
  | Ok None => True
  | _ => False
  end.

(** The content that replaces the tag. *)
Definition content_html (file : bytes) (markdown : bool) (html : bytes) : Prop :=
  match section_text file (str "content") with
  | None => html = []
  | Some c => if markdown then
                match markdown_data c with
                | None => html = []
                | Some m => exists t, m = html ++ 0 :: t
                end
              else html = c
  end.

Lemma section_step {A} file name (k : option (list bytes) -> res A) :
  section_ok file name ->
  (preg_match (section_pattern name) file ≫= k) =
  k (match preg_match (section_pattern name) file with Ok m => m | Fault _ => None end).
Proof. unfold section_ok. destruct (preg_match (section_pattern name) file); [done|done]. Qed.

Lemma section_value file name :
  section_ok file name ->
  section_or_empty (match preg_match (section_pattern name) file with Ok m => m | Fault _ => None end)
  = Ok (default [] (section_text file name)).
Proof.
  unfold section_ok, section_text. destruct (preg_match (section_pattern name) file) as [[[|g gs]|]|]; done.
Qed.

Lemma section_no_nul file name : section_ok file name -> no_nul (default [] (section_text file name)).
Proof.
  unfold section_ok, section_text. destruct (preg_match (section_pattern name) file) as [[[|g gs]|]|];
    try done; intros _; constructor.
Qed.

(** The compiled object of a file: its sections, and the layout rendered with
    them. *)
Lemma compileTemplate_ok file layout markdownCompile useMarkdown html :
  Forall (section_ok file) section_names ->
  content_html file ((markdownCompile >? 0) && (useMarkdown >? 0)) html ->
  let t := default [] (section_text file (str "title")) in
  let m := default [] (section_text file (str "meta_description")) in
  no_nul layout -> no_nul html -> render_fits layout t m html ->
  compileTemplate file layout markdownCompile useMarkdown =
  Ok (mkCompiled t m (default [] (section_text file (str "description")))
        (default [] (section_text file (str "thumbnail")))
        (default [] (section_text file (str "published_at")))
        (render_layout layout t m html)).
Proof.
  intros Hs Hc t m Nl Nh Hf. unfold section_names in Hs.
  repeat (apply Forall_cons in Hs as [?H Hs]). unfold compileTemplate.
  rewrite !section_step by done. rewrite !section_value by done. rewrite !bind_ok. fold t m.
  assert (exists c, match (match preg_match (section_pattern (str "content")) file with Ok m => m | Fault _ => None end) with
            | Some gs =>
                c ← match_at gs 0;
                if (markdownCompile >? 0) && (useMarkdown >? 0) then
                  match compileMarkdownContent c with
                  | Some m => s ← mem_cstr m; Ok (Some s)
                  | None => Ok None
                  end
                else Ok (Some c)
            | None => Ok (Some [])
            end = Ok c /\ (c = Some html \/ (c = None /\ html = []))) as (c & -> & Hh).
  { unfold content_html, section_text in Hc. revert H3. unfold section_ok.
    destruct (preg_match (section_pattern (str "content")) file) as [[[|g gs]|]|]; try done; intros Hg; subst; eauto.
    cbn [match_at lookup list_lookup]. unfold match_at. cbn. unfold compileMarkdownContent.
    destruct ((markdownCompile >? 0) && (useMarkdown >? 0)); [|subst; eauto].
    destruct (markdown_data g) as [md|]; [|subst; eauto].
    destruct Hc as [tl ->]. rewrite mem_cstr_ok by done. rewrite bind_ok. eauto. }
  rewrite bind_ok.
  assert (forall s, replace_str (str "{{ content }}") c s = replace_str (str "{{ content }}") (Some html) s) as Hr.
  { intros s. destruct Hh as [-> |[-> ->]]; done. }
  pose proof (render_layout_ok layout t m html Hf Nl (section_no_nul _ _ H) (section_no_nul _ _ H0) Nh) as HR.
  apply bind_ok_inv in HR as (c1 & -> & HR). rewrite bind_ok.
  apply bind_ok_inv in HR as (c2 & -> & HR). rewrite bind_ok, Hr, HR. done.
Qed.
End ContentSpec.
