(* ===== verification/Http.v ===== *)
(** * HTTP responses ([src/blogd.c])

    The response headers and the response of a page. *)

From S2P Require Import Prelude CLib Util Sds Object Reply.
Local Open Scope Z_scope.

Definition httpMimes : list (bytes * bytes) :=
  [ (str "gif", str "image/gif");
    (str "jpg", str "image/jpeg");
    (str "jpeg", str "image/jpeg");
    (str "png", str "image/png");
    (str "htm", str "text/html; charset=UTF-8");
    (str "html", str "text/html; charset=UTF-8");
    (str "js", str "application/javascript");
    (str "css", str "text/css");
    (str "woff", str "application/font-woff");
    (str "woff2", str "application/font-woff2");
    (str "ttf", str "application/octet-stream") ].

(** The loop over the table: the first extension that is a prefix. *)
Fixpoint find_mime (mimes : list (bytes * bytes)) (contentType : bytes) : option bytes :=
  match mimes with
  | [] => None
  | (ext, filetype) :: mimes' =>
      if strncmp contentType ext (length ext) =? 0 then Some filetype else find_mime mimes' contentType
  end.

(** [sprintf] of a number into a [char[10]]. *)
Definition sprintf10 (s : bytes) : res bytes :=
  if Z.of_nat (length s) + 1 <=? 10 then Ok s else Fault OutOfBounds.

(** The lines between the status and the length. *)
Definition header_lines : list bytes :=
  [ str "Server: Blogd" ++ crlf;
    str "Connection: close" ++ crlf;
    str "Cache-Control: no-store, must-revalidate" ++ crlf;
    str "Pragma: no-cache" ++ crlf;
    str "Expires: 0" ++ crlf;
    str "x-content-type-options:nosniff" ++ crlf;
    str "x-frame-options:SAMEORIGIN" ++ crlf;
    str "x-xss-protection:1; mode=block" ++ crlf ].

Section Http.
Variable junk : Z.

Fixpoint sdscat_all (s : sds) (parts : list bytes) : res sds :=
  match parts with
  | [] => Ok s
  | t :: parts' => s ← sdscat junk s t; sdscat_all s parts'
  end.

Definition buildHttpHeaders (contentType : bytes) (contentLength code : Z) : res sds :=
  headers ← sdsnew junk (Some (str "HTTP/1.1 "));
  let ext := find_mime httpMimes contentType in
  let code := match ext with None => 400 | Some _ => code end in
  '(ext, headers) ←
    (if code =? 500 then h ← sdscat junk headers (str "500 Internal Server Error" ++ crlf); Ok (Some (str "text/html"), h)
     else if code =? 404 then h ← sdscat junk headers (str "404 Not Found" ++ crlf); Ok (Some (str "text/html"), h)
     else if code =? 400 then h ← sdscat junk headers (str "400 Bad Request" ++ crlf); Ok (Some (str "text/html"), h)
     else h ← sdscat junk headers (str "200 OK" ++ crlf); Ok (ext, h));
  headers ← sdscat_all headers header_lines;
  contentLengthString ← sprintf10 (udec contentLength);
  match ext with
  | None => Fault NullPointer
  | Some ext =>
      sdscat_all headers
        [ str "Content-length: "; contentLengthString; crlf; str "Content-Type: "; ext; crlf ++ crlf ]
  end.

Variable sdsZmallocSize : sds -> Z.
Variable embeddedSize : sds -> Z.
Variable client_obuf_limits : client_type -> obuf_limits.
Variable unixtime : Z.

(** The content is a C string; its length is passed as an [unsigned int]. *)
Definition responseHttp (c : outst) (content contentType : bytes) (code : Z) : res outst :=
  headers ← buildHttpHeaders contentType (u32 (Z.of_nat (length content))) code;
  c ← addReplyString junk sdsZmallocSize embeddedSize client_obuf_limits unixtime c (sdsval headers);
  addReplyString junk sdsZmallocSize embeddedSize client_obuf_limits unixtime c content.
End Http.

(** ** What a response is *)

Definition status_text (code : Z) : bytes :=
  if code =? 500 then str "500 Internal Server Error" else
  if code =? 404 then str "404 Not Found" else
  if code =? 400 then str "400 Bad Request" else str "200 OK".

Definition error_code (code : Z) : bool := (code =? 500) || (code =? 404) || (code =? 400).

Definition fixed_headers : bytes :=
  str "Server: Blogd" ++ crlf ++ str "Connection: close" ++ crlf ++
  str "Cache-Control: no-store, must-revalidate" ++ crlf ++ str "Pragma: no-cache" ++ crlf ++
  str "Expires: 0" ++ crlf ++ str "x-content-type-options:nosniff" ++ crlf ++
  str "x-frame-options:SAMEORIGIN" ++ crlf ++ str "x-xss-protection:1; mode=block" ++ crlf.

(** The headers: the status of an unknown content type is 400. *)
Definition response_headers (contentType : bytes) (n code : Z) : bytes :=
  let code := match find_mime httpMimes contentType with None => 400 | Some _ => code end in
  let type := if error_code code then str "text/html" else default [] (find_mime httpMimes contentType) in
  str "HTTP/1.1 " ++ status_text code ++ crlf ++ fixed_headers ++
  str "Content-length: " ++ udec n ++ crlf ++ str "Content-Type: " ++ type ++ crlf ++ crlf.

Definition http_response (contentType content : bytes) (code : Z) : bytes :=
  response_headers contentType (Z.of_nat (length content)) code ++ content.

Lemma sdscat_all_ok junk parts : forall s,
  sds_ok s -> sds_len s + Z.of_nat (length (concat parts)) < 2 ^ 63 ->
  exists s', sdscat_all junk s parts = Ok s' /\ sds_ok s' /\ sdsval s' = sdsval s ++ concat parts.
Proof.
  induction parts as [|t parts IH]; intros s Hs Hl; cbn [sdscat_all concat].
  - exists s. by rewrite app_nil_r.
  - cbn [concat] in Hl. rewrite length_app in Hl.
    destruct (sdscat_ok junk s t Hs) as (s1 & -> & Hs1 & Hv1); [lia|]. rewrite bind_ok.
    destruct (IH s1 Hs1) as (s2 & -> & Hs2 & Hv2).
    { rewrite <- (sdsval_length s1 Hs1), Hv1, length_app. pose proof (sdsval_length s Hs). lia. }
    exists s2. split_and!; try done. by rewrite Hv2, Hv1, app_assoc.
Qed.

Lemma sdsnew_ok junk s : Z.of_nat (length s) < 2 ^ 64 ->
  exists x, sdsnew junk (Some s) = Ok x /\ sds_ok x /\ sdsval x = s.
Proof.
  intros Hl. unfold sdsnew. destruct (sdsnewlen_ok junk s (Z.of_nat (length s))) as (x & E & Hx & Hv & _); [lia|lia|].
  exists x. rewrite Nat2Z.id, firstn_all in Hv. done.
Qed.

Lemma find_mime_length ct t : find_mime httpMimes ct = Some t -> (length t <= 30)%nat.
Proof.
  cbn [find_mime httpMimes]. repeat (destruct (_ =? 0); [intros [= <-]; vm_compute; lia|]). done.
Qed.

Lemma short_cat (h : sds) (t : bytes) : sds_len h < 2 ^ 62 -> (length t <=? 1000)%nat = true ->
  sds_len h + Z.of_nat (length t) < 2 ^ 63.
Proof. intros ? ?%Nat.leb_le. lia. Qed.

(** The status line and the content type. *)
Lemma status_ok junk h ext code : sds_ok h -> sds_len h < 2 ^ 62 ->
  exists h', (if code =? 500 then h ← sdscat junk h (str "500 Internal Server Error" ++ crlf); Ok (Some (str "text/html"), h)
       else if code =? 404 then h ← sdscat junk h (str "404 Not Found" ++ crlf); Ok (Some (str "text/html"), h)
       else if code =? 400 then h ← sdscat junk h (str "400 Bad Request" ++ crlf); Ok (Some (str "text/html"), h)
       else h ← sdscat junk h (str "200 OK" ++ crlf); Ok (ext, h))
    = Ok (if error_code code then Some (str "text/html") else ext, h') /\
    sds_ok h' /\ sdsval h' = sdsval h ++ status_text code ++ crlf.
Proof.
  intros Hh Hl. unfold error_code, status_text.
  destruct (code =? 500), (code =? 404), (code =? 400); cbn [orb];
    (edestruct (sdscat_ok junk h) as (h' & -> & Hh' & Hv);
     [done|apply short_cat; [done|reflexivity]|rewrite bind_ok; by exists h']).
Qed.

(** The headers up to the length, and how they end. *)
Lemma headers_start junk ct code :
  let code' := match find_mime httpMimes ct with None => 400 | Some _ => code end in
  exists h t, t = (if error_code code' then str "text/html" else default [] (find_mime httpMimes ct)) /\ (length t <= 30)%nat /\
    sds_ok h /\ sds_len h < 2 ^ 62 /\
    sdsval h = str "HTTP/1.1 " ++ status_text code' ++ crlf ++ fixed_headers /\
    forall n, buildHttpHeaders junk ct n code = (s ← sprintf10 (udec n);
      sdscat_all junk h [str "Content-length: "; s; crlf; str "Content-Type: "; t; crlf ++ crlf]).
Proof.
  intros code'. unfold buildHttpHeaders. fold code'.
  destruct (sdsnew_ok junk (str "HTTP/1.1 ")) as (h & -> & Hh & Hv); [done|].
  pose proof (sdsval_length h Hh) as Hl. rewrite Hv in Hl. change (Z.of_nat (length (str "HTTP/1.1 "))) with 9 in Hl.
  destruct (status_ok junk h (find_mime httpMimes ct) code' Hh) as (h1 & H1 & Hh1 & Hv1); [lia|].
  assert (length (status_text code') <= 30)%nat as Hst.
  { unfold status_text. repeat destruct (_ =? _); apply Nat.leb_le; reflexivity. }
  assert (sds_len h1 < 2 ^ 20) as Hl1.
  { rewrite <- (sdsval_length h1 Hh1), Hv1, Hv, !length_app. change (length (str "HTTP/1.1 ")) with 9%nat.
    change (length crlf) with 2%nat. lia. }
  destruct (sdscat_all_ok junk header_lines h1 Hh1) as (h2 & H2 & Hh2 & Hv2); [apply short_cat; [lia|reflexivity]|].
  assert (exists t, (if error_code code' then Some (str "text/html") else find_mime httpMimes ct) = Some t /\
    t = (if error_code code' then str "text/html" else default [] (find_mime httpMimes ct)) /\ (length t <= 30)%nat) as (t & Et & Ht & Hlt).
  { destruct (error_code code') eqn:E; [eexists; split_and!; [reflexivity|done|apply Nat.leb_le; reflexivity]|].
    destruct (find_mime httpMimes ct) as [t|] eqn:Em; [|done]. exists t. split_and!; try done. by apply (find_mime_length ct). }
  exists h2, t. split_and!; try done.
  - rewrite <- (sdsval_length h2 Hh2), Hv2, length_app. rewrite <- (sdsval_length h1 Hh1) in Hl1.
    assert (length (concat header_lines) <= 1000)%nat by (apply Nat.leb_le; reflexivity). lia.
  - rewrite Hv2, Hv1, Hv. unfold fixed_headers, header_lines. cbn [concat]. rewrite ?app_nil_r, <- !app_assoc. done.
  - intros n. rewrite bind_ok, H1, bind_ok, H2, bind_ok, Et. done.
Qed.

(** The headers, when the length has at most nine digits: the buffer of the
    length has ten bytes. *)
Lemma buildHttpHeaders_ok junk ct n code : 0 <= n < 10 ^ 9 ->
  exists h, buildHttpHeaders junk ct n code = Ok h /\ sds_ok h /\ sdsval h = response_headers ct n code.
Proof.
  intros Hn. destruct (headers_start junk ct code) as (h & t & Ht & Hlt & Hh & Hl & Hv & ->).
  assert (length (udec n) <= 9)%nat as Hd by (apply udec_length_bound; lia).
  unfold sprintf10. destruct (Z.leb_spec (Z.of_nat (length (udec n)) + 1) 10); [|lia]. rewrite bind_ok.
  destruct (sdscat_all_ok junk [str "Content-length: "; udec n; crlf; str "Content-Type: "; t; crlf ++ crlf] h Hh)
    as (h3 & -> & Hh3 & Hv3).
  { cbn [concat]. rewrite !length_app. change (length (str "Content-length: ")) with 16%nat.
    change (length (str "Content-Type: ")) with 14%nat. change (length crlf) with 2%nat. cbn [length]. lia. }
  exists h3. split_and!; try done. rewrite Hv3, Hv. unfold response_headers. rewrite <- Ht. cbn [concat].
  rewrite ?app_nil_r, <- !app_assoc. done.
Qed.

Lemma buildHttpHeaders_overflow junk ct n code : 10 ^ 9 <= n ->
  buildHttpHeaders junk ct n code = Fault OutOfBounds.
Proof.
  intros Hn. destruct (headers_start junk ct code) as (h & t & _ & _ & _ & _ & _ & ->).
  unfold sprintf10. destruct (Z.leb_spec (Z.of_nat (length (udec n)) + 1) 10) as [Hle|]; [|done].
  assert (length (udec n) <= 9)%nat as Hd by lia. apply udec_length_bound in Hd; lia.
Qed.

Lemma response_headers_length ct n code : 0 <= n < 10 ^ 9 -> (length (response_headers ct n code) <= 1000)%nat.
Proof.
  intros Hn. destruct (buildHttpHeaders_ok 0 ct n code Hn) as (h & Hb & _ & Hv).
  unfold response_headers. set (code' := match find_mime httpMimes ct with None => 400 | Some _ => code end).
  assert (length (udec n) <= 9)%nat as Hd by (apply udec_length_bound; lia).
  assert (length (status_text code') <= 30)%nat as Hst.
  { unfold status_text. repeat destruct (_ =? _); apply Nat.leb_le; reflexivity. }
  assert (length (if error_code code' then str "text/html" else default [] (find_mime httpMimes ct)) <= 30)%nat as Ht.
  { destruct (error_code code'); [apply Nat.leb_le; reflexivity|].
    destruct (find_mime httpMimes ct) eqn:E; [by eapply find_mime_length|cbn; lia]. }
  rewrite !length_app. change (length (str "HTTP/1.1 ")) with 9%nat. change (length (str "Content-length: ")) with 16%nat.
  change (length (str "Content-Type: ")) with 14%nat. change (length crlf) with 2%nat.
  assert (length fixed_headers <= 500)%nat by (apply Nat.leb_le; reflexivity). lia.
Qed.

Section HttpSpec.
Variable junk : Z.
Variable sdsZmallocSize : sds -> Z.
Variable embeddedSize : sds -> Z.
Variable client_obuf_limits : client_type -> obuf_limits.
Variable unixtime : Z.
Hypothesis zmalloc_size : forall s, 0 <= sdsZmallocSize s < 2 ^ 48.
Hypothesis embedded_size : forall s, 0 <= embeddedSize s < 2 ^ 48.

(** A response is its headers, with the length of the content, and the
    content. *)
Lemma responseHttp_ok c content ct code :
  ready sdsZmallocSize embeddedSize 2 c -> Z.of_nat (length content) < 10 ^ 9 ->
  exists c', responseHttp junk sdsZmallocSize embeddedSize client_obuf_limits unixtime c content ct code = Ok c' /\
    replied sdsZmallocSize embeddedSize 2 c (http_response ct content code) c'.
Proof.
  intros Hc Hl. unfold responseHttp, u32. rewrite Z.mod_small by lia.
  destruct (buildHttpHeaders_ok junk ct (Z.of_nat (length content)) code) as (h & -> & _ & Hv); [lia|]. rewrite bind_ok, Hv.
  pose proof (response_headers_length ct (Z.of_nat (length content)) code ltac:(lia)) as Hlh.
  edestruct addReplyString_replied as (c1 & -> & H1); [done|done|by apply (ready_le _ _ 2)|lia|]. rewrite bind_ok.
  pose proof (replied_ready _ _ 2 1 1 _ _ _ Hc H1 ltac:(lia)) as Hc1.
  edestruct addReplyString_replied as (c2 & -> & H2); [done|done|exact Hc1|lia|].
  exists c2. split; [done|]. by eapply (replied_app _ _ 1 1).
Qed.
End HttpSpec.
