(* ===== verification/Site.v ===== *)
(** * Building the site ([initContents] of [src/blogd.c])

    The posts of the content directory are compiled with the layout and stored
    in the key space: every post under its name, the pages of the index under
    their numbers, and the error pages. The file system is a function from paths
    to contents, and the listing of the directory of posts is what
    [tinydir_open_sorted] gives. *)

From S2P Require Import Prelude CLib Util Sds Object Reply Resp Dict KeyDict Db Command Helper Template Http.
Local Open Scope Z_scope.

Definition PAGE_KEY_PREFIX : bytes := str "blogd::page".
Definition PAGE_ERROR_KEY_PREFIX : bytes := str "blogd::page::error".
Definition POST_KEY_PREFIX : bytes := str "blogd::post::".

Definition SLAVE_STATE_WAIT_BGSAVE_START : Z := 6.

(** The directives of the configuration; the two numbers are [unsigned int]. *)
Record config := mkConfig {
  cf_content_dir : bytes;
  cf_public_dir : bytes;
  cf_reload_content_query : bytes;
  cf_per_page : Z;
  cf_markdown_compile : Z;
  cf_client_max_querybuf_len : Z
}.

(** [tinydir_file]. *)
Record dirent := mkDirent { de_name : bytes; de_path : bytes; de_is_dir : bool }.

(** [stringConcat], its result as a C string. *)
Definition concat_str (s1 s2 : bytes) : res bytes := m ← stringConcat s1 s2; mem_cstr m.

(** [removeFileExt(name, '.', '/')] as a C string. *)
Definition base_name (name : bytes) : res bytes :=
  r ← removeFileExt (Some name) 46 47;
  match r with Some m => mem_cstr m | None => Fault NullPointer end.

Definition more_html : bytes :=
  str "<ul class='pager'><li class='next'><a href='/page/{pageNum}'>More</a></li></ul>".

Section Site.
Context {T : Type -> Type} `{KD : KeyDict T} `{P : Pcre} `{M : Markdown}.
Variable junk : Z.
Variable sdsZmallocSize : sds -> Z.
Variable embeddedSize : sds -> Z.
Variable client_obuf_limits : client_type -> obuf_limits.
Variable unixtime : Z.
Variable shareable : bool.
Variable lookupCommand : bytes -> option redisCommand.
Variable other_proc : proc -> session T -> reqst -> res (session T * reqst).
Variable en : env.

(** ** Commands of a fake client *)

(** The fields that are not set have any value. *)
Definition createFakeClient : res reqst :=
  q ← sdsempty junk;
  Ok (mkReq q junk [] junk junk false
        (mkOut junk (-1) 0 SLAVE_STATE_WAIT_BGSAVE_START false
               (replicate (Z.to_nat PROTO_REPLY_CHUNK_BYTES) junk) 0 [] 0 junk 0 [] [])).

Fixpoint command_args (argvs : list bytes) : res (list robj) :=
  match argvs with
  | [] => Ok []
  | a :: argvs' =>
      s ← sdsnewlen junk None (Z.of_nat (length a));
      s ← sdscpy junk s a;
      r ← command_args argvs';
      Ok (createObject OBJ_STRING s :: r)
  end.

(** The command is called without the checks of [processCommand]. *)
Definition executeRedisCommand (s : session T) (argvs : list bytes) : res (session T) :=
  fakeClient ← createFakeClient;
  argv ← command_args argvs;
  let c := with_args fakeClient argv (q_multibulklen fakeClient) (q_bulklen fakeClient) in
  a0 ← arg c 0;
  name ← obj_key a0;
  match lookupCommand name with
  | None => Fault NullPointer
  | Some cmd =>
      '(s, _) ← call junk sdsZmallocSize embeddedSize client_obuf_limits unixtime shareable other_proc en cmd s c;
      Ok s
  end.

Definition store (s : session T) (key value : bytes) : res (session T) :=
  executeRedisCommand s [str "set"; key; value].

(** ** [initContents] *)

Variable fs : bytes -> option bytes.
Variable listing : bytes -> list dirent.
Variable cfg : config.

Definition read_template (name : bytes) : res bytes :=
  path ← concat_str (cf_content_dir cfg) name; Ok (readFileContent fs path).

Definition init_error_page (layout : bytes) (s : session T) (code content : bytes) : res (session T) :=
  obj ← compileTemplate content layout (cf_markdown_compile cfg) 1;
  key ← concat_str PAGE_ERROR_KEY_PREFIX code;
  store s key (compiled_content obj).

(** The post in the index. *)
Definition compile_post (postContent : bytes) (obj : compiledObj) (fileName : bytes) : res bytes :=
  p ← replace_str (str "{{ title }}") (Some (title obj)) postContent;
  p ← replace_str (str "{{ thumbnail }}") (Some (thumbnail obj)) p;
  p ← replace_str (str "{{ description }}") (Some (desc obj)) p;
  p ← replace_str (str "{{ published_at }}") (Some (published_at obj)) p;
  link ← concat_str (str "/") fileName;
  replace_str (str "{{ link }}") (Some link) p.

(** A page of the index, with a link to the next one unless it is the last. *)
Definition compile_page (pageContent posts : bytes) (pageIndex : Z) (more : bool) : res bytes :=
  page ← replace_str (str "{{ posts }}") (Some posts) pageContent;
  pageNumString ← sprintf10 (dec (s32 (pageIndex + 1)));
  if more then
    moreHtml ← replace_str (str "{pageNum}") (Some pageNumString) more_html;
    replace_str (str "{{ more }}") (Some moreHtml) page
  else replace_str (str "{{ more }}") (Some []) page.

Definition init_page (layout pageContent : bytes) (s : session T) (posts : bytes) (pageIndex : Z) (more : bool)
  : res (session T) :=
  page ← compile_page pageContent posts pageIndex more;
  pageNumString ← sprintf10 (dec (s32 pageIndex));
  obj ← compileTemplate page layout (cf_markdown_compile cfg) 0;
  key ← concat_str PAGE_KEY_PREFIX pageNumString;
  store s key (compiled_content obj).

(** The loop over the files that are not directories: [j] counts the posts,
    [posts] are those of the page [pageIndex]. *)
Fixpoint posts_loop (layout postContent pageContent : bytes) (numFiles : Z) (files : list dirent)
    (s : session T) (j pageIndex : Z) (posts : bytes) : res (session T) :=
  match files with
  | [] => Ok s
  | file :: files' =>
      let fileContent := readFileContent fs (de_path file) in
      fileName ← base_name (de_name file);
      obj ← compileTemplate fileContent layout (cf_markdown_compile cfg) 1;
      key ← concat_str POST_KEY_PREFIX fileName;
      s ← store s key (compiled_content obj);
      post ← compile_post postContent obj fileName;
      posts ← concat_str posts post;
      if cf_per_page cfg =? 0 then Fault DivByZero else
      if (j mod cf_per_page cfg =? u32 (cf_per_page cfg - 1)) || (j =? u32 (numFiles - 1)) then
        s ← init_page layout pageContent s posts pageIndex (j <? u32 (numFiles - 1));
        posts_loop layout postContent pageContent numFiles files' s (u32 (j + 1)) (u32 (pageIndex + 1)) []
      else posts_loop layout postContent pageContent numFiles files' s (u32 (j + 1)) pageIndex posts
  end.

(** The contents read are never NULL: the process does not exit here. *)
Definition initContents (s : session T) : res (session T) :=
  contentPath ← concat_str (cf_content_dir cfg) (str "/posts/");
  layoutContent ← read_template (str "/layout.tpl");
  headerContent ← read_template (str "/header.tpl");
  topContent ← read_template (str "/content_top.tpl");
  footerContent ← read_template (str "/footer.tpl");
  postContent ← read_template (str "/post.tpl");
  pageContent ← read_template (str "/page.tpl");
  error400Content ← read_template (str "/errors/400.tpl");
  error404Content ← read_template (str "/errors/404.tpl");
  error500Content ← read_template (str "/errors/500.tpl");
  layoutContent ← replace_str (str "{{ include header }}") (Some headerContent) layoutContent;
  layoutContent ← replace_str (str "{{ include content_top }}") (Some topContent) layoutContent;
  layoutContent ← replace_str (str "{{ include footer }}") (Some footerContent) layoutContent;
  s ← init_error_page layoutContent s (str "400") error400Content;
  s ← init_error_page layoutContent s (str "404") error404Content;
  s ← init_error_page layoutContent s (str "500") error500Content;
  let files := filter (fun f => de_is_dir f = false) (listing contentPath) in
  posts_loop layoutContent postContent pageContent (u32 (Z.of_nat (length files))) files s 0 1 [].
End Site.

(** ** Stores *)

Fixpoint last_write (ws : list (bytes * bytes)) (k : bytes) : option bytes :=
  match ws with
  | [] => None
  | (k', v) :: ws' =>
      match last_write ws' k with
      | Some w => Some w
      | None => if decide (k' = k) then Some v else None
      end
  end.

Lemma last_write_app a b k :
  last_write (a ++ b) k = match last_write b k with Some v => Some v | None => last_write a k end.
Proof.
  induction a as [|[k' v] a IH]; cbn; [by destruct (last_write b k)|]. rewrite IH. by destruct (last_write b k).
Qed.

Lemma last_write_none ws k : k ∉ ws.*1 -> last_write ws k = None.
Proof.
  induction ws as [|[k' v] ws IH]; [done|]. cbn. intros Hk. rewrite IH by set_solver. rewrite decide_False by set_solver. done.
Qed.

Section StoreSpec.
Context {T : Type -> Type} `{KD : KeyDict T} `{KL : !KeyDictLaws T}.
Variable junk : Z.
Variable sdsZmallocSize : sds -> Z.
Variable embeddedSize : sds -> Z.
Variable client_obuf_limits : client_type -> obuf_limits.
Variable unixtime : Z.
Variable shareable : bool.
Variable lookupCommand : bytes -> option redisCommand.
Variable other_proc : proc -> session T -> reqst -> res (session T * reqst).
Variable en : env.
Hypothesis master : e_masterhost en = false.
Hypothesis loaded : e_loading en = false.
Hypothesis set_command : lookupCommand (str "set") = Some set_entry.

#[local] Abbreviation now := (e_now en).
#[local] Abbreviation store' :=
  (store junk sdsZmallocSize embeddedSize client_obuf_limits unixtime shareable lookupCommand other_proc en).

Lemma command_args_ok argvs : Forall (fun a => Z.of_nat (length a) < 2 ^ 63) argvs ->
  exists objs, command_args junk argvs = Ok objs /\ Forall node_ok objs /\ objval <$> objs = Some <$> argvs.
Proof.
  induction 1 as [|a argvs Ha _ (objs & IH & Hn & Hv)]; cbn [command_args]; [by exists []|].
  destruct (sdsnewlen_none junk (Z.of_nat (length a))) as (s & -> & Hs & _); [lia|]. rewrite bind_ok. unfold sdscpy.
  destruct (sdscpylen_ok junk s a (Z.of_nat (length a)) Hs) as (s' & -> & Hs' & Hv'); [lia|lia|]. rewrite bind_ok, IH, bind_ok.
  rewrite Nat2Z.id, firstn_all in Hv'. eexists. split; [reflexivity|]. split.
  - constructor; [|done]. split; [|done]. split; [done|]. split; [cbn; lia|]. cbn. eauto.
  - cbn. by rewrite Hv', Hv.
Qed.

Lemma store_ok (s : session T) k v :
  db_ok (s_db s) -> kd_size (db_dict (s_db s)) <= KD_MAX ->
  Z.of_nat (length k) < 2 ^ 63 -> Z.of_nat (length v) < 2 ^ 63 ->
  exists db' o, store' s k v = Ok (mkSession db' (s_dirty s + 1) (s_last_error s) (s_last_reply s) (s_queued s) (s_watched s) (s_watching s)) /\
    strobj_ok o /\ objval o = Some v /\ db_ok db' /\ (base.size (vals db') <= S (base.size (vals (s_db s))))%nat /\
    (forall j, live now db' j = if decide (j = k) then Some o else live now (s_db s) j).
Proof.
  intros Hdb Hsz Hk Hv. unfold store', executeRedisCommand, createFakeClient, sdsempty.
  destruct (sdsnewlen_ok junk [] 0) as (q & -> & _); [done|done|]. rewrite !bind_ok.
  destruct (command_args_ok [str "set"; k; v]) as (objs & -> & Hn & Ho); [by repeat constructor|]. rewrite bind_ok.
  destruct objs as [|cmd [|key [|val [|]]]]; try done. injection Ho as H1 H2 H3.
  apply Forall_cons in Hn as [Hn1 Hn]. apply Forall_cons in Hn as [Hn2 Hn]. apply Forall_cons in Hn as [Hn3 _].
  unfold arg. cbn [with_args q_argv lookup list_lookup]. rewrite bind_ok, (obj_key_ok cmd (str "set")) by done.
  rewrite bind_ok, set_command. unfold call. cbn [set_entry cmd_proc].
  edestruct (setCommand_ok junk sdsZmallocSize embeddedSize client_obuf_limits unixtime shareable en master loaded s
    (with_args (mkReq q junk [] junk junk false (mkOut junk (-1) 0 SLAVE_STATE_WAIT_BGSAVE_START false
      (replicate (Z.to_nat PROTO_REPLY_CHUNK_BYTES) junk) 0 [] 0 junk 0 [] [])) [cmd; key; val] junk junk)
    cmd key val k (fun _ => True)) as (db' & o & out & Hset & Ho & Hov & Hdb' & _ & Hs & Hl & _); try done; [by destruct Hn3| |].
  { cbn [with_args q_out]. unfold addReplyShared, shared_obj. destruct (sdsnew_ok junk (str "+OK" ++ crlf)) as (x & -> & _); [done|].
    rewrite !bind_ok. eexists. split; [|done]. reflexivity. }
  cbn [with_args q_multibulklen q_bulklen q_querybuf q_reqtype q_asking q_out] in Hset |- *. rewrite Hset, bind_ok.
  exists db', (incrRefCount o). split_and!; try done. unfold objval in *. cbn. by rewrite Hov.
Qed.

Fixpoint store_all (s : session T) (ws : list (bytes * bytes)) : res (session T) :=
  match ws with [] => Ok s | (k, v) :: ws' => s ← store' s k v; store_all s ws' end.

Lemma store_all_app a b : forall s, store_all s (a ++ b) = (s ← store_all s a; store_all s b).
Proof.
  induction a as [|[k v] a IH]; intros s; cbn [store_all app]; [done|].
  destruct (store' s k v) as [s1|]; [|done]. rewrite !bind_ok. apply IH.
Qed.

(** The key [k] holds the string [v]. *)
Definition holds (db : redisDb T) (k v : bytes) : Prop :=
  exists o, live now db k = Some o /\ strobj_ok o /\ objval o = Some v.

(** After the stores, every key holds the last value that was stored. *)
Lemma store_all_ok ws : forall s,
  db_ok (s_db s) -> Z.of_nat (base.size (vals (s_db s)) + length ws) <= KD_MAX ->
  Forall (fun w => Z.of_nat (length w.1) < 2 ^ 63 /\ Z.of_nat (length w.2) < 2 ^ 63) ws ->
  exists s', store_all s ws = Ok s' /\ db_ok (s_db s') /\ s_dirty s' = s_dirty s + Z.of_nat (length ws) /\
    s_last_error s' = s_last_error s /\ s_last_reply s' = s_last_reply s /\ s_queued s' = s_queued s /\
    forall k, match last_write ws k with
              | Some v => holds (s_db s') k v
              | None => live now (s_db s') k = live now (s_db s) k
              end.
Proof.
  induction ws as [|[k v] ws IH]; intros s Hdb Hsz Hf; cbn [store_all last_write].
  - exists s. split_and!; try done. cbn; lia.
  - apply Forall_cons in Hf as [[Hk Hv] Hf]. cbn [length] in Hsz.
    destruct (store_ok s k v Hdb) as (db' & o & -> & Ho & Hov & Hdb' & Hs & Hl); [|done|done|].
    { rewrite (kd_size_ok _ _ (dbk_dict _ Hdb)). unfold vals in Hsz. lia. }
    rewrite bind_ok. edestruct (IH (mkSession db' (s_dirty s + 1) (s_last_error s) (s_last_reply s) (s_queued s) (s_watched s) (s_watching s)))
      as (s' & -> & Hdb'' & Hd & He & Hr & Hq & Hlast); [done|cbn [s_db]; lia|done|].
    cbn [s_db s_dirty s_last_error s_last_reply s_queued length] in *.
    exists s'. split_and!; try done; [lia|]. intros j. specialize (Hlast j).
    destruct (last_write ws j); [done|]. rewrite Hl in Hlast. destruct (decide (k = j)) as [->|Hne].
    + rewrite decide_True in Hlast by done. by exists o.
    + by rewrite decide_False in Hlast by done.
Qed.
End StoreSpec.
