(* ===== verification/Pages.v ===== *)
(** * The pages of the site

    What [initContents] stores: the posts are cut in chunks of [per_page], and
    the page [i] of the index is made of the [i]-th chunk. *)

From S2P Require Import Prelude CLib Util Sds Object Reply Resp Dict KeyDict Db Command Helper Template Http Site.
Local Open Scope Z_scope.

(** The list cut in pieces of [n] elements; the last one may be shorter. *)
Fixpoint chunks_aux {A} (fuel n : nat) (l : list A) : list (list A) :=
  match fuel, l with
  | S f, _ :: _ => take n l :: chunks_aux f n (drop n l)
  | _, _ => []
  end.

Definition chunks {A} (n : nat) (l : list A) : list (list A) := chunks_aux (length l) n l.

Lemma chunks_concat {A} n (l : list A) : (0 < n)%nat -> concat (chunks n l) = l.
Proof.
  intros Hn. unfold chunks. assert (length l <= length l)%nat as Hf by lia. revert Hf. generalize (length l) at 2 3.
  intros f. revert l. induction f as [|f IH]; intros [|x l] Hf; cbn [chunks_aux concat]; try (done || (cbn in Hf; lia)).
  rewrite IH by (rewrite length_drop; cbn [length] in *; lia). apply take_drop.
Qed.

Lemma chunks_aux_lookup {A} f n (l : list A) i : (0 < n)%nat -> (length l <= f)%nat ->
  chunks_aux f n l !! i = if decide (i * n < length l)%nat then Some (take n (drop (i * n) l)) else None.
Proof.
  intros Hn. revert l i. induction f as [|f IH]; intros l i Hf.
  - destruct l; [|cbn in Hf; lia]. cbn. rewrite decide_False by lia. done.
  - destruct l as [|x l]; [cbn; rewrite decide_False by lia; done|]. set (l' := x :: l) in *.
    change (chunks_aux (S f) n l') with (take n l' :: chunks_aux f n (drop n l')).
    destruct i as [|i].
    + cbn [lookup list_lookup Nat.mul]. rewrite decide_True by (cbn; lia). by rewrite drop_0.
    + cbn [lookup list_lookup]. rewrite IH by (rewrite length_drop; cbn in *; lia).
      rewrite length_drop, drop_drop. replace (n + i * n)%nat with (S i * n)%nat by lia.
      destruct (decide (i * n < length l' - n)%nat), (decide (S i * n < length l')%nat); try (done || lia).
Qed.

(** The [i]-th piece. *)
Lemma chunks_lookup {A} n (l : list A) i : (0 < n)%nat ->
  chunks n l !! i = if decide (i * n < length l)%nat then Some (take n (drop (i * n) l)) else None.
Proof. intros Hn. by apply chunks_aux_lookup. Qed.

(** ** The posts *)

Record post := mkPost { p_name : bytes; p_obj : compiledObj; p_html : bytes }.

Definition post_write (p : post) : bytes * bytes := (POST_KEY_PREFIX ++ p_name p, compiled_content (p_obj p)).

Definition page_key (i : Z) : bytes := PAGE_KEY_PREFIX ++ dec i.

(** The stores for the chunks from the page [i] on, where [pv i] is the text of
    the page [i]. *)
Fixpoint chunk_writes (pv : Z -> bytes) (i : Z) (chs : list (list post)) : list (bytes * bytes) :=
  match chs with
  | [] => []
  | ch :: chs' => (post_write <$> ch) ++ (page_key i, pv i) :: chunk_writes pv (i + 1) chs'
  end.

Lemma concat_str_ok a b : no_nul a -> no_nul b -> concat_str a b = Ok (a ++ b).
Proof.
  intros Ha Hb. unfold concat_str. rewrite stringConcat_ok, bind_ok, app_assoc. apply mem_cstr_ok. by apply no_nul_app.
Qed.

Lemma no_nul_concat (l : list bytes) : Forall no_nul l -> no_nul (concat l).
Proof. induction 1 as [|x l Hx _ IH]; cbn; [constructor|by apply no_nul_app]. Qed.

(** ** The keys *)

Definition error_key (code : bytes) : bytes := PAGE_ERROR_KEY_PREFIX ++ code.
Definition post_key (name : bytes) : bytes := POST_KEY_PREFIX ++ name.

Lemma dec_digits i : 0 <= i -> exists c t, dec i = c :: t /\ isdigit c = true.
Proof.
  intros Hi. unfold dec. destruct (Z.ltb_spec i 0); [lia|]. pose proof (udec_nonempty i Hi) as Hn.
  pose proof (udec_digits i Hi) as Hd. destruct (udec i) as [|c t]; [cbn in Hn; lia|]. exists c, t. by inversion Hd.
Qed.

Lemma page_error_key i code : 0 <= i -> page_key i <> error_key code.
Proof.
  intros Hi. unfold page_key, error_key. destruct (dec_digits i Hi) as (c & t & -> & Hc).
  intros [= -> _]. done.
Qed.

Lemma page_post_key i name : page_key i <> post_key name.
Proof. unfold page_key, post_key. intros H. discriminate H. Qed.

Lemma error_post_key code name : error_key code <> post_key name.
Proof. intros H. discriminate H. Qed.

Lemma page_key_inj i j : 0 <= i -> 0 <= j -> page_key i = page_key j -> i = j.
Proof.
  intros Hi Hj H. apply app_inv_head in H. unfold dec in H.
  destruct (Z.ltb_spec i 0), (Z.ltb_spec j 0); try lia. by apply udec_inj.
Qed.

Lemma post_writes_keys ps k : k ∈ (post_write <$> ps).*1 -> exists p, p ∈ ps /\ k = post_key (p_name p).
Proof. rewrite <- list_fmap_compose. intros (p & -> & Hp)%list_elem_of_fmap. by exists p. Qed.

Lemma last_write_posts ps i : last_write (post_write <$> ps) (page_key i) = None.
Proof. apply last_write_none. intros (p & _ & H)%post_writes_keys. by apply (page_post_key i (p_name p)). Qed.

(** The page [i + k] is made of the [k]-th chunk. *)
Lemma chunk_writes_page pv chs : forall i k, 0 <= i -> (k < length chs)%nat ->
  last_write (chunk_writes pv i chs) (page_key (i + Z.of_nat k)) = Some (pv (i + Z.of_nat k)).
Proof.
  assert (forall chs i j, 0 <= j < i -> last_write (chunk_writes pv i chs) (page_key j) = None) as Hlt.
  { clear chs. induction chs as [|ch chs IH]; intros i j Hj; cbn [chunk_writes]; [done|].
    rewrite last_write_app. cbn [last_write]. rewrite IH by lia. rewrite decide_False by (intros ?%page_key_inj; lia).
    apply last_write_posts. }
  induction chs as [|ch chs IH]; intros i k Hi Hk; cbn [chunk_writes length] in *; [lia|].
  rewrite last_write_app. cbn [last_write]. destruct k as [|k].
  - rewrite Z.add_0_r, Hlt by lia. by rewrite decide_True.
  - replace (i + Z.of_nat (S k)) with (i + 1 + Z.of_nat k) by lia. rewrite IH by lia. done.
Qed.

Lemma chunk_writes_post pv name chs : forall i, 
  last_write (chunk_writes pv i chs) (post_key name) = last_write (post_write <$> concat chs) (post_key name).
Proof.
  induction chs as [|ch chs IH]; intros i; cbn [chunk_writes concat]; [done|].
  rewrite fmap_app, !last_write_app. cbn [last_write]. rewrite IH.
  destruct (last_write (post_write <$> concat chs) _); [done|]. rewrite decide_False by apply page_post_key. done.
Qed.

Lemma chunk_writes_error pv code chs : forall i, 0 <= i -> last_write (chunk_writes pv i chs) (error_key code) = None.
Proof.
  induction chs as [|ch chs IH]; intros i Hi; cbn [chunk_writes]; [done|].
  rewrite last_write_app. cbn [last_write]. rewrite IH by lia. rewrite decide_False by (by apply page_error_key).
  apply last_write_none. intros (p & _ & H)%post_writes_keys. by apply (error_post_key code (p_name p)).
Qed.

Lemma post_key_inj a b : post_key a = post_key b -> a = b.
Proof. unfold post_key. apply app_inv_head. Qed.

Lemma last_write_nodup ps p : NoDup (p_name <$> ps) -> p ∈ ps ->
  last_write (post_write <$> ps) (post_key (p_name p)) = Some (compiled_content (p_obj p)).
Proof.
  induction ps as [|q ps IH]; [set_solver|]. rewrite !fmap_cons.
  change (post_write q) with (post_key (p_name q), compiled_content (p_obj q)). cbn [last_write].
  intros [Hq Hn]%NoDup_cons [->|Hp]%elem_of_cons.
  - rewrite last_write_none; [by rewrite decide_True|]. intros (p & Hp & H%post_key_inj)%post_writes_keys.
    apply Hq. rewrite H. by apply list_elem_of_fmap_2.
  - by rewrite IH.
Qed.

Lemma chunk_writes_length pv chs : forall i, length (chunk_writes pv i chs) = (length (concat chs) + length chs)%nat.
Proof.
  induction chs as [|ch chs IH]; intros i; cbn [chunk_writes concat length]; [done|].
  rewrite !length_app, length_fmap. cbn [length]. rewrite IH. lia.
Qed.

Section Pages.
Context {T : Type -> Type} `{KD : KeyDict T} `{P : Pcre} `{M : Markdown}.
Variable junk : Z.
Variable sdsZmallocSize : sds -> Z.
Variable embeddedSize : sds -> Z.
Variable client_obuf_limits : client_type -> obuf_limits.
Variable unixtime : Z.
Variable shareable : bool.
Variable lookupCommand : bytes -> option redisCommand.
Variable other_proc : proc -> session T -> reqst -> res (session T * reqst).
Variable en : env.
Variable fs : bytes -> option bytes.
Variable cfg : config.
Variable layout postContent pageContent : bytes.

#[local] Abbreviation store_all' := (store_all junk sdsZmallocSize embeddedSize client_obuf_limits unixtime shareable
  lookupCommand other_proc en).
#[local] Abbreviation posts_loop' := (posts_loop junk sdsZmallocSize embeddedSize client_obuf_limits unixtime shareable
  lookupCommand other_proc en fs cfg layout postContent pageContent).
#[local] Abbreviation init_page' := (init_page junk sdsZmallocSize embeddedSize client_obuf_limits unixtime shareable
  lookupCommand other_proc en cfg layout pageContent).

(** The file [f] compiles to the post [p]. *)
Definition file_post (f : dirent) (p : post) : Prop :=
  base_name (de_name f) = Ok (p_name p) /\
  compileTemplate (readFileContent fs (de_path f)) layout (cf_markdown_compile cfg) 1 = Ok (p_obj p) /\
  compile_post postContent (p_obj p) (p_name p) = Ok (p_html p) /\
  no_nul (p_name p) /\ no_nul (p_html p).

(** The text of a page of the index. *)
Definition page_value (ch : list post) (i : Z) (more : bool) : res bytes :=
  page ← compile_page pageContent (concat (p_html <$> ch)) i more;
  obj ← compileTemplate page layout (cf_markdown_compile cfg) 0;
  Ok (compiled_content obj).

Hypothesis per_page_range : 1 <= cf_per_page cfg < 2 ^ 32.

Lemma init_page_ok s ch i more v : 1 <= i < 10 ^ 9 - 1 -> page_value ch i more = Ok v ->
  init_page' s (concat (p_html <$> ch)) i more =
  store junk sdsZmallocSize embeddedSize client_obuf_limits unixtime shareable lookupCommand other_proc en s (page_key i) v.
Proof.
  intros Hi Hv. unfold page_value in Hv. apply bind_ok_inv in Hv as (page & Hpage & Hv).
  apply bind_ok_inv in Hv as (obj & Hobj & [= <-]). unfold init_page. rewrite Hpage, bind_ok.
  rewrite s32_small by lia. unfold sprintf10.
  assert (length (dec i) <= 9)%nat as Hd.
  { unfold dec. destruct (Z.ltb_spec i 0); [lia|]. apply udec_length_bound; lia. }
  destruct (Z.leb_spec (Z.of_nat (length (dec i)) + 1) 10); [|lia]. rewrite bind_ok, Hobj, bind_ok.
  rewrite concat_str_ok by (apply dec_no_nul || (repeat constructor; done)). done.
Qed.

(** One round of the loop. *)
Lemma post_round n f p files s j page acc : file_post f p -> no_nul acc ->
  posts_loop' n (f :: files) s j page acc =
  (s ← store_all' s [post_write p];
   if (j mod cf_per_page cfg =? cf_per_page cfg - 1) || (j =? u32 (n - 1)) then
     s ← init_page' s (acc ++ p_html p) page (j <? u32 (n - 1));
     posts_loop' n files s (u32 (j + 1)) (u32 (page + 1)) []
   else posts_loop' n files s (u32 (j + 1)) page (acc ++ p_html p)).
Proof.
  intros (H1 & H2 & H3 & H4 & H5) Hacc. cbn [posts_loop]. rewrite H1, bind_ok, H2, bind_ok.
  rewrite concat_str_ok by (done || (repeat constructor; done)). rewrite bind_ok. unfold post_write. cbn [store_all].
  destruct (store _ _ _ _ _ _ _ _ _ _ _ _) as [s1|]; [|done]. rewrite !bind_ok.
  rewrite H3, bind_ok. rewrite concat_str_ok by done. rewrite bind_ok.
  destruct (Z.eqb_spec (cf_per_page cfg) 0); [lia|]. replace (u32 (cf_per_page cfg - 1)) with (cf_per_page cfg - 1) by (unfold u32; rewrite Z.mod_small; lia). done.
Qed.

(** The rounds of the rest of a chunk, from the post number [j] on. *)
Lemma chunk_rounds n ch : forall fch rest s j page acc,
  Forall2 file_post fch ch -> ch <> [] -> no_nul acc -> n < 2 ^ 32 -> 0 <= j ->
  j mod cf_per_page cfg + Z.of_nat (length ch) <= cf_per_page cfg -> j + Z.of_nat (length ch) <= n ->
  (j mod cf_per_page cfg + Z.of_nat (length ch) = cf_per_page cfg \/ j + Z.of_nat (length ch) = n) ->
  posts_loop' n (fch ++ rest) s j page acc =
  (s ← store_all' s (post_write <$> ch);
   s ← init_page' s (acc ++ concat (p_html <$> ch)) page (j + Z.of_nat (length ch) <? n);
   posts_loop' n rest s (u32 (j + Z.of_nat (length ch))) (u32 (page + 1)) []).
Proof.
  induction ch as [|p ch IH]; [done|]. intros fch rest s j page acc Hf _ Hacc Hn Hj Hc Hjn Hend.
  inversion Hf as [|f p' fch' ch' Hfp Hf']; subst. cbn [app]. rewrite (post_round n f p) by done.
  assert (no_nul (acc ++ p_html p)) as Hacc' by (apply no_nul_app; split; [done|apply Hfp]).
  cbn [length] in *. pose proof (Z.mod_pos_bound j (cf_per_page cfg) ltac:(lia)) as Hm.
  assert (u32 (n - 1) = n - 1) as -> by (unfold u32; apply Z.mod_small; lia).
  destruct ch as [|q ch].
  - inversion Hf'; subst. cbn [fmap list_fmap concat app length] in *. rewrite app_nil_r.
    replace (_ || _) with true.
    2:{ symmetry. apply orb_true_iff. rewrite !Z.eqb_eq. lia. }
    replace (j <? n - 1) with (j + Z.of_nat 1 <? n) by (apply Bool.eq_iff_eq_true; rewrite !Z.ltb_lt; lia). done.
  - cbn [length] in *.
    replace (_ || _) with false.
    2:{ symmetry. apply orb_false_iff. rewrite !Z.eqb_neq. lia. }
    assert (u32 (j + 1) = j + 1) as -> by (unfold u32; apply Z.mod_small; lia).
    assert ((j + 1) mod cf_per_page cfg = j mod cf_per_page cfg + 1) as Hj1.
    { symmetry. apply (Z.mod_unique _ _ (j / cf_per_page cfg)); [lia|]. pose proof (Z.div_mod j (cf_per_page cfg)). lia. }
    change (post_write <$> p :: q :: ch) with ([post_write p] ++ (post_write <$> q :: ch)). rewrite store_all_app.
    destruct (store_all' s [post_write p]) as [s1|]; [|done]. rewrite !bind_ok.
    rewrite IH by (done || (cbn [length]; lia)). cbn [fmap list_fmap concat length].
    rewrite <- app_assoc. by replace (j + 1 + Z.of_nat (S (length ch))) with (j + Z.of_nat (S (S (length ch)))) by lia.
Qed.

(** The posts are stored under their names, and the pages are made of the
    chunks. *)
Lemma chunks_stored n pv fuel : forall posts files s i j,
  Forall2 file_post files posts -> (length posts <= fuel)%nat -> n < 10 ^ 9 - 2 -> 0 <= i ->
  j = i * cf_per_page cfg \/ posts = [] -> j + Z.of_nat (length posts) = n -> 0 <= j -> i <= j ->
  (forall k ch, chunks_aux fuel (Z.to_nat (cf_per_page cfg)) posts !! k = Some ch ->
     page_value ch (i + 1 + Z.of_nat k)
       (bool_decide (is_Some (chunks_aux fuel (Z.to_nat (cf_per_page cfg)) posts !! S k)))
     = Ok (pv (i + 1 + Z.of_nat k))) ->
  posts_loop' n files s j (i + 1) [] =
  store_all' s (chunk_writes pv (i + 1) (chunks_aux fuel (Z.to_nat (cf_per_page cfg)) posts)).
Proof.
  set (pp := Z.to_nat (cf_per_page cfg)). assert (0 < pp)%nat as Hpp by lia.
  induction fuel as [|fuel IH]; intros posts files s i j Hf Hfuel Hn Hi Hj Hjn Hj0 Hij Hpv.
  { destruct posts; [|cbn in Hfuel; lia]. by inversion Hf. }
  destruct posts as [|p posts']; [by inversion Hf|]. destruct Hj as [Hj|]; [|done]. set (posts := p :: posts') in *.
  change (chunks_aux (S fuel) pp posts) with (take pp posts :: chunks_aux fuel pp (drop pp posts)) in Hpv |- *.
  cbn [chunk_writes]. set (ch := take pp posts) in *.
  assert (length ch = Nat.min pp (length posts)) as Hlc by (unfold ch; by rewrite length_take).
  assert (0 < length posts)%nat by (cbn; lia). assert (0 < length ch)%nat as Hch by lia.
  rewrite <- (take_drop pp files). pose proof (Forall2_length _ _ _ Hf) as Hfl.
  assert (j mod cf_per_page cfg = 0) as Hjm by (subst j; apply Z.mod_mul; lia).
  rewrite (chunk_rounds n ch); [|by apply Forall2_take|intros E; rewrite E in Hch; cbn in Hch; lia|constructor|lia|lia|
    rewrite Hjm; lia|lia|rewrite Hjm; lia].
  rewrite store_all_app. cbn [store_all app].
  destruct (store_all' s (post_write <$> ch)) as [s1|]; [|done]. rewrite !bind_ok.
  specialize (Hpv 0%nat ch eq_refl) as Hpv0. cbn [lookup list_lookup] in Hpv0. rewrite Z.add_0_r in Hpv0.
  assert (bool_decide (is_Some (chunks_aux fuel pp (drop pp posts) !! 0%nat)) = (j + Z.of_nat (length ch) <? n)) as Hmore.
  { rewrite chunks_aux_lookup by (done || (rewrite length_drop; cbn [length] in *; lia)). rewrite length_drop.
    destruct (Z.ltb_spec (j + Z.of_nat (length ch)) n) as [Hlt|Hge].
    - rewrite decide_True by lia. by apply bool_decide_eq_true_2.
    - rewrite decide_False by lia. apply bool_decide_eq_false_2. by intros []. }
  change (chunks_aux fuel pp (drop pp posts) !! 0%nat) with ((chunks_aux fuel pp (drop pp posts)) !! 0%nat) in *.
  rewrite Hmore in Hpv0. rewrite (init_page_ok s1 ch (i + 1) _ (pv (i + 1))) by (done || lia).
  destruct (store _ _ _ _ _ _ _ _ _ s1 _ _) as [s2|]; [|done]. rewrite !bind_ok.
  assert (u32 (j + Z.of_nat (length ch)) = j + Z.of_nat (length ch)) as -> by (unfold u32; apply Z.mod_small; lia).
  assert (u32 (i + 1 + 1) = i + 1 + 1) as -> by (unfold u32; apply Z.mod_small; lia).
  apply (IH (drop pp posts)).
  - by apply Forall2_drop.
  - rewrite length_drop. lia.
  - done.
  - lia.
  - destruct (drop pp posts) as [|] eqn:Ed; [by right|left]. apply (f_equal length) in Ed. rewrite length_drop in Ed. cbn [length] in Ed.
    rewrite Z.mul_add_distr_r, <- Hj. lia.
  - rewrite length_drop. lia.
  - lia.
  - lia.
  - intros k c Hk. specialize (Hpv (S k) c Hk). cbn [lookup list_lookup] in Hpv.
    replace (i + 1 + 1 + Z.of_nat k) with (i + 1 + Z.of_nat (S k)) by lia. done.
Qed.

(** ** The whole site *)

Variable listing : bytes -> list dirent.

Definition template (name : bytes) : bytes := readFileContent fs (cf_content_dir cfg ++ name).

Definition post_files : list dirent :=
  filter (fun f => de_is_dir f = false) (listing (cf_content_dir cfg ++ str "/posts/")).

Record site := mkSite {
  st_posts : list post;
  st_pages : Z -> bytes;          (* the text of the page [i], from 1 *)
  st_400 : compiledObj;
  st_404 : compiledObj;
  st_500 : compiledObj
}.

Definition site_chunks (st : site) : list (list post) := chunks (Z.to_nat (cf_per_page cfg)) (st_posts st).

(** The templates and the files of the content directory compile to the
    site. *)
Record compiles_to (st : site) : Prop := {
  ct_dir : no_nul (cf_content_dir cfg);
  ct_post : postContent = template (str "/post.tpl");
  ct_page : pageContent = template (str "/page.tpl");
  ct_layout : (l ← replace_str (str "{{ include header }}") (Some (template (str "/header.tpl"))) (template (str "/layout.tpl"));
               l ← replace_str (str "{{ include content_top }}") (Some (template (str "/content_top.tpl"))) l;
               replace_str (str "{{ include footer }}") (Some (template (str "/footer.tpl"))) l) = Ok layout;
  ct_400 : compileTemplate (template (str "/errors/400.tpl")) layout (cf_markdown_compile cfg) 1 = Ok (st_400 st);
  ct_404 : compileTemplate (template (str "/errors/404.tpl")) layout (cf_markdown_compile cfg) 1 = Ok (st_404 st);
  ct_500 : compileTemplate (template (str "/errors/500.tpl")) layout (cf_markdown_compile cfg) 1 = Ok (st_500 st);
  ct_files : Forall2 file_post post_files (st_posts st);
  ct_count : Z.of_nat (length (st_posts st)) < 10 ^ 9 - 2;
  ct_pages : forall k ch, site_chunks st !! k = Some ch ->
    page_value ch (1 + Z.of_nat k) (bool_decide (is_Some (site_chunks st !! S k))) = Ok (st_pages st (1 + Z.of_nat k))
}.

Definition site_writes (st : site) : list (bytes * bytes) :=
  [(error_key (str "400"), compiled_content (st_400 st));
   (error_key (str "404"), compiled_content (st_404 st));
   (error_key (str "500"), compiled_content (st_500 st))] ++ chunk_writes (st_pages st) 1 (site_chunks st).

#[local] Abbreviation initContents' := (initContents junk sdsZmallocSize embeddedSize client_obuf_limits unixtime shareable
  lookupCommand other_proc en fs listing cfg).

Lemma read_template_ok name : no_nul (cf_content_dir cfg) -> no_nul name -> read_template fs cfg name = Ok (template name).
Proof. intros Hd Hn. unfold read_template. rewrite concat_str_ok by done. done. Qed.

Lemma init_error_page_ok s code content obj : no_nul code ->
  compileTemplate content layout (cf_markdown_compile cfg) 1 = Ok obj ->
  init_error_page junk sdsZmallocSize embeddedSize client_obuf_limits unixtime shareable lookupCommand other_proc en cfg
    layout s code content = store_all' s [(error_key code, compiled_content obj)].
Proof.
  intros Hn Ho. unfold init_error_page. rewrite Ho, bind_ok, concat_str_ok by (done || (repeat constructor; done)).
  rewrite bind_ok. cbn [store_all]. unfold error_key. destruct (store _ _ _ _ _ _ _ _ _ _ _ _); done.
Qed.

(** Building the site is a sequence of stores. *)
Lemma initContents_stores s st : compiles_to st -> initContents' s = store_all' s (site_writes st).
Proof.
  intros [Hd Hpo Hpa Hl H4 H44 H5 Hf Hc Hp]. unfold initContents.
  rewrite concat_str_ok by (done || (repeat constructor; done)). rewrite bind_ok.
  repeat (rewrite read_template_ok by (done || (repeat constructor; done))). rewrite !bind_ok.
  apply bind_ok_inv in Hl as (l1 & -> & Hl). rewrite bind_ok. apply bind_ok_inv in Hl as (l2 & -> & Hl).
  rewrite bind_ok, Hl, bind_ok.
  unfold site_writes. rewrite store_all_app.
  rewrite (init_error_page_ok _ (str "400") _ _ ltac:(repeat constructor; done) H4).
  change [?a; ?b; ?c] with ([a] ++ [b] ++ [c]). rewrite store_all_app.
  destruct (store_all' s _) as [s1|]; [|done]. rewrite !bind_ok.
  rewrite (init_error_page_ok _ (str "404") _ _ ltac:(repeat constructor; done) H44). rewrite store_all_app.
  destruct (store_all' s1 _) as [s2|]; [|done]. rewrite !bind_ok.
  rewrite (init_error_page_ok _ (str "500") _ _ ltac:(repeat constructor; done) H5).
  destruct (store_all' s2 _) as [s3|]; [|done]. rewrite !bind_ok.
  fold post_files. rewrite <- Hpo, <- Hpa. pose proof (Forall2_length _ _ _ Hf) as Hlen.
  assert (u32 (Z.of_nat (length post_files)) = Z.of_nat (length (st_posts st))) as ->.
  { rewrite Hlen. unfold u32. apply Z.mod_small. lia. }
  apply (chunks_stored _ (st_pages st) (length (st_posts st)) (st_posts st) post_files s3 0 0); try (done || lia).
Qed.

Context `{KL : !KeyDictLaws T}.
Hypothesis master : e_masterhost en = false.
Hypothesis loaded : e_loading en = false.
Hypothesis set_command : lookupCommand (str "set") = Some set_entry.

#[local] Abbreviation holds' := (holds en).

(** The values of the site can be stored. *)
Definition site_small (db : redisDb T) (st : site) : Prop :=
  Z.of_nat (base.size (vals db) + length (site_writes st)) <= KD_MAX /\
  Forall (fun w => Z.of_nat (length w.1) < 2 ^ 63 /\ Z.of_nat (length w.2) < 2 ^ 63) (site_writes st).

Definition site_held (db : redisDb T) (st : site) : Prop :=
  (forall i ch, site_chunks st !! i = Some ch -> holds' db (page_key (1 + Z.of_nat i)) (st_pages st (1 + Z.of_nat i))) /\
  (NoDup (p_name <$> st_posts st) -> forall p, p ∈ st_posts st ->
     holds' db (post_key (p_name p)) (compiled_content (p_obj p))) /\
  holds' db (error_key (str "400")) (compiled_content (st_400 st)) /\
  holds' db (error_key (str "404")) (compiled_content (st_404 st)) /\
  holds' db (error_key (str "500")) (compiled_content (st_500 st)).

Lemma initContents_ok s st : compiles_to st -> db_ok (s_db s) -> site_small (s_db s) st ->
  exists s', initContents' s = Ok s' /\ db_ok (s_db s') /\ site_held (s_db s') st /\
    s_last_error s' = s_last_error s /\ s_last_reply s' = s_last_reply s /\ s_queued s' = s_queued s /\
    forall k, k ∉ (site_writes st).*1 -> live (e_now en) (s_db s') k = live (e_now en) (s_db s) k.
Proof.
  intros Hst Hdb [Hsz Hf]. rewrite (initContents_stores s st Hst).
  destruct (store_all_ok junk sdsZmallocSize embeddedSize client_obuf_limits unixtime shareable lookupCommand other_proc en
    master loaded set_command (site_writes st) s Hdb Hsz Hf) as (s' & -> & Hdb' & _ & He & Hr & Hq & Hw).
  exists s'. split_and!; try done.
  2:{ intros k Hk. specialize (Hw k). by rewrite last_write_none in Hw. }
  assert (forall k v, last_write (site_writes st) k = Some v -> holds' (s_db s') k v) as Hk.
  { intros k v E. specialize (Hw k). by rewrite E in Hw. }
  unfold site_writes in Hk. split_and!; [intros i ch Hch| |..].
  - apply Hk. rewrite last_write_app, chunk_writes_page; [done|lia|]. by eapply lookup_lt_Some.
  - intros Hnd p Hp. apply Hk. rewrite last_write_app, chunk_writes_post.
    unfold site_chunks. rewrite chunks_concat by lia. by rewrite last_write_nodup.
  - apply Hk. rewrite last_write_app, chunk_writes_error by lia. reflexivity.
  - apply Hk. rewrite last_write_app, chunk_writes_error by lia. reflexivity.
  - apply Hk. rewrite last_write_app, chunk_writes_error by lia. reflexivity.
Qed.
End Pages.
