(* ===== verification/Serve.v ===== *)
(** * Serving requests ([src/blogd.c])

    [processHttpRequestFromClient] parses a request that was read from the
    socket, finds its route, and asks for the page by writing a Redis command to
    the query buffer of the client itself and processing it. The system calls are
    arguments: what [read] gives, and the files. *)

From S2P Require Import Prelude CLib Util Sds Object Reply Resp Dict KeyDict Db Command Helper H3 HttpUrl Template Http Site Pages.
Local Open Scope Z_scope.

Definition PROTO_IOBUF_LEN : Z := 1024 * 16.
Definition BUFSIZ : nat := Z.to_nat 8192.

Record client := mkClient {
  cl_req : reqst;
  cl_http_querybuf : sds
}.

Definition cl_out (c : client) : outst := q_out (cl_req c).
Definition with_cl_out (c : client) (o : outst) : client := mkClient (with_out (cl_req c) o) (cl_http_querybuf c).

(** A file that [open] opens: its contents, or its size when [read] fails (a
    directory). *)
Inductive file := Regular (contents : bytes) | Unreadable (size : Z).

(** The result of [read] on the socket. *)
Inductive read_result := ReadAgain | ReadError | ReadClosed | ReadData (data : bytes).

(** [c->command_last_reply] as a C string. *)
Definition reply_cstr (p : obj_ptr) : res bytes :=
  match p with PtrSds s => mem_cstr (sds_mem s) | _ => Fault OutOfBounds end.

(** A pointer into the request, as a C string. *)
Definition ptr_cstr (m : bytes) (p : option nat) : res bytes :=
  match p with Some i => mem_cstr (drop i m) | None => Fault NullPointer end.

(** [strndup(s + off, n)]: nothing is read when [n] is 0. *)
Definition strndup_at (s : bytes) (off n : Z) : res bytes :=
  if n =? 0 then Ok [] else
  if off <=? Z.of_nat (length s) then Ok (strndup s (Z.to_nat off) (Z.to_nat n)) else Fault OutOfBounds.

Inductive route := RouteIndex | RouteFile | RoutePage | RouteContent.

Definition httpRoutes : list (bytes * route) :=
  [ (str "^/$", RouteIndex);
    (str "(.*?)\.(gif|jpg|jpeg|png|htm|html|js|css|woff|woff2|ttf)", RouteFile);
    (str "/page/(\d)+", RoutePage);
    (str "/(.*)", RouteContent) ].

Section Serve.
Context {T : Type -> Type} `{KD : KeyDict T} `{P : Pcre} `{M : Markdown}.
Variable junk : Z.
Variable sdsZmallocSize : sds -> Z.
Variable embeddedSize : sds -> Z.
Variable client_obuf_limits : client_type -> obuf_limits.
Variable unixtime : Z.
Variable shareable : bool.
Variable lookupCommand : bytes -> option redisCommand.
Variable other_proc : proc -> session T -> reqst -> res (session T * reqst).
Variable cluster_redirect : redisCommand -> reqst -> option (reqst -> res reqst).
Variable discardTransaction : session T -> reqst -> res (session T * reqst).
Variable freeMemoryIfNeeded : session T -> session T * bool * bool.
Variable handleClientsBlockedOnLists : session T -> res (session T).
Variable clientsArePaused : bool.
Variable en : env.
Variable g : guards.
Variable fs : bytes -> option bytes.
Variable listing : bytes -> list dirent.
Variable open_file : bytes -> option file.
Variable strict : bool.               (* HTTP_PARSER_STRICT *)
Variable cfg : config.

#[local] Abbreviation reply_string := (addReplyString junk sdsZmallocSize embeddedSize client_obuf_limits unixtime).
#[local] Abbreviation response := (responseHttp junk sdsZmallocSize embeddedSize client_obuf_limits unixtime).

(** ** Redis commands *)

Fixpoint sds_args (argvs : list bytes) : res (list sds) :=
  match argvs with
  | [] => Ok []
  | a :: argvs' => s ← sdsnew junk (Some a); r ← sds_args argvs'; Ok (s :: r)
  end.

(** Each argument is copied to a new sds. *)
Definition convertToSds (args : list sds) : res (list sds) :=
  sds_args ((fun s => cstr (sds_mem s)) <$> args).

Definition formatRedisCommand (argv : list sds) : res (bytes * Z) := redisFormatCommandArgv (sdsval <$> argv).

Definition buildRedisCommand (argvs : list bytes) : res (bytes * Z) :=
  argv ← sds_args argvs;
  argv ← convertToSds argv;
  formatRedisCommand argv.

(** [None]: the client was freed. *)
Definition callRedisCommand (s : session T) (c : reqst) (readlen qblen : Z) (argvs : list bytes)
  : res (session T * option reqst) :=
  '(cmd, nread) ← buildRedisCommand argvs;
  q ← sdsMakeRoomFor junk (q_querybuf c) readlen;
  text ← mem_cstr cmd;
  mem ← mwrite (sds_mem q) (Z.to_nat qblen) (text ++ [0]);
  q ← sdsIncrLen (set_mem q mem) nread;
  if sdslen q >? cf_client_max_querybuf_len cfg then Ok (s, None) else
  processInputBuffer junk sdsZmallocSize embeddedSize client_obuf_limits unixtime
    (processCommand junk sdsZmallocSize embeddedSize client_obuf_limits unixtime shareable lookupCommand other_proc
       cluster_redirect discardTransaction freeMemoryIfNeeded handleClientsBlockedOnLists g en)
    clientsArePaused (S (S (Z.to_nat (sdslen q)))) s (with_querybuf c q).

(** ** Responses *)

(** The page command for [key]; the client is used after it, even if it was
    freed. *)
Definition get_page (s : session T) (c : client) (readlen qblen : Z) (key : bytes) : res (session T * client) :=
  '(s, r) ← callRedisCommand s (cl_req c) readlen qblen [str "getNoReplyCommand"; key];
  match r with
  | None => Fault UseAfterFree
  | Some q => Ok (s, mkClient q (cl_http_querybuf c))
  end.

Definition respond (c : client) (content contentType : bytes) (code : Z) : res client :=
  o ← response (cl_out c) content contentType code; Ok (with_cl_out c o).

Definition responseHttpError (s : session T) (c : client) (readlen qblen : Z) (code : Z) : res (session T * client) :=
  errorCode ← sprintf10 (dec code);
  key ← concat_str PAGE_ERROR_KEY_PREFIX errorCode;
  '(s, c) ← get_page s c readlen qblen key;
  content ← match s_last_reply s with Some p => reply_cstr p | None => Ok [] end;
  c ← respond c content (str "html") code;
  Ok (s, c).

(** The end of the three handlers of pages. *)
Definition respond_last (s : session T) (c : client) (readlen qblen : Z) : res (session T * client) :=
  match s_last_error s with
  | Some _ => responseHttpError s c readlen qblen 404
  | None =>
      content ← match s_last_reply s with Some p => reply_cstr p | None => Fault NullPointer end;
      c ← respond c content (str "html") 200;
      Ok (s, c)
  end.

Definition responseHttpIndex (s : session T) (c : client) (ms : list bytes) (readlen qblen : Z) : res (session T * client) :=
  key ← concat_str PAGE_KEY_PREFIX (str "1");
  '(s, c) ← get_page s c readlen qblen key;
  respond_last s c readlen qblen.

Definition responseHttpPage (s : session T) (c : client) (ms : list bytes) (readlen qblen : Z) : res (session T * client) :=
  m ← match_at ms 0;
  key ← concat_str PAGE_KEY_PREFIX m;
  '(s, c) ← get_page s c readlen qblen key;
  respond_last s c readlen qblen.

Definition responseHttpContent (s : session T) (c : client) (ms : list bytes) (readlen qblen : Z) : res (session T * client) :=
  m ← match_at ms 0;
  key ← concat_str POST_KEY_PREFIX m;
  '(s, c) ← get_page s c readlen qblen key;
  respond_last s c readlen qblen.

(** [while ((readLength = read(fd, buff, sizeof(buff)))) addReplyString(...)]. *)
Fixpoint send_file (fuel : nat) (o : outst) (contents : bytes) : res outst :=
  match contents with
  | [] => Ok o
  | _ :: _ =>
      match fuel with
      | O => Fault OutOfFuel
      | S f => o ← reply_string o (take BUFSIZ contents); send_file f o (drop BUFSIZ contents)
      end
  end.

Definition responseHttpFile (s : session T) (c : client) (ms : list bytes) (readlen qblen : Z) : res (session T * client) :=
  filePath ← sdsnew junk (Some (cf_public_dir cfg));
  m0 ← match_at ms 0;
  filePath ← sdscat junk filePath m0;
  filePath ← sdscat junk filePath (str ".");
  m1 ← match_at ms 1;
  filePath ← sdscat junk filePath m1;
  match open_file (cstr (sds_mem filePath)) with
  | None => responseHttpError s c readlen qblen 404
  | Some f =>
      let size := match f with Regular contents => Z.of_nat (length contents) | Unreadable n => n end in
      headers ← buildHttpHeaders junk m1 (u32 size) 200;
      o ← reply_string (cl_out c) (sdsval headers);
      match f with
      | Regular contents => o ← send_file (length contents) o contents; Ok (s, with_cl_out c o)
      | Unreadable _ => Fault OutOfBounds        (* the length -1 *)
      end
  end.

Definition callback (r : route) : session T -> client -> list bytes -> Z -> Z -> res (session T * client) :=
  match r with
  | RouteIndex => responseHttpIndex
  | RouteFile => responseHttpFile
  | RoutePage => responseHttpPage
  | RouteContent => responseHttpContent
  end.

(** The first route that matches, and its groups. *)
Fixpoint find_route (routes : list (bytes * route)) (urlPath : bytes) : res (option (route * list bytes)) :=
  match routes with
  | [] => Ok None
  | (pattern, r) :: routes' =>
      m ← preg_match pattern urlPath;
      match m with Some ms => Ok (Some (r, ms)) | None => find_route routes' urlPath end
  end.

(** ** The request *)

Definition read_length (c : reqst) : Z :=
  if (q_reqtype c =? PROTO_REQ_MULTIBULK) && negb (q_multibulklen c =? 0) && negb (q_bulklen c =? -1) &&
     (q_bulklen c >=? PROTO_MBULK_BIG_ARG) then
    let remaining := s32 (u32 (q_bulklen c + 2) - sdslen (q_querybuf c)) in
    if remaining <? PROTO_IOBUF_LEN then remaining else PROTO_IOBUF_LEN
  else PROTO_IOBUF_LEN.

(** From the route on. *)
Definition serve_path (s : session T) (c : client) (readlen qblen : Z) (urlPath : bytes) : res (session T * client) :=
  r ← find_route httpRoutes urlPath;
  match r with
  | Some (r, ms) => callback r s c ms readlen qblen
  | None => responseHttpError s c readlen qblen 404
  end.

Definition bad_request (s : session T) (c : client) : res (session T * client) :=
  c ← respond c [] [] 400; Ok (s, c).

(** [u] is what the stack holds where [struct http_parser_url u] is. *)
Definition serve_url (u : http_parser_url) (s : session T) (c : client) (readlen qblen : Z) (fullUrl : bytes)
  : res (session T * client) :=
  r ← http_parser_parse_url strict fullUrl false u;
  match r with
  | None => bad_request s c
  | Some u =>
      urlPath ← strndup_at fullUrl (field_off u UF_PATH) (field_len u UF_PATH);
      urlQuery ← strndup_at fullUrl (field_off u UF_QUERY) (field_len u UF_QUERY);
      reload ← preg_match (cf_reload_content_query cfg) urlQuery;
      s ← match reload with
          | Some _ => initContents junk sdsZmallocSize embeddedSize client_obuf_limits unixtime shareable lookupCommand
                        other_proc en fs listing cfg s
          | None => Ok s
          end;
      serve_path s c readlen qblen urlPath
  end.

Definition is_get (m : bytes) : bool :=
  (strncmp m (str "GET ") 4 =? 0) || (strncmp m (str "get ") 4 =? 0).

(** [None]: the client was freed. *)
Definition processHttpRequestFromClient (u : http_parser_url) (s : session T) (c : client) (r : read_result)
  : res (session T * option client) :=
  let readlen := read_length (cl_req c) in
  let qblen := sdslen (q_querybuf (cl_req c)) in
  hq ← sdsMakeRoomFor junk (cl_http_querybuf c) readlen;
  let c := mkClient (cl_req c) hq in
  match r with
  | ReadAgain => Ok (s, Some c)
  | ReadError | ReadClosed => Ok (s, None)
  | ReadData data =>
      mem ← mwrite (sds_mem hq) (Z.to_nat qblen) data;
      hq ← sdsIncrLen (set_mem hq mem) (Z.of_nat (length data));
      let c := mkClient (cl_req c) hq in
      '(header, _) ← h3_request_header_parse h3_request_header_new (sds_mem hq) 0;
      method ← ptr_cstr (sds_mem hq) (RequestMethod header);
      '(s, c) ← (if negb (is_get method) then bad_request s c else
                 uri ← ptr_cstr (sds_mem hq) (RequestURI header);
                 serve_url u s c readlen qblen (take (RequestURILen header) uri));
      Ok (s, Some c)
  end.
End Serve.
