(* ===== verification/Serving.v ===== *)
(** * What the server answers

    The specification of Serve.v: the bytes that a request adds to the stream of
    its client. *)

From S2P Require Import Prelude CLib Util Sds Object Reply Resp Dict KeyDict Db Command Helper H3 HttpUrl Template Http Site Pages Serve.
Local Open Scope Z_scope.

Lemma sds_args_ok junk argvs : Forall (fun a => Z.of_nat (length a) < 2 ^ 63) argvs ->
  exists ss, sds_args junk argvs = Ok ss /\ Forall sds_ok ss /\ sdsval <$> ss = argvs.
Proof.
  induction 1 as [|a argvs Ha _ (ss & E & Hs & Hv)]; cbn [sds_args]; [by exists []|].
  destruct (sdsnew_ok junk a) as (x & -> & Hx & Hxv); [lia|]. rewrite E, !bind_ok. exists (x :: ss).
  split; [done|]. split; [by constructor|]. cbn. by rewrite Hxv, Hv.
Qed.

(** The command is the encoding of its arguments. *)
Lemma buildRedisCommand_ok junk argvs :
  Forall no_nul argvs -> Z.of_nat (length (resp_encode argvs)) < 2 ^ 31 ->
  Forall (fun a => Z.of_nat (length a) < 2 ^ 63) argvs ->
  buildRedisCommand junk argvs = Ok (resp_encode argvs ++ [0], Z.of_nat (length (resp_encode argvs))).
Proof.
  intros Hn Hl Hf. unfold buildRedisCommand, convertToSds.
  destruct (sds_args_ok junk argvs Hf) as (ss & -> & Hs & Hv). rewrite bind_ok.
  assert ((fun s => cstr (sds_mem s)) <$> ss = argvs) as ->.
  { subst argvs. clear Hf Hl. induction Hs as [|x ss Hx Hs IH]; [done|]. cbn in Hn |- *. apply Forall_cons in Hn as [Hx0 Hn].
    rewrite IH by done. f_equal. destruct (sds_mem_split x Hx) as [t ->]. by rewrite cstr_app_nul. }
  destruct (sds_args_ok junk argvs Hf) as (ss' & -> & _ & Hv'). rewrite bind_ok.
  unfold formatRedisCommand. rewrite Hv'. by apply format_command_ok.
Qed.

Lemma no_nul_bulk a : no_nul a -> no_nul (bulk a).
Proof.
  intros Ha. unfold bulk, crlf. rewrite !no_nul_app. split_and!; try (by repeat constructor); try done.
  apply udec_no_nul. lia.
Qed.

Lemma no_nul_resp argvs : Forall no_nul argvs -> no_nul (resp_encode argvs).
Proof.
  intros H. unfold resp_encode, crlf. rewrite !no_nul_app. split_and!; try (by repeat constructor); [apply dec_no_nul|].
  apply no_nul_concat. apply Forall_fmap. eapply Forall_impl; [done|]. intros a. apply no_nul_bulk.
Qed.

(** ** A client between requests *)

Lemma reset_flag c b :
  flag (q_out c) CLIENT_REPLY_SKIP_NEXT = false -> flag (q_out c) CLIENT_REPLY_SKIP = false -> 
  b <> CLIENT_ASKING -> flag (q_out (resetClient c)) b = flag (q_out c) b.
Proof.
  unfold resetClient, flag. cbn [q_out]. set (f := c_flags (q_out c)). intros H1 H2 Hb.
  cbn [with_flags c_flags].
  set (f1 := if _ && _ then _ else f).
  assert (forall b, b <> CLIENT_ASKING -> Z.testbit f1 b = Z.testbit f b) as Hf1.
  { intros n Hn. unfold f1. destruct (_ && _); [|done]. by rewrite Z.clearbit_neq by done. }
  rewrite (Z.clearbit_neq f1 CLIENT_REPLY_SKIP CLIENT_REPLY_SKIP_NEXT) by done. rewrite (Hf1 CLIENT_REPLY_SKIP_NEXT), H1 by done.
  destruct (decide (b = CLIENT_REPLY_SKIP)) as [->|Hne]; [by rewrite Z.clearbit_eq|].
  rewrite Z.clearbit_neq by done. by apply Hf1.
Qed.

Section Serving.
Context {T : Type -> Type} `{KD : KeyDict T} `{KL : !KeyDictLaws T} `{P : Pcre} `{M : Markdown}.
Variable junk : Z.
Variable sdsZmallocSize : sds -> Z.
Variable embeddedSize : sds -> Z.
Variable client_obuf_limits : client_type -> obuf_limits.
Variable unixtime : Z.
Variable shareable : bool.
Variable lookupCommand : bytes -> option redisCommand.
Variable other_proc : proc -> session T -> reqst -> res (session T * reqst).
Variable cluster_redirect : redisCommand -> reqst -> option (reqst -> res reqst).
Variable discardTransaction : session T -> reqst -> res (session T * reqst).
Variable freeMemoryIfNeeded : session T -> session T * bool * bool.
Variable handleClientsBlockedOnLists : session T -> res (session T).
Variable en : env.
Variable g : guards.
Variable fs : bytes -> option bytes.
Variable listing : bytes -> list dirent.
Variable open_file : bytes -> option file.
Variable strict : bool.
Variable cfg : config.

Hypothesis zmalloc_size : forall s, 0 <= sdsZmallocSize s < 2 ^ 48.
Hypothesis embedded_size : forall s, 0 <= embeddedSize s < 2 ^ 48.
Hypothesis master : e_masterhost en = false.
Hypothesis loaded : e_loading en = false.
Hypothesis page_command : lookupCommand (str "getNoReplyCommand") = Some getNoReply_entry.
Hypothesis no_blocked_clients : forall s, handleClientsBlockedOnLists s = Ok s.
Hypothesis querybuf_limit : PROTO_IOBUF_LEN <= cf_client_max_querybuf_len cfg.

#[local] Abbreviation now := (e_now en).
#[local] Abbreviation replied' := (replied sdsZmallocSize embeddedSize).
#[local] Abbreviation ready' := (ready sdsZmallocSize embeddedSize).
#[local] Abbreviation get_page' := (get_page junk sdsZmallocSize embeddedSize client_obuf_limits unixtime shareable
  lookupCommand other_proc cluster_redirect discardTransaction freeMemoryIfNeeded handleClientsBlockedOnLists
  false en g cfg).
#[local] Abbreviation error' := (responseHttpError junk sdsZmallocSize embeddedSize client_obuf_limits unixtime shareable
  lookupCommand other_proc cluster_redirect discardTransaction freeMemoryIfNeeded handleClientsBlockedOnLists
  false en g cfg).
#[local] Abbreviation respond_last' := (respond_last junk sdsZmallocSize embeddedSize client_obuf_limits unixtime shareable
  lookupCommand other_proc cluster_redirect discardTransaction freeMemoryIfNeeded handleClientsBlockedOnLists
  false en g cfg).

(** A client that has sent its request: no command is under way, the guards are
    open, and it can take [n] replies. *)
Record serving (n : Z) (c : client) : Prop := {
  sv_ready : ready' n (cl_out c);
  sv_idle : idle (cl_req c);
  sv_querybuf : sds_ok (q_querybuf (cl_req c)) /\ sdsval (q_querybuf (cl_req c)) = [];
  sv_guards : open_guards g en (cl_out c) = true;
  sv_skip : flag (cl_out c) CLIENT_REPLY_SKIP_NEXT = false /\ flag (cl_out c) CLIENT_REPLY_SKIP = false;
  sv_takes : takes_replies (cl_out c) = true;
  sv_plain : flag (cl_out c) CLIENT_LUA = false /\ c_replstate (cl_out c) = REPL_STATE_NONE;
  sv_pending : pending_ok (cl_out c);
  sv_unblocked : flag (cl_out c) CLIENT_UNBLOCKED = false
}.

(** No command is under way, and the query buffer is empty. *)
Definition quiet (c : client) : Prop :=
  idle (cl_req c) /\ sds_ok (q_querybuf (cl_req c)) /\ sdsval (q_querybuf (cl_req c)) = [].

(** Two clients with the same output, up to flags that do not matter. *)
Definition same_client (c c' : client) : Prop :=
  same_out (cl_out c) (cl_out c') /\ (c_fd (cl_out c') = c_fd (cl_out c) /\ c_replstate (cl_out c') = c_replstate (cl_out c) /\
   c_id (cl_out c') = c_id (cl_out c) /\ clients_pending_write (cl_out c') = clients_pending_write (cl_out c) /\
   clients_to_close (cl_out c') = clients_to_close (cl_out c)) /\
  forall b, b <> CLIENT_ASKING -> flag (cl_out c') b = flag (cl_out c) b.

(** A client with something to send is scheduled, or had something to send
    before. *)
Definition writes (c c' : client) : Prop :=
  c_id (cl_out c') = c_id (cl_out c) /\
  (forall b, b <> CLIENT_ASKING -> flag (cl_out c) b = true -> flag (cl_out c') b = true) /\
  (clientHasPendingReplies (cl_out c') = true ->
   flag (cl_out c') CLIENT_PENDING_WRITE = true \/ clientHasPendingReplies (cl_out c) = true).

#[local] Instance writes_preorder : PreOrder writes.
Proof.
  split; [intros c; split_and!; auto|]. intros a b c (H0 & H1 & H2) (H0' & H3 & H4). split; [congruence|]. split; [auto|].
  intros Hc. destruct (H4 Hc) as [|Hb]; [auto|]. destruct (H2 Hb); auto.
Qed.

Lemma same_client_writes c c' : same_client c c' -> writes c c'.
Proof.
  intros (Hs & (_ & _ & Hid & _) & Hf). destruct Hs as (_ & Hb & Hr & _). split; [exact Hid|]. split; [intros b Hne; by rewrite Hf|].
  unfold clientHasPendingReplies. rewrite Hb, Hr. auto.
Qed.

Lemma same_client_stream n c c' : serving n c -> same_client c c' -> stream (cl_out c') = stream (cl_out c).
Proof. intros H (Hs & _). eapply same_out_ok; [exact Hs|apply H]. Qed.

Lemma serving_same n c c' : serving n c -> same_client c c' -> idle (cl_req c') ->
  sds_ok (q_querybuf (cl_req c')) -> sdsval (q_querybuf (cl_req c')) = [] -> serving n c'.
Proof.
  intros [Hr Hi Hq Hg Hs Ht [Hl Hn] Hp Hub] (Hso & (Hfd & Hrs & Hid & Hpl & Hcl) & Hf) Hi' Hq' Hv'. split; try done.
  - destruct Hr as (Ho & Hc & Hb). destruct (same_out_ok _ _ _ _ Hso Ho) as [Ho' _].
    split_and!; [done|by rewrite Hf|]. destruct Hso as (_ & _ & _ & -> & _). done.
  - unfold open_guards in *. by rewrite !Hf.
  - by rewrite !Hf.
  - unfold takes_replies in *. by rewrite Hfd, !Hf.
  - by rewrite Hf, Hrs.
  - unfold pending_ok. by rewrite !Hf, Hid, Hpl, Hcl by done.
  - by rewrite Hf.
Qed.

#[local] Abbreviation process_command := (processCommand junk sdsZmallocSize embeddedSize client_obuf_limits unixtime
  shareable lookupCommand other_proc cluster_redirect discardTransaction freeMemoryIfNeeded handleClientsBlockedOnLists g en).

(** The command for a page goes through the query buffer of the client: it is
    processed once, with its two arguments. *)
Lemma get_page_run (s : session T) c key (Q : session T -> reqst -> Prop) :
  idle (cl_req c) -> sds_ok (q_querybuf (cl_req c)) -> sdsval (q_querybuf (cl_req c)) = [] ->
  no_nul key -> Z.of_nat (length key) <= 16000 ->
  (forall c1 cmd ko, q_argv c1 = [cmd; ko] -> node_ok cmd -> objval cmd = Some (str "getNoReplyCommand") ->
     node_ok ko -> objval ko = Some key -> q_out c1 = cl_out c ->
     exists s' c2, process_command s c1 = Ok (s', Some (c2, true)) /\ q_querybuf c2 = q_querybuf c1 /\ Q s' c2) ->
  exists s' c2, get_page' s c PROTO_IOBUF_LEN 0 key = Ok (s', mkClient (resetClient c2) (cl_http_querybuf c)) /\
    sds_ok (q_querybuf c2) /\ sdsval (q_querybuf c2) = [] /\ Q s' c2.
Proof.
  intros Hi Hq Hv Hk Hl Hcmd.
  set (args := [str "getNoReplyCommand"; key]).
  assert (Forall no_nul args) as Hna by (repeat constructor; done).
  assert (length (resp_encode args) <= length key + 100)%nat as Hlen.
  { unfold resp_encode, args. cbn [fmap list_fmap concat]. rewrite !length_app, !bulk_length.
    assert (length (udec (Z.of_nat (length key))) <= 5)%nat by (apply udec_length_bound; lia).
    change (length (udec (Z.of_nat (length (str "getNoReplyCommand"))))) with 2%nat.
    change (length (str "getNoReplyCommand")) with 17%nat. change (length (dec (Z.of_nat (length [str "getNoReplyCommand"; key])))) with 1%nat.
    change (length crlf) with 2%nat. cbn [length]. lia. }
  unfold get_page, callRedisCommand. fold args.
  rewrite buildRedisCommand_ok; [|done|lia|by repeat constructor; lia]. rewrite bind_ok. unfold PROTO_IOBUF_LEN in *.
  assert (sds_len (q_querybuf (cl_req c)) = 0) as Hl0 by (rewrite <- (sdsval_length _ Hq), Hv; done).
  destruct (sdsMakeRoomFor_room junk (q_querybuf (cl_req c)) (1024 * 16)) as (q & -> & Hq' & Hqv & Hql & Hqt & Hroom); [done|lia|lia|].
  rewrite bind_ok, mem_cstr_ok by (by apply no_nul_resp). rewrite bind_ok. change (Z.to_nat 0) with 0%nat.
  pose proof (sds_ok_mem q Hq') as Hm.
  rewrite mwrite_ok by len_lia. rewrite bind_ok. rewrite take_0, app_nil_l.
  set (m := (resp_encode args ++ [0]) ++ _).
  destruct (sdsIncrLen_mem q m (Z.of_nat (length (resp_encode args)))) as (q2 & -> & Hq2 & Hl2 & Hv2 & _); [done|done| |lia|].
  { unfold m. len_lia. }
  rewrite bind_ok. rewrite Hql, Hl0, Z.add_0_l in *. rewrite Nat2Z.id in Hv2. unfold m in Hv2.
  rewrite <- app_assoc, take_app_length in Hv2.
  destruct (Z.gtb_spec (sdslen q2) (cf_client_max_querybuf_len cfg)) as [Hgt|_]; [unfold sdslen in Hgt; lia|].
  set (c0 := with_querybuf (cl_req c) q2).
  destruct (processInputBuffer_one junk sdsZmallocSize embeddedSize client_obuf_limits unixtime
    process_command (Z.to_nat (sdslen q2)) s c0 args Q) as (s' & c2 & -> & Hqo & Hqe & HQ).
  - unfold at_window, c0. cbn [with_querybuf q_querybuf]. change (Z.to_nat 0) with 0%nat. rewrite drop_0. split_and!; try done; lia.
  - done.
  - done.
  - done.
  - repeat constructor; [done|lia].
  - intros c1 Hn1 Ho1 Hq1 _ _ _ Hout. destruct (q_argv c1) as [|cmd [|ko [|]]] eqn:Ea; try done. injection Ho1 as Hcv Hkv.
    apply Forall_cons in Hn1 as [Hn1 Hn2]. apply Forall_cons in Hn2 as [Hn2 _]. by apply (Hcmd c1 cmd ko).
  - rewrite bind_ok. by exists s', c2.
Qed.

(** Asking for a page leaves the result in the session and sends nothing. *)
Lemma get_page_ok n (s : session T) c key :
  serving n c -> db_ok (s_db s) -> no_nul key -> Z.of_nat (length key) <= 16000 ->
  let '(err, rep, _) := page_result (live now (s_db s) key) in
  exists db' c', get_page' s c PROTO_IOBUF_LEN 0 key = Ok (mkSession db' (s_dirty s) err rep (s_queued s) (s_watched s) (s_watching s), c') /\
    db_ok db' /\ same_live now (s_db s) db' /\ serving n c' /\ same_client c c' /\
    cl_http_querybuf c' = cl_http_querybuf c.
Proof.
  intros Hc Hdb Hk Hl. pose proof Hc as [Hr Hi [Hq Hv] Hg [Hs1 Hs2] Ht _ _ _].
  destruct (get_page_run s c key
    (fun s' c2 => let '(err, rep, _) := page_result (live now (s_db s) key) in
       exists db', s' = mkSession db' (s_dirty s) err rep (s_queued s) (s_watched s) (s_watching s) /\ db_ok db' /\
         same_live now (s_db s) db' /\ q_out c2 = cl_out c))
    as (s' & c2 & -> & Hqo & Hqe & HQ); try done.
  - intros c1 cmd ko Ea Hn1 Hcv Hn2 Hkv Hout. rewrite <- Hout in Hg.
    pose proof (processCommand_page junk sdsZmallocSize embeddedSize client_obuf_limits unixtime shareable en master loaded
      lookupCommand other_proc cluster_redirect discardTransaction freeMemoryIfNeeded handleClientsBlockedOnLists
      page_command no_blocked_clients g s c1 cmd ko key Hg Hdb Ea Hn1 Hcv Hn2 Hkv) as HP.
    destruct (page_result (live now (s_db s) key)) as [[err rep] ok]. destruct HP as (db' & -> & Hdb' & Hlv).
    eexists _, _. split; [reflexivity|]. split; [done|]. exists db'. by split_and!.
  - destruct (page_result (live now (s_db s) key)) as [[err rep] ok].
    destruct HQ as (db' & -> & Hdb' & Hlv & Hout). exists db', (mkClient (resetClient c2) (cl_http_querybuf c)).
    assert (forall b, b <> CLIENT_ASKING -> flag (q_out (resetClient c2)) b = flag (cl_out c) b) as Hfl.
    { intros b Hb. rewrite <- Hout in Hs1, Hs2 |- *. by apply reset_flag. }
    assert (same_client c (mkClient (resetClient c2) (cl_http_querybuf c))) as Hsame.
    { split_and!; [|cbn; by rewrite Hout..|done]. unfold same_out. cbn. by rewrite Hout. }
    split_and!; try done. apply (serving_same n c); try done.
    destruct Hi as (_ & _ & _ & _ & I5 & I6). unfold idle. cbn [cl_req]. rewrite !Hfl by done. by split_and!.
Qed.

(** With a password, asking for a page sends an error in place of an answer,
    and the last result is what it was. *)
Lemma get_page_noauth (s : session T) c key :
  g_requirepass g = true -> g_authenticated g = false -> ready' 1 (cl_out c) -> flag (cl_out c) CLIENT_MULTI = false ->
  idle (cl_req c) -> sds_ok (q_querybuf (cl_req c)) -> sdsval (q_querybuf (cl_req c)) = [] ->
  no_nul key -> Z.of_nat (length key) <= 16000 ->
  exists c', get_page' s c PROTO_IOBUF_LEN 0 key = Ok (s, c').
Proof.
  intros Hp Ha Hr Hm Hi Hq Hv Hk Hl.
  destruct (get_page_run s c key (fun s' _ => s' = s)) as (s' & c2 & -> & _ & _ & ->); try done; [|by eexists].
  intros c1 cmd ko Ea Hn1 Hcv Hn2 Hkv Hout. rewrite <- Hout in Hr, Hm.
  destruct (processCommand_noauth junk sdsZmallocSize embeddedSize client_obuf_limits unixtime shareable zmalloc_size embedded_size en
    lookupCommand other_proc cluster_redirect discardTransaction freeMemoryIfNeeded handleClientsBlockedOnLists
    page_command g s c1 cmd ko Hp Ha Hr Hm Ea Hn1 Hcv) as (out & -> & _).
  eexists _, _. by split_and!.
Qed.

(** ** Answers *)

(** A client stays as it is when only its output changes. *)
Lemma serving_out n m c o : serving n c -> ready' m o -> c_fd o = c_fd (cl_out c) -> c_replstate o = c_replstate (cl_out c) ->
  pending_ok o -> (forall b, b <> CLIENT_PENDING_WRITE -> b <> CLIENT_CLOSE_ASAP -> flag o b = flag (cl_out c) b) ->
  serving m (with_cl_out c o).
Proof.
  intros [Hr Hi Hq Hg Hs Ht [Hlua Hrs] Hp Hub] Hr' Hfd Hrs' Hpk Hf. split; try done; change (cl_out (with_cl_out c o)) with o.
  - destruct Hi as (? & ? & ? & ? & Hb & Hc). unfold idle. cbn [with_cl_out cl_req with_out q_out q_reqtype q_argv q_multibulklen q_bulklen].
    rewrite !Hf by done. by split_and!.
  - unfold open_guards in *. by rewrite !Hf by done.
  - by rewrite !Hf by done.
  - unfold takes_replies in *. by rewrite Hfd, !Hf by done.
  - by rewrite Hf, Hrs'.
  - by rewrite Hf by done.
Qed.

Lemma serving_replied n k m c txt o : serving n c -> replied' k (cl_out c) txt o -> k + m <= n ->
  serving m (with_cl_out c o) /\ stream (cl_out (with_cl_out c o)) = stream (cl_out c) ++ txt /\ writes c (with_cl_out c o).
Proof.
  intros Hc Hrep Hn. pose proof Hc as [Hr _ _ _ _ Ht [Hlua Hrs] Hp _]. pose proof (replied_ready _ _ n k m _ _ _ Hr Hrep Hn) as Hr'.
  destruct Hrep as (Ho & Hst & [(Hid & Hrs' & Hpk & Hpw) Hf] & _ & Hsch). injection Hid as Hid Hfd. rewrite Ht in Hst.
  split; [|split; [done|split; [exact Hid|split; [by intros b _; apply Hpw|intros ?; by apply Hsch]]]]. apply (serving_out n); auto.
Qed.

#[local] Abbreviation respond' := (respond junk sdsZmallocSize embeddedSize client_obuf_limits unixtime).

Lemma respond_ok n c content ct code : serving (n + 2) c -> 0 <= n -> Z.of_nat (length content) < 10 ^ 9 ->
  exists c', respond' c content ct code = Ok c' /\ serving n c' /\
    stream (cl_out c') = stream (cl_out c) ++ http_response ct content code /\ cl_http_querybuf c' = cl_http_querybuf c /\
    writes c c'.
Proof.
  intros Hc Hn Hl. unfold respond.
  destruct (responseHttp_ok junk sdsZmallocSize embeddedSize client_obuf_limits unixtime zmalloc_size embedded_size (cl_out c)
    content ct code) as (o & -> & Ho); [eapply ready_le; [|apply Hc]; lia|done|].
  rewrite bind_ok. exists (with_cl_out c o). destruct (serving_replied (n + 2) 2 n c _ o Hc Ho ltac:(lia)) as (? & ? & ?). by split_and!.
Qed.

(** A text that is served as it was stored: a C string that is not stored as an
    integer, of a length that has nine digits. *)
Definition page_text (v : bytes) : Prop := no_nul v /\ 20 < Z.of_nat (length v) < 10 ^ 9.

Lemma holds_cstr db k v : holds en db k v -> page_text v ->
  exists o, live now db k = Some o /\ o_type o = OBJ_STRING /\ reply_cstr (o_ptr o) = Ok v.
Proof.
  intros (o & Hl & Ho & Hv) (Hn & Hlen). exists o. pose proof Ho as (Ht & _ & He). split_and!; try done.
  unfold objval in Hv. destruct (o_ptr o) as [x|i| |] eqn:Ep; try done.
  - injection Hv as <-. assert (sds_ok x) as Hx by (destruct (o_encoding o); naive_solver).
    unfold reply_cstr. destruct (sds_mem_split x Hx) as [t ->]. by apply mem_cstr_ok.
  - injection Hv as <-. assert (LLONG_MIN <= i <= LLONG_MAX) as Hi by (destruct (o_encoding o); naive_solver).
    pose proof (dec_length_bound i Hi). lia.
Qed.

(** The page of the error 404 is [v]; without one it is empty. *)
Definition error_page (db : redisDb T) (code : bytes) (v : bytes) : Prop :=
  (holds en db (error_key code) v /\ page_text v) \/ (live now db (error_key code) = None /\ v = []).

Definition answered (n : Z) (s : session T) (c : client) (s' : session T) (c' : client) (txt : bytes) : Prop :=
  db_ok (s_db s') /\ same_live now (s_db s) (s_db s') /\ serving n c' /\
  stream (cl_out c') = stream (cl_out c) ++ txt /\ cl_http_querybuf c' = cl_http_querybuf c /\ writes c c'.

Lemma responseHttpError_ok n s c v : 0 <= n -> serving (n + 2) c -> db_ok (s_db s) -> error_page (s_db s) (str "404") v ->
  exists s' c', error' s c PROTO_IOBUF_LEN 0 404 = Ok (s', c') /\ answered n s c s' c' (http_response (str "html") v 404).
Proof.
  intros Hn Hc Hdb Hv. unfold responseHttpError. change (sprintf10 (dec 404)) with (Ok (str "404")). rewrite bind_ok.
  rewrite concat_str_ok by (repeat constructor; done). rewrite bind_ok. fold (error_key (str "404")).
  pose proof (get_page_ok (n + 2) s c (error_key (str "404")) Hc Hdb ltac:(repeat constructor; done) ltac:(done)) as HG.
  destruct Hv as [[Hh Hp]|[Hl ->]].
  - destruct (holds_cstr _ _ _ Hh Hp) as (o & Hlive & Ht & Hr). rewrite Hlive in HG. unfold page_result in HG.
    rewrite bool_decide_eq_true_2 in HG by done. destruct HG as (db' & c1 & -> & Hdb' & Hlv & Hc1 & Hsame & Hhq).
    rewrite bind_ok. cbn [s_last_reply]. rewrite Hr, bind_ok.
    destruct (respond_ok n c1 v (str "html") 404) as (c2 & -> & Hc2 & Hst & Hhq2 & Hw2); [done|lia|by destruct Hp as [_ []]|].
    rewrite bind_ok. eexists _, c2. split; [reflexivity|]. split_and!; try done; [|congruence|].
    + by rewrite Hst, (same_client_stream (n + 2) c c1 Hc Hsame).
    + etrans; [by apply same_client_writes|done].
  - rewrite Hl in HG. destruct HG as (db' & c1 & -> & Hdb' & Hlv & Hc1 & Hsame & Hhq).
    rewrite bind_ok. cbn [s_last_reply]. rewrite bind_ok.
    destruct (respond_ok n c1 [] (str "html") 404) as (c2 & -> & Hc2 & Hst & Hhq2 & Hw2); [done|lia|done|].
    rewrite bind_ok. eexists _, c2. split; [reflexivity|]. split_and!; try done; [|congruence|].
    + by rewrite Hst, (same_client_stream (n + 2) c c1 Hc Hsame).
    + etrans; [by apply same_client_writes|done].
Qed.

(** The answer for a key: its text, or the error page. *)
Definition answers (db : redisDb T) (key v : bytes) (code : Z) : Prop :=
  (holds en db key v /\ page_text v /\ code = 200) \/
  (live now db key = None /\ error_page db (str "404") v /\ code = 404).

Lemma error_page_live db db' code v : same_live now db db' -> error_page db code v -> error_page db' code v.
Proof. intros H. unfold error_page, holds. by rewrite H. Qed.

Lemma serve_key_ok n s c key v code :
  0 <= n -> serving (n + 2) c -> db_ok (s_db s) -> no_nul key -> Z.of_nat (length key) <= 16000 -> answers (s_db s) key v code ->
  exists s' c', ('(s, c) ← get_page' s c PROTO_IOBUF_LEN 0 key; respond_last' s c PROTO_IOBUF_LEN 0) = Ok (s', c') /\
    answered n s c s' c' (http_response (str "html") v code).
Proof.
  intros Hn Hc Hdb Hk Hl Ha. pose proof (get_page_ok (n + 2) s c key Hc Hdb Hk Hl) as HG.
  destruct Ha as [(Hh & Hp & ->)|(Hlive & He & ->)].
  - destruct (holds_cstr _ _ _ Hh Hp) as (o & Hlive & Ht & Hr). rewrite Hlive in HG. unfold page_result in HG.
    rewrite bool_decide_eq_true_2 in HG by done. destruct HG as (db' & c1 & -> & Hdb' & Hlv & Hc1 & Hsame & Hhq).
    rewrite bind_ok. unfold respond_last. cbn [s_last_error s_last_reply]. rewrite Hr, bind_ok.
    destruct (respond_ok n c1 v (str "html") 200) as (c2 & -> & Hc2 & Hst & Hhq2 & Hw2); [done|lia|by destruct Hp as [_ []]|].
    rewrite bind_ok. eexists _, c2. split; [reflexivity|]. split_and!; try done; [|congruence|].
    + by rewrite Hst, (same_client_stream (n + 2) c c1 Hc Hsame).
    + etrans; [by apply same_client_writes|done].
  - rewrite Hlive in HG. destruct HG as (db' & c1 & -> & Hdb' & Hlv & Hc1 & Hsame & Hhq).
    rewrite bind_ok. unfold respond_last. cbn [s_last_error].
    edestruct (responseHttpError_ok n) as (s' & c2 & -> & Hdb2 & Hlv2 & Hc2 & Hst & Hhq2 & Hw2); [done|exact Hc1|exact Hdb'|by eapply error_page_live|].
    eexists s', c2. split; [reflexivity|]. split_and!; try done; [by etrans|by rewrite Hst, (same_client_stream (n + 2) c c1 Hc Hsame)|congruence|].
    etrans; [by apply same_client_writes|done].
Qed.

(** ** Routes *)

#[local] Abbreviation serve_path' := (serve_path junk sdsZmallocSize embeddedSize client_obuf_limits unixtime shareable
  lookupCommand other_proc cluster_redirect discardTransaction freeMemoryIfNeeded handleClientsBlockedOnLists
  false en g open_file cfg).

(** The key that a route asks for. *)
Definition route_key (r : route) (ms : list bytes) : option bytes :=
  match r, ms with
  | RouteIndex, _ => Some (page_key 1)
  | RoutePage, m :: _ => Some (PAGE_KEY_PREFIX ++ m)
  | RouteContent, m :: _ => Some (post_key m)
  | _, _ => None
  end.

Lemma route_key_no_nul r ms key : route_key r ms = Some key -> Forall no_nul ms -> no_nul key.
Proof.
  intros Hk Hms. assert (no_nul PAGE_KEY_PREFIX) as N1 by (repeat constructor; done).
  assert (no_nul POST_KEY_PREFIX) as N2 by (repeat constructor; done).
  destruct r; cbn [route_key] in Hk; [apply Some_inj in Hk as <-; apply no_nul_app; split; [done|apply dec_no_nul]|done|..];
    (destruct Hms as [|m ms Hm _]; [done|]); apply Some_inj in Hk as <-; by apply no_nul_app.
Qed.

(** The handlers of pages ask for their keys and respond with the result. *)
Lemma serve_path_key s c path r ms key :
  find_route httpRoutes path = Ok (Some (r, ms)) -> route_key r ms = Some key -> Forall no_nul ms ->
  serve_path' s c PROTO_IOBUF_LEN 0 path =
  ('(s, c) ← get_page' s c PROTO_IOBUF_LEN 0 key; respond_last' s c PROTO_IOBUF_LEN 0).
Proof.
  intros Hr Hk Hms. unfold serve_path. rewrite Hr, bind_ok.
  assert (no_nul PAGE_KEY_PREFIX) as N1 by (repeat constructor; done).
  assert (no_nul POST_KEY_PREFIX) as N2 by (repeat constructor; done).
  destruct r; cbn [route_key callback] in *; [|done|..].
  - injection Hk as <-. unfold responseHttpIndex. by rewrite concat_str_ok by (done || (repeat constructor; done)).
  - destruct ms as [|m ms]; [done|]. injection Hk as <-. inversion_clear Hms. unfold responseHttpPage.
    change (match_at (m :: ms) 0) with (Ok m). by rewrite bind_ok, concat_str_ok.
  - destruct ms as [|m ms]; [done|]. injection Hk as <-. inversion_clear Hms. unfold responseHttpContent.
    change (match_at (m :: ms) 0) with (Ok m). by rewrite bind_ok, concat_str_ok.
Qed.

Lemma serve_path_page n s c path r ms key v code :
  find_route httpRoutes path = Ok (Some (r, ms)) -> route_key r ms = Some key -> Forall no_nul ms ->
  0 <= n -> serving (n + 2) c -> db_ok (s_db s) -> Z.of_nat (length key) <= 16000 -> answers (s_db s) key v code ->
  exists s' c', serve_path' s c PROTO_IOBUF_LEN 0 path = Ok (s', c') /\ answered n s c s' c' (http_response (str "html") v code).
Proof.
  intros Hr Hk Hms Hn Hc Hdb Hl Ha. rewrite (serve_path_key s c path r ms key) by done.
  apply serve_key_ok; try done. by apply (route_key_no_nul r ms).
Qed.

Lemma serve_path_none n s c path v :
  find_route httpRoutes path = Ok None -> 0 <= n -> serving (n + 2) c -> db_ok (s_db s) -> error_page (s_db s) (str "404") v ->
  exists s' c', serve_path' s c PROTO_IOBUF_LEN 0 path = Ok (s', c') /\ answered n s c s' c' (http_response (str "html") v 404).
Proof. intros Hr Hn Hc Hdb He. unfold serve_path. rewrite Hr, bind_ok. by apply responseHttpError_ok. Qed.

(** ** Files *)

Lemma send_file_ok fuel : forall o contents,
  (length contents <= fuel)%nat -> ready' (Z.of_nat (length (chunks_aux fuel BUFSIZ contents))) o ->
  exists o', send_file junk sdsZmallocSize embeddedSize client_obuf_limits unixtime fuel o contents = Ok o' /\
    replied' (Z.of_nat (length (chunks_aux fuel BUFSIZ contents))) o contents o'.
Proof.
  assert (0 < BUFSIZ)%nat as HB by (unfold BUFSIZ; lia).
  assert (Z.of_nat BUFSIZ <= 8192) as HB2 by (unfold BUFSIZ; lia).
  assert (forall o, ready' 0 o -> replied' 0 o [] o) as Hnil.
  { intros o (? & ? & ?). split; [done|]. split; [by rewrite app_nil_r; destruct (takes_replies o)|]. split; [done|]. split; [lia|]. intros _ _ _ ?. by right. }
  induction fuel as [|fuel IH]; intros o contents Hf Hr.
  - destruct contents; [|cbn in Hf; lia]. exists o. split; [done|]. by apply Hnil.
  - destruct contents as [|x contents]; [exists o; split; [done|by apply Hnil]|]. set (l := x :: contents) in *.
    change (chunks_aux (S fuel) BUFSIZ l) with (take BUFSIZ l :: chunks_aux fuel BUFSIZ (drop BUFSIZ l)) in *.
    change (send_file junk sdsZmallocSize embeddedSize client_obuf_limits unixtime (S fuel) o l) with
      (o ← addReplyString junk sdsZmallocSize embeddedSize client_obuf_limits unixtime o (take BUFSIZ l);
       send_file junk sdsZmallocSize embeddedSize client_obuf_limits unixtime fuel o (drop BUFSIZ l)).
    cbn [length] in Hr |- *. set (n := length (chunks_aux fuel BUFSIZ (drop BUFSIZ l))) in *.
    destruct (addReplyString_replied junk sdsZmallocSize embeddedSize client_obuf_limits unixtime zmalloc_size embedded_size
      o (take BUFSIZ l)) as (o1 & -> & H1); [by eapply ready_le; [|done]; lia|rewrite length_take; lia|]. rewrite bind_ok.
    pose proof (replied_ready _ _ _ 1 (Z.of_nat n) _ _ _ Hr H1 ltac:(lia)) as Hr1.
    destruct (IH o1 (drop BUFSIZ l)) as (o2 & -> & H2); [rewrite length_drop; cbn [l length] in *; lia|done|].
    exists o2. split; [done|]. rewrite <- (take_drop BUFSIZ l). eapply replied_app; [done|done|lia].
Qed.

#[local] Abbreviation file' := (responseHttpFile junk sdsZmallocSize embeddedSize client_obuf_limits unixtime shareable
  lookupCommand other_proc cluster_redirect discardTransaction freeMemoryIfNeeded handleClientsBlockedOnLists
  false en g open_file cfg).

Definition file_path (m0 m1 : bytes) : bytes := cf_public_dir cfg ++ m0 ++ str "." ++ m1.

Lemma file_path_ok s c m0 m1 ms : no_nul (cf_public_dir cfg) -> no_nul m0 -> no_nul m1 ->
  Z.of_nat (length (file_path m0 m1)) < 2 ^ 31 ->
  file' s c (m0 :: m1 :: ms) PROTO_IOBUF_LEN 0 =
  match open_file (file_path m0 m1) with
  | None => error' s c PROTO_IOBUF_LEN 0 404
  | Some f =>
      let size := match f with Regular contents => Z.of_nat (length contents) | Unreadable n => n end in
      headers ← buildHttpHeaders junk m1 (u32 size) 200;
      o ← addReplyString junk sdsZmallocSize embeddedSize client_obuf_limits unixtime (cl_out c) (sdsval headers);
      match f with
      | Regular contents =>
          o ← send_file junk sdsZmallocSize embeddedSize client_obuf_limits unixtime (length contents) o contents;
          Ok (s, with_cl_out c o)
      | Unreadable _ => Fault OutOfBounds
      end
  end.
Proof.
  intros Hd H0 H1 Hl. unfold file_path in *. rewrite !length_app in Hl. change (length (str ".")) with 1%nat in Hl. unfold responseHttpFile.
  destruct (sdsnew_ok junk (cf_public_dir cfg)) as (p & -> & Hp & Hv); [lia|]. rewrite bind_ok.
  change (match_at (m0 :: m1 :: ms) 0) with (Ok m0). change (match_at (m0 :: m1 :: ms) 1) with (Ok m1). rewrite bind_ok.
  pose proof (sdsval_length p Hp) as L0. rewrite Hv in L0.
  destruct (sdscat_ok junk p m0 Hp) as (p1 & -> & Hp1 & Hv1); [lia|]. rewrite bind_ok.
  pose proof (sdsval_length p1 Hp1) as L1. rewrite Hv1, Hv, length_app in L1.
  destruct (sdscat_ok junk p1 (str ".") Hp1) as (p2 & -> & Hp2 & Hv2); [change (length (str ".")) with 1%nat; lia|]. rewrite !bind_ok.
  pose proof (sdsval_length p2 Hp2) as L2. rewrite Hv2, Hv1, Hv, !length_app in L2. change (length (str ".")) with 1%nat in L2.
  destruct (sdscat_ok junk p2 m1 Hp2) as (p3 & -> & Hp3 & Hv3); [lia|]. rewrite bind_ok.
  assert (cstr (sds_mem p3) = cf_public_dir cfg ++ m0 ++ str "." ++ m1) as ->; [|done].
  destruct (sds_mem_split p3 Hp3) as [t ->]. rewrite Hv3, Hv2, Hv1, Hv, <- !app_assoc.
  replace (cf_public_dir cfg ++ m0 ++ str "." ++ m1 ++ 0 :: t) with ((cf_public_dir cfg ++ m0 ++ str "." ++ m1) ++ 0 :: t)
    by (by rewrite <- !app_assoc).
  apply cstr_app_nul. rewrite !no_nul_app. split_and!; try done. repeat constructor; done.
Qed.

(** A file is sent whole, with the type of its extension. *)
Lemma responseHttpFile_ok k s c m0 m1 ms contents n :
  no_nul (cf_public_dir cfg) -> no_nul m0 -> no_nul m1 -> Z.of_nat (length (file_path m0 m1)) < 2 ^ 31 ->
  open_file (file_path m0 m1) = Some (Regular contents) -> Z.of_nat (length contents) < 10 ^ 9 ->
  n = Z.of_nat (length (chunks BUFSIZ contents)) -> 0 <= k -> serving (k + (1 + n)) c ->
  exists c', file' s c (m0 :: m1 :: ms) PROTO_IOBUF_LEN 0 = Ok (s, c') /\ serving k c' /\
    stream (cl_out c') = stream (cl_out c) ++ http_response m1 contents 200 /\ cl_http_querybuf c' = cl_http_querybuf c /\
    writes c c'.
Proof.
  intros Hd H0 H1 Hl Hf Hlen Hn Hk Hc. rewrite file_path_ok by done. rewrite Hf. cbv zeta.
  unfold u32. rewrite Z.mod_small by lia.
  destruct (buildHttpHeaders_ok junk m1 (Z.of_nat (length contents)) 200) as (h & -> & _ & Hv); [lia|]. rewrite bind_ok, Hv.
  pose proof (response_headers_length m1 (Z.of_nat (length contents)) 200 ltac:(lia)) as Hlh.
  destruct (addReplyString_replied junk sdsZmallocSize embeddedSize client_obuf_limits unixtime zmalloc_size embedded_size
    (cl_out c) (response_headers m1 (Z.of_nat (length contents)) 200)) as (o1 & -> & Ho1);
    [eapply ready_le; [|apply Hc]; lia|lia|]. rewrite bind_ok.
  pose proof (replied_ready _ _ _ 1 n _ _ _ (sv_ready _ _ Hc) Ho1 ltac:(lia)) as Hr1.
  destruct (send_file_ok (length contents) o1 contents ltac:(lia)) as (o2 & -> & Ho2); [by rewrite Hn in Hr1|]. rewrite bind_ok.
  exists (with_cl_out c o2). split; [done|]. fold (chunks BUFSIZ contents) in Ho2. rewrite <- Hn in Ho2.
  destruct (serving_replied (k + (1 + n)) (1 + n) k c (http_response m1 contents 200) o2 Hc) as (Hs & Hst & Hw); [|lia|done].
  by eapply (replied_app _ _ 1 n).
Qed.

Lemma responseHttpFile_missing n s c m0 m1 ms v :
  no_nul (cf_public_dir cfg) -> no_nul m0 -> no_nul m1 -> Z.of_nat (length (file_path m0 m1)) < 2 ^ 31 ->
  open_file (file_path m0 m1) = None -> 0 <= n -> serving (n + 2) c -> db_ok (s_db s) -> error_page (s_db s) (str "404") v ->
  exists s' c', file' s c (m0 :: m1 :: ms) PROTO_IOBUF_LEN 0 = Ok (s', c') /\
    answered n s c s' c' (http_response (str "html") v 404).
Proof. intros Hd H0 H1 Hl Hf Hn Hc Hdb He. rewrite file_path_ok by done. rewrite Hf. by apply responseHttpError_ok. Qed.

(** ** Requests *)

#[local] Abbreviation serve_url' := (serve_url junk sdsZmallocSize embeddedSize client_obuf_limits unixtime shareable
  lookupCommand other_proc cluster_redirect discardTransaction freeMemoryIfNeeded handleClientsBlockedOnLists
  false en g fs listing open_file strict cfg).
#[local] Abbreviation process' := (processHttpRequestFromClient junk sdsZmallocSize embeddedSize client_obuf_limits unixtime
  shareable lookupCommand other_proc cluster_redirect discardTransaction freeMemoryIfNeeded handleClientsBlockedOnLists
  false en g fs listing open_file strict cfg).
#[local] Abbreviation init' := (initContents junk sdsZmallocSize embeddedSize client_obuf_limits unixtime shareable
  lookupCommand other_proc en fs listing cfg).

(** What [strndup] gives for the query: the query, or what the bytes of the
    structure say when the URL has none. *)
Definition query_seen (u : http_parser_url) (path : bytes) (query fragment : option bytes) : res bytes :=
  match query with
  | Some ((_ :: _) as q) => Ok q
  | _ => strndup_at (print_url path query fragment) (field_off u UF_QUERY) (field_len u UF_QUERY)
  end.

Lemma strndup_field buf u f v : field_value buf u f = v -> v <> [] -> no_nul v ->
  strndup_at buf (field_off u f) (field_len u f) = Ok v.
Proof.
  intros Hv Hne Hn. unfold field_value in Hv. unfold strndup_at.
  destruct (Z.eqb_spec (field_len u f) 0) as [E|_]; [by rewrite E in Hv; subst|].
  destruct (Z.leb_spec (field_off u f) (Z.of_nat (length buf))) as [_|Hlt].
  - unfold strndup. rewrite Hv. by rewrite cstr_id.
  - rewrite drop_ge in Hv by lia. rewrite take_nil in Hv. by subst.
Qed.

Lemma url_char_nonzero c : IS_URL_CHAR strict c = true -> c <> 0.
Proof. intros H ->. revert H. destruct strict; vm_compute; discriminate. Qed.

Lemma path_no_nul path query fragment : origin_wf strict path query fragment = true ->
  no_nul path /\ path <> [] /\ forall q, query = Some q -> no_nul q.
Proof.
  unfold origin_wf. destruct path as [|c p]; [done|]. rewrite !andb_true_iff. intros [[[->%Z.eqb_eq Hp] Hq] _].
  split_and!; [|done|].
  - constructor; [done|]. apply Forall_forall. intros x Hx. eapply url_char_nonzero, forallb_elem; done.
  - intros q ->. apply Forall_forall. intros x Hx. pose proof (forallb_elem _ _ x Hq Hx) as Hc.
    unfold query_char in Hc. intros ->. revert Hc. destruct strict; vm_compute; discriminate.
Qed.

Lemma serve_url_ok u s c path query fragment q r :
  length (field_data u) = 7%nat -> origin_wf strict path query fragment = true ->
  Z.of_nat (length (print_url path query fragment)) < 2 ^ 16 ->
  query_seen u path query fragment = Ok q -> preg_match (cf_reload_content_query cfg) q = Ok r ->
  serve_url' u s c PROTO_IOBUF_LEN 0 (print_url path query fragment) =
  (s ← match r with Some _ => init' s | None => Ok s end; serve_path' s c PROTO_IOBUF_LEN 0 path).
Proof.
  intros Hu Hwf Hn Hq Hr. unfold serve_url. rewrite (origin_parse strict u path query fragment) by done. rewrite bind_ok.
  destruct (path_no_nul _ _ _ Hwf) as (Np & Hne & Nq).
  destruct path as [|c0 p]; [done|]. set (path := c0 :: p) in *.
  pose proof (origin_fields u path query fragment UF_PATH Hu Hn) as [_ Hp].
  pose proof (origin_fields u path query fragment UF_QUERY Hu Hn) as Hqf.
  rewrite (strndup_field _ _ UF_PATH path) by done. rewrite bind_ok.
  assert (strndup_at (print_url path query fragment) (field_off (origin_url u path query fragment) UF_QUERY)
    (field_len (origin_url u path query fragment) UF_QUERY) = Ok q) as ->.
  { unfold query_seen in Hq. destruct query as [[|x t]|].
    - destruct Hqf as (_ & -> & ->). exact Hq.
    - injection Hq as <-. apply strndup_field; [apply Hqf|done|by apply (Nq (x :: t))].
    - destruct Hqf as (_ & -> & ->). exact Hq. }
  rewrite bind_ok, Hr, bind_ok. done.
Qed.

(** What [read] gives is at the start of the buffer of the request. *)
Lemma process_data u s c data :
  quiet c -> sds_ok (cl_http_querybuf c) -> sds_len (cl_http_querybuf c) < 2 ^ 62 ->
  Z.of_nat (length data) <= PROTO_IOBUF_LEN ->
  exists hq t, sds_ok hq /\ sds_len hq = sds_len (cl_http_querybuf c) + Z.of_nat (length data) /\
    sds_mem hq = data ++ t /\ 0 ∈ t /\
    process' u s c (ReadData data) =
    ('(header, _) ← h3_request_header_parse h3_request_header_new (sds_mem hq) 0;
     method ← ptr_cstr (sds_mem hq) (RequestMethod header);
     '(s, c) ← (if negb (is_get method)
                then bad_request junk sdsZmallocSize embeddedSize client_obuf_limits unixtime s (mkClient (cl_req c) hq) else
                uri ← ptr_cstr (sds_mem hq) (RequestURI header);
                serve_url' u s (mkClient (cl_req c) hq) PROTO_IOBUF_LEN 0 (take (RequestURILen header) uri));
     Ok (s, Some c)).
Proof.
  intros Hc Hq Hl Hlen. pose proof Hc as ((I1 & _) & Hq0 & Hv0).
  unfold processHttpRequestFromClient.
  assert (read_length (cl_req c) = PROTO_IOBUF_LEN) as -> by (unfold read_length; by rewrite I1).
  assert (sdslen (q_querybuf (cl_req c)) = 0) as -> by (unfold sdslen; rewrite <- (sdsval_length _ Hq0), Hv0; done).
  destruct (sdsMakeRoomFor_room junk (cl_http_querybuf c) PROTO_IOBUF_LEN) as (h & -> & Hh & Hhv & Hhl & Hht & Hroom);
    [done|unfold PROTO_IOBUF_LEN; lia|unfold PROTO_IOBUF_LEN; lia|].
  rewrite bind_ok. cbn [cl_req]. change (Z.to_nat 0) with 0%nat. pose proof (sds_ok_mem h Hh). pose proof (sds_ok_len h Hh).
  rewrite mwrite_ok by lia. rewrite bind_ok, take_0, app_nil_l. set (m := data ++ _).
  destruct (sdsIncrLen_mem h m (Z.of_nat (length data))) as (hq & -> & Hhq & Hlq & Hvq & _); [done|done| |lia|].
  { unfold m. rewrite length_app, length_drop. lia. }
  rewrite bind_ok. destruct (sds_mem_split hq Hhq) as [t Ht].
  exists hq, (take (Z.to_nat (sds_len h + Z.of_nat (length data)) - length data) (drop (0 + length data) (sds_mem h)) ++ 0 :: t).
  split_and!; [done|lia| |set_solver|done].
  rewrite Ht, Hvq. unfold m. rewrite take_app_ge by lia. by rewrite <- app_assoc.
Qed.

(** The method is compared with the space after it. *)
Lemma is_get_method method z : token method = true ->
  is_get (cstr (method ++ [32] ++ z)) = bool_decide (method = str "GET" \/ method = str "get").
Proof.
  intros Ht. assert (forall x, x ∈ method -> x <> 0 /\ x <> 32) as Hx.
  { intros x Hx. pose proof (token_elem method x Ht Hx) as Hc. split; intros ->; vm_compute in Hc; discriminate. }
  assert (no_nul method) as Hnn by (apply Forall_forall; intros x Hin; by apply Hx).
  rewrite cstr_app by done. change (cstr ([32] ++ z)) with (32 :: cstr z).
  assert (forall w : bytes, length w = 3%nat -> no_nul w -> 32 ∉ w ->
    (strncmp (method ++ 32 :: cstr z) (w ++ [32]) 4 =? 0) = bool_decide (method = w)) as Hcmp.
  { intros w Hw Hw0 Hw1. apply eq_true_iff_eq. rewrite Z.eqb_eq, bool_decide_eq_true.
    assert (no_nul (w ++ [32])) as Hb by (apply Forall_app; split; [done|by repeat constructor]).
    rewrite strncmp_zero by (done || rewrite length_app, Hw; cbn; lia).
    rewrite (take_ge (w ++ [32])) by (rewrite length_app, Hw; cbn; lia). split.
    - intros E. rewrite <- (take_drop 4 (method ++ _)) in E.
      assert (method ++ 32 :: cstr z = w ++ 32 :: drop 4 (method ++ 32 :: cstr z)) as Heq.
      { rewrite <- (take_drop 4 (method ++ 32 :: cstr z)) at 1. rewrite take_drop in E. rewrite E. by rewrite <- app_assoc. }
      apply (app_cut_inj 32 method w _ _) in Heq; [done|intros Hin; by destruct (Hx 32 Hin)|done].
    - intros ->. change (32 :: cstr z) with ([32] ++ cstr z). rewrite app_assoc.
      apply take_app_length'. rewrite length_app, Hw. done. }
  unfold is_get. change (str "GET ") with (str "GET" ++ [32]). change (str "get ") with (str "get" ++ [32]).
  rewrite !Hcmp by (done || by_compute || set_solver). by rewrite bool_decide_or.
Qed.

(** The request that [read] gives is parsed: what is served is its URI, if the method
    is GET. *)
Lemma process_header u s c method uri version fields rest :
  quiet c -> sds_ok (cl_http_querybuf c) -> sds_len (cl_http_querybuf c) < 2 ^ 62 ->
  let data := print_request method uri version fields ++ rest in
  request_wf method uri version fields = true -> (length fields <= MAX_HEADER_SIZE)%nat ->
  Z.of_nat (length data) <= PROTO_IOBUF_LEN ->
  exists hq, sds_ok hq /\ sds_len hq = sds_len (cl_http_querybuf c) + Z.of_nat (length data) /\
    process' u s c (ReadData data) =
    ('(s, c) ← (if bool_decide (method = str "GET" \/ method = str "get")
                then serve_url' u s (mkClient (cl_req c) hq) PROTO_IOBUF_LEN 0 uri
                else bad_request junk sdsZmallocSize embeddedSize client_obuf_limits unixtime s (mkClient (cl_req c) hq));
     Ok (s, Some c)).
Proof.
  intros Hc Hq Hl data Hwf Hf Hlen. destruct (process_data u s c data Hc Hq Hl Hlen) as (hq & t & Hhq & Hlq & Ht & Hz0 & ->).
  exists hq. split; [done|]. split; [done|].
  destruct (request_wf_spec _ _ _ _ Hwf) as (Hm & Hu & _).
  assert (sds_mem hq = print_request method uri version fields ++ rest ++ t) as Hmem by (rewrite Ht; unfold data; by rewrite <- app_assoc).
  rewrite (header_parse_ok (sds_mem hq) 0 method uri version fields (rest ++ t)) by (done || (by rewrite drop_0)).
  rewrite bind_ok. cbn [parsed RequestMethod RequestURI RequestURILen ptr_cstr]. rewrite drop_0.
  assert (0 ∈ sds_mem hq) as Hz by (rewrite Ht; set_solver).
  assert (forall m, 0 ∈ m -> mem_cstr m = Ok (cstr m)) as Hcs by (intros; unfold mem_cstr; by rewrite bool_decide_eq_true_2).
  rewrite (Hcs (sds_mem hq) Hz), bind_ok.
  assert (is_get (cstr (sds_mem hq)) = bool_decide (method = str "GET" \/ method = str "get")) as ->.
  { rewrite Hmem. unfold print_request. rewrite <- !app_assoc. by apply is_get_method. }
  destruct (bool_decide (method = str "GET" \/ method = str "get")); [|done]. cbn [negb].
  assert (drop (0 + length method + 1) (sds_mem hq) = uri ++ [32] ++ version ++ CRLF ++ concat (print_field <$> fields) ++ CRLF ++ rest ++ t) as Hd.
  { rewrite Hmem. unfold print_request. cbn [Nat.add]. rewrite <- !app_assoc, <- drop_drop, drop_app_length. done. }
  rewrite Hd, Hcs by set_solver. rewrite bind_ok.
  assert (no_nul uri) as Hnu.
  { apply Forall_forall. intros x Hx. pose proof (token_elem uri x Hu Hx) as Hc'. intros ->. done. }
  assert (forall z, take (length uri) (cstr (uri ++ z)) = uri) as ->; [|done].
  { intros z. rewrite cstr_app by done. apply take_app_length. }
Qed.

(** A request with another method, or with a target that is no URL. *)
Definition refused_data (u : http_parser_url) (data : bytes) : Prop :=
  exists method uri version fields rest,
    data = print_request method uri version fields ++ rest /\ request_wf method uri version fields = true /\
    (length fields <= MAX_HEADER_SIZE)%nat /\ Z.of_nat (length data) <= PROTO_IOBUF_LEN /\
    (method = str "GET" \/ method = str "get" -> http_parser_parse_url strict uri false u = Ok None).

(** A request of one word: no method is found, and it is read all the same. *)
Lemma process_word u s c word rest :
  quiet c -> sds_ok (cl_http_querybuf c) -> sds_len (cl_http_querybuf c) < 2 ^ 62 ->
  token word = true -> Z.of_nat (length (word ++ CRLF ++ rest)) <= PROTO_IOBUF_LEN ->
  process' u s c (ReadData (word ++ CRLF ++ rest)) = Fault NullPointer.
Proof.
  intros Hc Hq Hl Hw Hlen. destruct (process_data u s c _ Hc Hq Hl Hlen) as (hq & t & _ & _ & Ht & _ & ->).
  unfold h3_request_header_parse. destruct (request_line_word h3_request_header_new word (sds_mem hq) 0 (rest ++ t) Hw) as (h & -> & Hh).
  { rewrite drop_0, Ht. by rewrite <- !app_assoc. }
  rewrite !bind_ok, Hh. done.
Qed.

(** The bytes of a GET request for a path: [q] is what is taken for its
    query. *)
Definition request_for (u : http_parser_url) (path q data : bytes) : Prop :=
  exists method version fields rest query fragment,
    data = print_request method (print_url path query fragment) version fields ++ rest /\
    (method = str "GET" \/ method = str "get") /\
    request_wf method (print_url path query fragment) version fields = true /\
    (length fields <= MAX_HEADER_SIZE)%nat /\ Z.of_nat (length data) <= PROTO_IOBUF_LEN /\
    origin_wf strict path query fragment = true /\ length (field_data u) = 7%nat /\
    query_seen u path query fragment = Ok q.

Lemma serving_quiet k c : serving k c -> quiet c.
Proof. by intros [_ ? [] _ _ _ _ _ _]. Qed.

Lemma serving_hq k c hq : serving k c -> serving k (mkClient (cl_req c) hq).
Proof. by intros []. Qed.

(** Serving a request is building the site, if the query asks for it, and
    serving the path. *)
Lemma process_request_for u s c path q data r :
  request_for u path q data -> preg_match (cf_reload_content_query cfg) q = Ok r ->
  quiet c -> sds_ok (cl_http_querybuf c) -> sds_len (cl_http_querybuf c) < 2 ^ 62 ->
  exists hq, sds_ok hq /\ sds_len hq = sds_len (cl_http_querybuf c) + Z.of_nat (length data) /\
    process' u s c (ReadData data) =
    (s ← match r with Some _ => init' s | None => Ok s end;
     '(s, c) ← serve_path' s (mkClient (cl_req c) hq) PROTO_IOBUF_LEN 0 path; Ok (s, Some c)).
Proof.
  intros (method & version & fields & rest & query & fragment & -> & Hm & Hwf & Hf & Hlen & Ho & Hu & Hq) Hr Hc Hh Hl.
  destruct (process_header u s c method (print_url path query fragment) version fields rest Hc Hh Hl Hwf Hf Hlen)
    as (hq & Hhq & Hlq & ->). rewrite bool_decide_eq_true_2 by done.
  exists hq. split; [done|]. split; [done|]. rewrite (serve_url_ok u s _ path query fragment q r) by
    (done || (unfold print_request, PROTO_IOBUF_LEN in Hlen; rewrite !length_app in Hlen; lia)).
  destruct (match r with Some _ => init' s | None => Ok s end) as [s1|]; [|done]. by rewrite !bind_ok.
Qed.

(** ** The answer to a read *)

(** What a read is answered with, and the number of replies that the answer is
    made of: the read begins with a complete request, which does not ask for a
    reload; what follows the request is not looked at. *)
Inductive asks (db : redisDb T) (u : http_parser_url) (data : bytes) : bytes -> nat -> Prop :=
  | asks_page path q key r ms v code :
      request_for u path q data -> preg_match (cf_reload_content_query cfg) q = Ok None ->
      find_route httpRoutes path = Ok (Some (r, ms)) -> route_key r ms = Some key -> Forall no_nul ms ->
      Z.of_nat (length key) <= 16000 -> answers db key v code ->
      asks db u data (http_response (str "html") v code) 2
  | asks_nothing path q v :
      request_for u path q data -> preg_match (cf_reload_content_query cfg) q = Ok None ->
      find_route httpRoutes path = Ok None -> error_page db (str "404") v ->
      asks db u data (http_response (str "html") v 404) 2
  | asks_file path q m0 m1 ms contents :
      request_for u path q data -> preg_match (cf_reload_content_query cfg) q = Ok None ->
      find_route httpRoutes path = Ok (Some (RouteFile, m0 :: m1 :: ms)) ->
      no_nul (cf_public_dir cfg) -> no_nul m0 -> no_nul m1 -> Z.of_nat (length (file_path m0 m1)) < 2 ^ 31 ->
      open_file (file_path m0 m1) = Some (Regular contents) -> Z.of_nat (length contents) < 10 ^ 9 ->
      asks db u data (http_response m1 contents 200) (S (length (chunks BUFSIZ contents)))
  | asks_no_file path q m0 m1 ms v :
      request_for u path q data -> preg_match (cf_reload_content_query cfg) q = Ok None ->
      find_route httpRoutes path = Ok (Some (RouteFile, m0 :: m1 :: ms)) ->
      no_nul (cf_public_dir cfg) -> no_nul m0 -> no_nul m1 -> Z.of_nat (length (file_path m0 m1)) < 2 ^ 31 ->
      open_file (file_path m0 m1) = None -> error_page db (str "404") v ->
      asks db u data (http_response (str "html") v 404) 2
  | asks_refused : refused_data u data -> asks db u data (http_response [] [] 400) 2.

Lemma answers_live db db' key v code : same_live now db db' -> answers db key v code -> answers db' key v code.
Proof.
  intros Hl [(Hh & Hrest)|(Hk & He & Hc)]; [left|right].
  - split; [|exact Hrest]. unfold holds in *. by rewrite Hl.
  - split; [by rewrite Hl|]. split; [by eapply error_page_live|exact Hc].
Qed.

Lemma asks_live db db' u data out k : same_live now db db' -> asks db u data out k -> asks db' u data out k.
Proof.
  intros Hl [path q key r ms v code H1 H2 H3 H4 H5 H6 Ha|path q v H1 H2 H3 He|
    path q m0 m1 ms contents H1 H2 H3 H4 H5 H6 H7 H8 H9|path q m0 m1 ms v H1 H2 H3 H4 H5 H6 H7 H8 He|H].
  - exact (asks_page _ _ _ path q key r ms v code H1 H2 H3 H4 H5 H6 (answers_live _ _ _ _ _ Hl Ha)).
  - exact (asks_nothing _ _ _ path q v H1 H2 H3 (error_page_live _ _ _ _ Hl He)).
  - exact (asks_file _ _ _ path q m0 m1 ms contents H1 H2 H3 H4 H5 H6 H7 H8 H9).
  - exact (asks_no_file _ _ _ path q m0 m1 ms v H1 H2 H3 H4 H5 H6 H7 H8 (error_page_live _ _ _ _ Hl He)).
  - exact (asks_refused _ _ _ H).
Qed.

Lemma asks_some db u data out k : asks db u data out k -> (0 < k)%nat /\ Z.of_nat (length data) <= PROTO_IOBUF_LEN.
Proof.
  intros H. assert (forall path q, request_for u path q data -> Z.of_nat (length data) <= PROTO_IOBUF_LEN) as Hr.
  { intros path q (? & ? & ? & ? & ? & ? & _ & _ & _ & _ & H' & _). exact H'. }
  destruct H as [path q key r ms v code H1|path q v H1|path q m0 m1 ms contents H1|path q m0 m1 ms v H1|H1];
    (split; [lia|]); [exact (Hr _ _ H1)..|]. destruct H1 as (? & ? & ? & ? & ? & _ & _ & _ & H' & _). exact H'.
Qed.

(** The read is answered as [asks] says. *)
Lemma read_ok n s c u data out k : asks (s_db s) u data out k -> 0 <= n -> serving (n + Z.of_nat k) c ->
  sds_ok (cl_http_querybuf c) -> sds_len (cl_http_querybuf c) < 2 ^ 62 -> db_ok (s_db s) ->
  exists s' c' hq, process' u s c (ReadData data) = Ok (s', Some c') /\ sds_ok hq /\
    sds_len hq = sds_len (cl_http_querybuf c) + Z.of_nat (length data) /\ answered n s (mkClient (cl_req c) hq) s' c' out.
Proof.
  intros H Hn Hc Hh Hl Hdb. pose proof (serving_quiet _ _ Hc) as Hqt.
  assert (forall path q, request_for u path q data -> preg_match (cf_reload_content_query cfg) q = Ok None ->
    (forall hq, exists s' c', serve_path' s (mkClient (cl_req c) hq) PROTO_IOBUF_LEN 0 path = Ok (s', c') /\
       answered n s (mkClient (cl_req c) hq) s' c' out) ->
    exists s' c' hq, process' u s c (ReadData data) = Ok (s', Some c') /\ sds_ok hq /\
      sds_len hq = sds_len (cl_http_querybuf c) + Z.of_nat (length data) /\ answered n s (mkClient (cl_req c) hq) s' c' out) as Hserve.
  { intros path q Hreq Hq Hs. destruct (process_request_for u s c path q data None Hreq Hq Hqt Hh Hl) as (hq & H1 & H2 & ->).
    cbv iota. rewrite bind_ok. destruct (Hs hq) as (s' & c' & -> & Ha). rewrite bind_ok. by exists s', c', hq. }
  destruct H as [path q key r ms v code Hreq Hq Hr Hk Hms Hkl Ha|path q v Hreq Hq Hr He|
    path q m0 m1 ms contents Hreq Hq Hr Hd H0 H1 Hfl Hf Hlen|path q m0 m1 ms v Hreq Hq Hr Hd H0 H1 Hfl Hf He|Hb].
  - apply (Hserve path q Hreq Hq). intros hq.
    exact (serve_path_page n s _ path r ms key v code Hr Hk Hms Hn (serving_hq _ _ _ Hc) Hdb Hkl Ha).
  - apply (Hserve path q Hreq Hq). intros hq. exact (serve_path_none n s _ path v Hr Hn (serving_hq _ _ _ Hc) Hdb He).
  - apply (Hserve path q Hreq Hq). intros hq. unfold serve_path. rewrite Hr, bind_ok. cbn [callback].
    destruct (responseHttpFile_ok n s (mkClient (cl_req c) hq) m0 m1 ms contents (Z.of_nat (length (chunks BUFSIZ contents))) Hd H0 H1 Hfl Hf Hlen eq_refl Hn)
      as (c' & E & Hsv & Hst & Hhq & Hw).
    { apply serving_hq. by replace (n + (1 + Z.of_nat (length (chunks BUFSIZ contents)))) with (n + Z.of_nat (S (length (chunks BUFSIZ contents)))) by lia. }
    exists s, c'. split; [exact E|]. by split_and!.
  - apply (Hserve path q Hreq Hq). intros hq. unfold serve_path. rewrite Hr, bind_ok. cbn [callback].
    exact (responseHttpFile_missing n s _ m0 m1 ms v Hd H0 H1 Hfl Hf Hn (serving_hq _ _ _ Hc) Hdb He).
  - destruct Hb as (method & uri & version & fields & rest & -> & Hwf & Hf & Hlen & Hbad).
    destruct (process_header u s c method uri version fields rest Hqt Hh Hl Hwf Hf Hlen) as (hq & H1 & H2 & ->).
    set (c1 := mkClient (cl_req c) hq).
    assert (exists s' c', bad_request junk sdsZmallocSize embeddedSize client_obuf_limits unixtime s c1 = Ok (s', c') /\
      answered n s c1 s' c' (http_response [] [] 400)) as (s' & c' & E & Ha).
    { unfold bad_request. destruct (respond_ok n c1 [] [] 400) as (c2 & -> & ? & ? & ? & ?); [by apply serving_hq|done|done|].
      rewrite bind_ok. exists s, c2. split; [done|]. by split_and!. }
    exists s', c', hq. case_bool_decide as Hg.
    + unfold serve_url. rewrite (Hbad Hg), bind_ok, E, bind_ok. by split_and!.
    + rewrite E, bind_ok. by split_and!.
Qed.
End Serving.
