(* ===== verification/Connection.v ===== *)
(** * Connections ([src/networking.c], [src/blogd.c])

    A connection from its acceptance to its end: requests are read, and the
    answers are written before the event loop sleeps or when the socket is
    writable. The events come in any order; what the system calls do is in the
    event. *)

From S2P Require Import Prelude CLib Util Sds Object Reply Resp Dict KeyDict Db Command Helper H3 HttpUrl Template Http Site Pages Serve Serving.
Local Open Scope Z_scope.

(** ** Clients *)

Definition CLIENT_UNIX_SOCKET : Z := 11.

(** The lists [server.clients] and [server.unblocked_clients]. The other two lists
    with clients are fields of a client's output. *)
Record registry := mkRegistry { reg_clients : list Z; reg_unblocked : list Z }.

(** The fields of the parts that are modelled. [registered] is the result of
    [aeCreateFileEvent]. The last result of a command is in the session. *)
Definition createClient (junk : Z) (reg : registry) (pending to_close : list Z) (next_id fd : Z) (registered : bool)
    : res (option (client * registry)) :=
  if negb (fd =? -1) && negb registered then Ok None else
  querybuf ← sdsempty junk;
  http_querybuf ← sdsempty junk;
  let reg := if negb (fd =? -1) then mkRegistry (reg_clients reg ++ [next_id]) (reg_unblocked reg) else reg in
  Ok (Some (mkClient
        (mkReq querybuf 0 [] 0 (-1) false
           (mkOut next_id fd 0 REPL_STATE_NONE false (replicate (Z.to_nat PROTO_REPLY_CHUNK_BYTES) junk) 0 [] 0 0 0 pending to_close))
        http_querybuf, reg)).

Definition with_fd (c : outst) (fd : Z) : outst :=
  mkOut (c_id c) fd (c_flags c) (c_replstate c) (c_put_online_on_ack c) (c_buf c) (c_bufpos c) (c_reply c)
        (c_reply_bytes c) (c_sentlen c) (c_soft_limit_time c) (clients_pending_write c) (clients_to_close c).

(** [listSearchKey] and [listDelNode], with the assertion between them. *)
Definition list_remove (id : Z) (l : list Z) : res (list Z) :=
  if bool_decide (id ∈ l) then Ok (filter (fun i => i <> id) l) else Fault AssertFailed.

Definition unlinkClient (reg : registry) (c : outst) : res (registry * outst) :=
  '(reg, c) ← (if negb (c_fd c =? -1) then
                 l ← list_remove (c_id c) (reg_clients reg);
                 Ok (mkRegistry l (reg_unblocked reg), with_fd c (-1))
               else Ok (reg, c));
  c ← (if flag c CLIENT_PENDING_WRITE then
         l ← list_remove (c_id c) (clients_pending_write c);
         Ok (with_flags (with_lists c l (clients_to_close c)) (Z.clearbit (c_flags c) CLIENT_PENDING_WRITE))
       else Ok c);
  if flag c CLIENT_UNBLOCKED then
    l ← list_remove (c_id c) (reg_unblocked reg);
    Ok (mkRegistry (reg_clients reg) l, with_flags c (Z.clearbit (c_flags c) CLIENT_UNBLOCKED))
  else Ok (reg, c).

(** For a client that is neither a master nor a slave, is not blocked, and has no watched
    keys and no subscriptions, as the clients of the site are; the memory is not modelled. *)
Definition freeClient (reg : registry) (c : outst) : res (registry * outst) :=
  '(reg, c) ← unlinkClient reg c;
  if flag c CLIENT_CLOSE_ASAP then
    l ← list_remove (c_id c) (clients_to_close c); Ok (reg, with_lists c (clients_pending_write c) l)
  else Ok (reg, c).

(** What [acceptCommonHandler] reads of the configuration. *)
Record acceptor := mkAcceptor {
  a_maxclients : Z;
  a_protected_mode : bool;
  a_bindaddr_count : Z;
  a_requirepass : bool
}.

Definition max_clients_error : bytes := str "-ERR max number of clients reached" ++ [13; 10].

Definition protected_error : bytes :=
  str "-DENIED Redis is running in protected mode because protected mode is enabled, no bind address was specified, " ++
  str "no authentication password is requested to clients. In this mode connections are only accepted from the " ++
  str "loopback interface. If you want to connect from external computers to Redis you may adopt one of the following " ++
  str "solutions: 1) Just disable protected mode sending the command 'CONFIG SET protected-mode no' from the loopback " ++
  str "interface by connecting to Redis from the same host the server is running, however MAKE SURE Redis is not publicly " ++
  str "accessible from internet if you do so. Use CONFIG REWRITE to make this change permanent. 2) Alternatively you can " ++
  str "just disable the protected mode by editing the Redis configuration file, and setting the protected mode option to " ++
  str "'no', and then restarting the server. 3) If you started the server manually just for testing, restart it with the " ++
  str "'--protected-mode no' option. 4) Setup a bind address or an authentication password. NOTE: You only need to do one " ++
  str "of the above things in order for the server to start accepting connections from the outside." ++ [13; 10].

(** The protected mode refuses an address that is not the loopback. *)
Definition refused_address (a : acceptor) (unix : bool) (ip : option bytes) : bool :=
  a_protected_mode a && (a_bindaddr_count a =? 0) && negb (a_requirepass a) && negb unix &&
  match ip with
  | Some ip => negb (strcmp ip (str "127.0.0.1") =? 0) && negb (strcmp ip (str "::1") =? 0)
  | None => false
  end.

(** The client if it was accepted, the list of clients, and what was written to the
    socket. *)
Definition acceptCommonHandler (junk : Z) (a : acceptor) (reg : registry) (pending to_close : list Z) (next_id fd : Z)
    (registered unix : bool) (ip : option bytes) : res (option client * registry * bytes) :=
  oc ← createClient junk reg pending to_close next_id fd registered;
  match oc with
  | None => Ok (None, reg, [])
  | Some (c, reg) =>
      if Z.of_nat (length (reg_clients reg)) >? a_maxclients a then
        '(reg, _) ← freeClient reg (cl_out c); Ok (None, reg, max_clients_error)
      else if refused_address a unix ip then
        '(reg, _) ← freeClient reg (cl_out c); Ok (None, reg, protected_error)
      else
        let o := cl_out c in
        Ok (Some (with_cl_out c (with_flags o (if unix then Z.setbit (c_flags o) CLIENT_UNIX_SOCKET else c_flags o))), reg, [])
  end.

(** ** Events *)

(** An event of a connection. [now]: the time; [u]: what the stack holds;
    [installs]: [aeCreateFileEvent] succeeds; [oracle]: the results of
    [write]. *)
Inductive event :=
  | EvReadable (now : Z) (u : http_parser_url) (r : read_result)
  | EvBeforeSleep (limited eagain installs : bool) (oracle : list Z)
  | EvWritable (limited eagain : bool) (oracle : list Z)
  | EvCron.

Section Connection.
Context {T : Type -> Type} `{KD : KeyDict T} `{P : Pcre} `{M : Markdown}.
Variable junk : Z.
Variable sdsZmallocSize : sds -> Z.
Variable embeddedSize : sds -> Z.
Variable client_obuf_limits : client_type -> obuf_limits.
Variable unixtime : Z.
Variable shareable : bool.
Variable lookupCommand : bytes -> option redisCommand.
Variable other_proc : proc -> session T -> reqst -> res (session T * reqst).
Variable cluster_redirect : redisCommand -> reqst -> option (reqst -> res reqst).
Variable discardTransaction : session T -> reqst -> res (session T * reqst).
Variable freeMemoryIfNeeded : session T -> session T * bool * bool.
Variable handleClientsBlockedOnLists : session T -> res (session T).
Variable en : env.
Variable g : guards.
Variable fs : bytes -> option bytes.
Variable listing : bytes -> list dirent.
Variable open_file : bytes -> option file.
Variable strict : bool.
Variable cfg : config.

(** [k_open]: the client was not freed; [k_writable]: [sendReplyToClient] is
    installed for the socket; [k_sent]: what was written to it. *)
Record conn := mkConn {
  k_session : session T;
  k_client : client;
  k_registry : registry;
  k_open : bool;
  k_writable : bool;
  k_sent : bytes
}.

Definition close_conn (k : conn) (s : session T) (o : outst) (sent : bytes) : res conn :=
  '(reg, o) ← freeClient (k_registry k) o; Ok (mkConn s (with_cl_out (k_client k) o) reg false false (k_sent k ++ sent)).

#[local] Abbreviation process now := (processHttpRequestFromClient junk sdsZmallocSize embeddedSize client_obuf_limits unixtime
  shareable lookupCommand other_proc cluster_redirect discardTransaction freeMemoryIfNeeded handleClientsBlockedOnLists
  false (at_time en now) g fs listing open_file strict cfg).

(** The round of the loop for this client. *)
Definition handleClientsWithPendingWrites (limited eagain installs : bool) (oracle : list Z) (k : conn) : res conn :=
  let o := cl_out (k_client k) in
  if negb (bool_decide (c_id o ∈ clients_pending_write o)) then Ok k else
  let o := with_flags o (Z.clearbit (c_flags o) CLIENT_PENDING_WRITE) in
  let o := with_lists o (filter (fun i => i <> c_id o) (clients_pending_write o)) (clients_to_close o) in
  '(o, sent, alive) ← writeToClient sdsZmallocSize embeddedSize limited eagain oracle o;
  if negb alive then close_conn k (k_session k) o sent else
  let '(o, writable) :=
    if clientHasPendingReplies o then if installs then (o, true) else (freeClientAsync o, k_writable k)
    else (o, k_writable k) in
  Ok (mkConn (k_session k) (with_cl_out (k_client k) o) (k_registry k) true writable (k_sent k ++ sent)).

(** With the handler installed, [writeToClient] removes it when all is sent. *)
Definition sendReplyToClient (limited eagain : bool) (oracle : list Z) (k : conn) : res conn :=
  if negb (k_writable k) then Ok k else
  '(o, sent, alive) ← writeToClient sdsZmallocSize embeddedSize limited eagain oracle (cl_out (k_client k));
  if negb alive then close_conn k (k_session k) o sent else
  Ok (mkConn (k_session k) (with_cl_out (k_client k) o) (k_registry k) true (clientHasPendingReplies o) (k_sent k ++ sent)).

(** The round of the loop for this client, which [serverCron] runs. Its other work on
    the clients ([clientsCron]) is not modelled. *)
Definition freeClientsInAsyncFreeQueue (k : conn) : res conn :=
  let o := cl_out (k_client k) in
  if negb (bool_decide (c_id o ∈ clients_to_close o)) then Ok k else
  '(reg, o) ← freeClient (k_registry k) (with_flags o (Z.clearbit (c_flags o) CLIENT_CLOSE_ASAP));
  let o := with_lists o (clients_pending_write o) (filter (fun i => i <> c_id o) (clients_to_close o)) in
  Ok (mkConn (k_session k) (with_cl_out (k_client k) o) reg false false (k_sent k)).

(** A closed connection has no events. *)
Definition conn_step (k : conn) (e : event) : res conn :=
  if negb (k_open k) then Ok k else
  match e with
  | EvReadable now u r =>
      '(s, c) ← process now u (k_session k) (k_client k) r;
      match c with
      | Some c => Ok (mkConn s c (k_registry k) true (k_writable k) (k_sent k))
      | None => close_conn k s (cl_out (k_client k)) []
      end
  | EvBeforeSleep limited eagain installs oracle => handleClientsWithPendingWrites limited eagain installs oracle k
  | EvWritable limited eagain oracle => sendReplyToClient limited eagain oracle k
  | EvCron => freeClientsInAsyncFreeQueue k
  end.

Fixpoint conn_run (k : conn) (evs : list event) : res conn :=
  match evs with
  | [] => Ok k
  | e :: evs' => k ← conn_step k e; conn_run k evs'
  end.
End Connection.

Arguments conn : clear implicits.
Arguments mkConn {T}.
Arguments k_session {T}.
Arguments k_client {T}.
Arguments k_registry {T}.
Arguments k_open {T}.
Arguments k_writable {T}.
Arguments k_sent {T}.

(** ** What a connection sends *)

Section ConnectionSpec.
Context {T : Type -> Type} `{KD : KeyDict T} `{KL : !KeyDictLaws T} `{P : Pcre} `{M : Markdown}.
Variable junk : Z.
Variable sdsZmallocSize : sds -> Z.
Variable embeddedSize : sds -> Z.
Variable client_obuf_limits : client_type -> obuf_limits.
Variable unixtime : Z.
Variable shareable : bool.
Variable lookupCommand : bytes -> option redisCommand.
Variable other_proc : proc -> session T -> reqst -> res (session T * reqst).
Variable cluster_redirect : redisCommand -> reqst -> option (reqst -> res reqst).
Variable discardTransaction : session T -> reqst -> res (session T * reqst).
Variable freeMemoryIfNeeded : session T -> session T * bool * bool.
Variable handleClientsBlockedOnLists : session T -> res (session T).
Variable en : env.
Variable g : guards.
Variable fs : bytes -> option bytes.
Variable listing : bytes -> list dirent.
Variable open_file : bytes -> option file.
Variable strict : bool.
Variable cfg : config.

Hypothesis zmalloc_size : forall s, 0 <= sdsZmallocSize s < 2 ^ 48.
Hypothesis embedded_size : forall s, 0 <= embeddedSize s < 2 ^ 48.
Hypothesis master : e_masterhost en = false.
Hypothesis loaded : e_loading en = false.
Hypothesis page_command : lookupCommand (str "getNoReplyCommand") = Some getNoReply_entry.
Hypothesis no_blocked_clients : forall s, handleClientsBlockedOnLists s = Ok s.
Hypothesis querybuf_limit : PROTO_IOBUF_LEN <= cf_client_max_querybuf_len cfg.

#[local] Abbreviation serving' := (serving sdsZmallocSize embeddedSize en g).
#[local] Abbreviation step := (conn_step junk sdsZmallocSize embeddedSize client_obuf_limits unixtime
  shareable lookupCommand other_proc cluster_redirect discardTransaction freeMemoryIfNeeded handleClientsBlockedOnLists
  en g fs listing open_file strict cfg).
#[local] Abbreviation run := (conn_run junk sdsZmallocSize embeddedSize client_obuf_limits unixtime
  shareable lookupCommand other_proc cluster_redirect discardTransaction freeMemoryIfNeeded handleClientsBlockedOnLists
  en g fs listing open_file strict cfg).

Definition k_out (k : conn T) : outst := cl_out (k_client k).

(** What was answered on the connection, sent or not. *)
Definition produced (k : conn T) : bytes := k_sent k ++ stream (k_out k).

(** An open connection that can take [n] replies: a client with something to
    send waits for the next round of the loop, for the socket or for its end. *)
Record conn_ok (n : nat) (k : conn T) : Prop := {
  ck_open : k_open k = true;
  ck_serving : serving' (Z.of_nat n) (k_client k);
  ck_http : sds_ok (cl_http_querybuf (k_client k));
  ck_room : sds_len (cl_http_querybuf (k_client k)) + PROTO_IOBUF_LEN * Z.of_nat n <= 2 ^ 61;
  ck_registered : c_id (k_out k) ∈ reg_clients (k_registry k);
  ck_db : db_ok (s_db (k_session k));
  ck_awake : clientHasPendingReplies (k_out k) = true ->
    flag (k_out k) CLIENT_PENDING_WRITE = true \/ k_writable k = true \/ flag (k_out k) CLIENT_CLOSE_ASAP = true
}.

(** A closed connection is in no list of the server. *)
Definition unlinked (reg : registry) (o : outst) : Prop :=
  (c_id o ∉ reg_clients reg) /\ (c_id o ∉ clients_pending_write o) /\ (c_id o ∉ clients_to_close o).

(** [k'] has answered [out] more than [k] and is open, or was closed with a part
    of it sent. *)
Definition advanced (n : nat) (k : conn T) (out : bytes) (read : Z) (k' : conn T) : Prop :=
  (length (k_sent k) <= length (k_sent k'))%nat /\
  ((conn_ok n k' /\ produced k' = produced k ++ out /\
    sds_len (cl_http_querybuf (k_client k')) = sds_len (cl_http_querybuf (k_client k)) + read) \/
   (k_open k' = false /\ unlinked (k_registry k') (k_out k') /\ prefix (k_sent k') (produced k ++ out))).

(** *** Closing *)

Lemma list_remove_ok id l : id ∈ l -> list_remove id l = Ok (filter (fun i => i <> id) l).
Proof. intros H. unfold list_remove. by rewrite bool_decide_eq_true_2. Qed.

Lemma filter_self (id : Z) (l : list Z) : id ∉ filter (fun i => i <> id) l.
Proof. intros [H _]%list_elem_of_filter. done. Qed.

(** A client that is registered, and was not unblocked. *)
Definition registered_ok (reg : registry) (o : outst) : Prop :=
  c_fd o <> -1 /\ c_id o ∈ reg_clients reg /\ flag o CLIENT_UNBLOCKED = false.

Lemma unlinkClient_ok reg o : registered_ok reg o -> flag o CLIENT_PENDING_WRITE = bool_decide (c_id o ∈ clients_pending_write o) ->
  exists o', unlinkClient reg o = Ok (mkRegistry (filter (fun i => i <> c_id o) (reg_clients reg)) (reg_unblocked reg), o') /\
    c_id o' = c_id o /\ (c_id o ∉ clients_pending_write o') /\
    clients_to_close o' = clients_to_close o /\ flag o' CLIENT_CLOSE_ASAP = flag o CLIENT_CLOSE_ASAP.
Proof.
  intros (Hfd & Hin & Hub) Hp. unfold unlinkClient. rewrite (proj2 (Z.eqb_neq _ _) Hfd). cbn [negb].
  rewrite list_remove_ok by done. rewrite !bind_ok. change (flag (with_fd o (-1))) with (flag o). rewrite Hp.
  cbn [with_fd c_id clients_pending_write clients_to_close c_flags reg_clients reg_unblocked].
  destruct (bool_decide_reflect (c_id o ∈ clients_pending_write o)).
  - rewrite list_remove_ok by done. rewrite !bind_ok. unfold flag at 1. cbn [with_flags c_flags].
    rewrite Z.clearbit_neq by done. fold (flag o CLIENT_UNBLOCKED). rewrite Hub. eexists. split; [done|]. split; [done|].
    split; [apply filter_self|]. split; [done|]. unfold flag. cbn [with_flags c_flags]. by rewrite Z.clearbit_neq.
  - rewrite bind_ok. change (flag (with_fd o (-1))) with (flag o). rewrite Hub. by exists (with_fd o (-1)).
Qed.

Lemma freeClient_ok reg o : registered_ok reg o -> pending_ok o ->
  exists reg' o', freeClient reg o = Ok (reg', o') /\ unlinked reg' o'.
Proof.
  intros Hr [Hp Hc]. unfold freeClient. destruct (unlinkClient_ok reg o Hr Hp) as (o1 & -> & Hid & Hpw & Hcl & Hf).
  rewrite bind_ok, Hf, Hc. unfold unlinked. destruct (bool_decide_reflect (c_id o ∈ clients_to_close o)).
  - rewrite Hid, Hcl, list_remove_ok, bind_ok by done. eexists _, _. split; [done|]. cbn. rewrite Hid. split_and!; [apply filter_self|done|apply filter_self].
  - eexists _, o1. split; [done|]. cbn. rewrite Hid, Hcl. split_and!; [apply filter_self|done|done].
Qed.

Lemma serving_registered n reg c : serving' n c -> c_id (cl_out c) ∈ reg_clients reg -> registered_ok reg (cl_out c).
Proof.
  intros Hsv Hin. split; [|split; [done|apply Hsv]]. pose proof (sv_takes _ _ _ _ _ _ Hsv) as Ht. unfold takes_replies in Ht.
  rewrite (proj1 (sv_plain _ _ _ _ _ _ Hsv)) in Ht. cbn [orb] in Ht.
  apply andb_true_iff in Ht as [_ Ht%negb_true_iff%Z.leb_gt]. lia.
Qed.

Lemma close_ok n k s o sent read : registered_ok (k_registry k) o -> pending_ok o -> prefix (k_sent k ++ sent) (produced k) ->
  exists k', close_conn k s o sent = Ok k' /\ advanced n k [] read k'.
Proof.
  intros Hr Ho Hp. unfold close_conn. destruct (freeClient_ok _ o Hr Ho) as (reg' & o' & -> & Hu). rewrite bind_ok.
  eexists. split; [done|]. split; [cbn; rewrite length_app; lia|]. right. rewrite app_nil_r. by split_and!.
Qed.

(** *** Writing *)

(** The output of the client, up to the lists of the server. *)
Definition same_io (o o' : outst) : Prop :=
  same_out o o' /\ (c_fd o' = c_fd o /\ c_replstate o' = c_replstate o) /\
  forall b, b <> CLIENT_PENDING_WRITE -> b <> CLIENT_CLOSE_ASAP -> flag o' b = flag o b.

(** What [writeToClient] leaves. *)
Lemma write_ok n k o limited eagain oracle : conn_ok n k -> same_io (k_out k) o -> pending_ok o ->
  exists o' sent alive, writeToClient sdsZmallocSize embeddedSize limited eagain oracle o = Ok (o', sent, alive) /\
    serving' (Z.of_nat n) (with_cl_out (k_client k) o') /\ sent ++ stream o' = stream (k_out k) /\
    moved oracle o' [] sent /\ (eagain = true -> alive = true) /\ c_id o' = c_id o /\ forall b, flag o' b = flag o b.
Proof.
  intros Hk (Hso & (Hfd & Hrs) & Hf) Hp. pose proof (ck_serving n k Hk) as Hsv. pose proof (sv_ready _ _ _ _ _ _ Hsv) as (Hok & Hcl & Hb).
  destruct (same_out_ok _ _ _ _ Hso Hok) as [Hoko Hst].
  destruct (writeToClient_ok _ _ zmalloc_size embedded_size limited eagain oracle o Hoko)
    as (o' & sent & alive & -> & Ho' & Hs' & (Hd1 & (Hd2 & Hd3 & Hd4 & Hd5 & Hd6) & Hd7) & Hmv & _ & Hal).
  exists o', sent, alive. split; [done|]. assert (forall b, flag o' b = flag o b) as Hfl by (intros b; unfold flag; by rewrite Hd1).
  split_and!; [|by rewrite Hs'|done| |done|done].
  - apply (serving_out _ _ _ _ (Z.of_nat n)); [done| |by rewrite Hd2|by rewrite Hd3| |intros b ? ?; rewrite Hfl; by apply Hf].
    + split; [done|]. rewrite Hfl, Hf by done. split; [done|]. destruct Hso as (_ & _ & _ & Hrb & _).
      change (cl_out (k_client k)) with (k_out k) in Hb. lia.
    + unfold pending_ok. by rewrite !Hfl, Hd4, Hd5, Hd6.
  - intros He. apply Hal; [done|]. by rewrite Hf.
Qed.

Lemma no_replies_no_stream o : out_ok sdsZmallocSize embeddedSize o -> clientHasPendingReplies o = false -> stream o = [].
Proof.
  intros Ho. unfold clientHasPendingReplies. intros [E1%negb_false_iff%Z.eqb_eq E2%negb_false_iff%Z.eqb_eq]%orb_false_iff.
  rewrite stream_nodes by done. destruct (c_reply o); [apply drop_nil|cbn in E2; lia].
Qed.

(** [k] and the connection after one write of [o]: it was closed, or it is open
    and has sent [sent]. *)
Lemma written_ok n k o' sent writable :
  conn_ok n k -> c_id o' = c_id (k_out k) -> serving' (Z.of_nat n) (with_cl_out (k_client k) o') -> sent ++ stream o' = stream (k_out k) ->
  (clientHasPendingReplies o' = true -> flag o' CLIENT_PENDING_WRITE = true \/ writable = true \/ flag o' CLIENT_CLOSE_ASAP = true) ->
  advanced n k [] 0 (mkConn (k_session k) (with_cl_out (k_client k) o') (k_registry k) true writable (k_sent k ++ sent)).
Proof.
  intros [] Hid Hsv Hst Haw. split; [cbn; rewrite length_app; lia|]. left. split; [split; try done; unfold k_out in *; cbn; by rewrite Hid|].
  unfold produced. cbn. split; [by rewrite app_nil_r, <- app_assoc, Hst|lia].
Qed.

(** The socket is asked for the first time, and takes something: all is sent, or
    at least one byte. *)
Definition progress (k k' : conn T) : Prop :=
  stream (k_out k') = [] \/ (length (k_sent k) < length (k_sent k'))%nat.

Lemma moved_progress n k s c reg o' sent writable oracle :
  serving' n (with_cl_out c o') -> moved oracle o' [] sent -> accepts oracle ->
  progress k (mkConn s (with_cl_out c o') reg true writable (k_sent k ++ sent)).
Proof.
  intros Hsv [_ Hm] Ha. destruct (Hm Ha) as [Hn|Hn]; [left|right].
  - eapply no_replies_no_stream; [apply Hsv|done].
  - cbn in *. rewrite length_app. lia.
Qed.

Lemma freeClientAsync_ok o : pending_ok o -> flag o CLIENT_LUA = false ->
  same_io o (freeClientAsync o) /\ pending_ok (freeClientAsync o) /\ flag (freeClientAsync o) CLIENT_CLOSE_ASAP = true.
Proof.
  intros Ho Hl. unfold freeClientAsync. rewrite Hl, orb_false_r. destruct (flag o CLIENT_CLOSE_ASAP) eqn:Ec; [by split_and!|].
  assert (forall b, b <> CLIENT_CLOSE_ASAP -> Z.testbit (Z.setbit (c_flags o) CLIENT_CLOSE_ASAP) b = Z.testbit (c_flags o) b) as Hf
    by (intros; by rewrite Z.setbit_neq by done).
  split_and!.
  - split_and!; try done. intros b ? ?. by apply Hf.
  - destruct Ho as [Hp _]. split; [etrans; [by apply Hf|exact Hp]|]. etrans; [apply Z.setbit_eq; done|].
    symmetry. apply bool_decide_eq_true_2. set_solver.
  - by apply Z.setbit_eq.
Qed.

Lemma free_async_serving n c o : serving' n (with_cl_out c o) ->
  serving' n (with_cl_out c (freeClientAsync o)) /\ stream (freeClientAsync o) = stream o /\
  flag (freeClientAsync o) CLIENT_CLOSE_ASAP = true.
Proof.
  intros Hsv. destruct (freeClientAsync_ok o) as ((Hso & (Hfd & Hrs) & Hfb) & Hpo & Hpf); [apply Hsv|apply Hsv|].
  pose proof (sv_ready _ _ _ _ _ _ Hsv) as (Ho & Hcl & Hrb). destruct (same_out_ok _ _ _ _ Hso Ho) as [Ho' Hst].
  split; [|done]. apply (serving_out _ _ _ _ n _ (with_cl_out c o)); try done.
  split_and!; [done|by rewrite Hfb|]. destruct Hso as (_ & _ & _ & -> & _). done.
Qed.

Lemma before_sleep_ok n k limited eagain installs oracle : conn_ok n k ->
  exists k', handleClientsWithPendingWrites sdsZmallocSize embeddedSize limited eagain installs oracle k = Ok k' /\
    advanced n k [] 0 k' /\ k_session k' = k_session k /\
    (eagain && installs = true -> k_open k' = true /\ flag (k_out k') CLIENT_CLOSE_ASAP = flag (k_out k) CLIENT_CLOSE_ASAP /\
     (flag (k_out k) CLIENT_PENDING_WRITE = true -> accepts oracle -> progress k k') /\
     (flag (k_out k) CLIENT_PENDING_WRITE = false -> k' = k)).
Proof.
  intros Hk. unfold handleClientsWithPendingWrites. fold (k_out k). cbn zeta. pose proof (sv_pending _ _ _ _ _ _ (ck_serving n k Hk)) as Hp.
  change (cl_out (k_client k)) with (k_out k) in Hp. pose proof Hp as [Hp1 Hp2].
  destruct (bool_decide_reflect (c_id (k_out k) ∈ clients_pending_write (k_out k))) as [Hin|]; cbn [negb].
  2:{ exists k. split_and!; try done; [|intros _; split_and!; [apply Hk|done|congruence|done]].
      split; [done|]. left. by rewrite app_nil_r, Z.add_0_r. }
  set (o := with_lists _ _ _).
  assert (forall b, b <> CLIENT_PENDING_WRITE -> flag o b = flag (k_out k) b) as Hf
    by (intros; unfold o, flag; cbn [with_lists with_flags c_flags]; by rewrite Z.clearbit_neq by done).
  assert (flag o CLIENT_PENDING_WRITE = false) as Hf0
    by (unfold o, flag; cbn [with_lists with_flags c_flags]; by apply Z.clearbit_eq).
  assert (pending_ok o) as Ho.
  { split; [rewrite Hf0; symmetry; apply bool_decide_eq_false_2, filter_self|by rewrite Hf]. }
  destruct (write_ok n k o limited eagain oracle Hk) as (o' & sent & alive & -> & Hsv & Hst & Hmv & Hal & Hid & Hfl);
    [split_and!; try done; auto|done|]. rewrite bind_ok.
  destruct alive; cbn [negb].
  2:{ destruct (close_ok n k (k_session k) o' sent 0) as (k' & E & Hk'); [apply (serving_registered _ _ _ Hsv); cbn; rewrite Hid; apply Hk|apply Hsv|by exists (stream o'); unfold produced; rewrite <- app_assoc, Hst|].
      exists k'. split; [done|]. split; [done|]. unfold close_conn in E. apply bind_ok_inv in E as ([? ?] & _ & [= <-]). split; [done|].
      intros [-> _]%andb_true_iff. by specialize (Hal eq_refl). }
  destruct (clientHasPendingReplies o') eqn:Hpr; [destruct installs|].
  - eexists. split; [reflexivity|]. split; [apply written_ok; auto|]. split; [done|]. intros _. split_and!; [done|by rewrite <- Hf, <- Hfl| |congruence].
    intros _ Ha. by eapply moved_progress.
  - destruct (free_async_serving _ _ _ Hsv) as (Hsv' & Hst' & Hcl). eexists. split; [reflexivity|].
    split; [|split; [done|by rewrite andb_false_r]]. apply written_ok; [done|etrans; [|exact Hid]; unfold freeClientAsync; by destruct (_ || _)|done|by rewrite Hst'|auto].
  - eexists. split; [reflexivity|]. split; [apply written_ok; try done; congruence|]. split; [done|]. intros _. split_and!; [done|by rewrite <- Hf, <- Hfl| |congruence].
    intros _ Ha. by eapply moved_progress.
Qed.

Lemma writable_ok n k limited eagain oracle : conn_ok n k ->
  exists k', sendReplyToClient sdsZmallocSize embeddedSize limited eagain oracle k = Ok k' /\
    advanced n k [] 0 k' /\ k_session k' = k_session k /\
    (eagain = true -> k_open k' = true /\ flag (k_out k') CLIENT_CLOSE_ASAP = flag (k_out k) CLIENT_CLOSE_ASAP /\
     (k_writable k = true -> accepts oracle -> progress k k')).
Proof.
  intros Hk. unfold sendReplyToClient. destruct (k_writable k) eqn:Hw; cbn [negb].
  2:{ exists k. split_and!; try done; [|intros _; split_and!; [apply Hk|done|congruence]].
      split; [done|]. left. by rewrite app_nil_r, Z.add_0_r. }
  destruct (write_ok n k (k_out k) limited eagain oracle Hk) as (o' & sent & alive & E & Hsv & Hst & Hmv & Hal & Hid & Hfl);
    [by split_and!|apply (ck_serving n k Hk)|]. change (cl_out (k_client k)) with (k_out k). rewrite E, bind_ok.
  destruct alive; cbn [negb].
  2:{ destruct (close_ok n k (k_session k) o' sent 0) as (k' & E' & Hk'); [apply (serving_registered _ _ _ Hsv); cbn; rewrite Hid; apply Hk|apply Hsv|by exists (stream o'); unfold produced; rewrite <- app_assoc, Hst|].
      exists k'. split; [done|]. split; [done|]. unfold close_conn in E'. apply bind_ok_inv in E' as ([? ?] & _ & [= <-]). split; [done|].
      intros ->. by specialize (Hal eq_refl). }
  eexists. split; [reflexivity|]. split; [apply written_ok; auto|]. split; [done|]. intros _. split; [done|]. split; [apply Hfl|].
  intros _ Ha. by eapply moved_progress.
Qed.

Lemma cron_ok n k : conn_ok n k ->
  exists k', freeClientsInAsyncFreeQueue k = Ok k' /\ advanced n k [] 0 k' /\ k_session k' = k_session k.
Proof.
  intros Hk. unfold freeClientsInAsyncFreeQueue. change (cl_out (k_client k)) with (k_out k). cbn zeta.
  destruct (bool_decide _) eqn:Hin; cbn [negb].
  2:{ exists k. split_and!; try done. split; [done|]. left. by rewrite app_nil_r, Z.add_0_r. }
  destruct (sv_pending _ _ _ _ _ _ (ck_serving n k Hk)) as [Hp _]. change (cl_out (k_client k)) with (k_out k) in Hp.
  set (o := with_flags _ _).
  assert (flag o CLIENT_CLOSE_ASAP = false) as Hcl by (unfold o, flag; cbn [with_flags c_flags]; by apply Z.clearbit_eq).
  assert (flag o CLIENT_PENDING_WRITE = flag (k_out k) CLIENT_PENDING_WRITE) as Hpw
    by (unfold o, flag; cbn [with_flags c_flags]; by apply Z.clearbit_neq).
  assert (registered_ok (k_registry k) o) as Hr.
  { destruct (serving_registered _ _ _ (ck_serving n k Hk) (ck_registered n k Hk)) as (R1 & R2 & R3). split_and!; try done.
    etrans; [|exact R3]. unfold o, flag. cbn [with_flags c_flags]. by apply Z.clearbit_neq. }
  unfold freeClient. destruct (unlinkClient_ok _ o Hr) as (o1 & -> & Hid & Hnp & Hlc & Hf); [by rewrite Hpw|].
  rewrite bind_ok, Hf, Hcl, bind_ok. eexists. split; [reflexivity|]. split; [|done]. split; [done|]. right.
  split; [done|]. split; [|rewrite app_nil_r; by exists (stream (k_out k))]. unfold unlinked. cbn. rewrite Hid. split_and!; [apply filter_self|done|apply filter_self].
Qed.

(** *** Reading *)

#[local] Abbreviation process now := (processHttpRequestFromClient junk sdsZmallocSize embeddedSize client_obuf_limits unixtime
  shareable lookupCommand other_proc cluster_redirect discardTransaction freeMemoryIfNeeded handleClientsBlockedOnLists
  false (at_time en now) g fs listing open_file strict cfg).

(** A read that gives no data: the client waits, or is freed. *)
Lemma no_data_ok n k now u r : conn_ok n k -> (forall data, r <> ReadData data) ->
  exists k', step k (EvReadable now u r) = Ok k' /\ advanced n k [] 0 k' /\ k_session k' = k_session k.
Proof.
  intros Hk Hr. pose proof Hk as [Ho Hsv Hh Hl Hrg Hdb Haw]. unfold conn_step. rewrite Ho. cbn [negb].
  unfold processHttpRequestFromClient.
  assert (read_length (cl_req (k_client k)) = PROTO_IOBUF_LEN) as ->.
  { destruct (sv_idle _ _ _ _ _ _ Hsv) as (I1 & _). unfold read_length. by rewrite I1. }
  destruct (sdsMakeRoomFor_room junk (cl_http_querybuf (k_client k)) PROTO_IOBUF_LEN) as (h & -> & Hh' & _ & Hhl & _);
    [done|done|unfold PROTO_IOBUF_LEN in *; lia|]. rewrite bind_ok.
  destruct (close_ok n k (k_session k) (k_out k) [] 0) as (k' & E & Hk');
    [by apply (serving_registered _ _ _ Hsv)|apply Hsv|rewrite app_nil_r; by exists (stream (k_out k))|].
  destruct r as [| | |data]; [|..|by destruct (Hr data)]; rewrite bind_ok.
  1:{ eexists. split; [reflexivity|]. split; [|done]. split; [done|]. left. split; [|unfold produced; cbn; by rewrite app_nil_r, Hhl, Z.add_0_r].
      split; cbn; [done|by apply serving_hq|done|lia|done|done|exact Haw]. }
  all: exists k'; split; [exact E|]; split; [done|]; unfold close_conn in E; by apply bind_ok_inv in E as ([? ?] & _ & [= <-]).
Qed.

#[local] Abbreviation asks' now := (asks (at_time en now) open_file strict cfg).

Lemma asks_later db db' now t u data out r : now <= t -> same_live now db db' -> asks' t db u data out r -> asks' t db' u data out r.
Proof. intros Ht Hl. apply asks_live. cbn. by eapply same_live_later. Qed.

Lemma serving_time n now c : serving' n c -> serving sdsZmallocSize embeddedSize (at_time en now) g n c.
Proof. by intros []. Qed.

Lemma time_serving n now c : serving sdsZmallocSize embeddedSize (at_time en now) g n c -> serving' n c.
Proof. by intros []. Qed.

Lemma request_ok n k now u data out r : conn_ok (r + n) k -> asks' now (s_db (k_session k)) u data out r ->
  exists k', step k (EvReadable now u (ReadData data)) = Ok k' /\ advanced n k out (Z.of_nat (length data)) k' /\
    same_live now (s_db (k_session k)) (s_db (k_session k')).
Proof.
  intros [Ho Hsv Hh Hl Hrg Hdb Haw] Ha. unfold conn_step. rewrite Ho. cbn [negb].
  destruct (asks_some _ _ _ _ _ _ _ _ _ Ha) as [Hr Hd]. unfold PROTO_IOBUF_LEN in *.
  edestruct (read_ok junk sdsZmallocSize embeddedSize client_obuf_limits unixtime shareable lookupCommand other_proc
    cluster_redirect discardTransaction freeMemoryIfNeeded handleClientsBlockedOnLists (at_time en now) g fs
    listing open_file strict cfg zmalloc_size embedded_size master loaded page_command no_blocked_clients querybuf_limit
    (Z.of_nat n) (k_session k) (k_client k) u data out r Ha)
    as (s' & c' & hq & -> & Hhq & Hlq & Hdb' & Hlv & Hsv' & Hst & Hhq' & Hid & Hw1 & Hw2); [lia| |exact Hh|lia|exact Hdb|].
  { replace (Z.of_nat n + Z.of_nat r) with (Z.of_nat (r + n)) by lia. apply serving_time, Hsv. }
  rewrite bind_ok. eexists. split; [reflexivity|]. split; [|exact Hlv]. cbn in Hhq'. split; [done|]. left. split_and!.
  - split; cbn [k_open k_client k_registry k_session k_writable];
      [done|eapply time_serving, Hsv'|by rewrite Hhq'|rewrite Hhq', Hlq; unfold PROTO_IOBUF_LEN; lia|unfold k_out in *; cbn; by rewrite Hid|done|].
    intros Hp. destruct (Hw2 Hp) as [|Hp']; [by left|]. destruct (Haw Hp') as [Hf|[Hf|Hf]]; [left; by apply Hw1|auto|].
    right; right. by apply Hw1.
  - unfold produced. cbn. unfold k_out. cbn. rewrite Hst. by rewrite <- app_assoc.
  - cbn. by rewrite Hhq', Hlq.
Qed.

(** *** Traces *)

(** A trace with the answers to its reads, at times that do not go back: every read that
    gives data begins with a complete request ([asks]), and gets one answer, to this request;
    the other events are any. [n] counts the replies that the answers are made of, and
    [read] the bytes received. *)
Inductive trace (db : redisDb T) : Z -> list event -> nat -> bytes -> Z -> Prop :=
  | trace_nil now : trace db now [] 0 [] 0
  | trace_request now t u data answer r evs n out read :
      now <= t -> asks' t db u data answer r -> trace db t evs n out read ->
      trace db now (EvReadable t u (ReadData data) :: evs) (r + n) (answer ++ out) (Z.of_nat (length data) + read)
  | trace_no_data now t u r evs n out read :
      (forall data, r <> ReadData data) -> trace db now evs n out read -> trace db now (EvReadable t u r :: evs) n out read
  | trace_sleep now limited eagain installs oracle evs n out read :
      trace db now evs n out read -> trace db now (EvBeforeSleep limited eagain installs oracle :: evs) n out read
  | trace_writable now limited eagain oracle evs n out read :
      trace db now evs n out read -> trace db now (EvWritable limited eagain oracle :: evs) n out read
  | trace_cron now evs n out read : trace db now evs n out read -> trace db now (EvCron :: evs) n out read.

Lemma run_closed k evs : k_open k = false -> run k evs = Ok k.
Proof. intros H. induction evs as [|e evs IH]; [done|]. cbn [conn_run]. unfold conn_step. by rewrite H. Qed.

Lemma run_app k evs1 evs2 : run k (evs1 ++ evs2) = (k ← run k evs1; run k evs2).
Proof.
  revert k. induction evs1 as [|e evs1 IH]; intros k; [done|]. cbn [app conn_run]. destruct (step k e); [|done].
  rewrite !bind_ok. apply IH.
Qed.

(** The rest of a run after a step. *)
Lemma run_next n m k e k1 evs out1 out2 read1 read2 :
  step k e = Ok k1 -> advanced (n + m) k out1 read1 k1 ->
  (conn_ok (n + m) k1 -> exists k', run k1 evs = Ok k' /\ advanced m k1 out2 read2 k') ->
  exists k', run k (e :: evs) = Ok k' /\ advanced m k (out1 ++ out2) (read1 + read2) k'.
Proof.
  intros E [Hl Ha] Hrun. cbn [conn_run]. rewrite E, bind_ok. destruct Ha as [(Hk1 & Hp & Hr)|(Ho & Hu & Hp)].
  - destruct (Hrun Hk1) as (k' & -> & Hl' & [(Hk' & Hp' & Hr')|(Ho & Hu & Hp')]); exists k'; (split; [done|]); (split; [lia|]).
    + left. split_and!; [done|by rewrite Hp', Hp, <- app_assoc|lia].
    + right. split_and!; try done. by rewrite app_assoc, <- Hp.
  - rewrite run_closed by done. exists k1. split; [done|]. split; [done|]. right. split_and!; try done.
    rewrite app_assoc. by apply prefix_app_r.
Qed.

(** On every trace the answers are sent in the order of the requests: an open
    connection has answered all of them, and a closed one has sent a part. *)
Lemma run_ok db now evs n out read : trace db now evs n out read -> forall m k,
  same_live now db (s_db (k_session k)) -> conn_ok (n + m) k ->
  exists k', run k evs = Ok k' /\ advanced m k out read k'.
Proof.
  induction 1 as [now|now t u data answer r evs n out read Ht Ha Htr IH|now t u r evs n out read Hr Htr IH|
      now li ea ins orc evs n out read Htr IH|now li ea orc evs n out read Htr IH|now evs n out read Htr IH]; intros m k Hl Hk.
  - exists k. split; [done|]. split; [done|]. left. by rewrite app_nil_r, Z.add_0_r.
  - destruct (request_ok (n + m) k t u data answer r) as (k1 & E & Hk1 & Hlv); [by rewrite Nat.add_assoc|by eapply asks_later|].
    eapply run_next; [exact E|exact Hk1|]. intros Hok. apply IH; [|done]. etrans; [by eapply same_live_later|exact Hlv].
  - destruct (no_data_ok (n + m) k t u r Hk Hr) as (k1 & E & Hk1 & Es). rewrite <- (app_nil_l out), <- (Z.add_0_l read).
    eapply run_next; [exact E|exact Hk1|]. intros Hok. apply IH; [by rewrite Es|done].
  - destruct (before_sleep_ok (n + m) k li ea ins orc Hk) as (k1 & E & Hk1 & Es & _). rewrite <- (app_nil_l out), <- (Z.add_0_l read).
    eapply run_next; [by unfold conn_step; rewrite (ck_open _ _ Hk)|exact Hk1|]. intros Hok. apply IH; [by rewrite Es|done].
  - destruct (writable_ok (n + m) k li ea orc Hk) as (k1 & E & Hk1 & Es & _). rewrite <- (app_nil_l out), <- (Z.add_0_l read).
    eapply run_next; [by unfold conn_step; rewrite (ck_open _ _ Hk)|exact Hk1|]. intros Hok. apply IH; [by rewrite Es|done].
  - destruct (cron_ok (n + m) k Hk) as (k1 & E & Hk1 & Es). rewrite <- (app_nil_l out), <- (Z.add_0_l read).
    eapply run_next; [by unfold conn_step; rewrite (ck_open _ _ Hk)|exact Hk1|]. intros Hok. apply IH; [by rewrite Es|done].
Qed.

(** *** Progress *)

(** A turn of the event loop in which the socket takes something each time it is
    asked. *)
Definition turn (w : bool * list Z * bool * list Z) : list event :=
  let '(l1, o1, l2, o2) := w in [EvBeforeSleep l1 true true o1; EvWritable l2 true o2].
Definition turn_ok (w : bool * list Z * bool * list Z) : Prop := accepts w.1.1.2 /\ accepts w.2.

Definition closing (k : conn T) : bool := flag (k_out k) CLIENT_CLOSE_ASAP.

Lemma advanced_open n k k' : advanced n k [] 0 k' -> k_open k' = true ->
  conn_ok n k' /\ produced k' = produced k /\ (length (k_sent k) <= length (k_sent k'))%nat.
Proof.
  intros [Hl [(Hk & Hp & _)|(Ho & _)]] Hopen; [|congruence]. by rewrite app_nil_r in Hp.
Qed.

Lemma all_sent k k' : produced k' = produced k -> (length (k_sent k) <= length (k_sent k'))%nat ->
  stream (k_out k) = [] -> stream (k_out k') = [].
Proof.
  intros Hp Hl Hs. apply (f_equal length) in Hp. unfold produced in Hp. rewrite Hs, !length_app in Hp. cbn in Hp.
  apply length_zero_iff_nil. lia.
Qed.

Lemma turn_progress n k w : conn_ok n k -> closing k = false -> turn_ok w ->
  exists k', run k (turn w) = Ok k' /\ conn_ok n k' /\ closing k' = false /\ produced k' = produced k /\ progress k k'.
Proof.
  destruct w as [[[l1 o1] l2] o2]. intros Hk Hcl [Ha1 Ha2]. cbn in Ha1, Ha2. unfold turn. cbn [conn_run].
  destruct (before_sleep_ok n k l1 true true o1 Hk) as (k1 & E1 & Ad1 & _ & H1). destruct (H1 eq_refl) as (O1 & C1 & P1 & N1).
  destruct (advanced_open n k k1 Ad1 O1) as (Hk1 & Hp1 & Hl1).
  destruct (writable_ok n k1 l2 true o2 Hk1) as (k2 & E2 & Ad2 & _ & H2). destruct (H2 eq_refl) as (O2 & C2 & P2).
  destruct (advanced_open n k1 k2 Ad2 O2) as (Hk2 & Hp2 & Hl2).
  exists k2. unfold conn_step. rewrite (ck_open _ _ Hk). cbn [negb]. rewrite E1, bind_ok, O1. cbn [negb]. rewrite E2, bind_ok.
  split; [done|]. split; [done|]. unfold closing in *. split; [congruence|]. split; [congruence|].
  destruct (flag (k_out k) CLIENT_PENDING_WRITE) eqn:Hf.
  - destruct (P1 eq_refl Ha1) as [Hs|Hs]; [left; by apply (all_sent k1)|right; lia].
  - rewrite (N1 eq_refl) in *. destruct (clientHasPendingReplies (k_out k)) eqn:Hpr.
    + destruct (ck_awake n k Hk Hpr) as [Hx|[Hx|Hx]]; [congruence|auto|congruence].
    + left. apply (all_sent k); [done|done|]. eapply no_replies_no_stream; [apply (ck_serving n k Hk)|done].
Qed.

(** After as many turns as there are bytes to send, all of them are sent. *)
Lemma turns_send_all n ws : forall k, conn_ok n k -> closing k = false -> Forall turn_ok ws ->
  (length (stream (k_out k)) <= length ws)%nat ->
  exists k', run k (concat (turn <$> ws)) = Ok k' /\ conn_ok n k' /\ k_sent k' = produced k /\ stream (k_out k') = [].
Proof.
  induction ws as [|w ws IH]; intros k Hk Hcl Hws Hlen.
  - exists k. assert (stream (k_out k) = []) as Hs by (apply length_zero_iff_nil; cbn in Hlen; lia).
    split_and!; try done. unfold produced. by rewrite Hs, app_nil_r.
  - apply Forall_cons in Hws as [Hw Hws]. destruct (turn_progress n k w Hk Hcl Hw) as (k1 & E1 & Hk1 & Hcl1 & Hp1 & Hpr).
    destruct (IH k1 Hk1 Hcl1 Hws) as (k' & E' & Hk' & Hs' & Hst').
    { destruct Hpr as [->|Hpr]; [cbn; lia|]. apply (f_equal length) in Hp1. unfold produced in Hp1. rewrite !length_app in Hp1. cbn in Hlen. lia. }
    exists k'. split_and!; [|done|congruence|done]. cbn [fmap list_fmap concat]. rewrite run_app, E1, bind_ok. done.
Qed.

(** *** Acceptance *)

(** The guards are open for a client without a transaction and without
    subscriptions. *)
Definition guards_open : Prop :=
  forall o, flag o CLIENT_PUBSUB = false -> flag o CLIENT_MULTI = false -> open_guards g en o = true.

(** An accepted client can send its first request. *)
Lemma accept_ok a reg pending to_close id fd unix ip n s :
  guards_open -> 0 < fd -> id ∉ pending -> id ∉ to_close -> Z.of_nat (length (reg_clients reg)) < a_maxclients a ->
  refused_address a unix ip = false -> Z.of_nat n <= 2 ^ 14 -> db_ok (s_db s) ->
  exists c reg', acceptCommonHandler junk a reg pending to_close id fd true unix ip = Ok (Some c, reg', []) /\
    conn_ok n (mkConn s c reg' true false []) /\ stream (cl_out c) = [] /\ sds_len (cl_http_querybuf c) = 0.
Proof.
  intros Hg Hfd Hp Hc Hmax Href Hn Hdb. unfold acceptCommonHandler, createClient.
  destruct (Z.eqb_spec fd (-1)); [lia|]. cbn [negb andb].
  destruct (sdsnewlen_ok junk [] 0) as (q & Eq & Hq & Hqv & _); [done|done|].
  assert (sds_len q = 0) as Hql by (rewrite <- (sdsval_length q Hq), Hqv; done).
  change (sdsempty junk) with (sdsnewlen junk (Some []) 0). rewrite Eq, !bind_ok.
  cbn [reg_clients]. rewrite length_app. cbn [length].
  destruct (Z.gtb_spec (Z.of_nat (length (reg_clients reg) + 1)) (a_maxclients a)); [lia|]. rewrite Href. eexists _, _. split; [reflexivity|].
  set (c := with_cl_out _ _).
  assert (forall b, b <> CLIENT_UNIX_SOCKET -> flag (cl_out c) b = false) as Hf.
  { intros b Hb. unfold c, flag. cbn [with_cl_out cl_out cl_req with_out q_out with_flags c_flags].
    destruct unix; [rewrite Z.setbit_neq by done|]; by rewrite Z.bits_0. }
  assert (q_querybuf (cl_req c) = q /\ cl_http_querybuf c = q) as [Eq1 Eq2] by done.
  split; [|by split; [unfold stream; destruct (replicate _ _)|rewrite Eq2]].
  split; cbn [k_open k_client k_registry k_session k_writable]; try done.
  - split; try done.
    + split; [|split; [by apply Hf|change (c_reply_bytes (cl_out c)) with 0; lia]]. by split.
    + split_and!; try done; by apply Hf.
    + apply Hg; by apply Hf.
    + split; by apply Hf.
    + unfold takes_replies. rewrite !Hf by done. cbn. by destruct (Z.leb_spec fd 0); [lia|].
    + split; [by apply Hf|done].
    + split; [rewrite Hf by done|rewrite Hf by done]; symmetry; by apply bool_decide_eq_false_2.
    + by apply Hf.
  - rewrite Eq2, Hql. unfold PROTO_IOBUF_LEN. lia.
  - apply elem_of_app. right. by apply list_elem_of_singleton.
Qed.
End ConnectionSpec.
