(* ===== verification/Demo.v ===== *)
(** * A concrete server

    The values at which the theorems are instantiated: an allocator, clients
    without and with requests, an engine for the regular expressions of the site,
    and a small site of three posts in memory. *)

From S2P Require Import Prelude CLib Util Sds Dict Object Reply Resp KeyDict Db Command Helper H3 HttpUrl Template Http Site Pages Serve Serving.
Local Open Scope Z_scope.

(** ** Clients *)

Definition block_size (s : sds) : Z := sds_len s mod 2 ^ 40.

Lemma block_size_ok s : 0 <= block_size s < 2 ^ 48.
Proof. unfold block_size. pose proof (Z.mod_pos_bound (sds_len s) (2 ^ 40)). lia. Qed.

Definition no_limits (t : client_type) : obuf_limits := mkLimits 0 0 0.

(** A connected client with nothing to send. *)
Definition fresh_out : outst :=
  mkOut 1 9 0 REPL_STATE_NONE false (replicate (Z.to_nat PROTO_REPLY_CHUNK_BYTES) 170) 0 [] 0 0 0 [] [].

Lemma fresh_out_ok : out_ok block_size block_size fresh_out.
Proof. by split. Qed.

Lemma fresh_ready n : n <= 1000 -> ready block_size block_size n fresh_out.
Proof. intros Hn. split; [apply fresh_out_ok|]. split; [done|]. cbn. lia. Qed.

Definition sds_of (s : bytes) : sds := mkSds SDS_TYPE_64 (Z.of_nat (length s)) (Z.of_nat (length s)) (s ++ [0]).

Definition str_obj (s : bytes) : robj := createObject OBJ_STRING (sds_of s).

Lemma sds_of_ok s : Z.of_nat (length s) < 2 ^ 63 -> sds_ok (sds_of s) /\ sdsval (sds_of s) = s.
Proof.
  intros Hl. split; [split; unfold sds_of, sdsalloc; cbn; [lia|lia|rewrite length_app; cbn; lia|]|].
  - rewrite Nat2Z.id. by apply list_lookup_middle.
  - unfold sdsval, sds_of. cbn. rewrite Nat2Z.id. apply take_app_length.
Qed.

Lemma str_obj_ok s : Z.of_nat (length s) < 2 ^ 63 -> node_ok (str_obj s) /\ objval (str_obj s) = Some s.
Proof.
  intros Hl. destruct (sds_of_ok s Hl) as [Hs Hv]. split; [|cbn; by rewrite Hv].
  split; [split; [done|split; [cbn; lia|cbn; eauto]]|done].
Qed.

(** A request in the query buffer of a client that waits for one. *)
Definition waiting_client (q : bytes) : reqst := mkReq (sds_of q) 0 [] 0 (-1) false fresh_out.

(** A client with the arguments of a command. *)
Definition client_with (argv : list bytes) : reqst := mkReq (sds_of []) 0 (str_obj <$> argv) 0 (-1) false fresh_out.

Definition http_client : client := mkClient (waiting_client []) (sds_of []).

(** ** The server *)

Definition start_session : session dict := mkSession empty_db 0 None None [] kd_empty [].

Definition env_at (t : Z) : env := mkEnv false false false false t.

(** A server without a password, memory limit, replication or cluster. *)
Definition plain_guards (password : bool) : guards :=
  mkGuards password false false false 0 false 0 true true [] 0 0 0 false false true false.

Definition site_commands (name : bytes) : option redisCommand :=
  if decide (name = str "getNoReplyCommand") then Some getNoReply_entry else
  if decide (name = str "set") then Some set_entry else None.

Definition no_proc (p : proc) (s : session dict) (c : reqst) : res (session dict * reqst) := Ok (s, c).
Definition no_redirect (cmd : redisCommand) (c : reqst) : option (reqst -> res reqst) := None.
Definition no_discard (s : session dict) (c : reqst) : res (session dict * reqst) := Ok (s, c).
Definition no_free (s : session dict) : session dict * bool * bool := (s, false, false).
Definition no_blocked (s : session dict) : res (session dict) := Ok s.

(** The stack where the parsed URL is put. *)
Definition stack_url : http_parser_url := mkUrl 12345 77 (replicate 7 (60000, 9)).

Lemma http_client_quiet : quiet http_client.
Proof. split; [by split_and!|]. by apply sds_of_ok. Qed.

Lemma http_client_serving n t : n <= 1000 -> serving block_size block_size (env_at t) (plain_guards false) n http_client.
Proof.
  intros Hn. destruct http_client_quiet as (Hi & Hq). split; try done. by apply fresh_ready.
Qed.

(** ** Regular expressions

    The matches of the patterns of the server: the leftmost one, with the greedy
    and the lazy repetitions of PCRE. *)

Inductive demo_regex :=
  | ReIndex                        (* the first pattern of [httpRoutes] *)
  | ReFile                         (* the second *)
  | RePage                         (* the third *)
  | ReContent                      (* the fourth *)
  | ReSection (name : bytes)       (* [section_pattern name] *)
  | ReLiteral (text : bytes).

Definition demo_extensions : list bytes :=
  [str "gif"; str "jpg"; str "jpeg"; str "png"; str "htm"; str "html"; str "js"; str "css"; str "woff"; str "woff2"; str "ttf"].

Definition starts (p s : bytes) : bool := bool_decide (take (length p) s = p).

Fixpoint run_length (f : Z -> bool) (s : bytes) : nat :=
  match s with c :: s' => if f c then S (run_length f s') else 0 | [] => 0 end.

(** The first position from [i] on where [f] holds of the rest. *)
Fixpoint search (f : bytes -> bool) (i : nat) (s : bytes) : option nat :=
  if f s then Some i else match s with _ :: s' => search f (S i) s' | [] => None end.

Definition find_extension (s : bytes) : option bytes :=
  match s with
  | c :: s' => if c =? 46 then snd <$> list_find (fun e => starts e s' = true) demo_extensions else None
  | [] => None
  end.

Definition pairs (l : list (nat * nat)) : list Z := concat ((fun p => [Z.of_nat p.1; Z.of_nat p.2]) <$> l).

(** The result code and the offset vector, for the ranges of the match and of its
    groups. *)
Definition matched (l : list (nat * nat)) : Z * list Z :=
  (Z.of_nat (length l), pairs l ++ replicate (OVECCOUNT - length (pairs l)) 0).

Definition no_match : Z * list Z := (-1, replicate OVECCOUNT 0).

Definition end_section (s : bytes) : bool := starts (str "@endsection") (drop (run_length isspace s) s).

Definition demo_exec (re : demo_regex) (s : bytes) : Z * list Z :=
  match re with
  | ReIndex => if decide (s = str "/") then matched [(0, 1)]%nat else no_match
  | ReFile =>
      match search (fun t => bool_decide (is_Some (find_extension t))) 0 s with
      | Some i => match find_extension (drop i s) with
                  | Some e => matched [(0, i + 1 + length e); (0, i); (i + 1, i + 1 + length e)]%nat
                  | None => no_match
                  end
      | None => no_match
      end
  | RePage =>
      match search (fun t => starts (str "/page/") t && (0 <? run_length isdigit (drop 6 t))%nat) 0 s with
      | Some i => let n := run_length isdigit (drop (i + 6) s) in matched [(i, i + 6 + n); (i + 6 + n - 1, i + 6 + n)]%nat
      | None => no_match
      end
  | ReContent =>
      match search (starts (str "/")) 0 s with
      | Some i => matched [(i, length s); (i + 1, length s)]%nat
      | None => no_match
      end
  | ReSection name =>
      match search (starts (str "@section_" ++ name)) 0 s with
      | Some i =>
          let b := (i + 9 + length name)%nat in
          let b := (b + run_length isspace (drop b s))%nat in
          match search end_section b (drop b s) with
          | Some e => matched [(i, e); (b, e); (e - 1, e)]%nat
          | None => no_match
          end
      | None => no_match
      end
  | ReLiteral text =>
      match search (starts text) 0 s with Some i => matched [(i, i + length text)]%nat | None => no_match end
  end.

Definition demo_compile (p : bytes) : option demo_regex :=
  if decide (p = str "^/$") then Some ReIndex else
  if decide (p = str "(.*?)\.(gif|jpg|jpeg|png|htm|html|js|css|woff|woff2|ttf)") then Some ReFile else
  if decide (p = str "/page/(\d)+") then Some RePage else
  if decide (p = str "/(.*)") then Some ReContent else
  match list_find (fun n => section_pattern n = p) section_names with
  | Some (_, n) => Some (ReSection n)
  | None => Some (ReLiteral p)
  end.

Definition demo_groups (re : demo_regex) : nat :=
  match re with ReIndex | ReLiteral _ => 0 | ReFile | ReSection _ => 2 | RePage | ReContent => 1 end.

#[export] Instance demo_pcre : Pcre := {|
  regex := demo_regex;
  pcre_compile := demo_compile;
  pcre_capturecount := demo_groups;
  pcre_exec := demo_exec
|}.

#[export] Instance demo_markdown : Markdown := {|
  markdown_data c := Some (str "<p>" ++ c ++ str "</p>" ++ [10; 0])
|}.

(** ** A site *)

Definition demo_config : config := mkConfig (str "/srv") (str "/public") (str "reload") 2 1 (2 ^ 30).

Definition demo_post_file (name : bytes) : bytes :=
  str "@section_title Post " ++ name ++ str " @endsection" ++ [10] ++ str "@section_content" ++ [10] ++
  str "text of " ++ name ++ [10] ++ str "@endsection" ++ [10].

Definition demo_names : list bytes := [str "a"; str "b"; str "c"].

Definition demo_files : list (bytes * bytes) :=
  [ (str "/srv/layout.tpl", str "<html>{{ include header }}<h1>{{ title }}</h1>{{ content }}</html>");
    (str "/srv/header.tpl", str "<head/>");
    (str "/srv/post.tpl", str "<a href='{{ link }}'>{{ title }}</a>");
    (str "/srv/page.tpl", str "@section_title Blog @endsection @section_content {{ posts }}{{ more }} @endsection");
    (str "/srv/errors/404.tpl", str "@section_title Not found @endsection") ] ++
  ((fun n => (str "/srv/posts/" ++ n ++ str ".md", demo_post_file n)) <$> demo_names).

Definition demo_fs (path : bytes) : option bytes :=
  (fun x => x.2.2) <$> list_find (fun f => f.1 = path) demo_files.

Definition demo_listing (dir : bytes) : list dirent :=
  if decide (dir = str "/srv/posts/") then
    mkDirent (str "drafts") (str "/srv/posts/drafts") true ::
    ((fun n => mkDirent (n ++ str ".md") (dir ++ n ++ str ".md") false) <$> demo_names)
  else [].

Definition demo_open (path : bytes) : option file :=
  if decide (path = str "/public/main.css") then Some (Regular (str "body { color: black }")) else None.

(** What the files compile to. *)

Definition of_res {A} (d : A) (r : res A) : A := match r with Ok a => a | Fault _ => d end.

Definition demo_layout : bytes := str "<html><head/><h1>{{ title }}</h1>{{ content }}</html>".
Definition demo_post_tpl : bytes := readFileContent demo_fs (str "/srv/post.tpl").
Definition demo_page_tpl : bytes := readFileContent demo_fs (str "/srv/page.tpl").
Definition no_obj : compiledObj := mkCompiled [] [] [] [] [] [].

Definition demo_obj (path : bytes) : compiledObj :=
  of_res no_obj (compileTemplate (readFileContent demo_fs path) demo_layout 1 1).

Definition demo_post (name : bytes) : post :=
  let obj := demo_obj (str "/srv/posts/" ++ name ++ str ".md") in
  mkPost name obj (of_res [] (compile_post demo_post_tpl obj name)).

Definition demo_posts : list post := Eval vm_compute in demo_post <$> demo_names.

Definition demo_page (i : Z) : bytes :=
  match chunks 2 demo_posts !! Z.to_nat (i - 1) with
  | Some ch => of_res [] (page_value demo_config demo_layout demo_page_tpl ch i
                 (bool_decide (is_Some (chunks 2 demo_posts !! S (Z.to_nat (i - 1))))))
  | None => []
  end.

Definition demo_site : site :=
  mkSite demo_posts demo_page (demo_obj (str "/srv/errors/400.tpl")) (demo_obj (str "/srv/errors/404.tpl"))
    (demo_obj (str "/srv/errors/500.tpl")).

Lemma demo_compiles : compiles_to demo_fs demo_config demo_layout demo_post_tpl demo_page_tpl demo_listing demo_site.
Proof.
  split.
  - by_compute.
  - reflexivity.
  - reflexivity.
  - vm_compute. reflexivity.
  - vm_compute. reflexivity.
  - vm_compute. reflexivity.
  - vm_compute. reflexivity.
  - change (post_files demo_config demo_listing) with
      ((fun n => mkDirent (n ++ str ".md") (str "/srv/posts/" ++ n ++ str ".md") false) <$> demo_names).
    repeat constructor; try (vm_compute; reflexivity); by_compute.
  - by_compute.
  - intros [|[|k]] ch Hk; [injection Hk as <-; vm_compute; reflexivity..|by destruct k].
Qed.

(** ** Requests *)

(** The pages of the site are in the key space. *)
Definition demo_store (s : session dict) (key value : bytes) : res (session dict) :=
  store 170 block_size block_size no_limits 0 true site_commands no_proc (env_at 5) s key value.

Lemma demo_stored key value : Z.of_nat (length key) < 2 ^ 63 -> Z.of_nat (length value) < 2 ^ 63 ->
  exists s, demo_store start_session key value = Ok s /\ db_ok (s_db s) /\ holds (env_at 5) (s_db s) key value /\
    forall j, j <> key -> live 5 (s_db s) j = None.
Proof.
  intros Hk Hv.
  destruct (store_ok 170 block_size block_size no_limits 0 true site_commands no_proc (env_at 5) eq_refl eq_refl eq_refl
    start_session key value empty_db_ok ltac:(vm_compute; discriminate) Hk Hv) as (db & o & E & Ho & Hov & Hdb & _ & Hl).
  eexists _. split; [exact E|]. split; [exact Hdb|]. split.
  - exists o. cbn [s_db]. rewrite Hl, decide_True by reflexivity. auto.
  - intros j Hj. change 5 with (e_now (env_at 5)). cbn [s_db]. rewrite Hl, decide_False by exact Hj. apply empty_db_live.
Qed.

Definition demo_request (path q : bytes) : bytes :=
  print_request (str "GET") (print_url path (Some q) None) (str "HTTP/1.1") [(str "Host", str "blog")].

Lemma demo_request_for path q : q <> [] -> origin_wf false path (Some q) None = true ->
  request_wf (str "GET") (print_url path (Some q) None) (str "HTTP/1.1") [(str "Host", str "blog")] = true ->
  (length path + length q <= 1000)%nat -> request_for false stack_url path q (demo_request path q).
Proof.
  intros Hq Ho Hw Hl. exists (str "GET"), (str "HTTP/1.1"), [(str "Host", str "blog")], [], (Some q), None.
  split_and!; [by rewrite app_nil_r|by left|done|by apply Nat.leb_le| |done|done|unfold query_seen; by destruct q].
  unfold demo_request, print_request, print_url, PROTO_IOBUF_LEN. cbn [fmap list_fmap concat]. rewrite !length_app. cbn [length]. 
  change (length (str "GET")) with 3%nat. change (length (str "HTTP/1.1")) with 8%nat. change (length CRLF) with 2%nat.
  change (length (print_field (str "Host", str "blog"))) with 12%nat. lia.
Qed.


(** A GET request to the concrete server. *)
Definition demo_serve (g : guards) (s : session dict) (data : bytes) : res (session dict * option client) :=
  processHttpRequestFromClient 170 block_size block_size no_limits 0 true site_commands no_proc no_redirect no_discard no_free
    no_blocked false (env_at 5) g demo_fs demo_listing demo_open false demo_config stack_url s http_client (ReadData data).

(** Discharges a hypothesis of a theorem about requests at the concrete
    server. *)
Ltac demo_hyp :=
  match goal with
  | |- forall s, 0 <= block_size s < _ => exact block_size_ok
  | |- request_for _ _ _ _ _ => apply demo_request_for; [discriminate|reflexivity|reflexivity|by apply Nat.leb_le]
  | |- serving _ _ _ _ _ _ => apply http_client_serving; vm_compute; discriminate
  | |- ready _ _ _ _ => apply fresh_ready; vm_compute; discriminate
  | |- quiet _ => exact http_client_quiet
  | |- sds_ok (cl_http_querybuf _) => apply sds_of_ok; reflexivity
  | |- Forall _ _ => by_compute
  | |- no_nul _ => by_compute
  | |- page_text _ => split; [by_compute|split; vm_compute; reflexivity]
  | |- db_ok _ => first [assumption | exact empty_db_ok]
  | |- compiles_to _ _ _ _ _ _ _ => exact demo_compiles
  | |- forall s, _ = Ok s => reflexivity
  | |- _ <= _ < _ => split; vm_compute; congruence
  | |- _ <= _ => vm_compute; discriminate
  | |- _ = _ => vm_compute; reflexivity
  | |- _ < _ => vm_compute; reflexivity
  end.
