(* ===== verification/DataTheorems.v ===== *)
(** * Theorems: strings, numbers, dictionaries, objects, the key space

    Each theorem comes with a concrete instance where it has hypotheses. *)

From S2P Require Import Prelude CLib Util Sds Dict Object Reply Resp KeyDict Db Command Demo.
Local Open Scope Z_scope.

(** ** Dictionaries *)

(** A sequence of operations on a dictionary, [OpRehash n] being [n] steps of
    incremental rehashing and [OpResize] a resize to the number of keys, which the
    server does in between. *)
Inductive dict_op (V : Type) :=
  | OpFind (k : bytes)
  | OpAdd (k : bytes) (v : V)
  | OpReplace (k : bytes) (v : V)
  | OpDelete (k : bytes)
  | OpRehash (n : nat)
  | OpResize.
Arguments OpFind {V}.
Arguments OpAdd {V}.
Arguments OpReplace {V}.
Arguments OpDelete {V}.
Arguments OpRehash {V}.
Arguments OpResize {V}.

(** What an operation returns: a value, or a flag. *)
Definition dict_result (V : Type) : Type := option V + bool.

Section DictTrace.
Context {V : Type}.
Variable hash : bytes -> Z.
Variable can_resize : bool.

Definition dict_exec (d : dict V) (o : dict_op V) : res (dict V * dict_result V) :=
  match o with
  | OpFind k => '(d, r) ← dictFind hash d k; Ok (d, inl r)
  | OpAdd k v => '(d, b) ← dictAdd hash can_resize d k v; Ok (d, inr b)
  | OpReplace k v => '(d, b) ← dictReplace hash can_resize d k v; Ok (d, inr b)
  | OpDelete k => '(d, b) ← dictGenericDelete hash d k; Ok (d, inr b)
  | OpRehash n => '(d, _) ← dictRehash hash d (S n); Ok (d, inr true)
  | OpResize => let '(d, _) := dictResize can_resize d in Ok (d, inr true)
  end.

Fixpoint dict_run (d : dict V) (ops : list (dict_op V)) : res (dict V * list (dict_result V)) :=
  match ops with
  | [] => Ok (d, [])
  | o :: ops => '(d, r) ← dict_exec d o; '(d, rs) ← dict_run d ops; Ok (d, r :: rs)
  end.

(** The same operations on a finite map. *)
Definition map_exec (m : gmap bytes V) (o : dict_op V) : gmap bytes V * dict_result V :=
  match o with
  | OpFind k => (m, inl (m !! k))
  | OpAdd k v => (match m !! k with Some _ => m | None => <[k := v]> m end, inr (bool_decide (m !! k = None)))
  | OpReplace k v => (<[k := v]> m, inr (bool_decide (m !! k = None)))
  | OpDelete k => (delete k m, inr (bool_decide (is_Some (m !! k))))
  | OpRehash _ | OpResize => (m, inr true)
  end.

Fixpoint map_run (m : gmap bytes V) (ops : list (dict_op V)) : gmap bytes V * list (dict_result V) :=
  match ops with
  | [] => (m, [])
  | o :: ops => let '(m, r) := map_exec m o in let '(m, rs) := map_run m ops in (m, r :: rs)
  end.

Lemma rehash_map (d : dict V) n : dict_ok hash d ->
  exists d' b, dictRehash hash d (S n) = Ok (d', b) /\ dict_ok hash d' /\ dict_map d' = dict_map d.
Proof.
  intros Hd. destruct (dictRehash_ok hash d (S n) Hd ltac:(lia)) as (d' & b & E & Hd' & Hp & _).
  exists d', b. split_and!; try done. unfold dict_map. symmetry. apply list_to_map_proper; [apply Hd|by symmetry].
Qed.

Lemma dict_exec_ok (d : dict V) o : dict_ok hash d -> dictSize d <= 2 ^ 30 ->
  exists d', dict_exec d o = Ok (d', (map_exec (dict_map d) o).2) /\ dict_ok hash d' /\
    dict_map d' = (map_exec (dict_map d) o).1.
Proof.
  intros Hd Hs. destruct o as [k|k v|k v|k|n|]; cbn [dict_exec map_exec fst snd].
  - destruct (dictFind_map hash d k Hd) as (d' & -> & ? & ?). by exists d'.
  - destruct (dictAdd_map hash can_resize d k v Hd Hs) as (d' & -> & ? & ?). by exists d'.
  - destruct (dictReplace_map hash can_resize d k v Hd Hs) as (d' & -> & ? & ?). by exists d'.
  - destruct (dictDelete_map hash d k Hd) as (d' & -> & ? & ?). by exists d'.
  - destruct (rehash_map d n Hd) as (d' & b & -> & ? & ?). by exists d'.
  - destruct (dictResize_ok hash can_resize d Hd Hs) as (d' & b & -> & ? & He). exists d'. split_and!; try done. unfold dict_map. by rewrite He.
Qed.

Lemma map_exec_size (m : gmap bytes V) o : (base.size (map_exec m o).1 <= S (base.size m))%nat.
Proof.
  destruct o as [k|k v|k v|k|n|]; cbn [map_exec fst]; try lia.
  - destruct (m !! k) eqn:E; [lia|]. rewrite map_size_insert_None by done. lia.
  - rewrite map_size_insert. destruct (m !! k); unfold id; lia.
  - rewrite map_size_delete. destruct (m !! k); unfold id; lia.
Qed.

Lemma dict_run_ok ops : forall (d : dict V), dict_ok hash d -> dictSize d + Z.of_nat (length ops) <= 2 ^ 30 ->
  exists d', dict_run d ops = Ok (d', (map_run (dict_map d) ops).2) /\ dict_ok hash d' /\
    dict_map d' = (map_run (dict_map d) ops).1.
Proof.
  induction ops as [|o ops IH]; intros d Hd Hs; cbn [dict_run map_run length] in *; [by exists d|].
  destruct (dict_exec_ok d o Hd) as (d1 & -> & Hd1 & Hm1); [lia|]. rewrite bind_ok.
  pose proof (map_exec_size (dict_map d) o) as Hsz. rewrite <- Hm1 in Hsz.
  pose proof (dict_map_size hash d Hd). pose proof (dict_map_size hash d1 Hd1).
  destruct (IH d1 Hd1) as (d2 & -> & Hd2 & Hm2); [lia|]. rewrite bind_ok. exists d2.
  destruct (map_exec (dict_map d) o) as [m r]. cbn [fst snd] in *. subst m.
  by destruct (map_run (dict_map d1) ops).
Qed.
End DictTrace.

(** C8: The hash tables refine finite maps. Any sequence of at most 2^30 finds,
    adds, replaces, deletes, resizes and rehashing steps, from the empty dictionary,
    succeeds and returns, operation by operation, what the same operations return
    on a finite map, although the tables grow and entries move between the two
    tables while the operations run. *)
Theorem dict_refines_map (V : Type) (hash : bytes -> Z) (can_resize : bool) (ops : list (dict_op V)) :
  Z.of_nat (length ops) <= 2 ^ 30 ->
  exists d, dict_run hash can_resize dictCreate ops = Ok (d, (map_run ∅ ops).2) /\
    dict_ok hash d /\ dict_map d = (map_run ∅ ops).1.
Proof.
  intros Hl. apply (dict_run_ok hash can_resize ops dictCreate); [|change (dictSize dictCreate) with 0; lia].
  split; cbn; [by apply reset_ok..|done|constructor].
Qed.

Definition trace_ops : list (dict_op Z) :=
  ((fun i => OpAdd [97 + i] i) <$> [0; 1; 2; 3; 4; 5; 6; 7; 8]) ++
  [OpFind [98]; OpDelete [98]; OpFind [98]; OpReplace [99] 77; OpRehash 3; OpResize; OpFind [99]; OpAdd [99] 1].

Lemma dict_refines_map_witness :
  exists d, dict_run (dictGenHashFunction 5381) true dictCreate trace_ops =
    Ok (d, replicate 9 (inr true) ++ [inl (Some 1); inr true; inl None; inr false; inr true; inr true; inl (Some 77); inr false]).
Proof.
  destruct (dict_refines_map Z (dictGenHashFunction 5381) true trace_ops) as (d & E & _);
    [vm_compute; discriminate|].
  exists d. rewrite E. vm_compute. reflexivity.
Defined.

(** C28: Rehashing for a time ends, when the work is done or the time is over. For every
    clock, [dictRehashMilliseconds] returns after at most as many rounds as there are
    buckets left to move, and the entries are the same. It returns 100 for each of the [n]
    rounds that left something to move, in an [int]; the time was not over after any of these rounds but
    the last, and the dictionary is still rehashing exactly when it was over after
    the last. *)
Theorem rehash_terminates (V : Type) (hash : bytes -> Z) (d : dict V) (ms : Z) (fuel : nat) (clock : nat -> Z) :
  dict_ok hash d -> size (ht0 d) - rehashidx d < Z.of_nat fuel ->
  exists d' n, dictRehashMilliseconds hash fuel clock d ms = Ok (d', s32 (100 * Z.of_nat n)) /\ dict_ok hash d' /\
    entries d' ≡ₚ entries d /\ (forall i, (0 < i < n)%nat -> clock i - clock O <= ms) /\
    (dictIsRehashing d' = true <-> (0 < n)%nat /\ clock n - clock O > ms).
Proof.
  intros Hd Hf.
  destruct (rehash_ms_loop_ok hash fuel clock O ms d Hd Hf) as (d' & n & E & _ & Hd' & Hp & Hc & Hr).
  exists d', n. split_and!; try done; rewrite Hr, andb_true_iff, bool_decide_eq_true, Z.gtb_lt; lia.
Qed.

(** Dictionaries that are rehashing: one with five keys, from four buckets to eight, and one with 257
    keys, from 256 buckets to 512. *)
Definition filled_key (i : Z) : bytes := 97 + i mod 16 :: if i <? 16 then [] else [i / 16].

Definition filled_dict (n : nat) : dict Z :=
  match dict_run (dictGenHashFunction 5381) true dictCreate ((fun i => OpAdd (filled_key (Z.of_nat i)) (Z.of_nat i)) <$> seq 0 n) with
  | Ok (d, _) => d
  | Fault _ => dictCreate
  end.

Lemma filled_dict_ok n : Z.of_nat n <= 2 ^ 30 -> dict_ok (dictGenHashFunction 5381) (filled_dict n).
Proof.
  intros Hn. unfold filled_dict.
  edestruct (dict_run_ok (V := Z) (dictGenHashFunction 5381) true) as (d & -> & Hd & _); [..|exact Hd].
  - split; cbn; [by apply reset_ok..|done|constructor].
  - rewrite length_fmap, length_seq. by change (dictSize dictCreate) with 0.
Qed.

Definition moving_dict : dict Z := filled_dict 5.
Definition large_dict : dict Z := filled_dict 257.

(** A time of one millisecond that is over after the first round. *)
Lemma rehash_terminates_witness :
  dictIsRehashing large_dict = true /\
  exists d', dictRehashMilliseconds (dictGenHashFunction 5381) 257 (fun i => 7 * Z.of_nat i) large_dict 1 = Ok (d', 100) /\
    entries d' ≡ₚ entries large_dict /\ dictIsRehashing d' = true.
Proof.
  split; [vm_compute; reflexivity|].
  destruct (rehash_terminates Z (dictGenHashFunction 5381) large_dict 1 257 (fun i => 7 * Z.of_nat i)) as (d' & n & E & _ & Hp & Hc & Hr);
    [by apply filled_dict_ok|vm_compute; reflexivity|].
  assert (match dictRehashMilliseconds (dictGenHashFunction 5381) 257 (fun i => 7 * Z.of_nat i) large_dict 1 with
          | Ok (_, r) => r = 100
          | Fault _ => False
          end) as Hn by (vm_compute; reflexivity).
  rewrite E in Hn. exists d'. rewrite E, Hn. split_and!; [reflexivity|exact Hp|]. apply Hr.
  destruct n as [|n]; [discriminate Hn|]. lia.
Defined.

(** ** Numbers *)

(** C27: [string2ll] accepts exactly the decimal forms of the 64-bit integers:
    no leading zeros, no sign but "-", no "-0", no spaces, and nothing out of
    range. *)
Theorem string2ll_exact (s : bytes) (v : Z) :
  string2ll s = Some v <-> s = dec v /\ LLONG_MIN <= v <= LLONG_MAX.
Proof. apply string2ll_iff. Qed.



(** ** Strings *)

(** [sdsrange] keeps the bytes between the two indices, negative indices
    counting from the end and indices beyond the ends meaning the ends, for
    strings shorter than 2^31 bytes. *)
Theorem sdsrange_exact (s : sds) (start end_ : Z) :
  sds_ok s -> sds_len s < 2 ^ 31 -> - 2 ^ 31 <= start < 2 ^ 31 -> - 2 ^ 31 <= end_ < 2 ^ 31 ->
  exists s', sdsrange s start end_ = Ok s' /\ sds_ok s' /\
    sdsval s' = take (Z.to_nat (range_index (sds_len s) end_ - range_index (sds_len s) start + 1))
                  (drop (Z.to_nat (range_index (sds_len s) start)) (sdsval s)).
Proof. intros. by apply sdsrange_ok. Qed.

Definition hello : sds := mkSds SDS_TYPE_8 5 9 [104; 101; 108; 108; 111; 0; 1; 2; 3; 4].

Lemma sdsrange_exact_witness :
  exists s', sdsrange hello 1 (-2) = Ok s' /\ sdsval s' = [101; 108; 108].
Proof.
  destruct (sdsrange_exact hello 1 (-2)) as (s' & E & _ & Hv);
    [by_compute|vm_compute; reflexivity|lia|lia|].
  exists s'. split; [exact E|]. rewrite Hv. reflexivity.
Defined.

(** Appending never overruns the string: any list of strings can be appended
    one after the other, the result is their concatenation and stays
    well-formed, whatever header type and free space the string starts with. *)
Theorem sdscat_fold (junk : Z) (parts : list bytes) (s : sds) :
  sds_ok s -> sds_len s + Z.of_nat (length (concat parts)) < 2 ^ 63 ->
  exists s', foldl (fun r t => s ← r; sdscatlen junk s t (Z.of_nat (length t))) (Ok s) parts = Ok s' /\ sds_ok s' /\
    sdsval s' = sdsval s ++ concat parts.
Proof.
  revert s. induction parts as [|t parts IH]; intros s Hs Hl; cbn [foldl concat].
  - exists s. by rewrite app_nil_r.
  - cbn [concat] in Hl. rewrite length_app in Hl. rewrite bind_ok.
    destruct (sdscat_ok junk s t Hs) as (s1 & E & Hs1 & Hv1); [lia|]. unfold sdscat in E. rewrite E.
    destruct (IH s1 Hs1) as (s2 & E2 & Hs2 & Hv2).
    { rewrite <- (sdsval_length s1 Hs1), Hv1, length_app. pose proof (sdsval_length s Hs). lia. }
    exists s2. split_and!; try done. by rewrite Hv2, Hv1, app_assoc.
Qed.

Lemma sdscat_fold_witness :
  exists s', foldl (fun r t => s ← r; sdscatlen 170 s t (Z.of_nat (length t))) (Ok hello) (replicate 3 (str " world")) = Ok s' /\
    sdsval s' = str "hello world world world".
Proof.
  destruct (sdscat_fold 170 (replicate 3 (str " world")) hello) as (s' & E & _ & Hv);
    [by_compute|vm_compute; reflexivity|].
  exists s'. split; [exact E|]. rewrite Hv. reflexivity.
Defined.

(** Making room: the contents are kept, there is room for [addlen] bytes
    afterwards, and the free space is doubled up to one megabyte, so that a
    sequence of appends does not move the string each time. *)
Theorem make_room_growth (junk : Z) (s : sds) (addlen : Z) :
  sds_ok s -> 0 < addlen -> sds_len s + addlen < 2 ^ 63 ->
  exists s', sdsMakeRoomFor junk s addlen = Ok s' /\ sds_ok s' /\ sdsval s' = sdsval s /\
    addlen <= sdsalloc s' - sds_len s' /\
    (sdsavail s < addlen ->
     sdsalloc s' = if sds_len s + addlen <? SDS_MAX_PREALLOC then (sds_len s + addlen) * 2
                   else sds_len s + addlen + SDS_MAX_PREALLOC).
Proof.
  intros Hs Ha Hb. destruct (sdsMakeRoomFor_room junk s addlen Hs Ha Hb) as (s' & E & Hs' & Hv & _ & _ & Hr).
  destruct (sdsMakeRoomFor_ok junk s addlen Hs ltac:(lia) Hb) as (s2 & E2 & _ & _ & _ & H2).
  rewrite E in E2. injection E2 as <-. exists s'. split_and!; try done.
  intros Hlt. destruct (Z.geb_spec (sdsavail s) addlen); [lia|]. apply H2.
Qed.

Lemma make_room_growth_witness :
  exists s', sdsMakeRoomFor 170 hello 100 = Ok s' /\ sdsval s' = str "hello" /\ sdsalloc s' = 210.
Proof.
  destruct (make_room_growth 170 hello 100) as (s' & E & _ & Hv & _ & Ha);
    [by_compute|lia|vm_compute; reflexivity|].
  exists s'. split; [exact E|]. split; [rewrite Hv; reflexivity|]. rewrite Ha; [reflexivity|vm_compute; reflexivity].
Defined.

(** ** Objects *)

(** The compact encodings of a string object do not change what it stands
    for: after [tryObjectEncoding] (which may store the string as an integer, or
    embed it) [getDecodedObject] gives back an sds with the same bytes. *)
Theorem encoding_roundtrip (junk : Z) (shareable : bool) (o : robj) :
  strobj_ok o ->
  exists o1 o2 s, tryObjectEncoding junk shareable o = Ok o1 /\ getDecodedObject junk o1 = Ok o2 /\
    o_ptr o2 = PtrSds s /\ sds_ok s /\ Some (sdsval s) = objval o.
Proof.
  intros Ho. destruct (tryObjectEncoding_ok junk shareable o Ho) as (o1 & E1 & Ho1 & Hv1).
  destruct (getDecodedObject_ok junk o1 Ho1) as (o2 & s & E2 & Ho2 & Hp & Hs & Hv2).
  exists o1, o2, s. split_and!; try done. rewrite <- Hv1, <- Hv2. unfold objval. by rewrite Hp.
Qed.

Definition number_obj : robj := createObject OBJ_STRING (mkSds SDS_TYPE_5 3 0 [45; 52; 50; 0]).

Lemma encoding_roundtrip_witness :
  (exists n, tryObjectEncoding 170 true number_obj = Ok (mkObj OBJ_STRING OBJ_ENCODING_INT (PtrInt n) 1)) /\
  exists o1 o2 s, tryObjectEncoding 170 true number_obj = Ok o1 /\ getDecodedObject 170 o1 = Ok o2 /\
    o_ptr o2 = PtrSds s /\ sdsval s = str "-42".
Proof.
  split; [exists (-42); vm_compute; reflexivity|].
  destruct (encoding_roundtrip 170 true number_obj) as (o1 & o2 & s & E1 & E2 & Hp & _ & Hv).
  { split; [reflexivity|]. split; [cbn; lia|]. eexists. split; [reflexivity|].
    by_compute. }
  exists o1, o2, s. split_and!; [exact E1|exact E2|exact Hp|]. injection Hv as Hv. exact Hv.
Defined.

(** ** The key space *)

(** The steps of a key space: a store, an expire time, a read, a deletion. *)
Section DbSteps.
Context {T : Type -> Type} `{KD : KeyDict T} `{KL : !KeyDictLaws T}.

Inductive db_step : redisDb T -> redisDb T -> Prop :=
  | step_set en k v db db' :
      e_loading en = false -> e_masterhost en = false -> kd_size (db_dict db) <= KD_MAX ->
      setKey en db k v = Ok db' -> db_step db db'
  | step_expire k w db db' :
      0 <= w -> kd_size (db_expires db) <= KD_MAX -> setExpire db k w = Ok db' -> db_step db db'
  | step_read en k db db' o :
      e_loading en = false -> e_masterhost en = false -> lookupKeyRead en db k = Ok (db', o) -> db_step db db'
  | step_delete en k db db' b : dbDelete en db k = Ok (db', b) -> db_step db db'.

Lemma db_step_ok db db' : db_step db db' -> db_ok db -> db_ok db'.
Proof.
  intros Hs Hdb. destruct Hs as [en k v db db' Hl Hm Hsz E|k w db db' Hw Hsz E|en k db db' o Hl Hm E|en k db db' b E].
  - destruct (setKey_ok en db k v Hdb Hl Hm Hsz) as (d & E' & Hd & _). congruence.
  - destruct (vals db !! k) as [v|] eqn:Ev.
    + destruct (setExpire_ok db k w v Hdb Hsz Hw Ev) as (d & E' & Hd & _). congruence.
    + unfold setExpire in E. destruct (dict_find_ok db k Hdb) as (d & Hf & _). rewrite Hf, bind_ok, Ev in E. done.
  - destruct (lookupKeyRead_ok en db k Hdb Hl Hm) as (d & E' & Hd & _). congruence.
  - destruct (dbDelete_ok en db k Hdb) as (d & E' & Hd & _). congruence.
Qed.
End DbSteps.

(** C26: The invariant of the key space: in every state that stores, expire
    times, reads and deletions reach from the empty database, both dictionaries
    are well-formed and only keys that exist have an expire time, so that the
    assertion of [getExpire] never fails. *)
Theorem reachable_expires {T} `{KD : KeyDict T} `{KL : !KeyDictLaws T} (db : redisDb T) (k : bytes) :
  rtc db_step empty_db db ->
  db_ok db /\ exists db', getExpire db k = Ok (db', default (-1) (exps db !! k)) /\ db_ok db'.
Proof.
  intros Hr. assert (db_ok db) as Hdb.
  { revert Hr. apply (rtc_ind_r (fun d => db_ok d)); [apply empty_db_ok|]. intros y z _ Hyz Hy. by eapply db_step_ok. }
  split; [done|]. destruct (getExpire_ok db k Hdb) as (db' & E & Hs). exists db'. split; [done|]. apply Hs.
Qed.

Definition reached_db : redisDb dict :=
  match (db ← setKey (env_at 5) empty_db (str "k") number_obj; setExpire db (str "k") 99) with
  | Ok db => db
  | Fault _ => empty_db
  end.

Lemma reachable_expires_witness :
  exists db', getExpire reached_db (str "k") = Ok (db', 99).
Proof.
  destruct (reachable_expires reached_db (str "k")) as (_ & db' & E & _).
  - eapply (rtc_l _ _ (match setKey (env_at 5) empty_db (str "k") number_obj with Ok d => d | Fault _ => empty_db end)).
    + eapply (step_set (env_at 5) (str "k") number_obj); [reflexivity|reflexivity|vm_compute; discriminate|vm_compute; reflexivity].
    + eapply rtc_once. eapply (step_expire (str "k") 99); [lia|vm_compute; discriminate|vm_compute; reflexivity].
  - exists db'. rewrite E. vm_compute. reflexivity.
Defined.
