(* ===== verification/ScanTheorems.v ===== *)
(** * Theorems: scans

    What a client that follows the cursors of [dictScan] is given. *)

From Stdlib Require Import Sorted.
From S2P Require Import Prelude CLib Dict Scan.
Local Open Scope Z_scope.

(** C29: The guarantee of [dictScan]: a client that calls it from the cursor 0 until
    the cursor is 0 again is given every key that was in the dict at each of the
    calls, whatever was added, deleted, rehashed and expanded between the calls,
    as long as the smaller table does not shrink. *)
Theorem scan_complete {V} (hash : bytes -> Z) (ds : list (dict V)) (k : bytes) :
  (forall k, 0 <= hash k < 2 ^ 64) -> ds <> [] -> Forall (dict_ok hash) ds -> Forall (fun d => is_Some (dict_map d !! k)) ds ->
  growing ds ->
  exists es v, scan_calls ds 0 = Ok (es, v) /\ (v = 0 -> k ∈ es.*1).
Proof.
  intros Hh Hne Hd Hk Hg.
  assert (Forall (fun d => k ∈ (entries d).*1) ds) as Hk'.
  { eapply Forall_impl; [exact Hk|]. intros d [x Hx]. unfold dict_map in Hx. rewrite assoc_map in Hx.
    apply assoc_elem in Hx. apply list_elem_of_fmap. by exists (k, x). }
  destruct (scan_calls_ok hash Hh k ds 0 Hd Hk' Hg) as (es & v & E & _ & Ha); [by split|..].
  - intros d Hhd. destruct ds as [|d0 ds]; [done|]. injection Hhd as ->. apply Forall_cons in Hd as [Hd _]. apply Forall_cons in Hk' as [Hk' _].
    assert (entries d <> []) as Hnd by (by destruct (entries d); [inversion Hk'|]).
    destruct (smaller_size hash d Hd Hnd) as (n & Hn & ->). lia.
  - exists es, v. split; [done|]. intros ->. destruct Ha as [|[_ Hz]]; [|done|by specialize (Hz eq_refl)].
    unfold ahead. change (rev 0) with 0. by apply rev_bits, Hh.
Qed.

(** C30: A scan of a dict that does not change ends: the cursor is 0 again after as
    many calls as the smaller table has buckets and not before, and every entry
    was returned, also while a rehash is in progress. *)
Theorem scan_ends {V} (hash : bytes -> Z) (d : dict V) :
  (forall k, 0 <= hash k < 2 ^ 64) -> dict_ok hash d -> dict_map d <> ∅ ->
  (exists es, scan_calls (replicate (Z.to_nat (size (smaller d))) d) 0 = Ok (es, 0) /\ entries d ⊆ es) /\
  forall i, (0 < i)%nat -> Z.of_nat i < size (smaller d) ->
    exists es v, scan_calls (replicate i d) 0 = Ok (es, v) /\ v <> 0.
Proof.
  intros Hh Hd Hm. assert (entries d <> []) as Hne by (intros E; apply Hm; unfold dict_map; by rewrite E).
  destruct (smaller_size hash d Hd Hne) as (n & Hn & Hs). rewrite Hs. pose proof (Z.pow_pos_nonneg 2 n) as Hp.
  pose proof (Z.pow_pos_nonneg 2 (64 - n)) as Hp'.
  assert (2 ^ 64 = 2 ^ n * 2 ^ (64 - n)) as H64 by (rewrite <- Z.pow_add_r by lia; f_equal; lia).
  pose proof (fun i => scan_same hash Hh d n Hd Hne Hs Hn i 0 0 ltac:(lia) ltac:(by split) eq_refl ltac:(lia)) as Hscan.
  split.
  - destruct (Hscan (Z.to_nat (2 ^ n)) ltac:(lia)) as (es & v & -> & Hw & Hr & Hc). exists es. split.
    + do 2 f_equal. rewrite Z.add_0_l, Z2Nat.id, <- H64, Z.mod_same in Hr by lia. rewrite <- (rev_involutive v Hw), Hr. done.
    + intros [k x] Hin. apply Hc; [done|]. rewrite Z2Nat.id by lia. apply block_range; [apply Hh|lia].
  - intros i Hi Hlt. destruct (Hscan i ltac:(lia)) as (es & v & E & Hw & Hr & _). exists es, v. split; [done|]. intros ->.
    rewrite Z.mod_small in Hr by nia. change (rev 0) with 0 in Hr. nia.
Qed.

(** ** Shrinking tables *)

(** Keys of one byte, with the byte as the hash. *)
Definition byte_hash (k : bytes) : Z := hd 0 k mod 256.

(** A dict of 16 buckets with two keys. *)
Definition two_keys : res (dict Z) :=
  let '(d, _) := dictExpand dictCreate 16 in
  '(d, _) ← dictAdd byte_hash true d [0] 100;
  '(d, _) ← dictAdd byte_hash true d [4] 104;
  Ok d.

(** The guarantee of [dictScan] does not hold while a table shrinks. After one
    call on a dict of 16 buckets the cursor is 8; the dict is resized to 4
    buckets, and the next calls run while the keys wait to be moved: of the
    expansions 0, 4, 8 and 12 of the bucket 0 only 8 and 12 are visited, because
    the expansions are counted on the bits in their normal order. The cursor
    goes back to 0, and the key of the bucket 4, which was there at every call,
    was never returned. *)
Example scan_misses_key :
  exists d1 d2, two_keys = Ok d1 /\ dictResize true d1 = (d2, true) /\
    dict_map d1 !! [4] = Some 104 /\ dict_map d2 !! [4] = Some 104 /\
    dictScan d1 0 = Ok ([([0], 100)], 8) /\
    scan_calls [d1; d2; d2; d2; d2] 0 = Ok ([([0], 100)], 0).
Proof. eexists _, _. split_and!; [vm_compute; reflexivity..|vm_compute; reflexivity]. Qed.

(** ** Witnesses *)

Lemma byte_hash_word k : 0 <= byte_hash k < 2 ^ 64.
Proof. unfold byte_hash. pose proof (Z.mod_pos_bound (hd 0 k) 256). lia. Qed.

(** The dict above, and a dict in which it is rehashed to 32 buckets. *)
Definition small_dict : dict Z := match two_keys with Ok d => d | Fault _ => dictCreate end.
Definition growing_dict : dict Z := (dictExpand small_dict 32).1.

Lemma demo_add_ok (d : dict Z) k x : dict_ok byte_hash d -> dictSize d <= 100 ->
  exists d' b, dictAdd byte_hash true d k x = Ok (d', b) /\ dict_ok byte_hash d' /\ dictSize d' <= dictSize d + 1.
Proof.
  intros Hd Hs. destruct (dictAdd_ok byte_hash true d k x Hd) as (d' & b & E & Hd' & Hp); [lia|].
  exists d', b. split_and!; try done. rewrite !(dictSize_entries byte_hash) by done.
  destruct (dict_map d !! k); destruct Hp as [_ Hp]; apply Permutation_length in Hp; cbn in Hp; lia.
Qed.

Lemma small_dict_ok : dict_ok byte_hash small_dict.
Proof.
  unfold small_dict, two_keys. destruct (dictExpand_ok byte_hash (dictCreate (V:=Z)) 16) as (d & b & -> & Hd & He & _);
    [split; cbn; [by apply reset_ok..|done|constructor]|lia|].
  assert (dictSize d = 0) as Hs by (rewrite (dictSize_entries byte_hash d Hd), He; reflexivity).
  destruct (demo_add_ok d [0] 100 Hd ltac:(lia)) as (d1 & b1 & -> & Hd1 & Hs1). rewrite bind_ok.
  destruct (demo_add_ok d1 [4] 104 Hd1 ltac:(lia)) as (d2 & b2 & -> & Hd2 & _). exact Hd2.
Qed.

Lemma growing_dict_ok : dict_ok byte_hash growing_dict.
Proof.
  unfold growing_dict. destruct (dictExpand_ok byte_hash small_dict 32 small_dict_ok) as (d & b & -> & Hd & _); [lia|exact Hd].
Qed.

(** The rehash to 32 buckets begins after half of the calls. *)
Lemma scan_complete_witness :
  exists es, scan_calls (replicate 8 small_dict ++ replicate 8 growing_dict) 0 = Ok (es, 0) /\ [4] ∈ es.*1.
Proof.
  destruct (scan_complete byte_hash (replicate 8 small_dict ++ replicate 8 growing_dict) [4]) as (es & v & E & H).
  - exact byte_hash_word.
  - discriminate.
  - apply Forall_app; split; apply Forall_replicate; [exact small_dict_ok|exact growing_dict_ok].
  - apply Forall_app; split; apply Forall_replicate; exists 104; vm_compute; reflexivity.
  - unfold growing. replace (size ∘ smaller <$> replicate 8 small_dict ++ replicate 8 growing_dict) with (replicate 16 16)
      by (vm_compute; reflexivity). repeat (constructor; [|try constructor; discriminate]). constructor.
  - exists es. assert (v = 0) as -> by (revert E; vm_compute; congruence). split; [exact E|apply H; reflexivity].
Defined.

Lemma scan_ends_witness :
  exists es, scan_calls (replicate 16 growing_dict) 0 = Ok (es, 0) /\ entries growing_dict ⊆ es.
Proof.
  destruct (scan_ends byte_hash growing_dict byte_hash_word growing_dict_ok) as [(es & E & H) _].
  - intros E. apply (f_equal (fun m => m !! [4])) in E. revert E. vm_compute. discriminate.
  - exists es. split; [exact E|exact H].
Defined.
