(* ===== verification/CollectionTheorems.v ===== *)
(** * Theorems on sets and patterns

    Sets of integers are sorted arrays of one width, sets of strings are such
    arrays or hash tables, and patterns are matched as their language says, but for
    classes at the end of a block. *)

From S2P Require Import Prelude CLib Util Sds Dict IntSet Glob Object SetType Resp Demo.
Local Open Scope Z_scope.

(** ** Sets of integers *)

(** C19: An intset is a finite set of 64-bit integers. Any sequence of additions,
    removals, lookups, random choices and questions for the size, on a new intset,
    returns without a read or write outside of the array, and returns what it
    returns on a set of integers: the position of a member is the number of the
    smaller ones, and the length of the blob is that of the widest integer added
    so far. *)
Theorem intset_refines junk ops : Z.of_nat (length ops) < INTSET_MAX -> Forall iop_ok ops ->
  exists s os B, iexecs junk intsetNew ops = Ok (s, os) /\ ispecs (∅, INTSET_ENC_INT16) ops os B /\ simulates s B.
Proof. intros Hn Hops. apply iexecs_ok; [apply intsetNew_simulates|cbn [fst]; rewrite (size_empty (C := gset Z)); lia|done]. Qed.

Definition demo_iops : list iop :=
  [IAdd 5; IAdd (-3); IAdd 70000; IAdd 5; IFind 70000; IGet 0; IAdd (2 ^ 40); IRemove 5; IFind 5; IRandom 7; ILen; IBlobLen].

Lemma intset_refines_witness : exists s os B, iexecs 170 intsetNew demo_iops = Ok (s, os) /\
  ispecs (∅, INTSET_ENC_INT16) demo_iops os B /\ simulates s B /\
  os = [OFlag true; OFlag true; OFlag true; OFlag false; OFlag true; OMember (Some (-3)); OFlag true; OFlag true; OFlag false;
        OMember (Some 70000); OSize 3; OSize 32].
Proof.
  destruct (intset_refines 170 demo_iops) as (s & os & B & E & Hs & Hb); [vm_compute; reflexivity|repeat constructor; vm_compute; congruence|].
  exists s, os, B. split; [exact E|]. split; [exact Hs|]. split; [exact Hb|]. vm_compute in E. injection E as _ <-. reflexivity.
Defined.

(** ** Sets of strings *)

Inductive sop := SAdd (o : robj) | SRemove (o : robj) | SMember (o : robj).

Definition operand (op : sop) : robj := match op with SAdd o | SRemove o | SMember o => o end.

Section SetObjects.
Variable junk : Z.
Variable hash : bytes -> Z.
Variable can_resize : bool.
Variable set_max_intset_entries : Z.
Hypothesis max_entries : 0 <= set_max_intset_entries.

Definition sexec (s : setobj) (op : sop) : res (setobj * bool) :=
  match op with
  | SAdd o => setTypeAdd junk hash can_resize set_max_intset_entries s o
  | SRemove o => setTypeRemove junk hash can_resize s o
  | SMember o => setTypeIsMember hash s o
  end.

Fixpoint sexecs (s : setobj) (ops : list sop) : res (setobj * list bool) :=
  match ops with
  | [] => Ok (s, [])
  | op :: ops => '(s, b) ← sexec s op; '(s, bs) ← sexecs s ops; Ok (s, b :: bs)
  end.

Definition sspec (X : gset bytes) (op : sop) (k : bytes) : gset bytes * bool :=
  match op with
  | SAdd _ => ({[k]} ∪ X, bool_decide (k ∉ X))
  | SRemove _ => (X ∖ {[k]}, bool_decide (k ∈ X))
  | SMember _ => (X, bool_decide (k ∈ X))
  end.

Fixpoint sspecs (X : gset bytes) (ops : list (sop * bytes)) : gset bytes * list bool :=
  match ops with
  | [] => (X, [])
  | (op, k) :: ops => let '(X1, b) := sspec X op k in let '(X2, bs) := sspecs X1 ops in (X2, b :: bs)
  end.

(** The encoding fits the members: an array only for numbers, and only while there
    are few. *)
Definition well_encoded (s : setobj) (X : gset bytes) : Prop :=
  set_is hash s X /\
  match s with
  | SetHT _ => True
  | SetIntset i => intsetLen i <= set_max_intset_entries /\ forall k, k ∈ X -> is_Some (string2ll k)
  end.

Definition is_ht (s : setobj) : bool := match s with SetHT _ => true | SetIntset _ => false end.

Lemma numbers s X : set_is hash (SetIntset s) X -> forall k, k ∈ X -> is_Some (string2ll k).
Proof.
  intros (l & Hl & ->) k. rewrite elem_of_list_to_set, list_elem_of_fmap. intros (v & -> & Hv). exists v.
  apply string2ll_dec. by apply (holds_ll s l).
Qed.

(** An array that is still one has the size that is allowed. *)
Lemma sexec_array s X op b i : well_encoded s X -> sexec s op = Ok (SetIntset i, b) -> (b = false -> setTypeSize (SetIntset i) <= setTypeSize s) ->
  (setTypeSize (SetIntset i) <= setTypeSize s \/ exists o, op = SAdd o) -> is_ht s = false /\ intsetLen i <= set_max_intset_entries.
Proof.
  intros [_ Hs] E Hb Hop. assert (is_ht s = false) as Hht.
  { destruct s as [d|s]; [|done]. destruct op; cbn in E; repeat (match type of E with (?e ≫= _) = _ => destruct e as [[]|] || destruct e; try discriminate E; try rewrite bind_ok in E end);
      repeat case_match; discriminate E. }
  split; [done|]. destruct s as [|s]; [done|]. destruct Hs as [Hlen _]. cbn [setTypeSize] in *.
  destruct Hop as [Hop|[o ->]]; [lia|]. destruct b; [|specialize (Hb eq_refl); lia]. cbn [sexec setTypeAdd] in E.
  destruct (isObjectRepresentableAsLongLong o) as [[v|]|]; [| |discriminate E]; rewrite bind_ok in E.
  - destruct (intsetAdd junk s v) as [[s1 added]|]; [|discriminate E]. rewrite bind_ok in E. destruct added; [|done].
    destruct (Z.gtb_spec (intsetLen s1) set_max_intset_entries); [|injection E as <-; done].
    destruct (setTypeConvert hash can_resize (SetIntset s1)) as [x|] eqn:Ec; [|discriminate E]. rewrite bind_ok in E. injection E as ->.
    cbn [setTypeConvert] in Ec. destruct (dictExpand dictCreate (intsetLen s1)). destruct (convert_loop _ _ _ _ _ _); [|discriminate Ec].
    rewrite bind_ok in Ec. discriminate Ec.
  - destruct (setTypeConvert hash can_resize (SetIntset s)) as [[d|]|]; [|discriminate E..]. rewrite bind_ok in E.
    destruct (member_key o); [|discriminate E]. rewrite bind_ok in E. destruct (dictAdd hash can_resize d _ tt) as [[? []]|]; discriminate E.
Qed.

Lemma sexec_ok s X op k : well_encoded s X -> small X -> strobj_ok (operand op) -> objval (operand op) = Some k ->
  exists s', sexec s op = Ok (s', (sspec X op k).2) /\ well_encoded s' (sspec X op k).1 /\ (is_ht s = true -> is_ht s' = true).
Proof.
  intros HX Hs Ho Hk. pose proof HX as [HX1 _].
  assert (exists s', sexec s op = Ok (s', (sspec X op k).2) /\ set_is hash s' (sspec X op k).1) as (s' & E & HX').
  { destruct op; cbn [sexec sspec operand fst snd] in *; [by apply set_add_ok|by apply set_remove_ok|by apply set_member_ok]. }
  exists s'. split; [done|].
  assert ((size (sspec X op k).1 <= size X)%nat \/ (sspec X op k).2 = true /\ exists o, op = SAdd o) as Hsz.
  { destruct op; cbn [sspec fst snd]; [|left; apply subseteq_size; set_solver|by left].
    destruct (decide (k ∈ X)); [left; by rewrite subseteq_union_1_L by set_solver|right; split; [by apply bool_decide_eq_true_2|eauto]]. }
  destruct s' as [d|i]; [by split|].
  destruct (sexec_array s X op _ i HX E) as [Hht Hlen]; rewrite ?(set_size_ok hash _ _ HX'), ?(set_size_ok hash _ _ HX1).
  - intros Hb. destruct Hsz as [|[? _]]; [lia|congruence].
  - destruct Hsz as [|[_ ?]]; [left; lia|by right].
  - split; [|congruence]. split; [done|]. split; [done|]. by eapply numbers.
Qed.

(** C20: A set object stays well-formed under any sequence of additions, removals and
    lookups, and answers as a set of strings. It is an array of integers only
    while all its members are numbers of 64 bits in their shortest form and there
    are at most [set-max-intset-entries] of them; once a hash table, it stays one.
    The assertions of the conversion do not fail. *)
Theorem set_encoding_kept : forall ops s X, well_encoded s X -> Z.of_nat (size X) + Z.of_nat (length ops) < INTSET_MAX ->
  Forall (fun p => strobj_ok (operand p.1) /\ objval (operand p.1) = Some p.2) ops ->
  exists s', sexecs s (fst <$> ops) = Ok (s', (sspecs X ops).2) /\ well_encoded s' (sspecs X ops).1 /\ (is_ht s = true -> is_ht s' = true).
Proof.
  intros ops. induction ops as [|[op k] ops IH]; intros s X HX Hn HF; [by exists s|].
  apply Forall_cons in HF as [[Ho Hk] HF]. cbn [fmap list_fmap sexecs sspecs length fst snd] in *.
  destruct (sexec_ok s X op k) as (s1 & E & HX1 & Hht); [done|unfold small; lia|done|done|]. rewrite E, bind_ok.
  assert (size (sspec X op k).1 <= size X + 1)%nat as Hsz.
  { destruct op; cbn [sspec fst]; [|etrans; [apply subseteq_size|apply Nat.le_add_r]; set_solver|lia].
    rewrite size_union_alt, size_singleton. assert (size (X ∖ {[k]}) <= size X)%nat by (apply subseteq_size; set_solver). lia. }
  destruct (sspec X op k) as [X1 b]. cbn [fst snd] in *. destruct (IH s1 X1 HX1 ltac:(lia) HF) as (s2 & E2 & HX2 & Hht2).
  change ((fix go (l : list (sop * bytes)) := match l with [] => [] | x :: l => x.1 :: go l end) ops) with (fst <$> ops).
  rewrite E2, bind_ok. destruct (sspecs X1 ops) as [X2 bs]. exists s2. split; [done|]. split; [done|]. auto.
Qed.
End SetObjects.

Definition demo_word (a : string) : robj := str_obj (str a).

(** Numbers, then a word: the array becomes a table. *)
Definition demo_sops : list (sop * bytes) :=
  [(SAdd (demo_word "7"), str "7"); (SAdd (demo_word "-12"), str "-12"); (SAdd (demo_word "7"), str "7"); (SRemove (demo_word "7"), str "7");
   (SAdd (demo_word "x"), str "x"); (SMember (demo_word "-12"), str "-12")].

Lemma set_encoding_kept_witness :
  exists s', sexecs 170 (dictGenHashFunction 5381) true 512 createIntsetObject (fst <$> demo_sops) = Ok (s', [true; true; false; true; true; true]) /\
    is_ht s' = true /\ members s' = {[str "-12"; str "x"]}.
Proof.
  destruct (set_encoding_kept 170 (dictGenHashFunction 5381) true 512 ltac:(lia) demo_sops createIntsetObject ∅) as (s' & E & [HX Hs] & _).
  - split; [|split; [vm_compute; discriminate|intros k Hk; by apply elem_of_empty in Hk]].
    exists []. split; [|reflexivity]. constructor; cbn; repeat constructor.
  - vm_compute. reflexivity.
  - repeat (apply Forall_cons_2; [split; [apply str_obj_ok; vm_compute; reflexivity|vm_compute; reflexivity]|]). apply Forall_nil_2.
  - exists s'. split; [rewrite E; vm_compute; reflexivity|]. split.
    + destruct s' as [d|i]; [reflexivity|]. destruct Hs as [_ Hs]. destruct (Hs (str "x")) as [z Hz]; [vm_compute; reflexivity|]. vm_compute in Hz. discriminate Hz.
    + rewrite (set_is_members _ _ _ HX). vm_compute. reflexivity.
Defined.

(** ** Patterns *)

(** C21: [stringmatchlen] decides the language of the pattern: on a pattern whose
    escapes are complete and any string that is not empty, it returns without a
    read outside of the two blocks, and returns 1 exactly when the string is in
    the language. On the empty string the same holds if the pattern does not
    begin with a class and holds no NUL. *)
Theorem glob_matches nocase p ts s : parse p = Some ts -> Forall byte_ok p -> Forall byte_ok s ->
  s <> [] \/ (head p <> Some 91 /\ no_nul p) ->
  exists b, match_blocks p s nocase = Ok b /\ (b = true <-> matches nocase ts s).
Proof. apply match_blocks_ok. Qed.

Lemma glob_matches_witness : match_blocks (str "h[a-e^]llo*?") (str "hello world") false = Ok true /\
  matches false [Lit 104; Class false [Range 97 101; One 94]; Lit 108; Lit 108; Lit 111; Star; Any] (str "hello world").
Proof.
  destruct (glob_matches false (str "h[a-e^]llo*?") [Lit 104; Class false [Range 97 101; One 94]; Lit 108; Lit 108; Lit 111; Star; Any] (str "hello world"))
    as (b & E & Hb); [reflexivity|repeat constructor; vm_compute; congruence|repeat constructor; vm_compute; congruence|left; discriminate|].
  split; [vm_compute; reflexivity|]. apply Hb. vm_compute in E. injection E as <-. reflexivity.
Defined.

(** Characters that mean themselves in a class. *)
Definition ordinary (c : Z) : Prop := byte_ok c /\ c <> 0 /\ c <> 42 /\ c <> 45 /\ c <> 63 /\ c <> 91 /\ c <> 92 /\ c <> 93 /\ c <> 94.

Lemma same_nul nocase c : byte_ok c -> c <> 0 -> same_char nocase c 0 = false.
Proof.
  intros Hb Hc. unfold same_char. assert (schar c <> schar 0) as Hs.
  { apply Z.eqb_neq. rewrite schar_eqb; [by apply Z.eqb_neq|done|by vm_compute]. }
  change (schar 0) with 0 in *. change (tolower 0) with 0. destruct nocase; apply Z.eqb_neq; [|done].
  unfold tolower, isupper. destruct (Z.leb_spec 65 (schar c)), (Z.leb_spec (schar c) 90); cbn; lia.
Qed.

(** The characters of a class, one after the other. *)
Lemma class_chars nocase pm sm s d rest : rdZ sm s = Ok d -> head rest <> Some 45 -> rest <> [] -> forall cs f ptr matched, Forall ordinary cs -> points pm ptr (cs ++ rest) ->
  class_loop (length cs + f) pm ptr (Z.of_nat (length (cs ++ rest))) sm s nocase matched =
  class_loop f pm (ptr + Z.of_nat (length cs)) (Z.of_nat (length rest)) sm s nocase (existsb (fun c => same_char nocase c d) cs || matched).
Proof.
  intros Hs Hr Hne cs. induction cs as [|c cs IH]; intros f ptr matched HF Hpt; [cbn; by rewrite Z.add_0_r|].
  apply Forall_cons in HF as [Hc HF]. destruct Hc as (_ & _ & _ & H45 & _ & _ & H92 & H93 & _).
  cbn [length Nat.add class_loop app]. rewrite (points_hd pm ptr c (cs ++ rest)), bind_ok by done.
  destruct (Z.eqb_spec c 92); [done|]. destruct (Z.eqb_spec c 93); [done|]. destruct (Z.eqb_spec (Z.of_nat (S (length (cs ++ rest)))) 0); [lia|].
  assert (exists c1, rdZ pm (ptr + 1) = Ok c1 /\ c1 <> 45) as (c1 & -> & H1).
  { pose proof (points_tl pm ptr c _ Hpt) as Ht. destruct cs as [|c1 cs]; cbn [app] in Ht.
    - destruct rest as [|r rest]; [done|]. exists r. split; [by eapply points_hd|]. cbn in Hr. congruence.
    - exists c1. split; [by eapply points_hd|]. apply Forall_cons in HF as [Hc1 _]. apply Hc1. }
  rewrite bind_ok. destruct (Z.eqb_spec c1 45); [done|]. cbn [andb]. rewrite Hs, bind_ok.
  replace (Z.of_nat (S (length (cs ++ rest))) - 1) with (Z.of_nat (length (cs ++ rest))) by lia.
  rewrite IH; [|done|by eapply points_tl]. f_equal; [lia|]. cbn [existsb]. destruct (same_char nocase c d), matched; cbn; by rewrite ?orb_true_r, ?orb_false_r.
Qed.

(** A class that is not closed and ends with a backslash makes the matcher read
    after the end of the pattern: the backslash skips the NUL that would stop the
    class. *)
Theorem glob_escape_reads_past_end nocase cs s : Forall ordinary cs -> s <> [] ->
  match_blocks ([91] ++ cs ++ [92]) s nocase = Fault OutOfBounds.
Proof.
  intros Hcs Hs. unfold match_blocks. destruct s as [|d s]; [done|].
  set (pm := ([91] ++ cs ++ [92]) ++ [0]). set (sm := (d :: s) ++ [0]).
  assert (points pm 0 ([91] ++ cs ++ [92])) as Hpt by (by exists []). assert (rdZ sm 0 = Ok d) as Hd by done.
  replace (length ([91%Z] ++ cs ++ [92%Z]) + length (d :: s) + 2)%nat with (S (length cs + (length s + 4))) by (rewrite !length_app; cbn; lia).
  cbn [stringmatchlen]. destruct (Z.eqb_spec (Z.of_nat (length ([91] ++ cs ++ [92]))) 0); [rewrite !length_app in *; cbn in *; lia|].
  rewrite (points_hd pm 0 91 (cs ++ [92])), bind_ok by done. cbn [Z.eqb Pos.eqb].
  pose proof (points_tl pm 0 91 _ Hpt) as Ht.
  assert (exists c1, rdZ pm (0 + 1) = Ok c1 /\ (c1 =? 94) = false) as (c1 & -> & Hneg).
  { destruct cs as [|c cs]; cbn [app] in Ht; eexists; (split; [by eapply points_hd|]); [done|]. apply Forall_cons in Hcs as [Hc _]. apply Z.eqb_neq, Hc. }
  rewrite bind_ok, Hneg. cbv iota.
  replace (Z.of_nat (length ([91] ++ cs ++ [92])) - 1) with (Z.of_nat (length (cs ++ [92]))) by (rewrite !length_app; cbn; lia).
  rewrite (class_chars nocase pm sm 0 d [92] Hd) by done. replace (length s + 4)%nat with (S (S (length s + 2))) by lia.
  remember (length s + 2)%nat as f. cbn [class_loop].
  assert (points pm (0 + 1 + Z.of_nat (length cs)) [92]) as H92.
  { exists ([91] ++ cs). unfold pm. rewrite !length_app. split; [by rewrite <- !app_assoc|cbn; lia]. }
  rewrite (points_hd pm _ 92 [] H92), bind_ok. change (92 =? 92) with true. cbv iota.
  rewrite (points_end pm _ (points_tl _ _ _ _ H92)), bind_ok. rewrite Hd, bind_ok.
  assert (rdZ pm (0 + 1 + Z.of_nat (length cs) + 2) = Fault OutOfBounds) as ->; [|done].
  unfold rdZ. rewrite decide_True by lia. unfold rd. rewrite lookup_ge_None_2; [done|]. unfold pm. rewrite !length_app. cbn. lia.
Qed.

Lemma glob_escape_reads_past_end_witness : match_blocks (str "[ab\") (str "x") false = Fault OutOfBounds.
Proof.
  apply (glob_escape_reads_past_end false (str "ab") (str "x")); [repeat constructor; vm_compute; congruence|discriminate].
Defined.

(** A negated class takes the NUL that ends an empty string. *)
Lemma class_takes_nul nocase cs t : Forall ordinary cs ->
  match_blocks ([91; 94] ++ cs ++ [93; t]) [] nocase =
  stringmatchlen (length cs + 5) (([91; 94] ++ cs ++ [93; t]) ++ [0]) (Z.of_nat (length cs) + 3) 1 [0] 1 (-1) nocase.
Proof.
  intros Hcs. unfold match_blocks. set (pm := ([91; 94] ++ cs ++ [93; t]) ++ [0]).
  assert (points pm 0 ([91; 94] ++ cs ++ [93; t])) as Hpt by (by exists []).
  replace (length ([91%Z; 94%Z] ++ cs ++ [93%Z; t]) + length ([] : bytes) + 2)%nat with (S (length cs + 5)) by (rewrite !length_app; cbn; lia).
  remember (length cs + 5)%nat as f eqn:Ef. cbn [stringmatchlen].
  destruct (Z.eqb_spec (Z.of_nat (length ([91; 94] ++ cs ++ [93; t]))) 0); [rewrite !length_app in *; cbn in *; lia|].
  rewrite (points_hd pm 0 91 _ Hpt), bind_ok. cbn [Z.eqb Pos.eqb].
  pose proof (points_tl pm 0 91 _ Hpt) as H1. rewrite (points_hd pm _ 94 _ H1), bind_ok. cbn [Z.eqb Pos.eqb].
  pose proof (points_tl2 pm 0 91 94 _ Hpt) as H2.
  replace (Z.of_nat (length ([91; 94] ++ cs ++ [93; t])) - 2) with (Z.of_nat (length (cs ++ [93; t]))) by (rewrite !length_app; cbn; lia).
  rewrite Ef at 1. rewrite (class_chars nocase pm [0] 0 0 [93; t]) by done. cbn [class_loop].
  assert (points pm (0 + 2 + Z.of_nat (length cs)) [93; t]) as H93.
  { exists ([91; 94] ++ cs). unfold pm. rewrite !length_app. split; [by rewrite <- !app_assoc|cbn; lia]. }
  rewrite (points_hd pm _ 93 _ H93), !bind_ok. cbn [Z.eqb Pos.eqb]. rewrite bind_ok.
  assert (existsb (fun c => same_char nocase c 0) cs = false) as ->.
  { apply not_true_is_false. rewrite existsb_exists. intros (c & Hc & E). apply list_elem_of_In in Hc.
    pose proof (proj1 (Forall_forall _ _) Hcs c Hc) as (Hb & Hz & _). by rewrite same_nul in E. }
  cbn [orb negb]. change (Z.of_nat (length ([] : bytes)) - 1 =? 0) with false. cbv iota. cbn [length].
  replace (0 + 2 + Z.of_nat (length cs) + 1) with (Z.of_nat (length cs) + 3) by lia. done.
Qed.

(** A negated class at the begin of a pattern takes the NUL after an empty string
    for a character: with a star after it, the empty string is accepted, though it
    is not in the language; with any other character after it, the matcher reads
    after the end of the string. *)
Theorem glob_class_accepts_empty nocase cs c : Forall ordinary cs -> ordinary c ->
  match_blocks ([91; 94] ++ cs ++ [93; 42]) [] nocase = Ok true /\
  (forall ts, parse ([91; 94] ++ cs ++ [93; 42]) = Some ts -> ~ matches nocase ts []) /\
  match_blocks ([91; 94] ++ cs ++ [93; c]) [] nocase = Fault OutOfBounds.
Proof.
  intros Hcs Hc. rewrite !class_takes_nul by done. replace (length cs + 5)%nat with (S (S (length cs + 3))) by lia.
  generalize (length cs + 3)%nat. intros f.
  assert (forall t, points (([91; 94] ++ cs ++ [93; t]) ++ [0]) (Z.of_nat (length cs) + 3) [t]) as Hpt.
  { intros t. exists ([91; 94] ++ cs ++ [93]). rewrite !length_app. split; [by rewrite <- !app_assoc|cbn; lia]. }
  split; [|split].
  - remember (S f) as g eqn:Eg. cbn [stringmatchlen]. change (1 =? 0) with false. cbv iota.
    rewrite (points_hd _ _ _ _ (Hpt 42)), bind_ok. change (42 =? 42) with true. cbv iota. subst g. cbn [skip_next_stars].
    rewrite (points_end _ _ (points_tl _ _ _ _ (Hpt 42))), bind_ok. done.
  - intros ts Hp Hm. unfold parse in Hp. apply parse_head in Hp as (tok & ts2 & -> & Ht); [|done].
    by apply matches_char_iff in Hm as (? & ? & ? & _).
  - destruct Hc as (_ & _ & H42 & _ & H63 & H91 & H92 & _). remember (S f) as g eqn:Eg. cbn [stringmatchlen]. change (1 =? 0) with false. cbv iota.
    rewrite (points_hd _ _ _ _ (Hpt c)), bind_ok. destruct (Z.eqb_spec c 42); [done|]. destruct (Z.eqb_spec c 63); [done|].
    destruct (Z.eqb_spec c 91); [done|]. destruct (Z.eqb_spec c 92); [done|]. cbn [andb]. done.
Qed.

Lemma glob_class_accepts_empty_witness : match_blocks (str "[^a]*") [] false = Ok true /\ match_blocks (str "[^a]b") [] false = Fault OutOfBounds.
Proof.
  destruct (glob_class_accepts_empty false (str "a") 98) as (H1 & _ & H2); [repeat constructor; vm_compute; congruence|repeat split; vm_compute; congruence|].
  split; [exact H1|exact H2].
Defined.
