(* ===== verification/ProtocolTheorems.v ===== *)
(** * Theorems: the protocols

    The Redis protocol, the output of a client, and the commands; the request
    headers and the URLs of HTTP. *)

From S2P Require Import Prelude CLib Util Sds Split Dict Object Reply Resp KeyDict Db Command H3 HttpUrl Demo.
Local Open Scope Z_scope.

(** ** Redis requests *)

(** C22: Requests survive the wire. What [redisFormatCommandArgv] writes for a
    list of arguments is parsed back by [processMultibulkBuffer] to string objects
    with those arguments, byte for byte (the arguments may hold any bytes), and
    what follows the request in the query buffer stays there. *)
Theorem resp_roundtrip (junk : Z) (zs es : sds -> Z) (limits : client_type -> obuf_limits) (unixtime : Z)
    (argv : list bytes) (cmd : bytes) (n : Z) (rest : bytes) (c : reqst) :
  redisFormatCommandArgv argv = Ok (cmd, n) -> Z.of_nat (length (resp_encode argv)) < 2 ^ 31 ->
  argv <> [] -> Z.of_nat (length argv) <= 1024 * 1024 ->
  Forall (fun a => Z.of_nat (length a) <= 512 * 1024 * 1024) argv ->
  sds_ok (q_querybuf c) -> sds_len (q_querybuf c) < 2 ^ 31 -> sdsval (q_querybuf c) = take (Z.to_nat n) cmd ++ rest ->
  q_argv c = [] -> q_multibulklen c = 0 -> q_bulklen c = -1 ->
  exists c', processMultibulkBuffer junk zs es limits unixtime c = Ok (c', true) /\
    objval <$> q_argv c' = Some <$> argv /\ Forall node_ok (q_argv c') /\
    sdsval (q_querybuf c') = rest /\ q_out c' = q_out c.
Proof.
  intros Hf Hl Hne Hn Ha Hq Hlq Hv Hargv Hm Hb. rewrite format_command_ok in Hf by done.
  assert (cmd = resp_encode argv ++ [0]) as -> by congruence.
  assert (n = Z.of_nat (length (resp_encode argv))) as -> by congruence. clear Hf. rewrite Nat2Z.id, take_app_length in Hv.
  destruct (multibulk_ok junk zs es limits unixtime c argv rest) as (c' & objs & E & Ho & Hok & Hov & _ & Hr & _ & _ & Hout & _);
    try done.
  - unfold at_window. change (Z.to_nat 0) with 0%nat. rewrite drop_0. split_and!; (done || lia || idtac).
    pose proof (sds_ok_len _ Hq). lia.
  - exists c'. by rewrite Ho.
Qed.

Definition sample_argv : list bytes := [str "set"; str "a key"; [13; 10; 0; 255]].

Lemma resp_roundtrip_witness :
  exists c', processMultibulkBuffer 170 block_size block_size no_limits 0
      (waiting_client (resp_encode sample_argv ++ str "*1")) = Ok (c', true) /\
    objval <$> q_argv c' = Some <$> sample_argv /\ sdsval (q_querybuf c') = str "*1".
Proof.
  destruct (resp_roundtrip 170 block_size block_size no_limits 0 sample_argv
    (resp_encode sample_argv ++ [0]) (Z.of_nat (length (resp_encode sample_argv))) (str "*1")
    (waiting_client (resp_encode sample_argv ++ str "*1"))) as (c' & E & Ho & _ & Hr & _);
    [vm_compute; reflexivity|vm_compute; reflexivity|discriminate|vm_compute; discriminate|
     repeat constructor; vm_compute; discriminate|by_compute|vm_compute; reflexivity|vm_compute; reflexivity|reflexivity..|].
  exists c'. split_and!; [exact E|exact Ho|exact Hr].
Defined.

(** C23: Quoted arguments survive an inline request. A line that is written with
    [sdscatrepr], with any bytes in the arguments, is split by
    [processInlineBuffer] in the same arguments, of which the empty ones are left
    out. After a line that ends with CR LF what follows it stays in the query
    buffer; after one that ends with LF alone the next byte is lost. *)
Theorem inline_roundtrip (junk : Z) (zs es : sds -> Z) (limits : client_type -> obuf_limits) (unixtime : Z)
    (args : list bytes) (s : sds) (eol rest : bytes) (c : reqst) :
  Forall (Forall byte) args -> sds_ok s -> sdsval s = [] ->
  Z.of_nat (length (print_args args)) < 2 ^ 31 -> eol = [13; 10] \/ eol = [10] ->
  exists s', repr_line junk s args = Ok s' /\
    (sds_ok (q_querybuf c) -> sds_len (q_querybuf c) < 2 ^ 31 - 1 -> sdsval (q_querybuf c) = sdsval s' ++ eol ++ rest ->
     exists c', processInlineBuffer junk zs es limits unixtime c = Ok (c', true) /\
       objval <$> q_argv c' = Some <$> filter (fun a => a <> []) args /\ Forall node_ok (q_argv c') /\
       sdsval (q_querybuf c') = (if bool_decide (eol = [10]) then drop 1 rest else rest) /\ q_out c' = q_out c).
Proof.
  intros Hb Hs Hv Hl He. pose proof (sdsval_length s Hs) as Hsl. rewrite Hv in Hsl. cbn in Hsl.
  destruct (repr_line_ok junk args s Hs) as (s' & E & _ & Hv'); [lia|]. rewrite Hv in Hv'. exists s'. split; [done|].
  intros Hq Hlq Hqv. rewrite Hv' in Hqv.
  destruct (inline_ok junk zs es limits unixtime c args eol rest Hq Hlq Hb He Hqv) as (q & objs & -> & _ & Hqr & Ho & Hn).
  eexists. split; [done|]. split_and!; try done. cbn. rewrite Hqr. by destruct He as [-> | ->].
Qed.

Definition quoted_argv : list bytes := [str "set"; [34; 92; 10; 0; 255]; []; str "it's"].

Lemma inline_roundtrip_witness :
  exists s c', repr_line 170 (sds_of []) quoted_argv = Ok s /\
    processInlineBuffer 170 block_size block_size no_limits 0 (waiting_client (sdsval s ++ [10] ++ str "PING")) = Ok (c', true) /\
    objval <$> q_argv c' = Some <$> [str "set"; [34; 92; 10; 0; 255]; str "it's"] /\ sdsval (q_querybuf c') = str "ING".
Proof.
  destruct (sds_of_ok []) as [Hs Hv]; [reflexivity|].
  destruct (inline_roundtrip 170 block_size block_size no_limits 0 quoted_argv (sds_of []) [10] (str "PING")
    (waiting_client (print_args quoted_argv ++ [10] ++ str "PING"))) as (s & E & H);
    [by_compute|exact Hs|exact Hv|vm_compute; reflexivity|by right|].
  exists s. assert (sdsval s = print_args quoted_argv) as Hsv by (revert E; vm_compute; intros [= <-]; reflexivity). rewrite Hsv in *.
  destruct H as (c' & E' & Ho & _ & Hr & _); [apply sds_of_ok; vm_compute; reflexivity|vm_compute; reflexivity|vm_compute; reflexivity|].
  exists c'. split_and!; [exact E|exact E'|rewrite Ho; vm_compute; reflexivity|exact Hr].
Defined.

(** ** The output *)

(** C24: Replies are delivered in order and completely. After a string is queued,
    whatever the sizes of the writes of the socket are, the bytes that
    [writeToClient] sends followed by the bytes still queued are the bytes that
    were queued before followed by the string. *)
Theorem reply_delivered (junk : Z) (zs es : sds -> Z) (limits : client_type -> obuf_limits) (unixtime : Z)
    (c : outst) (s : bytes) (limited eagain : bool) (writes : list Z) :
  (forall x, 0 <= zs x < 2 ^ 48) -> (forall x, 0 <= es x < 2 ^ 48) ->
  ready zs es 1 c -> takes_replies c = true -> Z.of_nat (length s) < 2 ^ 63 ->
  exists c1 c2 sent alive, addReplyString junk zs es limits unixtime c s = Ok c1 /\
    writeToClient zs es limited eagain writes c1 = Ok (c2, sent, alive) /\ out_ok zs es c2 /\
    sent ++ stream c2 = stream c ++ s.
Proof.
  intros Hz He Hc Ht Hl.
  destruct (addReplyString_replied junk zs es limits unixtime Hz He c s Hc Hl) as (c1 & E1 & Hc1 & Hs1 & _).
  destruct (writeToClient_ok zs es Hz He limited eagain writes c1 Hc1) as (c2 & sent & alive & E2 & Hc2 & Hs2 & _).
  exists c1, c2, sent, alive. split_and!; try done. by rewrite Hs2, Hs1, Ht.
Qed.

Lemma reply_delivered_witness :
  exists c1 c2 sent alive, addReplyString 170 block_size block_size no_limits 0 fresh_out (str "hello") = Ok c1 /\
    writeToClient block_size block_size false true [3] c1 = Ok (c2, sent, alive) /\ sent ++ stream c2 = str "hello".
Proof.
  destruct (reply_delivered 170 block_size block_size no_limits 0 fresh_out (str "hello") false true [3])
    as (c1 & c2 & sent & alive & E1 & E2 & _ & H);
    [apply block_size_ok|apply block_size_ok|apply fresh_ready; lia|reflexivity|vm_compute; reflexivity|].
  exists c1, c2, sent, alive. split_and!; [exact E1|exact E2|rewrite H; reflexivity].
Defined.

(** ** Commands *)

(** ** HTTP requests *)

(** The bytes that a field of the parsed header denotes. *)
Definition header_field (m : bytes) (h : RequestHeader) (i : nat) : option (bytes * bytes) :=
  match Fields h !! i with
  | Some (mkField (Some n) nl (Some v) vl) => Some (slice m n nl, slice m v vl)
  | _ => None
  end.

(** C25: A request that is printed, with up to 20 header fields, is parsed to its
    method, its URI, its version and its fields in order, all of them pointing
    to the bytes of the request, wherever the request starts in the buffer and
    whatever follows it. *)
Theorem request_roundtrip (m : bytes) (p : nat) (method uri version : bytes) (fields : list (bytes * bytes)) (rest : bytes) :
  request_wf method uri version fields = true -> (length fields <= MAX_HEADER_SIZE)%nat ->
  drop p m = print_request method uri version fields ++ rest ->
  exists h pm pu pv, h3_request_header_parse h3_request_header_new m p = Ok (h, H3_OK) /\
    RequestMethod h = Some pm /\ slice m pm (RequestMethodLen h) = method /\
    RequestURI h = Some pu /\ slice m pu (RequestURILen h) = uri /\
    HTTPVersion h = VAt pv /\ slice m pv (HTTPVersionLen h) = version /\
    HeaderSize h = length fields /\ forall i, (i < length fields)%nat -> header_field m h i = fields !! i.
Proof.
  intros Hwf Hn Hw. eexists _, _, _, _. split; [by eapply header_parse_ok|]. unfold parsed.
  cbn [RequestMethod RequestMethodLen RequestURI RequestURILen HTTPVersion HTTPVersionLen HeaderSize Fields].
  unfold print_request in Hw. rewrite <- !app_assoc in Hw.
  pose proof (drop_window _ _ _ _ Hw) as Hw1. pose proof (drop_window1 _ _ _ _ Hw1) as Hw2.
  pose proof (drop_window _ _ _ _ Hw2) as Hw3. pose proof (drop_window1 _ _ _ _ Hw3) as Hw4.
  pose proof (drop_window _ _ _ _ Hw4) as Hw5. pose proof (drop_window _ _ _ _ Hw5) as Hw6.
  split; [reflexivity|]. split; [by eapply slice_window|]. split; [reflexivity|]. split; [by eapply slice_window|].
  split; [reflexivity|]. split; [by eapply slice_window|]. split; [done|]. intros i Hi. destruct (lookup_lt_is_Some_2 fields i Hi) as [nv Hnv]. rewrite Hnv.
  unfold header_field. change (length CRLF) with 2%nat in Hw6. cbn [Fields].
  destruct (layout_slices _ _ _ _ _ _ Hw6 Hnv) as (q & r & Hlay & Hq & Hr).
  rewrite list_lookup_inserts by (rewrite ?layout_length; unfold MAX_HEADER_SIZE in *; rewrite ?length_replicate; lia).
  rewrite Nat.sub_0_r, Hlay, Hq, Hr. by destruct nv.
Qed.

Definition sample_fields : list (bytes * bytes) := [(str "Host", str "localhost"); (str "Accept", str "*/*")].

Lemma request_roundtrip_witness :
  exists h pm pu pv,
    let m := print_request (str "GET") (str "/about?x=1") (str "HTTP/1.1") sample_fields ++ [0] in
    h3_request_header_parse h3_request_header_new m 0 = Ok (h, H3_OK) /\ RequestMethod h = Some pm /\ RequestURI h = Some pu /\
    HTTPVersion h = VAt pv /\ slice m pv (HTTPVersionLen h) = str "HTTP/1.1" /\ HeaderSize h = 2%nat.
Proof.
  destruct (request_roundtrip (print_request (str "GET") (str "/about?x=1") (str "HTTP/1.1") sample_fields ++ [0]) 0
    (str "GET") (str "/about?x=1") (str "HTTP/1.1") sample_fields [0]) as (h & pm & pu & pv & E & H1 & _ & H2 & _ & H3 & H4 & H5 & _);
    [vm_compute; reflexivity|cbn; unfold MAX_HEADER_SIZE; lia|reflexivity|].
  exists h, pm, pu, pv. split_and!; [exact E|exact H1|exact H2|exact H3|exact H4|exact H5].
Defined.

(** C36: The array of header fields has 20 entries and the parser does not check
    its bound: every request with more than 20 header fields makes it write
    outside the array. *)
Theorem too_many_fields (m : bytes) (p : nat) (method uri version : bytes) (fields : list (bytes * bytes)) (rest : bytes) :
  request_wf method uri version fields = true -> (MAX_HEADER_SIZE < length fields)%nat ->
  drop p m = print_request method uri version fields ++ rest ->
  h3_request_header_parse h3_request_header_new m p = Fault OutOfBounds.
Proof. apply header_parse_overflow. Qed.

Lemma too_many_fields_witness :
  h3_request_header_parse h3_request_header_new
    (print_request (str "GET") (str "/") (str "HTTP/1.1") (replicate 21 (str "A", str "b")) ++ [0]) 0 = Fault OutOfBounds.
Proof.
  apply (too_many_fields _ 0 (str "GET") (str "/") (str "HTTP/1.1") (replicate 21 (str "A", str "b")) [0]);
    [vm_compute; reflexivity|rewrite length_replicate; unfold MAX_HEADER_SIZE; lia|reflexivity].
Defined.

(** ** URLs *)

(** C33: Parsing any URL shorter than 2^16 bytes is safe, for CONNECT requests
    too: the parser never reads outside the URL and never fails an assertion,
    and every component that it reports lies inside the URL. *)
Theorem url_fields_inside (strict is_connect : bool) (buf : bytes) (u0 : http_parser_url) :
  length (field_data u0) = 7%nat -> Z.of_nat (length buf) < 2 ^ 16 ->
  exists r, http_parser_parse_url strict buf is_connect u0 = Ok r /\
    forall u f, r = Some u -> has_field u f = true ->
      0 <= field_off u f /\ 0 <= field_len u f /\ field_off u f + field_len u f <= Z.of_nat (length buf).
Proof.
  intros H7 Hn. destruct (parse_url_bounds strict buf is_connect u0 H7 Hn) as (r & E & H).
  exists r. split; [done|]. intros u f Hr. by apply H.
Qed.


Lemma url_fields_inside_witness :
  exists r, http_parser_parse_url false (str "http://u:p@[::1]:80/a?b#c") false stack_url = Ok r /\
    forall u f, r = Some u -> has_field u f = true -> field_off u f + field_len u f <= 25.
Proof.
  destruct (url_fields_inside false false (str "http://u:p@[::1]:80/a?b#c") stack_url) as (r & E & H);
    [reflexivity|vm_compute; reflexivity|].
  exists r. split; [exact E|]. intros u f Hr Hf. apply (H u f Hr Hf).
Defined.

(** C32: The components of a URL in origin form are reported exactly, for all URL
    characters: the path, the query and the fragment that are there are marked, with
    the offset and the length of their bytes; a query or a fragment that is absent or
    empty and the components that the form does not have (schema, host, port, user) are not
    marked, and their entries are left as they were in the structure that the caller
    passed. *)
Theorem url_components (strict : bool) (u : http_parser_url) (path : bytes) (query fragment : option bytes) :
  length (field_data u) = 7%nat -> origin_wf strict path query fragment = true ->
  Z.of_nat (length (print_url path query fragment)) < 2 ^ 16 ->
  exists u', http_parser_parse_url strict (print_url path query fragment) false u = Ok (Some u') /\
    forall f, match component path query fragment f with
      | Some ((_ :: _) as s) => has_field u' f = true /\ field_value (print_url path query fragment) u' f = s
      | _ => has_field u' f = false /\ field_off u' f = field_off u f /\ field_len u' f = field_len u f
      end.
Proof.
  intros Hu Hwf Hn. exists (origin_url u path query fragment). split; [by apply origin_parse|].
  intros f. by apply origin_fields.
Qed.

Lemma url_components_witness :
  exists u', http_parser_parse_url false (str "/about#top") false stack_url = Ok (Some u') /\
    field_value (str "/about#top") u' UF_PATH = str "/about" /\ field_value (str "/about#top") u' UF_FRAGMENT = str "top" /\
    has_field u' UF_HOST = false /\ field_off u' UF_QUERY = 60000 /\ field_len u' UF_QUERY = 9.
Proof.
  destruct (url_components false stack_url (str "/about") None (Some (str "top"))) as (u' & E & H);
    [reflexivity|vm_compute; reflexivity|vm_compute; reflexivity|].
  destruct (H UF_PATH) as [_ Hp]. destruct (H UF_FRAGMENT) as [_ Hf]. destruct (H UF_HOST) as [Hh _]. destruct (H UF_QUERY) as (_ & Ho & Hl).
  exists u'. split_and!; [exact E|exact Hp|exact Hf|exact Hh|exact Ho|exact Hl].
Defined.

(** C34: Which targets that start with a slash are accepted: exactly those made of
    URL characters, question marks and hashes. *)
Theorem url_accepts (strict : bool) (u : http_parser_url) (t : bytes) :
  (exists u', http_parser_parse_url strict (47 :: t) false u = Ok (Some u')) <->
  forallb (fun c => IS_URL_CHAR strict c || (c =? 63) || (c =? 35)) t = true.
Proof. apply origin_accepts. Qed.
