(* ===== verification/SiteTheorems.v ===== *)
(** * Theorems: the site and its server

    The answers to HTTP requests, the pages that are built from the content
    directory, and the text functions they use. *)

From S2P Require Import Prelude CLib Util Sds Dict Object Reply Resp KeyDict Db Command Helper H3 HttpUrl Template Http Site Pages Serve Serving Demo.
Local Open Scope Z_scope.

(** ** Requests *)

Section Requests.
Context {T : Type -> Type} `{KD : KeyDict T} `{KL : !KeyDictLaws T} `{P : Pcre} `{M : Markdown}.
Variable junk : Z.
Variable zs es : sds -> Z.
Variable limits : client_type -> obuf_limits.
Variable unixtime : Z.
Variable shareable : bool.
Variable lookupCommand : bytes -> option redisCommand.
Variable other_proc : proc -> session T -> reqst -> res (session T * reqst).
Variable cluster_redirect : redisCommand -> reqst -> option (reqst -> res reqst).
Variable discardTransaction : session T -> reqst -> res (session T * reqst).
Variable freeMemoryIfNeeded : session T -> session T * bool * bool.
Variable handleClientsBlockedOnLists : session T -> res (session T).
Variable en : env.
Variable g : guards.
Variable fs : bytes -> option bytes.
Variable listing : bytes -> list dirent.
Variable open_file : bytes -> option file.
Variable strict : bool.
Variable cfg : config.

(** The blocks of the allocator are smaller than the address space. *)
Hypothesis zmalloc_size : forall s, 0 <= zs s < 2 ^ 48.
Hypothesis embedded_size : forall s, 0 <= es s < 2 ^ 48.
(** The server is a master that has loaded its data. *)
Hypothesis master : e_masterhost en = false.
Hypothesis loaded : e_loading en = false.
(** The commands of the site were not renamed. *)
Hypothesis page_command : lookupCommand (str "getNoReplyCommand") = Some getNoReply_entry.
Hypothesis set_command : lookupCommand (str "set") = Some set_entry.
(** No client waits in a blocking operation. *)
Hypothesis no_blocked_clients : forall s, handleClientsBlockedOnLists s = Ok s.
Hypothesis querybuf_limit : PROTO_IOBUF_LEN <= cf_client_max_querybuf_len cfg.

#[local] Abbreviation serve_request := (processHttpRequestFromClient junk zs es limits unixtime shareable lookupCommand
  other_proc cluster_redirect discardTransaction freeMemoryIfNeeded handleClientsBlockedOnLists false en g
  fs listing open_file strict cfg).
#[local] Abbreviation serving' := (serving zs es en g).

(** C1: A GET request for a path whose route asks for a key is answered with the
    text that the key holds: the bytes added to the output of the client are the
    status 200, the headers with the length of the text and its type, and the
    text itself, and nothing else. Reading the page changes no value of the
    key space, and the client can send its next request. *)
Theorem stored_page_served (u : http_parser_url) (s : session T) (c : client) (path q data key v : bytes) (r : route) (ms : list bytes) :
  request_for strict u path q data -> preg_match (cf_reload_content_query cfg) q = Ok None ->
  find_route httpRoutes path = Ok (Some (r, ms)) -> route_key r ms = Some key -> Forall no_nul ms ->
  Z.of_nat (length key) <= 16000 ->
  serving' 2 c -> sds_ok (cl_http_querybuf c) -> sds_len (cl_http_querybuf c) < 2 ^ 62 ->
  db_ok (s_db s) -> holds en (s_db s) key v -> page_text v ->
  exists s' c', serve_request u s c (ReadData data) = Ok (s', Some c') /\
    stream (cl_out c') = stream (cl_out c) ++ response_headers (str "html") (Z.of_nat (length v)) 200 ++ v /\
    db_ok (s_db s') /\ same_live (e_now en) (s_db s) (s_db s') /\ serving' 0 c'.
Proof.
  intros Hreq Hq Hr Hk Hms Hl Hc Hh Hhl Hdb Hv Ht.
  edestruct (process_request_for (T:=T)) as (hq & _ & _ & ->); [exact zmalloc_size|exact embedded_size|exact master|exact loaded|
     exact page_command|exact no_blocked_clients|exact querybuf_limit|exact Hreq|exact Hq|eapply serving_quiet; exact Hc|exact Hh|exact Hhl|]. cbv iota. rewrite bind_ok.
  destruct (serve_path_page junk zs es limits unixtime shareable lookupCommand other_proc cluster_redirect discardTransaction
    freeMemoryIfNeeded handleClientsBlockedOnLists en g fs listing open_file cfg zmalloc_size embedded_size
    master loaded page_command no_blocked_clients querybuf_limit 0 s (mkClient (cl_req c) hq) path r ms key v 200)
    as (s' & c' & E & Hdb' & Hlv & Hsv & Hst & _); [exact Hr|exact Hk|exact Hms|lia|by apply serving_hq|exact Hdb|exact Hl|left; by split_and!|].
  rewrite E, bind_ok. exists s', c'. by split_and!.
Qed.

(** C2: A GET request for a key that holds nothing is answered with the status
    404 and the page of the error 404, or no text if there is no such page. *)
Theorem missing_page_is_404 (u : http_parser_url) (s : session T) (c : client) (path q data key v : bytes) (r : route) (ms : list bytes) :
  request_for strict u path q data -> preg_match (cf_reload_content_query cfg) q = Ok None ->
  find_route httpRoutes path = Ok (Some (r, ms)) -> route_key r ms = Some key -> Forall no_nul ms ->
  Z.of_nat (length key) <= 16000 ->
  serving' 2 c -> sds_ok (cl_http_querybuf c) -> sds_len (cl_http_querybuf c) < 2 ^ 62 ->
  db_ok (s_db s) -> live (e_now en) (s_db s) key = None -> error_page en (s_db s) (str "404") v ->
  exists s' c', serve_request u s c (ReadData data) = Ok (s', Some c') /\
    stream (cl_out c') = stream (cl_out c) ++ response_headers (str "html") (Z.of_nat (length v)) 404 ++ v /\
    db_ok (s_db s') /\ serving' 0 c'.
Proof.
  intros Hreq Hq Hr Hk Hms Hl Hc Hh Hhl Hdb Hv He.
  edestruct (process_request_for (T:=T)) as (hq & _ & _ & ->); [exact zmalloc_size|exact embedded_size|exact master|exact loaded|
     exact page_command|exact no_blocked_clients|exact querybuf_limit|exact Hreq|exact Hq|eapply serving_quiet; exact Hc|exact Hh|exact Hhl|]. cbv iota. rewrite bind_ok.
  destruct (serve_path_page junk zs es limits unixtime shareable lookupCommand other_proc cluster_redirect discardTransaction
    freeMemoryIfNeeded handleClientsBlockedOnLists en g fs listing open_file cfg zmalloc_size embedded_size
    master loaded page_command no_blocked_clients querybuf_limit 0 s (mkClient (cl_req c) hq) path r ms key v 404)
    as (s' & c' & E & Hdb' & Hlv & Hsv & Hst & _); [exact Hr|exact Hk|exact Hms|lia|by apply serving_hq|exact Hdb|exact Hl|right; by split_and!|].
  rewrite E, bind_ok. exists s', c'. by split_and!.
Qed.

(** C5: A GET request for a file is answered with the whole file, read in blocks
    of 8192 bytes, after headers with its size and the type of its extension;
    the file is the one at the public directory followed by the path, as it
    is. *)
Theorem file_served (u : http_parser_url) (s : session T) (c : client) (path q data m0 m1 contents : bytes) (ms : list bytes) :
  request_for strict u path q data -> preg_match (cf_reload_content_query cfg) q = Ok None ->
  find_route httpRoutes path = Ok (Some (RouteFile, m0 :: m1 :: ms)) ->
  no_nul (cf_public_dir cfg) -> no_nul m0 -> no_nul m1 -> Z.of_nat (length (file_path cfg m0 m1)) < 2 ^ 31 ->
  open_file (cf_public_dir cfg ++ m0 ++ str "." ++ m1) = Some (Regular contents) -> Z.of_nat (length contents) < 10 ^ 9 ->
  serving' (1 + Z.of_nat (length (chunks BUFSIZ contents))) c ->
  sds_ok (cl_http_querybuf c) -> sds_len (cl_http_querybuf c) < 2 ^ 62 ->
  exists c', serve_request u s c (ReadData data) = Ok (s, Some c') /\
    stream (cl_out c') = stream (cl_out c) ++ response_headers m1 (Z.of_nat (length contents)) 200 ++ contents /\ serving' 0 c'.
Proof.
  intros Hreq Hq Hr Hd H0 H1 Hl Hf Hlen Hc Hh Hhl.
  edestruct (process_request_for (T:=T)) as (hq & _ & _ & ->); [exact zmalloc_size|exact embedded_size|exact master|exact loaded|
     exact page_command|exact no_blocked_clients|exact querybuf_limit|exact Hreq|exact Hq|eapply serving_quiet; exact Hc|exact Hh|exact Hhl|]. cbv iota. rewrite bind_ok.
  unfold serve_path. rewrite Hr, bind_ok. cbn [callback].
  edestruct (responseHttpFile_ok (T:=T)) as (c' & -> & Hsv & Hst & _);
    [exact zmalloc_size|exact embedded_size|exact Hd|exact H0|exact H1|exact Hl|exact Hf|exact Hlen|reflexivity|reflexivity|by apply serving_hq|].
  rewrite bind_ok. exists c'. by split_and!.
Qed.

#[local] Abbreviation init := (initContents junk zs es limits unixtime shareable lookupCommand other_proc en fs listing cfg).

(** C4: A GET request whose query asks for a reload first builds the site again
    from the content directory, and is answered from the new site: with the text
    that the build stored last under the key of the route, whatever was stored
    there before. *)
Theorem reload_serves_new_site (u : http_parser_url) (s : session T) (c : client) (path q data key v : bytes) (r : route)
    (ms gs : list bytes) (layout postContent pageContent : bytes) (st : site) :
  1 <= cf_per_page cfg < 2 ^ 32 ->
  request_for strict u path q data -> preg_match (cf_reload_content_query cfg) q = Ok (Some gs) ->
  find_route httpRoutes path = Ok (Some (r, ms)) -> route_key r ms = Some key -> Forall no_nul ms ->
  Z.of_nat (length key) <= 16000 ->
  serving' 2 c -> sds_ok (cl_http_querybuf c) -> sds_len (cl_http_querybuf c) < 2 ^ 62 ->
  db_ok (s_db s) -> compiles_to fs cfg layout postContent pageContent listing st -> site_small cfg (s_db s) st ->
  last_write (site_writes cfg st) key = Some v -> page_text v ->
  exists s' c', serve_request u s c (ReadData data) = Ok (s', Some c') /\
    stream (cl_out c') = stream (cl_out c) ++ response_headers (str "html") (Z.of_nat (length v)) 200 ++ v /\
    db_ok (s_db s') /\ holds en (s_db s') key v.
Proof.
  intros Hpp Hreq Hq Hr Hk Hms Hl Hc Hh Hhl Hdb Hst [Hsz Hf] Hw Ht.
  edestruct (process_request_for (T:=T)) as (hq & _ & _ & ->); [exact zmalloc_size|exact embedded_size|exact master|exact loaded|
     exact page_command|exact no_blocked_clients|exact querybuf_limit|exact Hreq|exact Hq|eapply serving_quiet; exact Hc|exact Hh|exact Hhl|]. cbv iota.
  rewrite (initContents_stores junk zs es limits unixtime shareable lookupCommand other_proc en fs cfg layout postContent
    pageContent Hpp listing s st Hst).
  destruct (store_all_ok junk zs es limits unixtime shareable lookupCommand other_proc en master loaded set_command
    (site_writes cfg st) s Hdb Hsz Hf) as (s1 & -> & Hdb1 & _ & _ & _ & _ & Hlast). rewrite bind_ok.
  specialize (Hlast key) as Hkey. rewrite Hw in Hkey.
  destruct (serve_path_page junk zs es limits unixtime shareable lookupCommand other_proc cluster_redirect discardTransaction
    freeMemoryIfNeeded handleClientsBlockedOnLists en g fs listing open_file cfg zmalloc_size embedded_size
    master loaded page_command no_blocked_clients querybuf_limit 0 s1 (mkClient (cl_req c) hq) path r ms key v 200)
    as (s' & c' & E & Hdb' & Hlv & Hsv & Hst' & _); [exact Hr|exact Hk|exact Hms|lia|by apply serving_hq|exact Hdb1|exact Hl|left; by split_and!|].
  rewrite E, bind_ok. exists s', c'. split_and!; try done. destruct Hkey as (o & Ho & ?). exists o. by rewrite Hlv.
Qed.

(** C3: What [initContents] builds. It succeeds when the templates and the posts
    compile, whatever was stored before. The posts, in the order of the
    directory, are cut in chunks of [per_page]; page [i] of the index holds the
    text made of the [i]-th chunk, with a link to the next page on all pages but
    the last; every post is stored under its name without the extension; the
    three error pages are stored; and no other key changes. *)
Theorem site_built (s : session T) (layout postContent pageContent : bytes) (st : site) :
  1 <= cf_per_page cfg < 2 ^ 32 -> db_ok (s_db s) ->
  compiles_to fs cfg layout postContent pageContent listing st -> site_small cfg (s_db s) st ->
  exists s', init s = Ok s' /\ db_ok (s_db s') /\
    (forall i, (i * Z.to_nat (cf_per_page cfg) < length (st_posts st))%nat ->
       exists text, page_value cfg layout pageContent
           (take (Z.to_nat (cf_per_page cfg)) (drop (i * Z.to_nat (cf_per_page cfg)) (st_posts st))) (1 + Z.of_nat i)
           (bool_decide (S i * Z.to_nat (cf_per_page cfg) < length (st_posts st))%nat) = Ok text /\
         holds en (s_db s') (str "blogd::page" ++ dec (1 + Z.of_nat i)) text) /\
    (NoDup (p_name <$> st_posts st) -> forall p, p ∈ st_posts st ->
       holds en (s_db s') (str "blogd::post::" ++ p_name p) (compiled_content (p_obj p))) /\
    holds en (s_db s') (str "blogd::page::error400") (compiled_content (st_400 st)) /\
    holds en (s_db s') (str "blogd::page::error404") (compiled_content (st_404 st)) /\
    holds en (s_db s') (str "blogd::page::error500") (compiled_content (st_500 st)) /\
    (forall k, k ∉ (site_writes cfg st).*1 -> live (e_now en) (s_db s') k = live (e_now en) (s_db s) k).
Proof.
  intros Hpp Hdb Hst Hsm.
  destruct (initContents_ok junk zs es limits unixtime shareable lookupCommand other_proc en fs cfg layout postContent
    pageContent Hpp listing master loaded set_command s st Hst Hdb Hsm) as (s' & E & Hdb' & (H1 & H2 & H3 & H4 & H5) & _ & _ & _ & Hfr).
  exists s'. split_and!; try done. intros i Hi.
  assert (forall k, site_chunks cfg st !! k = if decide (k * Z.to_nat (cf_per_page cfg) < length (st_posts st))%nat
    then Some (take (Z.to_nat (cf_per_page cfg)) (drop (k * Z.to_nat (cf_per_page cfg)) (st_posts st))) else None) as Hch
    by (intros k; apply chunks_lookup; lia).
  pose proof (Hch i) as Hci. rewrite decide_True in Hci by done. exists (st_pages st (1 + Z.of_nat i)). split; [|by apply (H1 i _ Hci)].
  rewrite <- (ct_pages _ _ _ _ _ _ _ Hst i _ Hci). f_equal. rewrite (Hch (S i)).
  destruct (decide (S i * Z.to_nat (cf_per_page cfg) < length (st_posts st))%nat) as [Hs|Hs].
  - rewrite !bool_decide_eq_true_2; [done|eauto|done].
  - rewrite !bool_decide_eq_false_2; [done|by intros []|done].
Qed.

(** A request of one word (for instance "GET" and a line end, without a
    target) makes the server read through a NULL pointer: the result of the
    header parser is not tested, and the method it did not find is compared. *)
Theorem one_word_request_crashes (u : http_parser_url) (s : session T) (c : client) (word rest : bytes) :
  quiet c -> sds_ok (cl_http_querybuf c) -> sds_len (cl_http_querybuf c) < 2 ^ 62 ->
  token word = true -> Z.of_nat (length (word ++ CRLF ++ rest)) <= PROTO_IOBUF_LEN ->
  serve_request u s c (ReadData (word ++ CRLF ++ rest)) = Fault NullPointer.
Proof. by apply process_word. Qed.

(** With a password configured, HTTP clients are never authenticated: on the
    first request of a connection for the index the page command is refused,
    its error goes to the HTTP client, no result is set, and the server reads
    the missing result through a NULL pointer. *)
Theorem password_crashes (u : http_parser_url) (s : session T) (c : client) (path q data : bytes) (ms : list bytes) :
  request_for strict u path q data -> preg_match (cf_reload_content_query cfg) q = Ok None ->
  find_route httpRoutes path = Ok (Some (RouteIndex, ms)) ->
  g_requirepass g = true -> g_authenticated g = false ->
  quiet c -> ready zs es 1 (cl_out c) -> flag (cl_out c) CLIENT_MULTI = false ->
  sds_ok (cl_http_querybuf c) -> sds_len (cl_http_querybuf c) < 2 ^ 62 ->
  s_last_error s = None -> s_last_reply s = None ->
  serve_request u s c (ReadData data) = Fault NullPointer.
Proof.
  intros Hreq Hq Hr Hp Ha Hc Hrd Hm Hh Hhl He Hl. pose proof Hc as (Hi & Hqb & Hqe).
  edestruct (process_request_for (T:=T)) as (hq & _ & _ & ->); [exact zmalloc_size|exact embedded_size|exact master|exact loaded|
     exact page_command|exact no_blocked_clients|exact querybuf_limit|exact Hreq|exact Hq|exact Hc|exact Hh|exact Hhl|]. cbv iota.
  rewrite bind_ok. unfold serve_path. rewrite Hr, bind_ok. cbn [callback]. unfold responseHttpIndex.
  rewrite concat_str_ok by (repeat constructor; done). rewrite bind_ok.
  edestruct (get_page_noauth (T:=T)) as (c' & ->); [exact zmalloc_size|exact embedded_size|exact page_command|exact querybuf_limit|
    exact Hp|exact Ha|exact Hrd|exact Hm|exact Hi|exact Hqb|exact Hqe|repeat constructor; done|done|].
  rewrite bind_ok. unfold respond_last. by rewrite He, Hl.
Qed.

(** A page whose text is an integer (a template that renders to digits) is
    stored as an integer, and the pointer field of the object, which then holds
    the number itself, is used as the address of the text. *)
Theorem integer_page_crashes (u : http_parser_url) (s : session T) (c : client) (path q data key : bytes) (r : route) (ms : list bytes)
    (o : robj) (n : Z) :
  request_for strict u path q data -> preg_match (cf_reload_content_query cfg) q = Ok None ->
  find_route httpRoutes path = Ok (Some (r, ms)) -> route_key r ms = Some key -> Forall no_nul ms ->
  Z.of_nat (length key) <= 16000 ->
  serving' 2 c -> sds_ok (cl_http_querybuf c) -> sds_len (cl_http_querybuf c) < 2 ^ 62 -> db_ok (s_db s) ->
  live (e_now en) (s_db s) key = Some o -> o_type o = OBJ_STRING -> o_ptr o = PtrInt n ->
  serve_request u s c (ReadData data) = Fault OutOfBounds.
Proof.
  intros Hreq Hq Hr Hk Hms Hl Hc Hh Hhl Hdb Hlive Ht Hp.
  edestruct (process_request_for (T:=T)) as (hq & _ & _ & ->); [exact zmalloc_size|exact embedded_size|exact master|exact loaded|
     exact page_command|exact no_blocked_clients|exact querybuf_limit|exact Hreq|exact Hq|eapply serving_quiet; exact Hc|exact Hh|exact Hhl|].
  cbv iota. rewrite bind_ok.
  rewrite (serve_path_key junk zs es limits unixtime shareable lookupCommand other_proc cluster_redirect discardTransaction
    freeMemoryIfNeeded handleClientsBlockedOnLists en g open_file cfg s (mkClient (cl_req c) hq) path r ms key) by done.
  pose proof (route_key_no_nul r ms key Hk Hms) as Hnk.
  pose proof (get_page_ok junk zs es limits unixtime shareable lookupCommand other_proc cluster_redirect discardTransaction
    freeMemoryIfNeeded handleClientsBlockedOnLists en g cfg master loaded page_command no_blocked_clients querybuf_limit
    2 s (mkClient (cl_req c) hq) key (serving_hq _ _ _ _ 2 c hq Hc) Hdb Hnk Hl) as HG.
  rewrite Hlive in HG. unfold page_result in HG. rewrite bool_decide_eq_true_2 in HG by done.
  destruct HG as (db' & c1 & -> & _). rewrite bind_ok. unfold respond_last. cbn [s_last_error s_last_reply].
  rewrite Hp. done.
Qed.
End Requests.

(** ** Instances at a concrete server *)

Definition hello : bytes := str "<p>Hello from the blog</p>".

Lemma stored_page_served_witness :
  exists s s' c', demo_store start_session (str "blogd::post::about") hello = Ok s /\
    demo_serve (plain_guards false) s (demo_request (str "/about") (str "a=1")) = Ok (s', Some c') /\
    stream (cl_out c') = response_headers (str "html") 26 200 ++ hello.
Proof.
  destruct (demo_stored (str "blogd::post::about") hello) as (s & E & Hdb & Hh & _); [reflexivity..|].
  edestruct (stored_page_served 170 block_size block_size no_limits 0 true site_commands no_proc no_redirect no_discard no_free
    no_blocked (env_at 5) (plain_guards false) demo_fs demo_listing demo_open false demo_config)
    with (u := stack_url) (s := s) (c := http_client) (path := str "/about") (q := str "a=1") (data := demo_request (str "/about") (str "a=1"))
      (key := str "blogd::post::about") (v := hello) (r := RouteContent) (ms := [str "about"]) as (s' & c' & E' & Hst & _).
  all: try first [exact Hh | demo_hyp].
  exists s, s', c'. split_and!; [exact E|exact E'|exact Hst].
Defined.

Lemma missing_page_is_404_witness :
  exists s s' c', demo_store start_session (str "blogd::page::error404") hello = Ok s /\
    demo_serve (plain_guards false) s (demo_request (str "/page/7") (str "a=1")) = Ok (s', Some c') /\
    stream (cl_out c') = response_headers (str "html") 26 404 ++ hello.
Proof.
  destruct (demo_stored (str "blogd::page::error404") hello) as (s & E & Hdb & Hh & Hl); [reflexivity..|].
  edestruct (missing_page_is_404 170 block_size block_size no_limits 0 true site_commands no_proc no_redirect no_discard no_free
    no_blocked (env_at 5) (plain_guards false) demo_fs demo_listing demo_open false demo_config)
    with (u := stack_url) (s := s) (c := http_client) (path := str "/page/7") (q := str "a=1") (data := demo_request (str "/page/7") (str "a=1"))
      (key := str "blogd::page7") (v := hello) (r := RoutePage) (ms := [str "7"]) as (s' & c' & E' & Hst & _).
  all: try first [apply Hl; discriminate | demo_hyp].
  - left. split; [exact Hh|demo_hyp].
  - exists s, s', c'. split_and!; [exact E|exact E'|exact Hst].
Defined.

Lemma file_served_witness :
  exists c', demo_serve (plain_guards false) start_session (demo_request (str "/main.css") (str "v=2")) = Ok (start_session, Some c') /\
    stream (cl_out c') = response_headers (str "css") 21 200 ++ str "body { color: black }".
Proof.
  edestruct (file_served 170 block_size block_size no_limits 0 true site_commands no_proc no_redirect no_discard no_free
    no_blocked (env_at 5) (plain_guards false) demo_fs demo_listing demo_open false demo_config)
    with (u := stack_url) (s := start_session) (c := http_client) (path := str "/main.css") (q := str "v=2")
      (data := demo_request (str "/main.css") (str "v=2")) (m0 := str "/main") (m1 := str "css")
      (contents := str "body { color: black }") (ms := @nil bytes) as (c' & E' & Hst & _).
  all: try demo_hyp.
  exists c'. split; [exact E'|exact Hst].
Defined.

Lemma demo_small : site_small demo_config (s_db start_session) demo_site.
Proof. split; [vm_compute; discriminate|by_compute]. Qed.

Lemma reload_serves_new_site_witness :
  exists s' c', demo_serve (plain_guards false) start_session (demo_request (str "/page/2") (str "reload")) = Ok (s', Some c') /\
    stream (cl_out c') = response_headers (str "html") (Z.of_nat (length (demo_page 2))) 200 ++
      str "<html><head/><h1>Blog</h1><a href='/c'>Post c</a></html>".
Proof.
  edestruct (reload_serves_new_site 170 block_size block_size no_limits 0 true site_commands no_proc no_redirect no_discard no_free
    no_blocked (env_at 5) (plain_guards false) demo_fs demo_listing demo_open false demo_config)
    with (u := stack_url) (s := start_session) (c := http_client) (path := str "/page/2") (q := str "reload")
      (data := demo_request (str "/page/2") (str "reload")) (key := str "blogd::page2") (v := demo_page 2) (r := RoutePage)
      (ms := [str "2"]) (gs := @nil bytes) (layout := demo_layout) (postContent := demo_post_tpl) (pageContent := demo_page_tpl)
      (st := demo_site) as (s' & c' & E' & Hst & _).
  all: try first [exact demo_small | demo_hyp].
  exists s', c'. split; [exact E'|]. rewrite Hst. vm_compute. reflexivity.
Defined.

Lemma site_built_witness :
  exists s', initContents 170 block_size block_size no_limits 0 true site_commands no_proc (env_at 5) demo_fs demo_listing
      demo_config start_session = Ok s' /\
    holds (env_at 5) (s_db s') (str "blogd::post::b") (str "<html><head/><h1>Post b</h1><p>text of b</p>" ++ [10] ++ str "</html>") /\
    exists text, holds (env_at 5) (s_db s') (str "blogd::page1") text /\ strstr text (str "href='/page/2'") = Some 110%nat.
Proof.
  destruct (site_built 170 block_size block_size no_limits 0 true site_commands no_proc (env_at 5) demo_fs demo_listing
    demo_config) with (s := start_session) (layout := demo_layout) (postContent := demo_post_tpl) (pageContent := demo_page_tpl)
    (st := demo_site) as (s' & E & _ & Hp & Hn & _).
  all: try first [exact demo_small | demo_hyp].
  exists s'. split; [exact E|]. split.
  - apply (Hn ltac:(by_compute) (mkPost (str "b") (demo_obj (str "/srv/posts/b.md")) (str "<a href='/b'>Post b</a>"))).
    apply (list_elem_of_lookup_2 _ 1%nat). vm_compute. reflexivity.
  - destruct (Hp 0%nat) as (text & Et & Ht); [vm_compute; lia|]. exists text. split; [exact Ht|].
    revert Et. vm_compute. intros [= <-]. reflexivity.
Defined.

Lemma one_word_request_crashes_witness :
  demo_serve (plain_guards false) start_session (str "GET" ++ CRLF ++ CRLF) = Fault NullPointer.
Proof. apply one_word_request_crashes; demo_hyp. Defined.

Lemma password_crashes_witness :
  demo_serve (plain_guards true) start_session (demo_request (str "/") (str "a=1")) = Fault NullPointer.
Proof.
  apply (password_crashes 170 block_size block_size no_limits 0 true site_commands no_proc no_redirect no_discard no_free
    no_blocked (env_at 5) (plain_guards true) demo_fs demo_listing demo_open false demo_config)
    with (path := str "/") (q := str "a=1") (ms := @nil bytes); demo_hyp.
Defined.

Lemma integer_page_crashes_witness :
  exists s, demo_store start_session (str "blogd::post::n") (str "12345") = Ok s /\
    demo_serve (plain_guards false) s (demo_request (str "/n") (str "a=1")) = Fault OutOfBounds.
Proof.
  destruct (demo_stored (str "blogd::post::n") (str "12345")) as (s & E & Hdb & _); [reflexivity..|].
  exists s. split; [exact E|].
  assert (exists o, live 5 (s_db s) (str "blogd::post::n") = Some o /\ o_type o = OBJ_STRING /\ o_ptr o = PtrInt 12345)
    as (o & Hl & Ht & Hp).
  { replace s with (of_res start_session (demo_store start_session (str "blogd::post::n") (str "12345"))) by (by rewrite E).
    eexists. split_and!; vm_compute; reflexivity. }
  apply (integer_page_crashes 170 block_size block_size no_limits 0 true site_commands no_proc no_redirect no_discard no_free
    no_blocked (env_at 5) (plain_guards false) demo_fs demo_listing demo_open false demo_config)
    with (path := str "/n") (q := str "a=1") (key := str "blogd::post::n") (r := RouteContent) (ms := [str "n"]) (o := o) (n := 12345);
    first [exact Hl | exact Ht | exact Hp | demo_hyp].
Defined.
