(* ===== verification/TextTheorems.v ===== *)
(** * Theorems: text

    Replacement, matches, templates and response headers; two mistakes in how the
    pages of the index are counted and numbered. *)

From S2P Require Import Prelude CLib Util Sds Dict Object Reply Resp KeyDict Db Command Helper H3 HttpUrl Template Http Site Pages Serve Serving Demo.
Local Open Scope Z_scope.

(** C37: [strReplace] replaces every occurrence, left to right and without
    overlaps. There is exactly one way to cut a text at the first place where the word
    occurs, and the rest after that word in the same way; the pieces, joined by the
    word, are the text; and the result is the pieces joined by the replacement, in
    a buffer of exactly this size with the terminating NUL as its last byte. *)
Theorem replace_exact (rep with_ orig : bytes) :
  rep <> [] -> Z.of_nat (length orig) < 2 ^ 31 -> Z.of_nat (length with_) < 2 ^ 31 -> Z.of_nat (length rep) < 2 ^ 31 ->
  exists pieces, leftmost rep orig pieces /\ (forall ps, leftmost rep orig ps -> ps = pieces) /\ orig = join rep pieces /\
    (Z.of_nat (length (join with_ pieces)) < 2 ^ 31 ->
     strReplace (Some rep) (Some with_) (Some orig) = Ok (Some (join with_ pieces ++ [0]))).
Proof.
  intros Hr Ho Hw Hl. assert (leftmost rep orig (split_on (S (length orig)) rep orig)) as Hm by (apply split_on_leftmost; [done|lia]).
  eexists. split; [exact Hm|]. split; [intros ps Hps; symmetry; by eapply leftmost_unique|].
  split; [by rewrite split_on_join|]. intros Hout. by apply strReplace_exact.
Qed.

(** In "aaa" the word "aa" is replaced at the left. *)
Lemma replace_exact_witness :
  strReplace (Some (str "aa")) (Some (str "?")) (Some (str "aaa {{ aa }}")) = Ok (Some (str "?a {{ ? }}" ++ [0])) /\
  exists pieces, leftmost (str "aa") (str "aaa {{ aa }}") pieces /\ str "aaa {{ aa }}" = join (str "aa") pieces /\
    strReplace (Some (str "aa")) (Some (str "?")) (Some (str "aaa {{ aa }}")) = Ok (Some (join (str "?") pieces ++ [0])).
Proof.
  split; [vm_compute; reflexivity|].
  destruct (replace_exact (str "aa") (str "?") (str "aaa {{ aa }}")) as (pieces & Hm & Hu & Hj & E);
    [discriminate|vm_compute; reflexivity..|].
  exists pieces. split; [exact Hm|]. split; [exact Hj|]. apply E.
  rewrite <- (Hu (split_on 13 (str "aa") (str "aaa {{ aa }}"))); [vm_compute; reflexivity|].
  apply split_on_leftmost; [discriminate|vm_compute; lia].
Defined.

(** C38: The headers of a response of less than 10^9 bytes are the status line of the
    code (400 for an unknown type), the fixed lines, the length in decimal and
    the type of the extension; from 10^9 bytes on the length does not fit in its
    array, and [sprintf] writes past its end. *)
Theorem headers_exact (junk : Z) (contentType : bytes) (n code : Z) :
  0 <= n < 2 ^ 32 ->
  if n <? 10 ^ 9
  then exists h, buildHttpHeaders junk contentType n code = Ok h /\ sds_ok h /\ sdsval h = response_headers contentType n code
  else buildHttpHeaders junk contentType n code = Fault OutOfBounds.
Proof.
  intros Hn. destruct (Z.ltb_spec n (10 ^ 9)); [apply buildHttpHeaders_ok; lia|by apply buildHttpHeaders_overflow].
Qed.

Lemma headers_exact_witness :
  (exists h, buildHttpHeaders 170 (str "css") 21 200 = Ok h /\ sdsval h = response_headers (str "css") 21 200) /\
  buildHttpHeaders 170 (str "css") 1000000000 200 = Fault OutOfBounds.
Proof.
  split.
  - destruct (headers_exact 170 (str "css") 21 200) as (h & E & _ & H); [lia|]. exists h. split; [exact E|exact H].
  - pose proof (headers_exact 170 (str "css") 1000000000 200 ltac:(lia)) as H. exact H.
Defined.

(** ** Matches *)

(** [preg_match] of a pattern with at most three groups gives the ranges of
    the offset vector, an unset group being empty; the array of the results has
    room for three pointers, and a match of a pattern with more groups writes
    past its end. *)
Theorem match_groups `{P : Pcre} `{L : !PcreLaws P} (pattern data : bytes) (re : regex) :
  pcre_compile pattern = Some re -> no_nul data -> Z.of_nat (length data) < 2 ^ 31 -> 0 <= (pcre_exec re data).1 ->
  if (pcre_capturecount re <=? 3)%nat
  then preg_match pattern data = Ok (Some (group data (pcre_exec re data).2 <$> seq 1 (pcre_capturecount re)))
  else is_ok (preg_match pattern data) = false.
Proof.
  intros Hc Hn Hl Hrc. destruct (Nat.leb_spec (pcre_capturecount re) 3).
  - rewrite (preg_match_ok pattern re) by done. destruct (pcre_exec re data) as [rc ov]. cbn [fst snd] in *.
    by destruct (Z.ltb_spec rc 0); [lia|].
  - by apply (preg_match_overflow pattern re).
Qed.

(** An engine with patterns of [n] groups, [n] being the length of the pattern,
    that all match the whole subject. *)
Definition whole_pcre : Pcre := {|
  regex := nat;
  pcre_compile p := Some (length p);
  pcre_capturecount n := n;
  pcre_exec n s := (1, concat (replicate 15 [0; Z.of_nat (length s)]))
|}.

Lemma whole_pcre_laws : PcreLaws whole_pcre.
Proof.
  split.
  - intros re subject rc ov [= <- <-] _. reflexivity.
  - intros re subject rc ov i s e [= <- <-] _ _ Hi. right.
    assert (s = 0 /\ e = Z.of_nat (length subject)) as [-> ->]; [|lia].
    do 10 (destruct i as [|i]; [cbn in *; split; congruence|]). lia.
Qed.

Lemma match_groups_witness :
  @preg_match whole_pcre (str "ab") (str "xyz") = Ok (Some [str "xyz"; str "xyz"]) /\
  is_ok (@preg_match whole_pcre (str "abcd") (str "xyz")) = false.
Proof.
  split.
  - refine (@match_groups whole_pcre whole_pcre_laws (str "ab") (str "xyz") 2%nat _ _ _ _); [reflexivity|by_compute|reflexivity|discriminate].
  - refine (@match_groups whole_pcre whole_pcre_laws (str "abcd") (str "xyz") 4%nat _ _ _ _); [reflexivity|by_compute|reflexivity|discriminate].
Defined.

(** C39: A file compiles to its sections and to the layout in which the tags of
    the title, the description and the content are replaced; the content is the
    rendered Markdown if the configuration and the caller ask for it, and
    sections that the file does not have are empty. *)
Theorem template_rendered `{P : Pcre} `{M : Markdown} (file layout html : bytes) (markdownCompile useMarkdown : Z) :
  Forall (section_ok file) section_names ->
  content_html file ((markdownCompile >? 0) && (useMarkdown >? 0)) html ->
  no_nul layout -> no_nul html ->
  render_fits layout (default [] (section_text file (str "title"))) (default [] (section_text file (str "meta_description"))) html ->
  exists obj, compileTemplate file layout markdownCompile useMarkdown = Ok obj /\
    title obj = default [] (section_text file (str "title")) /\
    desc obj = default [] (section_text file (str "description")) /\
    compiled_content obj = replace_all (str "{{ content }}") html
      (replace_all (str "{{ meta_description }}") (default [] (section_text file (str "meta_description")))
         (replace_all (str "{{ title }}") (title obj) layout)).
Proof. intros Hs Hc Nl Nh Hf. eexists. split; [by apply compileTemplate_ok|done]. Qed.

Lemma template_rendered_witness :
  exists obj, compileTemplate (demo_post_file (str "a")) demo_layout 1 1 = Ok obj /\
    compiled_content obj = str "<html><head/><h1>Post a</h1><p>text of a</p>" ++ [10] ++ str "</html>".
Proof.
  destruct (template_rendered (demo_post_file (str "a")) demo_layout (str "<p>text of a</p>" ++ [10]) 1 1)
    as (obj & E & Ht & _ & Hc).
  - repeat constructor; vm_compute; repeat constructor; discriminate.
  - exists []. vm_compute. reflexivity.
  - by_compute.
  - by_compute.
  - by_compute.
  - exists obj. split; [exact E|]. rewrite Hc, Ht. vm_compute. reflexivity.
Defined.

(** ** The pages of the index *)

(** A configuration with [per-page 0] is accepted, and building a site with at
    least one post divides by zero after the first post is stored. *)
Theorem per_page_zero_crashes {T} `{KD : KeyDict T} `{KL : !KeyDictLaws T} `{P : Pcre} `{M : Markdown}
    (junk : Z) (zs es : sds -> Z) (limits : client_type -> obuf_limits) (unixtime : Z) (shareable : bool)
    (lookupCommand : bytes -> option redisCommand) (other_proc : proc -> session T -> reqst -> res (session T * reqst))
    (en : env) (fs : bytes -> option bytes) (cfg : config) (layout postContent pageContent : bytes)
    (n j page : Z) (f : dirent) (files : list dirent) (p : post) (s : session T) :
  e_masterhost en = false -> e_loading en = false -> lookupCommand (str "set") = Some set_entry ->
  cf_per_page cfg = 0 -> file_post fs cfg layout postContent f p ->
  db_ok (s_db s) -> kd_size (db_dict (s_db s)) <= KD_MAX ->
  Z.of_nat (length (POST_KEY_PREFIX ++ p_name p)) < 2 ^ 63 -> Z.of_nat (length (compiled_content (p_obj p))) < 2 ^ 63 ->
  posts_loop junk zs es limits unixtime shareable lookupCommand other_proc en fs cfg layout postContent pageContent n
    (f :: files) s j page [] = Fault DivByZero.
Proof.
  intros Hm Hl Hset Hpp (H1 & H2 & H3 & H4 & H5) Hdb Hsz Hk Hv. cbn [posts_loop]. rewrite H1, bind_ok, H2, bind_ok.
  rewrite concat_str_ok by (done || (repeat constructor; done)). rewrite bind_ok.
  destruct (store_ok junk zs es limits unixtime shareable lookupCommand other_proc en Hm Hl Hset s _ _ Hdb Hsz Hk Hv)
    as (db & o & E & _). rewrite E, bind_ok, H3, bind_ok, concat_str_ok by (done || constructor). by rewrite bind_ok, Hpp.
Qed.

Definition zero_config : config := mkConfig (str "/srv") (str "/public") (str "reload") 0 1 (2 ^ 30).

Lemma per_page_zero_crashes_witness :
  posts_loop 170 block_size block_size no_limits 0 true site_commands no_proc (env_at 5) demo_fs zero_config
    demo_layout demo_post_tpl demo_page_tpl 1 [mkDirent (str "a.md") (str "/srv/posts/a.md") false] start_session 0 1 []
  = Fault DivByZero.
Proof.
  apply (per_page_zero_crashes 170 block_size block_size no_limits 0 true site_commands no_proc (env_at 5) demo_fs zero_config
    demo_layout demo_post_tpl demo_page_tpl 1 0 1 (mkDirent (str "a.md") (str "/srv/posts/a.md") false) [] (demo_post (str "a"))).
  all: try demo_hyp.
  split_and!; [vm_compute; reflexivity..|by_compute|by_compute].
Defined.

Section PageNumbers.
Context `{P : Pcre}.

(** What PCRE matches: "^/$" and the pattern of files do not match the path of a
    page of the index, and a group that is repeated has the range of its last
    repetition. *)
Variables index_re file_re page_re : regex.
Hypothesis index_compiles : pcre_compile (str "^/$") = Some index_re.
Hypothesis file_compiles :
  pcre_compile (str "(.*?)\.(gif|jpg|jpeg|png|htm|html|js|css|woff|woff2|ttf)") = Some file_re.
Hypothesis page_compiles : pcre_compile (str "/page/(\d)+") = Some page_re.
Hypothesis page_one_group : pcre_capturecount page_re = 1%nat.
Hypothesis index_match : forall s, s <> str "/" -> ~ (10 ∈ s) -> (pcre_exec index_re s).1 < 0.
Hypothesis file_match : forall s, ~ (46 ∈ s) -> (pcre_exec file_re s).1 < 0.
Hypothesis page_match : forall ds, ds <> [] -> Forall (fun c => isdigit c = true) ds ->
  exists rc ov, pcre_exec page_re (str "/page/" ++ ds) = (rc, ov) /\ 0 <= rc /\
    ov !! 2%nat = Some (5 + Z.of_nat (length ds)) /\ ov !! 3%nat = Some (6 + Z.of_nat (length ds)).

Lemma udec_last n : 0 <= n -> exists t, udec n = t ++ [48 + n mod 10] /\ udec (n mod 10) = [48 + n mod 10].
Proof.
  intros Hn. rewrite (udec_unfold n) by done. pose proof (Z.mod_pos_bound n 10).
  rewrite (udec_unfold (n mod 10)) by lia. destruct (Z.ltb_spec (n mod 10) 10); [|lia].
  destruct (Z.ltb_spec n 10) as [Hlt|]; [exists []; by rewrite Z.mod_small by lia|]. by eexists.
Qed.

(** The link to the page [n] of the index asks for the page of its last digit
    only: from page 10 on the pages cannot be reached. *)
Theorem page_link_last_digit (n : Z) :
  0 <= n < 2 ^ 31 ->
  find_route httpRoutes (str "/page/" ++ dec n) = Ok (Some (RoutePage, [dec (n mod 10)])) /\
  route_key RoutePage [dec (n mod 10)] = Some (page_key (n mod 10)).
Proof.
  intros Hn. split; [|done]. unfold dec. pose proof (Z.mod_pos_bound n 10).
  destruct (Z.ltb_spec n 0), (Z.ltb_spec (n mod 10) 0); try lia.
  pose proof (udec_digits n ltac:(lia)) as Hd. pose proof (udec_nonempty n ltac:(lia)) as Hne.
  assert (forall c, isdigit c = false -> ~ (c ∈ str "/page/") -> ~ (c ∈ str "/page/" ++ udec n)) as Hfree.
  { intros c Hc Hp [|Hin]%elem_of_app; [done|]. rewrite Forall_forall in Hd. specialize (Hd c Hin). congruence. }
  unfold httpRoutes, find_route, preg_match, preg_compile. rewrite index_compiles, bind_ok.
  destruct (pcre_exec index_re (str "/page/" ++ udec n)) as [rc ov] eqn:E1.
  pose proof (index_match (str "/page/" ++ udec n) ltac:(discriminate) (Hfree 10 eq_refl ltac:(by_compute))) as M1.
  rewrite E1 in M1. cbn [fst] in M1. destruct (Z.ltb_spec rc 0); [|lia]. rewrite !bind_ok, file_compiles, bind_ok.
  destruct (pcre_exec file_re (str "/page/" ++ udec n)) as [rc2 ov2] eqn:E2.
  pose proof (file_match (str "/page/" ++ udec n) (Hfree 46 eq_refl ltac:(by_compute))) as M2.
  rewrite E2 in M2. cbn [fst] in M2. destruct (Z.ltb_spec rc2 0); [|lia]. rewrite !bind_ok, page_compiles, bind_ok.
  destruct (page_match (udec n) ltac:(intros E0; rewrite E0 in Hne; cbn in Hne; lia) Hd) as (rc3 & ov3 & -> & Hrc & O2 & O3).
  destruct (Z.ltb_spec rc3 0); [lia|]. rewrite page_one_group. cbn [groups_loop]. unfold ov_at.
  change (3 + 2 * 0 - 1)%nat with 2%nat. change (3 + 2 * 0)%nat with 3%nat. rewrite O2, O3, !bind_ok.
  assert (length (udec n) <= 10)%nat by (apply udec_length_bound; lia).
  rewrite (copy_group_ok _ (5 + Z.of_nat (length (udec n)))); [|apply no_nul_app; split; [by_compute|by apply udec_no_nul]|
    rewrite length_app; change (length (str "/page/")) with 6%nat; lia|
    right; rewrite length_app; change (length (str "/page/")) with 6%nat; lia].
  rewrite bind_ok. change (results_slot 0) with true. cbv iota. rewrite !bind_ok.
  destruct (Z.ltb_spec (5 + Z.of_nat (length (udec n))) 0); [lia|].
  destruct (udec_last n ltac:(lia)) as (t & Et & ->). rewrite Et, length_app. cbn [length].
  replace (Z.to_nat (5 + Z.of_nat (length t + 1))) with (length (str "/page/" ++ t))
    by (rewrite length_app; change (length (str "/page/")) with 6%nat; lia).
  rewrite app_assoc, drop_app_length.
  replace (Z.to_nat (6 + _ - _)) with 1%nat by lia. done.
Qed.
End PageNumbers.

Lemma run_length_all f ds : Forall (fun c => f c = true) ds -> run_length f ds = length ds.
Proof. induction 1 as [|c ds Hc _ IH]; cbn; [done|]. by rewrite Hc, IH. Qed.

Lemma demo_no_file s i : ~ (46 ∈ s) -> search (fun t => bool_decide (is_Some (find_extension t))) i s = None.
Proof.
  revert i. induction s as [|c s IH]; intros i Hs; cbn [search]; [done|].
  assert (find_extension (c :: s) = None) as ->; [|cbn; apply IH; set_solver].
  cbn [find_extension]. destruct (Z.eqb_spec c 46); [set_solver|done].
Qed.

Lemma demo_page_match ds : ds <> [] -> Forall (fun c => isdigit c = true) ds ->
  exists rc ov, demo_exec RePage (str "/page/" ++ ds) = (rc, ov) /\ 0 <= rc /\
    ov !! 2%nat = Some (5 + Z.of_nat (length ds)) /\ ov !! 3%nat = Some (6 + Z.of_nat (length ds)).
Proof.
  intros Hne Hd. eexists _, _. unfold demo_exec.
  assert (search (fun t => starts (str "/page/") t && (0 <? run_length isdigit (drop 6 t))%nat) 0 (str "/page/" ++ ds) = Some 0%nat) as ->.
  { cbn [search str app]. change (drop 6 _) with ds at 1. rewrite run_length_all by done. by destruct ds. }
  change (drop (0 + 6) _) with ds. rewrite run_length_all by done. split; [reflexivity|]. cbn [length].
  assert (0 < length ds)%nat by (destruct ds; cbn; [done|lia]). cbn. split_and!; try done; f_equal; lia.
Qed.

Lemma page_link_last_digit_witness :
  find_route httpRoutes (str "/page/12") = Ok (Some (RoutePage, [str "2"])).
Proof.
  refine (proj1 (page_link_last_digit ReIndex ReFile RePage _ _ _ _ _ _ _ 12 _)).
  - vm_compute. reflexivity.
  - vm_compute. reflexivity.
  - vm_compute. reflexivity.
  - reflexivity.
  - intros s Hs _. cbn [pcre_exec demo_pcre demo_exec]. by rewrite decide_False by done.
  - intros s Hs. cbn [pcre_exec demo_pcre demo_exec]. by rewrite demo_no_file.
  - exact demo_page_match.
  - lia.
Defined.
