(* ===== verification/ConnectionTheorems.v ===== *)
(** * Theorems: connections

    A connection from its acceptance on: the answers of a run of the event loop,
    their delivery, and the connections that are refused. *)

From S2P Require Import Prelude CLib Util Sds Dict Object Reply Resp KeyDict Db Command Helper H3 HttpUrl Template Http Site Pages Serve Serving Connection Demo.
Local Open Scope Z_scope.

Section Connections.
Context {T : Type -> Type} `{KD : KeyDict T} `{KL : !KeyDictLaws T} `{P : Pcre} `{M : Markdown}.
Variable junk : Z.
Variable zs es : sds -> Z.
Variable limits : client_type -> obuf_limits.
Variable unixtime : Z.
Variable shareable : bool.
Variable lookupCommand : bytes -> option redisCommand.
Variable other_proc : proc -> session T -> reqst -> res (session T * reqst).
Variable cluster_redirect : redisCommand -> reqst -> option (reqst -> res reqst).
Variable discardTransaction : session T -> reqst -> res (session T * reqst).
Variable freeMemoryIfNeeded : session T -> session T * bool * bool.
Variable handleClientsBlockedOnLists : session T -> res (session T).
Variable en : env.
Variable g : guards.
Variable fs : bytes -> option bytes.
Variable listing : bytes -> list dirent.
Variable open_file : bytes -> option file.
Variable strict : bool.
Variable cfg : config.

(** The blocks of the allocator are smaller than the address space. *)
Hypothesis zmalloc_size : forall s, 0 <= zs s < 2 ^ 48.
Hypothesis embedded_size : forall s, 0 <= es s < 2 ^ 48.
(** The server is a master that has loaded its data. *)
Hypothesis master : e_masterhost en = false.
Hypothesis loaded : e_loading en = false.
(** The page command was not renamed, and no client waits in a blocking
    operation. *)
Hypothesis page_command : lookupCommand (str "getNoReplyCommand") = Some getNoReply_entry.
Hypothesis no_blocked_clients : forall s, handleClientsBlockedOnLists s = Ok s.
Hypothesis querybuf_limit : PROTO_IOBUF_LEN <= cf_client_max_querybuf_len cfg.

#[local] Abbreviation run := (conn_run junk zs es limits unixtime shareable lookupCommand other_proc cluster_redirect
  discardTransaction freeMemoryIfNeeded handleClientsBlockedOnLists en g fs listing open_file strict cfg).
#[local] Abbreviation trace' := (trace en open_file strict cfg).

(** C6: A connection that is accepted gives one answer to each read that brings data, in
    the order of the reads, whatever the order of the events of the event loop and the sizes
    of the partial writes, errors of the socket and the end of the connection included. The
    reads of the trace begin each with one complete request, of at most 16 KB with what
    follows it: a GET for a page, for a file or for nothing that exists, without a
    reload, or a request that is refused for its method or its target. The answer is the one to this
    request at the time of the read; the bytes after it are dropped, so that a second
    request in the same read is never answered. While the connection is open, what was sent and what
    waits in the output buffers are these answers, and a client with something to send waits for
    the loop, for the socket or for its end; the request buffer holds as many bytes as were
    ever received, since nothing empties it. When it was closed, a part of the answers was sent,
    and the client is in no list of the server. *)
Theorem connection_answers (a : acceptor) (reg : registry) (pending to_close : list Z) (id fd : Z) (unix : bool) (ip : option bytes)
    (s : session T) (now : Z) (evs : list event) (n : nat) (out : bytes) (received : Z) :
  guards_open en g -> 0 < fd -> id ∉ pending -> id ∉ to_close ->
  Z.of_nat (length (reg_clients reg)) < a_maxclients a -> refused_address a unix ip = false ->
  db_ok (s_db s) -> trace' (s_db s) now evs n out received -> Z.of_nat n <= 2 ^ 14 ->
  exists c reg' k, acceptCommonHandler junk a reg pending to_close id fd true unix ip = Ok (Some c, reg', []) /\
    run (mkConn s c reg' true false []) evs = Ok k /\
    if k_open k
    then k_sent k ++ stream (k_out k) = out /\ sds_len (cl_http_querybuf (k_client k)) = received /\
         (clientHasPendingReplies (k_out k) = true ->
          flag (k_out k) CLIENT_PENDING_WRITE = true \/ k_writable k = true \/ closing k = true)
    else prefix (k_sent k) out /\ unlinked (k_registry k) (k_out k).
Proof.
  intros Hg Hfd Hp Hc Hmax Href Hdb Htr Hn.
  destruct (accept_ok junk zs es en g a reg pending to_close id fd unix ip n s Hg Hfd Hp Hc Hmax Href Hn Hdb) as (c & reg' & E & Hk & Hst & Hlen).
  exists c, reg'. rewrite <- (Nat.add_0_r n) in Hk.
  destruct (run_ok junk zs es limits unixtime shareable lookupCommand other_proc cluster_redirect discardTransaction
    freeMemoryIfNeeded handleClientsBlockedOnLists en g fs listing open_file strict cfg zmalloc_size embedded_size
    master loaded page_command no_blocked_clients querybuf_limit (s_db s) now evs n out received Htr 0%nat
    (mkConn s c reg' true false []) ltac:(done) Hk) as (k & Er & _ & Hk').
  exists k. split; [exact E|]. split; [exact Er|]. unfold produced, k_out in Hk'. cbn in Hk'. rewrite Hst, Hlen, app_nil_l in Hk'.
  destruct Hk' as [(Hok & Hp' & Hl)|(Ho & Hu & Hp')].
  - rewrite (ck_open _ _ _ _ _ _ Hok). split; [exact Hp'|]. split; [exact Hl|]. apply Hok.
  - rewrite Ho. by split.
Qed.

(** C7: The answers arrive: after a trace (of the same reads) that leaves the connection
    open and not marked for closing, every byte is sent within as many turns of the event
    loop as there are bytes, if the socket takes at least one byte each time it
    is asked; more turns change nothing. *)
Theorem answers_delivered (a : acceptor) (reg : registry) (pending to_close : list Z) (id fd : Z) (unix : bool) (ip : option bytes)
    (s : session T) (now : Z) (evs : list event) (n : nat) (out : bytes) (received : Z)
    (turns : list (bool * list Z * bool * list Z)) :
  guards_open en g -> 0 < fd -> id ∉ pending -> id ∉ to_close ->
  Z.of_nat (length (reg_clients reg)) < a_maxclients a -> refused_address a unix ip = false ->
  db_ok (s_db s) -> trace' (s_db s) now evs n out received -> Z.of_nat n <= 2 ^ 14 ->
  Forall turn_ok turns -> (length out <= length turns)%nat ->
  exists c reg' k, acceptCommonHandler junk a reg pending to_close id fd true unix ip = Ok (Some c, reg', []) /\
    run (mkConn s c reg' true false []) evs = Ok k /\
    (k_open k = true -> closing k = false -> exists k', run k (concat (turn <$> turns)) = Ok k' /\
       k_open k' = true /\ k_sent k' = out /\ stream (k_out k') = []).
Proof.
  intros Hg Hfd Hp Hc Hmax Href Hdb Htr Hn Hws Hlen.
  destruct (accept_ok junk zs es en g a reg pending to_close id fd unix ip n s Hg Hfd Hp Hc Hmax Href Hn Hdb) as (c & reg' & E & Hk & Hst & _).
  exists c, reg'. rewrite <- (Nat.add_0_r n) in Hk.
  destruct (run_ok junk zs es limits unixtime shareable lookupCommand other_proc cluster_redirect discardTransaction
    freeMemoryIfNeeded handleClientsBlockedOnLists en g fs listing open_file strict cfg zmalloc_size embedded_size
    master loaded page_command no_blocked_clients querybuf_limit (s_db s) now evs n out received Htr 0%nat
    (mkConn s c reg' true false []) ltac:(done) Hk) as (k & Er & _ & Hk').
  exists k. split; [exact E|]. split; [exact Er|]. intros Ho Hcl.
  destruct Hk' as [(Hok & Hp' & _)|(Ho' & _)]; [|congruence].
  assert (produced k = out) as Hout by (rewrite Hp'; unfold produced, k_out; cbn; by rewrite Hst).
  edestruct (turns_send_all junk zs es limits unixtime shareable lookupCommand other_proc cluster_redirect discardTransaction
    freeMemoryIfNeeded handleClientsBlockedOnLists en g fs listing open_file strict cfg zmalloc_size embedded_size
    master loaded page_command no_blocked_clients querybuf_limit 0%nat turns k Hok Hcl Hws) as (k' & Et & Hok' & Hs' & Hst').
  { apply (f_equal length) in Hout. unfold produced in Hout. rewrite length_app in Hout. lia. }
  exists k'. split; [exact Et|]. split; [apply Hok'|]. by rewrite Hs'.
Qed.
End Connections.

(** An address that the protected mode does not accept. *)
Definition foreign (a : acceptor) (unix : bool) (ip : option bytes) : Prop :=
  a_protected_mode a = true /\ a_bindaddr_count a = 0 /\ a_requirepass a = false /\ unix = false /\
  exists i, ip = Some i /\ i <> str "127.0.0.1" /\ i <> str "::1".

Lemma filter_snoc_self (id : Z) (l : list Z) : id ∉ l -> filter (fun i => i <> id) (l ++ [id]) = l.
Proof.
  induction l as [|x l IH]; cbn [app]; intros Hid.
  - by rewrite filter_cons_False by (by intros []).
  - apply not_elem_of_cons in Hid as [Hx Hid]. by rewrite filter_cons_True, IH.
Qed.

Lemma refused_foreign a unix ip : (forall i, ip = Some i -> no_nul i) -> refused_address a unix ip = true <-> foreign a unix ip.
Proof.
  intros Hip. unfold refused_address, foreign. rewrite !andb_true_iff, !negb_true_iff, Z.eqb_eq.
  destruct ip as [i|]; [|split; [by intros [_ ?]|by intros (_ & _ & _ & _ & ? & ? & _)]].
  rewrite andb_true_iff, !negb_true_iff, !Z.eqb_neq, !strcmp_zero by (solve [by apply Hip | unfold no_nul; by_compute]). split.
  - intros ((((H1 & H2) & H3) & H4) & H5 & H6). split_and!; try done. by exists i.
  - intros (H1 & H2 & H3 & H4 & j & [= <-] & H5 & H6). by split_and!.
Qed.

(** A line of the protocol that reports an error. *)
Definition error_line (w : bytes) : Prop := exists t, w = [45] ++ t ++ [13; 10] /\ (13 ∉ t) /\ (10 ∉ t).

Lemma error_line_compute w : w = [45] ++ take (length w - 3) (drop 1 w) ++ [13; 10] ->
  bool_decide (13 ∈ take (length w - 3) (drop 1 w)) = false -> bool_decide (10 ∈ take (length w - 3) (drop 1 w)) = false -> error_line w.
Proof. intros Hw H1%bool_decide_eq_false H2%bool_decide_eq_false. by exists (take (length w - 3) (drop 1 w)). Qed.

(** C35: Which connections are accepted, and what becomes of the others. A connection is
    accepted exactly when its socket is registered, there are fewer clients than
    [maxclients], and it does not come from a foreign address in protected mode: with a socket of the
    network, an address that is not the loopback, no bind address and no password. It
    is then the last one in the list of clients, and nothing was written. Otherwise the list of
    clients is what it was before, and a line with an error was written, if the socket was registered: the one
    on the number of clients when there are too many, and the one on the protected mode when not. *)
Theorem accept_decides (junk : Z) (a : acceptor) (reg : registry) (pending to_close : list Z) (id fd : Z) (registered unix : bool) (ip : option bytes) :
  0 < fd -> id ∉ reg_clients reg -> (forall i, ip = Some i -> no_nul i) ->
  exists oc reg' w, acceptCommonHandler junk a reg pending to_close id fd registered unix ip = Ok (oc, reg', w) /\
    (is_Some oc <-> registered = true /\ Z.of_nat (length (reg_clients reg)) < a_maxclients a /\ ~ foreign a unix ip) /\
    (forall c, oc = Some c -> c_id (cl_out c) = id /\ reg_clients reg' = reg_clients reg ++ [id] /\ w = []) /\
    (oc = None -> reg_clients reg' = reg_clients reg /\
       if registered then error_line w /\
         prefix (if Z.of_nat (length (reg_clients reg)) <? a_maxclients a then str "-DENIED " else str "-ERR max number of clients") w
       else w = []).
Proof.
  intros Hfd Hid Hip. unfold acceptCommonHandler, createClient. destruct (Z.eqb_spec fd (-1)); [lia|]. cbn [negb andb].
  destruct registered; cbn [negb].
  2:{ eexists None, reg, []. split; [done|]. split_and!; try done. split; [by intros []|by intros []]. }
  destruct (sdsnewlen_ok junk [] 0) as (q & Eq & _); [done|done|].
  change (sdsempty junk) with (sdsnewlen junk (Some []) 0). rewrite Eq, !bind_ok. cbv zeta.
  set (c := mkClient _ _). set (reg1 := mkRegistry _ _).
  assert (exists o, freeClient reg1 (cl_out c) = Ok (mkRegistry (reg_clients reg) (reg_unblocked reg), o)) as [o Eo].
  { unfold freeClient, unlinkClient. change (c_fd (cl_out c)) with fd. rewrite (proj2 (Z.eqb_neq fd (-1))) by lia. cbn [negb].
    change (c_id (cl_out c)) with id. cbn [reg_clients reg_unblocked reg1].
    rewrite list_remove_ok by (apply elem_of_app; right; by apply list_elem_of_singleton). rewrite !bind_ok.
    rewrite filter_snoc_self by done. by eexists. }
  cbn [reg_clients reg1]. rewrite length_app. cbn [length].
  destruct (Z.gtb_spec (Z.of_nat (length (reg_clients reg) + 1)) (a_maxclients a)).
  { rewrite Eo, bind_ok. eexists None, _, _. split; [reflexivity|]. split; [split; [by intros []|lia]|]. split; [done|].
    intros _. split; [done|]. rewrite (proj2 (Z.ltb_ge _ _)) by lia. split; [by apply error_line_compute|by eexists]. }
  rewrite (proj2 (Z.ltb_lt _ _)) by lia. pose proof (refused_foreign a unix ip Hip) as Hrf.
  destruct (refused_address a unix ip).
  { rewrite Eo, bind_ok. eexists None, _, _. split; [reflexivity|]. split; [split; [by intros []|by intros (_ & _ & []); apply Hrf]|].
    split; [done|]. intros _. split; [done|]. split; [by apply error_line_compute|by eexists]. }
  eexists (Some _), _, _. split; [reflexivity|]. split; [split; [|by eauto]|split; [|done]].
  - intros _. split_and!; [done|lia|]. intros Hf. by apply Hrf in Hf.
  - intros c' [= <-]. by split_and!.
Qed.

(** ** Witnesses *)

(** A read with a request of a stored page and a second request after it, which is dropped;
    requests of a file, of a page that does not exist, and with another method; and a loop
    that sends ten bytes at a time. *)
Definition demo_pipelined : bytes := demo_request (str "/about") (str "a=1") ++ demo_request (str "/page/7") (str "a=1").
Definition demo_post_request : bytes := print_request (str "POST") (str "/about") (str "HTTP/1.1") [(str "Host", str "blog")].

Definition demo_events : list event :=
  [EvReadable 5 stack_url (ReadData demo_pipelined); EvBeforeSleep true true true [10];
   EvReadable 5 stack_url ReadAgain; EvWritable true true [10];
   EvReadable 5 stack_url (ReadData (demo_request (str "/main.css") (str "v=2")));
   EvReadable 5 stack_url (ReadData (demo_request (str "/page/7") (str "a=1")));
   EvReadable 5 stack_url (ReadData demo_post_request)].

Definition demo_acceptor : acceptor := mkAcceptor 10000 true 0 false.
Definition demo_registry : registry := mkRegistry [4; 7] [].

Definition hello_text : bytes := str "<p>hello, world of pages</p>".

Definition demo_answers : bytes :=
  http_response (str "html") hello_text 200 ++ http_response (str "css") (str "body { color: black }") 200 ++
  http_response (str "html") [] 404 ++ http_response [] [] 400.

Lemma request_for_more strict u path q data more : request_for strict u path q data ->
  Z.of_nat (length (data ++ more)) <= PROTO_IOBUF_LEN -> request_for strict u path q (data ++ more).
Proof.
  intros (method & version & fields & rest & query & fragment & -> & H) Hl.
  exists method, version, fields, (rest ++ more), query, fragment. rewrite <- app_assoc in Hl |- *. tauto.
Qed.

Lemma demo_trace s : holds (env_at 5) (s_db s) (str "blogd::post::about") hello_text ->
  (forall j, j <> str "blogd::post::about" -> live 5 (s_db s) j = None) ->
  trace (env_at 5) demo_open false demo_config (s_db s) 5 demo_events 8 demo_answers 197.
Proof.
  intros Hh Hl. unfold demo_answers. rewrite <- (app_nil_r (http_response [] [] 400)).
  refine (trace_request _ _ _ _ _ 5 5 stack_url demo_pipelined _ 2 _ 6 _ 118 _ _ _); [reflexivity|..].
  { eapply (asks_page _ _ _ _ _ _ _ (str "/about") (str "a=1") (str "blogd::post::about") RouteContent [str "about"]); try demo_hyp.
    - apply request_for_more; demo_hyp.
    - left. split_and!; [exact Hh|demo_hyp|reflexivity]. }
  apply trace_sleep, trace_no_data; [discriminate|]. apply trace_writable.
  refine (trace_request _ _ _ _ _ 5 5 stack_url (demo_request (str "/main.css") (str "v=2")) _ 2 _ 4 _ 76 _ _ _); [reflexivity|..].
  { apply (asks_file _ _ _ _ _ _ _ (str "/main.css") (str "v=2") (str "/main") (str "css") []); demo_hyp. }
  refine (trace_request _ _ _ _ _ 5 5 stack_url (demo_request (str "/page/7") (str "a=1")) _ 2 _ 2 _ 36 _ _ _); [reflexivity|..].
  { eapply (asks_page _ _ _ _ _ _ _ (str "/page/7") (str "a=1") (str "blogd::page7") RoutePage [str "7"]); try demo_hyp.
    right. split_and!; [apply Hl; discriminate|right|reflexivity]. split; [apply Hl; discriminate|reflexivity]. }
  refine (trace_request _ _ _ _ _ 5 5 stack_url demo_post_request _ 2 _ 0 _ 0 _ _ _); [reflexivity| |constructor].
  apply asks_refused. exists (str "POST"), (str "/about"), (str "HTTP/1.1"), [(str "Host", str "blog")], [].
  split_and!; [reflexivity|vm_compute; reflexivity|apply Nat.leb_le; reflexivity|vm_compute; discriminate|intros [H|H]; discriminate H].
Qed.

Lemma demo_guards_open : guards_open (env_at 5) (plain_guards false).
Proof. intros o H1 H2. unfold open_guards. by rewrite H1, H2. Qed.

#[local] Abbreviation demo_run := (conn_run 170 block_size block_size no_limits 0 true site_commands no_proc no_redirect no_discard no_free
  no_blocked (env_at 5) (plain_guards false) demo_fs demo_listing demo_open false demo_config).

Lemma connection_answers_witness :
  exists s c reg k, demo_store start_session (str "blogd::post::about") hello_text = Ok s /\
    acceptCommonHandler 170 demo_acceptor demo_registry [] [] 1 9 true false (Some (str "127.0.0.1")) = Ok (Some c, reg, []) /\
    demo_run (mkConn s c reg true false []) demo_events = Ok k /\
    (k_open k = true -> k_sent k ++ stream (k_out k) = demo_answers).
Proof.
  destruct (demo_stored (str "blogd::post::about") hello_text) as (s & E & Hdb & Hh & Hl); [reflexivity..|].
  destruct (connection_answers 170 block_size block_size no_limits 0 true site_commands no_proc no_redirect no_discard no_free
    no_blocked (env_at 5) (plain_guards false) demo_fs demo_listing demo_open false demo_config
    block_size_ok block_size_ok eq_refl eq_refl eq_refl (fun _ => eq_refl) ltac:(vm_compute; discriminate)
    demo_acceptor demo_registry [] [] 1 9 false (Some (str "127.0.0.1")) s 5 demo_events 8 demo_answers 197 demo_guards_open
    eq_refl (not_elem_of_nil 1) (not_elem_of_nil 1) eq_refl eq_refl Hdb (demo_trace s Hh Hl)
    ltac:(vm_compute; discriminate)) as (c & reg & k & Ea & Er & H).
  exists s, c, reg, k. split_and!; [exact E|exact Ea|exact Er|]. intros Ho. rewrite Ho in H. apply H.
Defined.

Lemma answers_delivered_witness :
  exists s c reg k, demo_store start_session (str "blogd::post::about") hello_text = Ok s /\
    acceptCommonHandler 170 demo_acceptor demo_registry [] [] 1 9 true false (Some (str "127.0.0.1")) = Ok (Some c, reg, []) /\
    demo_run (mkConn s c reg true false []) demo_events = Ok k /\
    (k_open k = true -> closing k = false -> exists k',
       demo_run k (concat (turn <$> replicate 2000 (true, [10], true, [10]))) = Ok k' /\ k_sent k' = demo_answers).
Proof.
  destruct (demo_stored (str "blogd::post::about") hello_text) as (s & E & Hdb & Hh & Hl); [reflexivity..|].
  destruct (answers_delivered 170 block_size block_size no_limits 0 true site_commands no_proc no_redirect no_discard no_free
    no_blocked (env_at 5) (plain_guards false) demo_fs demo_listing demo_open false demo_config
    block_size_ok block_size_ok eq_refl eq_refl eq_refl (fun _ => eq_refl) ltac:(vm_compute; discriminate)
    demo_acceptor demo_registry [] [] 1 9 false (Some (str "127.0.0.1")) s 5 demo_events 8 demo_answers 197
    (replicate 2000 (true, [10], true, [10])) demo_guards_open
    eq_refl (not_elem_of_nil 1) (not_elem_of_nil 1) eq_refl eq_refl Hdb (demo_trace s Hh Hl)
    ltac:(vm_compute; discriminate) ltac:(apply Forall_replicate; by split) ltac:(apply Nat.leb_le; vm_compute; reflexivity))
    as (c & reg & k & Ea & Er & H).
  exists s, c, reg, k. split_and!; [exact E|exact Ea|exact Er|]. intros Ho Hcl.
  destruct (H Ho Hcl) as (k' & Et & _ & Hs & _). exists k'. split; [exact Et|exact Hs].
Defined.

Lemma accept_decides_witness :
  exists reg' w, acceptCommonHandler 170 demo_acceptor (mkRegistry [4; 7] []) [] [] 1 9 true false (Some (str "10.0.0.1")) = Ok (None, reg', w) /\
    reg_clients reg' = [4; 7] /\ error_line w /\ prefix (str "-DENIED ") w.
Proof.
  destruct (accept_decides 170 demo_acceptor (mkRegistry [4; 7] []) [] [] 1 9 true false (Some (str "10.0.0.1")))
    as (oc & reg' & w & E & H & _ & Hn); [reflexivity|by_compute|intros i [= <-]; unfold no_nul; by_compute|].
  destruct oc as [c|].
  - destruct (proj1 H (ex_intro _ c eq_refl)) as (_ & _ & Hf). destruct Hf. split_and!; [reflexivity..|].
    exists (str "10.0.0.1"). split_and!; [reflexivity|discriminate|discriminate].
  - destruct (Hn eq_refl) as (Hr & Hw & Hp). exists reg', w. split_and!; [exact E|exact Hr|exact Hw|exact Hp].
Defined.
