(* ===== verification/KeyspaceTheorems.v ===== *)
(** * Theorems on the commands

    Any sequence of commands on strings, keys and sets, by any clients, does to the key
    space and replies what the specification of Keyspace.v says. *)

From S2P Require Import Prelude CLib Util Sds Dict IntSet Object SetType Reply Resp KeyDict Db Command Strings Keys Sets Multi Keyspace.
From S2P Require Import StringProofs KeyProofs SetProofs CommandProofs Demo.
Local Open Scope Z_scope.

Section Refinement.
Context {T : Type -> Type} `{KD : KeyDict T} `{KL : !KeyDictLaws T} `{SC : SetConfig}.
Variable junk : Z.
Variable sdsZmallocSize : sds -> Z.
Variable embeddedSize : sds -> Z.
Variable client_obuf_limits : client_type -> obuf_limits.
Variable unixtime : Z.
Variable shareable : bool.
Variable other_proc : proc -> session T -> reqst -> res (session T * reqst).
Variable cluster_redirect : redisCommand -> reqst -> option (reqst -> res reqst).
Variable discardTransaction : session T -> reqst -> res (session T * reqst).
Variable freeMemoryIfNeeded : session T -> session T * bool * bool.
Variable handleClientsBlockedOnLists : session T -> res (session T).
Hypothesis zmalloc_size : forall s, 0 <= sdsZmallocSize s < 2 ^ 48.
Hypothesis embedded_size : forall s, 0 <= embeddedSize s < 2 ^ 48.
Hypothesis no_blocked_clients : forall s, handleClientsBlockedOnLists s = Ok s.

(** [processCommand] with the table and the handlers of the commands. *)
Definition process_keyspace (g : guards) (en : env) : session T -> reqst -> res (session T * option (reqst * bool)) :=
  processCommand junk sdsZmallocSize embeddedSize client_obuf_limits unixtime shareable lookup_command
    (handlers junk sdsZmallocSize embeddedSize client_obuf_limits unixtime shareable other_proc en)
    cluster_redirect discardTransaction freeMemoryIfNeeded handleClientsBlockedOnLists g en.

(** A client that can execute a command and take its reply. *)
Definition able (g : guards) (en : env) (cmd : kcmd) (c : reqst) : Prop :=
  ready sdsZmallocSize embeddedSize (nodes cmd) (q_out c) /\ takes_replies (q_out c) = true /\
  open_guards g en (q_out c) = true /\ writes_allowed g = true.

(** The commands are executed at their times, each by a client that sends it,
    and are answered as the specification says. *)
Fixpoint answered (en : env) (s : session T) (m : keyspace) (cmds : list (Z * kcmd)) : Prop :=
  match cmds with
  | [] => True
  | (t, cmd) :: rest =>
      let '(m', reply) := kspec t (alive t m) cmd in
      forall g c, able g (at_time en t) cmd c -> Forall2 is_arg (request cmd) (q_argv c) ->
      exists s' c', process_keyspace g (at_time en t) s c = Ok (s', Some (c', true)) /\
        stream (q_out c') = stream (q_out c) ++ reply /\ db_ok (s_db s') /\
        forall s'', recounted_db (s_db s') (s_db s'') -> answered en s'' m' rest
  end.

Definition sum_keys (cmds : list (Z * kcmd)) : Z := foldr (fun tc n => new_keys tc.2 + n) 0 cmds.

Lemma sum_keys_nonneg cmds : 0 <= sum_keys cmds.
Proof.
  induction cmds as [|[t c] rest IH]; [done|]. change (0 <= new_keys c + sum_keys rest). unfold new_keys at 1. lia.
Qed.

(** The times do not go back. *)
Fixpoint ordered (now : Z) (cmds : list (Z * kcmd)) : Prop :=
  match cmds with [] => True | (t, _) :: rest => now <= t /\ ordered t rest end.

(** C9: The commands on strings, keys and sets implement a map from keys to strings
    and sets with expire times. Take a database that shows a key space, and any list of
    commands at times that do not go back. Each command is executed by
    [processCommand] for any client that may write and take the reply, with any
    reference counts on the stored objects, and neither crashes nor runs out of
    fuel: it replies what the specification replies on the keys that are alive at
    its time, and leaves the key space that the specification leaves. *)
Theorem keyspace_commands_refine en now n (s : session T) m cmds :
  e_masterhost en = false -> e_loading en = false -> 0 <= now -> shows n now (s_db s) m -> times_ok m ->
  ordered now cmds -> sum_keys cmds <= n -> Forall (fun tc => in_range tc.1 tc.2) cmds ->
  answered en s m cmds.
Proof.
  intros Hm Hl. revert now n s m. induction cmds as [|[t cmd] rest IH]; intros now n s m Hnow Hs Htm Hord Hn HF; [done|].
  cbn [answered]. destruct Hord as [Ht Hord]. apply Forall_cons in HF as [Hr HF]. cbn [fst snd] in *.
  cbn [sum_keys foldr snd] in Hn. fold (sum_keys rest) in Hn.
  pose proof (sum_keys_nonneg rest).
  destruct (kspec t (alive t m) cmd) as [m' reply] eqn:Espec. intros g c (Hrd & Htk & Hg & Hw) Hargs.
  pose proof (shows_later n now t (s_db s) m Ht Hs) as Hs1. pose proof (alive_times t m Htm) as Htm1.
  destruct (request_entry t cmd Hr) as (entry & Hent & Ha & Hp & Hnul & Hquit & Har).
  pose proof (Forall2_length _ _ _ Hargs) as Hlen.
  assert (exists a0, q_argv c !! 0%nat = Some a0 /\ is_arg (name cmd) a0) as (a0 & Ha0 & (Hn0 & Hv0 & _)).
  { unfold name. destruct cmd; try (destruct relative); try (destruct unit); cbn [request hd] in *; apply Forall2_cons_inv_l in Hargs as (o & os & Ho & _ & E); exists o; by rewrite E. }
  pose proof (command_does junk sdsZmallocSize embeddedSize client_obuf_limits unixtime shareable other_proc zmalloc_size embedded_size
    (at_time en t) n cmd entry s (with_asking c false) (alive t m) Hm Hl ltac:(cbn; lia) Hs1 Htm1 ltac:(lia) Hr Hargs Hrd Hent) as HC.
  cbn [e_now at_time] in HC. rewrite Espec in HC. destruct HC as (s' & c' & E & Hs' & Hout).
  exists s', c'. split; [|split; [|split; [exact (sh_ok _ _ _ _ Hs')|]]].
  - unfold process_keyspace. rewrite (processCommand_runs junk sdsZmallocSize embeddedSize client_obuf_limits unixtime shareable
      (at_time en t) Hm Hl lookup_command _ cluster_redirect discardTransaction freeMemoryIfNeeded handleClientsBlockedOnLists
      g s c a0 (name cmd) entry); try done; [|by rewrite Hw|unfold q_argc; by rewrite <- Hlen].
    rewrite E, bind_ok, no_blocked_clients. done.
  - destruct Hout as (_ & Hst & _). change (q_out (with_asking c false)) with (q_out c) in Hst. by rewrite Htk in Hst.
  - intros s'' Hrec. apply (IH t (n - new_keys cmd)); try done; [lia|by eapply recounted_shows| |lia].
    pose proof (kspec_times t (alive t m) cmd Htm1 Hr) as Htm2. by rewrite Espec in Htm2.
Qed.
End Refinement.

(** ** Numbers that wrap, and a key that comes back *)

Section Flaws.
Context {T : Type -> Type} `{KD : KeyDict T} `{KL : !KeyDictLaws T} `{SC : SetConfig}.
Variable junk : Z.
Variable sdsZmallocSize : sds -> Z.
Variable embeddedSize : sds -> Z.
Variable client_obuf_limits : client_type -> obuf_limits.
Variable unixtime : Z.
Variable shareable : bool.
Hypothesis zmalloc_size : forall s, 0 <= sdsZmallocSize s < 2 ^ 48.
Hypothesis embedded_size : forall s, 0 <= embeddedSize s < 2 ^ 48.
Variable en : env.
Hypothesis master : e_masterhost en = false.
Hypothesis loaded : e_loading en = false.

(** DECRBY with the smallest 64-bit number subtracts 2^63 from the value
    instead of adding it: the negation of the number wraps. A value that is not
    negative is changed, though the true result is out of range. *)
Theorem decrby_min_subtracts n (s : session T) c cmd key num k v w old m :
  shows n (e_now en) (s_db s) m -> 1 <= n -> q_argv c = [cmd; key; num] ->
  is_arg k key -> is_arg (dec LLONG_MIN) num -> ready sdsZmallocSize embeddedSize 3 (q_out c) ->
  m !! k = Some (VString v, w) -> string2ll v = Some old -> 0 <= old ->
  does sdsZmallocSize embeddedSize en (n - 1) 3 (q_out c) (<[k := (VString (dec (old - 2 ^ 63)), w)]> m) (int_reply (old - 2 ^ 63))
    (decrbyCommand junk sdsZmallocSize embeddedSize client_obuf_limits unixtime en s c).
Proof.
  intros Hs Hn Ha Hk Hnum Hr Hm Hv Hold. unfold decrbyCommand, arg. rewrite Ha. cbn [lookup list_lookup]. rewrite bind_ok.
  pose proof (longlong_reads_arg junk sdsZmallocSize embeddedSize client_obuf_limits unixtime zmalloc_size embedded_size
    c num (dec LLONG_MIN) Hnum Hr) as H1.
  assert (string2ll (dec LLONG_MIN) = Some LLONG_MIN) as E
    by (apply string2ll_iff; split; [reflexivity|unfold LLONG_MIN, LLONG_MAX; lia]). rewrite E in H1. unfold reads in H1. rewrite H1, bind_ok.
  pose proof (incrDecr_does junk sdsZmallocSize embeddedSize client_obuf_limits unixtime zmalloc_size embedded_size en master loaded
    n s c key k m LLONG_MIN Hs Hn) as HI. rewrite Ha in HI. specialize (HI eq_refl Hk Hr ltac:(unfold LLONG_MIN, LLONG_MAX; lia)).
  unfold incr_spec in HI. rewrite Hm, Hv in HI. apply string2ll_iff in Hv as [_ Hb].
  change (s64 (- LLONG_MIN)) with LLONG_MIN. unfold LLONG_MIN, LLONG_MAX in *.
  rewrite bool_decide_eq_true_2 in HI by lia. exact HI.
Qed.

(** The limit of 512 MB does not stop SETRANGE at an offset that makes the
    length reach 2^63: the length wraps to a negative number in the test, and a
    string of that length is asked for. *)
Theorem setrange_limit_wraps n (s : session T) c cmd key off val k a v o m :
  shows n (e_now en) (s_db s) m -> 0 <= n -> q_argv c = [cmd; key; off; val] ->
  is_arg k key -> is_arg a off -> is_arg v val -> ready sdsZmallocSize embeddedSize 3 (q_out c) ->
  m !! k = None -> string2ll a = Some o -> v <> [] -> 2 ^ 63 <= o + Z.of_nat (length v) ->
  exists s' c' p, setrangeCommand junk sdsZmallocSize embeddedSize client_obuf_limits unixtime en s c = Ok (s', c') /\
    o_ptr <$> vals (s_db s') !! k = Some (PtrSds p) /\ sds_len p = o + Z.of_nat (length v) /\ STRING_MAX < sds_len p.
Proof.
  intros Hs Hn Ha Hk Hoff Hval Hr Hm Ho Hne Hbig. assert (ready sdsZmallocSize embeddedSize 1 (q_out c)) as Hr1 by (by apply (ready_le _ _ 3)).
  unfold setrangeCommand, arg. rewrite Ha. cbn [lookup list_lookup]. rewrite bind_ok.
  destruct (is_arg_sds v val Hval) as (q & Hq & Hqok & Hqv & Hql). rewrite (obj_sds_ok val q) by done. rewrite !bind_ok.
  pose proof (long_reads junk sdsZmallocSize embeddedSize client_obuf_limits unixtime zmalloc_size embedded_size c off a Hoff Hr) as H1.
  rewrite Ho in H1. unfold reads in H1. rewrite H1, bind_ok. apply string2ll_iff in Ho as [_ Hob]. unfold LLONG_MIN, LLONG_MAX in Hob.
  pose proof Hval as (_ & _ & Hvl). unfold STRING_MAX in *.
  destruct (Z.ltb_spec o 0); [lia|]. rewrite Ha. cbn [lookup list_lookup]. rewrite bind_ok, (is_arg_key k) by done. rewrite bind_ok.
  destruct (write_lookup en master loaded n (s_db s) m k Hs) as (db & r & -> & Hs1 & Hf & Hv & Hfind). rewrite bind_ok.
  destruct Hfind as [_|? ? ? Hm'|? ? Hm']; [|congruence..].
  rewrite Hql. assert (0 < length v)%nat by (destruct v; [done|cbn; lia]).
  destruct (Z.eqb_spec (Z.of_nat (length v)) 0); [lia|]. rewrite u64_small by lia.
  set (len := o + Z.of_nat (length v)) in *.
  assert (s64 len = len - 2 ^ 64) as Hwrap.
  { unfold s64. replace (len + 2 ^ 63) with (len - 2 ^ 63 + 1 * 2 ^ 64) by lia. rewrite Z.mod_add by done. rewrite Z.mod_small; lia. }
  rewrite length_ok by (unfold STRING_MAX; lia). rewrite bind_ok. cbn [negb].
  destruct (sdsnewlen_none junk len) as (p & -> & Hpok & Hpv); [lia|]. rewrite bind_ok. cbv zeta.
  pose proof (sdsval_length p Hpok) as Hpl. rewrite Hpv, length_replicate in Hpl.
  destruct (dbAdd_ok en db k (createObject OBJ_STRING p) (sh_ok _ _ _ _ Hs1) (shows_size en n db m Hs1 Hn) Hv) as (db1 & -> & Hdb1 & V1 & _).
  rewrite bind_ok. unfold setrange_write. rewrite Hql. destruct (Z.gtb_spec (Z.of_nat (length v)) 0); [|lia]. cbn [createObject obj_sds o_ptr].
  rewrite bind_ok. rewrite u64_small by lia. unfold sdsgrowzero, sdslen. fold len. destruct (Z.leb_spec len (sds_len p)); [|lia]. rewrite bind_ok.
  pose proof (sds_ok_mem q Hqok). pose proof (sds_ok_len q Hqok). unfold sdslen in Hql. rewrite mread_ok by lia. rewrite bind_ok, drop_0.
  destruct (sds_overwrite p (Z.to_nat o) (take (Z.to_nat (sds_len q)) (sds_mem q)) Hpok) as (mem & E & _); [rewrite length_take; lia|].
  rewrite <- Hql, E, bind_ok. cbv zeta.
  destruct (write_value_ok db1 k (with_ptr (createObject OBJ_STRING p) (PtrSds (set_mem p mem))) Hdb1) as (db2 & E2 & _ & V2 & _);
    [rewrite V1, lookup_insert_eq; eauto|].
  rewrite E2, bind_ok. change (sds_len (set_mem p mem)) with (sds_len p).
  assert (sds_len p = len) as -> by lia.
  assert (exists out, add_longlong junk sdsZmallocSize embeddedSize client_obuf_limits unixtime c len = Ok (with_out c out)) as (out & ->).
  { destruct (longlong_replies junk sdsZmallocSize embeddedSize client_obuf_limits unixtime zmalloc_size embedded_size c (s64 len) Hr1)
      as (out & E3 & _); [unfold LLONG_MIN, LLONG_MAX; lia|]. exists out. rewrite <- E3. unfold add_longlong. by rewrite (s64_small (s64 len)) by lia. }
  rewrite bind_ok. eexists _, _, (set_mem p mem). split; [reflexivity|]. split; [|cbn; lia].
  unfold vals in V2 |- *. cbn. rewrite V2, lookup_insert_eq. done.
Qed.

(** A time is stored whatever its sign. *)
Lemma setExpire_raw (db : redisDb T) k w v : db_ok db -> kd_size (db_expires db) <= KD_MAX -> vals db !! k = Some v ->
  exists db', setExpire db k w = Ok db' /\ kd_ok (db_dict db') /\ kd_ok (db_expires db') /\ vals db' = vals db /\ exps db' = <[k := w]> (exps db).
Proof.
  intros [H1 H2 H3 H4] Hsz Hv. unfold setExpire, dict_find. destruct (kd_find_ok _ (db_dict db) k H1) as (d & -> & Hd & Hm). rewrite !bind_ok.
  fold (vals db) in *. rewrite Hv. cbn [db_dict db_expires db_events].
  destruct (kd_replace_ok _ (db_expires db) k w H2 Hsz) as (e & -> & He & Hem). rewrite bind_ok. eexists. split; [reflexivity|].
  unfold vals, exps in *. cbn. done.
Qed.

(** A negative time is taken for none. *)
Lemma negative_time_read en' (db : redisDb T) k w v : kd_ok (db_dict db) -> kd_ok (db_expires db) ->
  exps db !! k = Some w -> w < 0 -> vals db !! k = Some v -> exists db', lookupKeyRead en' db k = Ok (db', Some v).
Proof.
  intros H1 H2 Hw Hneg Hv. unfold lookupKeyRead, lookupKeyReadWithFlags, expireIfNeeded, getExpire.
  destruct (Z.eqb_spec (kd_size (db_expires db)) 0) as [E|_].
  { rewrite (kd_size_ok _ _ H2) in E. unfold exps in Hw. assert (kd_map (db_expires db) = ∅) as E0 by (apply map_size_empty_iff; lia).
    by rewrite E0, lookup_empty in Hw. }
  unfold expires_find. destruct (kd_find_ok _ (db_expires db) k H2) as (e & -> & _ & _). rewrite !bind_ok. fold (exps db). rewrite Hw.
  unfold dict_find. cbn [db_dict db_expires db_events]. destruct (kd_find_ok _ (db_dict db) k H1) as (d & -> & Hd & Hm). rewrite !bind_ok.
  fold (vals db) in *. rewrite Hv, !bind_ok. destruct (Z.ltb_spec w 0); [|lia]. rewrite bind_ok. cbn [andb].
  unfold lookupKey, dict_find. cbn [db_dict db_expires db_events]. destruct (kd_find_ok _ d k Hd) as (d2 & -> & _). rewrite bind_ok, Hm.
  fold (vals db). rewrite Hv. eauto.
Qed.

(** SETEX with a time whose end is past the 64-bit numbers stores a negative
    expire time, and every later read takes the key for one that does not
    expire. *)
Theorem setex_end_wraps n (s : session T) c cmd key t val k a v sec m :
  shows n (e_now en) (s_db s) m -> 1 <= n -> q_argv c = [cmd; key; t; val] ->
  is_arg k key -> is_arg a t -> is_arg v val -> ready sdsZmallocSize embeddedSize 3 (q_out c) ->
  string2ll a = Some sec -> 0 < sec -> sec * 1000 <= LLONG_MAX -> e_now en <= LLONG_MAX -> LLONG_MAX < e_now en + sec * 1000 ->
  exists s' c', setexCommand junk sdsZmallocSize embeddedSize client_obuf_limits unixtime shareable en s c = Ok (s', c') /\
    exps (s_db s') !! k = Some (e_now en + sec * 1000 - 2 ^ 64) /\
    forall en', exists db' o, lookupKeyRead en' (s_db s') k = Ok (db', Some o) /\ objval o = Some v.
Proof.
  intros Hs Hn Ha Hk Ht Hval Hr Hsec Hpos Hmul Hnow Hend. assert (ready sdsZmallocSize embeddedSize 1 (q_out c)) as Hr1 by (by apply (ready_le _ _ 3)).
  unfold setexCommand, arg. rewrite Ha. cbn [lookup list_lookup]. rewrite bind_ok.
  destruct (encode_ok junk shareable v val Hval) as (o & -> & Ho & Hov). rewrite bind_ok. cbv zeta.
  cbn [set_arg q_argv]. rewrite Ha. cbn [insert list_insert lookup list_lookup]. rewrite !bind_ok. pose proof Hval as (_ & _ & Hl).
  set (c1 := set_arg c 3 o). unfold setGenericCommand, set_expire_time.
  pose proof (longlong_reads_arg junk sdsZmallocSize embeddedSize client_obuf_limits unixtime zmalloc_size embedded_size c1 t a Ht Hr) as H1.
  rewrite Hsec in H1. unfold reads in H1. rewrite H1, bind_ok. destruct (Z.leb_spec sec 0); [lia|]. unfold LLONG_MAX in *.
  rewrite s64_small by lia. rewrite bind_ok, (is_arg_key k) by done. rewrite bind_ok.
  unfold set_refused. change (Z.testbit 0 OBJ_SET_NX) with false. change (Z.testbit 0 OBJ_SET_XX) with false. cbv iota. rewrite !bind_ok.
  pose proof (sh_ok _ _ _ _ Hs) as Hdb. pose proof (sh_room _ _ _ _ Hs) as Hroom. pose proof room_max.
  destruct (setKey_ok en (s_db s) k o Hdb loaded master (shows_size en n _ m Hs ltac:(lia))) as (db1 & -> & Hdb1 & He1 & [_ Hs1] & Hlive).
  rewrite bind_ok.
  assert (vals db1 !! k = Some (incrRefCount o)) as Hv1.
  { specialize (Hlive k). rewrite decide_True in Hlive by done. unfold live, expired in Hlive. by rewrite He1 in Hlive. }
  assert (kd_size (db_expires db1) <= KD_MAX) as Hsz.
  { rewrite (kd_size_ok _ _ (dbk_expires _ Hdb1)). fold (exps db1).
    assert (base.size (exps (s_db s)) <= base.size (vals (s_db s)))%nat; [|lia]. rewrite <- !size_dom. apply subseteq_size.
    intros j. rewrite !elem_of_dom. apply (dbk_dom _ Hdb). }
  assert (s64 (e_now en + sec * 1000) = e_now en + sec * 1000 - 2 ^ 64) as ->.
  { unfold s64. replace (e_now en + sec * 1000 + 2 ^ 63) with (e_now en + sec * 1000 - 2 ^ 63 + 1 * 2 ^ 64) by lia.
    rewrite Z.mod_add by done. rewrite Z.mod_small; lia. }
  set (w := e_now en + sec * 1000 - 2 ^ 64) in *.
  destruct (setExpire_raw db1 k w _ Hdb1 Hsz Hv1) as (db2 & -> & K1 & K2 & V2 & X2). rewrite bind_ok. cbv zeta. cbn [default from_option].
  destruct (shared_replies junk sdsZmallocSize embeddedSize client_obuf_limits unixtime zmalloc_size embedded_size c1 ok_reply Hr1)
    as (out & E & _); [done|]. unfold ok_reply in E. rewrite E, bind_ok. eexists _, _. split; [reflexivity|]. cbn [s_db].
  unfold exps, vals in *. cbn [emit db_expires db_dict]. rewrite X2. split; [apply lookup_insert_eq|]. intros en'.
  edestruct (negative_time_read en' (emit (emit db2 (EvNotify (str "set") k)) (EvNotify (str "expire") k)) k w (incrRefCount o))
    as (db' & ->); [done|done|unfold exps; cbn; rewrite X2; apply lookup_insert_eq|unfold w; lia|unfold vals; cbn; by rewrite V2|].
  exists db', (incrRefCount o). split; [done|]. by destruct (incrRefCount_ok o Ho) as [_ ->].
Qed.

(** PERSIST revives a key that has expired and was not deleted yet: it does not
    look at the time, so that a value that no read sees any more is live again,
    for ever, and the client is told that its expire time was removed. *)
Theorem persist_revives (s : session T) c cmd key k o :
  db_ok (s_db s) -> q_argv c = [cmd; key] -> is_arg k key -> ready sdsZmallocSize embeddedSize 1 (q_out c) ->
  vals (s_db s) !! k = Some o -> expired (e_now en) (s_db s) k = true ->
  live (e_now en) (s_db s) k = None /\
  exists s' c', persistCommand junk sdsZmallocSize embeddedSize client_obuf_limits unixtime s c = Ok (s', c') /\
    replied sdsZmallocSize embeddedSize 1 (q_out c) (int_reply 1) (q_out c') /\ db_ok (s_db s') /\
    forall t, live t (s_db s') k = Some o.
Proof.
  intros Hdb Ha Hk Hr Hv He. split; [unfold live; by rewrite He|].
  unfold persistCommand, arg. rewrite Ha. cbn [lookup list_lookup]. rewrite bind_ok, (is_arg_key k) by done. rewrite bind_ok.
  destruct (dict_find_ok (s_db s) k Hdb) as (db1 & -> & (Hdb1 & V1 & X1) & _). rewrite bind_ok, Hv.
  destruct (removeExpire_ok db1 k Hdb1) as (db2 & -> & Hdb2 & V2 & X2); [rewrite V1, Hv; eauto|]. rewrite bind_ok, X1.
  unfold expired in He. destruct (exps (s_db s) !! k) as [w|] eqn:Ew; [|done]. rewrite bool_decide_eq_true_2 by eauto.
  destruct (shared_replies junk sdsZmallocSize embeddedSize client_obuf_limits unixtime zmalloc_size embedded_size c (int_reply 1) Hr)
    as (out & E & Hout); [done|]. change (int_reply 1) with (str ":1" ++ crlf) in E. rewrite E, bind_ok.
  eexists _, _. split; [reflexivity|]. split; [exact Hout|]. split; [exact Hdb2|]. intros t. cbn [s_db].
  unfold live, expired. by rewrite X2, lookup_delete_eq, V2, V1.
Qed.
End Flaws.

(** ** A counter that expires *)

(** The settings of a server that was just started. *)
#[local] Instance demo_sets : SetConfig := {| set_seed := 5381; set_can_resize := true; set_max_entries := 512 |}.

#[local] Abbreviation demo_process := (process_keyspace 170 block_size block_size no_limits 0 true no_proc no_redirect no_discard no_free no_blocked
  (plain_guards false)).
#[local] Abbreviation demo_answered := (answered 170 block_size block_size no_limits 0 true no_proc no_redirect no_discard no_free no_blocked (env_at 0)).

Definition demo_cmds : list (Z * kcmd) :=
  [(5, Set_ (str "k") (str "41") [str "EX"; str "10"]); (6, Incr (str "k")); (7, Rename (str "k") (str "j")); (8, Ttl UNIT_MILLISECONDS (str "j")); (20000, Get (str "j"));
   (20001, Sadd (str "s") (str <$> ["3"; "7"; "3"]%string)); (20002, Sadd (str "s") [str "x"]); (20003, Smove (str "s") (str "t") (str "7")); (20004, Scard (str "s"))].

(** A step of the demonstration, by a client that has nothing to send yet. *)
Lemma demo_step (s : session dict) m t cmd rest : demo_answered s m ((t, cmd) :: rest) -> nodes cmd <= 1000 ->
  Forall (fun a => Z.of_nat (length a) <= STRING_MAX) (request cmd) ->
  exists s' c', demo_process (env_at t) s (client_with (request cmd)) = Ok (s', Some (c', true)) /\
    stream (q_out c') = (kspec t (alive t m) cmd).2 /\ demo_answered s' (kspec t (alive t m) cmd).1 rest.
Proof.
  intros H Hn Hl. cbn [answered] in H. destruct (kspec t (alive t m) cmd) as [m' reply].
  destruct (H (plain_guards false) (client_with (request cmd))) as (s' & c' & E & St & Hdb & Hnext).
  - split; [by apply fresh_ready|]. split; [done|]. by split.
  - cbn [client_with q_argv]. apply Forall2_fmap_r, Forall_Forall2_diag. eapply Forall_impl; [exact Hl|]. intros a Ha.
    destruct (str_obj_ok a) as [Ho Hv]; [unfold STRING_MAX in Ha; lia|]. by split.
  - exists s', c'. split; [exact E|]. split; [exact St|]. by apply Hnext, recounted_refl.
Qed.

Lemma keyspace_commands_refine_witness :
  exists s1 c1 s2 c2 s3 c3 s4 c4 s5 c5 s6 c6 s7 c7 s8 c8 s9 c9,
    demo_process (env_at 5) start_session (client_with (str <$> ["set"; "k"; "41"; "EX"; "10"]%string)) = Ok (s1, Some (c1, true)) /\
    stream (q_out c1) = str "+OK" ++ crlf /\
    demo_process (env_at 6) s1 (client_with (str <$> ["incr"; "k"]%string)) = Ok (s2, Some (c2, true)) /\
    stream (q_out c2) = str ":42" ++ crlf /\
    demo_process (env_at 7) s2 (client_with (str <$> ["rename"; "k"; "j"]%string)) = Ok (s3, Some (c3, true)) /\
    stream (q_out c3) = str "+OK" ++ crlf /\
    demo_process (env_at 8) s3 (client_with (str <$> ["pttl"; "j"]%string)) = Ok (s4, Some (c4, true)) /\
    stream (q_out c4) = str ":9997" ++ crlf /\
    demo_process (env_at 20000) s4 (client_with (str <$> ["get"; "j"]%string)) = Ok (s5, Some (c5, true)) /\
    stream (q_out c5) = str "$-1" ++ crlf /\
    demo_process (env_at 20001) s5 (client_with (str <$> ["sadd"; "s"; "3"; "7"; "3"]%string)) = Ok (s6, Some (c6, true)) /\
    stream (q_out c6) = str ":2" ++ crlf /\
    demo_process (env_at 20002) s6 (client_with (str <$> ["sadd"; "s"; "x"]%string)) = Ok (s7, Some (c7, true)) /\
    stream (q_out c7) = str ":1" ++ crlf /\
    demo_process (env_at 20003) s7 (client_with (str <$> ["smove"; "s"; "t"; "7"]%string)) = Ok (s8, Some (c8, true)) /\
    stream (q_out c8) = str ":1" ++ crlf /\
    demo_process (env_at 20004) s8 (client_with (str <$> ["scard"; "s"]%string)) = Ok (s9, Some (c9, true)) /\
    stream (q_out c9) = str ":2" ++ crlf.
Proof.
  assert (demo_answered start_session ∅ demo_cmds) as H.
  { apply (keyspace_commands_refine 170 block_size block_size no_limits 0 true no_proc no_redirect no_discard no_free no_blocked
      block_size_ok block_size_ok (fun s => eq_refl) (env_at 0) 0 100 start_session ∅ demo_cmds);
      [reflexivity|reflexivity|lia|apply empty_shows; vm_compute; discriminate|apply map_Forall_empty|repeat (split; [lia|]); exact I|vm_compute; discriminate|].
    repeat apply Forall_cons_2; try apply Forall_nil_2; cbn; try exact I; try lia. intros n [= <-]. vm_compute. discriminate. }
  destruct (demo_step _ _ _ _ _ H) as (s1 & c1 & E1 & R1 & H1); [vm_compute; discriminate|repeat constructor; vm_compute; discriminate|].
  destruct (demo_step _ _ _ _ _ H1) as (s2 & c2 & E2 & R2 & H2); [vm_compute; discriminate|repeat constructor; vm_compute; discriminate|].
  destruct (demo_step _ _ _ _ _ H2) as (s3 & c3 & E3 & R3 & H3); [vm_compute; discriminate|repeat constructor; vm_compute; discriminate|].
  destruct (demo_step _ _ _ _ _ H3) as (s4 & c4 & E4 & R4 & H4); [vm_compute; discriminate|repeat constructor; vm_compute; discriminate|].
  destruct (demo_step _ _ _ _ _ H4) as (s5 & c5 & E5 & R5 & H5); [vm_compute; discriminate|repeat constructor; vm_compute; discriminate|].
  destruct (demo_step _ _ _ _ _ H5) as (s6 & c6 & E6 & R6 & H6); [vm_compute; discriminate|repeat constructor; vm_compute; discriminate|].
  destruct (demo_step _ _ _ _ _ H6) as (s7 & c7 & E7 & R7 & H7); [vm_compute; discriminate|repeat constructor; vm_compute; discriminate|].
  destruct (demo_step _ _ _ _ _ H7) as (s8 & c8 & E8 & R8 & H8); [vm_compute; discriminate|repeat constructor; vm_compute; discriminate|].
  destruct (demo_step _ _ _ _ _ H8) as (s9 & c9 & E9 & R9 & _); [vm_compute; discriminate|repeat constructor; vm_compute; discriminate|].
  exists s1, c1, s2, c2, s3, c3, s4, c4, s5, c5, s6, c6, s7, c7, s8, c8, s9, c9.
  split; [exact E1|]. split; [rewrite R1; vm_compute; reflexivity|]. split; [exact E2|]. split; [rewrite R2; vm_compute; reflexivity|].
  split; [exact E3|]. split; [rewrite R3; vm_compute; reflexivity|]. split; [exact E4|]. split; [rewrite R4; vm_compute; reflexivity|].
  split; [exact E5|]. split; [rewrite R5; vm_compute; reflexivity|]. split; [exact E6|]. split; [rewrite R6; vm_compute; reflexivity|].
  split; [exact E7|]. split; [rewrite R7; vm_compute; reflexivity|]. split; [exact E8|]. split; [rewrite R8; vm_compute; reflexivity|].
  split; [exact E9|]. rewrite R9. vm_compute. reflexivity.
Defined.

Lemma demo_arg a : Z.of_nat (length a) <= STRING_MAX -> is_arg a (str_obj a).
Proof. intros Ha. destruct (str_obj_ok a) as [Ho Hv]; [unfold STRING_MAX in Ha; lia|]. by split. Qed.

Ltac demo_arg := apply demo_arg; vm_compute; discriminate.

Lemma decrby_min_subtracts_witness :
  exists db : redisDb dict, setKey (env_at 5) empty_db (str "k") (str_obj (str "7")) = Ok db /\
  exists s' c', decrbyCommand 170 block_size block_size no_limits 0 (env_at 5) (mkSession db 0 None None [] kd_empty [])
      (client_with (str <$> ["decrby"; "k"; "-9223372036854775808"]%string)) = Ok (s', c') /\
    stream (q_out c') = str ":-9223372036854775801" ++ crlf.
Proof.
  destruct (set_key (env_at 5) eq_refl eq_refl 10 (empty_db : redisDb dict) ∅ (str "k") (str_obj (str "7")) (str "7"))
    as (db & E & Hs); [apply empty_shows; vm_compute; discriminate|lia|apply str_obj_ok; vm_compute; reflexivity|reflexivity|vm_compute; discriminate|].
  exists db. split; [exact E|].
  destruct (decrby_min_subtracts 170 block_size block_size no_limits 0 block_size_ok block_size_ok (env_at 5) eq_refl eq_refl
    9 (mkSession db 0 None None [] kd_empty []) (client_with (str <$> ["decrby"; "k"; "-9223372036854775808"]%string))
    (str_obj (str "decrby")) (str_obj (str "k")) (str_obj (str "-9223372036854775808")) (str "k") (str "7") None 7
    (<[str "k" := (VString (str "7"), None)]> ∅)) as (s' & c' & E1 & _ & Hout);
    [exact Hs|lia|reflexivity|demo_arg|demo_arg|apply fresh_ready; lia|apply lookup_insert_eq|vm_compute; reflexivity|lia|].
  exists s', c'. split; [exact E1|]. destruct Hout as (_ & St & _). rewrite St. vm_compute. reflexivity.
Defined.

Lemma setrange_limit_wraps_witness :
  exists s' c' p, setrangeCommand 170 block_size block_size no_limits 0 (env_at 5) start_session
      (client_with (str <$> ["setrange"; "k"; "9223372036854775807"; "x"]%string)) = Ok (s', c') /\
    o_ptr <$> vals (s_db s') !! str "k" = Some (PtrSds p) /\ sds_len p = 2 ^ 63.
Proof.
  destruct (setrange_limit_wraps 170 block_size block_size no_limits 0 block_size_ok block_size_ok (env_at 5) eq_refl eq_refl
    9 start_session (client_with (str <$> ["setrange"; "k"; "9223372036854775807"; "x"]%string))
    (str_obj (str "setrange")) (str_obj (str "k")) (str_obj (str "9223372036854775807")) (str_obj (str "x"))
    (str "k") (str "9223372036854775807") (str "x") 9223372036854775807 ∅) as (s' & c' & p & E & Hp & Hlen & _);
    [apply empty_shows; vm_compute; discriminate|lia|reflexivity|demo_arg|demo_arg|demo_arg|apply fresh_ready; lia|
     apply lookup_empty|vm_compute; reflexivity|discriminate|vm_compute; discriminate|].
  exists s', c', p. split; [exact E|]. split; [exact Hp|]. rewrite Hlen. reflexivity.
Defined.

Lemma setex_end_wraps_witness :
  exists s' c', setexCommand 170 block_size block_size no_limits 0 true (env_at 1000) start_session
      (client_with (str <$> ["setex"; "k"; "9223372036854775"; "x"]%string)) = Ok (s', c') /\
    exists db' o, lookupKeyRead (env_at (2 ^ 62)) (s_db s') (str "k") = Ok (db', Some o) /\ objval o = Some (str "x").
Proof.
  destruct (setex_end_wraps 170 block_size block_size no_limits 0 true block_size_ok block_size_ok (env_at 1000) eq_refl eq_refl
    9 start_session (client_with (str <$> ["setex"; "k"; "9223372036854775"; "x"]%string))
    (str_obj (str "setex")) (str_obj (str "k")) (str_obj (str "9223372036854775")) (str_obj (str "x"))
    (str "k") (str "9223372036854775") (str "x") 9223372036854775 ∅) as (s' & c' & E & _ & Hread);
    [apply empty_shows; vm_compute; discriminate|lia|reflexivity|demo_arg|demo_arg|demo_arg|apply fresh_ready; lia|
     vm_compute; reflexivity|lia|vm_compute; discriminate|vm_compute; discriminate|vm_compute; reflexivity|].
  exists s', c'. split; [exact E|]. apply Hread.
Defined.

(** A key set to expire at 10, at the time 20. *)
Definition over_db : redisDb (gmap bytes) := mkDb {[ str "k" := str_obj (str "x") ]} {[ str "k" := 10 ]} [].

Lemma persist_revives_witness :
  exists s' c', @persistCommand (gmap bytes) map_keydict 170 block_size block_size no_limits 0 (mkSession over_db 0 None None [] ∅ [])
      (client_with (str <$> ["persist"; "k"]%string)) = Ok (s', c') /\
    stream (q_out c') = str ":1" ++ crlf /\ @live _ map_keydict map_keydict_laws (2 ^ 62) (s_db s') (str "k") = Some (str_obj (str "x")).
Proof.
  destruct (@persist_revives (gmap bytes) map_keydict map_keydict_laws 170 block_size block_size no_limits 0 block_size_ok block_size_ok (env_at 20)
    (mkSession over_db 0 None None [] ∅ []) (client_with (str <$> ["persist"; "k"]%string)) (str_obj (str "persist")) (str_obj (str "k")) (str "k")
    (str_obj (str "x"))) as (_ & s' & c' & E & Hout & _ & Hl);
    [|reflexivity|demo_arg|apply fresh_ready; lia|reflexivity|reflexivity|].
  - split; [exact I|exact I| |].
    + intros k [w Hw]. change (({[ str "k" := 10 ]} : gmap bytes Z) !! k = Some w) in Hw. apply lookup_singleton_Some in Hw as [<- _]. by eexists.
    + intros k w Hw. change (({[ str "k" := 10 ]} : gmap bytes Z) !! k = Some w) in Hw. apply lookup_singleton_Some in Hw as [_ <-]. lia.
  - exists s', c'. split; [exact E|]. split; [|apply Hl]. destruct Hout as (_ & St & _). rewrite St. vm_compute. reflexivity.
Defined.
