(* ===== verification/TransactionTheorems.v ===== *)
(** * Theorems on transactions

    A server with many clients, whose requests are interleaved in any order, is
    the server of the specification of Transactions.v. *)

From S2P Require Import Prelude CLib Util Sds Dict IntSet Object SetType Reply Resp KeyDict Db Command Strings Keys Sets Multi Keyspace Transactions.
From S2P Require Import StringProofs KeyProofs SetProofs CommandProofs Signals MultiProofs ServerProofs Demo KeyspaceTheorems.
Local Open Scope Z_scope.

(** ** Watched keys in the specification *)

Lemma alive_lookup now m k : alive now m !! k = match m !! k with Some (x, w) => if over now w then None else Some (x, w) | None => None end.
Proof.
  unfold alive. destruct (m !! k) as [[x w]|] eqn:E.
  - destruct (over now w) eqn:Eo.
    + apply map_lookup_filter_None. right. intros y Hy. rewrite E in Hy. injection Hy as <-. cbn. by rewrite Eo.
    + by apply map_lookup_filter_Some.
  - apply map_lookup_filter_None. by left.
Qed.

Lemma alive_later t t' m k : t <= t' -> alive t' (alive t m) !! k = alive t' m !! k.
Proof.
  intros Ht. rewrite !alive_lookup. destruct (m !! k) as [[x w]|]; [|done]. destruct (over t w) eqn:E; [|done].
  assert (over t' w = true) as ->; [|done]. destruct w as [w|]; [|done]. cbn in *. lia.
Qed.

Lemma alive_congr t m m' k : m' !! k = m !! k -> alive t m' !! k = alive t m !! k.
Proof. intros E. by rewrite !alive_lookup, E. Qed.

Definition label_time (l : tlabel) : Z := match l with Request time _ _ _ => time | _ => 0 end.

(** The client does not end its transaction, and does not forget what it watches. *)
Definition keeps_watch (id : Z) (l : tlabel) : Prop :=
  match l with
  | Request _ j r _ => j = id -> match r with Exec | Discard | Unwatch => False | _ => True end
  | Connect _ => True
  | Disconnect j => j <> id
  end.

Lemma watch_grows ks0 : forall ks k, k ∈ ks0 -> k ∈ foldl add_key ks0 ks.
Proof.
  intros ks. revert ks0. induction ks as [|x ks IH]; intros ks0 k Hk; [done|]. cbn [foldl]. apply IH. unfold add_key. case_bool_decide; [done|].
  apply elem_of_app. by left.
Qed.

Lemma watch_adds : forall ks ks0 k, k ∈ ks -> k ∈ foldl add_key ks0 ks.
Proof.
  intros ks. induction ks as [|x ks IH]; intros ks0 k Hk; [by apply elem_of_nil in Hk|]. cbn [foldl]. apply elem_of_cons in Hk as [->|Hk]; [|by apply IH].
  apply watch_grows. unfold add_key. case_bool_decide; [done|]. apply elem_of_app. right. by apply list_elem_of_singleton.
Qed.

(** A request that keeps the watched keys. *)
Lemma tspec_keeps now m a r : match r with Exec | Discard | Unwatch => False | _ => True end ->
  let '(_, a', _) := tspec now m a r in a_cas a' = a_cas a /\ forall k, k ∈ a_watch a -> k ∈ a_watch a'.
Proof.
  intros Hr. destruct r; cbn [tspec]; try done; try (destruct (kspec now m cmd)); destruct (a_multi a); try done.
  cbn. split; [done|]. intros k. apply watch_grows.
Qed.

(** While a client is not marked, the keys that it watches only expire. *)
Lemma watched_step (id t : Z) (m m' : keyspace) (A A' : gmap Z actx) l a : astep m A l m' A' -> keeps_watch id l -> label_time l <= t -> A !! id = Some a ->
  exists a', A' !! id = Some a' /\ (forall k, k ∈ a_watch a -> k ∈ a_watch a') /\
    (a_cas a' = false -> a_cas a = false /\ forall k, k ∈ a_watch a -> alive t m' !! k = alive t m !! k).
Proof.
  intros Hstep Hk Ht Ea. destruct Hstep as [now j r reply b b' m' A' Eb Hspec HM|j Ej|j Ej].
  - cbn in Hk, Ht. specialize (HM id).
    assert (exists a1, <[j := b']> A !! id = Some a1 /\ a_cas a1 = a_cas a /\ forall k, k ∈ a_watch a -> k ∈ a_watch a1) as (a1 & E1 & Hcas & Hw).
    { destruct (decide (id = j)) as [->|]; [|exists a; by rewrite lookup_insert_ne]. rewrite Ea in Eb. injection Eb as <-.
      exists b'. rewrite lookup_insert_eq. split; [done|]. pose proof (tspec_keeps now (alive now m) a r (Hk eq_refl)) as HT. by rewrite Hspec in HT. }
    rewrite E1 in HM. inversion HM as [? a2 [] E2 E3|]; subst. exists a2. split; [done|]. split; [intros k; rewrite mk_watch; apply Hw|]. intros Hc.
    split; [destruct (a_cas a); [|done]; rewrite mk_keeps in Hc; [done|congruence]|]. intros k Hin. rewrite <- (alive_later now t m) by done.
    apply alive_congr. destruct (decide (m' !! k = alive now m !! k)) as [|Hne]; [done|]. rewrite (mk_changed k) in Hc; [done|by apply Hw|done].
  - exists a. rewrite lookup_insert_ne; [|congruence]. done.
  - exists a. rewrite lookup_delete_ne; [|done]. done.
Qed.

Lemma watched_run (id t : Z) (m m' : keyspace) (A A' : gmap Z actx) ls a : aruns m A ls m' A' -> Forall (keeps_watch id) ls -> Forall (fun l => label_time l <= t) ls ->
  A !! id = Some a ->
  exists a', A' !! id = Some a' /\ (a_cas a' = false -> a_cas a = false /\ forall k, k ∈ a_watch a -> alive t m' !! k = alive t m !! k).
Proof.
  intros Hr. revert a. induction Hr as [m A|m A l m1 A1 ls m' A' Hs Hr IH]; intros a HF HT Ea; [by exists a|].
  apply Forall_cons in HF as [Hk HF]. apply Forall_cons in HT as [Ht HT].
  destruct (watched_step id t m m1 A A1 l a Hs Hk Ht Ea) as (a1 & E1 & Hw & Hc).
  destruct (IH a1 HF HT E1) as (a' & E' & Hc'). exists a'. split; [done|]. intros Hcas. destruct (Hc' Hcas) as [H1 Hsame].
  destruct (Hc H1) as [H2 Hsame1]. split; [done|]. intros k Hin. rewrite Hsame by auto. by apply Hsame1.
Qed.

(** EXEC that runs was not marked. *)
Lemma exec_unmarked now m a m' a' reply : tspec now m a Exec = (m', a', reply) -> head reply = Some 42 -> reply <> nullmultibulk -> a_cas a = false.
Proof.
  cbn [tspec]. unfold exec_spec. destruct (a_multi a); cbn [negb]; [|by intros [= <- <- <-]]. destruct (a_abort a); [by intros [= <- <- <-]|].
  destruct (a_cas a); [|done]. by intros [= <- <- <-].
Qed.

(** ** Runs of the server *)

Section Runs.
Context {T : Type -> Type} `{KD : KeyDict T} `{KL : !KeyDictLaws T} `{SC : SetConfig}.
Variable junk : Z.
Variable sdsZmallocSize : sds -> Z.
Variable embeddedSize : sds -> Z.
Variable client_obuf_limits : client_type -> obuf_limits.
Variable unixtime : Z.
Variable shareable : bool.
Hypothesis zmalloc_size : forall s, 0 <= sdsZmallocSize s < 2 ^ 48.
Hypothesis embedded_size : forall s, 0 <= embeddedSize s < 2 ^ 48.
Variable other_proc : proc -> session T -> reqst -> res (session T * reqst).
Variable cluster_redirect : redisCommand -> reqst -> option (reqst -> res reqst).
Variable freeMemoryIfNeeded : session T -> session T * bool * bool.
Variable handleClientsBlockedOnLists : session T -> res (session T).
Hypothesis no_blocked_clients : forall s, handleClientsBlockedOnLists s = Ok s.
Variable en : env.
Hypothesis master : e_masterhost en = false.
Hypothesis loaded : e_loading en = false.

#[local] Abbreviation process_at t g := (process_tx junk sdsZmallocSize embeddedSize client_obuf_limits unixtime shareable other_proc (at_time en t)
  cluster_redirect freeMemoryIfNeeded handleClientsBlockedOnLists g).
#[local] Abbreviation delivered' := (delivered sdsZmallocSize embeddedSize en).

(** A step of the server from the time [now]: a request, whose reply is added to
    the output of its client; a new client; a client that leaves. Until the
    request, replies were sent and arguments freed, which changes the owners of
    the stored objects. *)
Inductive cstep (H now : Z) (v : txserver T) : tlabel -> Z -> txserver T -> Prop :=
  | cstep_request time id r reply t v0 g c v' t' :
      now <= time <= H -> recounted_db (v_db v) (v_db v0) -> v_watched v0 = v_watched v -> v_clients v0 = v_clients v ->
      v_clients v !! id = Some t -> delivered' H g time t c r -> serve (process_at time g) (exchange v0 id c) id = Ok v' ->
      v_clients v' !! id = Some t' -> stream (q_out (t_req t')) = stream (q_out c) ++ reply ->
      cstep H now v (Request time id r reply) time v'
  | cstep_connect id c :
      v_clients v !! id = None -> c_id (q_out c) = id -> tx_flags (q_out c) = (false, false, false) ->
      cstep H now v (Connect id) now (connect v id c)
  | cstep_disconnect id v' :
      is_Some (v_clients v !! id) -> free_client v id = Ok v' -> cstep H now v (Disconnect id) now v'.

Inductive cruns (H : Z) : Z -> txserver T -> list tlabel -> Z -> txserver T -> Prop :=
  | cruns_nil now v : cruns H now v [] now v
  | cruns_cons now v l now1 v1 ls now' v' : cstep H now v l now1 v1 -> cruns H now1 v1 ls now' v' -> cruns H now v (l :: ls) now' v'.

Definition label_cost (l : tlabel) : Z := match l with Request _ _ r _ => cost r | _ => 0 end.
Definition total_cost (ls : list tlabel) : Z := foldr (fun l n => label_cost l + n) 0 ls.

Lemma label_cost_nonneg l : 0 <= label_cost l.
Proof. destruct l; cbn; [apply cost_nonneg|done..]. Qed.

Lemma total_cost_nonneg ls : 0 <= total_cost ls.
Proof.
  induction ls as [|l ls IH]; [done|]. change (0 <= label_cost l + total_cost ls). pose proof (label_cost_nonneg l). lia.
Qed.

(** The specification has the clients of the server. *)
Lemma client_state H n now (v : txserver T) m A id : server_is H n now v m A ->
  match v_clients v !! id with Some t => exists a, A !! id = Some a /\ client_is H id t a | None => A !! id = None end.
Proof. intros HS. destruct (si_clients _ _ _ _ _ _ HS id) as [t a Hc|]; eauto. Qed.

Lemma cstep_sim H n now (v : txserver T) m A l now' v' : 0 <= now -> server_is H n now v m A -> cstep H now v l now' v' -> label_cost l <= n ->
  now <= now' /\ label_time l <= now' /\ exists m' A', astep m A l m' A' /\ server_is H (n - label_cost l) now' v' m' A'.
Proof.
  intros Hnow HS Hstep Hn. destruct Hstep as [time id r reply t v0 g c v' t' Htime Hrec Ew Ec Et Hd Hserve Et' Hst|id c E Hid Hfl|id v' [t Et] Hfree]; cbn [label_cost label_time] in *.
  - pose proof (client_state H n now v m A id HS) as Hc. rewrite Et in Hc. destruct Hc as (a & Ea & Hc).
    pose proof (recounted_server H n now v v0 m A HS Hrec Ew Ec) as HS0. rewrite <- Ec in Et.
    pose proof (serve_ok junk sdsZmallocSize embeddedSize client_obuf_limits unixtime shareable zmalloc_size embedded_size other_proc cluster_redirect
      freeMemoryIfNeeded handleClientsBlockedOnLists no_blocked_clients en master loaded H n now v0 m A id t a time g c r Hnow Htime HS0 Et Ea Hd Hn) as HT.
    destruct (tspec time (alive time m) a r) as [[m' a'] reply'] eqn:Espec. destruct HT as (v1 & t1 & A' & E1 & Et1 & Hst1 & HM & HS').
    rewrite Hserve in E1. injection E1 as <-. rewrite Et' in Et1. injection Et1 as <-. rewrite Hst in Hst1. apply app_inv_head in Hst1 as <-.
    split; [lia|]. split; [lia|]. exists m', A'. split; [|done]. by eapply astep_request.
  - pose proof (client_state H n now v m A id HS) as Hc. rewrite E in Hc. split; [lia|]. split; [lia|]. rewrite Z.sub_0_r.
    exists m, (<[id := idle_actx]> A). split; [by constructor|by apply connect_ok].
  - pose proof (client_state H n now v m A id HS) as Hc. rewrite Et in Hc. destruct Hc as (a & Ea & _). split; [lia|]. split; [lia|]. rewrite Z.sub_0_r.
    destruct (free_ok H n now v m A id HS) as (v1 & E1 & HS'); [eauto|]. rewrite Hfree in E1. injection E1 as <-.
    exists m, (delete id A). split; [constructor; eauto|done].
Qed.

Lemma cruns_sim H now (v : txserver T) ls now' v' : cruns H now v ls now' v' -> forall n m A, 0 <= now -> server_is H n now v m A -> total_cost ls <= n ->
  now <= now' /\ Forall (fun l => label_time l <= now') ls /\ exists m' A', aruns m A ls m' A' /\ server_is H (n - total_cost ls) now' v' m' A'.
Proof.
  induction 1 as [now v|now v l now1 v1 ls now' v' Hs Hr IH]; intros n m A Hnow HS Hn.
  { split; [lia|]. split; [constructor|]. exists m, A. cbn. rewrite Z.sub_0_r. split; [constructor|done]. }
  cbn [total_cost foldr] in *. fold (total_cost ls) in *. pose proof (total_cost_nonneg ls).
  destruct (cstep_sim H n now v m A l now1 v1 Hnow HS Hs) as (H1 & H2 & m1 & A1 & Ha & HS1); [lia|].
  destruct (IH (n - label_cost l) m1 A1) as (H3 & H4 & m' & A' & Har & HS'); [lia|done|lia|].
  split; [lia|]. split; [constructor; [lia|done]|]. exists m', A'. split; [by econstructor|]. by rewrite Z.sub_add_distr.
Qed.

(** C10: The server implements the specification of transactions. Take a server that
    shows a key space and the states of its clients, and any run of it, in which
    the requests of the clients are interleaved, and clients come and go. The
    replies and the key space are those of the specification: a command of a
    client in MULTI is only queued, EXEC executes the whole queue at once or
    nothing, and a client that watches a key that another request has changed is
    marked, so that its EXEC is refused. *)
Theorem transactions_refine H n now (v : txserver T) m A ls now' v' : 0 <= now -> server_is H n now v m A ->
  cruns H now v ls now' v' -> total_cost ls <= n ->
  exists m' A', aruns m A ls m' A' /\ server_is H (n - total_cost ls) now' v' m' A'.
Proof. intros Hnow HS Hr Hn. by apply (cruns_sim H now v ls now' v' Hr n m A). Qed.

(** C12: No run of the server leads to a failure. After any run, a request that a
    client has sent is served, and its reply is added to what the client is sent;
    every client can be freed. So the index of the watched keys never names a
    client that was freed, never misses a key that a client watches, and the
    assertion and the search of [unwatchAllKeys] do not fail. *)
Theorem transactions_served H n now (v : txserver T) m A ls now' v' id t : 0 <= now -> server_is H n now v m A ->
  cruns H now v ls now' v' -> total_cost ls <= n -> v_clients v' !! id = Some t ->
  (forall time g c r, now' <= time <= H -> total_cost ls + cost r <= n -> delivered' H g time t c r ->
    exists v'' t' reply, serve (process_at time g) (exchange v' id c) id = Ok v'' /\ v_clients v'' !! id = Some t' /\
      stream (q_out (t_req t')) = stream (q_out c) ++ reply) /\
  exists v'', free_client v' id = Ok v''.
Proof.
  intros Hnow HS Hr Hn Et. destruct (cruns_sim H now v ls now' v' Hr n m A Hnow HS Hn) as (H1 & _ & m' & A' & _ & HS').
  pose proof (client_state H _ now' v' m' A' id HS') as Hc. rewrite Et in Hc. destruct Hc as (a & Ea & Hc). split.
  - intros time g c r Htime Hcost Hd.
    pose proof (serve_ok junk sdsZmallocSize embeddedSize client_obuf_limits unixtime shareable zmalloc_size embedded_size other_proc cluster_redirect
      freeMemoryIfNeeded handleClientsBlockedOnLists no_blocked_clients en master loaded H _ now' v' m' A' id t a time g c r ltac:(lia) Htime HS' Et Ea Hd ltac:(lia)) as HT.
    destruct (tspec time (alive time m') a r) as [[m2 a2] reply]. destruct HT as (v2 & t2 & A2 & E2 & Et2 & Hst2 & _). by exists v2, t2, reply.
  - destruct (free_ok H _ now' v' m' A' id HS') as (v2 & E2 & _); eauto.
Qed.

(** C11: Optimistic locking is sound for the commands of [kcmd] and the commands of
    transactions. A client watches keys, and later sends EXEC; in between it does not end its
    transaction or forget the keys, and the other clients send any of these commands, in any
    order, connect and are freed. If the EXEC is executed, then every watched key has just
    before it the value and the expire time that it had after WATCH, except that a key
    whose time was over since then is gone. PERSIST is not one of these commands, and the
    statement is false with it: it removes an expire time and announces nothing. *)
Theorem watched_values_unchanged H n now (v : txserver T) m A id ks t1 v1 ls now2 v2 t2 reply v3 :
  0 <= now -> server_is H n now v m A -> total_cost ls + Z.of_nat (length ks) <= n ->
  cstep H now v (Request t1 id (Watch ks) ok_reply) t1 v1 -> cruns H t1 v1 ls now2 v2 -> Forall (keeps_watch id) ls ->
  cstep H now2 v2 (Request t2 id Exec reply) t2 v3 -> head reply = Some 42 -> reply <> nullmultibulk ->
  forall k, k ∈ ks -> prod_map oval Datatypes.id <$> entry t2 (v_db v2) k = prod_map oval Datatypes.id <$> entry t2 (v_db v1) k.
Proof.
  intros Hnow HS Hn Hw Hr Hkeep He Hhd Hnil k Hk. pose proof (total_cost_nonneg ls).
  destruct (cstep_sim H n now v m A _ t1 v1 Hnow HS Hw) as (H1 & _ & m1 & A1 & Ha1 & HS1); [cbn; lia|]. cbn [label_cost cost] in HS1.
  destruct (cruns_sim H t1 v1 ls now2 v2 Hr _ m1 A1 ltac:(lia) HS1 ltac:(lia)) as (H2 & HT & m2 & A2 & Ha2 & HS2).
  destruct (cstep_sim H _ now2 v2 m2 A2 _ t2 v3 ltac:(lia) HS2 He) as (H3 & _ & m3 & A3 & Ha3 & _); [cbn; lia|].
  assert (exists a1, A1 !! id = Some a1 /\ forall k, k ∈ ks -> k ∈ a_watch a1) as (a1 & E1 & Hin).
  { inversion Ha1 as [? ? ? ? a a' ? ? Ea Hspec HM| |]; subst. specialize (HM id). rewrite lookup_insert_eq in HM.
    destruct (A1 !! id) as [a1|] eqn:E; [|by inversion HM]. inversion HM as [? ? Hmk|]; subst. exists a1. split; [done|]. rewrite (mk_watch _ _ _ _ _ Hmk). cbn [tspec] in Hspec.
    destruct (a_multi a); [by apply (f_equal (fun x => head x.2)) in Hspec|]. injection Hspec as <- <-. intros j Hj. by apply watch_adds. }
  destruct (watched_run id t2 m1 m2 A1 A2 ls a1 Ha2 Hkeep) as (a2 & E2 & Hsame); [|done|].
  { eapply Forall_impl; [exact HT|]. intros l. cbn. lia. }
  inversion Ha3 as [? ? ? ? a a' ? ? Ea Hspec HM| |]; subst. rewrite Ea in E2. injection E2 as <-.
  destruct (Hsame (exec_unmarked _ _ _ _ _ _ Hspec Hhd Hnil)) as [_ Hval]. specialize (Hval k (Hin k Hk)).
  pose proof (sh_map _ _ _ _ (shows_later _ _ t2 _ _ H3 (si_shows _ _ _ _ _ _ HS2)) k) as M2.
  pose proof (sh_map _ _ _ _ (shows_later _ t1 t2 _ _ ltac:(lia) (si_shows _ _ _ _ _ _ HS1)) k) as M1.
  by rewrite <- M2, <- M1, Hval.
Qed.

(** C40: PERSIST is not seen by the clients that watch the key: it removes the expire
    time, so that the entry of the key changes, but announces nothing, and no
    client is marked. *)
Theorem persist_unseen (s : session T) c cmd key k o w (wt : T (list Z)) clients :
  db_ok (s_db s) -> q_argv c = [cmd; key] -> is_arg k key -> ready sdsZmallocSize embeddedSize 1 (q_out c) ->
  vals (s_db s) !! k = Some o -> exps (s_db s) !! k = Some w -> db_events (s_db s) = [] ->
  exists s' c', persistCommand junk sdsZmallocSize embeddedSize client_obuf_limits unixtime s c = Ok (s', c') /\
    replied sdsZmallocSize embeddedSize 1 (q_out c) (int_reply 1) (q_out c') /\
    (forall t, t <= w -> entry t (s_db s) k = Some (o, Some w) /\ entry t (s_db s') k = Some (o, None)) /\
    touch_events (db_events (s_db s')) wt clients = Ok (wt, clients).
Proof.
  intros Hdb Ha Hk Hr Hv Hw He.
  unfold persistCommand, arg. rewrite Ha. cbn [lookup list_lookup]. rewrite bind_ok, (is_arg_key k) by done. rewrite bind_ok.
  destruct (dict_find_ok (s_db s) k Hdb) as (db1 & -> & (Hdb1 & V1 & X1) & Ev1). rewrite bind_ok, Hv.
  destruct (removeExpire_ok db1 k Hdb1) as (db2 & E2 & Hdb2 & V2 & X2); [rewrite V1, Hv; eauto|].
  assert (db_events db2 = []) as Ev2.
  { revert E2. unfold removeExpire. intros E2. path E2. cbn. destruct (dict_find_ok db1 k Hdb1) as (d & Ed & _ & Evd). congruence. }
  rewrite E2, bind_ok, X1, bool_decide_eq_true_2 by eauto.
  destruct (shared_replies junk sdsZmallocSize embeddedSize client_obuf_limits unixtime zmalloc_size embedded_size c (int_reply 1) Hr)
    as (out & E & Hout); [done|]. change (int_reply 1) with (str ":1" ++ crlf) in E. rewrite E, bind_ok.
  eexists _, _. split; [reflexivity|]. split; [exact Hout|]. cbn [s_db]. rewrite Ev2. split; [|done].
  intros t Ht. unfold entry, live, expired. rewrite X2, X1, lookup_delete_eq, V2, V1, Hv, Hw. destruct (Z.ltb_spec w t); [lia|done].
Qed.
End Runs.

(** ** Two clients *)

#[local] Instance demo_sets : SetConfig := {| set_seed := 5381; set_can_resize := true; set_max_entries := 512 |}.

Definition demo_server : txserver dict := mkTxServer empty_db 0 kd_empty ∅.

(** A client in a state, with the arguments of a request and nothing to send. *)
Definition demo_flags (a : actx) : Z :=
  (if a_multi a then 2 ^ CLIENT_MULTI else 0) + (if a_cas a then 2 ^ CLIENT_DIRTY_CAS else 0) + (if a_abort a then 2 ^ CLIENT_DIRTY_EXEC else 0).
Definition demo_client (id : Z) (a : actx) (argv : list bytes) : reqst :=
  mkReq (sds_of []) 0 (str_obj <$> argv) 0 (-1) false
    (mkOut id 9 (demo_flags a) REPL_STATE_NONE false (replicate (Z.to_nat PROTO_REPLY_CHUNK_BYTES) 170) 0 [] 0 0 0 [] []).

#[local] Abbreviation demo_cstep := (cstep 170 block_size block_size no_limits 0 true no_proc no_redirect no_free no_blocked (env_at 0) 1000).
#[local] Abbreviation demo_cruns := (cruns 170 block_size block_size no_limits 0 true no_proc no_redirect no_free no_blocked (env_at 0) 1000).

Lemma demo_server_is : server_is 1000 100 0 demo_server ∅ ∅.
Proof.
  split; [apply empty_shows; vm_compute; discriminate|apply map_Forall_empty| | |].
  - destruct (kd_empty_ok (T := dict) (list Z)) as [H1 H2]. split; [exact H1|intros id; constructor|intros k id _; apply not_elem_of_nil|].
    intros k l. change (v_watched demo_server) with (kd_empty : dict (list Z)). rewrite H2, lookup_empty. discriminate.
  - destruct (kd_empty_ok (T := dict) (list Z)) as [H1 H2]. change (v_watched demo_server) with (kd_empty : dict (list Z)).
    rewrite H2, map_size_empty. vm_compute. discriminate.
  - intros j. cbn [demo_server v_clients]. rewrite !lookup_empty. constructor.
Qed.

(** A request, whose arguments have just been read. *)
Lemma demo_request n now (v : txserver dict) m A id a time r m' a' reply : 0 <= now <= time -> time <= 1000 -> server_is 1000 n now v m A ->
  A !! id = Some a -> tspec time (alive time m) a r = (m', a', reply) -> cost r <= n ->
  3 + 3 * Z.of_nat (length (trequest r)) + sum_nodes (a_queue a) <= 1000 -> Forall (fun b => Z.of_nat (length b) <= STRING_MAX) (trequest r) ->
  admissible 1000 (demo_client id a (trequest r)) r ->
  exists v' A', demo_cstep now v (Request time id r reply) time v' /\
    (forall j, option_Forall2 (marked (executes a r) (alive time m) m') (<[id := a']> A !! j) (A' !! j)) /\ server_is 1000 (n - cost r) time v' m' A'.
Proof.
  intros Ht HH HS Ea Hspec Hn Hnodes Hargs Hadm. pose proof (si_clients _ _ _ _ _ _ HS id) as Hc. rewrite Ea in Hc.
  destruct (v_clients v !! id) as [t|] eqn:Et; [|by inversion Hc]. inversion Hc as [? ? Hcl|]; subst.
  assert (delivered block_size block_size (env_at 0) 1000 (plain_guards false) time t (demo_client id a (trequest r)) r) as Hd.
  { split; try done.
    - by rewrite (ci_id _ _ _ _ Hcl).
    - rewrite (ci_flags _ _ _ _ Hcl). by destruct a as [[] [] [] ? ?].
    - by destruct a as [[] [] [] ? ?].
    - unfold reply_nodes. rewrite (queue_nodes _ _ (ci_queue _ _ _ _ Hcl)). split; [by split|]. split; [by destruct a as [[] [] [] ? ?]|]. cbn. cbn in Hnodes. lia.
    - by destruct a as [[] [] [] ? ?].
    - cbn [demo_client q_argv]. apply Forall2_fmap_r, Forall_Forall2_diag. eapply Forall_impl; [exact Hargs|]. intros b Hb. by apply demo_arg. }
  pose proof (serve_ok 170 block_size block_size no_limits 0 true block_size_ok block_size_ok no_proc no_redirect no_free no_blocked (fun s => eq_refl)
    (env_at 0) eq_refl eq_refl 1000 n now v m A id t a time (plain_guards false) _ r ltac:(lia) ltac:(lia) HS Et Ea Hd Hn) as HX.
  rewrite Hspec in HX. destruct HX as (v' & t' & A' & E & Et' & Hst & HM & HS'). exists v', A'. split; [|done].
  eapply cstep_request with (t := t) (v0 := v); try done; [lia|]. apply recounted_refl. apply (sh_ok _ _ _ _ (si_shows _ _ _ _ _ _ HS)).
Qed.

(** A client that is not marked, and one that is. *)
Lemma marked_same cmds m m' a b : marked cmds m m' a b -> (forall k cmd, k ∈ a_watch a -> cmd ∈ cmds -> ~ touches cmd k) -> b = a.
Proof. intros [] H. specialize (mk_only H). destruct a, b. cbn in *. congruence. Qed.

Lemma marked_dirty cmds m m' a b k : marked cmds m m' a b -> k ∈ a_watch a -> m' !! k <> m !! k ->
  b = mkActx (a_multi a) true (a_abort a) (a_queue a) (a_watch a).
Proof. intros [] Hk Hne. specialize (mk_changed k Hk Hne). destruct a, b. cbn in *. congruence. Qed.

(** The state of a client after a request. *)
Lemma marked_lookup cmds m m' (A A' : gmap Z actx) j a : (forall j, option_Forall2 (marked cmds m m') (A !! j) (A' !! j)) -> A !! j = Some a ->
  exists b, A' !! j = Some b /\ marked cmds m m' a b.
Proof. intros H E. specialize (H j). rewrite E in H. destruct (A' !! j) as [b|]; [|by inversion H]. exists b. by inversion H. Qed.

Definition demo_watch : actx := mkActx false false false [] [str "k"].

(** One client watches a key, the other sets it, and the transaction of the first
    is refused. *)
Definition demo_labels : list tlabel :=
  [Connect 1; Connect 2; Request 5 1 (Watch [str "k"]) ok_reply; Request 6 2 (Cmd (Set_ (str "k") (str "x") [])) ok_reply;
   Request 7 1 Multi_ ok_reply; Request 8 1 (Cmd (Get (str "k"))) queued_reply; Request 9 1 Exec nullmultibulk].

Ltac demo_args := repeat constructor; vm_compute; discriminate.

Lemma demo_run : exists v', demo_cruns 0 demo_server demo_labels 9 v' /\ is_Some (v_clients v' !! 1).
Proof.
  pose proof (connect_ok 1000 100 0 demo_server ∅ ∅ 1 (demo_client 1 idle_actx []) demo_server_is (lookup_empty _) eq_refl eq_refl) as H1.
  assert ((<[1:=idle_actx]> ∅ : gmap Z actx) !! 2 = None) as E by done.
  pose proof (connect_ok 1000 100 0 _ ∅ _ 2 (demo_client 2 idle_actx []) H1 E eq_refl eq_refl) as H2.
  destruct (demo_request _ 0 _ _ _ 1 idle_actx 5 (Watch [str "k"]) ∅ demo_watch ok_reply ltac:(lia) ltac:(lia) H2 eq_refl eq_refl)
    as (v3 & A3 & S3 & M3 & H3); [vm_compute; discriminate|vm_compute; discriminate|demo_args|done|].
  destruct (marked_lookup _ _ _ _ _ 1 demo_watch M3 eq_refl) as (b1 & E31 & K1). apply marked_same in K1; [|set_solver]. subst b1.
  destruct (marked_lookup _ _ _ _ _ 2 idle_actx M3 eq_refl) as (b2 & E32 & K2). apply marked_same in K2; [|set_solver]. subst b2.
  destruct (demo_request _ 5 _ _ _ 2 idle_actx 6 (Cmd (Set_ (str "k") (str "x") [])) (<[str "k" := (VString (str "x"), None)]> ∅) idle_actx ok_reply
    ltac:(lia) ltac:(lia) H3 E32 eq_refl) as (v4 & A4 & S4 & M4 & H4); [vm_compute; discriminate|vm_compute; discriminate|demo_args|done|].
  destruct (marked_lookup _ _ _ _ _ 1 demo_watch M4) as (b1 & E41 & K1); [by rewrite lookup_insert_ne|].
  apply (marked_dirty _ _ _ _ _ (str "k")) in K1; [|by left|by vm_compute]. subst b1.
  destruct (demo_request _ 6 _ _ _ 1 _ 7 Multi_ _ _ ok_reply ltac:(lia) ltac:(lia) H4 E41 eq_refl)
    as (v5 & A5 & S5 & M5 & H5); [vm_compute; discriminate|vm_compute; discriminate|demo_args|done|].
  destruct (marked_lookup _ _ _ _ _ 1 _ M5 (lookup_insert_eq _ _ _)) as (b1 & E51 & K1). apply marked_same in K1; [|set_solver]. subst b1.
  destruct (demo_request _ 7 _ _ _ 1 _ 8 (Cmd (Get (str "k"))) _ _ queued_reply ltac:(lia) ltac:(lia) H5 E51 eq_refl)
    as (v6 & A6 & S6 & M6 & H6); [vm_compute; discriminate|vm_compute; discriminate|demo_args|done|].
  destruct (marked_lookup _ _ _ _ _ 1 _ M6 (lookup_insert_eq _ _ _)) as (b1 & E61 & K1). apply marked_same in K1; [|set_solver]. subst b1.
  destruct (demo_request _ 8 _ _ _ 1 _ 9 Exec _ _ nullmultibulk ltac:(lia) ltac:(lia) H6 E61 eq_refl)
    as (v7 & A7 & S7 & M7 & H7); [vm_compute; discriminate|vm_compute; discriminate|demo_args|done|].
  destruct (marked_lookup _ _ _ _ _ 1 _ M7 (lookup_insert_eq _ _ _)) as (b1 & E71 & _).
  exists v7. split.
  - eapply cruns_cons; [apply (cstep_connect _ _ _ _ _ _ _ _ _ _ _ _ _ _ 1 (demo_client 1 idle_actx [])); done|].
    eapply cruns_cons; [apply (cstep_connect _ _ _ _ _ _ _ _ _ _ _ _ _ _ 2 (demo_client 2 idle_actx [])); done|].
    repeat (eapply cruns_cons; [eassumption|]). constructor.
  - pose proof (si_clients _ _ _ _ _ _ H7 1) as Hc. rewrite E71 in Hc. destruct (v_clients v7 !! 1); [eauto|by inversion Hc].
Qed.

Lemma transactions_refine_witness : exists v' m' A', demo_cruns 0 demo_server demo_labels 9 v' /\ aruns ∅ ∅ demo_labels m' A' /\
  server_is 1000 94 9 v' m' A'.
Proof.
  destruct demo_run as (v' & Hr & _).
  destruct (transactions_refine 170 block_size block_size no_limits 0 true block_size_ok block_size_ok no_proc no_redirect no_free no_blocked (fun s => eq_refl)
    (env_at 0) eq_refl eq_refl 1000 100 0 demo_server ∅ ∅ demo_labels 9 v') as (m' & A' & Ha & HS);
    [lia|exact demo_server_is|exact Hr|vm_compute; discriminate|].
  exists v', m', A'. split; [exact Hr|]. split; [exact Ha|exact HS].
Defined.

Lemma transactions_served_witness : exists v' v'', demo_cruns 0 demo_server demo_labels 9 v' /\ free_client v' 1 = Ok v''.
Proof.
  destruct demo_run as (v' & Hr & [t Et]).
  destruct (transactions_served 170 block_size block_size no_limits 0 true block_size_ok block_size_ok no_proc no_redirect no_free no_blocked (fun s => eq_refl)
    (env_at 0) eq_refl eq_refl 1000 100 0 demo_server ∅ ∅ demo_labels 9 v' 1 t) as [_ [v'' E]];
    [lia|exact demo_server_is|exact Hr|vm_compute; discriminate|exact Et|].
  exists v', v''. split; [exact Hr|exact E].
Defined.

(** The other client sets another key, and the transaction is executed. *)
Definition demo_between : list tlabel :=
  [Connect 2; Request 6 2 (Cmd (Set_ (str "j") (str "y") [])) ok_reply; Request 7 1 Multi_ ok_reply; Request 8 1 (Cmd (Get (str "k"))) queued_reply].

Definition demo_key : keyspace := <[str "k" := (VString (str "x"), None : option Z)]> ∅.
Definition demo_keys : keyspace := <[str "j" := (VString (str "y"), None : option Z)]> demo_key.

Definition demo_exec_reply : bytes := str "*1" ++ crlf ++ str "$1" ++ crlf ++ str "x" ++ crlf.

Lemma demo_watched : exists v m A v1 v2 v3, server_is 1000 95 4 v m A /\ demo_cstep 4 v (Request 5 1 (Watch [str "k"]) ok_reply) 5 v1 /\
  demo_cruns 5 v1 demo_between 8 v2 /\ demo_cstep 8 v2 (Request 9 1 Exec demo_exec_reply) 9 v3.
Proof.
  pose proof (connect_ok 1000 98 0 demo_server ∅ ∅ 1 (demo_client 1 idle_actx []) (server_le _ 100 98 _ _ _ _ ltac:(lia) demo_server_is) (lookup_empty _) eq_refl eq_refl) as H1.
  destruct (demo_request 98 0 _ ∅ _ 1 idle_actx 4 (Cmd (Set_ (str "k") (str "x") [])) demo_key idle_actx ok_reply
    ltac:(lia) ltac:(lia) H1 (lookup_insert_eq _ _ _) eq_refl)
    as (v2 & A2 & _ & M2 & H2); [vm_compute; discriminate|vm_compute; discriminate|demo_args|done|].
  destruct (marked_lookup _ _ _ _ _ 1 _ M2 (lookup_insert_eq _ _ _)) as (b1 & E21 & K1). apply marked_same in K1; [|set_solver]. subst b1.
  assert (A2 !! 2 = None) as E22 by (specialize (M2 2); inversion M2; done).
  destruct (demo_request _ 4 _ _ _ 1 idle_actx 5 (Watch [str "k"]) demo_key demo_watch ok_reply ltac:(lia) ltac:(lia) H2 E21 ltac:(vm_compute; reflexivity))
    as (v3 & A3 & S3 & M3 & H3); [vm_compute; discriminate|vm_compute; discriminate|demo_args|done|].
  destruct (marked_lookup _ _ _ _ _ 1 demo_watch M3 (lookup_insert_eq _ _ _)) as (b1 & E31 & K1). apply marked_same in K1; [|set_solver]. subst b1.
  assert (A3 !! 2 = None) as E32.
  { pose proof (M3 2) as M32. rewrite lookup_insert_ne, E22 in M32 by done. by inversion M32. }
  pose proof (connect_ok 1000 _ 5 _ _ _ 2 (demo_client 2 idle_actx []) H3 E32 eq_refl eq_refl) as H4.
  destruct (demo_request _ 5 _ _ _ 2 idle_actx 6 (Cmd (Set_ (str "j") (str "y") [])) demo_keys idle_actx ok_reply
    ltac:(lia) ltac:(lia) H4 (lookup_insert_eq _ _ _) eq_refl) as (v5 & A5 & S5 & M5 & H5); [vm_compute; discriminate|vm_compute; discriminate|demo_args|done|].
  destruct (marked_lookup _ _ _ _ _ 1 demo_watch M5) as (b1 & E51 & K1); [by rewrite !lookup_insert_ne|].
  apply marked_same in K1; [|intros k cmd ->%list_elem_of_singleton ->%list_elem_of_singleton; by vm_compute]. subst b1.
  destruct (demo_request _ 6 _ _ _ 1 _ 7 Multi_ demo_keys _ ok_reply
    ltac:(lia) ltac:(lia) H5 E51 eq_refl) as (v6 & A6 & S6 & M6 & H6); [vm_compute; discriminate|vm_compute; discriminate|demo_args|done|].
  destruct (marked_lookup _ _ _ _ _ 1 _ M6 (lookup_insert_eq _ _ _)) as (b1 & E61 & K1). apply marked_same in K1; [|set_solver]. subst b1.
  destruct (demo_request _ 7 _ _ _ 1 _ 8 (Cmd (Get (str "k"))) demo_keys _ queued_reply
    ltac:(lia) ltac:(lia) H6 E61 eq_refl) as (v7 & A7 & S7 & M7 & H7); [vm_compute; discriminate|vm_compute; discriminate|demo_args|done|].
  destruct (marked_lookup _ _ _ _ _ 1 _ M7 (lookup_insert_eq _ _ _)) as (b1 & E71 & K1). apply marked_same in K1; [|set_solver]. subst b1.
  destruct (demo_request _ 8 _ _ _ 1 _ 9 Exec demo_keys _ demo_exec_reply
    ltac:(lia) ltac:(lia) H7 E71 eq_refl) as (v8 & A8 & S8 & _); [vm_compute; discriminate|vm_compute; discriminate|demo_args|done|].
  eexists v2, _, A2, v3, v7, v8. split; [exact H2|]. split; [exact S3|]. split; [|exact S8].
  eapply cruns_cons; [apply (cstep_connect _ _ _ _ _ _ _ _ _ _ _ _ _ _ 2 (demo_client 2 idle_actx [])); try done|].
  { pose proof (si_clients _ _ _ _ _ _ H3 2) as Hc. rewrite E32 in Hc. by inversion Hc. }
  repeat (eapply cruns_cons; [eassumption|]). constructor.
Qed.

Lemma watched_values_unchanged_witness : exists (v1 v2 v3 : txserver dict), demo_cruns 5 v1 demo_between 8 v2 /\
  demo_cstep 8 v2 (Request 9 1 Exec demo_exec_reply) 9 v3 /\
  prod_map oval Datatypes.id <$> entry 9 (v_db v2) (str "k") = prod_map oval Datatypes.id <$> entry 9 (v_db v1) (str "k").
Proof.
  destruct demo_watched as (v & m & A & v1 & v2 & v3 & HS & Hw & Hr & He). exists v1, v2, v3. split; [exact Hr|]. split; [exact He|].
  apply (watched_values_unchanged 170 block_size block_size no_limits 0 true block_size_ok block_size_ok no_proc no_redirect no_free no_blocked (fun s => eq_refl)
    (env_at 0) eq_refl eq_refl 1000 95 4 v m A 1 [str "k"] 5 v1 demo_between 8 v2 9 demo_exec_reply v3);
    [lia|exact HS|vm_compute; discriminate|exact Hw|exact Hr| |exact He|reflexivity|discriminate|apply list_elem_of_singleton; reflexivity].
  repeat constructor; intros E; discriminate E.
Defined.

(** A key that expires at 99. *)
Definition timed_db : redisDb (gmap bytes) := mkDb {[ str "k" := str_obj (str "x") ]} {[ str "k" := 99 ]} [].

Lemma persist_unseen_witness :
  exists s' c', @persistCommand (gmap bytes) map_keydict 170 block_size block_size no_limits 0 (mkSession timed_db 0 None None [] ∅ [])
      (client_with (str <$> ["persist"; "k"]%string)) = Ok (s', c') /\
    @entry _ map_keydict map_keydict_laws 20 timed_db (str "k") = Some (str_obj (str "x"), Some 99) /\
    @entry _ map_keydict map_keydict_laws 20 (s_db s') (str "k") = Some (str_obj (str "x"), None) /\
    @touch_events (gmap bytes) map_keydict (db_events (s_db s')) ({[ str "k" := [1] ]} : gmap bytes (list Z)) ∅ = Ok ({[ str "k" := [1] ]}, ∅).
Proof.
  destruct (@persist_unseen (gmap bytes) map_keydict map_keydict_laws 170 block_size block_size no_limits 0 block_size_ok block_size_ok
    (mkSession timed_db 0 None None [] ∅ []) (client_with (str <$> ["persist"; "k"]%string)) (str_obj (str "persist")) (str_obj (str "k")) (str "k")
    (str_obj (str "x")) 99 {[ str "k" := [1] ]} ∅) as (s' & c' & E & _ & Hen & Ht);
    [|reflexivity|demo_arg|apply fresh_ready; lia|reflexivity|reflexivity|reflexivity|].
  - split; [exact I|exact I| |].
    + intros k [w Hw]. change (({[ str "k" := 99 ]} : gmap bytes Z) !! k = Some w) in Hw. apply lookup_singleton_Some in Hw as [<- _]. by eexists.
    + intros k w Hw. change (({[ str "k" := 99 ]} : gmap bytes Z) !! k = Some w) in Hw. apply lookup_singleton_Some in Hw as [_ <-]. lia.
  - exists s', c'. split; [exact E|]. destruct (Hen 20) as [H1 H2]; [lia|]. split; [exact H1|]. split; [exact H2|exact Ht].
Defined.
