(* ===== verification/PersistenceTheorems.v ===== *)
(** * Theorems on the dump files

    What is saved is loaded again; the compression of strings, the checksum of the
    file and the iterators over the hash tables, on which that rests. *)

From S2P Require Import Prelude CLib Util Sds Dict IntSet Object SetType Reply Resp KeyDict Db Strings Sets Keyspace StringProofs KeyProofs.
From S2P Require Import SdsNum Scan Crc64 Lzf Rio Iter Rdb RdbProofs RdbObjects RdbFiles Demo DataTheorems.
Local Open Scope Z_scope.

(** ** The file *)

(** C13: A dump file holds the key spaces. Take databases that show the key spaces
    [ms] (strings and sets, with their expire times; keys and members shorter than
    2^32 - 1 bytes). There is one file such that [rdbSaveRio] writes exactly this
    file when there is space for it and returns C_ERR when there is not, and the
    databases still show [ms] afterwards. [rdbLoad] reads the file into empty
    databases, of a server with any other settings, seed of the hash function and
    limits of the encodings, at any later time, and the databases then show [ms]
    less the keys whose time is over. *)
Theorem rdb_roundtrip {SC1 SC2 : SetConfig} cf1 cf2 h1 r1 h2 r2 en now1 now2 ctime used_mem n dbs ms dbsL :
  0 <= n -> now1 <= now2 -> now1 <= LLONG_MAX -> LLONG_MIN <= ctime <= LLONG_MAX -> LLONG_MIN <= used_mem <= LLONG_MAX ->
  Forall2 (good_db SC1 h1 r1 n now1) dbs ms -> Z.of_nat (length dbs) < RDB_LENERR ->
  (length dbs <= length dbsL)%nat -> Forall (blank h2 r2) dbsL -> e_masterhost en = false -> 0 <= rdb_interval cf2 ->
  exists file dbs1 dbs2,
    Forall2 (good_db SC1 h1 r1 n now1) dbs1 ms /\
    (forall space, 0 <= space -> exists r, r_file r = file /\
       rdbSaveRio cf1 h1 r1 now1 ctime used_mem dbs (rioInitWithFile [] space) =
         Ok (if Z.of_nat (length file) <=? space then Some (dbs1, r) else None)) /\
    rdbLoad (SC := SC2) cf2 h2 r2 en now2 file dbsL = Ok (Some dbs2) /\ length dbs2 = length dbsL /\
    forall i m, ms !! i = Some m -> exists db, dbs2 !! i = Some db /\ db_shows SC2 h2 r2 n now2 db (alive now2 m).
Proof.
  intros Hn Hnow Hll Hct Hmem Hall Hlen Hle Hblank Hm Hint. assert (Z.of_nat (length dbs) <= 2 ^ 32) as Hlen2 by (unfold RDB_LENERR in Hlen; lia).
  destruct (save_file (SC := SC1) cf1 h1 r1 now1 ctime used_mem n dbs ms) as (body & dbs1 & Hfmt & Hall1 & Hsave); [done..|].
  destruct (load_file (SC1 := SC1) (SC2 := SC2) cf2 h1 r1 h2 r2 en now2 now1 n (rdb_checksum cf1) body dbs ms dbsL)
    as (dbs2 & E & Hl & Hsh); [done..|].
  eexists _, dbs1, dbs2. split; [done|]. split; [|by split; [exact E|]].
  intros space Hsp. destruct (Hsave space Hsp) as (r & Er & Ef). exists r. split; [exact Ef|exact Er].
Qed.

(** ** The compression *)

(** C14: Compression loses nothing. On a string of 2 to 2^32 - 1 bytes [lzf_compress] ends
    without reading or writing outside of its buffers, whatever its table of
    hashed positions holds at the start; it needs one byte more than the limit it
    is given. When it returns a length, that is positive and within the limit, and
    [lzf_decompress] gives the string back in a buffer of any size that has room
    for it, and leaves the rest of the buffer as it was. *)
Theorem lzf_roundtrip htab s out out_len : 2 <= Z.of_nat (length s) < 2 ^ 32 -> 0 <= out_len < Z.of_nat (length out) ->
  exists r, lzf_compress htab s (Z.of_nat (length s)) out out_len = Ok r /\
    forall n out', r = Some (n, out') -> 0 < n <= out_len /\ forall buf, (length s <= length buf)%nat ->
      lzf_decompress (take (Z.to_nat n) out') n buf (Z.of_nat (length buf)) =
        Ok (inr (Z.of_nat (length s), s ++ drop (length s) buf)).
Proof.
  intros Hs Ho. destruct (lzf_compress_ok htab s out out_len Hs Ho) as (r & E & Hr). exists r. split; [done|].
  intros n out' ->. destruct Hr as (Hn & Hl & Hd). split; [done|]. intros buf Hb.
  assert (Z.of_nat (length (take (Z.to_nat n) out')) = n) as El by (rewrite length_take; lia).
  rewrite <- El at 2. apply decompress_decodes; [done| |done]. intros E0. rewrite E0 in El. cbn in El. lia.
Qed.

(** C15: [lzf_decompress] is safe on damaged data: on any block of at least one byte and
    any buffer it ends with an error or with a length within the buffer, and
    reads and writes nothing outside of the block and the buffer. *)
Theorem lzf_decompress_safe c buf : Forall byte_ok c -> c <> [] ->
  exists r, lzf_decompress c (Z.of_nat (length c)) buf (Z.of_nat (length buf)) = Ok r /\
    match r with
    | inl _ => True
    | inr (n, buf') => 0 < n <= Z.of_nat (length buf) /\ length buf' = length buf
    end.
Proof.
  intros Hb Hc. apply decompress_loop_safe; [done|destruct c; cbn; [done|lia]|lia|lia].
Qed.

(** A block of no bytes is read past its end. *)
Theorem lzf_empty_block_overread buf out_len : lzf_decompress [] 0 buf out_len = Fault OutOfBounds.
Proof. reflexivity. Qed.

(** A string whose compressed block holds fewer bytes than announced is accepted,
    and filled with zeros: a block for one byte, announced as four. *)
Theorem lzf_short_string_accepted cf flags : f_plain flags = false ->
  exists s r, rdbLoadLzfStringObject cf flags (rioInitWithFile [2; 4; 0; 97] 0) =
    Ok (Some (LObj (createObject OBJ_STRING s), r)) /\ sdsval s = [97; 0; 0; 0].
Proof. intros Hf. unfold rdbLoadLzfStringObject. rewrite Hf. eexists _, _. split; vm_compute; reflexivity. Qed.

(** ** The checksum *)

(** C16: [crc64], which takes a byte at a time with a table of 256 words, computes the
    shift register of the polynomial ad93d23594c935a9, reflected, that takes one bit
    at a time; in particular every word of the table is right. *)
Theorem crc64_exact c s : Forall byte_ok s -> crc64 c s = Ok (crc64_ref c s).
Proof. intros Hs. by apply crc64_reference. Qed.

(** C17: The checksum shows damage: when bytes within 8 in a row are changed in any
    way, at any place of a text of any length, the checksum changes. *)
Theorem crc64_detects_damage p a b q c : word c -> Forall byte_ok (p ++ a ++ q) -> Forall byte_ok b ->
  length a = length b -> (length a <= 8)%nat -> a <> b ->
  exists x y, crc64 c (p ++ a ++ q) = Ok x /\ crc64 c (p ++ b ++ q) = Ok y /\ x <> y.
Proof.
  intros Hc Ha Hb Hl H8 Hne. apply Forall_app in Ha as Ha'. destruct Ha' as [Hp [_ Hq]%Forall_app].
  eexists _, _. rewrite !crc64_reference by (done || by repeat apply Forall_app_2). split; [done|]. split; [done|].
  by apply crc64_ref_burst.
Qed.

(** ** The iterators *)

Section Iterate.
Context {V : Type}.
Variable hash : bytes -> Z.

Fixpoint find_all (ks : list bytes) (d : dict V) : res (dict V) :=
  match ks with
  | [] => Ok d
  | k :: ks => '(d, _) ← dictFind hash d k; find_all ks d
  end.

(** A loop over an iterator that looks other keys up on the way. *)
Fixpoint iterate (fuel : nat) (look : bytes * V -> list bytes) (d : dict V) (it : dictIterator V) :
    res (dict V * list (bytes * V)) :=
  match fuel with
  | O => Fault OutOfFuel
  | S f =>
      '(d, it, de) ← dictNext d it;
      match de with
      | None => Ok (dictReleaseIterator d it, [])
      | Some kv => d ← find_all (look kv) d; '(d, l) ← iterate f look d it; Ok (d, kv :: l)
      end
  end.

Lemma find_all_iterating ks (d : dict V) : dict_ok hash d -> 0 < iterators d -> find_all ks d = Ok d.
Proof. intros Hd Hi. induction ks as [|k ks IH]; [done|]. cbn [find_all]. by rewrite dictFind_iterating. Qed.

Lemma release_added (d : dict V) it : opened it = true -> it_safe it = true -> dictReleaseIterator (add_iterators d 1) it = d.
Proof.
  intros Ho Hs. unfold dictReleaseIterator. unfold opened in Ho. rewrite Ho, Hs. destruct d as [h0 h1 i n].
  unfold add_iterators. cbn. f_equal. lia.
Qed.

Lemma iterate_ok look fuel : forall (d0 d : dict V) it, dict_ok hash d0 -> 0 <= iterators d0 -> iter_ok d it -> it_safe it = true ->
  d = (if opened it then add_iterators d0 1 else d0) -> (length (remaining d it) < fuel)%nat ->
  iterate fuel look d it = Ok (d0, remaining d it).
Proof.
  induction fuel as [|f IH]; intros d0 d it Hd0 Hn Hit Hs Hd Hf; [lia|].
  assert (dict_ok hash d) as Hok by (subst d; destruct (opened it); [by apply dict_ok_iterators|done]).
  destruct (dictNext_ok hash d it Hok Hit) as (d' & it' & r & E & Hr & Hd' & Hs' & Ho & Hrest).
  assert (d' = add_iterators d0 1) as Ed'. { rewrite Hd', Hd, Hs. by destruct (opened it). }
  cbn [iterate]. rewrite E, bind_ok. cbn. rewrite Hs in Hs'. destruct (remaining d it) as [|kv l]; subst r; cbn.
  - by rewrite Ed', release_added.
  - destruct Hrest as [Hit' Hrem]; [by eexists|]. cbn in Hrem, Hf.
    rewrite find_all_iterating by (rewrite Ed'; first [by apply dict_ok_iterators|cbn; lia]).
    rewrite bind_ok, (IH d0 d' it'); [by rewrite Hrem|done..| |rewrite Hrem; lia]. by rewrite Ho.
Qed.
End Iterate.

(** C18: A safe iterator is complete. In a dict in any state, also while it is rehashed,
    a loop over the iterator gives every entry exactly once, although it looks any keys
    up between the entries (which moves entries to the other table when no iterator is open),
    and the dict is afterwards what it was before. *)
Theorem safe_iterator_complete {V} hash look (d : dict V) : dict_ok hash d -> 0 <= iterators d ->
  exists l, iterate hash (S (Z.to_nat (dictSize d))) look d dictGetSafeIterator = Ok (d, l) /\
    NoDup l.*1 /\ forall k v, (k, v) ∈ l <-> dict_map d !! k = Some v.
Proof.
  intros Hd Hn. destruct (iterator_start hash d true Hd) as [Hit Hrem]. exists (entries d).
  split; [|split; [by apply (dok_nodup hash)|]].
  - unfold dictGetSafeIterator. rewrite (iterate_ok hash look _ d d); [by rewrite Hrem|done..|].
    rewrite Hrem, (dictSize_entries hash) by done. lia.
  - intros k v. unfold dict_map. apply elem_of_list_to_map, (dok_nodup hash), Hd.
Qed.

(** ** Instances *)

Definition demo_hash : bytes -> Z := dictGenHashFunction 5381.

#[local] Instance demo_sets1 : SetConfig := {| set_seed := 5381; set_can_resize := true; set_max_entries := 512 |}.

(** The settings of a server that restarts. *)
Definition demo_sets2 : SetConfig := {| set_seed := 77; set_can_resize := false; set_max_entries := 3 |}.

Definition demo_conf : rdb_conf := mkRdbConf true true (fun _ _ => 77) 170 true 16.

(** A string that compresses, with an expire time. *)
Definition demo_text : bytes := replicate 60 97.
Definition demo_keys : keyspace := <[str "k" := (VString demo_text, Some 99)]> (<[str "k" := (VString demo_text, None)]> ∅).

Definition demo_db : res (redisDb dict) :=
  db ← setKey (env_at 5) empty_db (str "k") (str_obj demo_text); setExpire db (str "k") 99.

Lemma demo_db_good db : demo_db = Ok db -> good_db demo_sets1 demo_hash true 9 5 db demo_keys.
Proof.
  intros E. split; [|split].
  - destruct (set_key (env_at 5) eq_refl eq_refl 10 (empty_db : redisDb dict) ∅ (str "k") (str_obj demo_text) demo_text)
      as (db1 & E1 & H1); [apply empty_shows; vm_compute; discriminate|lia|apply str_obj_ok; vm_compute; reflexivity|reflexivity|vm_compute; discriminate|].
    destruct (expire_key (env_at 5) 9 db1 (<[str "k" := (VString demo_text, None)]> ∅) (str "k") (VString demo_text) None 99)
      as (db2 & E2 & H2); [exact H1|lia|apply lookup_insert_eq|lia|cbn; lia|].
    unfold demo_db in E. rewrite E1, bind_ok, E2 in E. injection E as <-. exact H2.
  - unfold demo_keys. rewrite insert_insert_eq. apply map_Forall_insert_2; [|apply map_Forall_empty].
    split; [|split]; [split; [by_compute|reflexivity]|by_compute|vm_compute; discriminate].
  - assert (match demo_db with Ok db => iterators (db_dict db) =? 0 | _ => false end = true) as H by (vm_compute; reflexivity).
    rewrite E in H. by apply Z.eqb_eq.
Qed.

(** One database that is empty, and one that holds the string. *)
Lemma rdb_roundtrip_witness :
  exists db file dbs1 dbs2, demo_db = Ok db /\
    (exists r, r_file r = file /\ rdbSaveRio demo_conf demo_hash true 5 1 2 [empty_db; db] (rioInitWithFile [] 1000) =
       Ok (if Z.of_nat (length file) <=? 1000 then Some (dbs1, r) else None)) /\
    rdbLoad (SC := demo_sets2) demo_conf (dictGenHashFunction 99) false (env_at 6) 6 file [empty_db; empty_db; empty_db] = Ok (Some dbs2) /\
    exists db2, dbs2 !! 1%nat = Some db2 /\ db_shows demo_sets2 (dictGenHashFunction 99) false 9 6 db2 (alive 6 demo_keys).
Proof.
  destruct demo_db as [db|] eqn:E; [|vm_compute in E; discriminate E].
  destruct (@rdb_roundtrip demo_sets1 demo_sets2 demo_conf demo_conf demo_hash true (dictGenHashFunction 99) false (env_at 6) 5 6 1 2 9
    [empty_db; db] [∅; demo_keys] [empty_db; empty_db; empty_db]) as (file & dbs1 & dbs2 & _ & Hs & El & _ & Hl);
    [lia|lia|unfold LLONG_MAX; lia|unfold LLONG_MIN, LLONG_MAX; lia|unfold LLONG_MIN, LLONG_MAX; lia| |reflexivity|cbn; lia| |reflexivity|cbn; lia|].
  - apply Forall2_cons_2; [|apply Forall2_cons_2; [by apply demo_db_good|apply Forall2_nil_2]].
    split; [apply empty_shows; vm_compute; discriminate|]. split; [apply map_Forall_empty|reflexivity].
  - assert (blank (dictGenHashFunction 99) false (empty_db : redisDb dict)) as Hb.
    { split; [|by split]. exact (@empty_db_ok dict (dict_keydict (dictGenHashFunction 99) false) (dict_keydict_laws _ _)). }
    repeat (apply Forall_cons_2; [exact Hb|]). apply Forall_nil_2.
  - exists db, file, dbs1, dbs2. split; [reflexivity|]. split; [apply Hs; lia|]. split; [exact El|]. apply Hl. reflexivity.
Defined.

Lemma lzf_roundtrip_witness : exists n out,
  lzf_compress (fun _ => 5) demo_text 60 (replicate 57 255) 56 = Ok (Some (n, out)) /\ 0 < n <= 56 /\
  lzf_decompress (take (Z.to_nat n) out) n (replicate 61 0) 61 = Ok (inr (60, demo_text ++ [0])).
Proof.
  destruct (lzf_roundtrip (fun _ => 5) demo_text (replicate 57 255) 56) as (r & E & H); [cbn; lia|cbn; lia|].
  destruct r as [[n out]|]; [|vm_compute in E; discriminate E].
  exists n, out. split; [exact E|]. destruct (H n out eq_refl) as [Hn Hd]. split; [exact Hn|].
  apply (Hd (replicate 61 0)). cbn. lia.
Defined.

Lemma lzf_decompress_safe_witness :
  exists r, lzf_decompress [224; 7; 9; 0] 4 [1; 2; 3] 3 = Ok r /\
    match r with inl _ => True | inr (n, buf) => 0 < n <= 3 /\ length buf = 3%nat end.
Proof. apply (lzf_decompress_safe [224; 7; 9; 0] [1; 2; 3]); [by_compute|discriminate]. Defined.

Lemma crc64_exact_witness : crc64 0 (str "123456789") = Ok (crc64_ref 0 (str "123456789")) /\
  crc64_ref 0 (str "123456789") = 0xe9c6d914c4b8d9ca.
Proof. split; [apply crc64_exact; by_compute|vm_compute; reflexivity]. Defined.

Lemma crc64_detects_damage_witness : exists x y,
  crc64 0 (str "the " ++ str "left" ++ str " page") = Ok x /\ crc64 0 (str "the " ++ str "next" ++ str " page") = Ok y /\ x <> y.
Proof.
  apply (crc64_detects_damage (str "the ") (str "left") (str "next") (str " page") 0);
    [split; [lia|reflexivity]|by_compute|by_compute|reflexivity|cbn; lia|discriminate].
Defined.

Lemma safe_iterator_complete_witness : dictIsRehashing moving_dict = true /\
  exists l, iterate demo_hash 6 (fun _ => [str "a"; str "x"]) moving_dict dictGetSafeIterator = Ok (moving_dict, l) /\
    NoDup l.*1 /\ forall k v, (k, v) ∈ l <-> dict_map moving_dict !! k = Some v.
Proof.
  split; [vm_compute; reflexivity|].
  apply (safe_iterator_complete demo_hash (fun _ => [str "a"; str "x"]) moving_dict); [by apply filled_dict_ok|vm_compute; discriminate].
Defined.
